(* ===== verification/_CoqProject ===== *)
-Q . S2P
Prelude.v
Bytes.v
Bitmap.v
PvPage.v
Fifo.v
Dlist.v
Ktimer.v
Task.v
Signal.v
Proc.v
Fork.v
ProcTree.v
SigFrame.v
Heap.v
Pmm.v
TtyBuf.v
Poll.v
Tty.v
KString.v
Printf.v
Sha256.v
Calendar.v
Lock.v
Buffer.v
Pipe.v
Rbtree.v
Vma.v
Paging.v
Frames.v
Cow.v
PgtCopy.v
Minix.v
MinixZone.v
MinixFile.v
File.v
FileOk.v
FileStream.v
MinixNodes.v
Vfs.v
VfsPath.v
Mbuf.v
Net.v
Sock.v
Tcp.v
NetRx.v
