(* ===== verification/Prelude.v ===== *)
(** * TextOS: a verification library

    TextOS is an operating system for x86_64 (UEFI or multiboot), with its C library and its
    programs.  This library translates parts of it, from the C sources under [src/src], into Rocq
    functions and proves theorems about them.

    ** The program and its model

    The kernel has a bottom layer of data structures ([kernel/klib]) and memory management
    ([kernel/mm]); on it are tasks and signals ([kernel/task.c], [kernel/signal.c]), the virtual
    file system with its descriptors ([kernel/fs], [kernel/file.c]), terminals ([kernel/dev/tty])
    and the network ([kernel/net]).  User programs ([app]) reach it through system calls and the C
    library ([app/libc]).

    - Data structures.  [Bitmap] ([klib/bitmap.c]), [Fifo] ([klib/fifo.c]), [Dlist]
      ([klib/list.h]), [Rbtree] ([klib/rbtree.c]), [KString] ([klib/string.c]), [Calendar]
      ([klib/time.c] and [libc/time]).
    - Memory.  [Heap] ([mm/heap.c]), [Pmm] ([mm/pmm.c]), [PvPage] ([mm/pvpage.c]), [Paging] and
      [PgtCopy] ([mm/map.c]), [Frames] (the pages [Pmm] gives are what [Paging] asks for), [Vma]
      ([mm/mman]), [Cow] ([mm/fault.c], [mm/mman/ppg.c] and the sharing of pages by [fork]).
    - Tasks.  [Task] (scheduler and blocking), [Proc] (identity, fork, exit, wait; [task.c]), [Fork]
      and [ProcTree] (what they keep), [Signal] and [SigFrame] ([signal.c]), [Ktimer] ([ktimer.c]),
      [Lock] ([lock.c]).
    - Files.  [Minix], [MinixZone], [MinixFile] ([fs/minix]), [File], [FileOk], [FileStream]
      ([file.c]), [MinixNodes] (the file system behind descriptors), [Vfs], [VfsPath] ([fs/v*.c]),
      [Buffer] ([dev/blk/buffer.c], the cache Minix reads its blocks through), [Pipe]
      ([fs/drift/pipe.c]), [Poll] ([fs/poll.c]).
    - Terminals.  [TtyBuf], [Tty] ([dev/tty]).
    - Network.  [Mbuf] ([nic/mbuf.c]), [Net] ([net/*.c]), [Sock] and [Tcp] ([net/socket]), [NetRx].
    - Programs and text.  [Sha256] ([app/sha256sum.c]), [Printf] ([klib/vsprintf.c],
      [libc/stdlib/strtol.c]).

    Components meet in type classes: [PvPage] is written over the pool of numbers [Bitmap]
    implements, [Pipe] over the queue of [Fifo], [Paging] over a supply of frames ([Frames] is the
    instance), [Vma] over the removal of pages ([Cow] is the instance), [File] over the operations of
    nodes ([MinixNodes] is the instance), [Vfs] over the file systems, [Buffer] over the disk drivers
    and the locks of [Lock].

    ** How the code is translated

    A C integer is a [Z], and an operation that can leave its type is written with [wrap] or
    [signed].  A failed assertion, a null dereference and an access outside an object are values of
    [fault]; a routine returns [res].  Structures reached through pointers are maps from addresses
    to records, written field by field in the order of the code, so that aliasing is the code's own.
    A call that sleeps is cut in two: the part before, and the part after the wake-up, which starts
    in whatever state the rest of the kernel has left.

    Loops without a structural measure take fuel.  The fuel is the number of nodes of the structure
    walked, the length of the string or the number of bytes left, and the theorems prove that the
    call returns [Ok], so it is enough; [VfsPath.self_link_never_ends] proves of one call that no
    fuel is enough.  Hardware, drivers and other code outside the model are arguments with named
    hypotheses.

    ** What the theorems show

    - Refinement to an abstract value: queues, rings, lists, search trees and terminal buffers are
      the lists or sets they stand for; descriptors that share an open Minix file are one sequence
      of bytes with one offset ([MinixNodes.minix_fd_stream]); the block cache is an array of blocks,
      which is what [Minix] assumes of it ([Buffer.block_cache_refines], for one task and one size
      per device); TCP follows its state diagram.
    - Invariants over all calls: reference counts of open files ([FileOk.descriptors_counted]), the
      process tree, mutual exclusion (also when signals wake waiters), and the bytes and sleepers of
      a pipe.
    - Functional behaviour: a heap block is fresh and disjoint, [munmap] removes exactly its range,
      a mapped page translates to its frame, the page tables of a child share the pages of the
      parent, a process does not see what another one writes after [fork]
      ([Cow.fork_isolates]), and a write to a file is what a later read returns.
    - Equivalence with a definition of its own: SHA-256 with FIPS 180-4, dates with the rules of the
      Gregorian calendar.  The constants of SHA-256 are compared with the roots of primes that
      define them.
    - Round trips: inodes, paths, signal frames, lines of a terminal, dates, numbers as text.
    - Bounds: the text of a number stays in its buffer and its columns
      ([Printf.put_number_bounded]).
    - What the code does not do: statements of when a call leads to a fault, a deadlock, or a
      wrong result ([Buffer.bread_deadlock], [PgtCopy.clear_pgt_frees_shared_page],
      [MinixFile.inode_given_twice], [Lock.signalled_waiter_corrupts]); each is listed in the manifest
      as a finding.

    ** Not modelled

    - Third-party code kept in the tree: [kernel/lai] (an AML interpreter), [app/lua], [app/lvgl],
      [app/libc/3rdparty] (dlmalloc), the Unity test framework under [app/test], and
      [libc/crypt/crypt_des.c].
    - Mapped files that are written back ([mm/mman/sync.c] but for the registration of an area), and
      the start of memory management from the memory map of the firmware.
    - Code whose effect is on hardware: [kernel/arch], [kernel/apic.c], [kernel/acpi.c], the drivers
      under [kernel/dev] (disks, network cards, PCI, HPET, keyboard, mouse, consoles),
      [kernel/video], and the boot loader [boot/SigmaBootPkg].
    - File systems other than Minix version 1: FAT32, procfs, tmpfs, and Minix version 3, which is
      the same source compiled with other record sizes.
    - The rest of the C library, the dynamic linker, the shell and the small programs: they parse
      and print text around the system calls that are modelled. *)
From Stdlib Require Import ZArith Lia List Bool.
From stdpp Require Import base list gmap.

#[local] Open Scope Z_scope.

(** ** Machine integers

    Every C integer is a [Z]; an operation that can leave its type's range is
    wrapped explicitly with [wrap w] (unsigned, modulo 2^w) or [signed w]
    (two's complement). *)

Definition wrap (w x : Z) : Z := x mod 2 ^ w.

Abbreviation u8 := (wrap 8).
Abbreviation u16 := (wrap 16).
Abbreviation u32 := (wrap 32).
Abbreviation u64 := (wrap 64).

Definition signed (w x : Z) : Z :=
  let y := wrap w x in if y <? 2 ^ (w - 1) then y else y - 2 ^ w.

Abbreviation i8 := (signed 8).
Abbreviation i32 := (signed 32).
Abbreviation i64 := (signed 64).

(** The all-ones [size_t] the C code writes as [(size_t)-1]. *)
Definition SIZE_MAX : Z := 2 ^ 64 - 1.

(** [textos/base.h] *)
Definition MAX (a b : Z) : Z := if b <? a then a else b.

Definition MIN (a b : Z) : Z := if a <? b then a else b.

(** [DIV_ROUND_UP] on 64-bit unsigned operands. *)
Definition DIV_ROUND_UP (num divisor : Z) : Z := u64 (num + (divisor - 1)) / divisor.

Definition PAGE_SHIFT : Z := 12.

Definition PAGE_SIZ : Z := 4096.

Definition PAGE_MASK : Z := PAGE_SIZ - 1.

(** ** Faults

    A kernel routine that runs into a failed [ASSERTK], a [PANIC], a null
    dereference or an access outside the object it owns does not return; the
    model makes that outcome a value. *)

Inductive fault :=
| AssertFailed
| Panicked
| NullDeref
| OutOfBounds
| OutOfFuel.

Inductive res (A : Type) :=
| Ok (a : A)
| Fault (f : fault).
Arguments Ok {A} a.
Arguments Fault {A} f.

Definition res_bind {A B : Type} (m : res A) (k : A -> res B) : res B :=
  match m with
  | Ok a => k a
  | Fault f => Fault f
  end.

(** [ASSERTK(b)] *)
Definition ASSERTK (b : bool) : res unit := if b then Ok tt else Fault AssertFailed.

(** A pointer dereference: [None] is the null (or dangling) pointer. *)
Definition deref {A : Type} (p : option A) : res A :=
  match p with
  | Some a => Ok a
  | None => Fault NullDeref
  end.

(** An array access at a C index. *)
Definition aget {A : Type} (l : list A) (i : Z) : res A :=
  if 0 <=? i then
    match l !! Z.to_nat i with
    | Some a => Ok a
    | None => Fault OutOfBounds
    end
  else Fault OutOfBounds.

Definition aset {A : Type} (l : list A) (i : Z) (a : A) : res (list A) :=
  if (0 <=? i) && (i <? Z.of_nat (length l)) then Ok (<[Z.to_nat i := a]> l)
  else Fault OutOfBounds.

Declare Scope res_scope.
Delimit Scope res_scope with res.
Notation "'let!' x := m 'in' k" := (res_bind m (fun x => k))
  (at level 10, x binder, m at level 200, k at level 200) : res_scope.
Notation "'do!' m 'in' k" := (res_bind m (fun _ => k))
  (at level 10, m at level 200, k at level 200) : res_scope.
Open Scope res_scope.

(** ** Record update *)

(** An instance of [Eta R] rebuilds a record from its own projections; from it
    the update of any single field is derived. *)
Class Eta (R : Type) := eta : R -> R.

Class Upd {R A : Type} (f : R -> A) := upd : (A -> A) -> R -> R.

Arguments upd {R A} f {_} _ _.

Ltac derive_upd :=
  match goal with
  | |- @Upd ?R ?A ?f =>
      let g := fresh "g" in
      let r := fresh "r" in
      intros g r;
      let e := constr:(@eta R _ r) in
      let e := eval hnf in e in
      match eval pattern (f r) in e with
      | ?k _ => let t := eval cbv beta in (k (g (f r))) in exact t
      end
  end.

#[export] Hint Extern 0 (Upd _) => derive_upd : typeclass_instances.

Declare Scope record_scope.
Delimit Scope record_scope with rec.
Notation "r <| f := v |>" := (upd f (fun _ => v) r)
  (at level 1, left associativity, f at next level, format "r  <| f  :=  v |>") : record_scope.
Notation "r <| f ::= g |>" := (upd f g r)
  (at level 1, left associativity, f at next level, format "r  <| f  ::=  g |>") : record_scope.
Open Scope record_scope.

(** ** Automation *)

Create HintDb textos discriminated.
Create Rewrite HintDb mint.

(** Case split on the boolean tests of the goal, turning them into facts that
    [lia] understands. *)
Ltac bool_facts :=
  repeat match goal with
  | H : (_ && _) = true |- _ => apply andb_true_iff in H as [? ?]
  | H : (_ || _) = false |- _ => apply orb_false_iff in H as [? ?]
  | H : negb _ = true |- _ => apply negb_true_iff in H
  | H : negb _ = false |- _ => apply negb_false_iff in H
  | H : (_ =? _) = true |- _ => apply Z.eqb_eq in H
  | H : (_ =? _) = false |- _ => apply Z.eqb_neq in H
  | H : (_ <? _) = true |- _ => apply Z.ltb_lt in H
  | H : (_ <? _) = false |- _ => apply Z.ltb_ge in H
  | H : (_ <=? _) = true |- _ => apply Z.leb_le in H
  | H : (_ <=? _) = false |- _ => apply Z.leb_gt in H
  end.

Ltac case_bool b := let H := fresh "E" in destruct b eqn:H; bool_facts.

Ltac case_if :=
  match goal with
  | |- context [if ?b then _ else _] => case_bool b
  | H : context [if ?b then _ else _] |- _ => case_bool b
  end.

(** [lia] with division and remainder. *)
Ltac dlia := Z.to_euclidean_division_equations; lia.

(** Inversion of a successful computation. *)
Ltac res_inv :=
  repeat match goal with
  | H : res_bind ?m _ = Ok _ |- _ =>
      let E := fresh "E" in destruct m eqn:E; cbn [res_bind] in H; [|discriminate H]
  | H : Ok _ = Ok _ |- _ => injection H as H; subst
  | H : Fault _ = Ok _ |- _ => discriminate H
  end.

(** The first step of a successful computation, named. *)
Tactic Notation "bind_inv" ident(H) "as" simple_intropattern(x) ident(Hx) := 
  match type of H with
  | res_bind ?m _ = Ok _ => destruct m as [x|] eqn:Hx; [cbn [res_bind] in H|discriminate H]
  end.

(** ** Total computations

    [total m Q]: the computation returns, and its result satisfies [Q]. *)

Definition total {A : Type} (m : res A) (Q : A -> Prop) : Prop := exists a, m = Ok a /\ Q a.

Lemma total_Ok {A : Type} (a : A) (Q : A -> Prop) : Q a -> total (Ok a) Q.
Proof. exists a. done. Qed.

Lemma total_bind {A B : Type} (m : res A) (f : A -> res B) (Q : A -> Prop) (R : B -> Prop) :
  total m Q -> (forall a, Q a -> total (f a) R) -> total (res_bind m f) R.
Proof. intros (a & -> & HQ) Hf. cbn. by apply Hf. Qed.

Lemma total_mono {A : Type} (m : res A) (Q R : A -> Prop) :
  total m Q -> (forall a, Q a -> R a) -> total m R.
Proof. intros (a & -> & HQ) Hi. exists a. auto. Qed.

Lemma total_deref {A : Type} (o : option A) : is_Some o -> total (deref o) (fun a => o = Some a).
Proof. intros [a ->]. exists a. done. Qed.

(** ** Lemmas on machine integers *)

Lemma wrap_range w x : 0 <= w -> 0 <= wrap w x < 2 ^ w.
Proof. intros. apply Z.mod_pos_bound. apply Z.pow_pos_nonneg; lia. Qed.

Lemma wrap_small w x : 0 <= x < 2 ^ w -> wrap w x = x.
Proof. apply Z.mod_small. Qed.

Lemma wrap_wrap w x : wrap w (wrap w x) = wrap w x.
Proof. unfold wrap. apply Zmod_mod. Qed.

Lemma wrap_add_l w x y : wrap w (wrap w x + y) = wrap w (x + y).
Proof. unfold wrap. apply Zplus_mod_idemp_l. Qed.

Lemma wrap_add_r w x y : wrap w (x + wrap w y) = wrap w (x + y).
Proof. unfold wrap. apply Zplus_mod_idemp_r. Qed.

Lemma wrap_sub_l w x y : wrap w (wrap w x - y) = wrap w (x - y).
Proof. unfold wrap. apply Zminus_mod_idemp_l. Qed.

Lemma wrap_sub_r w x y : wrap w (x - wrap w y) = wrap w (x - y).
Proof. unfold wrap. apply Zminus_mod_idemp_r. Qed.

#[export] Hint Rewrite wrap_wrap wrap_add_l wrap_add_r wrap_sub_l wrap_sub_r : mint.

Lemma signed_small w x : 0 < w -> - 2 ^ (w - 1) <= x < 2 ^ (w - 1) -> signed w x = x.
Proof.
  intros Hw Hx. unfold signed, wrap.
  assert (2 ^ w = 2 * 2 ^ (w - 1)) as E by (rewrite <- Z.pow_succ_r by lia; f_equal; lia).
  destruct (Z.lt_ge_cases x 0).
  - replace (x mod 2 ^ w) with (x + 2 ^ w).
    + destruct (Z.ltb_spec (x + 2 ^ w) (2 ^ (w - 1))); lia.
    + symmetry. rewrite <- (Z_mod_plus_full x 1). rewrite Z.mul_1_l. apply Z.mod_small. lia.
  - rewrite Z.mod_small by lia. destruct (Z.ltb_spec x (2 ^ (w - 1))); lia.
Qed.

Lemma MIN_min a b : MIN a b = Z.min a b.
Proof. unfold MIN. destruct (Z.ltb_spec a b); lia. Qed.

Lemma MAX_max a b : MAX a b = Z.max a b.
Proof. unfold MAX. destruct (Z.ltb_spec b a); lia. Qed.

#[export] Hint Rewrite MIN_min MAX_max : mint.

Lemma DIV_ROUND_UP_small n d :
  0 <= n -> 0 < d -> n + (d - 1) < 2 ^ 64 -> DIV_ROUND_UP n d = (n + (d - 1)) / d.
Proof. intros. unfold DIV_ROUND_UP. rewrite wrap_small by lia. reflexivity. Qed.

(** ** Lemmas on arrays *)

Lemma aget_Ok {A : Type} (l : list A) i a :
  aget l i = Ok a <-> 0 <= i /\ l !! Z.to_nat i = Some a.
Proof.
  unfold aget. destruct (Z.leb_spec 0 i); [|split; [discriminate|lia]].
  destruct (l !! Z.to_nat i); split; intros Hx; [|destruct Hx| |destruct Hx]; try congruence.
  injection Hx as ->. auto.
Qed.

Lemma aget_lt {A : Type} (l : list A) i :
  0 <= i < Z.of_nat (length l) -> exists a, aget l i = Ok a /\ l !! Z.to_nat i = Some a.
Proof.
  intros H. destruct (lookup_lt_is_Some_2 l (Z.to_nat i)) as [a Ha]; [lia|].
  exists a. split; [apply aget_Ok; split; [lia|done]|done].
Qed.

Lemma aset_lt {A : Type} (l : list A) i a :
  0 <= i < Z.of_nat (length l) -> aset l i a = Ok (<[Z.to_nat i := a]> l).
Proof.
  intros H. unfold aset.
  replace (0 <=? i) with true by lia. replace (i <? _) with true by lia. reflexivity.
Qed.

(** ** Lemmas on lists of lists *)

Lemma concat_elem {A} (Xs : list (list A)) j Xj p : Xs !! j = Some Xj -> p ∈ Xj -> p ∈ concat Xs.
Proof. intros Hj Hp. apply list_elem_of_In, in_concat. exists Xj. split; apply list_elem_of_In; [by eapply list_elem_of_lookup_2|done]. Qed.

Lemma elem_concat {A} (Xs : list (list A)) p : p ∈ concat Xs -> exists j Xj, Xs !! j = Some Xj /\ p ∈ Xj.
Proof.
  intros (Xj & Hin & Hp)%list_elem_of_In%in_concat. apply list_elem_of_In in Hin, Hp. apply list_elem_of_lookup in Hin as [j Hj]. by exists j, Xj.
Qed.

(** ** Error numbers: [textos/errno.h] *)

Definition EPERM : Z := 1.
Definition ENOENT : Z := 2.
Definition ESRCH : Z := 3.
Definition EINTR : Z := 4.
Definition EIO : Z := 5.
Definition ENXIO : Z := 6.
Definition EBADF : Z := 9.
Definition ECHILD : Z := 10.
Definition EAGAIN : Z := 11.
Definition ENOMEM : Z := 12.
Definition EACCES : Z := 13.
Definition EFAULT : Z := 14.
Definition EEXIST : Z := 17.
Definition ENODEV : Z := 19.
Definition ENOTDIR : Z := 20.
Definition EISDIR : Z := 21.
Definition EINVAL : Z := 22.
Definition EMFILE : Z := 24.
Definition ENOSPC : Z := 28.
Definition ENOSYS : Z := 38.
Definition ENOTEMPTY : Z := 39.
Definition ELOOP : Z := 40.
Definition ETIME : Z := 62.
