(* ===== verification/Bytes.v ===== *)
(** * Bytes in memory

    Little-endian loads and stores in an array of bytes and the lemmas the packet
    buffers and the disk blocks share. *)
From Stdlib Require Import ZArith Lia List Bool.
From stdpp Require Import base list.
From S2P Require Import Prelude.

#[local] Open Scope Z_scope.

Definition is_byte (b : Z) : Prop := 0 <= b < 256.

(** A 16-bit and a 32-bit load and store of a little-endian machine. *)
Definition ld16 (l : list Z) (i : Z) : res Z :=
  let! a := aget l i in let! b := aget l (i + 1) in Ok (a + 256 * b).

Definition ld32 (l : list Z) (i : Z) : res Z :=
  let! a := ld16 l i in let! b := ld16 l (i + 2) in Ok (a + 65536 * b).

Definition le16 (v : Z) : list Z := [v mod 256; v / 256 mod 256].

Definition le32 (v : Z) : list Z := le16 (v mod 65536) ++ le16 (v / 65536).

(** [memcpy] into [l] at [i]. *)
Fixpoint st (l : list Z) (i : Z) (bs : list Z) : res (list Z) :=
  match bs with
  | [] => Ok l
  | b :: bs => let! l := aset l i b in st l (i + 1) bs
  end.

(** [memcpy] out of [l] at [i]. *)
Fixpoint ld (l : list Z) (i : Z) (n : nat) : res (list Z) :=
  match n with
  | O => Ok []
  | S n => let! b := aget l i in let! bs := ld l (i + 1) n in Ok (b :: bs)
  end.

Lemma st_app bs : forall (a x c : list Z),
  length x = length bs -> st (a ++ x ++ c) (Z.of_nat (length a)) bs = Ok (a ++ bs ++ c).
Proof.
  induction bs as [|b bs IH]; intros a x c Hx; destruct x as [|y x]; try discriminate; cbn [st]; [done|].
  rewrite aset_lt by (rewrite !length_app; cbn; lia). cbn [res_bind]. rewrite Nat2Z.id.
  change ((y :: x) ++ c) with (y :: (x ++ c)). rewrite insert_app_r_alt, Nat.sub_diag by lia. cbn [insert list_insert].
  specialize (IH (a ++ [b]) x c ltac:(cbn in Hx; lia)). rewrite length_app in IH. cbn [length] in IH.
  replace (Z.of_nat (length a) + 1) with (Z.of_nat (length a + 1)) by lia.
  rewrite <- !app_assoc in IH. cbn [app] in IH. exact IH.
Qed.

Lemma ld_app x : forall (a c : list Z), ld (a ++ x ++ c) (Z.of_nat (length a)) (length x) = Ok x.
Proof.
  induction x as [|y x IH]; intros a c; cbn [ld length]; [done|].
  assert (aget (a ++ (y :: x) ++ c) (Z.of_nat (length a)) = Ok y) as ->.
  { apply aget_Ok. split; [lia|]. rewrite Nat2Z.id. by apply list_lookup_middle. }
  cbn [res_bind]. specialize (IH (a ++ [y]) c). rewrite length_app in IH. cbn [length] in IH.
  replace (Z.of_nat (length a) + 1) with (Z.of_nat (length a + 1)) by lia.
  rewrite <- !app_assoc in IH. cbn [app] in IH |- *. by rewrite IH.
Qed.

(** ** Access at any place of an array *)

(** The 16-bit word at a byte offset. *)
Definition w16 (l : list Z) (i : nat) : Z := nth i l 0 + 256 * nth (S i) l 0.

Definition bytes_ok (l : list Z) : Prop := Forall is_byte l.

Lemma aget_nth (l : list Z) (i : Z) : 0 <= i < Z.of_nat (length l) -> aget l i = Ok (nth (Z.to_nat i) l 0).
Proof.
  intros Hi. destruct (aget_lt l i Hi) as (a & Ha & Hl). rewrite Ha. f_equal. symmetry. by apply nth_lookup_Some.
Qed.

Lemma ld16_w16 (l : list Z) (i : Z) : 0 <= i -> i + 1 < Z.of_nat (length l) -> ld16 l i = Ok (w16 l (Z.to_nat i)).
Proof.
  intros H0 H1. unfold ld16. rewrite !aget_nth by lia. cbn [res_bind]. unfold w16. by replace (Z.to_nat (i + 1)) with (S (Z.to_nat i)) by lia.
Qed.

Lemma bytes_nth (l : list Z) i : bytes_ok l -> is_byte (nth i l 0).
Proof.
  intros Hl. destruct (decide (i < length l)%nat) as [Hi|Hi].
  - destruct (lookup_lt_is_Some_2 l i Hi) as [x Hx]. rewrite (nth_lookup_Some _ _ _ _ Hx). unfold bytes_ok in Hl. rewrite Forall_lookup in Hl. by eapply Hl.
  - rewrite nth_overflow by lia. unfold is_byte. lia.
Qed.

Lemma w16_range (l : list Z) i : bytes_ok l -> 0 <= w16 l i < 65536.
Proof. intros Hl. pose proof (bytes_nth l i Hl) as H0. pose proof (bytes_nth l (S i) Hl) as H1. unfold w16, is_byte in *. lia. Qed.

(** [memcpy] into the middle of an array. *)
Definition splice (l : list Z) (i : nat) (bs : list Z) : list Z := take i l ++ bs ++ drop (i + length bs) l.

Lemma st_splice (l : list Z) (i : Z) bs :
  0 <= i -> i + Z.of_nat (length bs) <= Z.of_nat (length l) -> st l i bs = Ok (splice l (Z.to_nat i) bs).
Proof.
  intros H0 H1. unfold splice.
  pose proof (st_app bs (take (Z.to_nat i) l) (take (length bs) (drop (Z.to_nat i) l)) (drop (Z.to_nat i + length bs) l)) as H.
  rewrite <- drop_drop, take_drop, take_drop in H. rewrite (length_take_le l), Z2Nat.id in H by lia.
  rewrite <- drop_drop. apply H. rewrite length_take_le; [done|]. rewrite length_drop. lia.
Qed.

Lemma length_splice (l : list Z) i bs : (i + length bs <= length l)%nat -> length (splice l i bs) = length l.
Proof. intros H. unfold splice. rewrite !length_app, length_drop, length_take_le; lia. Qed.

Lemma lookup_splice (l : list Z) i bs j : (i + length bs <= length l)%nat ->
  splice l i bs !! j = if decide (i <= j < i + length bs)%nat then bs !! (j - i)%nat else l !! j.
Proof.
  intros H. unfold splice. assert (length (take i l) = i) as Hl by (rewrite length_take_le; lia).
  case_decide as Hd.
  - rewrite lookup_app_r by lia. rewrite lookup_app_l by lia. by rewrite Hl.
  - destruct (decide (j < i)%nat).
    + rewrite lookup_app_l by lia. by rewrite lookup_take_lt by lia.
    + rewrite lookup_app_r by lia. rewrite lookup_app_r by lia. rewrite lookup_drop, Hl. f_equal. lia.
Qed.

Lemma nth_splice (l : list Z) i bs j : (i + length bs <= length l)%nat ->
  nth j (splice l i bs) 0 = if decide (i <= j < i + length bs)%nat then nth (j - i) bs 0 else nth j l 0.
Proof.
  intros H. rewrite !nth_lookup, lookup_splice by done. by case_decide.
Qed.

Lemma bytes_splice (l : list Z) i bs : (i + length bs <= length l)%nat -> bytes_ok l -> bytes_ok bs -> bytes_ok (splice l i bs).
Proof.
  intros Hl H1 H2. unfold splice, bytes_ok. rewrite !Forall_app. split_and!; [by apply Forall_take|done|by apply Forall_drop].
Qed.

Lemma le16_ok v : bytes_ok (le16 v).
Proof. unfold le16. repeat constructor; unfold is_byte; dlia. Qed.

Lemma le16_value v : 0 <= v < 65536 -> w16 (le16 v) 0 = v.
Proof. intros. unfold w16, le16. cbn [nth]. dlia. Qed.

(** A 16-bit word of a table after a 16-bit store. *)
Lemma w16_splice (l : list Z) i v j : (2 * i + 2 <= length l)%nat -> 0 <= v < 65536 ->
  w16 (splice l (2 * i) (le16 v)) (2 * j) = if decide (j = i) then v else w16 l (2 * j).
Proof.
  intros Hl Hv. unfold w16. rewrite !nth_splice by (cbn [le16 length]; lia). cbn [le16 length]. destruct (decide (j = i)) as [->|Hd].
  - rewrite !decide_True by lia. replace (2 * i - 2 * i)%nat with 0%nat by lia. replace (S (2 * i) - 2 * i)%nat with 1%nat by lia. exact (le16_value v Hv).
  - by rewrite !decide_False by lia.
Qed.

(** [memcpy] out of an array. *)
Lemma ld_take (l : list Z) (i : Z) n : 0 <= i -> i + Z.of_nat n <= Z.of_nat (length l) ->
  ld l i n = Ok (take n (drop (Z.to_nat i) l)).
Proof.
  intros H0 H1. pose proof (ld_app (take n (drop (Z.to_nat i) l)) (take (Z.to_nat i) l) (drop (Z.to_nat i + n) l)) as H.
  rewrite <- drop_drop, take_drop, take_drop in H. rewrite !length_take_le in H by (rewrite ?length_drop; lia).
  by rewrite Z2Nat.id in H by lia.
Qed.

(** [src] put over the bytes of [c] from [o] on. *)
Definition overwrite (c : list Z) (o : Z) (src : list Z) : list Z := take (Z.to_nat o) c ++ src ++ drop (Z.to_nat o + length src) c.

Lemma length_overwrite c o src : 0 <= o <= Z.of_nat (length c) ->
  Z.of_nat (length (overwrite c o src)) = Z.max (Z.of_nat (length c)) (o + Z.of_nat (length src)).
Proof. intros Ho. unfold overwrite. rewrite !length_app, length_take_le, length_drop by lia. lia. Qed.
