(* ===== verification/Bitmap.v ===== *)
(** * Bitmaps: [kernel/klib/bitmap.c] and its client [kernel/mm/pvpage.c] *)
From Stdlib Require Import ZArith Lia List Bool.
From stdpp Require Import base list.
From S2P Require Import Prelude.

#[local] Open Scope Z_scope.

(** [bitmap_t]: the units the pointer [map] designates, and the size in bits. *)
Record bitmap := Bitmap { bm_map : list Z; bm_bits : Z }.

#[export] Instance eta_bitmap : Eta bitmap := fun b => Bitmap (bm_map b) (bm_bits b).

(** [mpunit] is [u8]: [mpfull] and [mpembs] *)
Definition mpfull : Z := 255.

Definition mpembs : Z := 8.

(** [bitmap_init]: [bmp] and [buf] are the pointer arguments ([None] is NULL),
    [heap_buf] and [heap_bmp] what the two [malloc] calls return; the contents
    of a fresh heap buffer are whatever the heap held. *)
Definition bitmap_init (bmp : option bitmap) (buf : option (list Z)) (nbits : Z)
    (heap_buf : option (list Z)) (heap_bmp : bool) : option bitmap :=
  let bytes := DIV_ROUND_UP nbits mpembs in
  match (match buf with Some b => Some b | None => heap_buf end) with
  | None => None
  | Some b =>
      match bmp with
      | Some _ => Some (Bitmap b nbits)
      | None =>
          if heap_bmp
          then Some (Bitmap (replicate (Z.to_nat bytes) 0 ++ drop (Z.to_nat bytes) b) nbits)
          else None
      end
  end.

(** [__builtin_ffs]: one plus the index of the lowest set bit, 0 when there is none. *)
Fixpoint ffs_from (n : nat) (i x : Z) : Z :=
  match n with
  | O => 0
  | S n => if Z.testbit x i then i + 1 else ffs_from n (i + 1) x
  end.

Definition builtin_ffs (x : Z) : Z := ffs_from 32 0 x.

(** [poplow] *)
Definition poplow (x : Z) : Z :=
  let x := u8 (Z.lnot x) in
  builtin_ffs x - 1.

Definition SET (x i : Z) : Z := u8 (Z.lor x (Z.shiftl 1 i)).

Definition CLR (x i : Z) : Z := u8 (Z.land x (Z.lnot (Z.shiftl 1 i))).

Definition TEST (x i : Z) : Z := Z.land x (Z.shiftl 1 i).

(** The search loop of [bitmap_find_range]; [fuel] bounds the remaining units. *)
Fixpoint find_loop (fuel : nat) (b : bitmap) (bytes idx mask : Z) : res (Z * bitmap) :=
  match fuel with
  | O => Ok (SIZE_MAX, b)
  | S fuel =>
      if idx <? bytes then
        let! p := aget (bm_map b) idx in
        let unit := Z.lor p mask in
        if unit =? mpfull then find_loop fuel b bytes (idx + 1) 0
        else
          let low := poplow unit in
          if (idx =? bytes - 1) && negb (bm_bits b mod mpembs =? 0) && (bm_bits b mod mpembs <=? low)
          then Ok (SIZE_MAX, b)
          else
            let! m := aset (bm_map b) idx (SET p low) in
            Ok (low + mpembs * idx, b <| bm_map := m |>)
      else Ok (SIZE_MAX, b)
  end.

(** [bitmap_find_range] *)
Definition bitmap_find_range (b : bitmap) (from to : Z) : res (Z * bitmap) :=
  do! ASSERTK (to <=? bm_bits b) in
  do! ASSERTK (from <=? to) in
  let bytes := DIV_ROUND_UP (bm_bits b) mpembs in
  let idx := from / mpembs in
  let mask := u8 (Z.shiftl 1 (from mod mpembs) - 1) in
  find_loop (Z.to_nat (bytes - idx)) b bytes idx mask.

Definition bitmap_find (b : bitmap) : res (Z * bitmap) := bitmap_find_range b 0 (bm_bits b).

Definition bitmap_find_from (b : bitmap) (from : Z) : res (Z * bitmap) :=
  bitmap_find_range b from (bm_bits b).

Definition bitmap_exist (b : bitmap) (i : Z) : bool := i <? bm_bits b.

Definition bitmap_test (b : bitmap) (i : Z) : res bool :=
  do! ASSERTK (bitmap_exist b i) in
  let idx := i / mpembs in
  let low := i mod mpembs in
  let! x := aget (bm_map b) idx in
  Ok (negb (TEST x low =? 0)).

Definition bitmap_set (b : bitmap) (i : Z) : res bitmap :=
  do! ASSERTK (bitmap_exist b i) in
  let idx := i / mpembs in
  let low := i mod mpembs in
  let! x := aget (bm_map b) idx in
  let! m := aset (bm_map b) idx (SET x low) in
  Ok (b <| bm_map := m |>).

Definition bitmap_reset (b : bitmap) (i : Z) : res bitmap :=
  do! ASSERTK (bitmap_exist b i) in
  let idx := i / mpembs in
  let low := i mod mpembs in
  let! x := aget (bm_map b) idx in
  let! m := aset (bm_map b) idx (CLR x low) in
  Ok (b <| bm_map := m |>).

Definition bitmap_clear (b : bitmap) : bitmap :=
  let bytes := Z.to_nat (DIV_ROUND_UP (bm_bits b) mpembs) in
  b <| bm_map := replicate bytes 0 ++ drop bytes (bm_map b) |>.

(** ** The abstract bitmap: which indices are taken *)

Definition bit (b : bitmap) (i : Z) : bool :=
  Z.testbit (bm_map b !!! Z.to_nat (i / mpembs)) (i mod mpembs).

Definition is_unit (x : Z) : Prop := 0 <= x < 256.

Record bitmap_ok (b : bitmap) : Prop := {
  ok_bits : 0 <= bm_bits b < 2 ^ 64 - 8;
  ok_len : (bm_bits b + 7) / 8 <= Z.of_nat (length (bm_map b));
  ok_unit : Forall is_unit (bm_map b) }.

(** ** Bit-level lemmas *)

(** Facts about all the unit values are checked by enumeration. *)
Lemma units_enum (P : Z -> bool) :
  forallb P (seqZ 0 256) = true -> forall x, is_unit x -> P x = true.
Proof.
  intros H x Hx. rewrite forallb_forall in H. apply H.
  apply list_elem_of_In, elem_of_seqZ. unfold is_unit in Hx. lia.
Qed.

Lemma poplow_spec x :
  is_unit x -> x <> mpfull ->
  0 <= poplow x < 8 /\ Z.testbit x (poplow x) = false /\
  (forall j, 0 <= j < poplow x -> Z.testbit x j = true).
Proof.
  intros Hx Hf.
  pose proof (units_enum (fun x => (x =? mpfull) ||
     ((0 <=? poplow x) && (poplow x <? 8) && negb (Z.testbit x (poplow x)) &&
      forallb (fun j => Z.testbit x j) (seqZ 0 (poplow x)))) eq_refl x Hx) as H.
  apply orb_true_iff in H as [H|H]; bool_facts; [done|].
  repeat split; try done.
  intros j Hj. rewrite forallb_forall in *.
  match goal with K : forall y, In y _ -> _ |- _ => apply K end.
  apply list_elem_of_In, elem_of_seqZ. lia.
Qed.

Lemma testbit_unit_high x j : is_unit x -> 8 <= j -> Z.testbit x j = false.
Proof.
  intros Hx Hj. rewrite <- (Z.mod_small x (2 ^ 8)) by (unfold is_unit in Hx; lia).
  apply Z.mod_pow2_bits_high. lia.
Qed.

Lemma testbit_u8 x j : 0 <= j < 8 -> Z.testbit (u8 x) j = Z.testbit x j.
Proof. intros. unfold wrap. apply Z.mod_pow2_bits_low. lia. Qed.

Lemma testbit_shl1 i j : 0 <= i -> Z.testbit (Z.shiftl 1 i) j = (i =? j).
Proof.
  intros Hi. rewrite Z.shiftl_1_l. destruct (Z.eqb_spec i j) as [->|Hne].
  - apply Z.pow2_bits_true. lia.
  - apply Z.pow2_bits_false. lia.
Qed.

Lemma is_unit_u8 x : is_unit (u8 x).
Proof. unfold is_unit. pose proof (wrap_range 8 x). lia. Qed.

Lemma testbit_SET x i j :
  0 <= i -> 0 <= j < 8 -> Z.testbit (SET x i) j = Z.testbit x j || (i =? j).
Proof. intros. unfold SET. rewrite testbit_u8, Z.lor_spec, testbit_shl1 by lia. done. Qed.

Lemma testbit_CLR x i j :
  0 <= i -> 0 <= j < 8 -> Z.testbit (CLR x i) j = Z.testbit x j && negb (i =? j).
Proof.
  intros. unfold CLR. rewrite testbit_u8, Z.land_spec, Z.lnot_spec, testbit_shl1 by lia. done.
Qed.

Lemma TEST_testbit x i : 0 <= i -> negb (TEST x i =? 0) = Z.testbit x i.
Proof.
  intros Hi. unfold TEST. rewrite Z.shiftl_1_l.
  destruct (Z.testbit x i) eqn:E.
  - apply negb_true_iff, Z.eqb_neq. intros H0.
    assert (Z.testbit (Z.land x (2 ^ i)) i = false) as Hb by (rewrite H0; apply Z.bits_0).
    rewrite Z.land_spec, E, Z.pow2_bits_true in Hb by lia. discriminate.
  - apply negb_false_iff, Z.eqb_eq, Z.bits_inj'. intros k Hk.
    rewrite Z.land_spec, Z.bits_0. destruct (Z.eq_dec i k) as [->|Hne]; [by rewrite E|].
    rewrite Z.pow2_bits_false by lia. apply andb_false_r.
Qed.

#[export] Hint Resolve is_unit_u8 : textos.

(** ** Unit updates *)

Lemma bytes_eq b : bitmap_ok b -> DIV_ROUND_UP (bm_bits b) mpembs = (bm_bits b + 7) / 8.
Proof. intros []. apply DIV_ROUND_UP_small; unfold mpembs; lia. Qed.

Lemma idx_in_range b i :
  bitmap_ok b -> 0 <= i < bm_bits b -> 0 <= i / mpembs < Z.of_nat (length (bm_map b)).
Proof.
  intros [Hb Hl _] Hi. unfold mpembs.
  assert (i / 8 < (bm_bits b + 7) / 8); [|split; [apply Z.div_pos|]; lia].
  apply Z.div_lt_upper_bound; [lia|]. pose proof (Z.mul_div_le (bm_bits b + 7) 8).
  pose proof (Z.mod_pos_bound (bm_bits b + 7) 8). pose proof (Z.div_mod (bm_bits b + 7) 8). lia.
Qed.

Lemma unit_at b k x : bitmap_ok b -> bm_map b !! k = Some x -> is_unit x.
Proof. intros [_ _ Hu] Hk. by eapply Forall_lookup_1 in Hu. Qed.

Lemma upd_unit_ok b k x :
  bitmap_ok b -> bitmap_ok (b <| bm_map := <[k := u8 x]> (bm_map b) |>).
Proof.
  intros [H1 H2 H3]. split; cbn; [done|by rewrite length_insert|].
  apply Forall_insert; auto with textos.
Qed.

(** Replacing the unit of index [i] changes exactly the bits of that unit. *)
Lemma bit_upd b i j x f :
  0 <= i -> 0 <= j -> 0 <= i / mpembs < Z.of_nat (length (bm_map b)) ->
  bm_map b !! Z.to_nat (i / mpembs) = Some x ->
  (forall k, 0 <= k < 8 -> Z.testbit (f x) k = if k =? i mod mpembs then Z.testbit (f x) k else Z.testbit x k) ->
  bit (b <| bm_map := <[Z.to_nat (i / mpembs) := f x]> (bm_map b) |>) j =
  if j =? i then Z.testbit (f x) (i mod mpembs) else bit b j.
Proof.
  intros Hi Hj Hr Hx Hf. unfold bit; cbn.
  pose proof (Z.div_mod i mpembs ltac:(done)) as Di. pose proof (Z.div_mod j mpembs ltac:(done)) as Dj.
  pose proof (Z.mod_pos_bound i mpembs ltac:(done)). pose proof (Z.mod_pos_bound j mpembs ltac:(done)).
  assert (0 <= j / mpembs) by (apply Z.div_pos; unfold mpembs; lia).
  destruct (Z.eq_dec (i / mpembs) (j / mpembs)) as [E|E].
  - rewrite <- E. rewrite list_lookup_total_insert_eq by lia.
    rewrite (list_lookup_total_correct _ _ _ Hx).
    rewrite Hf by (unfold mpembs in *; lia).
    destruct (Z.eqb_spec (j mod mpembs) (i mod mpembs)) as [E2|E2].
    + replace (j =? i) with true by lia. by rewrite E2.
    + replace (j =? i) with false; [done|]. symmetry. apply Z.eqb_neq. congruence.
  - rewrite list_lookup_total_insert_ne by lia.
    replace (j =? i) with false; [done|]. symmetry. apply Z.eqb_neq. congruence.
Qed.

(** ** Operations on one bit *)

Lemma access b i :
  bitmap_ok b -> 0 <= i < bm_bits b ->
  exists x, aget (bm_map b) (i / mpembs) = Ok x /\ bm_map b !! Z.to_nat (i / mpembs) = Some x /\ is_unit x.
Proof.
  intros Hok Hi. pose proof (idx_in_range b i Hok Hi) as Hr.
  destruct (aget_lt (bm_map b) (i / mpembs) Hr) as (x & Hg & Hl).
  exists x. eauto using unit_at.
Qed.

Lemma low_range i : 0 <= i mod mpembs < 8.
Proof. apply Z.mod_pos_bound. done. Qed.

Lemma exist_true b i : i < bm_bits b -> bitmap_exist b i = true.
Proof. intros. unfold bitmap_exist. lia. Qed.

Lemma set_unit_bit b i x j :
  bitmap_ok b -> 0 <= i < bm_bits b -> 0 <= j -> bm_map b !! Z.to_nat (i / mpembs) = Some x ->
  bit (b <| bm_map := <[Z.to_nat (i / mpembs) := SET x (i mod mpembs)]> (bm_map b) |>) j
  = bit b j || (i =? j).
Proof.
  intros Hok Hi Hj Hx. pose proof (low_range i).
  rewrite (bit_upd b i j x (fun x => SET x (i mod mpembs)));
    [| lia | lia | by apply idx_in_range | done |].
  - rewrite testbit_SET, Z.eqb_refl, orb_true_r by lia.
    rewrite (Z.eqb_sym i j). destruct (j =? i); [by rewrite orb_true_r|by rewrite orb_false_r].
  - intros k Hk. destruct (Z.eqb_spec k (i mod mpembs)); [done|].
    rewrite testbit_SET by lia. replace (_ =? k) with false by lia. apply orb_false_r.
Qed.

Lemma clr_unit_bit b i x j :
  bitmap_ok b -> 0 <= i < bm_bits b -> 0 <= j -> bm_map b !! Z.to_nat (i / mpembs) = Some x ->
  bit (b <| bm_map := <[Z.to_nat (i / mpembs) := CLR x (i mod mpembs)]> (bm_map b) |>) j
  = bit b j && negb (i =? j).
Proof.
  intros Hok Hi Hj Hx. pose proof (low_range i).
  rewrite (bit_upd b i j x (fun x => CLR x (i mod mpembs)));
    [| lia | lia | by apply idx_in_range | done |].
  - rewrite testbit_CLR, Z.eqb_refl, andb_false_r by lia.
    rewrite (Z.eqb_sym i j). destruct (j =? i); [by rewrite andb_false_r|by rewrite andb_true_r].
  - intros k Hk. destruct (Z.eqb_spec k (i mod mpembs)); [done|].
    rewrite testbit_CLR by lia. replace (_ =? k) with false by lia. apply andb_true_r.
Qed.

Lemma bitmap_test_spec b i :
  bitmap_ok b -> 0 <= i < bm_bits b -> bitmap_test b i = Ok (bit b i).
Proof.
  intros Hok Hi. destruct (access b i Hok Hi) as (x & Hg & Hx & _).
  unfold bitmap_test. rewrite exist_true by lia. cbn. rewrite Hg. cbn.
  rewrite TEST_testbit by (pose proof (low_range i); lia).
  unfold bit. by rewrite (list_lookup_total_correct _ _ _ Hx).
Qed.

Lemma bitmap_set_spec b i :
  bitmap_ok b -> 0 <= i < bm_bits b ->
  exists b', bitmap_set b i = Ok b' /\ bitmap_ok b' /\ bm_bits b' = bm_bits b /\
    forall j, 0 <= j -> bit b' j = bit b j || (i =? j).
Proof.
  intros Hok Hi. destruct (access b i Hok Hi) as (x & Hg & Hx & _).
  unfold bitmap_set. rewrite exist_true by lia. cbn. rewrite Hg. cbn.
  rewrite aset_lt by (by apply idx_in_range). cbn.
  eexists; split; [done|]. split; [by apply upd_unit_ok|]. split; [done|].
  intros j Hj. by apply set_unit_bit.
Qed.

Lemma bitmap_reset_spec b i :
  bitmap_ok b -> 0 <= i < bm_bits b ->
  exists b', bitmap_reset b i = Ok b' /\ bitmap_ok b' /\ bm_bits b' = bm_bits b /\
    forall j, 0 <= j -> bit b' j = bit b j && negb (i =? j).
Proof.
  intros Hok Hi. destruct (access b i Hok Hi) as (x & Hg & Hx & _).
  unfold bitmap_reset. rewrite exist_true by lia. cbn. rewrite Hg. cbn.
  rewrite aset_lt by (by apply idx_in_range). cbn.
  eexists; split; [done|]. split; [by apply upd_unit_ok|]. split; [done|].
  intros j Hj. by apply clr_unit_bit.
Qed.

(** ** The search *)

(** What a search from [from] promises: the lowest free index, which it takes;
    or nothing, and then no index from [from] on is free. *)
Definition find_post (b : bitmap) (from : Z) (r : Z * bitmap) : Prop :=
  let (i, b') := r in
  bitmap_ok b' /\ bm_bits b' = bm_bits b /\
  ((from <= i < bm_bits b /\ bit b i = false /\ (forall j, from <= j < i -> bit b j = true) /\
    (forall j, 0 <= j -> bit b' j = bit b j || (i =? j)))
   \/ (i = SIZE_MAX /\ b' = b /\ forall j, from <= j < bm_bits b -> bit b j = true)).

Lemma find_post_weaken b from from' r :
  from' <= from -> (forall j, from' <= j < from -> bit b j = true) ->
  find_post b from r -> find_post b from' r.
Proof.
  destruct r as [i b']. intros Hle Hbelow (Hok & Hb & H). split; [done|]. split; [done|].
  destruct H as [(Hi & Hfree & Hall & Hset)|(-> & -> & Hall)]; [left|right].
  - split_and!; [lia|lia|done| |done]. intros j Hj.
    destruct (Z.lt_ge_cases j from); [apply Hbelow; lia|apply Hall; lia].
  - split_and!; [done..|]. intros j Hj.
    destruct (Z.lt_ge_cases j from); [apply Hbelow; lia|apply Hall; lia].
Qed.

Lemma testbit_255 k : 0 <= k < 8 -> Z.testbit 255 k = true.
Proof. intros. change 255 with (Z.ones 8). apply Z.ones_spec_low. lia. Qed.

Lemma bit_of_unit b idx k x :
  0 <= idx -> 0 <= k < 8 -> bm_map b !! Z.to_nat idx = Some x ->
  bit b (8 * idx + k) = Z.testbit x k.
Proof.
  intros Hidx Hk Hx. unfold bit, mpembs.
  replace (8 * idx + k) with (k + idx * 8) by lia.
  rewrite Z.div_add, Z.mod_add, Z.div_small, Z.mod_small by lia.
  cbn. by rewrite (list_lookup_total_correct _ _ _ Hx).
Qed.

(** The mask of the first unit hides exactly the bits below [from]. *)
Lemma testbit_mask l k : 0 <= l < 8 -> 0 <= k < 8 ->
  Z.testbit (u8 (Z.shiftl 1 l - 1)) k = (k <? l).
Proof.
  intros. rewrite testbit_u8 by lia.
  replace (Z.shiftl 1 l - 1) with (Z.ones l) by (rewrite Z.ones_equiv, Z.shiftl_1_l; lia).
  destruct (Z.ltb_spec k l); [apply Z.ones_spec_low|apply Z.ones_spec_high]; lia.
Qed.

Lemma is_unit_lor x y : is_unit x -> is_unit y -> is_unit (Z.lor x y).
Proof.
  unfold is_unit. intros. split; [apply Z.lor_nonneg; lia|].
  destruct (Z.eq_dec (Z.lor x y) 0) as [->|]; [lia|].
  apply (Z.log2_lt_pow2 _ 8).
  { assert (0 <= Z.lor x y) by (apply Z.lor_nonneg; lia). lia. }
  rewrite Z.log2_lor by lia. apply Z.max_lub_lt.
  - destruct (Z.eq_dec x 0) as [->|]; [done|]. apply Z.log2_lt_pow2; lia.
  - destruct (Z.eq_dec y 0) as [->|]; [done|]. apply Z.log2_lt_pow2; lia.
Qed.

Lemma split_index idx low :
  0 <= low < 8 -> (8 * idx + low) / mpembs = idx /\ (8 * idx + low) mod mpembs = low.
Proof.
  intros. unfold mpembs. replace (8 * idx + low) with (low + idx * 8) by lia.
  rewrite Z.div_add, Z.mod_add, Z.div_small, Z.mod_small by lia. lia.
Qed.

Lemma find_post_none b from :
  bitmap_ok b -> (forall j, from <= j < bm_bits b -> bit b j = true) -> find_post b from (SIZE_MAX, b).
Proof. intros. split; [done|]. split; [done|]. right. auto. Qed.

(** The unit of index [idx], seen through the mask of the bits below [l]. *)
Section unit_step.
Context (b : bitmap) (idx l x : Z).
Context (Hok : bitmap_ok b) (Hidx : 0 <= idx < (bm_bits b + 7) / 8) (Hl : 0 <= l < 8).
Context (Hx : bm_map b !! Z.to_nat idx = Some x).

Let msk := u8 (Z.shiftl 1 l - 1).

Lemma masked_unit : is_unit (Z.lor x msk).
Proof. apply is_unit_lor; [by eapply unit_at|apply is_unit_u8]. Qed.

Lemma masked_high k : l <= k < 8 -> Z.testbit (Z.lor x msk) k = bit b (8 * idx + k).
Proof.
  intros Hk. rewrite (bit_of_unit b idx k x) by (done || lia).
  rewrite Z.lor_spec. unfold msk. rewrite testbit_mask by lia.
  replace (k <? l) with false by lia. apply orb_false_r.
Qed.

Lemma masked_full :
  Z.lor x msk = mpfull -> forall j, 8 * idx + l <= j < 8 * idx + 8 -> bit b j = true.
Proof.
  intros Efull j Hj. replace j with (8 * idx + (j - 8 * idx)) by lia.
  rewrite <- masked_high, Efull by lia. apply testbit_255. lia.
Qed.

Lemma masked_low :
  Z.lor x msk <> mpfull ->
  l <= poplow (Z.lor x msk) < 8 /\ bit b (8 * idx + poplow (Z.lor x msk)) = false /\
  forall j, 8 * idx + l <= j < 8 * idx + poplow (Z.lor x msk) -> bit b j = true.
Proof.
  intros Hf. destruct (poplow_spec _ masked_unit Hf) as (Hlow & Hfree & Hbelow).
  set (low := poplow (Z.lor x msk)) in *.
  assert (l <= low) as Hll.
  { destruct (Z.le_gt_cases l low); [done|]. rewrite Z.lor_spec in Hfree. unfold msk in Hfree.
    rewrite testbit_mask in Hfree by lia.
    replace (low <? l) with true in Hfree by lia. rewrite orb_true_r in Hfree. done. }
  split; [lia|]. rewrite <- masked_high by lia. split; [done|].
  intros j Hj. replace j with (8 * idx + (j - 8 * idx)) by lia.
  rewrite <- masked_high by lia. apply Hbelow. lia.
Qed.

(** The test of the tail of the last unit is exactly "the index is out of range". *)
Lemma tail_test low :
  0 <= low < 8 ->
  (idx =? (bm_bits b + 7) / 8 - 1) && negb (bm_bits b mod mpembs =? 0) &&
    (bm_bits b mod mpembs <=? low) = negb (8 * idx + low <? bm_bits b).
Proof.
  intros Hlow. pose proof (ok_bits _ Hok). unfold mpembs.
  pose proof (Z.div_mod (bm_bits b + 7) 8 ltac:(lia)).
  pose proof (Z.mod_pos_bound (bm_bits b + 7) 8 ltac:(lia)).
  pose proof (Z.div_mod (bm_bits b) 8 ltac:(lia)).
  pose proof (Z.mod_pos_bound (bm_bits b) 8 ltac:(lia)).
  apply eq_true_iff_eq. rewrite !andb_true_iff, !negb_true_iff. lia.
Qed.

Lemma find_hit low :
  l <= low < 8 -> 8 * idx + low < bm_bits b -> bit b (8 * idx + low) = false ->
  (forall j, 8 * idx + l <= j < 8 * idx + low -> bit b j = true) ->
  find_post b (8 * idx + l)
    (low + mpembs * idx, b <| bm_map := <[Z.to_nat idx := SET x low]> (bm_map b) |>).
Proof.
  intros Hlow Hin Hfree Hbelow.
  replace (low + mpembs * idx) with (8 * idx + low) by (unfold mpembs; lia).
  split; [by apply upd_unit_ok|]. split; [done|]. left.
  split_and!; [lia|lia|done|done|]. intros j Hj.
  destruct (split_index idx low ltac:(lia)) as [Ei Em].
  pose proof (set_unit_bit b (8 * idx + low) x j Hok) as Hs.
  rewrite Ei, Em in Hs. apply Hs; [lia|done|done].
Qed.
End unit_step.

Lemma find_loop_spec b fuel idx l :
  bitmap_ok b -> 0 <= idx -> 0 <= l < 8 -> 8 * idx + l <= bm_bits b ->
  fuel = Z.to_nat ((bm_bits b + 7) / 8 - idx) ->
  exists r, find_loop fuel b ((bm_bits b + 7) / 8) idx (u8 (Z.shiftl 1 l - 1)) = Ok r /\
            find_post b (8 * idx + l) r.
Proof.
  intros Hok. pose proof (ok_len _ Hok) as Hlen. pose proof (ok_bits _ Hok) as Hbits.
  pose proof (Z.div_mod (bm_bits b + 7) 8 ltac:(lia)) as D.
  pose proof (Z.mod_pos_bound (bm_bits b + 7) 8 ltac:(lia)) as Dm.
  revert idx l. induction fuel as [|fuel IH]; intros idx l Hidx Hl Hfrom Hfuel.
  { exists (SIZE_MAX, b). split; [done|]. apply find_post_none; [done|lia]. }
  cbn [find_loop]. replace (idx <? _) with true by lia.
  destruct (aget_lt (bm_map b) idx) as (x & Hg & Hx); [lia|]. rewrite Hg. cbn [res_bind].
  destruct (Z.eqb_spec (Z.lor x (u8 (Z.shiftl 1 l - 1))) mpfull) as [Ef|Ef].
  - pose proof (masked_full b idx l x ltac:(lia) Hl Hx Ef) as Hfull.
    destruct (Z.le_gt_cases (8 * (idx + 1)) (bm_bits b)) as [Hnext|Hnext].
    + destruct (IH (idx + 1) 0) as (r & Hr & Hpost); [lia..|].
      exists r. split; [exact Hr|].
      eapply find_post_weaken; [| |exact Hpost]; [lia|]. intros j Hj. apply Hfull. lia.
    + destruct fuel as [|fuel']; [|lia]. exists (SIZE_MAX, b). split; [done|].
      apply find_post_none; [done|]. intros j Hj. apply Hfull. lia.
  - destruct (masked_low b idx l x Hok ltac:(lia) Hl Hx Ef) as (Hlow & Hfree & Hbelow).
    rewrite tail_test by (done || lia).
    destruct (Z.ltb_spec (8 * idx + poplow (Z.lor x (u8 (Z.shiftl 1 l - 1)))) (bm_bits b)); cbn [negb].
    + rewrite aset_lt by lia. cbn [res_bind]. eexists. split; [done|].
      apply find_hit; auto; lia.
    + exists (SIZE_MAX, b). split; [done|]. apply find_post_none; [done|].
      intros j Hj. apply Hbelow. lia.
Qed.

(** [bitmap_find_range] never faults on a well-formed bitmap, and takes the
    lowest free index from [from] on. *)
Lemma find_range_spec b from to :
  bitmap_ok b -> 0 <= from <= to -> to <= bm_bits b ->
  exists r, bitmap_find_range b from to = Ok r /\ find_post b from r.
Proof.
  intros Hok Hf Ht. unfold bitmap_find_range.
  replace (to <=? _) with true by lia. replace (from <=? _) with true by lia. cbn [res_bind ASSERTK].
  rewrite bytes_eq by done. unfold mpembs.
  pose proof (Z.div_mod from 8 ltac:(lia)). pose proof (Z.mod_pos_bound from 8 ltac:(lia)).
  destruct (find_loop_spec b (Z.to_nat ((bm_bits b + 7) / 8 - from / 8)) (from / 8) (from mod 8))
    as (r & Hr & Hpost); [done|apply Z.div_pos; lia|lia|lia|done|].
  exists r. split; [exact Hr|]. by replace from with (8 * (from / 8) + from mod 8) by lia.
Qed.

(** An executable test of [bitmap_ok]. *)
Lemma bitmap_okb_ok b :
  (0 <=? bm_bits b) && (bm_bits b <? 2 ^ 64 - 8) &&
  ((bm_bits b + 7) / 8 <=? Z.of_nat (length (bm_map b))) &&
  forallb (fun x => (0 <=? x) && (x <? 256)) (bm_map b) = true -> bitmap_ok b.
Proof.
  intros H. bool_facts. split; [lia|lia|]. apply Forall_forall. intros x Hx.
  rewrite forallb_forall in *.
  match goal with K : forall y, In y _ -> _ |- _ => apply list_elem_of_In, K in Hx end.
  bool_facts. unfold is_unit. lia.
Qed.

(** ** The interface the clients of a bitmap rely on *)

(** A pool of the indices [0 .. size-1], of which some are in use. *)
Class IdPool (S : Type) := {
  pool_ok : S -> Prop;
  pool_size : S -> Z;
  pool_used : S -> Z -> bool;
  pool_take : S -> res (Z * S);
  pool_release : S -> Z -> res S;
  pool_take_spec s : pool_ok s ->
    exists r s', pool_take s = Ok (r, s') /\ pool_ok s' /\ pool_size s' = pool_size s /\
      ((0 <= r < pool_size s /\ pool_used s r = false /\
        (forall j, 0 <= j -> pool_used s' j = pool_used s j || (r =? j)))
       \/ (r = SIZE_MAX /\ s' = s /\ forall j, 0 <= j < pool_size s -> pool_used s j = true));
  pool_release_spec s i : pool_ok s -> 0 <= i < pool_size s ->
    exists s', pool_release s i = Ok s' /\ pool_ok s' /\ pool_size s' = pool_size s /\
      forall j, 0 <= j -> pool_used s' j = pool_used s j && negb (i =? j);
  pool_size_bound s : pool_ok s -> 0 <= pool_size s < SIZE_MAX }.

#[export] Program Instance bitmap_pool : IdPool bitmap := {
  pool_ok := bitmap_ok; pool_size := bm_bits; pool_used := bit;
  pool_take := bitmap_find; pool_release := bitmap_reset }.
Next Obligation.
  intros b Hok. pose proof (ok_bits _ Hok).
  destruct (find_range_spec b 0 (bm_bits b) Hok) as ([r b'] & Hr & Hok' & Hb & Hc); [lia|lia|].
  exists r, b'. split; [exact Hr|]. split; [done|]. split; [done|].
  destruct Hc as [(H1 & H2 & _ & H4)|Hc]; [left|right]; done.
Qed.
Next Obligation. exact bitmap_reset_spec. Qed.
Next Obligation. intros b Hok. pose proof (ok_bits _ Hok). unfold SIZE_MAX. lia. Qed.

(** ** Properties *)

(** C34: [bitmap_find] on a well-formed bitmap never faults; it returns and takes the
    lowest free index, leaving every other index as it was, or returns [(size_t)-1] with
    the bitmap unchanged exactly when every index is taken. *)
Theorem bitmap_find_lowest b :
  bitmap_ok b ->
  exists r b', bitmap_find b = Ok (r, b') /\ bitmap_ok b' /\ bm_bits b' = bm_bits b /\
    ((0 <= r < bm_bits b /\ bit b r = false /\ (forall j, 0 <= j < r -> bit b j = true) /\
      (forall j, 0 <= j -> bit b' j = bit b j || (r =? j)))
     \/ (r = SIZE_MAX /\ b' = b /\ forall j, 0 <= j < bm_bits b -> bit b j = true)).
Proof.
  intros Hok. pose proof (ok_bits _ Hok).
  destruct (find_range_spec b 0 (bm_bits b) Hok) as ([r b'] & Hr & Hpost); [lia|lia|].
  exists r, b'. split; [exact Hr|exact Hpost].
Qed.

Lemma bitmap_find_lowest_witness :
  exists b', bitmap_find (Bitmap [255; 7] 16) = Ok (11, b') /\ bitmap_ok b' /\ bit b' 11 = true.
Proof.
  destruct (bitmap_find_lowest (Bitmap [255; 7] 16)) as (r & b' & E & Hok & _ & H);
    [by apply bitmap_okb_ok|].
  vm_compute in E. injection E as <- <-. eexists. split; [reflexivity|]. split; [exact Hok|done].
Defined.

(** [bitmap_find_range] is documented to find an available bit in [[from, to)], but [to]
    is only asserted: the search is the one of [bitmap_find_from], so when every index of the
    range is taken and [to] is free, the call takes [to] itself. *)
Theorem bitmap_find_range_ignores_to b from to :
  bitmap_ok b -> 0 <= from <= to -> to <= bm_bits b ->
  bitmap_find_range b from to = bitmap_find_from b from /\
  ((forall j, from <= j < to -> bit b j = true) -> to < bm_bits b -> bit b to = false ->
   exists b', bitmap_find_range b from to = Ok (to, b') /\ bit b' to = true).
Proof.
  intros Hok Hf Ht. split.
  - unfold bitmap_find_from, bitmap_find_range.
    replace (to <=? _) with true by lia. replace (from <=? to) with true by lia.
    replace (from <=? bm_bits b) with true by lia. by rewrite Z.leb_refl.
  - intros Hfull Hlt Hfree.
    destruct (find_range_spec b from to Hok) as ([r b'] & Hr & _ & _ & H); [lia|lia|].
    destruct H as [(Hr1 & Hr2 & Hr3 & Hr4)|(_ & _ & Hall)].
    + assert (r = to) as ->.
      { destruct (Z.lt_trichotomy r to) as [Hc|[Hc|Hc]]; [|done|].
        - rewrite Hfull in Hr2 by lia. done.
        - rewrite Hr3 in Hfree by lia. done. }
      exists b'. split; [done|]. rewrite Hr4, Z.eqb_refl, orb_true_r by lia. done.
    + rewrite Hall in Hfree by lia. done.
Qed.

Lemma bitmap_find_range_ignores_to_witness :
  exists b', bitmap_find_range (Bitmap [15; 0] 16) 0 4 = Ok (4, b') /\ bit b' 4 = true.
Proof.
  destruct (bitmap_find_range_ignores_to (Bitmap [15; 0] 16) 0 4) as [_ H];
    [by apply bitmap_okb_ok|done|done|].
  apply H; [|done|done]. intros j Hj.
  assert (j = 0 \/ j = 1 \/ j = 2 \/ j = 3) as [-> | [-> | [-> | ->]]] by lia; reflexivity.
Defined.

(** the single-bit operations are exact: on a well-formed bitmap and an index in range,
    [bitmap_set] and [bitmap_reset] change that one index, and [bitmap_test] reads it back. *)
Theorem bitmap_set_reset_test b i :
  bitmap_ok b -> 0 <= i < bm_bits b ->
  exists bs br, bitmap_set b i = Ok bs /\ bitmap_reset b i = Ok br /\
    bitmap_ok bs /\ bitmap_ok br /\
    bitmap_test bs i = Ok true /\ bitmap_test br i = Ok false /\
    (forall j, 0 <= j < bm_bits b -> j <> i ->
      bitmap_test bs j = bitmap_test b j /\ bitmap_test br j = bitmap_test b j).
Proof.
  intros Hok Hi.
  destruct (bitmap_set_spec b i Hok Hi) as (bs & Es & Hs & Hbs & Hbit).
  destruct (bitmap_reset_spec b i Hok Hi) as (br & Er & Hr & Hbr & Hbitr).
  exists bs, br. split_and!; [done..| | |].
  - rewrite bitmap_test_spec, Hbit, Z.eqb_refl, orb_true_r by (done || lia). done.
  - rewrite bitmap_test_spec, Hbitr, Z.eqb_refl, andb_false_r by (done || lia). done.
  - intros j Hj Hne. rewrite !bitmap_test_spec, Hbit, Hbitr by (done || lia).
    replace (i =? j) with false by lia. by rewrite orb_false_r, andb_true_r.
Qed.

Lemma bitmap_set_reset_test_witness :
  exists bs br, bitmap_set (Bitmap [0; 128] 16) 9 = Ok bs /\ bitmap_reset (Bitmap [0; 128] 16) 9 = Ok br /\
    bitmap_test bs 15 = Ok true.
Proof.
  destruct (bitmap_set_reset_test (Bitmap [0; 128] 16) 9) as (bs & br & Es & Er & _ & _ & _ & _ & H);
    [by apply bitmap_okb_ok|done|].
  exists bs, br. split; [exact Es|]. split; [exact Er|].
  destruct (H 15) as [H1 _]; [done|done|]. rewrite H1. reflexivity.
Defined.
