(* ===== verification/PvPage.v ===== *)
(** * Temporary page windows: [kernel/mm/pvpage.c]

    A window is one page of the kernel range [__kern_pvpg_base ..
    __kern_pvpg_max]; a bitmap says which windows are in use.  The routines are
    written over any [IdPool], the interface [Bitmap] implements. *)
From Stdlib Require Import ZArith Lia List Bool.
From stdpp Require Import base list.
From S2P Require Import Prelude Bitmap.

#[local] Open Scope Z_scope.

Definition kern_pvpg_base : Z := 0xffffc00000000000.

Definition kern_pvpg_max : Z := 0xffffc00000100000.

(** The number of windows: the macro [siz] of [pvpage_init]. *)
Definition pvpage_siz : Z := (kern_pvpg_max - kern_pvpg_base) / PAGE_SIZ.

(** A call [vmap_map(phy, vrt, num, flgs)]. *)
Record vmap_call := VmapCall { vm_phy : Z; vm_vrt : Z; vm_num : Z; vm_flgs : Z }.

(** [PE_P | PE_RW] *)
Definition PE_P_RW : Z := 3.

Section pvpage.
Context {S : Type} `{!IdPool S}.

(** The static bitmap, and the mappings requested so far. *)
Record pvpage := PvPage { pv_map : S; pv_calls : list vmap_call }.

#[export] Instance eta_pvpage : Eta pvpage := fun p => PvPage (pv_map p) (pv_calls p).

(** [make_pvpage]: the return value, what it stores through [res], the new state. *)
Definition make_pvpage (phy : Z) (p : pvpage) : res (Z * option Z * pvpage) :=
  let! '(idx, m) := pool_take (pv_map p) in
  if idx =? SIZE_MAX then Ok (-1, None, p <| pv_map := m |>)
  else
    let vrt := u64 (kern_pvpg_base + PAGE_SIZ * idx) in
    Ok (0, Some vrt,
        p <| pv_map := m |> <| pv_calls ::= cons (VmapCall phy vrt 1 PE_P_RW) |>).

(** [break_pvpage] *)
Definition break_pvpage (page : Z) (p : pvpage) : res pvpage :=
  let idx := u64 (page - kern_pvpg_base) / PAGE_SIZ in
  let! m := pool_release (pv_map p) idx in
  Ok (p <| pv_map := m |>).

Definition pvpage_ok (p : pvpage) : Prop :=
  pool_ok (pv_map p) /\ pool_size (pv_map p) = pvpage_siz.

(** The window at address [v] is in use. *)
Definition window_used (p : pvpage) (v : Z) : bool :=
  pool_used (pv_map p) ((v - kern_pvpg_base) / PAGE_SIZ).

Lemma window_address idx :
  0 <= idx < pvpage_siz ->
  u64 (kern_pvpg_base + PAGE_SIZ * idx) = kern_pvpg_base + PAGE_SIZ * idx /\
  (kern_pvpg_base + PAGE_SIZ * idx - kern_pvpg_base) / PAGE_SIZ = idx /\
  u64 (kern_pvpg_base + PAGE_SIZ * idx - kern_pvpg_base) = PAGE_SIZ * idx.
Proof.
  intros Hidx. change pvpage_siz with 256 in Hidx. unfold kern_pvpg_base, PAGE_SIZ.
  rewrite !wrap_small by lia.
  replace (0xffffc00000000000 + 4096 * idx - 0xffffc00000000000) with (idx * 4096) by lia.
  rewrite Z.div_mul by lia. lia.
Qed.
End pvpage.

Arguments pvpage S : clear implicits.

(** [pvpage_init]: the static zeroed buffer handed to [bitmap_init]. *)
Definition pvpage_init : option (pvpage bitmap) :=
  match bitmap_init (Some (Bitmap [] 0)) (Some (replicate (Z.to_nat pvpage_siz) 0)) pvpage_siz None false with
  | Some b => Some (PvPage b [])
  | None => None
  end.

(** [make_pvpage] either reports that every window is in use, or hands out a free window
    of the kernel's window range: page aligned, inside the range, mapped to the requested
    frame by the one [vmap_map] call it makes, and in use afterwards, all others untouched. *)
Theorem make_pvpage_fresh {S : Type} `{!IdPool S} (p : pvpage S) phy :
  pvpage_ok p ->
  (exists p', make_pvpage phy p = Ok (-1, None, p') /\ pvpage_ok p' /\ pv_calls p' = pv_calls p /\
     forall v, kern_pvpg_base <= v < kern_pvpg_max -> window_used p v = true)
  \/ (exists v p', make_pvpage phy p = Ok (0, Some v, p') /\ pvpage_ok p' /\
     kern_pvpg_base <= v < kern_pvpg_max /\ (v - kern_pvpg_base) mod PAGE_SIZ = 0 /\
     window_used p v = false /\ pv_calls p' = VmapCall phy v 1 PE_P_RW :: pv_calls p /\
     forall w, kern_pvpg_base <= w -> window_used p' w =
       window_used p w || ((v - kern_pvpg_base) / PAGE_SIZ =? (w - kern_pvpg_base) / PAGE_SIZ)).
Proof.
  intros [Hok Hsz]. destruct (pool_take_spec _ Hok) as (r & m & Et & Hok' & Hsz' & H).
  unfold make_pvpage. rewrite Et. cbn [res_bind].
  destruct H as [(Hr & Hfree & Hset)|(-> & -> & Hall)]; [right|left].
  - pose proof (pool_size_bound _ Hok). replace (r =? SIZE_MAX) with false by lia.
    rewrite Hsz in Hr. destruct (window_address r Hr) as (E1 & E2 & _).
    rewrite E1. eexists _, _. split; [done|]. split; [split; cbn; [done|congruence]|].
    change pvpage_siz with 256 in Hr. unfold window_used. rewrite E2. cbn.
    split_and!; [unfold kern_pvpg_base, kern_pvpg_max, PAGE_SIZ in *; lia..| |done|done|].
    + rewrite Z.add_simpl_l, Z.mul_comm. by apply Z.mod_mul.
    + intros w Hw. apply Hset. apply Z.div_pos; unfold PAGE_SIZ; lia.
  - rewrite Z.eqb_refl. eexists. split; [done|]. split; [split; done|]. split; [done|].
    intros v Hv. apply Hall. rewrite Hsz. split; [apply Z.div_pos; unfold PAGE_SIZ; lia|].
    apply Z.div_lt_upper_bound; [done|]. change (PAGE_SIZ * pvpage_siz) with (kern_pvpg_max - kern_pvpg_base). lia.
Qed.

Lemma pvpage_init_ok p : pvpage_init = Some p -> pvpage_ok p.
Proof. intros E. vm_compute in E. injection E as <-. split; [by apply bitmap_okb_ok|done]. Qed.

Lemma make_pvpage_fresh_witness :
  exists v p', make_pvpage 0x5000 (PvPage (Bitmap (replicate 256 0) 256) []) = Ok (0, Some v, p') /\
    v = kern_pvpg_base.
Proof.
  destruct (make_pvpage_fresh (PvPage (Bitmap (replicate 256 0) 256) []) 0x5000)
    as [(p' & E & _)|(v & p' & E & _)].
  - split; [by apply bitmap_okb_ok|reflexivity].
  - exfalso. vm_compute in E. discriminate E.
  - exists v, p'. split; [exact E|]. vm_compute in E. injection E as E _. symmetry. exact E.
Defined.

(** a window can be given back: after [make_pvpage] hands out a window, [break_pvpage] of
    that address does not fault and leaves exactly the windows in use that were in use before. *)
Theorem break_make_pvpage {S : Type} `{!IdPool S} (p p' : pvpage S) phy v :
  pvpage_ok p -> make_pvpage phy p = Ok (0, Some v, p') ->
  exists p'', break_pvpage v p' = Ok p'' /\ pvpage_ok p'' /\
    forall w, kern_pvpg_base <= w -> window_used p'' w = window_used p w.
Proof.
  intros [Hok Hsz] Em. destruct (pool_take_spec _ Hok) as (r & m & Et & Hok' & Hsz' & H).
  unfold make_pvpage in Em. rewrite Et in Em. cbn [res_bind] in Em.
  destruct H as [(Hr & Hfree & Hset)|(-> & -> & _)]; [|by rewrite Z.eqb_refl in Em].
  destruct (r =? SIZE_MAX); [discriminate|]. rewrite Hsz in Hr.
  destruct (window_address r Hr) as (E1 & _ & E3). rewrite E1 in Em. injection Em as <- <-.
  unfold break_pvpage. rewrite E3. cbn. rewrite Z.mul_comm, Z.div_mul by done.
  destruct (pool_release_spec m r Hok') as (m' & Er & Hokr & Hszr & Hused); [lia|].
  rewrite Er. cbn. eexists. split; [done|]. split; [split; cbn; congruence|].
  intros w Hw. assert (0 <= (w - kern_pvpg_base) / PAGE_SIZ) by (apply Z.div_pos; unfold PAGE_SIZ; lia).
  unfold window_used. cbn. rewrite Hused, Hset by done.
  destruct (Z.eqb_spec r ((w - kern_pvpg_base) / PAGE_SIZ)) as [->|]; cbn;
    [by rewrite andb_false_r, Hfree|by rewrite orb_false_r, andb_true_r].
Qed.

Lemma break_make_pvpage_witness :
  exists p2, break_pvpage kern_pvpg_base
      (PvPage (Bitmap (1 :: replicate 255 0) 256) [VmapCall 0x5000 kern_pvpg_base 1 PE_P_RW]) = Ok p2 /\
    window_used p2 kern_pvpg_base = false.
Proof.
  destruct (break_make_pvpage (PvPage (Bitmap (replicate 256 0) 256) [])
      (PvPage (Bitmap (1 :: replicate 255 0) 256) [VmapCall 0x5000 kern_pvpg_base 1 PE_P_RW])
      0x5000 kern_pvpg_base) as (p2 & Eb & _ & Hw);
    [split; [by apply bitmap_okb_ok|reflexivity]|vm_compute; reflexivity|].
  exists p2. split; [exact Eb|]. rewrite Hw; reflexivity || done.
Defined.
