(* ===== verification/Fifo.v ===== *)
(** * Byte queues: [kernel/klib/fifo.c]

    A queue keeps two free-running 64-bit counters; both are reduced modulo the
    capacity on every access.  The refinement below relates it to a bounded list
    of bytes. *)
From Stdlib Require Import ZArith Lia List Bool Znumtheory.
From stdpp Require Import base list.
From S2P Require Import Prelude.

#[local] Open Scope Z_scope.

(** [fifo_t] *)
Record fifo := Fifo { f_buf : list Z; f_siz : Z; f_head : Z; f_tail : Z }.

#[export] Instance eta_fifo : Eta fifo :=
  fun f => Fifo (f_buf f) (f_siz f) (f_head f) (f_tail f).

Definition HEAD (f : fifo) : Z := f_head f mod f_siz f.

Definition TAIL (f : fifo) : Z := f_tail f mod f_siz f.

(** [fifo_clear] *)
Definition fifo_clear (f : fifo) : fifo := f <| f_head := 0 |> <| f_tail := f_siz f |>.

(** [fifo_init]: [None] is the NULL result. *)
Definition fifo_init (f : option fifo) (buf : option (list Z)) (siz : Z) : res (option fifo) :=
  do! ASSERTK (negb (siz =? 0)) in
  match buf, f with
  | Some b, Some f => Ok (Some (fifo_clear (f <| f_buf := b |> <| f_siz := siz |>)))
  | _, _ => Ok None
  end.

(** Bytes in the queue, as both transfer routines compute it. *)
Definition fifo_used (f : fifo) : Z := u64 (f_tail f - f_siz f - f_head f).

(** The loop of [fifo_write]: [rem] bytes of [data] from index [i] on. *)
Fixpoint write_loop (rem : nat) (f : fifo) (data : list Z) (i : Z) : res (Z * fifo) :=
  match rem with
  | O => Ok (i, f)
  | S rem =>
      let! c := aget data i in
      let! b := aset (f_buf f) (TAIL f) c in
      write_loop rem (f <| f_buf := b |> <| f_tail ::= fun t => u64 (t + 1) |>) data (i + 1)
  end.

Definition fifo_write (f : fifo) (data : list Z) (siz : Z) : res (Z * fifo) :=
  let rem := MIN siz (u64 (f_siz f - fifo_used f)) in
  write_loop (Z.to_nat rem) f data 0.

(** The loop of [fifo_read]: [out] is what has been stored to the caller's buffer. *)
Fixpoint read_loop (rem : nat) (f : fifo) (out : list Z) : res (list Z * fifo) :=
  match rem with
  | O => Ok (out, f)
  | S rem =>
      let! c := aget (f_buf f) (HEAD f) in
      read_loop rem (f <| f_head ::= fun h => u64 (h + 1) |>) (out ++ [c])
  end.

(** [fifo_read]: the bytes stored (their number is the return value). *)
Definition fifo_read (f : fifo) (siz : Z) : res (list Z * fifo) :=
  let rem := MIN siz (fifo_used f) in
  read_loop (Z.to_nat rem) f [].

Definition fifo_full (f : fifo) : bool := f_head f =? f_tail f.

Definition fifo_empty (f : fifo) : bool := u64 (f_head f + f_siz f) =? f_tail f.

(** ** Refinement: a bounded list of bytes *)

(** Capacities for which the free-running counters may wrap: those that divide
    2^64; the kernel uses one page. *)
Definition fifo_cap (n : Z) : Prop := 0 < n < 2 ^ 62 /\ (n | 2 ^ 64).

Record fifo_rep (f : fifo) (q : list Z) : Prop := {
  rep_cap : fifo_cap (f_siz f);
  rep_len : Z.of_nat (length (f_buf f)) = f_siz f;
  rep_head : 0 <= f_head f < 2 ^ 64;
  rep_tail : f_tail f = u64 (f_head f + f_siz f + Z.of_nat (length q));
  rep_fits : Z.of_nat (length q) <= f_siz f;
  rep_data : forall k : nat, (k < length q)%nat ->
    q !! k = f_buf f !! Z.to_nat ((f_head f + Z.of_nat k) mod f_siz f) }.

Lemma u64_mod n x : (n | 2 ^ 64) -> 0 < n -> u64 x mod n = x mod n.
Proof. intros. unfold wrap. by apply Z.mod_mod_divide. Qed.

Lemma fifo_used_rep f q : fifo_rep f q -> fifo_used f = Z.of_nat (length q).
Proof.
  intros [[Hc _] _ Hh Ht Hf _]. unfold fifo_used.
  rewrite Ht, <- Z.sub_add_distr, wrap_sub_l, wrap_small; lia.
Qed.

Lemma TAIL_rep f q : fifo_rep f q -> TAIL f = (f_head f + Z.of_nat (length q)) mod f_siz f.
Proof.
  intros [[Hc Hd] _ Hh Ht Hf _]. unfold TAIL. rewrite Ht, u64_mod by (done || lia).
  replace (f_head f + f_siz f + _) with (f_head f + Z.of_nat (length q) + 1 * f_siz f) by lia.
  apply Z.mod_add. lia.
Qed.

(** Two positions of a window of at most [n] bytes are different slots. *)
Lemma slots_distinct h a b n : 0 < n -> 0 <= a < b -> b < a + n -> (h + a) mod n <> (h + b) mod n.
Proof.
  intros Hn Hab Hlt E.
  pose proof (Z.div_mod (h + a) n ltac:(lia)). pose proof (Z.div_mod (h + b) n ltac:(lia)).
  assert (b - a = n * ((h + b) / n - (h + a) / n)) by lia.
  assert (0 < (h + b) / n - (h + a) / n < 1) by nia. lia.
Qed.

(** Storing one byte appends it. *)
Lemma rep_push f q c :
  fifo_rep f q -> Z.of_nat (length q) < f_siz f ->
  exists b, aset (f_buf f) (TAIL f) c = Ok b /\
    fifo_rep (f <| f_buf := b |> <| f_tail ::= fun t => u64 (t + 1) |>) (q ++ [c]).
Proof.
  intros Hrep Hlt. pose proof (TAIL_rep _ _ Hrep) as HT. destruct Hrep as [Hcap Hl Hh Ht Hf Hd].
  pose proof Hcap as [Hc _].
  assert (0 <= TAIL f < f_siz f) as Hr by (rewrite HT; apply Z.mod_pos_bound; lia).
  exists (<[Z.to_nat (TAIL f) := c]> (f_buf f)). split; [apply aset_lt; lia|].
  split; cbn; [done|by rewrite length_insert|done| | |].
  - rewrite Ht, wrap_add_l, length_app. cbn. f_equal. lia.
  - rewrite length_app. cbn. lia.
  - intros k Hk. rewrite length_app in Hk. cbn in Hk.
    destruct (Nat.eq_dec k (length q)) as [->|Hne].
    + rewrite lookup_app_r, Nat.sub_diag, <- HT by lia. cbn.
      rewrite list_lookup_insert_eq by lia. done.
    + rewrite lookup_app_l by lia. rewrite list_lookup_insert_ne; [apply Hd; lia|].
      intros E. apply (slots_distinct (f_head f) (Z.of_nat k) (Z.of_nat (length q)) (f_siz f));
        [lia|lia|lia|]. rewrite <- HT.
      pose proof (Z.mod_pos_bound (f_head f + Z.of_nat k) (f_siz f)). lia.
Qed.

(** Taking one byte removes the oldest. *)
Lemma rep_pop f c q :
  fifo_rep f (c :: q) ->
  aget (f_buf f) (HEAD f) = Ok c /\ fifo_rep (f <| f_head ::= fun h => u64 (h + 1) |>) q.
Proof.
  intros [Hcap Hl Hh Ht Hf Hd]. pose proof Hcap as [Hc Hdiv]. cbn [length] in *. split.
  - apply aget_Ok. split; [apply Z.mod_pos_bound; lia|].
    specialize (Hd 0%nat ltac:(lia)). rewrite Z.add_0_r in Hd. unfold HEAD. by rewrite <- Hd.
  - split; cbn; [done|done|apply wrap_range; lia| |lia|].
    + rewrite Ht, <- (Z.add_assoc (u64 _)), wrap_add_l. f_equal. lia.
    + intros k Hk. specialize (Hd (S k) ltac:(lia)).
      change (q !! k) with ((c :: q) !! S k). rewrite Hd. do 2 f_equal.
      rewrite <- (u64_mod _ (u64 (f_head f + 1) + _)), wrap_add_l, u64_mod by (done || lia).
      f_equal. lia.
Qed.

Lemma write_loop_rep rem f q data i :
  fifo_rep f q -> 0 <= i -> i + Z.of_nat rem <= Z.of_nat (length data) ->
  Z.of_nat (length q + rem) <= f_siz f ->
  exists f', write_loop rem f data i = Ok (i + Z.of_nat rem, f') /\
    fifo_rep f' (q ++ take rem (drop (Z.to_nat i) data)) /\ f_siz f' = f_siz f.
Proof.
  revert f q i. induction rem as [|rem IH]; intros f q i Hrep Hi Hdata Hfit; cbn [write_loop].
  - exists f. rewrite Z.add_0_r, take_0, app_nil_r. done.
  - destruct (aget_lt data i) as (c & Hg & Hc); [lia|]. rewrite Hg. cbn [res_bind].
    destruct (rep_push f q c Hrep) as (b & Hs & Hrep'); [lia|]. rewrite Hs. cbn [res_bind].
    destruct (IH _ _ (i + 1) Hrep') as (f' & Ew & Hr & Hs'); [lia|lia|rewrite length_app; cbn; lia|].
    exists f'. split; [rewrite Ew; do 2 f_equal; lia|]. split; [|done].
    replace (Z.to_nat (i + 1)) with (S (Z.to_nat i)) in Hr by lia.
    rewrite (drop_S _ _ _ Hc). cbn. by rewrite <- app_assoc in Hr.
Qed.

Lemma read_loop_rep rem f q out :
  fifo_rep f q -> (rem <= length q)%nat ->
  exists f', read_loop rem f out = Ok (out ++ take rem q, f') /\ fifo_rep f' (drop rem q) /\
    f_siz f' = f_siz f.
Proof.
  revert f q out. induction rem as [|rem IH]; intros f q out Hrep Hle; cbn [read_loop].
  - exists f. rewrite take_0, app_nil_r. done.
  - destruct q as [|c q]; [cbn in Hle; lia|].
    destruct (rep_pop _ _ _ Hrep) as [Hg Hrep']. rewrite Hg. cbn [res_bind].
    destruct (IH _ _ (out ++ [c]) Hrep') as (f' & Er & Hr & Hs); [cbn in Hle; lia|].
    exists f'. split; [|done]. rewrite Er. cbn. by rewrite <- app_assoc.
Qed.

(** [fifo_write] implements appending to a bounded queue: it never faults, stores the
    longest prefix of the request that fits, returns its length, and keeps what was queued;
    the counters may wrap around 2^64. *)
Theorem fifo_write_refines f q data siz :
  fifo_rep f q -> 0 <= siz <= Z.of_nat (length data) ->
  exists f', let n := Z.min siz (f_siz f - Z.of_nat (length q)) in
    fifo_write f data siz = Ok (n, f') /\ fifo_rep f' (q ++ take (Z.to_nat n) data).
Proof.
  intros Hrep Hsiz. pose proof (rep_fits _ _ Hrep). pose proof (rep_cap _ _ Hrep) as [Hc _].
  unfold fifo_write. rewrite (fifo_used_rep _ _ Hrep), MIN_min, wrap_small by lia.
  destruct (write_loop_rep (Z.to_nat (Z.min siz (f_siz f - Z.of_nat (length q)))) f q data 0)
    as (f' & Ew & Hr & _); [done|lia|lia|lia|].
  exists f'. cbn zeta. split; [rewrite Ew; do 2 f_equal; lia|done].
Qed.

(** A queue of four bytes whose head counter is about to wrap. *)
Definition fifo_demo : fifo := Fifo [7; 8; 0; 0] 4 (2 ^ 64 - 4) 2.

Lemma fifo_demo_rep : fifo_rep fifo_demo [7; 8].
Proof.
  split; cbn; [split; [lia|by exists (2 ^ 62)]|done|lia|done|lia|].
  intros [|[|k]] Hk; [done|done|lia].
Qed.

Lemma fifo_write_refines_witness :
  fifo_write fifo_demo [1; 2; 3] 3 = Ok (2, Fifo [7; 8; 1; 2] 4 (2 ^ 64 - 4) 4) /\
  exists f', fifo_write fifo_demo [1; 2; 3] 3 = Ok (2, f') /\ fifo_rep f' [7; 8; 1; 2].
Proof.
  split; [reflexivity|].
  apply (fifo_write_refines fifo_demo [7; 8] [1; 2; 3] 3 fifo_demo_rep). cbn. lia.
Defined.

(** [fifo_read] implements removing from the front of a bounded queue: it never faults
    and yields the oldest bytes, at most as many as asked for, in the order they were written. *)
Theorem fifo_read_refines f q siz :
  fifo_rep f q -> 0 <= siz ->
  exists f', let n := Z.to_nat (Z.min siz (Z.of_nat (length q))) in
    fifo_read f siz = Ok (take n q, f') /\ fifo_rep f' (drop n q).
Proof.
  intros Hrep Hsiz. unfold fifo_read. rewrite (fifo_used_rep _ _ Hrep), MIN_min.
  destruct (read_loop_rep (Z.to_nat (Z.min siz (Z.of_nat (length q)))) f q [])
    as (f' & Er & Hr & _); [done|lia|]. exists f'. done.
Qed.

Lemma fifo_read_refines_witness :
  exists f', fifo_read fifo_demo 1 = Ok ([7], f') /\ fifo_rep f' [8].
Proof. apply (fifo_read_refines fifo_demo [7; 8] 1 fifo_demo_rep). lia. Defined.

(** [fifo_empty] is exact, but [fifo_full] is false in every state of a queue, a full one
    included: it compares the counters for equality, which are a capacity apart when the
    queue is empty and two capacities apart when it is full. *)
Theorem fifo_full_never f q :
  fifo_rep f q ->
  fifo_full f = false /\ (fifo_empty f = true <-> q = []).
Proof.
  intros [[Hc Hd] _ Hh Ht Hf _]. unfold fifo_full, fifo_empty. rewrite Ht. unfold wrap. split.
  - apply Z.eqb_neq. intros E.
    pose proof (Z.div_mod (f_head f + f_siz f + Z.of_nat (length q)) (2 ^ 64) ltac:(lia)).
    assert ((f_head f + f_siz f + Z.of_nat (length q)) / 2 ^ 64 < 2) by (apply Z.div_lt_upper_bound; lia).
    assert (0 <= (f_head f + f_siz f + Z.of_nat (length q)) / 2 ^ 64) by (apply Z.div_pos; lia). lia.
  - rewrite Z.eqb_eq. split; intros E.
    + destruct q; [done|]. exfalso. cbn [length] in *.
      apply (slots_distinct (f_head f + f_siz f) 0 (Z.of_nat (S (length q))) (2 ^ 64)); [lia|lia|lia|].
      by rewrite Z.add_0_r.
    + subst. cbn. by rewrite Z.add_0_r.
Qed.

Lemma fifo_full_never_witness :
  let full := Fifo [7; 8; 1; 2] 4 0 8 in
  fifo_rep full [7; 8; 1; 2] /\ fifo_full full = false.
Proof.
  assert (fifo_rep (Fifo [7; 8; 1; 2] 4 0 8) [7; 8; 1; 2]) as Hrep.
  { split; cbn; [split; [lia|by exists (2 ^ 62)]|done|lia|done|lia|].
    intros [|[|[|[|k]]]] Hk; [done|done|done|done|lia]. }
  split; [exact Hrep|]. apply (fifo_full_never _ _ Hrep).
Defined.

(** ** The interface pipes use *)

Class ByteQueue (F : Type) := {
  bq_write : F -> list Z -> Z -> res (Z * F);
  bq_read : F -> Z -> res (list Z * F);
  bq_full : F -> bool;
  bq_empty : F -> bool;
  bq_rep : Z -> F -> list Z -> Prop }.

Class ByteQueueLaws (F : Type) `{ByteQueue F} := {
  bq_write_law : forall n f q data siz, bq_rep n f q -> 0 <= siz <= Z.of_nat (length data) ->
    let k := Z.min siz (n - Z.of_nat (length q)) in
    total (bq_write f data siz) (fun r => fst r = k /\ bq_rep n (snd r) (q ++ take (Z.to_nat k) data));
  bq_read_law : forall n f q siz, bq_rep n f q -> 0 <= siz ->
    let k := Z.to_nat (Z.min siz (Z.of_nat (length q))) in
    total (bq_read f siz) (fun r => fst r = take k q /\ bq_rep n (snd r) (drop k q));
  bq_fits : forall n f q, bq_rep n f q -> Z.of_nat (length q) <= n }.

#[export] Instance fifo_queue : ByteQueue fifo := {
  bq_write := fifo_write;
  bq_read := fifo_read;
  bq_full := fifo_full;
  bq_empty := fifo_empty;
  bq_rep n f q := fifo_rep f q /\ f_siz f = n }.

#[export] Instance fifo_queue_laws : ByteQueueLaws fifo.
Proof.
  split.
  - intros n f q data siz [Hr <-] Hs. cbv zeta. cbn. pose proof (rep_fits _ _ Hr). pose proof (rep_cap _ _ Hr) as [Hc _].
    unfold fifo_write. rewrite (fifo_used_rep _ _ Hr), MIN_min, wrap_small by lia.
    destruct (write_loop_rep (Z.to_nat (Z.min siz (f_siz f - Z.of_nat (length q)))) f q data 0)
      as (f' & -> & Hr' & Es); [done|lia|lia|lia|]. exists (0 + Z.of_nat (Z.to_nat (Z.min siz (f_siz f - Z.of_nat (length q)))), f').
    split; [done|]. cbn. split; [lia|done].
  - intros n f q siz [Hr <-] Hs. cbn. unfold fifo_read. rewrite (fifo_used_rep _ _ Hr), MIN_min.
    destruct (read_loop_rep (Z.to_nat (Z.min siz (Z.of_nat (length q)))) f q []) as (f' & -> & Hr' & Es); [done|lia|].
    eexists. split; [done|]. done.
  - intros n f q [Hr <-]. apply Hr.
Qed.
