(* ===== verification/Dlist.v ===== *)
(** * Intrusive circular lists: [include/textos/klib/list.h]

    The nodes live in a heap of addresses; every operation is the sequence of
    reads and writes of the C code.  [dlist h hd xs] says that the ring that
    starts at [hd] holds exactly the nodes [xs], in that order. *)
From Stdlib Require Import ZArith Lia List Bool.
From stdpp Require Import base list gmap.
From S2P Require Import Prelude.

#[local] Open Scope Z_scope.

(** [list_t] *)
Record lnode := LNode { prev : Z; next : Z }.

#[export] Instance eta_lnode : Eta lnode := fun n => LNode (prev n) (next n).

#[export] Instance lnode_eq_dec : EqDecision lnode.
Proof. solve_decision. Defined.

Abbreviation lheap := (gmap Z lnode).

Definition get_prev (h : lheap) (p : Z) : res Z := let! n := deref (h !! p) in Ok (prev n).

Definition get_next (h : lheap) (p : Z) : res Z := let! n := deref (h !! p) in Ok (next n).

Definition set_prev (h : lheap) (p v : Z) : res lheap :=
  let! n := deref (h !! p) in Ok (<[p := n <| prev := v |>]> h).

Definition set_next (h : lheap) (p v : Z) : res lheap :=
  let! n := deref (h !! p) in Ok (<[p := n <| next := v |>]> h).

Definition list_init (h : lheap) (l : Z) : res lheap :=
  let! h := set_prev h l l in
  set_next h l l.

Definition list_insert_after (h : lheap) (l node : Z) : res lheap :=
  let! n := get_next h l in
  let! h := set_next h node n in
  let! n := get_next h node in
  let! h := set_prev h n node in
  let! h := set_prev h node l in
  set_next h l node.

Definition list_insert_before (h : lheap) (l node : Z) : res lheap :=
  let! p := get_prev h l in
  list_insert_after h p node.

Definition list_insert (h : lheap) (l node : Z) : res lheap := list_insert_after h l node.

Definition list_remove (h : lheap) (l : Z) : res lheap :=
  let! p := get_prev h l in
  if p =? l then Ok h
  else
    let! n := get_next h l in
    let! h := set_next h p n in
    let! n := get_next h l in
    let! p := get_prev h l in
    set_prev h n p.

Definition list_pushhead (h : lheap) (l node : Z) : res lheap := list_insert_after h l node.

Definition list_pushback (h : lheap) (l node : Z) : res lheap := list_insert_before h l node.

Definition list_pophead (h : lheap) (l : Z) : res (Z * lheap) :=
  let! head := get_next h l in
  let! h := list_remove h head in
  Ok (head, h).

Definition list_popback (h : lheap) (l : Z) : res (Z * lheap) :=
  let! back := get_prev h l in
  let! h := list_remove h back in
  Ok (back, h).

Definition list_empty (h : lheap) (l : Z) : res bool :=
  let! p := get_prev h l in Ok (l =? p).

(** [LIST_FOREACH]: the nodes visited from [iter] on. *)
Fixpoint foreach_from (fuel : nat) (h : lheap) (iter l : Z) : res (list Z) :=
  match fuel with
  | O => Fault OutOfFuel
  | S fuel =>
      if iter =? l then Ok []
      else
        let! n := get_next h iter in
        let! rest := foreach_from fuel h n l in
        Ok (iter :: rest)
  end.

Definition LIST_FOREACH (fuel : nat) (h : lheap) (l : Z) : res (list Z) :=
  let! n := get_next h l in foreach_from fuel h n l.

(** [LIST_FOREACH_REV] *)
Fixpoint foreach_rev_from (fuel : nat) (h : lheap) (iter l : Z) : res (list Z) :=
  match fuel with
  | O => Fault OutOfFuel
  | S fuel =>
      if iter =? l then Ok []
      else
        let! p := get_prev h iter in
        let! rest := foreach_rev_from fuel h p l in
        Ok (iter :: rest)
  end.

Definition LIST_FOREACH_REV (fuel : nat) (h : lheap) (l : Z) : res (list Z) :=
  let! p := get_prev h l in foreach_rev_from fuel h p l.

(** ** The ring a list head denotes *)

Definition nx (h : lheap) (p : Z) : option Z := next <$> h !! p.

Definition pv (h : lheap) (p : Z) : option Z := prev <$> h !! p.

(** The nodes strictly between [a] and [b] are [xs]. *)
Fixpoint links (h : lheap) (a : Z) (xs : list Z) (b : Z) : Prop :=
  match xs with
  | [] => nx h a = Some b /\ pv h b = Some a
  | x :: xs => nx h a = Some x /\ pv h x = Some a /\ links h x xs b
  end.

Definition dlist (h : lheap) (hd : Z) (xs : list Z) : Prop :=
  NoDup (hd :: xs) /\ links h hd xs hd.

Lemma get_next_Ok h p n : get_next h p = Ok n <-> nx h p = Some n.
Proof. unfold get_next, nx. destruct (h !! p); cbn; split; congruence. Qed.

Lemma get_prev_Ok h p n : get_prev h p = Ok n <-> pv h p = Some n.
Proof. unfold get_prev, pv. destruct (h !! p); cbn; split; congruence. Qed.

Lemma set_next_spec h p v :
  is_Some (h !! p) ->
  exists h', set_next h p v = Ok h' /\
    (forall q, nx h' q = if decide (q = p) then Some v else nx h q) /\
    (forall q, pv h' q = pv h q) /\ (forall q, is_Some (h' !! q) <-> is_Some (h !! q)).
Proof.
  intros [n Hn]. unfold set_next. rewrite Hn. eexists. split; [reflexivity|].
  unfold nx, pv. split_and!; intros q; destruct (decide (q = p)) as [->|];
    rewrite ?lookup_insert_eq, ?lookup_insert_ne by congruence; rewrite ?Hn; (done || (split; eauto)).
Qed.

Lemma set_prev_spec h p v :
  is_Some (h !! p) ->
  exists h', set_prev h p v = Ok h' /\
    (forall q, pv h' q = if decide (q = p) then Some v else pv h q) /\
    (forall q, nx h' q = nx h q) /\ (forall q, is_Some (h' !! q) <-> is_Some (h !! q)).
Proof.
  intros [n Hn]. unfold set_prev. rewrite Hn. eexists. split; [reflexivity|].
  unfold nx, pv. split_and!; intros q; destruct (decide (q = p)) as [->|];
    rewrite ?lookup_insert_eq, ?lookup_insert_ne by congruence; rewrite ?Hn; (done || (split; eauto)).
Qed.

(** Only the [next] of the sources and the [prev] of the targets matter. *)
Lemma links_frame h h' a xs b :
  (forall q, q = a \/ q ∈ xs -> nx h' q = nx h q) ->
  (forall q, q ∈ xs \/ q = b -> pv h' q = pv h q) ->
  links h a xs b -> links h' a xs b.
Proof.
  revert a. induction xs as [|x xs IH]; cbn; intros a Hn Hp.
  - rewrite Hn, Hp by auto. done.
  - rewrite Hn, Hp by set_solver. intros (? & ? & ?). split_and!; [done|done|].
    apply IH; [| |done]; intros q Hq; [apply Hn|apply Hp]; set_solver.
Qed.

Lemma links_app h a xs y ys b :
  links h a (xs ++ y :: ys) b <-> links h a xs y /\ links h y ys b.
Proof.
  revert a. induction xs as [|x xs IH]; intros a; cbn; [tauto|].
  rewrite IH. tauto.
Qed.

Lemma links_nx h a xs b : links h a xs b -> nx h a = Some (hd b xs).
Proof. destruct xs; cbn; tauto. Qed.

Lemma links_pv h a xs b : links h a xs b -> pv h b = Some (default a (last xs)).
Proof.
  revert a. induction xs as [|x xs IH]; intros a; cbn [links]; [tauto|].
  intros (_ & _ & H). rewrite (IH _ H), last_cons. by destruct (last xs).
Qed.

Lemma links_alloc h a xs b :
  links h a xs b -> forall q, q = a \/ q ∈ xs \/ q = b -> is_Some (h !! q).
Proof.
  assert (forall q v, nx h q = Some v -> is_Some (h !! q)) as An.
  { unfold nx. intros q v E. destruct (h !! q); done. }
  assert (forall q v, pv h q = Some v -> is_Some (h !! q)) as Ap.
  { unfold pv. intros q v E. destruct (h !! q); done. }
  revert a. induction xs as [|x xs IH]; intros a; cbn.
  - intros [H1 H2] q. set_unfold. intros [-> | [[] | ->]]; eauto.
  - intros (H1 & H2 & H) q Hq. specialize (IH _ H). set_unfold.
    destruct Hq as [-> | [[-> | Hq] | ->]]; eauto.
Qed.

(** Splicing a node between two neighbours. *)
Lemma insert_after_links h p n node :
  nx h p = Some n -> is_Some (h !! p) -> is_Some (h !! n) -> is_Some (h !! node) ->
  node <> p -> node <> n ->
  exists h', list_insert_after h p node = Ok h' /\
    (forall q, nx h' q = if decide (q = p) then Some node
                         else if decide (q = node) then Some n else nx h q) /\
    (forall q, pv h' q = if decide (q = node) then Some p
                         else if decide (q = n) then Some node else pv h q) /\
    (forall q, is_Some (h' !! q) <-> is_Some (h !! q)).
Proof.
  intros Hpn Hp Hn Hnode Hne1 Hne2. unfold list_insert_after.
  rewrite (proj2 (get_next_Ok _ _ _) Hpn). cbn [res_bind].
  destruct (set_next_spec h node n Hnode) as (h1 & -> & N1 & P1 & A1). cbn [res_bind].
  rewrite (proj2 (get_next_Ok h1 node n)) by (rewrite N1; by rewrite decide_True). cbn [res_bind].
  destruct (set_prev_spec h1 n node) as (h2 & -> & P2 & N2 & A2); [by apply A1|]. cbn [res_bind].
  destruct (set_prev_spec h2 node p) as (h3 & -> & P3 & N3 & A3); [by apply A2, A1|]. cbn [res_bind].
  destruct (set_next_spec h3 p node) as (h4 & -> & N4 & P4 & A4); [by apply A3, A2, A1|].
  exists h4. split_and!; [done| | |].
  - intros q. by rewrite N4, N3, N2, N1.
  - intros q. by rewrite P4, P3, P2, P1.
  - intros q. by rewrite A4, A3, A2, A1.
Qed.

(** Membership facts only: what the pointers are is forgotten first, then every
    universally quantified fact is used at every node in sight. *)
Ltac nodes :=
  repeat match goal with
  | H : links _ _ _ _ |- _ => clear H
  | H : forall _, _ = _ |- _ => clear H
  | H : forall _, _ -> is_Some _ |- _ => clear H
  | H : forall _, is_Some _ <-> _ |- _ => clear H
  | H : _ = Ok _ |- _ => clear H
  | H : nx _ _ = _ |- _ => clear H
  end;
  set_unfold; intros;
  repeat match goal with
  | H : forall x : Z, _ |- _ =>
      repeat match goal with
      | q : Z |- _ =>
          let T := type of (H q) in
          lazymatch goal with
          | _ : T |- _ => fail
          | _ => pose proof (H q)
          end
      end; clear H
  end;
  repeat match goal with
  | H : _ \/ _ |- _ => destruct H; try subst
  end; try subst; (tauto || intuition congruence).

(** Replacing the node on the left of a chain. *)
Lemma links_new_left h h' p node ys b :
  links h p ys b -> NoDup (ys ++ [b]) ->
  nx h' node = Some (hd b ys) -> pv h' (hd b ys) = Some node ->
  (forall q, q ∈ ys -> nx h' q = nx h q) ->
  (forall q, q ∈ tail (ys ++ [b]) -> pv h' q = pv h q) ->
  links h' node ys b.
Proof.
  destruct ys as [|y ys]; cbn; [tauto|]. intros (_ & _ & Hl) Hnd Hn Hp Fn Fp.
  split_and!; [done|done|]. eapply links_frame; [| |done]; intros q Hq; [apply Fn|apply Fp]; set_solver.
Qed.

(** Splitting a ring after a prefix [xs]: the last node of the prefix, or the head. *)
Lemma dlist_split h hd xs ys :
  dlist h hd (xs ++ ys) ->
  links h (default hd (last xs)) ys hd /\
  (xs = [] \/ exists pre p, xs = pre ++ [p] /\ links h hd pre p).
Proof.
  intros [_ Hl]. destruct xs as [|p pre _] using rev_ind; [by auto|].
  rewrite last_snoc. rewrite <- app_assoc in Hl. apply links_app in Hl as [? ?]. cbn. eauto 6.
Qed.

Lemma last_in {A : Type} (d : A) xs : default d (last xs) = d \/ default d (last xs) ∈ xs.
Proof.
  destruct xs as [|x xs _] using rev_ind; [by left|]. rewrite last_snoc. right. cbn. set_solver.
Qed.

(** Inserting after the last node of a prefix of the ring. *)
Lemma insert_after_dlist h hd xs ys node :
  dlist h hd (xs ++ ys) -> node ∉ hd :: xs ++ ys -> is_Some (h !! node) ->
  exists h', list_insert_after h (default hd (last xs)) node = Ok h' /\
    dlist h' hd (xs ++ node :: ys).
Proof.
  intros Hd Hfresh Hal. destruct (dlist_split _ _ _ _ Hd) as [Hys Hxs]. destruct Hd as [Hnd _].
  pose proof (links_alloc _ _ _ _ Hys) as Hall. pose proof (links_nx _ _ _ _ Hys) as Hnx.
  pose proof (last_in hd xs) as Hin. set (p := default hd (last xs)) in *.
  assert (List.hd hd ys = hd \/ List.hd hd ys ∈ ys) as Hin' by (destruct ys; cbn; nodes).
  destruct (insert_after_links h p (List.hd hd ys) node Hnx) as (h' & Hi & N & P & _);
    [apply Hall; auto|apply Hall; tauto|done|nodes|nodes|].
  exists h'. split; [done|]. apply NoDup_cons in Hnd as [Hnd1 Hnd2]. apply NoDup_app in Hnd2 as (Hx & Hxy & Hy).
  split.
  { apply NoDup_cons. split; [nodes|]. apply NoDup_app. split_and!; [done|nodes|].
    apply NoDup_cons. split; [nodes|done]. }
  apply links_app. split.
  - destruct Hxs as [-> | (pre & p' & -> & Hpre)].
    + cbn. rewrite N, P. by rewrite !decide_True.
    + subst p. rewrite last_snoc in *. cbn in *. apply NoDup_app in Hx as (Hx1 & Hx2 & _).
      apply links_app. split.
      * eapply links_frame; [| |exact Hpre]; intros q Hq; [rewrite N|rewrite P];
          rewrite !decide_False by nodes; done.
      * cbn. rewrite N, P. by rewrite !decide_True.
  - eapply links_new_left; [exact Hys| | | | |].
    + apply NoDup_app. split_and!; [done|nodes|apply NoDup_singleton].
    + rewrite N, decide_False, decide_True by nodes. done.
    + rewrite P, decide_False, decide_True by nodes. done.
    + intros q Hq. rewrite N, !decide_False by nodes. done.
    + intros q Hq. rewrite P, !decide_False; [done| |].
      * destruct ys; cbn in *; [nodes|]. apply NoDup_cons in Hy as [? ?]. nodes.
      * destruct ys; cbn in *; nodes.
Qed.

(** Unlinking a node; its own pointers stay as they were. *)
Lemma list_remove_links h p x n :
  pv h x = Some p -> nx h x = Some n -> p <> x -> is_Some (h !! p) -> is_Some (h !! n) ->
  exists h', list_remove h x = Ok h' /\
    (forall q, nx h' q = if decide (q = p) then Some n else nx h q) /\
    (forall q, pv h' q = if decide (q = n) then Some p else pv h q).
Proof.
  intros Hp Hn Hne Ap An. unfold list_remove.
  rewrite (proj2 (get_prev_Ok _ _ _) Hp). cbn [res_bind].
  replace (p =? x) with false by lia.
  rewrite (proj2 (get_next_Ok _ _ _) Hn). cbn [res_bind].
  destruct (set_next_spec h p n Ap) as (h1 & -> & N1 & P1 & A1). cbn [res_bind].
  rewrite (proj2 (get_next_Ok h1 x n)) by (rewrite N1; by rewrite decide_False). cbn [res_bind].
  rewrite (proj2 (get_prev_Ok h1 x p)) by (by rewrite P1). cbn [res_bind].
  destruct (set_prev_spec h1 n p) as (h2 & -> & P2 & N2 & A2); [by apply A1|].
  exists h2. split_and!; [done| |]; intros q; [by rewrite N2, N1|by rewrite P2, P1].
Qed.

Lemma remove_dlist h hd xs x ys :
  dlist h hd (xs ++ x :: ys) ->
  exists h', list_remove h x = Ok h' /\ dlist h' hd (xs ++ ys).
Proof.
  intros Hd. destruct (dlist_split _ _ _ _ Hd) as [Hl Hxs]. destruct Hd as [Hnd Hall].
  apply links_app in Hall as [Hxs' Hys].
  pose proof (links_alloc _ _ _ _ Hl) as Hal. pose proof (links_nx _ _ _ _ Hys) as Hnx.
  pose proof (last_in hd xs) as Hin. set (p := default hd (last xs)) in *.
  assert (List.hd hd ys = hd \/ List.hd hd ys ∈ ys) as Hin' by (destruct ys; cbn; set_solver).
  apply NoDup_cons in Hnd as [Hnd1 Hnd2]. apply NoDup_app in Hnd2 as (Hx & Hxy & Hy).
  apply NoDup_cons in Hy as [Hxn Hy]. destruct Hl as (_ & Hpv & _).
  destruct (list_remove_links h p x (List.hd hd ys) Hpv Hnx) as (h' & Hr & N & P);
    [nodes|apply Hal; auto|apply Hal; nodes|].
  exists h'. split; [done|]. split.
  { apply NoDup_cons. split; [nodes|]. apply NoDup_app. split_and!; [done| |done]. nodes. }
  assert (forall q, q ∈ tail (ys ++ [hd]) -> q <> List.hd hd ys) as Htl.
  { intros q. destruct ys; cbn; [nodes|]. apply NoDup_cons in Hy as [? ?]. nodes. }
  assert (links h' p ys hd) as Hnew.
  { eapply links_new_left; [exact Hys| | | | |].
    - apply NoDup_app. split_and!; [done|nodes|apply NoDup_singleton].
    - by rewrite N, decide_True.
    - by rewrite P, decide_True.
    - intros q Hq. rewrite N, decide_False; [done|]. nodes.
    - intros q Hq. rewrite P, decide_False; [done|]. by apply Htl. }
  destruct Hxs as [-> | (pre & p' & -> & Hpre)]; [done|].
  subst p. rewrite last_snoc in *. cbn in *. apply NoDup_app in Hx as (Hx1 & Hx2 & _).
  rewrite <- app_assoc. apply links_app. split; [|done].
  eapply links_frame; [| |exact Hpre]; intros q Hq; [rewrite N|rewrite P];
    rewrite decide_False; (done || (clear Htl; nodes)).
Qed.

Lemma dlist_next h hd xs : dlist h hd xs -> get_next h hd = Ok (List.hd hd xs).
Proof. intros [_ H]. apply get_next_Ok. by apply (links_nx _ _ _ hd). Qed.

Lemma dlist_prev h hd xs : dlist h hd xs -> get_prev h hd = Ok (default hd (last xs)).
Proof. intros [_ H]. apply get_prev_Ok. by apply (links_pv _ hd). Qed.

Lemma foreach_links h hd a xs fuel :
  links h a xs hd -> hd ∉ xs -> (length xs < fuel)%nat ->
  foreach_from fuel h (List.hd hd xs) hd = Ok xs.
Proof.
  revert a fuel. induction xs as [|x xs IH]; intros a [|fuel] Hl Hni Hf; cbn in *; try lia.
  - by rewrite Z.eqb_refl.
  - destruct Hl as (_ & _ & Hl). replace (x =? hd) with false by (set_unfold; symmetry; lia).
    rewrite (proj2 (get_next_Ok _ _ _) (links_nx _ _ _ _ Hl)). cbn.
    rewrite (IH x fuel Hl) by (set_solver || lia). done.
Qed.

Lemma foreach_rev_links h hd xs b fuel :
  links h hd xs b -> hd ∉ xs -> (length xs < fuel)%nat ->
  foreach_rev_from fuel h (default hd (last xs)) hd = Ok (reverse xs).
Proof.
  revert b fuel. induction xs as [|x xs IH] using rev_ind; intros b [|fuel] Hl Hni Hf; try lia.
  - cbn. by rewrite Z.eqb_refl.
  - rewrite length_app in Hf. cbn in Hf. apply links_app in Hl as [Hl _].
    rewrite last_snoc, reverse_app. change (default hd (Some x)) with x. cbn [foreach_rev_from].
    replace (x =? hd) with false by (set_unfold; symmetry; lia).
    rewrite (proj2 (get_prev_Ok _ _ _) (links_pv _ _ _ _ Hl)). cbn.
    rewrite (IH x fuel Hl) by (set_solver || lia). done.
Qed.

(** inserting a fresh node into a ring puts it first ([list_insert], [list_pushhead]) or
    last ([list_pushback]), and after any prefix when the insertion point is that prefix's last
    node; every other node keeps its place. *)
Theorem list_insert_refines h hd xs ys node :
  dlist h hd (xs ++ ys) -> node ∉ hd :: xs ++ ys -> is_Some (h !! node) ->
  (exists h1, list_insert h hd node = Ok h1 /\ dlist h1 hd (node :: xs ++ ys)) /\
  (exists h2, list_pushback h hd node = Ok h2 /\ dlist h2 hd (xs ++ ys ++ [node])) /\
  (exists h3, list_insert_after h (default hd (last xs)) node = Ok h3 /\
     dlist h3 hd (xs ++ node :: ys)).
Proof.
  intros Hd Hf Ha. split_and!.
  - by apply (insert_after_dlist h hd [] (xs ++ ys) node).
  - unfold list_pushback, list_insert_before. rewrite (dlist_prev _ _ _ Hd). cbn [res_bind].
    destruct (insert_after_dlist h hd (xs ++ ys) [] node) as (h2 & H2 & D2);
      [by rewrite app_nil_r|by rewrite app_nil_r|done|].
    exists h2. rewrite <- app_assoc in D2. done.
  - by apply insert_after_dlist.
Qed.

(** A ring of two nodes, and a third one that is not linked. *)
Definition lheap_demo : lheap :=
  <[1 := LNode 3 2]> (<[2 := LNode 1 3]> (<[3 := LNode 2 1]> (<[4 := LNode 0 0]> ∅))).

Lemma lheap_demo_dlist : dlist lheap_demo 1 [2; 3].
Proof. split; [|done]. repeat (apply NoDup_cons; split; [set_solver|]). apply NoDup_nil_2. Qed.

Lemma list_insert_refines_witness :
  exists h2, list_pushback lheap_demo 1 4 = Ok h2 /\ dlist h2 1 [2; 3; 4].
Proof.
  apply (list_insert_refines lheap_demo 1 [2] [3] 4 lheap_demo_dlist); [set_solver|by exists (LNode 0 0)].
Defined.

(** [list_remove] takes exactly the given node out of its ring; [list_pophead] and
    [list_popback] take the first and the last one, or give back the head of an empty ring;
    [list_empty] decides whether the ring holds no node. *)
Theorem list_remove_refines h hd xs x ys :
  dlist h hd (xs ++ x :: ys) ->
  (exists h1, list_remove h x = Ok h1 /\ dlist h1 hd (xs ++ ys)) /\
  (exists h2, list_pophead h hd = Ok (List.hd x xs, h2) /\ dlist h2 hd (tail (xs ++ x :: ys))) /\
  (exists h3, list_popback h hd = Ok (default x (last ys), h3) /\
     dlist h3 hd (removelast (xs ++ x :: ys))) /\
  list_empty h hd = Ok false.
Proof.
  intros Hd. split_and!.
  - by apply remove_dlist.
  - unfold list_pophead. rewrite (dlist_next _ _ _ Hd). cbn [res_bind].
    destruct (remove_dlist h hd [] (List.hd x xs) (tail (xs ++ x :: ys))) as (h2 & H2 & D2);
      [by destruct xs|].
    exists h2. destruct xs; cbn in *; by rewrite H2.
  - unfold list_popback. rewrite (dlist_prev _ _ _ Hd). cbn [res_bind].
    assert (xs ++ x :: ys = removelast (xs ++ x :: ys) ++ [default x (last ys)]) as Hs.
    { destruct ys as [|y ys _] using rev_ind; [by rewrite removelast_last|].
      rewrite app_comm_cons, app_assoc, removelast_last, last_snoc. done. }
    rewrite Hs in Hd. destruct (remove_dlist _ _ _ _ _ Hd) as (h3 & H3 & D3).
    exists h3. rewrite app_nil_r in D3. split; [|done]. rewrite Hs, last_snoc.
    change (default hd (Some ?z)) with z. by rewrite H3.
  - unfold list_empty. rewrite (dlist_prev _ _ _ Hd). cbn. f_equal. apply Z.eqb_neq.
    destruct Hd as [Hnd _]. apply NoDup_cons in Hnd as [Hnd _]. intros E.
    destruct (last_in hd (xs ++ x :: ys)) as [El|El]; [|by rewrite <- E in El].
    destruct ys as [|y ys _] using rev_ind; [rewrite last_snoc in E|
      rewrite app_comm_cons, app_assoc, last_snoc in E]; cbn in E; set_solver.
Qed.

Lemma list_remove_refines_witness :
  exists h1, list_remove lheap_demo 2 = Ok h1 /\ dlist h1 1 [3].
Proof. apply (list_remove_refines lheap_demo 1 [] 2 [3] lheap_demo_dlist). Defined.

(** with one step more than there are nodes, the two traversal macros visit every node of
    the ring once, in order and in reverse order. *)
Theorem list_foreach_visits h hd xs fuel :
  dlist h hd xs -> (length xs < fuel)%nat ->
  LIST_FOREACH fuel h hd = Ok xs /\ LIST_FOREACH_REV fuel h hd = Ok (reverse xs).
Proof.
  intros Hd Hf. unfold LIST_FOREACH, LIST_FOREACH_REV.
  rewrite (dlist_next _ _ _ Hd), (dlist_prev _ _ _ Hd). cbn [res_bind].
  destruct Hd as [Hnd Hl]. apply NoDup_cons in Hnd as [Hnd _]. split.
  - by eapply foreach_links.
  - by eapply foreach_rev_links.
Qed.

Lemma list_foreach_visits_witness :
  LIST_FOREACH 3 lheap_demo 1 = Ok [2; 3] /\ LIST_FOREACH_REV 3 lheap_demo 1 = Ok [3; 2].
Proof. apply (list_foreach_visits lheap_demo 1 [2; 3] 3 lheap_demo_dlist). cbn. lia. Defined.

(** inserting the first node of a ring again makes it its own successor: the nodes behind
    it are lost and a traversal of the ring no longer ends. *)
Theorem list_reinsert_loops h hd x xs :
  dlist h hd (x :: xs) ->
  exists h', list_insert h hd x = Ok h' /\ forall fuel, LIST_FOREACH fuel h' hd = Fault OutOfFuel.
Proof.
  intros [Hnd (Hnx & Hpv & Hl)]. pose proof (links_alloc _ _ _ _ Hl) as Hal.
  apply NoDup_cons in Hnd as [Hnd _].
  assert (is_Some (h !! x)) as Ax by (apply Hal; auto).
  assert (is_Some (h !! hd)) as Ah by (apply Hal; auto).
  unfold list_insert, list_insert_after.
  rewrite (proj2 (get_next_Ok _ _ _) Hnx). cbn [res_bind].
  destruct (set_next_spec h x x Ax) as (h1 & -> & N1 & P1 & A1). cbn [res_bind].
  rewrite (proj2 (get_next_Ok h1 x x)) by (rewrite N1; by rewrite decide_True). cbn [res_bind].
  destruct (set_prev_spec h1 x x) as (h2 & -> & P2 & N2 & A2); [by apply A1|]. cbn [res_bind].
  destruct (set_prev_spec h2 x hd) as (h3 & -> & P3 & N3 & A3); [by apply A2, A1|]. cbn [res_bind].
  destruct (set_next_spec h3 hd x) as (h4 & -> & N4 & P4 & A4); [by apply A3, A2, A1|].
  exists h4. split; [done|]. intros fuel. unfold LIST_FOREACH.
  rewrite (proj2 (get_next_Ok h4 hd x)) by (rewrite N4; by rewrite decide_True). cbn [res_bind].
  assert (x <> hd) as Hne by set_solver.
  induction fuel as [|fuel IH]; [done|]. cbn. replace (x =? hd) with false by lia.
  rewrite (proj2 (get_next_Ok h4 x x)); [cbn; by rewrite IH|].
  rewrite N4, decide_False, N3, N2, N1, decide_True by done. done.
Qed.

Lemma list_reinsert_loops_witness :
  exists h', list_insert lheap_demo 1 2 = Ok h' /\
    forall fuel, LIST_FOREACH fuel h' 1 = Fault OutOfFuel.
Proof. apply (list_reinsert_loops lheap_demo 1 2 [3] lheap_demo_dlist). Defined.
