(* ===== verification/Ktimer.v ===== *)
(** * Kernel timers: [kernel/ktimer.c]

    Timers are nodes of one intrusive list.  The callbacks are data (a function
    and its argument); what running one does is a parameter of the model. *)
From Stdlib Require Import ZArith Lia List Bool.
From stdpp Require Import base list gmap.
From S2P Require Import Prelude Dlist.

#[local] Open Scope Z_scope.

(** [ktimer_t]; its list node has the timer's address. *)
Record ktimer_t := KTimer { t_func : Z; t_arg : Z; t_expires : Z; t_dead : bool }.

#[export] Instance eta_ktimer : Eta ktimer_t :=
  fun t => KTimer (t_func t) (t_arg t) (t_expires t) (t_dead t).

(** The timers, their list nodes, [__ktick] and [__ktick_ms]. *)
Record kts := Kts { k_recs : gmap Z ktimer_t; k_list : lheap; k_tick : Z; k_tick_ms : Z }.

#[export] Instance eta_kts : Eta kts :=
  fun s => Kts (k_recs s) (k_list s) (k_tick s) (k_tick_ms s).

(** The static list head [timers]. *)
Definition timers : Z := -3.

Definition ktimer (s : kts) (tmr func arg ms : Z) : res kts :=
  let! t := deref (k_recs s !! tmr) in
  let t := t <| t_func := func |> <| t_arg := arg |> <| t_expires := u64 (k_tick s + ms) |> in
  let s := s <| k_recs := <[tmr := t]> (k_recs s) |> in
  if negb (t_dead t) then Ok s
  else
    let s := s <| k_recs := <[tmr := t <| t_dead := false |>]> (k_recs s) |> in
    let! h := list_insert (k_list s) timers tmr in
    Ok (s <| k_list := h |>).

Definition ktimer_init (s : kts) (tmr : Z) : res kts :=
  let! t := deref (k_recs s !! tmr) in
  Ok (s <| k_recs := <[tmr := t <| t_dead := true |>]> (k_recs s) |>).

Definition ktimer_kill (s : kts) (tmr : Z) : res kts :=
  let! t := deref (k_recs s !! tmr) in
  if t_dead t then Ok s
  else
    let s := s <| k_recs := <[tmr := t <| t_dead := true |>]> (k_recs s) |> in
    let! h := list_remove (k_list s) tmr in
    Ok (s <| k_list := h |>).

Definition ktimer_remain (s : kts) (tmr : Z) : res Z :=
  let! t := deref (k_recs s !! tmr) in
  if t_dead t then Ok 0
  else if k_tick s <? t_expires t then Ok (u64 (t_expires t - k_tick s))
  else Ok 0.

Definition ktimer_remain_ms (s : kts) (tmr : Z) : res Z :=
  let! r := ktimer_remain s tmr in Ok (u64 (r * k_tick_ms s)).

Section callbacks.
Context {W : Type}.
(** What calling [func] with [arg] does to the timers and to the rest of the kernel. *)
Variable run : Z -> Z -> kts * W -> res (kts * W).

Definition ktimer_fire (sw : kts * W) (tmr : Z) : res (kts * W) :=
  let '(s, w) := sw in
  let! t := deref (k_recs s !! tmr) in
  if t_dead t then Ok (s, w)
  else
    let! s := ktimer_kill s tmr in
    let! t := deref (k_recs s !! tmr) in
    run (t_func t) (t_arg t) (s, w).

Fixpoint check_loop (fuel : nat) (sw : kts * W) (ptr nxt : Z) : res (kts * W) :=
  match fuel with
  | O => Fault OutOfFuel
  | S fuel =>
      if ptr =? timers then Ok sw
      else
        let! t := deref (k_recs (fst sw) !! ptr) in
        let! sw := (if k_tick (fst sw) <? t_expires t then Ok sw else ktimer_fire sw ptr) in
        let! nn := get_next (k_list (fst sw)) nxt in
        check_loop fuel sw nxt nn
  end.

Definition ktimer_check (fuel : nat) (sw : kts * W) : res (kts * W) :=
  let! ptr := get_next (k_list (fst sw)) timers in
  let! nxt := get_next (k_list (fst sw)) ptr in
  check_loop fuel sw ptr nxt.

End callbacks.

(** ** The list of armed timers *)

Record timers_ok (s : kts) (xs : list Z) : Prop := {
  to_list : dlist (k_list s) timers xs;
  to_live : forall a t, k_recs s !! a = Some t -> (t_dead t = false <-> a ∈ xs);
  to_recs : forall a, a ∈ xs -> is_Some (k_recs s !! a);
  to_nodes : forall a, is_Some (k_recs s !! a) -> is_Some (k_list s !! a) }.

Lemma links_dom h a xs b : links h a xs b -> forall q, q ∈ a :: xs ++ [b] -> is_Some (h !! q).
Proof. intros H q Hq. apply (links_alloc _ _ _ _ H). set_solver. Qed.

(** [list_insert] and [list_remove] neither allocate nor free nodes. *)
Lemma set_next_dom h p v h' : set_next h p v = Ok h' -> forall q, is_Some (h !! q) -> is_Some (h' !! q).
Proof.
  unfold set_next. intros H q Hq. res_inv. destruct (decide (p = q)) as [->|];
    [rewrite lookup_insert_eq|rewrite lookup_insert_ne by done]; eauto.
Qed.

Lemma set_prev_dom h p v h' : set_prev h p v = Ok h' -> forall q, is_Some (h !! q) -> is_Some (h' !! q).
Proof.
  unfold set_prev. intros H q Hq. res_inv. destruct (decide (p = q)) as [->|];
    [rewrite lookup_insert_eq|rewrite lookup_insert_ne by done]; eauto.
Qed.

Lemma list_insert_dom h l n h' : list_insert h l n = Ok h' -> forall q, is_Some (h !! q) -> is_Some (h' !! q).
Proof.
  unfold list_insert, list_insert_after. intros H q Hq. res_inv.
  eauto 10 using set_next_dom, set_prev_dom.
Qed.

Lemma list_remove_dom h l h' : list_remove h l = Ok h' -> forall q, is_Some (h !! q) -> is_Some (h' !! q).
Proof.
  unfold list_remove. intros H q Hq. res_inv. case_if; res_inv; [done|].
  eauto 10 using set_next_dom, set_prev_dom.
Qed.

(** The armed timers after disarming [x]. *)
Lemma kill_armed s xs x ys :
  timers_ok s (xs ++ x :: ys) ->
  exists s', ktimer_kill s x = Ok s' /\ timers_ok s' (xs ++ ys) /\
    k_tick s' = k_tick s /\ k_tick_ms s' = k_tick_ms s /\
    (forall a, k_recs s' !! a =
       if decide (a = x) then (fun t => t <| t_dead := true |>) <$> k_recs s !! x else k_recs s !! a).
Proof.
  intros [Hl Hlive Hrecs Hnodes]. unfold ktimer_kill.
  destruct (Hrecs x) as [t Ht]; [set_solver|]. rewrite Ht. cbn [deref res_bind].
  assert (t_dead t = false) as -> by (apply (Hlive x t Ht); set_solver).
  destruct (remove_dlist _ _ _ _ _ Hl) as (h' & Hr & Hd). cbn [k_list upd]. rewrite Hr. cbn [res_bind].
  eexists. split; [reflexivity|]. cbn.
  assert (forall a, a ∈ xs ++ ys <-> a ∈ xs ++ x :: ys /\ a <> x) as Hmem.
  { destruct Hl as [Hnd _]. apply NoDup_cons in Hnd as [_ Hnd].
    rewrite <- Permutation_middle in Hnd. apply NoDup_cons in Hnd as [Hnd _]. set_solver. }
  assert (forall a, is_Some (<[x := t <| t_dead := true |>]> (k_recs s) !! a) <->
                    is_Some (k_recs s !! a)) as Hsome.
  { intros a. destruct (decide (x = a)) as [->|];
      [rewrite lookup_insert_eq, Ht; split; eauto|by rewrite lookup_insert_ne]. }
  split_and!; [|done|done|].
  - split; cbn; [done| | |].
    + intros a t' Ha. rewrite Hmem. destruct (decide (x = a)) as [<-|Hne].
      * rewrite lookup_insert_eq in Ha. simplify_eq. cbn. split; [done|tauto].
      * rewrite lookup_insert_ne in Ha by done. rewrite (Hlive a t' Ha). naive_solver.
    + intros a Ha. apply Hmem in Ha as [Ha _]. apply Hsome. eauto.
    + intros a Ha. apply Hsome in Ha. eapply list_remove_dom; eauto.
  - intros a. destruct (decide (a = x)) as [->|]; [by rewrite lookup_insert_eq|by rewrite lookup_insert_ne].
Qed.

(** Disarming a timer that is not armed changes nothing. *)
Lemma kill_unarmed s xs x : timers_ok s xs -> x ∉ xs -> is_Some (k_recs s !! x) -> ktimer_kill s x = Ok s.
Proof.
  intros Hok Hx [t Ht]. unfold ktimer_kill. rewrite Ht. cbn.
  destruct (t_dead t) eqn:E; [done|]. by apply (to_live _ _ Hok _ _ Ht) in E.
Qed.

Lemma timers_ok_ext s s' xs :
  k_list s' = k_list s ->
  (forall a, t_dead <$> k_recs s' !! a = t_dead <$> k_recs s !! a) ->
  timers_ok s xs -> timers_ok s' xs.
Proof.
  intros El Er [Hl Hlive Hrecs Hnodes].
  assert (forall a, is_Some (k_recs s' !! a) <-> is_Some (k_recs s !! a)) as Hs.
  { intros a. split; intros Ha; apply (fmap_is_Some t_dead); [rewrite <- Er|rewrite Er];
      by apply fmap_is_Some. }
  split; rewrite ?El; [done| | |].
  - intros a t Ha. specialize (Er a). rewrite Ha in Er. cbn in Er. symmetry in Er.
    apply fmap_Some in Er as (t0 & Ht0 & ->). eauto.
  - intros a Ha. apply Hs. eauto.
  - intros a Ha. apply Hnodes, Hs, Ha.
Qed.

(** Changing a timer's callback and expiry keeps the armed list. *)
Lemma set_timer_ok s xs a t t' :
  timers_ok s xs -> k_recs s !! a = Some t -> t_dead t' = t_dead t ->
  timers_ok (s <| k_recs := <[a := t']> (k_recs s) |>) xs.
Proof.
  intros Hok Ha Ed. apply (timers_ok_ext s); [done| |done]. intros b. cbn.
  destruct (decide (a = b)) as [->|]; [by rewrite lookup_insert_eq, Ha; cbn; rewrite Ed|].
  by rewrite lookup_insert_ne.
Qed.

Lemma ktimer_arm_spec s xs tmr func arg ms :
  timers_ok s xs -> tmr <> timers -> is_Some (k_recs s !! tmr) ->
  exists s', ktimer s tmr func arg ms = Ok s' /\
    timers_ok s' (if decide (tmr ∈ xs) then xs else tmr :: xs) /\
    k_recs s' !! tmr = Some (KTimer func arg (u64 (k_tick s + ms)) false) /\
    (forall a, a <> tmr -> k_recs s' !! a = k_recs s !! a).
Proof.
  intros Hok Hne [t Ht]. unfold ktimer. rewrite Ht. cbn [deref res_bind].
  pose proof (to_live _ _ Hok _ _ Ht) as Hlive. cbn [t_dead upd negb].
  destruct (t_dead t) eqn:Ed; cbn [negb].
  - assert (tmr ∉ xs) as Hni by (rewrite <- Hlive; done). rewrite decide_False by done.
    destruct (insert_after_dlist (k_list s) timers [] xs tmr) as (h' & Hi & Hd);
      [apply Hok|set_solver|apply (to_nodes _ _ Hok); eauto|].
    cbn [k_list upd list_insert default last from_option] in *. unfold list_insert, id in *.
    rewrite Hi. cbn [res_bind]. eexists. split; [reflexivity|]. cbn. rewrite insert_insert_eq. split_and!.
    + split; cbn; [done| | |].
      * intros a t' Ha. destruct (decide (tmr = a)) as [<-|].
        -- rewrite lookup_insert_eq in Ha. simplify_eq. cbn. split; [set_solver|done].
        -- rewrite lookup_insert_ne in Ha by done. rewrite (to_live _ _ Hok _ _ Ha). set_solver.
      * intros a Ha. destruct (decide (tmr = a)) as [<-|]; [rewrite lookup_insert_eq; eauto|].
        rewrite lookup_insert_ne by done. apply (to_recs _ _ Hok). set_solver.
      * intros a Ha. eapply list_insert_dom; [exact Hi|]. apply (to_nodes _ _ Hok).
        destruct (decide (tmr = a)) as [<-|]; [eauto|by rewrite lookup_insert_ne in Ha].
    + by rewrite lookup_insert_eq.
    + intros a Ha. by rewrite lookup_insert_ne.
  - rewrite decide_True by tauto. eexists. split; [reflexivity|]. cbn. split_and!.
    + apply (set_timer_ok s xs tmr t); [done|done|done].
    + destruct t; cbn in Ed; subst. by rewrite lookup_insert_eq.
    + intros a Ha. by rewrite lookup_insert_ne.
Qed.

(** arming a timer sets its callback and expiry; it enters the list of armed timers, in front,
    exactly when it was not armed before, and no other timer is touched. *)
Theorem ktimer_arms s xs tmr func arg ms :
  timers_ok s xs -> tmr <> timers -> is_Some (k_recs s !! tmr) ->
  exists s', ktimer s tmr func arg ms = Ok s' /\
    timers_ok s' (if decide (tmr ∈ xs) then xs else tmr :: xs) /\
    k_recs s' !! tmr = Some (KTimer func arg (u64 (k_tick s + ms)) false) /\
    (forall a, a <> tmr -> k_recs s' !! a = k_recs s !! a).
Proof. apply ktimer_arm_spec. Qed.

(** Two armed timers: one expired at tick 100, one that expires at 250. *)
Definition kts_demo : kts :=
  Kts (<[1 := KTimer 7 70 90 false]> (<[2 := KTimer 8 80 250 false]> (<[3 := KTimer 9 90 0 true]> ∅)))
      (<[timers := LNode 2 1]> (<[1 := LNode timers 2]> (<[2 := LNode 1 timers]> (<[3 := LNode 0 0]> ∅)))) 100 1.

Lemma kts_demo_ok : timers_ok kts_demo [1; 2].
Proof.
  assert (map_Forall (fun a t => t_dead t = false <-> a ∈ [1; 2]) (k_recs kts_demo)) as Hlive
    by (apply (bool_decide_unpack _); by vm_compute).
  assert (map_Forall (fun a _ => is_Some (k_list kts_demo !! a)) (k_recs kts_demo)) as Hnodes
    by (apply (bool_decide_unpack _); by vm_compute).
  split.
  - split; [|done]. repeat (apply NoDup_cons; split; [set_solver|]). apply NoDup_nil_2.
  - exact Hlive.
  - intros a Ha. set_unfold. destruct Ha as [-> | [-> | []]]; vm_compute; eauto.
  - intros a [t Ht]. exact (Hnodes a t Ht).
Qed.

Lemma ktimer_arms_witness :
  exists s', ktimer kts_demo 3 5 6 50 = Ok s' /\ timers_ok s' [3; 1; 2] /\
    k_recs s' !! 3 = Some (KTimer 5 6 150 false).
Proof.
  destruct (ktimer_arms kts_demo [1; 2] 3 5 6 50 kts_demo_ok) as (s' & Hs & Hok & Hr & _);
    [done|vm_compute; eauto|]. exists s'. done.
Defined.

Section check.
Context {W : Type}.
Variable run : Z -> Z -> kts * W -> res (kts * W).
(** The effect of a callback on the rest of the kernel. *)
Variable effect : Z -> Z -> W -> W.
Hypothesis run_effect : forall f a s w, run f a (s, w) = Ok (s, effect f a w).

Definition expired (s : kts) (a : Z) : bool :=
  match k_recs s !! a with
  | Some t => t_expires t <=? k_tick s
  | None => false
  end.

(** Running the callbacks of the timers [l] in turn. *)
Definition fire_all (s : kts) (l : list Z) (w : W) : W :=
  fold_left (fun w a => match k_recs s !! a with
                        | Some t => effect (t_func t) (t_arg t) w
                        | None => w
                        end) l w.

Lemma fire_all_ext s s' l w :
  (forall a, a ∈ l -> (fun t => (t_func t, t_arg t)) <$> k_recs s' !! a =
                      (fun t => (t_func t, t_arg t)) <$> k_recs s !! a) ->
  fire_all s' l w = fire_all s l w.
Proof.
  unfold fire_all. revert w. induction l as [|a l IH]; intros w Hl; cbn; [done|].
  rewrite IH by set_solver. f_equal. specialize (Hl a ltac:(set_solver)).
  destruct (k_recs s' !! a), (k_recs s !! a); cbn in Hl; congruence.
Qed.

Lemma expired_ext s s' a :
  k_tick s' = k_tick s -> t_expires <$> k_recs s' !! a = t_expires <$> k_recs s !! a ->
  expired s' a = expired s a.
Proof.
  unfold expired. intros Et Er. destruct (k_recs s' !! a), (k_recs s !! a); cbn in Er; congruence.
Qed.

Lemma dlist_step h hd pre post :
  dlist h hd (pre ++ post) ->
  exists n, get_next h (List.hd hd post) = Ok n /\
    match post with [] => True | _ :: post' => n = List.hd hd post' end.
Proof.
  intros [_ Hl]. destruct post as [|y post]; cbn.
  - rewrite app_nil_r in Hl. eexists. split; [|done]. apply get_next_Ok. by eapply links_nx.
  - apply links_app in Hl as [_ Hl]. eexists. split; [|done]. apply get_next_Ok. by apply links_nx.
Qed.

(** Firing the armed timer [y]. *)
Lemma fire_armed s w zs y ys t :
  timers_ok s (zs ++ y :: ys) -> k_recs s !! y = Some t ->
  exists s1, ktimer_fire run (s, w) y = Ok (s1, effect (t_func t) (t_arg t) w) /\
    timers_ok s1 (zs ++ ys) /\ k_tick s1 = k_tick s /\
    (forall a, a <> y -> k_recs s1 !! a = k_recs s !! a).
Proof.
  intros Hok Ht. destruct (kill_armed _ _ _ _ Hok) as (s1 & Hk & Hok1 & Etk & _ & Hr).
  exists s1. split_and!; [|done|done|].
  - unfold ktimer_fire. rewrite Ht. cbn [deref res_bind].
    assert (t_dead t = false) as -> by (apply (to_live _ _ Hok _ _ Ht); set_solver).
    rewrite Hk. cbn [res_bind]. rewrite Hr, decide_True, Ht by done. cbn. apply run_effect.
  - intros a Ha. by rewrite Hr, decide_False.
Qed.

Lemma check_loop_spec ys : forall zs fuel s w nxt,
  timers_ok s (zs ++ ys) -> (length ys < fuel)%nat ->
  match ys with [] => True | _ :: ys' => nxt = List.hd timers ys' end ->
  exists s', check_loop run fuel (s, w) (List.hd timers ys) nxt
               = Ok (s', fire_all s (List.filter (expired s) ys) w) /\
    timers_ok s' (zs ++ List.filter (fun a => negb (expired s a)) ys) /\
    (forall a, a ∉ List.filter (expired s) ys -> k_recs s' !! a = k_recs s !! a).
Proof.
  induction ys as [|y ys IH]; intros zs [|fuel] s w nxt Hok Hf Hn; cbn in Hf; try lia.
  { exists s. cbn. done. }
  pose proof (to_list _ _ Hok) as Hd. pose proof Hd as [Hnd _].
  apply NoDup_cons in Hnd as [Hnt Hnd]. apply NoDup_app in Hnd as (_ & _ & Hnd).
  apply NoDup_cons in Hnd as [Hy _].
  destruct (to_recs _ _ Hok y) as [t Ht]; [set_solver|]. subst nxt.
  cbn [check_loop List.hd List.filter fst]. replace (y =? timers) with false by (set_unfold; symmetry; lia).
  rewrite Ht. cbn [deref res_bind]. assert (expired s y = (t_expires t <=? k_tick s)) as -> by (unfold expired; by rewrite Ht).
  destruct (Z.ltb_spec (k_tick s) (t_expires t)); cbn [res_bind fst].
  - replace (t_expires t <=? k_tick s) with false by lia. cbn [negb].
    rewrite cons_middle, app_assoc in Hok, Hd.
    destruct (dlist_step _ _ _ _ Hd) as (n & -> & Hn). cbn [res_bind].
    destruct (IH (zs ++ [y]) fuel s w n Hok ltac:(lia) Hn) as (s' & Hc & Hok' & Hr).
    exists s'. rewrite <- app_assoc in Hok'. done.
  - replace (t_expires t <=? k_tick s) with true by lia. cbn [negb].
    destruct (fire_armed s w zs y ys t Hok Ht) as (s1 & -> & Hok1 & Etk & Hr1). cbn [res_bind fst].
    destruct (dlist_step _ _ _ _ (to_list _ _ Hok1)) as (n & -> & Hn). cbn [res_bind].
    destruct (IH zs fuel s1 (effect (t_func t) (t_arg t) w) n Hok1 ltac:(lia) Hn) as (s' & Hc & Hok' & Hr).
    assert (forall a, a ∈ ys -> expired s1 a = expired s a) as Hex.
    { intros a Ha. apply expired_ext; [done|]. rewrite Hr1; [done|]. intros ->. done. }
    rewrite (filter_ext_in (expired s1) (expired s)) in Hc, Hr
      by (intros a Ha; apply Hex; by apply list_elem_of_In).
    rewrite (filter_ext_in (fun a => negb (expired s1 a)) (fun a => negb (expired s a))) in Hok'
      by (intros a Ha; f_equal; apply Hex; by apply list_elem_of_In).
    exists s'. split_and!; [|done|].
    + rewrite Hc. do 2 f_equal. transitivity (fire_all s (List.filter (expired s) ys) (effect (t_func t) (t_arg t) w));
        [|unfold fire_all; cbn; by rewrite Ht]. apply fire_all_ext.
      intros a Ha. rewrite Hr1; [done|]. intros ->. apply list_elem_of_In, filter_In in Ha as [Ha _].
      by apply list_elem_of_In in Ha.
    + intros a Ha. rewrite Hr, Hr1; [done|set_solver|set_solver].
Qed.

(** a pass of [ktimer_check] over callbacks that leave the timer list alone runs the callback
    of every armed timer whose time has come, each once and in list order, disarms exactly those,
    and leaves every other timer as it was; one step more than there are armed timers suffices. *)
Theorem ktimer_check_fires s w xs fuel :
  timers_ok s xs -> (length xs < fuel)%nat ->
  exists s', ktimer_check run fuel (s, w) = Ok (s', fire_all s (List.filter (expired s) xs) w) /\
    timers_ok s' (List.filter (fun a => negb (expired s a)) xs) /\
    (forall a, a ∉ List.filter (expired s) xs -> k_recs s' !! a = k_recs s !! a).
Proof.
  intros Hok Hf. unfold ktimer_check. cbn [fst].
  rewrite (dlist_next _ _ _ (to_list _ _ Hok)). cbn [res_bind].
  destruct (dlist_step _ _ [] _ (to_list _ _ Hok)) as (n & -> & Hn). cbn [res_bind].
  by apply (check_loop_spec xs []).
Qed.
End check.

Lemma ktimer_check_fires_witness :
  let run := fun f a (sw : kts * list (Z * Z)) => Ok (fst sw, (f, a) :: snd sw) in
  exists s', ktimer_check run 3 (kts_demo, []) = Ok (s', [(7, 70)]) /\ timers_ok s' [2].
Proof.
  destruct (ktimer_check_fires (fun f a sw => Ok (fst sw, (f, a) :: snd sw)) (fun f a w => (f, a) :: w)
    (fun f a s w => eq_refl) kts_demo [] [1; 2] 3 kts_demo_ok) as (s' & Hc & Hok & _); [cbn; lia|].
  exists s'. done.
Defined.
