(* ===== verification/Task.v ===== *)
(** * Tasks: the process table and the scheduler ([kernel/task.c], [textos/task.h])

    A task is addressed by a pointer; the table maps a process id to one.  A
    context switch is where other tasks run: what they do until the caller is
    resumed is the field [others] of the environment. *)
From Stdlib Require Import ZArith Lia List Bool.
From stdpp Require Import base list gmap.
From S2P Require Import Prelude Dlist Ktimer.

#[local] Open Scope Z_scope.

(** [enum task_state] *)
Inductive task_state := TASK_DIE | TASK_PRE | TASK_RUN | TASK_SLP | TASK_BLK | TASK_STP | TASK_INI.

#[export] Instance task_state_eq_dec : EqDecision task_state.
Proof. solve_decision. Defined.

(** [sigaction_t] *)
Record sigaction_t := SigAction {
  sa_handler : Z; sa_flags : Z; sa_restorer : Z; sa_mask : Z }.

#[export] Instance eta_sigaction : Eta sigaction_t :=
  fun a => SigAction (sa_handler a) (sa_flags a) (sa_restorer a) (sa_mask a).

(** [struct task]; the saved contexts and the page tables are not part of it. *)
Record task := Task {
  stat : task_state; stat_before_stop : task_state; tick : Z; curr : Z;
  bretval : Z; did_exec : bool;
  retval : Z; waitpid : Z; waitopt : Z;
  ruid : Z; euid : Z; suid : Z; rgid : Z; egid : Z; sgid : Z;
  supgids : option (list Z); umask : Z;
  pid : Z; sid : Z; ppid : Z; pgid : Z;
  pwd : Z; files : list (option Z); ctrltty : option Z;
  mmap : Z; brk : Z;
  sigcurr : Z; sigpend : Z; sigmask : Z; sigacts : list sigaction_t;
  utime : Z; stime : Z; _ustart : Z; _sstart : Z;
  dbg_traced : bool; dbg_waiting : bool; dbg_options : Z; dbg_tracer : option Z }.

#[export] Instance eta_task : Eta task := fun t =>
  Task (stat t) (stat_before_stop t) (tick t) (curr t) (bretval t) (did_exec t)
    (retval t) (waitpid t) (waitopt t) (ruid t) (euid t) (suid t) (rgid t) (egid t) (sgid t)
    (supgids t) (umask t) (pid t) (sid t) (ppid t) (pgid t) (pwd t) (files t) (ctrltty t)
    (mmap t) (brk t) (sigcurr t) (sigpend t) (sigmask t) (sigacts t)
    (utime t) (stime t) (_ustart t) (_sstart t)
    (dbg_traced t) (dbg_waiting t) (dbg_options t) (dbg_tracer t).

(** The session fields of [struct tty]. *)
Record ttyses := TtySes { pgrp : Z; ses_id : Z; ses_holders : Z }.

#[export] Instance eta_ttyses : Eta ttyses :=
  fun t => TtySes (pgrp t) (ses_id t) (ses_holders t).

(** [file_t]: an open file description; [ofl] are the flags kept in its open context. *)
Record file_t := File {
  offset : Z; fnode : Z; flgs : Z; fdfl : Z; refer : Z; ofl : Z }.

#[export] Instance eta_file : Eta file_t :=
  fun f => File (offset f) (fnode f) (flgs f) (fdfl f) (refer f) (ofl f).

(** The kernel state these routines share: [table], the tasks it points to,
    [_curr], the next address the page allocator hands out, the block lists,
    the timers, the microsecond clock, the open terminals and the open files. *)
Record kern := Kern {
  table : list (option Z); tasks : gmap Z task; _curr : Z; next_page : Z;
  blists : lheap; ktms : kts; us_ran : Z; ttys : gmap Z ttyses;
  filps : gmap Z file_t }.

#[export] Instance eta_kern : Eta kern := fun k =>
  Kern (table k) (tasks k) (_curr k) (next_page k) (blists k) (ktms k) (us_ran k) (ttys k) (filps k).

(** What the routines depend on: the tasks that run while the caller is switched
    out, what a freshly allocated page holds, and the file system's [vfs_close]. *)
Class Env := {
  others : kern -> res kern;
  junk_task : task;
  junk_timer : ktimer_t;
  junk_node : lnode;
  vfs_close : kern -> file_t -> res (Z * kern) }.

Definition TASK_MAX : Z := 16.
Definition MAX_FILE : Z := 32.
Definition _NSIG : Z := 64.
Definition TASK_TICKS : Z := 1.
Definition WNOSTATUS : Z := -1.

(** Addresses of the timers embedded in a task, and of the two static lists. *)
Definition btmr (p : Z) : Z := p + 1.
Definition alarm_tmr (p : Z) : Z := p + 2.
Definition list_block : Z := -1.
Definition list_sleep : Z := -2.

(** ** Access to the table and to tasks *)

Definition task_current (k : kern) : option Z := mjoin (table k !! Z.to_nat (_curr k)).

Definition task_get (k : kern) (pid : Z) : option Z :=
  if (pid <? 0) || (TASK_MAX <=? pid) then None else mjoin (table k !! Z.to_nat pid).

Definition get_task (k : kern) (p : Z) : res task := deref (tasks k !! p).

Definition set_task (k : kern) (p : Z) (f : task -> task) : res kern :=
  let! t := get_task k p in Ok (k <| tasks := <[p := f t]> (tasks k) |>).

(** [for (i = from; i < TASK_MAX; i++) if (table[i] == TASK_FREE) return i;] *)
Fixpoint getfree_loop (tb : list (option Z)) (i : Z) : Z :=
  match tb with
  | [] => -1
  | None :: _ => i
  | Some _ :: tb => getfree_loop tb (i + 1)
  end.

Definition _getfree (k : kern) : Z := getfree_loop (table k) 0.

(** ** The scheduler *)

(** The scan of [_getnext]: [n] steps are left, [i] is the index. *)
Fixpoint getnext_loop (k : kern) (n : nat) (i : Z) : res (option Z) :=
  match n with
  | O => Ok None
  | S n =>
      if i <? TASK_MAX then
        match mjoin (table k !! Z.to_nat i) with
        | None => getnext_loop k n ((i + 1) mod TASK_MAX)
        | Some p =>
            let! t := get_task k p in
            if decide (stat t = TASK_PRE) then Ok (Some i)
            else getnext_loop k n ((i + 1) mod TASK_MAX)
        end
      else Ok None
  end.

Definition _getnext (k : kern) : res (option Z * kern) :=
  let! r := getnext_loop k (Z.to_nat (_curr k + TASK_MAX)) (_curr k) in
  match r with
  | Some i => Ok (mjoin (table k !! Z.to_nat i), k <| _curr := i |>)
  | None => Ok (None, k)
  end.

(** [task_schedule] up to the switch: [None] when it returns without one. *)
Definition sched_pick (k : kern) : res (option kern) :=
  match task_current k with
  | None => Ok None
  | Some c =>
      let! nk := _getnext k in
      match nk with
      | (None, _) => Ok None
      | (Some n, k) =>
          let! t := get_task k c in
          let! k := (if decide (stat t = TASK_RUN)
                     then set_task k c (fun t => t <| stat := TASK_PRE |>) else Ok k) in
          let! k := set_task k n (fun t => t <| stat := TASK_RUN |>) in
          Ok (Some k)
      end
  end.

Definition task_schedule `{!Env} (k : kern) : res kern :=
  let! r := sched_pick k in
  match r with
  | Some k => others k
  | None => Ok k
  end.

Definition task_yield `{!Env} (k : kern) : res kern := task_schedule k.

(** ** Time accounting *)

(** The caller's task. *)
Definition current (k : kern) : res Z := deref (task_current k).

(** [useconds_t us = arch_us_ran();] truncates to 32 bits. *)
Definition useconds (k : kern) : Z := u32 (us_ran k).

Definition task_stime_enter (k : kern) : res kern :=
  let! c := current k in
  let us := useconds k in
  set_task k c (fun t => t <| _sstart := us |> <| utime ::= fun u => u64 (u + u64 (us - _ustart t)) |>).

Definition task_stime_exit (k : kern) : res kern :=
  let! c := current k in
  let us := useconds k in
  set_task k c (fun t => t <| _ustart := us |> <| stime ::= fun u => u64 (u + u64 (us - _sstart t)) |>).

Definition task_stime_discard (k : kern) : res kern :=
  let! c := current k in
  set_task k c (fun t => t <| _sstart := u64 (us_ran k) |>).

(** ** Blocking *)

(** The callbacks that tasks arm: [wake_timeout] and [kill_timeout]. *)
Definition WAKE_TIMEOUT : Z := 1.
Definition KILL_TIMEOUT : Z := 2.

Definition task_block `{!Env} (k : kern) (tsk : option Z) (blist : option Z)
    (st : task_state) (timeout : Z) : res (Z * kern) :=
  let! p := deref (match tsk with Some p => Some p | None => task_current k end) in
  let! k := set_task k p (fun t => t <| stat := TASK_BLK |> <| bretval := 0 |>) in
  let! h := list_insert (blists k) (default list_block blist) p in
  let k := k <| blists := h |> in
  let! k := (if 0 <? timeout then
               let! s := ktimer (ktms k) (btmr p) WAKE_TIMEOUT p timeout in
               Ok (k <| ktms := s |>)
             else Ok k) in
  let! k := (if decide (Some p = task_current k) then task_schedule k else Ok k) in
  let! t := get_task k p in
  Ok (bretval t, k).

Definition task_unblock (k : kern) (tsk : option Z) (reason : Z) : res kern :=
  do! ASSERTK (bool_decide (is_Some tsk)) in
  let! p := deref tsk in
  let! k := set_task k p (fun t => t <| bretval := reason |> <| stat := TASK_PRE |>) in
  let! k := task_stime_discard k in
  let! s := ktimer_kill (ktms k) (btmr p) in
  Ok (k <| ktms := s |>).

Definition wake_timeout (k : kern) (tsk : Z) : res kern := task_unblock k (Some tsk) (- ETIME).

(** The result and, in [*rms], the time left. *)
Definition task_sleep `{!Env} (k : kern) (ms : Z) : res (Z * Z * kern) :=
  let! c := current k in
  let! rk := task_block k (Some c) (Some list_sleep) TASK_SLP ms in
  let '(ret, k) := rk in
  let! k := task_stime_discard k in
  let! rms := ktimer_remain (ktms k) (btmr c) in
  Ok (ret, rms, k).

(** [struct timespec] *)
Record timespec := TimeSpec { tv_sec : Z; tv_nsec : Z }.

(** The [nanosleep] system call: its result and [*rmtp]. *)
Definition sys_nanosleep `{!Env} (k : kern) (rqtp : timespec) : res (Z * timespec * kern) :=
  let ms := u64 (u64 (tv_sec rqtp * 1000) + Z.quot (Z.quot (tv_nsec rqtp) 1000) 1000) in
  let! r := task_sleep k ms in
  let '(ret, rms, k) := r in
  Ok (ret, TimeSpec (rms / 1000) (rms mod 1000 * 1000 * 1000), k).

(** [task_foreach_next]: the task after [p] in the table; from [None], entry 1. *)
Fixpoint foreach_next_loop (k : kern) (n : nat) (i : Z) : option Z :=
  match n with
  | O => None
  | S n =>
      if i <? TASK_MAX then
        match mjoin (table k !! Z.to_nat i) with
        | Some p => Some p
        | None => foreach_next_loop k n (i + 1)
        end
      else None
  end.

Definition task_foreach_next (k : kern) (p : option Z) : res (option Z) :=
  match p with
  | None => Ok (mjoin (table k !! 1%nat))
  | Some p =>
      let! t := get_task k p in
      Ok (foreach_next_loop k (Z.to_nat TASK_MAX) (pid t + 1))
  end.

(** ** Well-formed tables *)

(** Entry [i] of the table is the task [t] at [p]. *)
Definition entry (k : kern) (i : Z) (p : Z) (t : task) : Prop :=
  0 <= i /\ table k !! Z.to_nat i = Some (Some p) /\ tasks k !! p = Some t.

Record kern_ok (k : kern) : Prop := {
  ok_len : length (table k) = Z.to_nat TASK_MAX;
  ok_curr : 0 <= _curr k < TASK_MAX;
  ok_ptr : forall i p, 0 <= i -> table k !! Z.to_nat i = Some (Some p) ->
             exists t, tasks k !! p = Some t /\ pid t = i }.

Definition ready (k : kern) (i : Z) : Prop := exists p t, entry k i p t /\ stat t = TASK_PRE.

Lemma entry_range k i p t : kern_ok k -> entry k i p t -> 0 <= i < TASK_MAX.
Proof.
  intros Hok (Hi & Ht & _). apply lookup_lt_Some in Ht. rewrite (ok_len _ Hok) in Ht.
  unfold TASK_MAX in *. lia.
Qed.

(** A pointer is in the table at most once. *)
Lemma entry_inj k i j p t t' : kern_ok k -> entry k i p t -> entry k j p t' -> i = j /\ t = t'.
Proof.
  intros Hok (Hi & Ti & Pi) (Hj & Tj & Pj).
  destruct (ok_ptr _ Hok _ _ Hi Ti) as (t1 & E1 & H1), (ok_ptr _ Hok _ _ Hj Tj) as (t2 & E2 & H2).
  simplify_eq. done.
Qed.

Lemma entry_fun k i p q t t' : entry k i p t -> entry k i q t' -> p = q /\ t = t'.
Proof. intros (_ & Ti & Pi) (_ & Tj & Pj). simplify_eq. done. Qed.

Lemma entry_of k i p : kern_ok k -> 0 <= i -> mjoin (table k !! Z.to_nat i) = Some p ->
  exists t, entry k i p t /\ pid t = i.
Proof.
  intros Hok Hi E. destruct (table k !! Z.to_nat i) as [[q|]|] eqn:Et; cbn in E; simplify_eq.
  destruct (ok_ptr _ Hok _ _ Hi Et) as (t & Ht & Hp). exists t. done.
Qed.

(** Updating a task's fields other than its pid keeps the table well formed. *)
Lemma kern_ok_upd k p t t' :
  kern_ok k -> tasks k !! p = Some t -> pid t' = pid t ->
  kern_ok (k <| tasks := <[p := t']> (tasks k) |>).
Proof.
  intros [Hl Hc Hp] Ht Epid. split; cbn; [done|done|]. intros i q Hi Hq.
  destruct (Hp i q Hi Hq) as (t0 & E0 & P0). destruct (decide (p = q)) as [->|].
  - exists t'. rewrite lookup_insert_eq. split; [done|]. simplify_eq. done.
  - exists t0. by rewrite lookup_insert_ne.
Qed.

Lemma kern_ok_curr k i : kern_ok k -> 0 <= i < TASK_MAX -> kern_ok (k <| _curr := i |>).
Proof. intros [Hl Hc Hp] Hi. split; cbn; done. Qed.

Lemma set_task_Ok k p f t : tasks k !! p = Some t -> set_task k p f = Ok (k <| tasks := <[p := f t]> (tasks k) |>).
Proof. intros H. unfold set_task, get_task. by rewrite H. Qed.

(** What [n] steps of the scan from offset [d] establish: the first ready entry, or none. *)
Definition scan_post (k : kern) (d : Z) (n : nat) (r : option Z) : Prop :=
  match r with
  | None => forall e, d <= e < d + Z.of_nat n -> ~ ready k ((_curr k + e) mod TASK_MAX)
  | Some i => exists e, d <= e < d + Z.of_nat n /\ i = (_curr k + e) mod TASK_MAX /\ ready k i /\
                forall e', d <= e' < e -> ~ ready k ((_curr k + e') mod TASK_MAX)
  end.

Lemma scan_skip k d n r :
  ~ ready k ((_curr k + d) mod TASK_MAX) -> scan_post k (d + 1) n r -> scan_post k d (S n) r.
Proof.
  intros Hnr. destruct r as [j|]; cbn [scan_post].
  - intros (e & He & Hj & Hr & Hmin). exists e. split_and!; [lia|lia|done|done|].
    intros e' He'. destruct (decide (e' = d)) as [->|]; [done|]. apply Hmin. lia.
  - intros H e He. destruct (decide (e = d)) as [->|]; [done|]. apply H. lia.
Qed.

Lemma getnext_loop_spec k n d :
  kern_ok k -> 0 <= d ->
  exists r, getnext_loop k n ((_curr k + d) mod TASK_MAX) = Ok r /\ scan_post k d n r.
Proof.
  intros Hok. revert d. induction n as [|n IH]; intros d Hd.
  { exists None. split; [done|]. cbn. lia. }
  cbn [getnext_loop]. set (i := (_curr k + d) mod TASK_MAX).
  assert (0 <= i < TASK_MAX) as Hi by (apply Z.mod_pos_bound; unfold TASK_MAX; lia).
  replace (i <? TASK_MAX) with true by lia.
  assert ((i + 1) mod TASK_MAX = (_curr k + (d + 1)) mod TASK_MAX) as ->
    by (subst i; rewrite Z.add_mod_idemp_l by done; f_equal; lia).
  destruct (IH (d + 1) ltac:(lia)) as (r & Hr & Hpost).
  destruct (mjoin (table k !! Z.to_nat i)) as [p|] eqn:Ep.
  - destruct (entry_of _ _ _ Hok (proj1 Hi) Ep) as (t & He & _). pose proof He as (_ & Htab & Ht).
    unfold get_task. rewrite Ht. cbn [deref res_bind]. destruct (decide (stat t = TASK_PRE)) as [Hs|Hs].
    + exists (Some i). split; [done|]. exists d. split_and!; [lia|lia|done|by exists p, t|]. lia.
    + exists r. split; [done|]. apply scan_skip; [|done]. intros (p' & t' & He' & Hs').
      destruct (entry_fun _ _ _ _ _ _ He He') as [<- <-]. done.
  - exists r. split; [done|]. apply scan_skip; [|done]. intros (p' & t' & (_ & Ht & _) & _).
    fold i in Ht. by rewrite Ht in Ep.
Qed.

(** [_getnext] is total: it finds the first ready entry at or after [_curr] in cyclic order, or
    reports that no entry is ready. *)
Lemma getnext_spec k :
  kern_ok k ->
  (_getnext k = Ok (None, k) /\ forall i, ~ ready k i) \/
  (exists i p t, _getnext k = Ok (Some p, k <| _curr := i |>) /\ entry k i p t /\ stat t = TASK_PRE /\
     forall e, 0 <= e < (i - _curr k) mod TASK_MAX -> ~ ready k ((_curr k + e) mod TASK_MAX)).
Proof.
  intros Hok. pose proof (ok_curr _ Hok) as Hc. unfold _getnext.
  destruct (getnext_loop_spec k (Z.to_nat (_curr k + TASK_MAX)) 0 Hok) as (r & Hr & Hpost); [lia|].
  rewrite Z.add_0_r, (Z.mod_small (_curr k)) in Hr by done. rewrite Hr. cbn [res_bind].
  destruct r as [i|]; [right|left].
  - destruct Hpost as (e & He & Hi & (p & t & Hent & Hs) & Hmin). exists i, p, t.
    pose proof Hent as (_ & -> & _). split_and!; [done|done|done|]. intros e' He'.
    assert ((i - _curr k) mod TASK_MAX <= e).
    { subst i. rewrite Zminus_mod_idemp_l. replace (_curr k + e - _curr k) with e by lia.
      apply Z.mod_le; unfold TASK_MAX; lia. }
    apply Hmin. lia.
  - split; [done|]. intros i (p & t & He & Hs). pose proof (entry_range _ _ _ _ Hok He).
    apply (Hpost ((i - _curr k) mod TASK_MAX)).
    + pose proof (Z.mod_pos_bound (i - _curr k) TASK_MAX ltac:(done)). unfold TASK_MAX in *. lia.
    + exists p, t. split; [|done]. rewrite Z.add_mod_idemp_r by done.
      replace (_curr k + (i - _curr k)) with i by lia. by rewrite Z.mod_small.
Qed.

Lemma entry_upd k p f t i q u :
  tasks k !! p = Some t ->
  entry (k <| tasks := <[p := f t]> (tasks k) |>) i q u <->
  (q = p /\ u = f t /\ entry k i p t) \/ (q <> p /\ entry k i q u).
Proof.
  intros Ht. unfold entry. cbn. destruct (decide (q = p)) as [->|Hne].
  - rewrite lookup_insert_eq. split.
    + intros (Hi & Htab & E). simplify_eq. left. done.
    + intros [(_ & -> & Hi & Htab & _) | [? _]]; done.
  - rewrite lookup_insert_ne by done. naive_solver.
Qed.

(** The two status updates of [task_schedule], in a state where [i] is the entry picked and
    only the task at [jc] may be running. *)
Lemma sched_stats k jc c tc i p t :
  kern_ok k -> entry k i p t -> stat t = TASK_PRE -> entry k jc c tc ->
  (forall j q u, entry k j q u -> stat u = TASK_RUN -> j = jc) ->
  exists k1 k', (if decide (stat tc = TASK_RUN)
                 then set_task k c (fun t => t <| stat := TASK_PRE |>) else Ok k) = Ok k1 /\
    set_task k1 p (fun t => t <| stat := TASK_RUN |>) = Ok k' /\ kern_ok k' /\ _curr k' = _curr k /\
    (forall j q u, entry k' j q u -> (stat u = TASK_RUN <-> j = i)) /\
    (forall j q u, entry k j q u -> j <> i -> j <> jc -> entry k' j q u).
Proof.
  intros Hok He Hs Hec Hrun. pose proof He as (_ & _ & Ht). pose proof Hec as (_ & _ & Htc).
  assert (exists k1, (if decide (stat tc = TASK_RUN)
            then set_task k c (fun t => t <| stat := TASK_PRE |>) else Ok k) = Ok k1 /\
          kern_ok k1 /\ _curr k1 = _curr k /\ entry k1 i p t /\
          (forall j q u, entry k1 j q u -> stat u <> TASK_RUN) /\
          (forall j q u, entry k j q u -> j <> jc -> entry k1 j q u))
    as (k1 & E1 & Hok1 & Ec1 & He1 & Hnr & Hfr).
  { destruct (decide (stat tc = TASK_RUN)) as [Hcr|Hcr].
    - rewrite (set_task_Ok k c _ tc Htc). eexists. split_and!; [reflexivity|by apply (kern_ok_upd _ c tc)|done| | |].
      + apply entry_upd; [done|]. right. split; [|done]. intros ->. simplify_eq. congruence.
      + intros j q u Hu. apply entry_upd in Hu as [(-> & -> & Hj) | (Hq & Hj)]; [done| |done].
        intros Hr. pose proof (Hrun _ _ _ Hj Hr) as ->. by destruct (entry_fun _ _ _ _ _ _ Hec Hj).
      + intros j q u Hj Hne. apply entry_upd; [done|]. right. split; [|done]. intros ->.
        by destruct (entry_inj _ _ _ _ _ _ Hok Hj Hec).
    - eexists. split_and!; [reflexivity|done|done|done| |done].
      intros j q u Hj Hr. pose proof (Hrun _ _ _ Hj Hr) as ->.
      by destruct (entry_fun _ _ _ _ _ _ Hec Hj) as [-> ->]. }
  exists k1. pose proof He1 as (_ & _ & Ht1). rewrite (set_task_Ok k1 p _ t Ht1).
  eexists. split_and!; [done|reflexivity|by apply (kern_ok_upd _ p t)|done| |].
  - intros j q u Hu. apply entry_upd in Hu as [(-> & -> & Hj) | (Hq & Hj)]; [| |done].
    + cbn. split; [|done]. intros _. by destruct (entry_inj _ _ _ _ _ _ Hok1 Hj He1).
    + split; [by intros ?%(Hnr _ _ _ Hj)|]. intros ->. by destruct (entry_fun _ _ _ _ _ _ He1 Hj).
  - intros j q u Hj Hji Hjc. apply entry_upd; [done|]. right. split; [|by apply Hfr].
    intros ->. by destruct (entry_inj _ _ _ _ _ _ Hok Hj He).
Qed.

(** C22: rescheduling picks the first ready task at or after the current one in cyclic order and
    gives up only when no task is ready; afterwards exactly the picked task runs and no task
    other than the picked and the previous one has changed. *)
Theorem sched_pick_round_robin k c :
  kern_ok k -> task_current k = Some c ->
  (forall i p t, entry k i p t -> stat t = TASK_RUN -> i = _curr k) ->
  (sched_pick k = Ok None /\ forall i, ~ ready k i) \/
  (exists k' i p t, sched_pick k = Ok (Some k') /\ entry k i p t /\ stat t = TASK_PRE /\
     (forall e, 0 <= e < (i - _curr k) mod TASK_MAX -> ~ ready k ((_curr k + e) mod TASK_MAX)) /\
     kern_ok k' /\ _curr k' = i /\
     (forall j q u, entry k' j q u -> (stat u = TASK_RUN <-> j = i)) /\
     (forall j q u, entry k j q u -> j <> i -> j <> _curr k -> entry k' j q u)).
Proof.
  intros Hok Hc Hrun. unfold sched_pick. rewrite Hc.
  destruct (entry_of k (_curr k) c Hok) as (tc & Hec & Hpc); [apply Hok|done|].
  destruct (getnext_spec k Hok) as [[-> Hnr] | (i & p & t & -> & He & Hs & Hmin)]; [by left|right].
  cbn [res_bind]. pose proof (entry_range _ _ _ _ Hok He) as Hi.
  destruct (sched_stats (k <| _curr := i |>) (_curr k) c tc i p t) as (k1 & k' & E1 & E' & Hok' & Ec & Hr & Hf);
    [by apply kern_ok_curr|done|done|done|done|].
  unfold get_task at 1. pose proof Hec as (_ & _ & Htc). cbn [tasks upd] in *.
  change (tasks (k <| _curr := i |>)) with (tasks k). rewrite Htc. cbn [deref res_bind].
  rewrite E1. cbn [res_bind]. rewrite E'. cbn [res_bind]. exists k', i, p, t. done.
Qed.

(** ** A concrete kernel *)

Definition kern_okb (k : kern) : bool :=
  (length (table k) =? Z.to_nat TASK_MAX)%nat && (0 <=? _curr k) && (_curr k <? TASK_MAX) &&
  forallb (fun i => match mjoin (table k !! i) with
                    | None => true
                    | Some p => match tasks k !! p with
                                | Some t => pid t =? Z.of_nat i
                                | None => false
                                end
                    end) (seq 0 16).

Lemma kern_okb_ok k : kern_okb k = true -> kern_ok k.
Proof.
  unfold kern_okb. intros H. bool_facts. apply Nat.eqb_eq in H. split; [done|lia|].
  intros i p Hi Ht. rewrite forallb_forall in H0.
  assert (Z.to_nat i < 16)%nat as Hlt.
  { apply lookup_lt_Some in Ht. rewrite H in Ht. exact Ht. }
  specialize (H0 (Z.to_nat i)). rewrite Ht in H0. cbn in H0.
  destruct (tasks k !! p) as [t|] eqn:E.
  - exists t. split; [done|]. assert (In (Z.to_nat i) (seq 0 16)) as Hin by (apply in_seq; lia).
    apply H0, Z.eqb_eq in Hin. lia.
  - assert (In (Z.to_nat i) (seq 0 16)) as Hin by (apply in_seq; lia). by apply H0 in Hin.
Qed.

Definition blank_sigaction : sigaction_t := SigAction 0 0 0 0.

(** A task with the given identity and status, everything else zero. *)
Definition demo_task (pid ppid : Z) (st : task_state) : task :=
  Task st st 1 1 0 false WNOSTATUS 0 0 0 0 0 0 0 0 None 18 pid pid ppid pid 0
    (replicate 32 None) None 0 0 0 0 0 (replicate 64 blank_sigaction) 0 0 0 0 false false 0 None.

(** Entry [i] of the table points to address [100 * (i + 1)]; its timers are disarmed. *)
Fixpoint demo_kern_from (i : Z) (ts : list task) (k : kern) : kern :=
  match ts with
  | [] => k
  | t :: ts =>
      let p := 100 * (i + 1) in
      demo_kern_from (i + 1) ts
        (k <| table := <[Z.to_nat i := Some p]> (table k) |>
           <| tasks := <[p := t]> (tasks k) |>
           <| blists := <[p := LNode 0 0]> (blists k) |>
           <| ktms ::= fun s => s <| k_recs := <[btmr p := KTimer 0 0 0 true]>
                                       (<[alarm_tmr p := KTimer 0 0 0 true]> (k_recs s)) |>
                                 <| k_list := <[btmr p := LNode 0 0]>
                                       (<[alarm_tmr p := LNode 0 0]> (k_list s)) |> |>)
  end.

Definition demo_kern (curr : Z) (ts : list task) : kern :=
  demo_kern_from 0 ts
    (Kern (replicate 16 None) ∅ curr 10000
       (<[list_block := LNode list_block list_block]>
          (<[list_sleep := LNode list_sleep list_sleep]> ∅))
       (Kts ∅ (<[timers := LNode timers timers]> ∅) 100 1) 5000 ∅ ∅).

(** The kernel task, init, a blocked and a ready child; init runs. *)
Definition kern_demo : kern :=
  demo_kern 1 [demo_task 0 0 TASK_PRE; demo_task 1 0 TASK_RUN; demo_task 2 1 TASK_BLK;
               demo_task 3 1 TASK_PRE].

Lemma kern_demo_ok : kern_ok kern_demo.
Proof. apply kern_okb_ok. vm_compute. reflexivity. Qed.

(** Case analysis on the entries of a concrete table. *)
Lemma entry_index k i p t : kern_ok k -> entry k i p t -> exists n, (n < 16)%nat /\ i = Z.of_nat n.
Proof.
  intros Hok He. pose proof (entry_range _ _ _ _ Hok He). exists (Z.to_nat i).
  unfold TASK_MAX in *. lia.
Qed.

(** A property of every entry of a concrete table, checked entry by entry. *)
Definition entries_all (k : kern) (f : Z -> task -> bool) : bool :=
  forallb (fun n => match mjoin (table k !! n) with
                    | Some p => match tasks k !! p with Some t => f (Z.of_nat n) t | None => true end
                    | None => true
                    end) (seq 0 16).

Lemma entries_all_spec k f : kern_ok k -> entries_all k f = true -> forall i p t, entry k i p t -> f i t = true.
Proof.
  intros Hok Hall i p t He. destruct (entry_index _ _ _ _ Hok He) as (n & Hn & ->).
  destruct He as (_ & Ht & Hp). rewrite Nat2Z.id in Ht. unfold entries_all in Hall.
  rewrite forallb_forall in Hall. specialize (Hall n ltac:(apply in_seq; lia)). rewrite Ht in Hall. cbn in Hall.
  by rewrite Hp in Hall.
Qed.

Lemma sched_pick_round_robin_witness :
  exists k', sched_pick kern_demo = Ok (Some k') /\ _curr k' = 3.
Proof.
  destruct (sched_pick_round_robin kern_demo 200 kern_demo_ok) as
    [[H _] | (k' & i & p & t & Hs & _ & _ & _ & _ & Hc & _)].
  - reflexivity.
  - intros i p t He Hr.
    pose proof (entries_all_spec kern_demo (fun i t => negb (bool_decide (stat t = TASK_RUN)) || (i =? 1))
      kern_demo_ok eq_refl i p t He) as Hb. cbn in Hb. rewrite bool_decide_eq_true_2 in Hb by done. cbn in Hb. apply Z.eqb_eq in Hb. done.
  - exfalso. vm_compute in H. discriminate H.
  - exists k'. split; [exact Hs|]. vm_compute in Hs. injection Hs as <-. reflexivity.
Defined.

(** A timer list without armed timers. *)
Lemma idle_timers_ok s :
  k_list s !! timers = Some (LNode timers timers) ->
  map_Forall (fun a t => t_dead t = true /\ is_Some (k_list s !! a)) (k_recs s) -> timers_ok s [].
Proof.
  intros Hl Hall. split.
  - split; [apply NoDup_singleton|]. cbn. unfold nx, pv. by rewrite Hl.
  - intros a t Ha. destruct (Hall a t Ha) as [-> _]. split; [done|set_solver].
  - intros a Ha. set_solver.
  - intros a [t Ha]. by destruct (Hall a t Ha).
Qed.

(** ** Waking a task and accounting its time *)

(** [task_unblock] makes the task ready with the given result and disarms its block timer, so
    the time left that [task_sleep] reports afterwards is zero however early the wake-up came. *)
Theorem task_unblock_effect k c tc p t xs reason :
  task_current k = Some c -> tasks k !! c = Some tc -> tasks k !! p = Some t ->
  timers_ok (ktms k) xs -> is_Some (k_recs (ktms k) !! btmr p) ->
  exists k' t', task_unblock k (Some p) reason = Ok k' /\
    tasks k' !! p = Some t' /\ stat t' = TASK_PRE /\ bretval t' = reason /\ table k' = table k /\
    ktimer_remain (ktms k') (btmr p) = Ok 0 /\
    (forall q, q <> p -> q <> c -> tasks k' !! q = tasks k !! q).
Proof.
  intros Hc Htc Ht Hok [tm Htm]. unfold task_unblock, task_stime_discard, current.
  cbn [ASSERTK bool_decide decide_rel res_bind deref]. rewrite bool_decide_eq_true_2 by eauto.
  cbn [ASSERTK res_bind]. rewrite (set_task_Ok _ _ _ _ Ht). cbn [res_bind].
  set (k1 := k <| tasks := _ |>). change (task_current k1) with (task_current k). rewrite Hc.
  cbn [deref res_bind].
  assert (exists tc1, tasks k1 !! c = Some tc1 /\ (c = p -> tc1 = t <| bretval := reason |> <| stat := TASK_PRE |>))
    as (tc1 & Htc1 & Ecp).
  { cbn. destruct (decide (p = c)) as [<-|]; [rewrite lookup_insert_eq; eauto|].
    rewrite lookup_insert_ne by done. exists tc. split; [done|congruence]. }
  rewrite (set_task_Ok _ _ _ _ Htc1). cbn [res_bind].
  assert (exists s, ktimer_kill (ktms k) (btmr p) = Ok s /\ ktimer_remain s (btmr p) = Ok 0) as (s & Hkill & Hrem).
  { destruct (decide (btmr p ∈ xs)) as [Hin|Hin].
    - apply list_elem_of_split in Hin as (l1 & l2 & ->).
      destruct (kill_armed _ _ _ _ Hok) as (s & Hs & _ & _ & _ & Hr). exists s. split; [done|].
      unfold ktimer_remain. rewrite Hr, decide_True, Htm by done. done.
    - exists (ktms k). split; [eapply kill_unarmed; eauto|]. unfold ktimer_remain. rewrite Htm. cbn.
      destruct (t_dead tm) eqn:E; [done|]. by apply (to_live _ _ Hok _ _ Htm) in E. }
  cbn. rewrite Hkill. destruct (decide (c = p)) as [->|Hne].
  - rewrite (Ecp eq_refl). eexists. eexists. split; [reflexivity|]. cbn. rewrite lookup_insert_eq.
    split_and!; try reflexivity; [exact Hrem|]. intros q ? _. by rewrite !lookup_insert_ne.
  - eexists. eexists. split; [reflexivity|]. cbn.
    rewrite lookup_insert_ne, lookup_insert_eq by done.
    split_and!; try reflexivity; [exact Hrem|]. intros q ? ?. by rewrite !lookup_insert_ne.
Qed.

Lemma task_unblock_effect_witness :
  exists k' t', task_unblock kern_demo (Some 300) (- EINTR) = Ok k' /\ tasks k' !! 300 = Some t' /\
    stat t' = TASK_PRE /\ bretval t' = - EINTR.
Proof.
  destruct (task_unblock_effect kern_demo 200 (demo_task 1 0 TASK_RUN) 300 (demo_task 2 1 TASK_BLK) [] (- EINTR))
    as (k' & t' & H1 & H2 & H3 & H4 & _); try reflexivity.
  - apply idle_timers_ok; [reflexivity|]. apply (bool_decide_unpack _). by vm_compute.
  - vm_compute. eauto.
  - exists k', t'. done.
Defined.

Lemma u32_eq_u64 s b a :
  0 <= b < 2 ^ 64 -> u64 (s + u64 (u32 b - a)) = u64 (s + (b - a)) <-> b < 2 ^ 32.
Proof.
  intros Hb. rewrite wrap_add_r. pose proof (wrap_range 32 b ltac:(lia)) as Hr. split.
  - intros E. destruct (Z.lt_ge_cases b (2 ^ 32)) as [|Hge]; [done|]. exfalso.
    unfold wrap in E, Hr. assert (b mod 2 ^ 32 < b) by lia.
    assert ((b - b mod 2 ^ 32) mod 2 ^ 64 = 0) as Hz.
    { replace (b - b mod 2 ^ 32) with ((s + (b - a)) - (s + (b mod 2 ^ 32 - a))) by lia.
      rewrite Zminus_mod, E, Z.sub_diag. done. }
    rewrite Z.mod_small in Hz by lia. lia.
  - intros Hlt. by rewrite (wrap_small 32 b) by lia.
Qed.

(** the system time charged between a wake-up at microsecond [a] and the return to user mode
    at microsecond [b] is the elapsed time exactly when [b] is below 2^32 (71.6 minutes of
    uptime): one reading of the clock is truncated to 32 bits and the other is not. *)
Theorem stime_discard_exit k c t a b :
  task_current k = Some c -> tasks k !! c = Some t -> us_ran k = a -> 0 <= a <= b -> b < 2 ^ 64 ->
  exists k1 k2 t2, task_stime_discard k = Ok k1 /\
    task_stime_exit (k1 <| us_ran := b |>) = Ok k2 /\ tasks k2 !! c = Some t2 /\
    (stime t2 = u64 (stime t + (b - a)) <-> b < 2 ^ 32).
Proof.
  intros Hc Ht Ea Hab Hb. unfold task_stime_discard, task_stime_exit, current.
  rewrite Hc. cbn [deref res_bind]. rewrite (set_task_Ok _ _ _ _ Ht). eexists. eexists. eexists.
  split; [reflexivity|]. set (k1 := k <| tasks := _ |> <| us_ran := b |>).
  change (task_current k1) with (task_current k). rewrite Hc. cbn [deref res_bind].
  assert (tasks k1 !! c = Some (t <| _sstart := u64 a |>)) as Ht1.
  { cbn. rewrite lookup_insert_eq. by subst a. }
  rewrite (set_task_Ok _ _ _ _ Ht1). split; [reflexivity|]. cbn. rewrite lookup_insert_eq.
  split; [reflexivity|]. cbn. unfold useconds. cbn. rewrite (wrap_small 64 a) by lia.
  apply u32_eq_u64. lia.
Qed.

Lemma stime_discard_exit_witness :
  exists k1 k2 t2, task_stime_discard kern_demo = Ok k1 /\
    task_stime_exit (k1 <| us_ran := 2 ^ 32 + 6000 |>) = Ok k2 /\ tasks k2 !! 200 = Some t2 /\
    stime t2 <> u64 (0 + (2 ^ 32 + 6000 - 5000)).
Proof.
  destruct (stime_discard_exit kern_demo 200 (demo_task 1 0 TASK_RUN) 5000 (2 ^ 32 + 6000))
    as (k1 & k2 & t2 & H1 & H2 & H3 & H4); try reflexivity; try lia.
  exists k1, k2, t2. split_and!; [done|done|done|]. cbn in H4. intros E. apply H4 in E. lia.
Defined.

(** ** The state every routine may rely on *)

(** The table is well formed, its current entry is occupied, the armed timers are the timer
    list, and every task has its block timer. *)
Record kern_inv (k : kern) : Prop := {
  ki_ok : kern_ok k;
  ki_cur : is_Some (task_current k);
  ki_tms : exists xs, timers_ok (ktms k) xs;
  ki_btmr : forall p, is_Some (tasks k !! p) -> is_Some (k_recs (ktms k) !! btmr p) }.

Lemma kern_inv_current k : kern_inv k -> exists c t, task_current k = Some c /\ entry k (_curr k) c t.
Proof.
  intros [Hok [c Hc] _ _]. destruct (entry_of k (_curr k) c Hok) as (t & He & _); [apply Hok|done|].
  by exists c, t.
Qed.

(** A task whose fields are updated, its pid apart. *)
Lemma set_task_total k p f :
  kern_inv k -> is_Some (tasks k !! p) -> (forall t, pid (f t) = pid t) ->
  total (set_task k p f) (fun k' => kern_inv k' /\ table k' = table k /\ _curr k' = _curr k /\
    (forall t, tasks k !! p = Some t -> tasks k' !! p = Some (f t)) /\
    (forall q, q <> p -> tasks k' !! q = tasks k !! q)).
Proof.
  intros [Hok Hc Ht Hb] [t Hp] Hpid. rewrite (set_task_Ok _ _ _ _ Hp). eexists. split; [reflexivity|].
  split_and!; [split; cbn; [by eapply kern_ok_upd|done|done|]|done|done| |].
  - intros q Hq. apply Hb. destruct (decide (p = q)) as [<-|]; [eauto|by rewrite lookup_insert_ne in Hq].
  - intros t' Ht'. cbn. rewrite lookup_insert_eq. congruence.
  - intros q Hq. cbn. by rewrite lookup_insert_ne.
Qed.

Lemma ktimer_kill_total s xs x :
  timers_ok s xs -> is_Some (k_recs s !! x) ->
  total (ktimer_kill s x) (fun s' => (exists ys, timers_ok s' ys) /\
    forall a, is_Some (k_recs s !! a) -> is_Some (k_recs s' !! a)).
Proof.
  intros Hok Hx. destruct (decide (x ∈ xs)) as [Hin|Hin].
  - apply list_elem_of_split in Hin as (l1 & l2 & ->).
    destruct (kill_armed _ _ _ _ Hok) as (s' & -> & Hok' & _ & _ & Hr). exists s'. split; [done|].
    split; [eauto|]. intros a Ha. rewrite Hr. destruct (decide (a = x)) as [->|]; [|done].
    by apply fmap_is_Some.
  - rewrite (kill_unarmed _ _ _ Hok Hin Hx). exists s. eauto.
Qed.

Lemma kern_inv_ktms k s :
  kern_inv k -> (exists xs, timers_ok s xs) ->
  (forall a, is_Some (k_recs (ktms k) !! a) -> is_Some (k_recs s !! a)) ->
  kern_inv (k <| ktms := s |>).
Proof.
  intros [[Hl Hcu Hp] Hc Ht Hb] Hs Hr. split; cbn; [split; done|done|done|]. intros p Hps.
  by apply Hr, Hb.
Qed.

(** Unblocking never faults and keeps the state well formed. *)
Lemma task_unblock_total k p reason :
  kern_inv k -> is_Some (tasks k !! p) ->
  total (task_unblock k (Some p) reason) (fun k' => kern_inv k' /\ table k' = table k /\
    _curr k' = _curr k /\
    (exists t', tasks k' !! p = Some t' /\ stat t' = TASK_PRE /\ bretval t' = reason) /\
    (forall q t, q <> p -> tasks k !! q = Some t ->
       exists t', tasks k' !! q = Some t' /\ stat t' = stat t /\ stat_before_stop t' = stat_before_stop t /\ pgid t' = pgid t)).
Proof.
  intros Hinv Hp. unfold task_unblock, ASSERTK. rewrite bool_decide_eq_true_2 by eauto. cbn [res_bind deref].
  eapply total_bind; [apply set_task_total; [done|done|by intros]|].
  intros k1 (Hinv1 & Etab1 & Ec1 & Hp1 & Hq1). unfold task_stime_discard, current.
  destruct (kern_inv_current _ Hinv1) as (c & tc & Hcur & (_ & _ & Htc)). rewrite Hcur. cbn [deref res_bind].
  eapply total_bind; [apply set_task_total; [done|eauto|by intros]|].
  intros k2 (Hinv2 & Etab2 & Ec2 & Hp2 & Hq2). destruct (ki_tms _ Hinv2) as (xs & Hxs).
  assert (exists tp, tasks k2 !! p = Some tp /\ stat tp = TASK_PRE /\ bretval tp = reason) as (tp & Htp & Hst).
  { destruct Hp as [t Ht]. specialize (Hp1 t Ht). destruct (decide (c = p)) as [->|].
    - eexists. split; [exact (Hp2 _ Hp1)|done].
    - eexists. split; [rewrite Hq2 by done; exact Hp1|done]. }
  eapply total_bind; [eapply ktimer_kill_total; [exact Hxs|apply Hinv2; eauto]|].
  intros s (Hs & Hr). apply total_Ok. split_and!; [by apply kern_inv_ktms| | | |].
  - cbn. congruence.
  - cbn. congruence.
  - exists tp. done.
  - intros q t Hq Ht. cbn. rewrite <- Hq1 in Ht by done. destruct (decide (c = q)) as [->|].
    + eexists. split; [exact (Hp2 _ Ht)|done].
    + exists t. by rewrite Hq2.
Qed.

Lemma sched_pick_total k :
  kern_inv k -> total (sched_pick k) (fun r => forall k', r = Some k' -> kern_inv k').
Proof.
  intros Hinv. pose proof (ki_ok _ Hinv) as Hok.
  destruct (kern_inv_current _ Hinv) as (c & tc & Hc & (_ & _ & Htc)). unfold sched_pick. rewrite Hc.
  destruct (getnext_spec k Hok) as [[-> _] | (i & p & t & -> & He & _)]; cbn [res_bind].
  { by apply total_Ok. }
  pose proof (entry_range _ _ _ _ Hok He) as Hi. pose proof He as (Hi0 & Htab & Ht).
  assert (kern_inv (k <| _curr := i |>)) as Hinv1.
  { destruct Hinv as [_ _ Htm Hb]. split; [by apply kern_ok_curr| |done|done].
    unfold task_current. cbn. rewrite Htab. by exists p. }
  set (k1 := k <| _curr := i |>) in *.
  assert (tasks k1 = tasks k) as Etk by done. clearbody k1.
  eapply total_bind; [apply total_deref; rewrite Etk; eauto|]. intros t0 _.
  assert (forall k2, kern_inv k2 -> is_Some (tasks k2 !! p) ->
    total (let! k3 := set_task k2 p (fun t => t <| stat := TASK_RUN |>) in Ok (Some k3))
      (fun r => forall k', r = Some k' -> kern_inv k')) as Hlast.
  { intros k2 Hk2 Hp2. eapply total_bind; [by apply set_task_total|]. intros k3 (Hk3 & _).
    apply total_Ok. by intros ? [= <-]. }
  destruct (decide (stat t0 = TASK_RUN)).
  - eapply total_bind; [apply set_task_total; [done|rewrite Etk; eauto|done]|].
    intros k2 (Hk2 & _ & _ & Hc2 & Hq2). apply Hlast; [done|]. rewrite Etk in *.
    destruct (decide (p = c)) as [->|]; [rewrite (Hc2 tc) by done; eauto|rewrite Hq2 by done; eauto].
  - cbn [res_bind]. apply Hlast; [done|]. rewrite Etk. eauto.
Qed.

(** A checker for concrete states in which no timer is armed. *)
Definition kern_idleb (k : kern) : bool :=
  kern_okb k && bool_decide (is_Some (task_current k)) &&
  bool_decide (k_list (ktms k) !! timers = Some (LNode timers timers)) &&
  bool_decide (map_Forall (fun a t => t_dead t = true /\ is_Some (k_list (ktms k) !! a)) (k_recs (ktms k))) &&
  bool_decide (map_Forall (fun p _ => is_Some (k_recs (ktms k) !! btmr p)) (tasks k)).

Lemma kern_idleb_inv k : kern_idleb k = true -> kern_inv k.
Proof.
  unfold kern_idleb. intros H. bool_facts.
  repeat match goal with Hb : bool_decide _ = true |- _ => apply bool_decide_eq_true_1 in Hb end.
  split; [by apply kern_okb_ok|done|exists []; by apply idle_timers_ok|].
  intros p [t Ht]. by eapply (H0 p t).
Qed.
