(* ===== verification/Signal.v ===== *)
(** * Signals: sets and sending ([kernel/signal.c], [textos/signal.h]) *)
From Stdlib Require Import ZArith Lia List Bool.
From stdpp Require Import base list gmap.
From S2P Require Import Prelude Dlist Ktimer Task.

#[local] Open Scope Z_scope.

Definition SIGHUP : Z := 1.
Definition SIGKILL : Z := 9.
Definition SIGALRM : Z := 14.
Definition SIGCHLD : Z := 17.
Definition SIGCONT : Z := 18.
Definition SIGSTOP : Z := 19.
Definition SIGTSTP : Z := 20.
Definition SIGTTIN : Z := 21.
Definition SIGTTOU : Z := 22.

(** ** Wait statuses *)

Definition make_stat_exit (code : Z) : Z := Z.shiftl (Z.land code 0xff) 8.

Definition make_stat_signal (sig : Z) (core : bool) : Z :=
  Z.lor (Z.land sig 0x7f) (if core then 0x80 else 0).

Definition make_stat_stopped (sig : Z) : Z := Z.lor (Z.shiftl (Z.land sig 0xff) 8) 0x7f.

Definition make_stat_continued : Z := 0xffff.

Definition WTERMSIG (s : Z) : Z := Z.land s 0x7f.

Definition WEXITSTATUS (s : Z) : Z := Z.shiftr (Z.land s 0xff00) 8.

Definition WSTOPSIG (s : Z) : Z := WEXITSTATUS s.

Definition WIFEXITED (s : Z) : bool := WTERMSIG s =? 0.

(** [(short)(((s & 0xffff) * 0x10001U) >> 8) > 0x7f00] *)
Definition WIFSTOPPED (s : Z) : bool :=
  0x7f00 <? signed 16 (Z.shiftr (u32 (Z.land s 0xffff * 0x10001)) 8).

Definition WIFSIGNALED (s : Z) : bool := u32 (Z.land s 0xffff - 1) <? 0xff.

Definition WIFCONTINUED (s : Z) : bool := s =? 0xffff.

(** ** Signal sets: the result and the set afterwards; [None] is the NULL pointer *)

Definition sigemptyset (set : option Z) : Z * option Z :=
  match set with None => (-1, None) | Some _ => (0, Some 0) end.

Definition sigfillset (set : option Z) : Z * option Z :=
  match set with None => (-1, None) | Some _ => (0, Some (2 ^ 64 - 1)) end.

Definition sig_bit (signum : Z) : Z := Z.shiftl 1 (signum - 1).

Definition bad_signum (signum : Z) : bool := (signum <=? 0) || (_NSIG <? signum).

Definition sigaddset (set : Z) (signum : Z) : Z :=
  if bad_signum signum then set else Z.lor set (sig_bit signum).

Definition sigdelset (set : Z) (signum : Z) : Z :=
  if bad_signum signum then set else Z.land set (Z.lnot (sig_bit signum)).

Definition sigismember (set : Z) (signum : Z) : Z :=
  if bad_signum signum then -1
  else if negb (Z.land set (sig_bit signum) =? 0) then 1 else 0.

(** ** Sending *)

Definition is_stop_signal (sig : Z) : bool :=
  (sig =? SIGSTOP) || (sig =? SIGTSTP) || (sig =? SIGTTIN) || (sig =? SIGTTOU).

(** The permission test: [safe] senders and matching user ids pass. *)
Definition kill_denied (k : kern) (tsk : option Z) (ptsk : task) (safe : bool) : res bool :=
  if safe then Ok false
  else
    let! p := deref tsk in
    let! t := get_task k p in
    Ok (negb (euid t =? 0) && negb (euid t =? ruid ptsk) && negb (euid t =? suid ptsk) &&
        negb (ruid t =? ruid ptsk) && negb (ruid t =? suid ptsk)).

Definition stoppable (st : task_state) : bool :=
  bool_decide (st = TASK_PRE) || bool_decide (st = TASK_RUN) ||
  bool_decide (st = TASK_SLP) || bool_decide (st = TASK_BLK).

Definition blocked (st : task_state) : bool :=
  bool_decide (st = TASK_SLP) || bool_decide (st = TASK_BLK).

(** The loop over the table for a process group; [kill1] is the recursive call. *)
Fixpoint kill_group (kill1 : kern -> Z -> res (Z * kern)) (pgrp : Z) (idx : list nat) (k : kern)
    (found killed : bool) : res (bool * bool * kern) :=
  match idx with
  | [] => Ok (found, killed, k)
  | i :: idx =>
      match mjoin (table k !! i) with
      | None => kill_group kill1 pgrp idx k found killed
      | Some p =>
          let! t := get_task k p in
          if negb (pgid t =? pgrp) then kill_group kill1 pgrp idx k found killed
          else
            let! rk := kill1 k (pid t) in
            let '(r, k) := rk in
            kill_group kill1 pgrp idx k true (if r <? 0 then killed else true)
      end
  end.

(** What a signal does to the task at [p], once it may be sent; [notify] is
    [notify_parent]. *)
Definition deliver `{!Env} (notify : kern -> Z -> res kern) (k : kern) (p sig : Z) : res (Z * kern) :=
  let tsk := task_current k in
  let! k := set_task k p (fun t => t <| sigpend ::= fun s => sigaddset s sig |>) in
  let! t := get_task k p in
  if is_stop_signal sig then
    if stoppable (stat t) then
      let! k := set_task k p (fun t => t <| stat_before_stop := stat t |> <| stat := TASK_STP |>
                                         <| retval := make_stat_stopped sig |>) in
      let! t := get_task k p in
      let! k := notify k (ppid t) in
      let! k := (if decide (Some p = tsk) then task_yield k else Ok k) in
      Ok (0, k)
    else Ok (0, k)
  else if sig =? SIGKILL then
    let status := make_stat_signal SIGKILL false in
    let! k := (if blocked (stat t) then task_unblock k (Some p) status else Ok k) in
    let! t := get_task k p in
    let! k := (if decide (stat t = TASK_STP) then set_task k p (fun t => t <| stat := TASK_PRE |>)
               else Ok k) in
    Ok (0, k)
  else if sig =? SIGCONT then
    if decide (stat t = TASK_STP) then
      let! k := set_task k p (fun t => t <| stat := stat_before_stop t |>
                                         <| retval := make_stat_continued |>) in
      let! t := get_task k p in
      let! k := notify k (ppid t) in
      Ok (0, k)
    else Ok (0, k)
  else if blocked (stat t) then
    let! k := task_unblock k (Some p) (- EINTR) in
    Ok (0, k)
  else Ok (0, k).

Fixpoint kill_safe `{!Env} (fuel : nat) (k : kern) (pid sig : Z) (safe : bool) : res (Z * kern) :=
  match fuel with
  | O => Fault OutOfFuel
  | S fuel =>
      if (sig <? 0) || (_NSIG <=? sig) then Ok (- EINVAL, k)
      else if pid <=? 0 then
        let! pid := (if pid =? 0 then
                       let! c := current k in let! t := get_task k c in Ok (- pgid t)
                     else Ok pid) in
        let! r := kill_group (fun k pid => kill_safe fuel k pid sig safe) (- pid) (seq 1 15) k false false in
        let '(found, killed, k) := r in
        if negb found then Ok (- ESRCH, k)
        else if negb killed then Ok (- EPERM, k)
        else Ok (0, k)
      else
        match task_get k pid with
        | None => Ok (- ESRCH, k)
        | Some p =>
            let! t := get_task k p in
            let! denied := kill_denied k (task_current k) t safe in
            if denied then Ok (- EPERM, k)
            else if sig =? 0 then Ok (0, k)
            else deliver (fun k ppid => let! rk := kill_safe fuel k ppid SIGCHLD true in Ok (snd rk)) k p sig
        end
  end.

(** The deepest chain of calls is a group, a stopped member, its parent's group
    (when the parent is process 0) and a member of that. *)
Definition KILL_FUEL : nat := 4.

Definition fkill `{!Env} (k : kern) (pid sig : Z) : res (Z * kern) := kill_safe KILL_FUEL k pid sig true.

(** The [kill] system call. *)
Definition sys_kill `{!Env} (k : kern) (pid sig : Z) : res (Z * kern) := kill_safe KILL_FUEL k pid sig false.

Definition notify_parent `{!Env} (k : kern) (p : Z) : res kern :=
  let! t := get_task k p in
  let! rk := kill_safe KILL_FUEL k (ppid t) SIGCHLD true in
  Ok (snd rk).

(** The timer callback of [kernel/user/alarm.c]. *)
Definition kill_timeout `{!Env} (k : kern) (tsk : Z) : res kern :=
  let! t := get_task k tsk in
  let! rk := fkill k (pid t) SIGALRM in
  Ok (snd rk).

(** The [alarm] system call: it reads the [alarm] timer and arms the [btmr] one. *)
Definition sys_alarm (k : kern) (seconds : Z) : res (Z * kern) :=
  let! c := current k in
  let! ms := ktimer_remain_ms (ktms k) (alarm_tmr c) in
  let rem := ms / 1000 in
  do! ASSERTK (rem <=? 2 ^ 32 - 1) in
  let! s := (if seconds =? 0 then ktimer_kill (ktms k) (alarm_tmr c)
             else ktimer (ktms k) (btmr c) KILL_TIMEOUT c (u64 (seconds * 1000))) in
  Ok (u32 rem, k <| ktms := s |>).

(** ** Signal sets *)

Lemma sig_bit_testbit s i : 0 < s -> 0 <= i -> Z.testbit (sig_bit s) i = (i =? s - 1).
Proof.
  intros Hs Hi. unfold sig_bit. rewrite Z.shiftl_1_l, Z.pow2_bits_eqb by lia. apply Z.eqb_sym.
Qed.

Lemma good_signum s : 1 <= s <= _NSIG -> bad_signum s = false.
Proof. unfold bad_signum. intros. lia. Qed.

Lemma sigismember_testbit set s :
  1 <= s <= _NSIG -> sigismember set s = Z.b2z (Z.testbit set (s - 1)).
Proof.
  intros Hs. unfold sigismember. rewrite good_signum by done. unfold sig_bit. rewrite Z.shiftl_1_l.
  replace (Z.land set (2 ^ (s - 1)) =? 0) with (negb (Z.testbit set (s - 1))).
  { by destruct (Z.testbit set (s - 1)). }
  symmetry. destruct (Z.testbit set (s - 1)) eqn:E; cbn.
  - apply Z.eqb_neq. intros Hz. apply (f_equal (fun x => Z.testbit x (s - 1))) in Hz.
    rewrite Z.land_spec, E, Z.pow2_bits_true, Z.bits_0 in Hz by lia. done.
  - apply Z.eqb_eq, Z.bits_inj'. intros i Hi. rewrite Z.land_spec, Z.pow2_bits_eqb, Z.bits_0 by lia.
    destruct (Z.eqb_spec (s - 1) i) as [<-|]; [by rewrite E|by rewrite andb_false_r].
Qed.

(** adding and removing a signal number in range changes the membership of that signal
    only; the empty and the full set have none and all; a number out of range changes nothing. *)
Theorem sigset_membership set s s' :
  1 <= s <= _NSIG -> 1 <= s' <= _NSIG ->
  sigismember (sigaddset set s) s' = (if s' =? s then 1 else sigismember set s') /\
  sigismember (sigdelset set s) s' = (if s' =? s then 0 else sigismember set s') /\
  sigismember 0 s' = 0 /\ sigismember (2 ^ 64 - 1) s' = 1 /\
  sigaddset set 0 = set /\ sigdelset set (_NSIG + 1) = set.
Proof.
  intros Hs Hs'. unfold sigaddset, sigdelset. rewrite (good_signum s) by done.
  rewrite !sigismember_testbit by done. unfold _NSIG in *.
  rewrite Z.lor_spec, Z.land_spec, Z.lnot_spec, !sig_bit_testbit by lia.
  replace (s' - 1 =? s - 1) with (s' =? s) by lia. split_and!.
  - destruct (s' =? s); by rewrite ?orb_true_r, ?orb_false_r.
  - destruct (s' =? s); cbn; by rewrite ?andb_false_r, ?andb_true_r.
  - by rewrite Z.bits_0.
  - change (2 ^ 64 - 1) with (Z.ones 64). by rewrite Z.ones_spec_low by lia.
  - done.
  - done.
Qed.

Lemma sigset_membership_witness :
  sigismember (sigaddset 0 SIGKILL) SIGKILL = 1 /\ sigismember (sigaddset 0 SIGKILL) SIGSTOP = 0.
Proof.
  split.
  - apply (sigset_membership 0 SIGKILL SIGKILL); unfold SIGKILL, _NSIG; lia.
  - rewrite (proj1 (sigset_membership 0 SIGKILL SIGSTOP ltac:(unfold SIGKILL, _NSIG; lia)
      ltac:(unfold SIGSTOP, _NSIG; lia))). reflexivity.
Defined.

(** ** Wait statuses *)

(** Checking a property of every byte. *)
Lemma byte_forall (f : Z -> bool) :
  forallb f (map Z.of_nat (seq 0 256)) = true -> forall x, 0 <= x < 256 -> f x = true.
Proof.
  intros Hf x Hx. rewrite forallb_forall in Hf. apply Hf.
  apply in_map_iff. exists (Z.to_nat x). split; [lia|]. apply in_seq. lia.
Qed.

(** The class of a status, read with the macros of [textos/task.h]. *)
Inductive wclass := Exited (code : Z) | Signaled (sig : Z) | Stopped (sig : Z) | Continued | Unclassified.

#[export] Instance wclass_eq_dec : EqDecision wclass.
Proof. solve_decision. Defined.

Definition classify (s : Z) : list wclass :=
  (if WIFEXITED s then [Exited (WEXITSTATUS s)] else []) ++
  (if WIFSIGNALED s then [Signaled (WTERMSIG s)] else []) ++
  (if WIFSTOPPED s then [Stopped (WSTOPSIG s)] else []) ++
  (if WIFCONTINUED s then [Continued] else []).

(** the four kinds of wait status are told apart by exactly one of the [WIF...] macros each,
    and the exit code (its low byte), the terminating and the stopping signal are recovered. *)
Theorem wait_status_roundtrip code sig :
  1 <= sig < _NSIG ->
  classify (make_stat_exit code) = [Exited (code mod 256)] /\
  classify (make_stat_signal sig false) = [Signaled sig] /\
  classify (make_stat_stopped sig) = [Stopped sig] /\
  classify make_stat_continued = [Continued].
Proof.
  intros Hs. unfold _NSIG in Hs. split_and!; [| | |reflexivity].
  - unfold make_stat_exit. change 256 with (2 ^ 8). change 0xff with (Z.ones 8). rewrite Z.land_ones by lia.
    pose proof (Z.mod_pos_bound code (2 ^ 8) ltac:(lia)) as Hb. revert Hb. generalize (code mod 2 ^ 8).
    intros x Hx.
    assert (bool_decide (classify (Z.shiftl x 8) = [Exited x]) = true) as Hb.
    { refine (byte_forall (fun x => bool_decide (classify (Z.shiftl x 8) = [Exited x])) _ x _);
        [by vm_compute|lia]. }
    by apply bool_decide_eq_true_1 in Hb.
  - assert (negb ((1 <=? sig) && (sig <? 64)) ||
      bool_decide (classify (make_stat_signal sig false) = [Signaled sig]) = true) as Hb.
    { refine (byte_forall (fun sig => negb ((1 <=? sig) && (sig <? 64)) ||
        bool_decide (classify (make_stat_signal sig false) = [Signaled sig])) _ sig _); [by vm_compute|lia]. }
    replace ((1 <=? sig) && (sig <? 64)) with true in Hb by lia. by apply bool_decide_eq_true_1 in Hb.
  - assert (negb ((1 <=? sig) && (sig <? 64)) ||
      bool_decide (classify (make_stat_stopped sig) = [Stopped sig]) = true) as Hb.
    { refine (byte_forall (fun sig => negb ((1 <=? sig) && (sig <? 64)) ||
        bool_decide (classify (make_stat_stopped sig) = [Stopped sig])) _ sig _); [by vm_compute|lia]. }
    replace ((1 <=? sig) && (sig <? 64)) with true in Hb by lia. by apply bool_decide_eq_true_1 in Hb.
Qed.

Lemma wait_status_roundtrip_witness :
  classify (make_stat_exit 300) = [Exited 44] /\ classify (make_stat_stopped SIGSTOP) = [Stopped SIGSTOP].
Proof.
  split; apply (wait_status_roundtrip 300 SIGSTOP); unfold SIGSTOP, _NSIG; lia.
Defined.

(** ** Sending never faults *)

Section kill_total.
Context `{!Env}.

(** A signal to a task that is not switched out by it. *)
Lemma deliver_total notify k p sig :
  kern_inv k -> is_Some (tasks k !! p) -> (is_stop_signal sig = true -> Some p <> task_current k) ->
  (is_stop_signal sig || (sig =? SIGCONT) = true ->
   forall k q, kern_inv k -> total (notify k q) kern_inv) ->
  total (deliver notify k p sig) (fun rk => kern_inv (snd rk)).
Proof.
  intros Hinv Hp Hcur Hn. unfold deliver.
  eapply total_bind; [by apply set_task_total|]. intros k1 (Hk1 & _ & _ & Hp1 & _).
  destruct Hp as [t0 Ht0]. specialize (Hp1 t0 Ht0).
  eapply total_bind; [apply total_deref; eauto|]. intros t Ht.
  destruct (is_stop_signal sig) eqn:Es; [|destruct (sig =? SIGKILL); [|destruct (sig =? SIGCONT) eqn:Ec]].
  - destruct (stoppable (stat t)); [|by apply total_Ok].
    eapply total_bind; [apply set_task_total; [done|eauto|done]|]. intros k2 (Hk2 & _ & _ & Hp2 & _).
    eapply total_bind; [apply total_deref; eauto|]. intros t2 _.
    eapply total_bind; [by apply Hn|]. intros k3 Hk3. rewrite decide_False by by apply Hcur. by apply total_Ok.
  - eapply total_bind with (Q := fun k2 => kern_inv k2 /\ is_Some (tasks k2 !! p)).
    { destruct (blocked (stat t)); [|apply total_Ok; eauto].
      eapply total_mono; [apply task_unblock_total; eauto|]. intros k2 (Hk2 & _ & _ & (t' & Ht' & _) & _). eauto. }
    intros k2 [Hk2 Hp2]. eapply total_bind; [by apply total_deref|]. intros t2 Ht2.
    eapply total_bind with (Q := kern_inv); [|by intros k4 Hk4; apply total_Ok].
    destruct (decide (stat t2 = TASK_STP)); [|by apply total_Ok].
    eapply total_mono; [by apply set_task_total|]. by intros k3 [? _].
  - destruct (decide (stat t = TASK_STP)); [|by apply total_Ok].
    eapply total_bind; [apply set_task_total; [done|eauto|done]|]. intros k2 (Hk2 & _ & _ & Hp2 & _).
    eapply total_bind; [apply total_deref; eauto|]. intros t2 _.
    eapply total_bind; [by apply Hn|]. intros k3 Hk3. by apply total_Ok.
  - destruct (blocked (stat t)); [|by apply total_Ok].
    eapply total_bind; [apply task_unblock_total; eauto|]. intros k2 (Hk2 & _). by apply total_Ok.
Qed.

(** The calls of [kill_safe], for any invariant of theirs that implies [kern_inv]
    and that delivering the signal to the tasks [G] keeps. *)
Section calls.
Variable I : kern -> Prop.
Hypothesis I_inv : forall k, I k -> kern_inv k.

Definition delivers (G : kern -> Z -> Prop) (sig : Z) : Prop := forall notify k p,
  I k -> is_Some (tasks k !! p) -> G k p ->
  (is_stop_signal sig || (sig =? SIGCONT) = true -> forall k q, I k -> total (notify k q) I) ->
  total (deliver notify k p sig) (fun rk => I (snd rk)).

Definition in_group (g : Z) (k : kern) (p : Z) : Prop := exists t, tasks k !! p = Some t /\ pgid t = g.

(** Entries above process 0 have positive pids. *)
Lemma kill_group_total kill1 pgrp idx :
  (forall k pid, I k -> 0 < pid -> (forall p, task_get k pid = Some p -> in_group pgrp k p) ->
   total (kill1 k pid) (fun rk => I (snd rk))) ->
  Forall (fun i => 0 < i)%nat idx ->
  forall k f d, I k -> total (kill_group kill1 pgrp idx k f d) (fun r => I (snd r)).
Proof.
  intros Hk1 Hidx. induction Hidx as [|i idx Hi _ IH]; intros k f d Hk; cbn [kill_group].
  { by apply total_Ok. }
  destruct (mjoin (table k !! i)) as [p|] eqn:E; [|by apply IH].
  destruct (entry_of k (Z.of_nat i) p) as (t & (_ & _ & Ht) & Hpid);
    [by apply ki_ok, I_inv|lia|by rewrite Nat2Z.id|].
  eapply total_bind; [apply total_deref; eauto|]. intros t' Ht'. cbn in Ht'. simplify_eq.
  destruct (Z.eqb_spec (pgid t) pgrp) as [Eg|]; cbn [negb]; [|by apply IH].
  eapply total_bind; [apply Hk1; [done|lia|]|intros [r k'] Hk'; by apply IH].
  intros q. unfold task_get. destruct (_ || _); [done|]. rewrite Hpid, Nat2Z.id, E. intros [= <-]. by exists t.
Qed.

(** A signal to one process: only stopping and continuing it calls further. *)
Lemma kill_one_total G fuel k pid sig safe :
  delivers G sig -> I k -> 0 < pid -> (forall p, task_get k pid = Some p -> G k p) ->
  (is_stop_signal sig || (sig =? SIGCONT) = true ->
   forall k q, I k -> total (kill_safe fuel k q SIGCHLD true) (fun rk => I (snd rk))) ->
  total (kill_safe (S fuel) k pid sig safe) (fun rk => I (snd rk)).
Proof.
  intros Hd Hk Hp HG Hn. pose proof (I_inv _ Hk) as Hinv. cbn [kill_safe].
  replace (pid <=? 0) with false by lia.
  destruct ((sig <? 0) || (_NSIG <=? sig)); [by apply total_Ok|].
  destruct (task_get k pid) as [p|] eqn:Eg; [|by apply total_Ok]. specialize (HG p eq_refl).
  unfold task_get in Eg. destruct ((pid <? 0) || (TASK_MAX <=? pid)); [done|].
  destruct (entry_of k pid p) as (t & (_ & _ & Ht) & _); [by apply ki_ok|lia|done|].
  eapply total_bind; [apply total_deref; eauto|]. intros t' Ht'.
  eapply total_bind with (Q := fun _ => True).
  { unfold kill_denied. destruct safe; [by apply total_Ok|].
    destruct (kern_inv_current _ Hinv) as (c & tc & -> & (_ & _ & Htc)).
    cbn [deref res_bind].
    eapply total_bind; [apply total_deref; eauto|]. intros. by apply total_Ok. }
  intros [|] _; [by apply total_Ok|]. destruct (sig =? 0); [by apply total_Ok|].
  apply Hd; [done|eauto|done|]. intros Hs k' q Hk'.
  eapply total_bind; [by apply Hn|]. intros [r k2] Hk2. by apply total_Ok.
Qed.

(** From one level of calls to the next: a group of processes. *)
Lemma kill_any_total fuel sig safe k pid :
  (pid <= 0 -> forall k q, I k -> 0 < q -> (pid < 0 -> forall p, task_get k q = Some p -> in_group (- pid) k p) ->
   total (kill_safe fuel k q sig safe) (fun rk => I (snd rk))) ->
  (0 < pid -> total (kill_safe (S fuel) k pid sig safe) (fun rk => I (snd rk))) ->
  I k -> total (kill_safe (S fuel) k pid sig safe) (fun rk => I (snd rk)).
Proof.
  intros H1 H2 Hk. destruct (Z.leb_spec pid 0) as [Hle|]; [|by apply H2]. specialize (H1 Hle).
  cbn [kill_safe]. destruct ((sig <? 0) || (_NSIG <=? sig)); [by apply total_Ok|].
  replace (pid <=? 0) with true by lia.
  eapply total_bind with (Q := fun pid' => pid < 0 -> pid' = pid).
  { destruct (Z.eqb_spec pid 0); [|by apply total_Ok].
    destruct (kern_inv_current _ (I_inv _ Hk)) as (c & tc & Hc & (_ & _ & Htc)). unfold current. rewrite Hc.
    cbn [deref res_bind].
    eapply total_bind; [apply total_deref; eauto|]. intros. apply total_Ok. lia. }
  intros pid' Hpid'. eapply total_bind.
  { apply kill_group_total; [| |done].
    - intros k' q Hk' Hq Hg. apply H1; [done|done|]. intros Hlt. by rewrite <- (Hpid' Hlt).
    - apply Forall_forall. intros i Hi. apply elem_of_seq in Hi. lia. }
  intros [[f d] k'] Hk'. destruct (negb f); [by apply total_Ok|]. destruct (negb d); by apply total_Ok.
Qed.

Definition any_task (k : kern) (p : Z) : Prop := True.

(** Telling a parent about a child: two levels of calls. *)
Lemma kill_chld_total fuel k pid :
  delivers any_task SIGCHLD -> I k -> total (kill_safe (S (S fuel)) k pid SIGCHLD true) (fun rk => I (snd rk)).
Proof. intros Hd Hk. apply kill_any_total; [| |done]; intros; (eapply kill_one_total; [exact Hd|done|done|by unfold any_task|done]). Qed.

(** A signal that any task may get, to a process or a group. *)
Lemma kill_all_total k pid sig safe :
  delivers any_task sig -> delivers any_task SIGCHLD -> I k ->
  total (kill_safe KILL_FUEL k pid sig safe) (fun rk => I (snd rk)).
Proof.
  intros Hd Hc Hk. apply kill_any_total; [| |done]; intros; (eapply kill_one_total; [exact Hd|done|done|by unfold any_task|]); intros; by apply kill_chld_total.
Qed.
End calls.

(** ** Tasks a signal leaves alone *)

(** The table and the current task are those of [k0]; task [p] has the state, the state before
    a stop and the group [x]. *)
Definition fixed (k0 : kern) (p : Z) (x : task_state * task_state * Z) (k : kern) : Prop :=
  kern_inv k /\ table k = table k0 /\ _curr k = _curr k0 /\
  exists t, tasks k !! p = Some t /\ (stat t, stat_before_stop t, pgid t) = x.

Lemma fixed_current k0 p x k : fixed k0 p x k -> task_current k = task_current k0.
Proof. intros (_ & E1 & E2 & _). unfold task_current. by rewrite E1, E2. Qed.

Lemma fixed_set k0 p x k q f :
  fixed k0 p x k -> is_Some (tasks k !! q) -> (forall t, pid (f t) = pid t) ->
  (p = q -> forall t, (stat (f t), stat_before_stop (f t), pgid (f t)) = (stat t, stat_before_stop t, pgid t)) ->
  total (set_task k q f) (fun k' => fixed k0 p x k' /\ forall t, tasks k !! q = Some t -> tasks k' !! q = Some (f t)).
Proof.
  intros (Hk & E1 & E2 & t & Ht & Ex) Hq Hpid Hf. eapply total_mono; [by apply set_task_total|].
  intros k' (Hk' & E1' & E2' & Hq' & Hne). split; [|done]. split_and!; [done|congruence|congruence|].
  destruct (decide (p = q)) as [->|]; [exists (f t); split; [by apply Hq'|by rewrite Hf]|exists t; by rewrite Hne].
Qed.

(** Telling a parent about a child leaves a task that is not blocked as it is. *)
Lemma chld_fixed k0 p x : blocked (fst (fst x)) = false -> delivers (fixed k0 p x) any_task SIGCHLD.
Proof.
  intros Hb notify k q Hk Hq _ _. unfold deliver.
  eapply total_bind; [by apply (fixed_set k0 p x)|]. intros k1 (Hk1 & Hq1).
  destruct Hq as [tq Htq]. specialize (Hq1 tq Htq).
  eapply total_bind; [apply total_deref; eauto|]. intros t1 Ht1.
  change (is_stop_signal SIGCHLD) with false. change (SIGCHLD =? SIGKILL) with false.
  change (SIGCHLD =? SIGCONT) with false. cbn iota.
  destruct (blocked (stat t1)) eqn:Eb; [|by apply total_Ok]. destruct Hk1 as (Hi & E1 & E2 & tp & Htp & Ex).
  eapply total_bind; [apply task_unblock_total; eauto|]. intros k2 (Hk2 & E1' & E2' & _ & Hfr). apply total_Ok.
  split_and!; [done|cbn; congruence|cbn; congruence|].
  destruct (Hfr p tp) as (t2 & Ht2 & S1 & S2 & S3); [|done|exists t2; split; [done|by rewrite S1, S2, S3]].
  intros ->. rewrite Htp in Ht1. injection Ht1 as <-. rewrite <- Ex in Hb. cbn in Hb. congruence.
Qed.

(** A stop signal to another task than the current one leaves that one as it is. *)
Lemma stop_fixed k0 c x sig : is_stop_signal sig = true -> task_current k0 = Some c ->
  delivers (fixed k0 c x) (fun _ p => p <> c) sig.
Proof.
  intros Hs Hc notify k q Hk Hq Hne Hn. unfold deliver. rewrite (fixed_current _ _ _ _ Hk), Hc.
  eapply total_bind; [by apply (fixed_set k0 c x)|]. intros k1 (Hk1 & Hq1).
  destruct Hq as [tq Htq]. specialize (Hq1 tq Htq).
  eapply total_bind; [apply total_deref; eauto|]. intros t1 Ht1. rewrite Hs in Hn |- *.
  destruct (stoppable (stat t1)); [|by apply total_Ok].
  eapply total_bind; [apply (fixed_set k0 c x); [done|eauto|done|congruence]|]. intros k2 (Hk2 & Hq2).
  eapply total_bind; [apply total_deref; eauto|]. intros t2 _.
  eapply total_bind; [by apply Hn|]. intros k3 Hk3. rewrite decide_False by congruence. by apply total_Ok.
Qed.

(** A task may always signal itself. *)
Lemma self_permitted k c tc safe : task_current k = Some c -> tasks k !! c = Some tc -> kill_denied k (task_current k) tc safe = Ok false.
Proof.
  intros Hc Ht. unfold kill_denied. rewrite Hc. destruct safe; [done|]. unfold get_task. cbn [deref res_bind]. rewrite Ht. cbn [deref res_bind].
  by rewrite (Z.eqb_refl (ruid tc)), andb_false_r.
Qed.

(** A task that stops itself: everything before the switch. *)
Lemma self_stop k pid sig safe c tc :
  kern_inv k -> task_current k = Some c -> tasks k !! c = Some tc -> stat tc = TASK_RUN ->
  is_stop_signal sig = true -> 0 < pid -> task_get k pid = Some c ->
  exists k1 t1, kern_inv k1 /\ task_current k1 = Some c /\ tasks k1 !! c = Some t1 /\
    stat t1 = TASK_STP /\ stat_before_stop t1 = TASK_RUN /\
    kill_safe KILL_FUEL k pid sig safe = (let! k2 := task_yield k1 in Ok (0, k2)).
Proof.
  intros Hk Hc Htc Hrun Hs Hp Hg. assert (19 <= sig <= 22) as Hr.
  { unfold is_stop_signal, SIGSTOP, SIGTSTP, SIGTTIN, SIGTTOU in Hs. lia. }
  unfold KILL_FUEL. remember 3%nat as m eqn:Em. cbn [kill_safe]. unfold _NSIG.
  replace ((sig <? 0) || (64 <=? sig)) with false by lia. replace (pid <=? 0) with false by lia. rewrite Hg.
  unfold get_task at 1. rewrite Htc. cbn [deref res_bind]. rewrite (self_permitted k c tc safe Hc Htc). cbn [res_bind].
  replace (sig =? 0) with false by lia. unfold deliver. rewrite Hc, Hs.
  destruct (set_task_total k c (fun t => t <| sigpend ::= fun s => sigaddset s sig |>) Hk) as (k1 & -> & Hk1 & Et1 & Ec1 & Hc1 & _); [eauto|done|].
  specialize (Hc1 tc Htc). cbn [res_bind]. unfold get_task at 1. rewrite Hc1. cbn [deref res_bind].
  change (stat (tc <| sigpend ::= _ |>)) with (stat tc). rewrite Hrun. change (stoppable TASK_RUN) with true. cbn iota.
  set (f := fun t : task => t <| stat_before_stop := stat t |> <| stat := TASK_STP |> <| retval := make_stat_stopped sig |>).
  destruct (set_task_total k1 c f Hk1) as (k2 & -> & Hk2 & Et2 & Ec2 & Hc2 & _); [eauto|done|].
  specialize (Hc2 _ Hc1). cbn [res_bind]. unfold get_task at 1. rewrite Hc2. cbn [deref res_bind].
  destruct (kill_chld_total (fixed k c (TASK_STP, TASK_RUN, pgid tc)) ltac:(by intros k' [? _]) 1 k2 (ppid (f (tc <| sigpend ::= fun s => sigaddset s sig |>)))) as ([r k3] & E & Hk3).
  - by apply chld_fixed.
  - split_and!; [done|congruence|congruence|]. eexists. split; [exact Hc2|]. unfold f. cbn. by rewrite <- Hrun.
  - subst m. rewrite E. cbn [res_bind snd fst] in *. rewrite decide_True by done.
    pose proof (fixed_current _ _ _ _ Hk3) as Hcur. destruct Hk3 as (Hk3 & _ & _ & t3 & Ht3 & [= S1 S2 _]).
    exists k3, t3. split_and!; try done. congruence.
Qed.

End kill_total.

(** While a task is switched out, nothing happens. *)
Definition idle_env : Env :=
  {| others := fun k => Ok k; junk_task := demo_task 0 0 TASK_INI;
     junk_timer := KTimer 0 0 0 true; junk_node := LNode 0 0;
     vfs_close := fun k _ => Ok (0, k) |}.

(** A task that is switched out never runs again. *)
Definition stuck_env : Env :=
  {| others := fun k => Fault OutOfFuel; junk_task := demo_task 0 0 TASK_INI;
     junk_timer := KTimer 0 0 0 true; junk_node := LNode 0 0;
     vfs_close := fun k _ => Ok (0, k) |}.

Lemma kern_demo_inv : kern_inv kern_demo.
Proof. apply kern_idleb_inv. vm_compute. reflexivity. Qed.

(** Process 3 stops process 2, and then itself. *)
Definition stop_demo : kern :=
  demo_kern 3 [demo_task 0 0 TASK_PRE; demo_task 1 0 TASK_PRE; demo_task 2 1 TASK_BLK; demo_task 3 1 TASK_RUN].


(** ** Stopping and continuing *)

Definition runs (p : Z) (k : kern) : Prop := exists t, tasks k !! p = Some t /\ stat t = TASK_RUN.

(** continuing a stopped task restores the status it had when it was stopped; a task that
    stopped while it was running becomes marked running again without being the current
    one, is not ready, and so is never picked by the scheduler. *)
Theorem sigcont_running_lost `{!Env} k i p t :
  kern_inv k -> 0 < i -> entry k i p t -> stat t = TASK_STP -> stat_before_stop t = TASK_RUN ->
  total (fkill k i SIGCONT) (fun rk => fst rk = 0 /\ runs p (snd rk) /\ ~ ready (snd rk) i).
Proof.
  intros Hk Hi He Hst Hsb. pose proof He as (Hi0 & Htab & Ht).
  pose proof (entry_range _ _ _ _ (ki_ok _ Hk) He) as Hr.
  unfold fkill, KILL_FUEL. remember 3%nat as m eqn:Em. cbn [kill_safe]. change ((SIGCONT <? 0) || (_NSIG <=? SIGCONT)) with false.
  cbn iota. replace (i <=? 0) with false by lia. unfold task_get.
  replace ((i <? 0) || (TASK_MAX <=? i)) with false by lia. rewrite Htab. cbn [mjoin option_join].
  unfold get_task at 1. rewrite Ht. cbn [deref res_bind kill_denied].
  change (SIGCONT =? 0) with false. cbn iota. unfold deliver.
  change (is_stop_signal SIGCONT) with false. change (SIGCONT =? SIGKILL) with false.
  change (SIGCONT =? SIGCONT) with true. cbn iota.
  eapply total_bind; [apply set_task_total; [done|eauto|done]|]. intros k1 (Hk1 & Etb1 & Ecu1 & Hp1 & _).
  specialize (Hp1 t Ht). unfold get_task at 1. rewrite Hp1. cbn [deref res_bind].
  rewrite decide_True by exact Hst.
  eapply total_bind; [apply set_task_total; [done|eauto|done]|]. intros k2 (Hk2 & Etb2 & Ecu2 & Hp2 & _).
  specialize (Hp2 _ Hp1). eapply total_bind; [apply total_deref; eauto|]. intros t2 Ht2.
  eapply total_bind with (Q := fixed k p (TASK_RUN, TASK_RUN, pgid t)).
  { eapply total_bind.
    - subst m. apply (kill_chld_total (fixed k p (TASK_RUN, TASK_RUN, pgid t))).
      + by intros ? [? _].
      + by apply chld_fixed.
      + split_and!; [done|congruence|congruence|]. eexists. split; [exact Hp2|]. cbn. by rewrite Hsb.
    - intros [r k3] Hk3. by apply total_Ok. }
  intros k3 (Hk3 & Etb3 & _ & t3 & Ht3 & [= Hs3 _ _]). apply total_Ok. split_and!; [done|by exists t3|].
  intros (q & u & (_ & Hq & Hu) & Hs). cbn in Hq, Hu. rewrite Etb3, Htab in Hq. injection Hq as <-.
  cbn in Ht3. rewrite Hu in Ht3. injection Ht3 as <-. congruence.
Qed.

(** A task that stops itself: the state in which another task runs. *)
Definition self_stopped : kern :=
  match @sys_kill idle_env stop_demo 3 SIGSTOP with Ok (_, k) => k | Fault _ => stop_demo end.

Lemma sigcont_running_lost_witness :
  _curr self_stopped = 0 /\
  total (@fkill idle_env self_stopped 3 SIGCONT)
    (fun rk => fst rk = 0 /\ runs 400 (snd rk) /\ ~ ready (snd rk) 3).
Proof.
  split; [vm_compute; reflexivity|].
  destruct (tasks self_stopped !! 400) as [t|] eqn:Et; [|vm_compute in Et; discriminate Et].
  apply (@sigcont_running_lost idle_env self_stopped 3 400 t).
  - apply kern_idleb_inv. vm_compute. reflexivity.
  - lia.
  - split; [lia|]. split; [vm_compute; reflexivity|exact Et].
  - vm_compute in Et. injection Et as <-. reflexivity.
  - vm_compute in Et. injection Et as <-. reflexivity.
Defined.

(** a user process that is not privileged and shares no user id with the target cannot
    signal it: the call fails with EPERM and nothing changes; a permitted call with
    signal 0 changes nothing either; numbers out of range and absent processes are reported. *)
Theorem kill_permission `{!Env} k c tc pid p t sig :
  task_current k = Some c -> tasks k !! c = Some tc ->
  0 < pid -> task_get k pid = Some p -> tasks k !! p = Some t -> 0 <= sig < _NSIG ->
  (euid tc <> 0 -> euid tc <> ruid t -> euid tc <> suid t -> ruid tc <> ruid t -> ruid tc <> suid t ->
   sys_kill k pid sig = Ok (- EPERM, k)) /\
  (euid tc = 0 \/ euid tc = ruid t \/ euid tc = suid t \/ ruid tc = ruid t \/ ruid tc = suid t ->
   sys_kill k pid 0 = Ok (0, k)) /\
  sys_kill k pid _NSIG = Ok (- EINVAL, k) /\ sys_kill k TASK_MAX sig = Ok (- ESRCH, k).
Proof.
  intros Hc Htc Hp Hg Ht Hs. unfold sys_kill, KILL_FUEL. remember 3%nat as m eqn:Em. cbn [kill_safe].
  replace (pid <=? 0) with false by lia. rewrite Hg. unfold get_task at 1 2. rewrite Ht.
  cbn [deref res_bind]. unfold kill_denied. rewrite Hc. cbn [deref res_bind].
  unfold get_task at 1 2. rewrite Htc. cbn [deref res_bind]. unfold _NSIG in *. split_and!.
  - intros. replace ((sig <? 0) || (64 <=? sig)) with false by lia.
    rewrite !(proj2 (Z.eqb_neq _ _)) by done. done.
  - intros Hid. cbn. destruct Hid as [-> | [-> | [-> | [-> | ->]]]];
      rewrite ?Z.eqb_refl; cbn; rewrite ?andb_false_r; cbn; rewrite ?andb_false_r; done.
  - done.
  - replace ((sig <? 0) || (64 <=? sig)) with false by lia. done.
Qed.

Lemma kill_permission_witness :
  let k := demo_kern 1 [demo_task 0 0 TASK_PRE;
             (demo_task 1 0 TASK_RUN) <| euid := 5 |> <| ruid := 5 |> <| suid := 5 |>; demo_task 2 1 TASK_BLK] in
  @sys_kill idle_env k 2 SIGKILL = Ok (- EPERM, k).
Proof.
  intros k. refine (proj1 (@kill_permission idle_env k 200
    ((demo_task 1 0 TASK_RUN) <| euid := 5 |> <| ruid := 5 |> <| suid := 5 |>) 2 300 (demo_task 2 1 TASK_BLK)
    SIGKILL _ _ _ _ _ _) _ _ _ _ _); try reflexivity; try (unfold SIGKILL, _NSIG; lia); done.
Defined.

(** [alarm] arms the task's block timer and not its alarm timer: the remaining time it
    reports is always 0, a later [alarm(0)] leaves the pending alarm armed, and any wake-up of
    the task cancels it. *)
Theorem alarm_arms_block_timer k c tc secs xs :
  task_current k = Some c -> tasks k !! c = Some tc -> timers_ok (ktms k) xs ->
  btmr c <> timers -> is_Some (k_recs (ktms k) !! btmr c) ->
  (exists t, k_recs (ktms k) !! alarm_tmr c = Some t /\ t_dead t = true) -> 0 < secs < 2 ^ 32 ->
  exists k1 s', sys_alarm k secs = Ok (0, k1) /\
    k_recs (ktms k1) !! btmr c = Some (KTimer KILL_TIMEOUT c (u64 (k_tick (ktms k) + secs * 1000)) false) /\
    sys_alarm k1 0 = Ok (0, k1) /\ ktimer_kill (ktms k1) (btmr c) = Ok s' /\
    exists t', k_recs s' !! btmr c = Some t' /\ t_dead t' = true.
Proof.
  intros Hc Htc Hok Hne Hb (ta & Hta & Hd) Hs.
  assert (forall s, k_recs s !! alarm_tmr c = Some ta -> ktimer_remain_ms s (alarm_tmr c) = Ok 0) as Hrem.
  { intros s E. unfold ktimer_remain_ms, ktimer_remain. rewrite E. cbn. by rewrite Hd. }
  unfold sys_alarm, current. rewrite Hc. cbn [deref res_bind].
  rewrite (Hrem _ Hta). cbn [res_bind]. change (0 / 1000 <=? 2 ^ 32 - 1) with true. cbn [ASSERTK res_bind].
  replace (secs =? 0) with false by lia. rewrite (wrap_small 64 (secs * 1000)) by lia.
  destruct (ktimer_arm_spec (ktms k) xs (btmr c) KILL_TIMEOUT c (secs * 1000) Hok Hne Hb)
    as (s1 & -> & Hok1 & Hr1 & Hfr). cbn [res_bind].
  assert (k_recs s1 !! alarm_tmr c = Some ta) as Hta1 by (rewrite Hfr; [done|unfold alarm_tmr, btmr; lia]).
  destruct (decide (btmr c ∈ xs)) as [Hin|Hin].
  all: match type of Hok1 with timers_ok _ ?l => assert (btmr c ∈ l) as Hin1 by set_solver end.
  all: apply list_elem_of_split in Hin1 as (l1 & l2 & El); rewrite El in Hok1;
    destruct (kill_armed _ _ _ _ Hok1) as (s2 & Hk2 & _ & _ & _ & Hr2).
  all: eexists (k <| ktms := s1 |>), s2; split; [done|]; split; [done|]; split;
    [|split; [done|eexists; split; [rewrite Hr2, decide_True, Hr1 by done; reflexivity|done]]].
  all: change (task_current (k <| ktms := s1 |>)) with (task_current k); rewrite Hc; cbn [deref res_bind];
    change (ktms (k <| ktms := s1 |>)) with s1; rewrite (Hrem _ Hta1); cbn [res_bind];
    change (0 / 1000 <=? 2 ^ 32 - 1) with true; cbn [ASSERTK res_bind Z.eqb];
    unfold ktimer_kill; rewrite Hta1; cbn [deref res_bind]; rewrite Hd; done.
Qed.

Lemma alarm_arms_block_timer_witness :
  exists k1, sys_alarm kern_demo 5 = Ok (0, k1) /\ sys_alarm k1 0 = Ok (0, k1).
Proof.
  destruct (alarm_arms_block_timer kern_demo 200 (demo_task 1 0 TASK_RUN) 5 [])
    as (k1 & s' & H1 & _ & H2 & _); try reflexivity.
  - apply idle_timers_ok; [reflexivity|]. apply (bool_decide_unpack _). by vm_compute.
  - done.
  - vm_compute. eauto.
  - vm_compute. eauto.
  - lia.
  - exists k1. done.
Defined.
