(* ===== verification/Proc.v ===== *)
(** * Processes: identity, creation, exit and waiting ([kernel/task.c], [dev/tty/ctrltty.c]) *)
From Stdlib Require Import ZArith Lia List Bool.
From stdpp Require Import base list gmap.
From S2P Require Import Prelude Dlist Ktimer Task Signal.

#[local] Open Scope Z_scope.

(** ** User and group ids; [-1] as a [uid_t] is 2^32 - 1 *)

Definition NOID : Z := 2 ^ 32 - 1.

(** The system calls below act on the calling task: the result and the task afterwards. *)

Definition sys_setuid (tsk : task) (uid : Z) : Z * task :=
  if euid tsk =? 0 then (0, tsk <| suid := uid |> <| euid := uid |> <| ruid := uid |>)
  else if (uid =? ruid tsk) || (uid =? suid tsk) then (0, tsk <| euid := uid |>)
  else (- EPERM, tsk).

Definition sys_setgid (tsk : task) (gid : Z) : Z * task :=
  if egid tsk =? 0 then (0, tsk <| sgid := gid |> <| egid := gid |> <| rgid := gid |>)
  else if (gid =? rgid tsk) || (gid =? sgid tsk) then (0, tsk <| egid := gid |>)
  else (- EPERM, tsk).

Definition sys_setreuid (tsk : task) (r e : Z) : Z * task :=
  if negb (euid tsk =? 0) && negb (r =? NOID) then (- EPERM, tsk)
  else if negb (euid tsk =? 0) && (negb (e =? NOID) && negb (e =? ruid tsk) &&
            negb (e =? euid tsk) && negb (e =? suid tsk)) then (- EPERM, tsk)
  else
    let tsk := if negb (r =? NOID) then tsk <| ruid := r |> else tsk in
    let tsk := if negb (e =? NOID) then tsk <| euid := e |> else tsk in
    (0, tsk).

Definition sys_setregid (tsk : task) (r e : Z) : Z * task :=
  if negb (egid tsk =? 0) && (negb (r =? NOID) && negb (r =? sgid tsk)) then (- EPERM, tsk)
  else if negb (egid tsk =? 0) && (negb (e =? NOID) && negb (e =? sgid tsk) &&
            negb (e =? rgid tsk)) then (- EPERM, tsk)
  else
    let tsk := if negb (r =? NOID) then tsk <| rgid := r |> else tsk in
    let tsk := if negb (e =? NOID) then tsk <| egid := e |> else tsk in
    (0, tsk).

(** [while (supgids[ss] != -1) ss++;]: the group list ends at the first [-1]. *)
Fixpoint group_count (l : list Z) : res Z :=
  match l with
  | [] => Fault OutOfBounds
  | g :: l => if g =? NOID then Ok 0 else let! n := group_count l in Ok (n + 1)
  end.

(** The result and what is stored to the caller's list of [size] groups. *)
Definition sys_getgroups (tsk : task) (size : Z) (lst : option (list Z)) : res (Z * option (list Z)) :=
  let! ss := match supgids tsk with Some g => group_count g | None => Ok 0 end in
  match lst with
  | None => if size =? 0 then Ok (ss, None) else Ok (- EFAULT, None)
  | Some l =>
      if size <? ss then Ok (- EINVAL, Some l)
      else
        let gs := default [] (supgids tsk) in
        Ok (ss, Some (take (Z.to_nat ss) gs ++ drop (Z.to_nat ss) l))
  end.

Definition sys_setgroups (tsk : task) (size : Z) (lst : option (list Z)) : res (Z * task) :=
  if size =? 0 then let! r := sys_getgroups tsk 0 None in Ok (fst r, tsk)
  else if size <? 0 then Ok (- EINVAL, tsk)
  else match lst with
  | None => Ok (- EFAULT, tsk)
  | Some l =>
      if negb (euid tsk =? 0) then Ok (- EPERM, tsk)
      else if Z.of_nat (length l) <? size then Fault OutOfBounds
      else
        let tsk := tsk <| supgids := None |> in
        let gs := take (Z.to_nat size) l in
        if existsb (fun g => g =? NOID) gs then Ok (- EINVAL, tsk)
        else Ok (0, tsk <| supgids := Some (gs ++ [NOID]) |>)
  end.

(** ** Sessions and process groups *)

Definition sys_getsid (k : kern) (pid : Z) : res Z :=
  let! c := current k in
  let! tsk := get_task k c in
  if pid =? 0 then Ok (sid tsk)
  else match task_get k pid with
  | None => Ok (- ESRCH)
  | Some p =>
      let! ptsk := get_task k p in
      if negb (sid ptsk =? sid tsk) then Ok (- EPERM) else Ok (sid ptsk)
  end.

Definition sys_getpgid (k : kern) (pid : Z) : res Z :=
  let! c := current k in
  let! tsk := get_task k c in
  if pid <? 0 then Ok (- EINVAL)
  else match (if pid =? 0 then Some c else task_get k pid) with
  | None => Ok (- ESRCH)
  | Some p =>
      let! ptsk := get_task k p in
      if negb (sid ptsk =? sid tsk) then Ok (- EPERM) else Ok (pgid ptsk)
  end.

Definition sys_setpgid (k : kern) (pid_ pgid_ : Z) : res (Z * kern) :=
  let! c := current k in
  let! tsk := get_task k c in
  if pid_ <? 0 then Ok (- EINVAL, k)
  else match (if pid_ =? 0 then Some c else task_get k pid_) with
  | None => Ok (- ESRCH, k)
  | Some p =>
      let! ptsk := get_task k p in
      if negb (pid ptsk =? pid tsk) && negb (ppid ptsk =? pid tsk) then Ok (- ESRCH, k)
      else if pid ptsk =? sid ptsk then Ok (- EPERM, k)
      else
        let '(l, newgid) := if pgid_ =? 0 then (Some c, pid tsk) else (task_get k pgid_, pgid_) in
        match l with
        | None => Ok (- ESRCH, k)
        | Some l =>
            let! ltsk := get_task k l in
            if negb (sid ptsk =? sid ltsk) then Ok (- EPERM, k)
            else if did_exec ptsk then Ok (- EACCES, k)
            else
              let! k := set_task k p (fun t => t <| pgid := newgid |>) in
              Ok (0, k)
        end
  end.

(** The [brk] system call: [PAGE_SIZE] is 4096 and the mask clears the low 12 bits. *)
Definition user_heap_va : Z := 0x0000700000000000.

Definition sys_brk (tsk : task) (ask : Z) : Z * task :=
  if ask =? 0 then (brk tsk, tsk)
  else if ask <? user_heap_va then (- ENOMEM, tsk)
  else
    let ask := Z.land (u64 (ask + PAGE_SIZ)) (Z.lnot PAGE_MASK) in
    (ask, tsk <| brk := ask |>).

(** ** The controlling terminal *)

Definition assert (b : bool) : res unit := ASSERTK b.

Definition get_tty (k : kern) (d : Z) : res ttyses := deref (ttys k !! d).

Definition set_tty (k : kern) (d : Z) (f : ttyses -> ttyses) : res kern :=
  let! t := get_tty k d in Ok (k <| ttys := <[d := f t]> (ttys k) |>).

(** The [while ((p = task_foreach_next(p)))] loop that takes the terminal away
    from the other members of the session [ses]. *)
Fixpoint drop_ctrltty (fuel : nat) (k : kern) (p : option Z) (tsk ses : Z) : res kern :=
  match fuel with
  | O => Fault OutOfFuel
  | S fuel =>
      let! n := task_foreach_next k p in
      match n with
      | None => Ok k
      | Some q =>
          let! t := get_task k q in
          let! k := (if negb (sid t =? ses) || (q =? tsk) then Ok k
                     else set_task k q (fun t => t <| ctrltty := None |>)) in
          drop_ctrltty fuel k (Some q) tsk ses
      end
  end.

Definition ctrltty_detach `{!Env} (k : kern) (tsk : Z) : res kern :=
  let! t := get_task k tsk in
  match ctrltty t with
  | None => Ok k
  | Some d =>
      let! ctty := get_tty k d in
      do! assert (ses_id ctty =? sid t) in
      do! assert (0 <? ses_holders ctty) in
      let! k := set_tty k d (fun c => c <| ses_holders ::= fun h => u32 (h - 1) |>) in
      let! ctty := get_tty k d in
      let! k := (if ses_holders ctty =? 0 then set_tty k d (fun c => c <| ses_id := 0 |>) else Ok k) in
      let! k := (if pid t =? sid t then
                   let! ctty := get_tty k d in
                   let! rk := sys_kill k (- pgrp ctty) SIGHUP in
                   let! ctty := get_tty (snd rk) d in
                   let! rk := sys_kill (snd rk) (- pgrp ctty) SIGCONT in
                   drop_ctrltty 17 (snd rk) None tsk (pid t)
                 else Ok k) in
      set_task k tsk (fun t => t <| ctrltty := None |>)
  end.

Definition ctrltty_refer (k : kern) (tsk : Z) : res (option Z * kern) :=
  let! t := get_task k tsk in
  match ctrltty t with
  | None => Ok (None, k)
  | Some d =>
      let! ctty := get_tty k d in
      do! assert (ses_id ctty =? sid t) in
      do! assert (0 <? ses_holders ctty) in
      let! k := set_tty k d (fun c => c <| ses_holders ::= fun h => u32 (h + 1) |>) in
      Ok (Some d, k)
  end.

Definition sys_setsid `{!Env} (k : kern) : res (Z * kern) :=
  let! c := current k in
  let! tsk := get_task k c in
  if pgid tsk =? pid tsk then Ok (- EPERM, k)
  else
    let! k := ctrltty_detach k c in
    let! k := set_task k c (fun t => t <| pgid := pid t |> <| sid := pid t |>) in
    Ok (pid tsk, k).

(** ** Creation *)

(** [_task_create]: a page for the task, with whatever it holds, its id set; the
    nodes and timers embedded in it come into being with it. *)
Definition _task_create `{!Env} (k : kern) : option (Z * kern) :=
  let i := _getfree k in
  if i <? 0 then None
  else
    let p := next_page k in
    Some (p, k <| next_page := p + PAGE_SIZ |>
               <| tasks := <[p := junk_task <| pid := i |>]> (tasks k) |>
               <| table := <[Z.to_nat i := Some p]> (table k) |>
               <| blists := <[p := junk_node]> (blists k) |>
               <| ktms ::= fun s => s <| k_recs := <[btmr p := junk_timer]>
                                           (<[alarm_tmr p := junk_timer]> (k_recs s)) |>
                                     <| k_list := <[btmr p := junk_node]>
                                           (<[alarm_tmr p := junk_node]> (k_list s)) |> |>).

(** [while (prt->supgids[ss] != -1) ss++;] and the copy of that prefix. *)
Definition copy_supgids (g : option (list Z)) : res (option (list Z)) :=
  match g with
  | None => Ok None
  | Some l => let! ss := group_count l in Ok (Some (take (Z.to_nat ss) l ++ [NOID]))
  end.

Definition fork_id (k : kern) (prt chd : Z) : res kern :=
  let! p := get_task k prt in
  let! sg := copy_supgids (supgids p) in
  set_task k chd (fun c => c <| ruid := ruid p |> <| euid := euid p |> <| suid := suid p |>
    <| rgid := rgid p |> <| egid := egid p |> <| sgid := sgid p |> <| supgids := sg |>
    <| sid := sid p |> <| pgid := pgid p |>).

(** [chd->files[i]->refer++] for every open descriptor. *)
Fixpoint refer_all (fs : list (option Z)) (h : gmap Z file_t) : res (gmap Z file_t) :=
  match fs with
  | [] => Ok h
  | None :: fs => refer_all fs h
  | Some a :: fs =>
      let! f := deref (h !! a) in
      refer_all fs (<[a := f <| refer ::= fun r => r + 1 |>]> h)
  end.

Definition fork_fd (k : kern) (prt chd : Z) : res kern :=
  let! p := get_task k prt in
  let! k := set_task k chd (fun c => c <| files := files p |>) in
  let! h := refer_all (files p) (filps k) in
  Ok (k <| filps := h |>).

Definition fork_sig (k : kern) (prt chd : Z) : res kern :=
  let! p := get_task k prt in
  set_task k chd (fun c => c <| sigcurr := sigcurr p |> <| sigpend := sigpend p |>
    <| sigmask := sigmask p |> <| sigacts := sigacts p |>).

Definition fork_tty (k : kern) (prt chd : Z) : res kern :=
  let! r := ctrltty_refer k prt in
  let '(d, k) := r in
  set_task k chd (fun c => c <| ctrltty := d |>).

(** [task_fork], without the copy of the stack and of the page table: the
    child's pid. *)
Definition task_fork `{!Env} (k : kern) : res (Z * kern) :=
  let! prt := current k in
  let! ck := deref (_task_create k) in
  let '(chd, k) := ck in
  let! p := get_task k prt in
  let! k := set_task k chd (fun c => c <| stat := TASK_PRE |> <| tick := tick p |> <| curr := curr p |>) in
  let! s := ktimer_init (ktms k) (btmr chd) in
  let k := k <| ktms := s |> in
  let! k := set_task k chd (fun c => c <| did_exec := false |> <| retval := WNOSTATUS |>
                                       <| waitpid := 0 |> <| waitopt := 0 |>) in
  let! k := fork_id k prt chd in
  let! k := fork_fd k prt chd in
  let! k := set_task k chd (fun c => c <| mmap := mmap p |>) in
  let! k := fork_sig k prt chd in
  let! k := fork_tty k prt chd in
  let! p := get_task k prt in
  let! k := set_task k chd (fun c => c <| ppid := pid p |> <| pwd := pwd p |>
      <| utime := 0 |> <| stime := 0 |> <| _ustart := 0 |> <| _sstart := u64 (us_ran k) |>
      <| dbg_traced := false |> <| dbg_waiting := false |> <| dbg_options := 0 |> <| dbg_tracer := None |>) in
  let! c := get_task k chd in
  Ok (pid c, k).

(** ** Exit and wait *)

Definition WNOHANG : Z := 1.
Definition WSTOPPED : Z := 2.
Definition WEXITED : Z := 4.
Definition WCONTINUED : Z := 8.
Definition WNOWAIT : Z := 0x1000000.

Definition wstat_match_wopt (ret opt : Z) : bool :=
  if ret =? WNOSTATUS then false
  else
    let expect := Z.lor (Z.lor (if WIFSTOPPED ret then WSTOPPED else 0)
                               (if WIFEXITED ret then WEXITED else 0))
                        (if WIFCONTINUED ret then WCONTINUED else 0) in
    negb (Z.land expect opt =? 0).

Definition wstat_match_task (t : task) (opt : Z) : bool :=
  if dbg_traced t && WIFSTOPPED (retval t) then true
  else wstat_match_wopt (retval t) opt.

Definition task_report_wstat `{!Env} (k : kern) (tsk : Z) : res kern :=
  let! t := get_task k tsk in
  let! e := aget (table k) (ppid t) in
  let! prt := deref e in
  let! p := get_task k prt in
  if ((waitpid p =? pid t) || (waitpid p =? -1)) && wstat_match_task t (waitopt p) then
    do! ASSERTK (bool_decide (stat p = TASK_BLK)) in
    let! k := task_unblock k (Some prt) 0 in
    set_task k prt (fun p => p <| waitpid := pid t |>)
  else
    let! rk := fkill k (ppid t) SIGCHLD in
    Ok (snd rk).

(** [for (i...) if (table[i] != TASK_FREE && table[i]->ppid == pid) table[i]->ppid = 1;] *)
Fixpoint adopt (idx : list nat) (k : kern) (pid_ : Z) : res kern :=
  match idx with
  | [] => Ok k
  | i :: idx =>
      match mjoin (table k !! i) with
      | None => adopt idx k pid_
      | Some p =>
          let! t := get_task k p in
          let! k := (if ppid t =? pid_ then set_task k p (fun t => t <| ppid := 1 |>) else Ok k) in
          adopt idx k pid_
      end
  end.

(** [task_exit] up to the final switch, from which it does not come back. *)
Definition task_exit_pre `{!Env} (k : kern) (val : Z) : res kern :=
  let! c := current k in
  let! k := set_task k c (fun t => t <| stat := TASK_DIE |> <| retval := val |>) in
  let! k := task_report_wstat k c in
  let! k := ctrltty_detach k c in
  let! t := get_task k c in
  if pid t =? 1 then Fault Panicked
  else adopt (seq 0 16) k (pid t).

(** The state in which the next task runs. *)
Definition task_exit `{!Env} (k : kern) (val : Z) : res kern :=
  let! k := task_exit_pre k val in
  let! r := sched_pick k in
  Ok (default k r).

(** [__file_dec_ref] *)
Definition __file_dec_ref `{!Env} (k : kern) (a : Z) : res (Z * kern) :=
  let! f := deref (filps k !! a) in
  let f := f <| refer ::= fun r => r - 1 |> in
  let k := k <| filps := <[a := f]> (filps k) |> in
  if 0 <? refer f then Ok (0, k)
  else
    let! rk := vfs_close k f in
    let '(ret, k) := rk in
    Ok (ret, k <| filps := delete a (filps k) |>).

Fixpoint close_all `{!Env} (k : kern) (fs : list (option Z)) : res kern :=
  match fs with
  | [] => Ok k
  | None :: fs => close_all k fs
  | Some a :: fs => let! rk := __file_dec_ref k a in close_all (snd rk) fs
  end.

Definition task_destroy `{!Env} (k : kern) (tsk : Z) : res kern :=
  let! t := get_task k tsk in
  do! assert (bool_decide (stat t = TASK_DIE)) in
  close_all k (files t).

(** The first entry that is a child of [me] and whose status matches. *)
Fixpoint find_child (idx : list nat) (k : kern) (me opt : Z) : res Z :=
  match idx with
  | [] => Ok (-1)
  | i :: idx =>
      match mjoin (table k !! i) with
      | None => find_child idx k me opt
      | Some p =>
          let! t := get_task k p in
          if (ppid t =? me) && wstat_match_task t opt then Ok (pid t)
          else find_child idx k me opt
      end
  end.

Fixpoint has_child (idx : list nat) (k : kern) (me : Z) : res bool :=
  match idx with
  | [] => Ok false
  | i :: idx =>
      match mjoin (table k !! i) with
      | None => has_child idx k me
      | Some p => let! t := get_task k p in if ppid t =? me then Ok true else has_child idx k me
      end
  end.

(** The tail of [task_wait] once a child is chosen: the result and the status stored. *)
Definition wait_collect `{!Env} (k : kern) (target opt : Z) : res (Z * option Z * kern) :=
  if target =? -1 then Ok (0, None, k)
  else
    let! e := aget (table k) target in
    let! p := deref e in
    let! chd := get_task k p in
    let st := retval chd in
    let! k := set_task k p (fun t => t <| retval := WNOSTATUS |>) in
    let! k := (if (Z.land opt WNOWAIT =? 0) && bool_decide (stat chd = TASK_DIE) then
                 let! k := task_destroy k p in
                 Ok (k <| table := <[Z.to_nat target := None]> (table k) |>)
               else Ok k) in
    Ok (target, Some st, k).

Definition task_wait `{!Env} (k : kern) (pid_ opt : Z) : res (Z * option Z * kern) :=
  let! me := current k in
  let! tsk := get_task k me in
  let! nochild :=
    (if 0 <? pid_ then
       match task_get k pid_ with
       | None => Ok true
       | Some p => let! t := get_task k p in Ok (negb (ppid t =? pid tsk))
       end
     else if pid_ =? -1 then let! b := has_child (seq 0 16) k (pid tsk) in Ok (negb b)
     else Fault Panicked) in
  if nochild then Ok (- ECHILD, None, k)
  else
    let! target :=
      (if 0 <? pid_ then
         let! p := deref (task_get k pid_) in
         let! chd := get_task k p in
         Ok (if wstat_match_task chd opt then pid_ else -1)
       else find_child (seq 0 16) k (pid tsk) opt) in
    if negb (target =? -1) then wait_collect k target opt
    else if negb (Z.land opt WNOHANG =? 0) then Ok (0, None, k)
    else
      let! k := set_task k me (fun t => t <| waitpid := pid_ |> <| waitopt := opt |>) in
      let! rk := task_block k None None TASK_BLK 0 in
      let '(_, k) := rk in
      let! tsk := get_task k me in
      let target := waitpid tsk in
      let! k := set_task k me (fun t => t <| waitpid := 0 |>) in
      wait_collect k target opt.

(** The [exit] and [wait4] system calls. *)
Definition sys_exit `{!Env} (k : kern) (st : Z) : res kern := task_exit k (make_stat_exit st).

Definition sys_wait4 `{!Env} (k : kern) (pid opt : Z) : res (Z * option Z * kern) :=
  task_wait k pid (Z.lor opt WEXITED).

(** ** Times: [struct tms]; the totals over the children are 32 bits wide *)

Definition CLK_TCK : Z := 1000.

Record tms := Tms { tms_utime : Z; tms_stime : Z; tms_cutime : Z; tms_cstime : Z }.

Fixpoint times_loop (idx : list nat) (k : kern) (tsk : task) (cutime cstime : Z) : res (Z * Z) :=
  match idx with
  | [] => Ok (cutime, cstime)
  | i :: idx =>
      match mjoin (table k !! i) with
      | None => times_loop idx k tsk cutime cstime
      | Some p =>
          let! j := get_task k p in
          if ppid j =? pid tsk then times_loop idx k tsk (u32 (cutime + utime tsk)) (u32 (cstime + stime tsk))
          else times_loop idx k tsk cutime cstime
      end
  end.

Definition sys_times (k : kern) : res (Z * tms) :=
  let! c := current k in
  let! tsk := get_task k c in
  let! cs := times_loop (seq 0 16) k tsk 0 0 in
  let '(cutime, cstime) := cs in
  Ok (us_ran k / CLK_TCK,
      Tms (utime tsk / CLK_TCK) (stime tsk / CLK_TCK) (cutime / CLK_TCK) (cstime / CLK_TCK)).

(** ** Ids can only be given up *)

Inductive idcall :=
| SetUid (uid : Z) | SetGid (gid : Z) | SetReUid (r e : Z) | SetReGid (r e : Z).

Definition run_idcall (t : task) (c : idcall) : task :=
  match c with
  | SetUid u => snd (sys_setuid t u)
  | SetGid g => snd (sys_setgid t g)
  | SetReUid r e => snd (sys_setreuid t r e)
  | SetReGid r e => snd (sys_setregid t r e)
  end.

Definition uids (t : task) : gset Z := {[ruid t; euid t; suid t]}.

Definition gids (t : task) : gset Z := {[rgid t; egid t; sgid t]}.

Lemma idcall_shrinks t c :
  (0 ∉ uids t -> uids (run_idcall t c) ⊆ uids t) /\ (0 ∉ gids t -> gids (run_idcall t c) ⊆ gids t).
Proof.
  unfold uids, gids. split; intros H.
  - assert ((euid t =? 0) = false) as E by (apply Z.eqb_neq; set_solver).
    destruct c; cbn; unfold sys_setuid, sys_setgid, sys_setreuid, sys_setregid; rewrite ?E; cbn [negb andb];
      repeat (case_if; cbn); try set_solver;
      repeat match goal with
      | Hb : _ && _ = false |- _ => apply andb_false_iff in Hb as [Hb|Hb]; bool_facts
      | Hb : _ || _ = true |- _ => apply orb_true_iff in Hb as [Hb|Hb]; bool_facts
      end; set_solver.
  - assert ((egid t =? 0) = false) as E by (apply Z.eqb_neq; set_solver).
    destruct c; cbn; unfold sys_setuid, sys_setgid, sys_setreuid, sys_setregid; rewrite ?E; cbn [negb andb];
      repeat (case_if; cbn); try set_solver;
      repeat match goal with
      | Hb : _ && _ = false |- _ => apply andb_false_iff in Hb as [Hb|Hb]; bool_facts
      | Hb : _ || _ = true |- _ => apply orb_true_iff in Hb as [Hb|Hb]; bool_facts
      end; set_solver.
Qed.

(** a process without user id 0 among its real, effective and saved ids cannot obtain any id
    it did not have, by any sequence of [setuid], [setgid], [setreuid] and [setregid] calls;
    the same holds of group ids. *)
Theorem ids_never_grow t calls :
  (0 ∉ uids t -> uids (fold_left run_idcall calls t) ⊆ uids t) /\
  (0 ∉ gids t -> gids (fold_left run_idcall calls t) ⊆ gids t).
Proof.
  revert t. induction calls as [|c calls IH]; intros t; cbn; [done|].
  destruct (idcall_shrinks t c) as [Hu Hg], (IH (run_idcall t c)) as [IHu IHg].
  split; intros H; etrans; [apply IHu|apply Hu|apply IHg|apply Hg]; set_solver.
Qed.

Lemma ids_never_grow_witness :
  let t := (demo_task 2 1 TASK_RUN) <| ruid := 5 |> <| euid := 6 |> <| suid := 6 |> in
  uids (fold_left run_idcall [SetReUid NOID 5; SetUid 6; SetUid 0] t) ⊆ {[5; 6]}.
Proof.
  intros t. transitivity (uids t); [|set_solver].
  apply (ids_never_grow t [SetReUid NOID 5; SetUid 6; SetUid 0]). set_solver.
Defined.

(** ** Which status changes a waiting parent sees *)

Lemma wopt_bits opt b : 0 <= b -> negb (Z.land (2 ^ b) opt =? 0) = Z.testbit opt b.
Proof.
  intros Hb. destruct (Z.testbit opt b) eqn:E.
  - apply negb_true_iff, Z.eqb_neq. intros H. apply (f_equal (fun x => Z.testbit x b)) in H.
    by rewrite Z.land_spec, Z.pow2_bits_true, E, Z.bits_0 in H by lia.
  - apply negb_false_iff, Z.eqb_eq, Z.bits_inj'. intros i Hi.
    rewrite Z.land_spec, Z.pow2_bits_eqb, Z.bits_0 by lia.
    destruct (Z.eqb_spec b i) as [<-|]; [by rewrite E|done].
Qed.

(** a parent that waits sees a child that exited exactly when it asked for WEXITED and a
    stopped child exactly when it asked for WSTOPPED; a child that was killed by a signal
    matches no request at all. *)
Theorem wait_ignores_killed_children opt code sig :
  0 <= code < 256 -> 1 <= sig < _NSIG ->
  wstat_match_wopt (make_stat_exit code) opt = Z.testbit opt 2 /\
  wstat_match_wopt (make_stat_stopped sig) opt = Z.testbit opt 1 /\
  wstat_match_wopt (make_stat_signal sig false) opt = false.
Proof.
  intros Hc Hs. unfold _NSIG in Hs.
  assert (forall x, 0 <= x < 256 ->
    bool_decide ((make_stat_exit x <> WNOSTATUS) /\ WIFSTOPPED (make_stat_exit x) = false /\
      WIFEXITED (make_stat_exit x) = true /\ WIFCONTINUED (make_stat_exit x) = false) = true) as He.
  { apply byte_forall. by vm_compute. }
  assert (forall x, 0 <= x < 256 ->
    bool_decide ((make_stat_stopped x <> WNOSTATUS) /\ WIFSTOPPED (make_stat_stopped x) = negb (x =? 0) /\
      WIFEXITED (make_stat_stopped x) = false /\ WIFCONTINUED (make_stat_stopped x) = false) = true) as Ht.
  { apply byte_forall. by vm_compute. }
  assert (forall x, 0 <= x < 256 ->
    bool_decide ((make_stat_signal x false <> WNOSTATUS) /\ WIFSTOPPED (make_stat_signal x false) = false /\
      WIFEXITED (make_stat_signal x false) = (Z.land x 127 =? 0) /\
      WIFCONTINUED (make_stat_signal x false) = false) = true) as Hg.
  { apply byte_forall. by vm_compute. }
  specialize (He code Hc). specialize (Ht sig ltac:(lia)). specialize (Hg sig ltac:(lia)).
  apply bool_decide_eq_true_1 in He as (E1 & E2 & E3 & E4), Ht as (T1 & T2 & T3 & T4), Hg as (G1 & G2 & G3 & G4).
  unfold wstat_match_wopt. rewrite !(proj2 (Z.eqb_neq _ WNOSTATUS)) by done.
  rewrite E2, E3, E4, T2, T3, T4, G2, G3, G4. replace (sig =? 0) with false by lia. cbn [negb]. split_and!.
  - by apply (wopt_bits opt 2).
  - by apply (wopt_bits opt 1).
  - change 127 with (Z.ones 7). rewrite Z.land_ones, Z.mod_small by lia.
    by replace (sig =? 0) with false by lia.
Qed.

Lemma wait_ignores_killed_children_witness :
  wstat_match_wopt (make_stat_signal SIGKILL false) (Z.lor WEXITED WSTOPPED) = false.
Proof. apply (wait_ignores_killed_children (Z.lor WEXITED WSTOPPED) 0 SIGKILL); unfold SIGKILL, _NSIG; lia. Defined.

(** a parent that a signal has already woken from [wait], but that has not run again, still
    has its wait request set; a child that exits at that moment makes the kernel's assertion
    that the parent is blocked fail. *)
Theorem report_wstat_assertion `{!Env} k tsk t prt p :
  tasks k !! tsk = Some t -> 0 <= ppid t -> table k !! Z.to_nat (ppid t) = Some (Some prt) ->
  tasks k !! prt = Some p -> waitpid p = pid t \/ waitpid p = -1 ->
  wstat_match_task t (waitopt p) = true -> stat p <> TASK_BLK ->
  task_report_wstat k tsk = Fault AssertFailed.
Proof.
  intros Ht Hp Htab Hprt Hw Hm Hs. unfold task_report_wstat, get_task at 1. rewrite Ht. cbn [deref res_bind].
  rewrite (proj2 (aget_Ok _ _ _) (conj Hp Htab)). cbn [deref res_bind]. unfold get_task at 1. rewrite Hprt.
  cbn [deref res_bind]. rewrite Hm.
  replace ((waitpid p =? pid t) || (waitpid p =? -1)) with true by (destruct Hw as [-> | ->]; lia).
  cbn [andb]. rewrite bool_decide_eq_false_2 by done. done.
Qed.

(** Process 1 waits for any child; process 2 is killed, process 3 exits before 1 runs again. *)
Lemma report_wstat_assertion_witness :
  let k := demo_kern 3 [demo_task 0 0 TASK_PRE;
             (demo_task 1 0 TASK_BLK) <| waitpid := -1 |> <| waitopt := WEXITED |>;
             demo_task 2 1 TASK_DIE; demo_task 3 1 TASK_RUN] in
  exists k1, @fkill idle_env k 1 SIGCHLD = Ok (0, k1) /\
    @task_report_wstat idle_env
      (k1 <| tasks ::= fun m => <[400 := (demo_task 3 1 TASK_DIE) <| retval := make_stat_exit 0 |>]> m |>) 400
    = Fault AssertFailed.
Proof.
  eexists. split; [vm_compute; reflexivity|].
  eapply (@report_wstat_assertion idle_env).
  - vm_compute. reflexivity.
  - vm_compute. discriminate.
  - vm_compute. reflexivity.
  - vm_compute. reflexivity.
  - right. reflexivity.
  - reflexivity.
  - discriminate.
Defined.
