(* ===== verification/Fork.v ===== *)
(** * What fork gives the child, and the process tree

    Theorems on [task_fork], [task_exit] and [task_wait] of [Proc]. *)
From Stdlib Require Import ZArith Lia List Bool.
From stdpp Require Import base list gmap.
From S2P Require Import Prelude Dlist Ktimer Task Signal Proc.

#[local] Open Scope Z_scope.

(** ** Fork *)

(** How many descriptors of a table refer to the open file [a]. *)
Definition fd_count (a : Z) (fs : list (option Z)) : Z :=
  Z.of_nat (length (filter (fun e => e = Some a) fs)).

Lemma fd_count_nil a : fd_count a [] = 0.
Proof. done. Qed.

Lemma fd_count_cons a e fs : fd_count a (e :: fs) = (if decide (e = Some a) then 1 else 0) + fd_count a fs.
Proof.
  unfold fd_count. rewrite filter_cons. destruct (decide (e = Some a)); cbn [length]; lia.
Qed.

Lemma fd_count_pos a fs : 0 <= fd_count a fs.
Proof. unfold fd_count. lia. Qed.

(** A file referred to [n] more times. *)
Definition refer_more (n : Z) (f : file_t) : file_t := f <| refer ::= fun r => r + n |>.

Lemma refer_more_add n m f : refer_more m (refer_more n f) = refer_more (n + m) f.
Proof. destruct f. unfold refer_more, upd. cbn. f_equal. lia. Qed.

Lemma refer_more_0 f : refer_more 0 f = f.
Proof. destruct f. unfold refer_more, upd. cbn. f_equal. lia. Qed.

Lemma refer_all_spec fs : forall h,
  (forall a, Some a ∈ fs -> is_Some (h !! a)) ->
  total (refer_all fs h) (fun h' => forall a, h' !! a = refer_more (fd_count a fs) <$> h !! a).
Proof.
  induction fs as [|[b|] fs IH]; intros h Hv; cbn [refer_all].
  - apply total_Ok. intros a. rewrite fd_count_nil. destruct (h !! a); cbn; [|done]. by rewrite refer_more_0.
  - destruct (Hv b) as [f Hf]; [set_solver|]. rewrite Hf. cbn [deref res_bind].
    eapply total_mono; [apply IH|].
    + intros a Ha. destruct (decide (b = a)) as [<-|]; [rewrite lookup_insert_eq; eauto|].
      rewrite lookup_insert_ne by done. apply Hv. set_solver.
    + intros h' Hh' a. rewrite Hh', fd_count_cons. destruct (decide (b = a)) as [<-|Hne].
      * rewrite lookup_insert_eq, Hf, decide_True by done. cbn. by rewrite <- (refer_more_add 1).
      * by rewrite lookup_insert_ne, decide_False by congruence.
  - eapply total_mono; [apply IH; set_solver|]. intros h' Hh' a. by rewrite Hh', fd_count_cons, decide_False.
Qed.

(** A group list that ends in [-1]. *)
Lemma copy_supgids_Ok g :
  (forall l, g = Some l -> exists gs, l = gs ++ [NOID] /\ NOID ∉ gs) -> copy_supgids g = Ok g.
Proof.
  intros H. destruct g as [l|]; [|done]. destruct (H l eq_refl) as (gs & -> & Hn). cbn.
  assert (group_count (gs ++ [NOID]) = Ok (Z.of_nat (length gs))) as ->.
  { clear H. induction gs as [|g gs IH]; [done|]. cbn. replace (g =? NOID) with false by (set_unfold; symmetry; lia).
    rewrite IH by set_solver. cbn. f_equal. lia. }
  cbn. by rewrite Nat2Z.id, take_app_length.
Qed.

(** What [fork] needs of its caller: fresh memory, and a caller whose group list,
    descriptors and terminal are consistent. *)
Record fork_ready (k : kern) (prt : Z) (p : task) : Prop := {
  fr_inv : kern_inv k;
  fr_cur : task_current k = Some prt;
  fr_prt : tasks k !! prt = Some p;
  fr_fresh : tasks k !! next_page k = None;
  fr_groups : forall l, supgids p = Some l -> exists gs, l = gs ++ [NOID] /\ NOID ∉ gs;
  fr_files : forall a, Some a ∈ files p -> is_Some (filps k !! a);
  fr_tty : forall d, ctrltty p = Some d ->
             exists c, ttys k !! d = Some c /\ ses_id c = sid p /\ 0 < ses_holders c }.

(** Between the steps of [task_fork]: the child is [c], every other task is as in [k0]. *)
Record mid (k0 : kern) (tb : list (option Z)) (chd : Z) (k : kern) (c : task) : Prop := {
  mid_chd : tasks k !! chd = Some c;
  mid_others : forall q, q <> chd -> tasks k !! q = tasks k0 !! q;
  mid_table : table k = tb;
  mid_us : us_ran k = us_ran k0 }.

Lemma mid_set k0 tb chd k c f :
  mid k0 tb chd k c ->
  total (set_task k chd f) (fun k' => mid k0 tb chd k' (f c) /\ filps k' = filps k /\ ttys k' = ttys k /\
    ktms k' = ktms k).
Proof.
  intros [Hc Ho Ht Hu]. rewrite (set_task_Ok _ _ _ _ Hc). eexists. split; [reflexivity|].
  split; [|done]. split; cbn; [by rewrite lookup_insert_eq| |done|done].
  intros q Hq. rewrite lookup_insert_ne by done. by apply Ho.
Qed.

Section fork.
Context `{!Env}.
Variables (k0 : kern) (prt : Z) (p : task).
Hypothesis Hready : fork_ready k0 prt p.
Hypothesis Hslot : 0 <= _getfree k0.
Let chd := next_page k0.
Let tb := <[Z.to_nat (_getfree k0) := Some chd]> (table k0).

Lemma fork_distinct : prt <> chd.
Proof.
  intros E. pose proof (fr_fresh _ _ _ Hready) as Hf. fold chd in Hf. rewrite <- E in Hf.
  by rewrite (fr_prt _ _ _ Hready) in Hf.
Qed.

Lemma mid_prt k c : mid k0 tb chd k c -> tasks k !! prt = Some p.
Proof. intros Hm. rewrite (mid_others _ _ _ _ _ Hm) by apply fork_distinct. apply Hready. Qed.

Lemma fork_create :
  exists k1, _task_create k0 = Some (chd, k1) /\ mid k0 tb chd k1 (junk_task <| pid := _getfree k0 |>) /\
    filps k1 = filps k0 /\ ttys k1 = ttys k0 /\ is_Some (k_recs (ktms k1) !! btmr chd).
Proof.
  unfold _task_create.
  replace (_getfree k0 <? 0) with false by lia. eexists. split; [reflexivity|].
  split_and!; [|done|done|cbn; rewrite lookup_insert_eq; eauto].
  split; cbn; [by rewrite lookup_insert_eq| |done|done]. intros q Hq. by rewrite lookup_insert_ne.
Qed.

Lemma fork_id_mid k c :
  mid k0 tb chd k c ->
  total (fork_id k prt chd) (fun k' => mid k0 tb chd k' (c <| ruid := ruid p |> <| euid := euid p |>
    <| suid := suid p |> <| rgid := rgid p |> <| egid := egid p |> <| sgid := sgid p |>
    <| supgids := supgids p |> <| sid := sid p |> <| pgid := pgid p |>) /\
    filps k' = filps k /\ ttys k' = ttys k).
Proof.
  intros Hm. unfold fork_id, get_task at 1. rewrite (mid_prt _ _ Hm). cbn [deref res_bind].
  rewrite copy_supgids_Ok by apply (fr_groups _ _ _ Hready). cbn [res_bind].
  eapply total_mono; [by apply mid_set|]. by intros k' (? & ? & ? & _).
Qed.

Lemma fork_fd_mid k c :
  mid k0 tb chd k c -> filps k = filps k0 ->
  total (fork_fd k prt chd) (fun k' => mid k0 tb chd k' (c <| files := files p |>) /\ ttys k' = ttys k /\
    forall a, filps k' !! a = refer_more (fd_count a (files p)) <$> filps k0 !! a).
Proof.
  intros Hm Ef. unfold fork_fd, get_task at 1. rewrite (mid_prt _ _ Hm). cbn [deref res_bind].
  eapply total_bind; [by apply mid_set|]. intros k1 (Hm1 & Ef1 & Et1 & _).
  eapply total_bind; [apply refer_all_spec; rewrite Ef1, Ef; apply (fr_files _ _ _ Hready)|].
  intros h Hh. apply total_Ok. rewrite Ef1, Ef in Hh. split_and!; [|done|done].
  destruct Hm1. by split.
Qed.

Lemma fork_tty_mid k c :
  mid k0 tb chd k c -> ttys k = ttys k0 ->
  total (fork_tty k prt chd) (fun k' => mid k0 tb chd k' (c <| ctrltty := ctrltty p |>) /\ filps k' = filps k /\
    forall d, ttys k' !! d =
      if decide (ctrltty p = Some d) then (fun c => c <| ses_holders := u32 (ses_holders c + 1) |>) <$> ttys k0 !! d
      else ttys k0 !! d).
Proof.
  intros Hm Et. unfold fork_tty, ctrltty_refer, get_task at 1. rewrite (mid_prt _ _ Hm). cbn [deref res_bind].
  destruct (ctrltty p) as [d|] eqn:Ed; cbn [res_bind].
  - destruct (fr_tty _ _ _ Hready d Ed) as (ct & Hct & Hs & Hh). unfold get_tty at 1. rewrite Et, Hct.
    cbn [deref res_bind]. unfold assert. replace (ses_id ct =? sid p) with true by lia.
    replace (0 <? ses_holders ct) with true by lia. cbn [ASSERTK res_bind].
    unfold set_tty, get_tty. rewrite Et, Hct. cbn [deref res_bind].
    eapply total_mono; [apply mid_set; destruct Hm; by split|]. intros k' (Hm' & Ef' & Et' & _).
    split_and!; [done|done|]. intros d'. rewrite Et'. cbn. destruct (decide (d = d')) as [<-|].
    + rewrite lookup_insert_eq, decide_True, Hct by done. done.
    + by rewrite lookup_insert_ne, decide_False by congruence.
  - eapply total_mono; [by apply mid_set|]. intros k' (Hm' & Ef' & Et' & _).
    split_and!; [done|done|]. intros d'. by rewrite Et', Et, decide_False.
Qed.

(** The child that a fork of [p] makes. *)
Definition forked_child : task :=
  Task TASK_PRE (stat_before_stop junk_task) (tick p) (curr p) (bretval junk_task) false
    WNOSTATUS 0 0 (ruid p) (euid p) (suid p) (rgid p) (egid p) (sgid p)
    (supgids p) (umask junk_task) (_getfree k0) (sid p) (pid p) (pgid p) (pwd p) (files p) (ctrltty p)
    (mmap p) (brk junk_task) (sigcurr p) (sigpend p) (sigmask p) (sigacts p)
    0 0 0 (u64 (us_ran k0)) false false 0 None.

Lemma task_fork_spec :
  total (task_fork k0) (fun rk => let '(r, k') := rk in
    r = _getfree k0 /\ table k' = tb /\ tasks k' !! chd = Some forked_child /\
    (forall q, q <> chd -> tasks k' !! q = tasks k0 !! q) /\
    (forall a, filps k' !! a = refer_more (fd_count a (files p)) <$> filps k0 !! a)).
Proof.
  unfold task_fork, current. rewrite (fr_cur _ _ _ Hready). cbn [deref res_bind].
  destruct fork_create as (k1 & -> & Hm1 & Ef1 & Et1 & Htm). cbn [deref res_bind].
  unfold get_task at 1. rewrite (mid_prt _ _ Hm1). cbn [deref res_bind].
  eapply total_bind; [by apply mid_set|]. intros k2 (Hm2 & Ef2 & Et2 & Ek2).
  unfold ktimer_init. rewrite Ek2. destruct Htm as [tm Htm]. rewrite Htm. cbn [deref res_bind].
  eapply total_bind; [apply mid_set; destruct Hm2; by split|]. intros k3 (Hm3 & Ef3 & Et3 & _).
  cbn in Ef3, Et3.
  eapply total_bind; [by apply fork_id_mid|]. intros k4 (Hm4 & Ef4 & Et4).
  eapply total_bind; [apply fork_fd_mid; [done|congruence]|]. intros k5 (Hm5 & Et5 & Hf5).
  eapply total_bind; [by apply mid_set|]. intros k6 (Hm6 & Ef6 & Et6 & _).
  eapply total_bind with (Q := fun k' => mid k0 tb chd k' _ /\ filps k' = filps k6 /\ ttys k' = ttys k6).
  { unfold fork_sig, get_task at 1. rewrite (mid_prt _ _ Hm6). cbn [deref res_bind].
    eapply total_mono; [by apply mid_set|]. intros k' (Hk' & ? & ? & _). split; [exact Hk'|done]. }
  intros k7 (Hm7 & Ef7 & Et7).
  eapply total_bind; [apply fork_tty_mid; [done|congruence]|]. intros k8 (Hm8 & Ef8 & _).
  unfold get_task at 1. rewrite (mid_prt _ _ Hm8). cbn [deref res_bind].
  eapply total_bind; [by apply mid_set|]. intros k9 (Hm9 & Ef9 & _).
  unfold get_task. rewrite (mid_chd _ _ _ _ _ Hm9). cbn [deref res_bind]. apply total_Ok.
  split_and!; [done|apply Hm9| |apply Hm9|].
  - rewrite (mid_chd _ _ _ _ _ Hm9). rewrite (mid_us _ _ _ _ _ Hm8). reflexivity.
  - intros a. rewrite Ef9, Ef8, Ef7, Ef6. apply Hf5.
Qed.
End fork.

(** With a full table there is no child, and [task_fork] uses the null pointer. *)
Lemma fork_no_slot `{!Env} k prt : task_current k = Some prt -> _getfree k < 0 -> task_fork k = Fault NullDeref.
Proof.
  intros Hc Hs. unfold task_fork, current, _task_create. rewrite Hc. cbn [deref res_bind]. by replace (_getfree k <? 0) with true by lia.
Qed.

Lemma fork_slot `{!Env} k prt r : task_current k = Some prt -> task_fork k = Ok r -> 0 <= _getfree k.
Proof. intros Hc E. destruct (Z_lt_le_dec (_getfree k) 0) as [Hs|]; [|done]. by rewrite (fork_no_slot k prt Hc Hs) in E. Qed.

(** C32: [fork] takes the first free slot and gives the child its parent's ids, groups, session,
    working directory, controlling terminal, descriptors, signal state, mapping base and time
    slice; it counts one more reference per shared descriptor, starts the child's clocks, its
    wait state and its tracing state afresh, and changes no other task.  The child's [umask] and
    [brk] are whatever the fresh page holds, since nothing sets them, and when the task table is
    full, [task_fork] dereferences the null pointer. *)
Theorem fork_inherits `{!Env} k prt p :
  fork_ready k prt p ->
  if _getfree k <? 0 then task_fork k = Fault NullDeref
  else exists k' c, task_fork k = Ok (_getfree k, k') /\
    table k' = <[Z.to_nat (_getfree k) := Some (next_page k)]> (table k) /\
    tasks k' !! next_page k = Some c /\ pid c = _getfree k /\
    uids c = uids p /\ gids c = gids p /\ supgids c = supgids p /\
    sid c = sid p /\ pgid c = pgid p /\ ppid c = pid p /\ pwd c = pwd p /\ files c = files p /\ ctrltty c = ctrltty p /\
    sigcurr c = sigcurr p /\ sigpend c = sigpend p /\ sigmask c = sigmask p /\ sigacts c = sigacts p /\
    mmap c = mmap p /\ tick c = tick p /\ curr c = curr p /\
    stat c = TASK_PRE /\ did_exec c = false /\ retval c = WNOSTATUS /\ waitpid c = 0 /\ waitopt c = 0 /\
    utime c = 0 /\ stime c = 0 /\ _ustart c = 0 /\ _sstart c = u64 (us_ran k) /\
    dbg_traced c = false /\ dbg_waiting c = false /\ dbg_options c = 0 /\ dbg_tracer c = None /\
    (forall a, filps k' !! a = refer_more (fd_count a (files p)) <$> filps k !! a) /\
    (forall q, q <> next_page k -> tasks k' !! q = tasks k !! q) /\
    umask c = umask junk_task /\ brk c = brk junk_task.
Proof.
  intros Hr. destruct (Z.ltb_spec (_getfree k) 0) as [Hs|Hs]; [by apply (fork_no_slot k prt), Hs; apply Hr|].
  destruct (task_fork_spec k prt p Hr Hs) as ([r k'] & E & -> & Ht & Hc & Ho & Hf).
  exists k', (forked_child k p). split_and!; done.
Qed.

Lemma fork_demo_ready : fork_ready kern_demo 200 (demo_task 1 0 TASK_RUN).
Proof.
  split.
  - apply kern_demo_inv.
  - reflexivity.
  - reflexivity.
  - reflexivity.
  - discriminate.
  - intros a Ha. exfalso. cbn in Ha. set_solver.
  - discriminate.
Qed.

Lemma fork_inherits_witness :
  exists k' c, @task_fork idle_env kern_demo = Ok (4, k') /\ tasks k' !! 10000 = Some c /\ ppid c = 1.
Proof.
  destruct (@fork_inherits idle_env kern_demo 200 (demo_task 1 0 TASK_RUN) fork_demo_ready)
    as (k' & c & H1 & _ & H3 & _ & _ & _ & _ & _ & _ & Hp & _).
  exists k', c. split; [exact H1|]. split; [exact H3|exact Hp].
Defined.
