(* ===== verification/ProcTree.v ===== *)
(** * The process tree

    Every task's parent is in the table, and a dead task has no children left: so
    [table[tsk->ppid]], which [task_report_wstat] dereferences unchecked, is never null. *)
From Stdlib Require Import ZArith Lia List Bool.
From stdpp Require Import base list gmap.
From S2P Require Import Prelude Dlist Ktimer Task Signal Proc Fork.

#[local] Open Scope Z_scope.

Definition occupied (k : kern) (i : Z) : Prop := 0 <= i /\ is_Some (mjoin (table k !! Z.to_nat i)).

Record tree_ok (k : kern) : Prop := {
  tr_parent : forall i p t, entry k i p t -> occupied k (ppid t);
  tr_init : occupied k 1;
  tr_dead : forall i p t, entry k i p t -> stat t = TASK_DIE ->
              i <> 1 /\ forall j q u, entry k j q u -> ppid u <> i }.

(** A stopped task does not come back as a dead one. *)
Definition stp_ok (k : kern) : Prop :=
  forall p t, tasks k !! p = Some t -> stat t = TASK_STP -> stat_before_stop t <> TASK_DIE.

(** Two states with the same table, the same parents and the same dead tasks. *)
Definition same_task (t t' : task) : Prop :=
  pid t' = pid t /\ ppid t' = ppid t /\ (stat t' = TASK_DIE <-> stat t = TASK_DIE).

Record tree_eq (k k' : kern) : Prop := {
  te_table : table k' = table k;
  te_tasks : forall p t, tasks k !! p = Some t -> exists t', tasks k' !! p = Some t' /\ same_task t t';
  te_back : forall p, is_Some (tasks k' !! p) -> is_Some (tasks k !! p) }.

#[export] Instance same_task_refl : Reflexive same_task.
Proof. done. Qed.

#[export] Instance tree_eq_refl : Reflexive tree_eq.
Proof. intros k. split; [done|eauto using same_task_refl|done]. Qed.

#[export] Instance tree_eq_trans : Transitive tree_eq.
Proof.
  intros k1 k2 k3 [T1 S1 B1] [T2 S2 B2]. split; [congruence| |auto].
  intros p t Ht. destruct (S1 p t Ht) as (t2 & Ht2 & E1), (S2 p t2 Ht2) as (t3 & Ht3 & E2).
  exists t3. split; [done|]. unfold same_task in *. intuition congruence.
Qed.

(** Updating one task without touching its place in the tree. *)
Lemma tree_eq_set k p f t k' :
  tasks k !! p = Some t -> same_task t (f t) -> set_task k p f = Ok k' -> tree_eq k k'.
Proof.
  intros Ht Hs E. rewrite (set_task_Ok _ _ _ _ Ht) in E. injection E as <-.
  split; cbn; [done| |].
  - intros q u Hu. destruct (decide (p = q)) as [<-|].
    + rewrite lookup_insert_eq. rewrite Ht in Hu. injection Hu as <-. eauto.
    + rewrite lookup_insert_ne by done. eauto using same_task_refl.
  - intros q. destruct (decide (p = q)) as [<-|]; [eauto|by rewrite lookup_insert_ne].
Qed.

Lemma tree_eq_entry k k' i p t' :
  tree_eq k k' -> entry k' i p t' -> exists t, entry k i p t /\ same_task t t'.
Proof.
  intros [ET ES EB] (Hi & Htab & Ht'). rewrite ET in Htab.
  destruct (EB p) as [t Ht]; [eauto|]. destruct (ES p t Ht) as (t2 & Ht2 & Hs).
  rewrite Ht' in Ht2. injection Ht2 as <-. exists t. split; [|done]. done.
Qed.

Lemma tree_ok_eq k k' : tree_eq k k' -> tree_ok k -> tree_ok k'.
Proof.
  intros E [Hp Hi Hd]. pose proof (te_table _ _ E) as ET. split.
  - intros i p t' He. destruct (tree_eq_entry _ _ _ _ _ E He) as (t & He0 & _ & Epp & _).
    unfold occupied. rewrite ET, Epp. eapply Hp; eauto.
  - unfold occupied. by rewrite ET.
  - intros i p t' He Hdie. destruct (tree_eq_entry _ _ _ _ _ E He) as (t & He0 & _ & _ & Hst).
    destruct (Hd i p t He0) as [H1 H2]; [tauto|]. split; [done|]. intros j q u Hu.
    destruct (tree_eq_entry _ _ _ _ _ E Hu) as (u0 & Hu0 & _ & -> & _). eauto.
Qed.

(** Waking a blocked task keeps the tree. *)
Lemma task_unblock_tree k p t r k' :
  kern_inv k -> tasks k !! p = Some t -> stat t <> TASK_DIE -> stp_ok k ->
  task_unblock k (Some p) r = Ok k' -> tree_eq k k' /\ stp_ok k'.
Proof.
  intros Hk Hp Hnd Hst E. unfold task_unblock, ASSERTK in E. rewrite bool_decide_eq_true_2 in E by eauto.
  cbn [res_bind deref] in E. rewrite (set_task_Ok _ _ _ _ Hp) in E. cbn [res_bind] in E.
  set (k1 := k <| tasks := _ |>) in E.
  assert (tree_eq k k1 /\ stp_ok k1) as [E1 S1].
  { split.
    - eapply (tree_eq_set k p (fun t => t <| bretval := r |> <| stat := TASK_PRE |>) t);
        [done| |by rewrite (set_task_Ok _ _ _ _ Hp)]. split_and!; [done|done|]. cbn. split; congruence.
    - intros q u Hu Hs. subst k1. cbn in Hu. destruct (decide (p = q)) as [<-|].
      + rewrite lookup_insert_eq in Hu. by injection Hu as <-.
      + rewrite lookup_insert_ne in Hu by done. eauto. }
  unfold task_stime_discard, current in E. change (task_current k1) with (task_current k) in E.
  destruct (kern_inv_current _ Hk) as (c & tc & Hc & (_ & _ & Htc)). rewrite Hc in E. cbn [deref res_bind] in E.
  destruct (te_tasks _ _ E1 c tc Htc) as (tc1 & Htc1 & _). rewrite (set_task_Ok _ _ _ _ Htc1) in E.
  cbn [res_bind] in E. res_inv. split.
  - transitivity k1; [done|].
    set (f := fun t => t <| _sstart := u64 (us_ran k1) |>).
    destruct (tree_eq_set k1 c f tc1 _ Htc1 ltac:(done) (set_task_Ok k1 c f tc1 Htc1)) as [T2 S2 B2].
    by split.
  - intros q u Hu Hs. cbn in Hu. destruct (decide (c = q)) as [<-|].
    + rewrite lookup_insert_eq in Hu. injection Hu as <-. cbn in *. eauto.
    + rewrite lookup_insert_ne in Hu by done. eauto.
Qed.

(** What holds after any operation that started in [k0] and left the tree alone. *)
Record tinv (k0 k : kern) : Prop := {
  ti_inv : kern_inv k;
  ti_tree : tree_eq k0 k;
  ti_stp : stp_ok k }.

Lemma tinv_set k0 k p t f :
  tinv k0 k -> tasks k !! p = Some t -> same_task t (f t) -> (forall t, pid (f t) = pid t) ->
  (stat (f t) = TASK_STP -> stat_before_stop (f t) <> TASK_DIE) ->
  total (set_task k p f) (fun k' => tinv k0 k' /\ tasks k' !! p = Some (f t)).
Proof.
  intros [Hk He Hs] Hp Hst Hpid Hd.
  destruct (set_task_total k p f Hk) as (k' & E & Hk' & _ & _ & Hp' & Hq'); [eauto|done|].
  exists k'. split; [done|]. split; [|by apply Hp']. split; [done| |].
  - transitivity k; [done|]. by eapply tree_eq_set.
  - intros q u Hu. destruct (decide (q = p)) as [->|].
    + rewrite (Hp' t Hp) in Hu. by injection Hu as <-.
    + rewrite Hq' in Hu by done. eauto.
Qed.

Lemma tinv_unblock k0 k p t r :
  tinv k0 k -> tasks k !! p = Some t -> stat t <> TASK_DIE ->
  total (task_unblock k (Some p) r) (fun k' => tinv k0 k' /\
    exists t', tasks k' !! p = Some t' /\ stat t' = TASK_PRE).
Proof.
  intros [Hk He Hs] Hp Hnd.
  destruct (task_unblock_total k p r Hk) as (k' & E & Hk' & _ & _ & (t' & Ht' & Hst & _) & _); [eauto|].
  destruct (task_unblock_tree k p t r k' Hk Hp Hnd Hs E) as [E' S']. exists k'. split; [done|].
  split; [|eauto]. split; [done| |done]. by transitivity k.
Qed.

Lemma blocked_alive st : blocked st = true -> st <> TASK_DIE.
Proof. by destruct st. Qed.

(** Every signal that does not stop its target keeps the tree. *)
Lemma deliver_tree `{!Env} k0 sig : is_stop_signal sig = false -> delivers (tinv k0) any_task sig.
Proof.
  intros Hns notify k p Hk [t Ht] _ Hn. unfold deliver.
  eapply total_bind; [eapply tinv_set; [done|done|done|done|exact (ti_stp _ _ Hk p t Ht)]|].
  intros k1 [Hk1 Hp1]. unfold get_task at 1. rewrite Hp1. cbn [deref res_bind]. rewrite Hns.
  set (t1 := t <| sigpend ::= _ |>) in *.
  destruct (sig =? SIGKILL); [|destruct (sig =? SIGCONT) eqn:Ec].
  - eapply total_bind with (Q := fun k2 => tinv k0 k2 /\ is_Some (tasks k2 !! p)).
    { destruct (blocked (stat t1)) eqn:Eb; [|apply total_Ok; eauto].
      eapply total_mono; [eapply tinv_unblock; [done|done|by apply blocked_alive]|].
      intros k2 [? (t' & ? & _)]. eauto. }
    intros k2 [Hk2 [t2 Ht2]]. unfold get_task at 1. rewrite Ht2. cbn [deref res_bind].
    eapply total_bind with (Q := tinv k0); [|by intros k3 Hk3; apply total_Ok].
    destruct (decide (stat t2 = TASK_STP)) as [Hs|]; [|by apply total_Ok].
    eapply total_mono; [eapply tinv_set; [done|done| |done|done]|by intros ? [? _]].
    split_and!; [done|done|]. cbn. rewrite Hs. done.
  - destruct (decide (stat t1 = TASK_STP)) as [Hs|]; [|by apply total_Ok].
    pose proof (ti_stp _ _ Hk1 p t1 Hp1 Hs) as Hb.
    eapply total_bind; [eapply tinv_set; [done|done| |done|]|].
    + split_and!; [done|done|]. cbn. split; [done|]. cbn in Hs. congruence.
    + cbn. by intros _.
    + intros k2 [Hk2 Hp2]. unfold get_task at 1. rewrite Hp2. cbn [deref res_bind].
      eapply total_bind; [apply Hn; [|done]; by rewrite orb_true_r|]. intros k3 Hk3. by apply total_Ok.
  - destruct (blocked (stat t1)) eqn:Eb; [|by apply total_Ok].
    eapply total_bind; [eapply tinv_unblock; [done|done|by apply blocked_alive]|].
    intros k2 [Hk2 _]. by apply total_Ok.
Qed.

Lemma kill_tree `{!Env} k0 k pid sig safe :
  is_stop_signal sig = false -> tinv k0 k ->
  total (kill_safe KILL_FUEL k pid sig safe) (fun rk => tinv k0 (snd rk)).
Proof.
  intros Hns. apply kill_all_total; [by intros k' [? _ _]|by apply deliver_tree|by apply deliver_tree].
Qed.

(** A total operation, read as a statement on its result. *)
Lemma total_inv {A : Type} (m : res A) (Q : A -> Prop) a : total m Q -> m = Ok a -> Q a.
Proof. intros (b & -> & Hb) [= <-]. done. Qed.

Lemma get_task_Ok k p t : get_task k p = Ok t -> tasks k !! p = Some t.
Proof. unfold get_task. destruct (tasks k !! p); [by intros [= ->]|done]. Qed.

Lemma tinv_set_Ok k0 k p f k' :
  tinv k0 k -> (forall t, same_task t (f t)) ->
  (forall t, stat (f t) = stat t /\ stat_before_stop (f t) = stat_before_stop t) ->
  set_task k p f = Ok k' -> tinv k0 k'.
Proof.
  intros Hk Hs Hst E. unfold set_task in E. destruct (get_task k p) as [t|] eqn:Et; [|done].
  apply get_task_Ok in Et.
  refine (proj1 (total_inv _ _ _ (tinv_set k0 k p t f Hk Et _ _ _) _)); [done|by intros; apply Hs| |].
  - destruct (Hst t) as [-> ->]. exact (ti_stp _ _ Hk p t Et).
  - unfold set_task, get_task. by rewrite Et.
Qed.

Lemma tinv_ttys k0 k f : tinv k0 k -> tinv k0 (k <| ttys := f |>).
Proof.
  intros [[[Hl Hc Hp] Hcu Htm Hb] [ET ES EB] Hs]. split; [split; [by split|done|done|done]|by split|done].
Qed.

Lemma tinv_set_tty k0 k d f k' : tinv k0 k -> set_tty k d f = Ok k' -> tinv k0 k'.
Proof. intros Hk E. unfold set_tty in E. res_inv. by apply tinv_ttys. Qed.

Lemma report_wstat_tree `{!Env} k0 k tsk k' :
  tinv k0 k -> task_report_wstat k tsk = Ok k' -> tinv k0 k'.
Proof.
  intros Hk E. unfold task_report_wstat in E.
  bind_inv E as t Ht. bind_inv E as e He. bind_inv E as prt Hprt. bind_inv E as p Hp.
  apply get_task_Ok in Hp.
  destruct (((waitpid p =? pid t) || (waitpid p =? -1)) && wstat_match_task t (waitopt p)).
  - bind_inv E as u Ha. unfold ASSERTK in Ha. destruct (bool_decide (stat p = TASK_BLK)) eqn:Eb; [|done].
    apply bool_decide_eq_true_1 in Eb. bind_inv E as k1 Hk1.
    assert (tinv k0 k1) as Hi1.
    { eapply (total_inv _ (fun k' => tinv k0 k' /\ _)); [|exact Hk1]. eapply tinv_unblock; [done|done|congruence]. }
    by eapply tinv_set_Ok in E.
  - bind_inv E as rk Hr. injection E as <-.
    eapply (total_inv _ (fun rk => tinv k0 (snd rk))); [|exact Hr]. by apply kill_tree.
Qed.

Lemma drop_ctrltty_tree k0 fuel : forall k p tsk ses k',
  tinv k0 k -> drop_ctrltty fuel k p tsk ses = Ok k' -> tinv k0 k'.
Proof.
  induction fuel as [|fuel IH]; intros k p tsk ses k' Hk E; [done|]. cbn [drop_ctrltty] in E.
  bind_inv E as n Hn. destruct n as [q|]; [|by injection E as <-].
  bind_inv E as t Ht. bind_inv E as k1 Hk1. eapply IH; [|exact E].
  destruct (negb (sid t =? ses) || (q =? tsk)); [by injection Hk1 as <-|]. by eapply tinv_set_Ok in Hk1.
Qed.

Lemma ctrltty_detach_tree `{!Env} k0 k tsk k' :
  tinv k0 k -> ctrltty_detach k tsk = Ok k' -> tinv k0 k'.
Proof.
  intros Hk E. unfold ctrltty_detach in E. bind_inv E as t Ht.
  destruct (ctrltty t) as [d|]; [|by injection E as <-].
  bind_inv E as c Hc. bind_inv E as u1 Ha1. bind_inv E as u2 Ha2.
  bind_inv E as k1 Hk1. apply (tinv_set_tty k0) in Hk1; [|done]. bind_inv E as c1 Hc1.
  bind_inv E as k2 Hk2.
  assert (tinv k0 k2) as Hi2.
  { destruct (ses_holders c1 =? 0); [by apply (tinv_set_tty k0) in Hk2|by injection Hk2 as <-]. }
  bind_inv E as k3 Hk3. eapply tinv_set_Ok in E; [exact E| |done|done].
  destruct (pid t =? sid t); [|by injection Hk3 as <-].
  bind_inv Hk3 as c2 Hc2. bind_inv Hk3 as rk1 Hr1. bind_inv Hk3 as c3 Hc3. bind_inv Hk3 as rk2 Hr2.
  eapply drop_ctrltty_tree; [|exact Hk3].
  eapply (total_inv _ (fun rk => tinv k0 (snd rk))); [|exact Hr2]. apply kill_tree; [done|].
  eapply (total_inv _ (fun rk => tinv k0 (snd rk))); [|exact Hr1]. by apply kill_tree.
Qed.

(** Adoption: the children of [me] get process 1 as their parent. *)
Lemma adopt_spec idx : forall k me k',
  kern_ok k -> adopt idx k me = Ok k' ->
  table k' = table k /\
  (forall i p t', entry k' i p t' -> exists t, entry k i p t /\ stat t' = stat t /\
     (ppid t' = ppid t \/ (ppid t = me /\ ppid t' = 1)) /\
     (0 <= i -> Z.to_nat i ∈ idx -> me <> 1 -> ppid t' <> me)).
Proof.
  induction idx as [|n idx IH]; intros k me k' Hok E; cbn [adopt] in E.
  { injection E as <-. split; [done|]. intros i p t He. exists t. split_and!; [done|done|by left|]. set_solver. }
  destruct (mjoin (table k !! n)) as [p|] eqn:Ep.
  - bind_inv E as t Ht. apply get_task_Ok in Ht. bind_inv E as k1 Hk1.
    assert (entry k (Z.of_nat n) p t) as Hen.
    { split_and!; [lia| |done]. rewrite Nat2Z.id. destruct (table k !! n) as [[]|]; cbn in Ep; congruence. }
    set (t1 := if ppid t =? me then t <| ppid := 1 |> else t).
    assert (k1 = k <| tasks := <[p := t1]> (tasks k) |>) as ->.
    { subst t1. destruct (ppid t =? me).
      - rewrite (set_task_Ok _ _ _ _ Ht) in Hk1. by injection Hk1.
      - injection Hk1 as <-. destruct k; unfold upd; cbn in *. by rewrite insert_id. }
    assert (kern_ok (k <| tasks := <[p := t1]> (tasks k) |>)) as Hok1
      by (apply (kern_ok_upd k p t t1); [done|done|]; subst t1; by destruct (ppid t =? me)).
    destruct (IH _ _ _ Hok1 E) as [ET HE].
    split; [done|]. intros i q t' He. destruct (HE i q t' He) as (t2 & He2 & Hs2 & Hp2 & Hi2).
    apply (entry_upd k p (fun _ => t1) t) in He2; [|done].
    destruct He2 as [(-> & -> & He2) | (Hne & He2)].
    + exists t. destruct (entry_inj _ _ _ _ _ _ Hok He2 Hen) as [-> _]. subst t1.
      destruct (Z.eqb_spec (ppid t) me) as [Hme|Hme]; cbn in *.
      * split_and!; [done|done|right; split; [done|]; destruct Hp2 as [|[? ?]]; congruence|].
        intros _ _ H1. destruct Hp2 as [->|[_ ->]]; done.
      * split_and!; [done|done|tauto|]. intros _ _ H1. destruct Hp2 as [->|[_ ->]]; done.
    + exists t2. split_and!; [done|done|done|]. intros Hi0 Hin H1. apply Hi2; [done| |done].
      apply elem_of_cons in Hin as [Hin|Hin]; [|done]. exfalso. apply Hne.
      destruct Hen as (_ & Htab & _), He2 as (_ & Htab2 & _). rewrite Nat2Z.id in Htab. rewrite Hin in Htab2. congruence.
  - destruct (IH _ _ _ Hok E) as [ET HE]. split; [done|]. intros i p t' He.
    destruct (HE i p t' He) as (t & Ht & Hs & Hp & Hi). exists t. split_and!; [done|done|done|].
    intros Hi0 Hin H1. apply Hi; [done| |done]. apply elem_of_cons in Hin as [Hin|Hin]; [|done].
    exfalso. destruct Ht as (_ & Htab & _). rewrite Hin in Htab. by rewrite Htab in Ep.
Qed.

Lemma exit_tree `{!Env} k c t val k' :
  kern_inv k -> tree_ok k -> stp_ok k -> task_current k = Some c -> entry k (_curr k) c t ->
  task_exit_pre k val = Ok k' -> tree_ok k'.
Proof.
  intros Hk Htr Hst Hc He E. pose proof He as (_ & _ & Ht). unfold task_exit_pre, current in E.
  rewrite Hc in E. cbn [deref res_bind] in E. set (f := fun t : task => _) in E.
  destruct (set_task_total k c f Hk) as (k1 & E1 & Hk1 & ET1 & _ & Hc1 & Hq1); [eauto|done|].
  rewrite E1 in E. cbn [res_bind] in E. specialize (Hc1 t Ht).
  assert (tinv k1 k1) as Hi1.
  { split; [done|done|]. intros p u Hu Hs. destruct (decide (p = c)) as [->|].
    - rewrite Hc1 in Hu. by injection Hu as <-.
    - rewrite Hq1 in Hu by done. eauto. }
  bind_inv E as k2 H2. apply (report_wstat_tree k1) in H2; [|done].
  bind_inv E as k3 H3. apply (ctrltty_detach_tree k1) in H3 as [Hk3 He3 _]; [|done].
  bind_inv E as t3 Ht3. apply get_task_Ok in Ht3. destruct (Z.eqb_spec (pid t3) 1) as [|Hne1]; [done|].
  set (me := pid t3) in *.
  assert (me = _curr k) as Eme.
  { destruct (te_tasks _ _ He3 c _ Hc1) as (t3' & Ht3' & Hpid & _). subst me. rewrite Ht3 in Ht3'.
    injection Ht3' as <-. rewrite Hpid. cbn. destruct He as (H0 & Htab & _).
    destruct (ok_ptr _ (ki_ok _ Hk) _ _ H0 Htab) as (u & Hu & <-). congruence. }
  destruct (adopt_spec _ _ _ _ (ki_ok _ Hk3) E) as [ET HE].
  assert (table k' = table k) as ETk by (rewrite ET, (te_table _ _ He3); done).
  (* an entry of the final state, as it was before the exit *)
  assert (forall i p t', entry k' i p t' -> exists t0, entry k i p t0 /\
    (ppid t' = ppid t0 \/ ppid t' = 1) /\ (stat t' = TASK_DIE -> i = me \/ stat t0 = TASK_DIE) /\
    (me <> 1 -> ppid t' <> me)) as Horig.
  { intros i p t' Hent. destruct (HE i p t' Hent) as (u & Hu & Hs & Hp & Hn).
    pose proof (entry_range _ _ _ _ (ki_ok _ Hk3) Hu) as Hr.
    destruct (tree_eq_entry _ _ _ _ _ He3 Hu) as (u1 & (Hi & Htab1 & Hu1) & _ & Epp & Hd).
    assert (me <> 1 -> ppid t' <> me) as Hnm.
    { apply Hn; [lia|]. apply elem_of_seq. unfold TASK_MAX in Hr. lia. }
    rewrite ET1 in Htab1. destruct (decide (p = c)) as [->|Hpc].
    - rewrite Hc1 in Hu1. injection Hu1 as <-. exists t.
      assert (entry k i c t) as Hei by done. split_and!; [done|cbn in Epp; intuition congruence| |done].
      intros _. left. rewrite Eme. by destruct (entry_inj _ _ _ _ _ _ (ki_ok _ Hk) Hei He).
    - rewrite Hq1 in Hu1 by done. exists u1. split_and!; [done|intuition congruence| |done].
      rewrite Hs. tauto. }
  destruct Htr as [Hpar Hinit Hdead]. split.
  - intros i p t' Hent. destruct (Horig i p t' Hent) as (t0 & He0 & [->| ->] & _); unfold occupied; rewrite ETk;
      [by eapply Hpar|done].
  - unfold occupied. by rewrite ETk.
  - intros i p t' Hent Hd. destruct (Horig i p t' Hent) as (t0 & He0 & _ & Hdie & _).
    destruct (Hdie Hd) as [-> | Hd0].
    + split; [done|]. intros j q u Hu. destruct (Horig j q u Hu) as (_ & _ & _ & _ & Hn). auto.
    + destruct (Hdead i p t0 He0 Hd0) as [H1 Hch]. split; [done|]. intros j q u Hu.
      destruct (Horig j q u Hu) as (u0 & Hu0 & [->| ->] & _); [by eapply Hch|congruence].
Qed.

(** Closing files does not touch the process table. *)
Class CloseTree `{!Env} : Prop :=
  vfs_close_tree : forall k f r k', vfs_close k f = Ok (r, k') -> tree_eq k k'.

Lemma tree_eq_filps k h : tree_eq k (k <| filps := h |>).
Proof. destruct (tree_eq_refl k) as [T S B]. by split. Qed.

Lemma close_all_tree `{!Env} `{!CloseTree} fs : forall k k', close_all k fs = Ok k' -> tree_eq k k'.
Proof.
  induction fs as [|[a|] fs IH]; intros k k' E; cbn [close_all] in E.
  - by injection E as <-.
  - bind_inv E as rk Hr. transitivity (snd rk); [|by apply IH]. unfold __file_dec_ref in Hr.
    bind_inv Hr as f Hf. destruct (0 <? _).
    + injection Hr as <-. apply tree_eq_filps.
    + bind_inv Hr as rk2 Hv. destruct rk2 as [r2 k2]. injection Hr as <-. cbn [snd].
      transitivity (k <| filps := <[a := f <| refer ::= fun r => r - 1 |>]> (filps k) |>);
        [apply tree_eq_filps|]. transitivity k2; [by eapply vfs_close_tree|apply tree_eq_filps].
  - by apply IH.
Qed.

Lemma collect_tree `{!Env} `{!CloseTree} k target opt r k' :
  kern_ok k -> tree_ok k -> wait_collect k target opt = Ok (r, k') -> tree_ok k'.
Proof.
  intros Hok Htr E. unfold wait_collect in E. destruct (Z.eqb_spec target (-1)) as [|Ht1].
  { by injection E as _ <-. }
  bind_inv E as e He. apply aget_Ok in He as [Htg He]. bind_inv E as p Hp.
  destruct e as [p'|]; [injection Hp as ->|done]. bind_inv E as chd Hchd. apply get_task_Ok in Hchd.
  bind_inv E as k1 Hk1.
  assert (tree_eq k k1) as E1 by (by eapply (tree_eq_set k p (fun t => t <| retval := WNOSTATUS |>) chd)).
  bind_inv E as k2 Hk2. injection E as _ <-.
  destruct ((Z.land opt WNOWAIT =? 0) && bool_decide (stat chd = TASK_DIE)) eqn:Eb;
    [|injection Hk2 as <-; by eapply tree_ok_eq].
  apply andb_true_iff in Eb as [_ Eb]. apply bool_decide_eq_true_1 in Eb.
  bind_inv Hk2 as k3 Hk3. injection Hk2 as <-.
  assert (tree_eq k k3) as E3.
  { transitivity k1; [done|]. unfold task_destroy in Hk3. bind_inv Hk3 as t3 Ht3. bind_inv Hk3 as u Hu.
    by apply close_all_tree in Hk3. }
  destruct (tr_dead _ Htr target p chd) as [Hne1 Hnoch]; [by split_and!|done|].
  pose proof (tree_ok_eq _ _ E3 Htr) as [Hp3 Hi3 Hd3]. pose proof (te_table _ _ E3) as ET.
  (* the entries left *)
  assert (forall i q t, entry (k3 <| table := <[Z.to_nat target := None]> (table k3) |>) i q t ->
    i <> target /\ entry k3 i q t) as Hent.
  { intros i q t (Hi & Htab & Ht). cbn in Htab. destruct (decide (i = target)) as [->|Hne].
    - rewrite list_lookup_insert_eq in Htab; [done|]. rewrite ET. by eapply lookup_lt_Some.
    - rewrite list_lookup_insert_ne in Htab by lia. done. }
  assert (forall i, i <> target -> occupied k3 i ->
    occupied (k3 <| table := <[Z.to_nat target := None]> (table k3) |>) i) as Hocc.
  { intros i Hne [Hi Ho]. split; [done|]. cbn. by rewrite list_lookup_insert_ne by lia. }
  split.
  - intros i q t Ht. destruct (Hent _ _ _ Ht) as [Hne Ht']. apply Hocc; [|by eapply Hp3].
    destruct (tree_eq_entry _ _ _ _ _ E3 Ht') as (t0 & Ht0 & _ & -> & _). eauto.
  - by apply Hocc.
  - intros i q t Ht Hdie. destruct (Hent _ _ _ Ht) as [_ Ht']. destruct (Hd3 i q t Ht' Hdie) as [Hi1 Hch].
    split; [done|]. intros j u v Hv. eapply Hch. by apply Hent.
Qed.

Lemma getfree_loop_spec tb : forall i, 0 <= i ->
  getfree_loop tb i = -1 \/ (i <= getfree_loop tb i /\ tb !! Z.to_nat (getfree_loop tb i - i) = Some None).
Proof.
  induction tb as [|[p|] tb IH]; intros i Hi; cbn [getfree_loop]; [by left| |].
  - destruct (IH (i + 1) ltac:(lia)) as [->|[Hle Hl]]; [by left|right]. split; [lia|].
    replace (Z.to_nat (getfree_loop tb (i + 1) - i)) with (S (Z.to_nat (getfree_loop tb (i + 1) - (i + 1)))) by lia.
    done.
  - right. split; [lia|]. by rewrite Z.sub_diag.
Qed.

Lemma fork_tree `{!Env} k prt p r k' :
  fork_ready k prt p -> stat p <> TASK_DIE -> tree_ok k -> task_fork k = Ok (r, k') -> tree_ok k'.
Proof.
  intros Hr Hnd [Hpar Hinit Hdead] E.
  pose proof (fork_slot k prt _ (fr_cur _ _ _ Hr) E) as Hslot.
  pose proof (total_inv _ _ _ (task_fork_spec k prt p Hr Hslot) E) as (-> & ET & Hc & Ho & _).
  pose proof (fr_inv _ _ _ Hr) as Hk.
  destruct (getfree_loop_spec (table k) 0 ltac:(lia)) as [E1|[_ Hfree]]; fold (_getfree k) in *; [lia|].
  rewrite Z.sub_0_r in Hfree. set (s := _getfree k) in *.
  assert (entry k (_curr k) prt p /\ pid p = _curr k) as [Hep Epid].
  { destruct (entry_of k (_curr k) prt (ki_ok _ Hk)) as (p' & Hep & Hpid);
      [apply (ki_ok _ Hk)|apply (fr_cur _ _ _ Hr)|]. pose proof Hep as (_ & _ & Hp').
    rewrite (fr_prt _ _ _ Hr) in Hp'. by injection Hp' as <-. }
  assert (forall i, occupied k i -> i <> s /\ occupied k' i) as Hocc.
  { intros i [Hi [q Hq]]. assert (i <> s) by (intros ->; by rewrite Hfree in Hq). split; [done|].
    split; [done|]. rewrite ET, list_lookup_insert_ne by lia. eauto. }
  assert (forall i q t, entry k' i q t -> (i = s /\ t = forked_child k p) \/ entry k i q t) as Hent.
  { intros i q t (Hi & Htab & Ht). rewrite ET in Htab. destruct (decide (i = s)) as [->|Hne].
    - rewrite list_lookup_insert_eq in Htab by (by eapply lookup_lt_Some). injection Htab as <-. left. split; congruence.
    - rewrite list_lookup_insert_ne in Htab by lia. right. split_and!; [done|done|]. rewrite <- Ho; [done|].
      intros ->. destruct (ok_ptr _ (ki_ok _ Hk) _ _ Hi Htab) as (u & Hu & _). by rewrite (fr_fresh _ _ _ Hr) in Hu. }
  assert (occupied k (_curr k)) as Hcur.
  { destruct Hep as (H0' & Htab & _). split; [done|]. rewrite Htab. by exists prt. }
  split.
  - intros i q t He. destruct (Hent _ _ _ He) as [[-> ->] | He0].
    + cbn. rewrite Epid. by apply Hocc.
    + eapply Hocc, Hpar, He0.
  - by apply Hocc.
  - intros i q t He Hd. destruct (Hent _ _ _ He) as [[-> ->] | He0]; [done|].
    destruct (Hdead i q t He0 Hd) as [H1 Hch]. split; [done|]. intros j u v Hv.
    destruct (Hent _ _ _ Hv) as [[-> ->] | Hv0]; [|by eapply Hch]. cbn. rewrite Epid. intros Ei.
    rewrite Ei in Hep. by destruct (entry_fun _ _ _ _ _ _ Hep He0) as [-> ->].
Qed.

(** C21: the process tree stays well formed: after a fork, an exit or a wait that collects a
    child, every task's parent is still in the table (so the unchecked [table[tsk->ppid]] is
    never null), process 1 is present, and no task has a dead parent. *)
Theorem process_tree_preserved `{!Env} `{!CloseTree} k c t :
  kern_inv k -> tree_ok k -> stp_ok k -> task_current k = Some c -> entry k (_curr k) c t ->
  stat t = TASK_RUN ->
  (forall r k', fork_ready k c t -> task_fork k = Ok (r, k') -> tree_ok k') /\
  (forall val k', task_exit_pre k val = Ok k' -> tree_ok k') /\
  (forall target opt r k', wait_collect k target opt = Ok (r, k') -> tree_ok k').
Proof.
  intros Hk Htr Hst Hc He Hs. split_and!.
  - intros r k' Hr E. eapply fork_tree; [exact Hr|congruence|done|exact E].
  - intros val k' E. eapply exit_tree; eauto.
  - intros target opt r k' E. eapply collect_tree; [apply Hk|done|exact E].
Qed.

(** A checker for concrete states without dead or stopped tasks. *)
Definition tree_okb (k : kern) : bool :=
  entries_all k (fun _ t => (0 <=? ppid t) && bool_decide (is_Some (mjoin (table k !! Z.to_nat (ppid t)))) &&
                            negb (bool_decide (stat t = TASK_DIE))) &&
  bool_decide (is_Some (mjoin (table k !! 1%nat))) &&
  bool_decide (map_Forall (fun _ t => stat t <> TASK_STP) (tasks k)).

Lemma tree_okb_ok k : kern_ok k -> tree_okb k = true -> tree_ok k /\ stp_ok k.
Proof.
  intros Hok H. unfold tree_okb in H. bool_facts. apply bool_decide_eq_true_1 in H0, H1. split; [split|].
  - intros i p t He. pose proof (entries_all_spec k _ Hok H i p t He) as Hb. cbn in Hb. bool_facts.
    repeat match goal with Hx : bool_decide _ = true |- _ => apply bool_decide_eq_true_1 in Hx end.
    split; [lia|done].
  - split; [lia|done].
  - intros i p t He Hd. pose proof (entries_all_spec k _ Hok H i p t He) as Hb. cbn in Hb. by rewrite (bool_decide_eq_true_2 _ Hd), andb_false_r in Hb.
  - intros p t Ht Hs. by apply (H0 p t Ht) in Hs.
Qed.

Lemma process_tree_preserved_witness :
  exists k', @task_exit_pre idle_env (demo_kern 2 [demo_task 0 0 TASK_PRE; demo_task 1 0 TASK_PRE;
               demo_task 2 1 TASK_RUN; demo_task 3 2 TASK_BLK]) 256 = Ok k' /\ tree_ok k'.
Proof.
  set (k := demo_kern 2 _). assert (kern_ok k) as Hok by (apply kern_okb_ok; vm_compute; reflexivity).
  destruct (tree_okb_ok k Hok) as [Htr Hst]; [vm_compute; reflexivity|].
  eexists. split; [vm_compute; reflexivity|].
  refine (proj1 (proj2 (@process_tree_preserved idle_env _ k 300 (demo_task 2 1 TASK_RUN) _ Htr Hst _ _ _)) 256 _ _).
  - intros k1 f r k2 [= _ <-]. reflexivity.
  - apply kern_idleb_inv. vm_compute. reflexivity.
  - vm_compute. reflexivity.
  - split; [vm_compute; discriminate|]. split; vm_compute; reflexivity.
  - reflexivity.
  - vm_compute. reflexivity.
Defined.
