(* ===== verification/SigFrame.v ===== *)
(** * Running signal handlers ([kernel/signal.c], [arch/x86_64/cpu.h])

    [__handle_signal] saves the interrupted context in a frame on the user stack;
    [sigreturn] restores it.  User memory is a map from addresses to such frames. *)
From Stdlib Require Import ZArith Lia List Bool.
From stdpp Require Import base list gmap.
From S2P Require Import Prelude Dlist Ktimer Task Signal Proc.

#[local] Open Scope Z_scope.

(** [intr_frame_t] *)
Record regs := Regs {
  r15 : Z; r14 : Z; r13 : Z; r12 : Z; r11 : Z; r10 : Z; r9 : Z; r8 : Z;
  rdi : Z; rsi : Z; rbp : Z; rdx : Z; rcx : Z; rbx : Z; rax : Z;
  vector : Z; errcode : Z; rip : Z; cs : Z; rflags : Z; rsp : Z; ss : Z }.

#[export] Instance eta_regs : Eta regs := fun r =>
  Regs (r15 r) (r14 r) (r13 r) (r12 r) (r11 r) (r10 r) (r9 r) (r8 r) (rdi r) (rsi r) (rbp r)
    (rdx r) (rcx r) (rbx r) (rax r) (vector r) (errcode r) (rip r) (cs r) (rflags r) (rsp r) (ss r).

(** [signal_frame_t]; the registers are copied field by field. *)
Record signal_frame := SigFrame {
  restorer : Z; signum : Z; sigprv : Z; fmask : Z; sysret : bool; syscall : Z; fregs : regs }.

(** [sizeof(signal_frame_t)]: five words and 22 registers; below it the red zone is kept. *)
Definition sizeof_signal_frame : Z := 216.
Definition RED_ZONE : Z := 128.

Definition SIG_DFL : Z := 0.
Definition SIG_IGN : Z := 1.
Definition SA_RESTART : Z := 0x10000000.
Definition SA_NODEFER : Z := 0x40000000.
Definition SA_RESETHAND : Z := 0x80000000.

(** The default actions: [sig_term] and [sig_core] exit, the others return. *)
Inductive defact := Term | Core | Ignore | Stop | Cont.

(** [sig_def]: 32 entries, the ones without initialiser are NULL. *)
Definition sig_def : list (option defact) :=
  [None; Some Term; Some Term; Some Core; Some Core; Some Core; Some Core; Some Core; Some Core;
   None; Some Term; Some Core; Some Term; Some Term; Some Term; Some Term; None; Some Ignore;
   Some Cont; None; Some Stop; Some Stop; Some Stop; Some Ignore; Some Core; Some Core;
   Some Term; Some Term; Some Ignore; Some Ignore; Some Term; Some Core].

(** What [__handle_signal] ends with: a return to user mode with these registers and this
    user memory, or the exit of the task. *)
Inductive outcome :=
| Resume (k : kern) (iframe : regs) (mem : gmap Z signal_frame)
| Exited_to (k : kern).

(** The signals [__handle_signal] looks at, in order, from number [i] on. *)
Fixpoint first_pending (n : nat) (i set : Z) : option Z :=
  match n with
  | O => None
  | S n => if sigismember set i =? 1 then Some i else first_pending n (i + 1) set
  end.

(** The part of the loop body that runs the user's handler [act] for signal [i]. *)
Definition push_frame (k : kern) (c i : Z) (act : sigaction_t) (iframe : regs)
    (mem : gmap Z signal_frame) (nr sframe_rax : Z) : res outcome :=
  let! tsk := get_task k c in
  let handler := sa_handler act in
  let! acts := (if negb (Z.land (sa_flags act) SA_RESETHAND =? 0)
                then aset (sigacts tsk) (i - 1) (act <| sa_handler := SIG_DFL |>) else Ok (sigacts tsk)) in
  let blk := if negb (Z.land (Z.lnot (sa_flags act)) SA_NODEFER =? 0) then sigaddset (sa_mask act) i
             else sa_mask act in
  let sys := if 0 <=? nr then
               (if (sframe_rax =? u64 (- EINTR)) && negb (Z.land (sa_flags act) SA_RESTART =? 0)
                then nr else -1)
             else -1 in
  let frame := u64 (rsp iframe - sizeof_signal_frame - RED_ZONE) in
  let f := SigFrame (sa_restorer act) i (sigcurr tsk) (sigmask tsk) (0 <=? nr) sys iframe in
  let! k := set_task k c (fun t => t <| sigacts := acts |> <| sigcurr := i |>
                                     <| sigmask := Z.lor (sigmask t) blk |>) in
  Ok (Resume k (iframe <| rdi := i |> <| rip := handler |> <| rsp := frame |>) (<[frame := f]> mem)).

(** [sframe_rax] is [tsk->sframe->rax], the result of the system call left. *)
Definition __handle_signal `{!Env} (k : kern) (iframe : regs) (mem : gmap Z signal_frame)
    (nr sframe_rax : Z) : res outcome :=
  let! c := current k in
  let! k := set_task k c (fun t => t <| sigpend ::= fun s => Z.land s (Z.lnot (sigmask t)) |>) in
  let! tsk := get_task k c in
  if sigpend tsk =? 0 then Ok (Resume k iframe mem)
  else if sigismember (sigpend tsk) SIGKILL =? 1 then
    let! k := task_exit k (make_stat_signal SIGKILL false) in Ok (Exited_to k)
  else
    match first_pending 64 1 (sigpend tsk) with
    | None => Ok (Resume k iframe mem)
    | Some i =>
        let! k := set_task k c (fun t => t <| sigpend ::= fun s => sigdelset s i |>) in
        let! tsk := get_task k c in
        let! act := aget (sigacts tsk) (i - 1) in
        if sa_handler act =? SIG_IGN then Ok (Resume k iframe mem)
        else if sa_handler act =? SIG_DFL then
          let! d := aget sig_def i in
          let! d := deref d in
          match d with
          | Term | Core => let! k := task_exit k (make_stat_signal i false) in Ok (Exited_to k)
          | Ignore | Stop | Cont => Ok (Resume k iframe mem)
          end
        else push_frame k c i act iframe mem nr sframe_rax
    end.

(** [sigreturn]: the frame below the stack pointer is checked and its context resumed. *)
Definition USER_CS : Z := Z.lor (Z.shiftl 5 3) 3.
Definition USER_SS : Z := Z.lor (Z.shiftl 4 3) 3.

Definition sys_sigreturn (k : kern) (user_rsp : Z) (mem : gmap Z signal_frame) : res (kern * regs) :=
  let! c := current k in
  let! tsk := get_task k c in
  let! frame := deref (mem !! u64 (user_rsp - 8)) in
  if negb (signum frame =? sigcurr tsk) then Fault Panicked
  else if negb (cs (fregs frame) =? USER_CS) || negb (ss (fregs frame) =? USER_SS) then Fault Panicked
  else if negb (Z.land (Z.lnot (rflags (fregs frame))) (Z.shiftl 1 9) =? 0) then Fault Panicked
  else
    let! k := set_task k c (fun t => t <| sigcurr := sigprv frame |> <| sigmask := fmask frame |>) in
    let iframe := fregs frame in
    Ok (k, if 0 <=? syscall frame then iframe <| rip := u64 (rip iframe - 2) |> <| rax := u64 (syscall frame) |>
           else iframe).

(** ** The other signal system calls, on the calling task *)

Definition sys_sigaction (tsk : task) (signum : Z) (act : option sigaction_t) : res (Z * option sigaction_t * task) :=
  if (signum <=? 0) || (_NSIG <=? signum) then Ok (- EINVAL, None, tsk)
  else if (signum =? SIGKILL) || (signum =? SIGSTOP) then Ok (- EINVAL, None, tsk)
  else
    let! old := aget (sigacts tsk) (signum - 1) in
    match act with
    | None => Ok (0, Some old, tsk)
    | Some act => let! l := aset (sigacts tsk) (signum - 1) act in Ok (0, Some old, tsk <| sigacts := l |>)
    end.

Definition SIG_BLOCK : Z := 0.
Definition SIG_UNBLOCK : Z := 1.
Definition SIG_SETMASK : Z := 2.

Definition sys_sigprocmask (tsk : task) (how : Z) (set : option Z) : Z * Z * task :=
  let oset := sigmask tsk in
  match set with
  | None => (0, oset, tsk)
  | Some s =>
      (0, oset,
       if how =? SIG_BLOCK then tsk <| sigmask ::= fun m => Z.lor m s |>
       else if how =? SIG_UNBLOCK then tsk <| sigmask ::= fun m => Z.land m (Z.lnot s) |>
       else if how =? SIG_SETMASK then tsk <| sigmask := s |>
       else tsk)
  end.

(** [sigsuspend]: its argument is not used. *)
Definition sys_sigsuspend `{!Env} (k : kern) (mask : option Z) : res (Z * kern) :=
  let! c := current k in
  let! tsk := get_task k c in
  let oldmask := sigmask tsk in
  let! rk := task_block k None None TASK_BLK 0 in
  let '(ret, k) := rk in
  let! k := set_task k c (fun t => t <| sigmask := oldmask |>) in
  Ok (ret, k).

(** ** Theorems *)

Lemma current_Ok k c : task_current k = Some c -> current k = Ok c.
Proof. unfold current. by intros ->. Qed.

Lemma set_current k c t f :
  task_current k = Some c -> tasks k !! c = Some t ->
  exists k', set_task k c f = Ok k' /\ task_current k' = Some c /\ tasks k' !! c = Some (f t).
Proof.
  intros Hc Ht. rewrite (set_task_Ok _ _ _ _ Ht). eexists. split; [reflexivity|].
  split; [done|]. cbn. by rewrite lookup_insert_eq.
Qed.

(** The pending signals that are not blocked. *)
Definition deliverable (t : task) : Z := Z.land (sigpend t) (Z.lnot (sigmask t)).

(** The signals looked at when there is something to deliver. *)
Lemma handle_signal_head `{!Env} k c t iframe mem nr sr :
  task_current k = Some c -> tasks k !! c = Some t -> deliverable t <> 0 ->
  sigismember (deliverable t) SIGKILL <> 1 ->
  exists k1, task_current k1 = Some c /\
    tasks k1 !! c = Some (t <| sigpend := deliverable t |>) /\
    __handle_signal k iframe mem nr sr =
    match first_pending 64 1 (deliverable t) with
    | None => Ok (Resume k1 iframe mem)
    | Some i =>
        let! k := set_task k1 c (fun t => t <| sigpend ::= fun s => sigdelset s i |>) in
        let! tsk := get_task k c in
        let! act := aget (sigacts tsk) (i - 1) in
        if sa_handler act =? SIG_IGN then Ok (Resume k iframe mem)
        else if sa_handler act =? SIG_DFL then
          let! d := aget sig_def i in
          let! d := deref d in
          match d with
          | Term | Core => let! k := task_exit k (make_stat_signal i false) in Ok (Exited_to k)
          | Ignore | Stop | Cont => Ok (Resume k iframe mem)
          end
        else push_frame k c i act iframe mem nr sr
    end.
Proof.
  intros Hc Ht Hd Hk. unfold __handle_signal. rewrite (current_Ok _ _ Hc). cbn [res_bind].
  destruct (set_current k c t (fun t => t <| sigpend ::= fun s => Z.land s (Z.lnot (sigmask t)) |>) Hc Ht)
    as (k1 & -> & Hc1 & Ht1). cbn [res_bind]. unfold get_task at 1. rewrite Ht1. cbn [deref res_bind].
  change (sigpend (t <| sigpend ::= fun s => Z.land s (Z.lnot (sigmask t)) |>)) with (deliverable t).
  rewrite (proj2 (Z.eqb_neq _ _) Hd), (proj2 (Z.eqb_neq _ _) Hk). by exists k1.
Qed.

(** The frame a handler call leaves on the user stack. *)
Definition handler_frame (t : task) (i : Z) (act : sigaction_t) (iframe : regs) (nr sr : Z) : signal_frame :=
  SigFrame (sa_restorer act) i (sigcurr t) (sigmask t) (0 <=? nr)
    (if 0 <=? nr then
       (if (sr =? u64 (- EINTR)) && negb (Z.land (sa_flags act) SA_RESTART =? 0) then nr else -1)
     else -1) iframe.

Definition frame_addr (iframe : regs) : Z := u64 (rsp iframe - sizeof_signal_frame - RED_ZONE).

Lemma push_frame_spec k c t i act iframe mem nr sr :
  task_current k = Some c -> tasks k !! c = Some t ->
  0 <= i - 1 < Z.of_nat (length (sigacts t)) ->
  exists k' t', push_frame k c i act iframe mem nr sr
    = Ok (Resume k' (iframe <| rdi := i |> <| rip := sa_handler act |> <| rsp := frame_addr iframe |>)
            (<[frame_addr iframe := handler_frame t i act iframe nr sr]> mem)) /\
    task_current k' = Some c /\ tasks k' !! c = Some t' /\ sigcurr t' = i.
Proof.
  intros Hc Ht Hi. unfold push_frame, get_task at 1. rewrite Ht. cbn [deref res_bind].
  assert (exists acts, (if negb (Z.land (sa_flags act) SA_RESETHAND =? 0)
    then aset (sigacts t) (i - 1) (act <| sa_handler := SIG_DFL |>) else Ok (sigacts t)) = Ok acts) as [acts ->].
  { destruct (negb _); [rewrite aset_lt by done|]; eauto. }
  cbn [res_bind].
  match goal with |- context [set_task k c ?f] => destruct (set_current k c t f Hc Ht) as (k' & -> & Hc' & Ht') end.
  cbn [res_bind]. eexists k', _. split; [reflexivity|]. split; [done|]. split; [exact Ht'|done].
Qed.

Lemma sigreturn_spec k c t a mem f :
  task_current k = Some c -> tasks k !! c = Some t -> mem !! u64 (a - 8) = Some f ->
  signum f = sigcurr t -> cs (fregs f) = USER_CS -> ss (fregs f) = USER_SS ->
  Z.land (Z.lnot (rflags (fregs f))) 512 = 0 ->
  exists k' t', sys_sigreturn k a mem
    = Ok (k', if 0 <=? syscall f
              then (fregs f) <| rip := u64 (rip (fregs f) - 2) |> <| rax := u64 (syscall f) |> else fregs f) /\
    tasks k' !! c = Some t' /\ sigmask t' = fmask f /\ sigcurr t' = sigprv f.
Proof.
  intros Hc Ht Hm Hs Hcs Hss Hfl. unfold sys_sigreturn. rewrite (current_Ok _ _ Hc). cbn [res_bind].
  unfold get_task. rewrite Ht. cbn [deref res_bind]. rewrite Hm. cbn [deref res_bind].
  rewrite Hs, Hcs, Hss, !Z.eqb_refl. cbn [negb orb]. change (Z.shiftl 1 9) with 512. rewrite Hfl. cbn [negb Z.eqb].
  destruct (set_current k c t (fun t => t <| sigcurr := sigprv f |> <| sigmask := fmask f |>) Hc Ht)
    as (k' & -> & _ & Ht'). cbn [res_bind]. eexists k', _. split; [reflexivity|]. split; [exact Ht'|done].
Qed.

(** C19: a signal handler is transparent: delivering the lowest pending unblocked signal to its
    handler passes the signal number and, when the handler returns through [sigreturn], gives
    back every register, the signal mask and the previous signal; an interrupted system call
    whose handler asked for a restart is re-issued instead. *)
Theorem handler_roundtrip `{!Env} k c t iframe mem nr sr i act :
  task_current k = Some c -> tasks k !! c = Some t ->
  deliverable t <> 0 -> sigismember (deliverable t) SIGKILL <> 1 ->
  first_pending 64 1 (deliverable t) = Some i -> 1 <= i ->
  sigacts t !! Z.to_nat (i - 1) = Some act -> sa_handler act <> SIG_IGN -> sa_handler act <> SIG_DFL ->
  cs iframe = USER_CS -> ss iframe = USER_SS -> Z.land (Z.lnot (rflags iframe)) 512 = 0 ->
  exists k1 fr mem1 k2 t2 out, __handle_signal k iframe mem nr sr = Ok (Resume k1 fr mem1) /\
    rdi fr = i /\ rip fr = sa_handler act /\
    sys_sigreturn k1 (rsp fr + 8) mem1 = Ok (k2, out) /\
    tasks k2 !! c = Some t2 /\ sigmask t2 = sigmask t /\ sigcurr t2 = sigcurr t /\
    out = if (0 <=? nr) && ((sr =? u64 (- EINTR)) && negb (Z.land (sa_flags act) SA_RESTART =? 0))
          then iframe <| rip := u64 (rip iframe - 2) |> <| rax := u64 nr |> else iframe.
Proof.
  intros Hc Ht Hd Hk Hf Hi Hact Hign Hdfl Hcs Hss Hfl.
  destruct (handle_signal_head k c t iframe mem nr sr Hc Ht Hd Hk) as (k1 & Hc1 & Ht1 & ->). rewrite Hf.
  destruct (set_current k1 c _ (fun t => t <| sigpend ::= fun s => sigdelset s i |>) Hc1 Ht1)
    as (k2 & -> & Hc2 & Ht2). cbn [res_bind]. unfold get_task at 1. rewrite Ht2. cbn [deref res_bind].
  change (sigacts (_ <| sigpend ::= _ |>)) with (sigacts t).
  rewrite (proj2 (aget_Ok (sigacts t) (i - 1) act)) by (split; [lia|done]). cbn [res_bind].
  rewrite (proj2 (Z.eqb_neq _ _) Hign), (proj2 (Z.eqb_neq _ _) Hdfl).
  apply lookup_lt_Some in Hact as Hlen.
  destruct (push_frame_spec k2 c _ i act iframe mem nr sr Hc2 Ht2) as (k3 & t3 & -> & Hc3 & Ht3 & Hs3);
    [change (sigacts (_ <| sigpend ::= _ |>)) with (sigacts t); lia|].
  set (f := handler_frame _ i act iframe nr sr).
  destruct (sigreturn_spec k3 c t3 (frame_addr iframe + 8) (<[frame_addr iframe := f]> mem) f Hc3 Ht3)
    as (k4 & t4 & E4 & Ht4 & Hm4 & Hs4); try done.
  { replace (frame_addr iframe + 8 - 8) with (frame_addr iframe) by lia. unfold frame_addr at 1.
    rewrite wrap_wrap. apply lookup_insert_eq. }
  eexists k3, _, _, k4, t4, _. split; [reflexivity|]. split; [reflexivity|]. split; [reflexivity|].
  split; [exact E4|]. split_and!; [done|by rewrite Hm4|by rewrite Hs4|]. cbn.
  destruct (Z.leb_spec 0 nr) as [Hn|Hn]; cbn [andb]; [|done].
  destruct ((sr =? u64 (- EINTR)) && negb (Z.land (sa_flags act) SA_RESTART =? 0)); [|done].
  by rewrite (proj2 (Z.leb_le 0 nr) Hn).
Qed.

(** An interrupted user context. *)
Definition demo_regs : regs := Regs 15 14 13 12 11 10 9 8 7 6 5 4 3 2 (u64 (- EINTR)) 0x81 0 4096 USER_CS 512 8192 USER_SS.

(** Init with SIGINT pending and a restarting handler at address 64. *)
Definition sig_demo : kern :=
  demo_kern 1 [demo_task 0 0 TASK_PRE;
    (demo_task 1 0 TASK_RUN) <| sigpend := 2 |>
      <| sigacts := <[1%nat := SigAction 64 SA_RESTART 0 0]> (replicate 64 blank_sigaction) |>].

Lemma handler_roundtrip_witness :
  exists k1 fr mem1 k2 out, @__handle_signal idle_env sig_demo demo_regs ∅ 7 (u64 (- EINTR)) = Ok (Resume k1 fr mem1) /\
    sys_sigreturn k1 (rsp fr + 8) mem1 = Ok (k2, out) /\ rip out = 4094 /\ rax out = 7.
Proof.
  destruct (@handler_roundtrip idle_env sig_demo 200
    ((demo_task 1 0 TASK_RUN) <| sigpend := 2 |>
      <| sigacts := <[1%nat := SigAction 64 SA_RESTART 0 0]> (replicate 64 blank_sigaction) |>)
    demo_regs ∅ 7 (u64 (- EINTR)) 2 (SigAction 64 SA_RESTART 0 0))
    as (k1 & fr & mem1 & k2 & t2 & out & H1 & _ & _ & H2 & _ & _ & _ & Ho);
    [vm_compute; (reflexivity || discriminate) .. |].
  exists k1, fr, mem1, k2, out. subst out. split_and!; [done|done|reflexivity|reflexivity].
Defined.

(** a signal that arrives while it is blocked is lost: on the way back to user mode the
    blocked ones are removed from the pending set instead of being kept, SIGKILL included. *)
Theorem blocked_signals_discarded `{!Env} k c t iframe mem nr sr :
  task_current k = Some c -> tasks k !! c = Some t -> deliverable t = 0 ->
  exists k' t', __handle_signal k iframe mem nr sr = Ok (Resume k' iframe mem) /\
    tasks k' !! c = Some t' /\ sigpend t' = 0 /\ sigmask t' = sigmask t.
Proof.
  intros Hc Ht Hd. unfold __handle_signal. rewrite (current_Ok _ _ Hc). cbn [res_bind].
  destruct (set_current k c t (fun t => t <| sigpend ::= fun s => Z.land s (Z.lnot (sigmask t)) |>) Hc Ht)
    as (k1 & -> & Hc1 & Ht1). cbn [res_bind]. unfold get_task at 1. rewrite Ht1. cbn [deref res_bind].
  change (sigpend (t <| sigpend ::= fun s => Z.land s (Z.lnot (sigmask t)) |>)) with (deliverable t).
  rewrite Hd. cbn. exists k1. eexists. split; [reflexivity|]. split; [exact Ht1|]. done.
Qed.

(** A process that has blocked every signal survives SIGKILL. *)
Lemma blocked_signals_discarded_witness :
  let t := (demo_task 1 0 TASK_RUN) <| sigpend := sig_bit SIGKILL |> in
  let t := snd (sys_sigprocmask t SIG_SETMASK (Some (2 ^ 64 - 1))) in
  let k := demo_kern 1 [demo_task 0 0 TASK_PRE; t] in
  exists k' t', @__handle_signal idle_env k demo_regs ∅ (-1) 0 = Ok (Resume k' demo_regs ∅) /\
    tasks k' !! 200 = Some t' /\ sigpend t' = 0.
Proof.
  intros t1 t k.
  destruct (@blocked_signals_discarded idle_env k 200 t demo_regs ∅ (-1) 0) as (k' & t' & H1 & H2 & H3 & _);
    [vm_compute; reflexivity .. |]. exists k', t'. done.
Defined.

(** a pending signal with the default action whose entry in the table of default actions is
    missing makes the kernel call a null pointer (SIGSTKFLT and SIGSTOP), or one
    beyond the table (the real-time signals, 32 and up). *)
Theorem default_action_missing `{!Env} k c t iframe mem nr sr i act :
  task_current k = Some c -> tasks k !! c = Some t ->
  deliverable t <> 0 -> sigismember (deliverable t) SIGKILL <> 1 ->
  first_pending 64 1 (deliverable t) = Some i ->
  sigacts t !! Z.to_nat (i - 1) = Some act -> sa_handler act = SIG_DFL ->
  (i = 16 \/ i = SIGSTOP -> __handle_signal k iframe mem nr sr = Fault NullDeref) /\
  (32 <= i <= _NSIG -> __handle_signal k iframe mem nr sr = Fault OutOfBounds).
Proof.
  intros Hc Ht Hd Hk Hf Hact Hdfl.
  destruct (handle_signal_head k c t iframe mem nr sr Hc Ht Hd Hk) as (k1 & Hc1 & Ht1 & ->). rewrite Hf.
  destruct (set_current k1 c _ (fun t => t <| sigpend ::= fun s => sigdelset s i |>) Hc1 Ht1)
    as (k2 & -> & Hc2 & Ht2). cbn [res_bind]. unfold get_task. rewrite Ht2. cbn [deref res_bind].
  change (sigacts (_ <| sigpend ::= _ |>)) with (sigacts t).
  assert (1 <= i -> aget (sigacts t) (i - 1) = Ok act) as Hg by (intros; apply aget_Ok; split; [lia|done]).
  split.
  - intros Hi. rewrite Hg by (unfold SIGSTOP in Hi; lia). cbn [res_bind]. rewrite Hdfl.
    destruct Hi as [-> | ->]; reflexivity.
  - intros Hi. rewrite Hg by lia. cbn [res_bind]. rewrite Hdfl. cbn.
    unfold aget. replace (0 <=? i) with true by lia.
    by rewrite lookup_ge_None_2 by (cbn; lia).
Qed.

(** A process that is stopped, continued, and returns to user mode twice. *)
Definition stopped_twice : kern :=
  let k := demo_kern 1 [demo_task 0 0 TASK_PRE; demo_task 1 0 TASK_RUN; demo_task 2 1 TASK_PRE] in
  let step (f : kern -> res (Z * kern)) k := match f k with Ok (_, k) => k | Fault _ => k end in
  let k := step (fun k => @sys_kill idle_env k 2 SIGSTOP) k in
  let k := step (fun k => @sys_kill idle_env k 2 SIGCONT) k in
  let k := k <| _curr := 2 |> in
  match @__handle_signal idle_env k demo_regs ∅ (-1) 0 with Ok (Resume k _ _) => k | _ => k end.

Lemma default_action_missing_witness :
  @__handle_signal idle_env stopped_twice demo_regs ∅ (-1) 0 = Fault NullDeref.
Proof.
  destruct (tasks stopped_twice !! 300) as [t|] eqn:Et; [|vm_compute in Et; discriminate Et].
  refine (proj1 (@default_action_missing idle_env stopped_twice 300 t demo_regs ∅ (-1) 0 19 blank_sigaction
    _ Et _ _ _ _ _) _); try (vm_compute in Et; injection Et as <-; vm_compute; (reflexivity || discriminate)).
  all: first [right; reflexivity|vm_compute; reflexivity].
Defined.
