(* ===== verification/Heap.v ===== *)
(** * The kernel heap: [kernel/mm/heap.c]

    Blocks carry their size and an allocation bit in a header and a footer word.
    The heap is the memory of 32-bit words by address, and the three pointers of
    [Heap_t]; the theorems relate it to a list of blocks. *)
From Stdlib Require Import ZArith Lia List Bool.
From stdpp Require Import base list gmap.
From S2P Require Import Prelude.

#[local] Open Scope Z_scope.

(** [_heap], with the words of the mapped heap area. *)
Record heap := Heap { h_brk : Z; h_root : Z; h_max : Z; h_mem : gmap Z Z }.

#[export] Instance eta_heap : Eta heap := fun h => Heap (h_brk h) (h_root h) (h_max h) (h_mem h).

Definition kern_heap_base : Z := 0xffff810000000000.
Definition HEAP_ORIG : Z := 1.

Definition SIZ (blk : Z) : Z := Z.shiftr (u32 blk) 3.

Definition ALOC (blk : Z) : Z := Z.land (u32 blk) 1.

Definition SET (siz aloc : Z) : Z := Z.lor (Z.shiftl siz 3) (Z.land aloc 1).

(** A word of the heap area; [PUT] truncates to the 32-bit [block_t]. *)
Definition rd (h : heap) (a : Z) : res Z :=
  match h_mem h !! a with Some w => Ok w | None => Fault OutOfBounds end.

Definition PUT (h : heap) (a v : Z) : res heap :=
  if (kern_heap_base <=? a) && (a + 4 <=? h_max h)
  then Ok (h <| h_mem := <[a := u32 v]> (h_mem h) |>) else Fault OutOfBounds.

Definition PAYLOAD (hdr : Z) : Z := hdr + 4.

Definition _ALIGN (num alignment : Z) : Z :=
  Z.land (u64 (num + alignment - 1)) (Z.lnot (alignment - 1)).

Definition heap_init : res heap :=
  let h := Heap 0 0 (kern_heap_base + HEAP_ORIG * PAGE_SIZ) ∅ in
  let hp := kern_heap_base in
  let! h := PUT h (hp + 0) (SET 0 0) in
  let! h := PUT h (hp + 4) (SET 8 1) in
  let! h := PUT h (hp + 8) (SET 8 1) in
  let! h := PUT h (hp + 12) (SET 0 1) in
  Ok (h <| h_root := hp + 12 |> <| h_brk := hp + 12 |>).

Definition sbrk (h : heap) (siz : Z) : Z * heap :=
  let h := h <| h_brk ::= fun b => u64 (b + _ALIGN siz 8) |> in
  (u64 (h_brk h - siz), h).

Definition _merge (h : heap) (hdr : Z) : res heap :=
  let! w := rd h hdr in
  let ftr := hdr + SIZ w - 4 in
  let prev_ftr := hdr - 4 in
  let next_hdr := ftr + 4 in
  let! nh := rd h next_hdr in
  let! h := (if (ALOC nh =? 0) && negb (SIZ nh =? 0) then
               let next_ftr := next_hdr + (SIZ nh - 4) in
               let! nf := rd h next_ftr in
               do! ASSERTK (nh =? nf) in
               let! w := rd h hdr in
               let! h := PUT h hdr (SET (u32 (SIZ w + SIZ nh)) 0) in
               let! w := rd h hdr in
               PUT h next_ftr w
             else Ok h) in
  let! pf := rd h prev_ftr in
  if (ALOC pf =? 0) && negb (SIZ pf =? 0) then
    let prev_hdr := hdr - SIZ pf in
    let! ph := rd h prev_hdr in
    do! ASSERTK (ph =? pf) in
    let! w := rd h hdr in
    let! h := PUT h prev_hdr (SET (u32 (SIZ ph + SIZ w)) 0) in
    let! ph := rd h prev_hdr in
    PUT h (prev_hdr + (SIZ ph - 4)) ph
  else Ok h.

(** [vmm_phyauto] backs the new pages; it does not return when it cannot. *)
Definition _extend_heap (h : heap) (siz : Z) : res heap :=
  let siz := _ALIGN siz 8 in
  let diff := i64 (h_brk h + siz - h_max h) in
  let h := if 0 <? diff then h <| h_max ::= fun m => m + DIV_ROUND_UP diff PAGE_SIZ * PAGE_SIZ |> else h in
  let '(hdr, h) := sbrk h siz in
  let! h := PUT h hdr (SET siz 0) in
  let! h := PUT h (hdr + siz - 4) (SET siz 0) in
  let! h := PUT h (hdr + siz) (SET 0 1) in
  _merge h hdr.

(** The search of [malloc] from the block at [curr]. *)
Fixpoint malloc_loop (fuel : nat) (h : heap) (siz curr : Z) : res (Z * heap) :=
  match fuel with
  | O => Fault OutOfFuel
  | S fuel =>
      let! w := rd h curr in
      if (ALOC w =? 0) && (siz <? SIZ w) then
        let! h := PUT h (curr + (SIZ w - 4)) (SET (u64 (SIZ w - siz)) 0) in
        let! h := PUT h (curr + siz) (SET (u64 (SIZ w - siz)) 0) in
        let! h := PUT h curr (SET siz 1) in
        let! h := PUT h (curr + (siz - 4)) (SET siz 1) in
        Ok (PAYLOAD curr, h)
      else if (ALOC w =? 0) && (SIZ w =? siz) then
        let! h := PUT h curr (SET siz 1) in
        let! w := rd h curr in
        let! h := PUT h (curr + (SIZ w - 4)) w in
        Ok (PAYLOAD curr, h)
      else
        let next := curr + SIZ w in
        if negb (next <? h_brk h) then
          let! h := _extend_heap h siz in
          malloc_loop fuel h siz curr
        else malloc_loop fuel h siz next
  end.

(** A search visits each block once; extending the heap adds at most three steps. *)
Definition malloc (fuel : nat) (h : heap) (siz : Z) : res (option Z * heap) :=
  if siz =? 0 then Ok (None, h)
  else
    let siz := _ALIGN (u64 (siz + 4 * 2)) 8 in
    let! r := malloc_loop fuel h siz (h_root h) in
    Ok (Some (fst r), snd r).

Definition free (h : heap) (addr : option Z) : res heap :=
  match addr with
  | None => Ok h
  | Some addr =>
      if h_max h <? addr then Ok h
      else
        let hdr := addr - 4 in
        let! w := rd h hdr in
        let ftr := hdr + SIZ w - 4 in
        let! f := rd h ftr in
        if negb (w =? f) then Ok h
        else
          do! ASSERTK (negb (ALOC w =? 0)) in
          let! h := PUT h hdr (SET (SIZ w) 0) in
          let! f := rd h ftr in
          let! h := PUT h ftr (SET (SIZ f) 0) in
          _merge h hdr
  end.

(** [realloc]: besides the block, how many bytes [memcpy] moved, if it ran. *)
Definition realloc (fuel : nat) (h : heap) (addr : option Z) (newsiz : Z) : res (option Z * Z * heap) :=
  match addr with
  | None => let! r := malloc fuel h newsiz in Ok (fst r, 0, snd r)
  | Some a =>
      if newsiz =? 0 then let! h := free h addr in Ok (None, 0, h)
      else
        let! w := rd h (a - 4) in
        let siz := SIZ w in
        if newsiz <=? siz then Ok (addr, 0, h)
        else
          let! r := malloc fuel h newsiz in
          let! h := free (snd r) addr in
          Ok (fst r, siz, h)
  end.

(** [calloc]: the block and how many of its bytes [memset] clears. *)
Definition calloc (fuel : nat) (h : heap) (siz : Z) : res (option Z * Z * heap) :=
  let! r := malloc fuel h siz in
  match fst r with
  | None => Ok (None, 0, snd r)
  | Some _ => Ok (fst r, siz, snd r)
  end.

(** ** Words *)

Lemma SET_spec s al : 0 <= s -> SET s al = 8 * s + al mod 2.
Proof.
  intros Hs. unfold SET. change 1 with (Z.ones 1). rewrite Z.land_ones by lia.
  pose proof (Z.add_lor_land (Z.shiftl s 3) (al mod 2 ^ 1)) as E.
  assert (Z.land (Z.shiftl s 3) (al mod 2 ^ 1) = 0) as Hz.
  { assert (al mod 2 ^ 1 = 0 \/ al mod 2 ^ 1 = 1) as [-> | ->]
      by (pose proof (Z.mod_pos_bound al (2 ^ 1) ltac:(lia)); change (2 ^ 1) with 2 in *; lia).
    - apply Z.land_0_r.
    - change 1 with (Z.ones 1). rewrite Z.land_ones, Z.shiftl_mul_pow2 by lia. change (2 ^ 1) with 2.
      change (2 ^ 3) with (4 * 2). rewrite Z.mul_assoc. apply Z.mod_mul. lia. }
  rewrite Z.shiftl_mul_pow2 in * by lia. change (2 ^ 3) with 8 in *. change (2 ^ 1) with 2 in *. lia.
Qed.

(** Sizes a header can hold. *)
Definition fits (s : Z) : Prop := 0 <= s < 2 ^ 29.

Lemma u32_SET s al : fits s -> u32 (SET s al) = SET s al.
Proof.
  unfold fits. intros. rewrite SET_spec by lia. apply wrap_small.
  pose proof (Z.mod_pos_bound al 2 ltac:(lia)). lia.
Qed.

Lemma SIZ_SET s al : fits s -> SIZ (SET s al) = s.
Proof.
  intros Hs. unfold SIZ. rewrite u32_SET, SET_spec, Z.shiftr_div_pow2 by (done || unfold fits in Hs; lia).
  pose proof (Z.mod_pos_bound al 2 ltac:(lia)). unfold fits in Hs.
  change (2 ^ 3) with 8. replace (8 * s + al mod 2) with (al mod 2 + s * 8) by lia.
  rewrite Z.div_add by lia. rewrite Z.div_small by lia. lia.
Qed.

Lemma ALOC_SET s al : fits s -> ALOC (SET s al) = al mod 2.
Proof.
  intros Hs. unfold ALOC. rewrite u32_SET, SET_spec by (done || unfold fits in Hs; lia).
  change 1 with (Z.ones 1). rewrite Z.land_ones by lia. change (2 ^ 1) with 2.
  replace (8 * s + al mod 2) with (al mod 2 + (4 * s) * 2) by lia. rewrite Z.mod_add by lia.
  apply Z.mod_mod. lia.
Qed.

Lemma SET_inj s s' al al' : fits s -> fits s' -> SET s al = SET s' al' -> s = s' /\ al mod 2 = al' mod 2.
Proof.
  intros Hs Hs' E. split.
  - rewrite <- (SIZ_SET s al), <- (SIZ_SET s' al') by done. by rewrite E.
  - rewrite <- (ALOC_SET s al), <- (ALOC_SET s' al') by done. by rewrite E.
Qed.

Lemma ALIGN8 n : 0 <= n < 2 ^ 64 - 8 -> _ALIGN n 8 = 8 * ((n + 7) / 8).
Proof.
  intros Hn. unfold _ALIGN. rewrite wrap_small by lia. replace (n + 8 - 1) with (n + 7) by lia.
  change (8 - 1) with (Z.ones 3). rewrite <- Z.ldiff_land, Z.ldiff_ones_r by lia.
  rewrite Z.shiftl_mul_pow2, Z.shiftr_div_pow2 by lia. change (2 ^ 3) with 8. lia.
Qed.

Lemma ALIGN8_id n : 0 <= n < 2 ^ 64 - 8 -> (8 | n) -> _ALIGN n 8 = n.
Proof.
  intros Hn [m ->]. rewrite ALIGN8 by done. replace (m * 8 + 7) with (7 + m * 8) by lia.
  rewrite Z.div_add by lia. rewrite Z.div_small by lia. lia.
Qed.

(** ** The list of blocks a heap holds *)

Definition block : Type := Z * bool.

Definition tag (s : Z) (al : bool) : Z := SET s (Z.b2z al).

Definition tot (bs : list block) : Z := fold_right (fun b n => fst b + n) 0 bs.

(** The blocks [bs] follow each other from address [a] on, headers and footers in place. *)
Fixpoint seg (m : gmap Z Z) (a : Z) (bs : list block) : Prop :=
  match bs with
  | [] => True
  | (s, al) :: bs => 8 <= s /\ (8 | s) /\ m !! a = Some (tag s al) /\ m !! (a + s - 4) = Some (tag s al) /\
      seg m (a + s) bs
  end.

(** The largest heap the theorems speak of: 256 MiB, half of what a header can express. *)
Definition HEAP_LIMIT : Z := 2 ^ 28.

Record heap_wf (h : heap) (bs : list block) : Prop := {
  hw_root : h_root h = kern_heap_base + 12;
  hw_prologue : h_mem h !! (kern_heap_base + 8) = Some (tag 8 true);
  hw_seg : seg (h_mem h) (h_root h) bs;
  hw_brk : h_brk h = h_root h + tot bs;
  hw_epilogue : h_mem h !! h_brk h = Some (tag 0 true);
  hw_max : h_brk h + 4 <= h_max h <= h_brk h + PAGE_SIZ;
  hw_page : (8 | h_max h);
  hw_limit : tot bs < HEAP_LIMIT }.

(** No two neighbouring blocks are both free; [pf] says whether the block before is. *)
Fixpoint co (pf : bool) (bs : list block) : Prop :=
  match bs with
  | [] => True
  | (_, al) :: bs => (pf = true -> al = true) /\ co (negb al) bs
  end.

Definition coalesced (bs : list block) : Prop := co false bs.

(** The allocated blocks, each with its address and size. *)
Fixpoint allocs (a : Z) (bs : list block) : list (Z * Z) :=
  match bs with
  | [] => []
  | (s, al) :: bs => (if al then [(a, s)] else []) ++ allocs (a + s) bs
  end.

Definition heap_ok (h : heap) (bs : list block) : Prop := heap_wf h bs /\ coalesced bs.

Lemma tot_app l1 l2 : tot (l1 ++ l2) = tot l1 + tot l2.
Proof. induction l1 as [|b l1 IH]; cbn; [done|]. unfold tot in IH. rewrite IH. unfold tot. lia. Qed.

Lemma seg_tot m a bs : seg m a bs -> 0 <= tot bs /\ (8 | tot bs).
Proof.
  revert a. induction bs as [|[s al] bs IH]; intros a; cbn; [split; [lia|by exists 0]|].
  intros (Hs & Hd & _ & _ & H). destruct (IH _ H) as [H1 H2]. unfold tot in *. split; [lia|].
  by apply Z.divide_add_r.
Qed.

Lemma seg_app m a l1 l2 : seg m a (l1 ++ l2) <-> seg m a l1 /\ seg m (a + tot l1) l2.
Proof.
  revert a. induction l1 as [|[s al] l1 IH]; intros a; cbn [seg app].
  - change (tot []) with 0. rewrite Z.add_0_r. tauto.
  - change (tot ((s, al) :: l1)) with (s + tot l1). rewrite IH, Z.add_assoc. tauto.
Qed.

Lemma seg_frame m m' a bs :
  (forall x, a <= x < a + tot bs -> m' !! x = m !! x) -> seg m a bs -> seg m' a bs.
Proof.
  revert a. induction bs as [|[s al] bs IH]; intros a Hf; cbn [seg]; [done|].
  intros (Hs & Hd & H1 & H2 & H). pose proof (seg_tot _ _ _ H) as [Ht _].
  change (tot ((s, al) :: bs)) with (s + tot bs) in Hf.
  split_and!; [done|done|rewrite Hf; [done|lia]|rewrite Hf; [done|lia]|].
  apply IH; [|done]. intros x Hx. apply Hf. lia.
Qed.

(** The memory between two blocks may be rewritten. *)
Lemma wf_replace h l1 mid mid' l2 m' :
  heap_wf h (l1 ++ mid ++ l2) -> tot mid' = tot mid ->
  (forall x, ~ (h_root h + tot l1 <= x < h_root h + tot l1 + tot mid) -> m' !! x = h_mem h !! x) ->
  seg m' (h_root h + tot l1) mid' ->
  heap_wf (h <| h_mem := m' |>) (l1 ++ mid' ++ l2).
Proof.
  intros [Hr Hp Hs Hb He Hm Hpg Hl] Et Hf Hs'. rewrite !tot_app in *.
  apply seg_app in Hs as [Hs1 Hs]. apply seg_app in Hs as [Hsm Hs2].
  pose proof (seg_tot _ _ _ Hs1) as [T1 _]. pose proof (seg_tot _ _ _ Hsm) as [Tm _].
  pose proof (seg_tot _ _ _ Hs2) as [T2 _].
  split; cbn; rewrite ?tot_app, ?Et; try done.
  - rewrite Hf; [done|]. lia.
  - apply seg_app. split; [eapply seg_frame; [|exact Hs1]; intros; apply Hf; lia|].
    apply seg_app. split; [done|]. rewrite Et. eapply seg_frame; [|exact Hs2]. intros; apply Hf; lia.
  - rewrite Hf; [done|]. lia.
Qed.

Section at_block.
Variables (h : heap) (l1 : list block) (s : Z) (al : bool) (l2 : list block).
Hypothesis Hwf : heap_wf h (l1 ++ (s, al) :: l2).
Let a := h_root h + tot l1.

Lemma at_facts :
  8 <= s /\ (8 | s) /\ fits s /\ kern_heap_base + 12 <= a /\ a + s <= h_brk h /\
  h_mem h !! a = Some (tag s al) /\ h_mem h !! (a + s - 4) = Some (tag s al) /\
  h_brk h = a + s + tot l2 /\ 0 <= tot l1 /\ 0 <= tot l2.
Proof.
  destruct Hwf as [Hr Hp Hs Hb He Hm Hpg Hl]. apply seg_app in Hs as [Hs1 Hs].
  cbn [seg] in Hs. destruct Hs as (H8 & Hd & H1 & H2 & Hs2).
  pose proof (seg_tot _ _ _ Hs1) as [T1 _]. pose proof (seg_tot _ _ _ Hs2) as [T2 _].
  rewrite tot_app in *. change (tot ((s, al) :: l2)) with (s + tot l2) in *.
  unfold fits, a, HEAP_LIMIT in *. split_and!; try done; lia.
Qed.

Lemma rd_hdr : rd h a = Ok (tag s al).
Proof. unfold rd. destruct at_facts as (_ & _ & _ & _ & _ & -> & _). done. Qed.

Lemma rd_ftr : rd h (a + s - 4) = Ok (tag s al).
Proof. unfold rd. destruct at_facts as (_ & _ & _ & _ & _ & _ & -> & _). done. Qed.

(** The word after the block: the next header, or the epilogue. *)
Lemma rd_next : rd h (a + s) = Ok (match l2 with [] => tag 0 true | (s2, al2) :: _ => tag s2 al2 end).
Proof.
  destruct at_facts as (_ & _ & _ & _ & _ & _ & _ & Hb & _). unfold rd. destruct l2 as [|[s2 al2] l3].
  - cbn in Hb. rewrite Z.add_0_r in Hb. rewrite <- Hb. by rewrite (hw_epilogue _ _ Hwf).
  - destruct Hwf as [_ _ Hs _ _ _ _ _]. apply seg_app in Hs as [_ Hs]. cbn [seg] in Hs.
    destruct Hs as (_ & _ & _ & _ & _ & _ & H & _). fold a in H. by rewrite H.
Qed.

(** The word before the block: the previous footer, or the prologue's. *)
Lemma rd_prev : rd h (a - 4) = Ok (match last l1 with None => tag 8 true | Some (s1, al1) => tag s1 al1 end).
Proof.
  unfold rd, a. destruct l1 as [|[s1 al1] l0 _] using rev_ind.
  - cbn. replace (h_root h + 0 - 4) with (kern_heap_base + 8) by (rewrite (hw_root _ _ Hwf); lia).
    by rewrite (hw_prologue _ _ Hwf).
  - rewrite last_snoc, tot_app. destruct Hwf as [_ _ Hs _ _ _ _ _]. rewrite <- app_assoc in Hs.
    apply seg_app in Hs as [_ Hs]. cbn [seg app] in Hs. destruct Hs as (_ & _ & _ & H & _).
    cbn. replace (h_root h + (tot l0 + (s1 + 0)) - 4) with (h_root h + tot l0 + s1 - 4) by lia. by rewrite H.
Qed.
End at_block.

(** Writing the header and the footer of one block over a stretch of blocks. *)
Lemma write_block h l1 mid l2 s al :
  heap_wf h (l1 ++ mid ++ l2) -> tot mid = s -> 8 <= s ->
  let a := h_root h + tot l1 in
  exists h1 h2, PUT h a (tag s al) = Ok h1 /\ PUT h1 (a + s - 4) (tag s al) = Ok h2 /\
    PUT h (a + s - 4) (tag s al) = Ok (h <| h_mem := <[a + s - 4 := tag s al]> (h_mem h) |>) /\
    h1 = h <| h_mem := <[a := tag s al]> (h_mem h) |> /\
    h2 = h <| h_mem := <[a + s - 4 := tag s al]> (<[a := tag s al]> (h_mem h)) |> /\
    heap_wf h2 (l1 ++ (s, al) :: l2).
Proof.
  intros Hwf Et Hs a. pose proof Hwf as [Hr Hp Hseg Hb He Hm Hpg Hl]. rewrite !tot_app, Et in *.
  apply seg_app in Hseg as [Hs1 Hseg]. apply seg_app in Hseg as [Hsm Hs2].
  pose proof (seg_tot _ _ _ Hs1) as [T1 _]. pose proof (seg_tot _ _ _ Hsm) as [Tm Td].
  pose proof (seg_tot _ _ _ Hs2) as [T2 _]. unfold HEAP_LIMIT in Hl.
  assert (u32 (tag s al) = tag s al) as Hu by (apply u32_SET; unfold fits; lia).
  assert (forall h', h_max h' = h_max h -> forall x, a <= x <= a + s - 4 ->
    PUT h' x (tag s al) = Ok (h' <| h_mem := <[x := tag s al]> (h_mem h') |>)) as HPUT.
  { intros h' Em x Hx. unfold PUT. subst a.
    replace ((kern_heap_base <=? x) && (x + 4 <=? h_max h')) with true by lia. by rewrite Hu. }
  exists (h <| h_mem := <[a := tag s al]> (h_mem h) |>),
    (h <| h_mem := <[a + s - 4 := tag s al]> (<[a := tag s al]> (h_mem h)) |>).
  split_and!; [apply HPUT; [reflexivity|lia]| |apply HPUT; [reflexivity|lia]|reflexivity|reflexivity|].
  { pose proof (HPUT (h <| h_mem := <[a := tag s al]> (h_mem h) |>)) as HP.
    rewrite HP by (reflexivity || lia). reflexivity. }
  apply (wf_replace h l1 mid [(s, al)] l2); [done|cbn; lia| |].
  - intros x Hx. fold a in Hx. rewrite !lookup_insert_ne by lia. done.
  - fold a. cbn [seg]. split_and!; [done|by rewrite <- Et| |by rewrite lookup_insert_eq|done].
    destruct (decide (a + s - 4 = a)) as [->|]; [by rewrite lookup_insert_eq|].
    by rewrite lookup_insert_ne, lookup_insert_eq.
Qed.

Lemma SIZ_tag s al : fits s -> SIZ (tag s al) = s.
Proof. apply SIZ_SET. Qed.

Lemma ALOC_tag s al : fits s -> (ALOC (tag s al) =? 0) = negb al.
Proof. intros. unfold tag. rewrite ALOC_SET by done. by destruct al. Qed.

(** ** Merging a free block with its neighbours *)

Definition merge_next (s : Z) (l2 : list block) : Z * list block :=
  match l2 with
  | (s2, false) :: l3 => (s + s2, l3)
  | _ => (s, l2)
  end.

Definition merge_prev (l1 : list block) (s : Z) : list block :=
  match last l1 with
  | Some (s1, false) => removelast l1 ++ [(s1 + s, false)]
  | _ => l1 ++ [(s, false)]
  end.

Definition merged (l1 : list block) (s : Z) (l2 : list block) : list block :=
  merge_prev l1 (fst (merge_next s l2)) ++ snd (merge_next s l2).

(** Only the words of the heap differ. *)
Definition same_ptrs (h h' : heap) : Prop :=
  h_brk h' = h_brk h /\ h_root h' = h_root h /\ h_max h' = h_max h.

Lemma merge_next_spec h l1 s l2 :
  heap_wf h (l1 ++ (s, false) :: l2) ->
  let hdr := h_root h + tot l1 in
  total (let! nh := rd h (hdr + s) in
         if (ALOC nh =? 0) && negb (SIZ nh =? 0) then
           let next_ftr := hdr + s + (SIZ nh - 4) in
           let! nf := rd h next_ftr in
           do! ASSERTK (nh =? nf) in
           let! w := rd h hdr in
           let! h := PUT h hdr (SET (u32 (SIZ w + SIZ nh)) 0) in
           let! w := rd h hdr in
           PUT h next_ftr w
         else Ok h)
    (fun h' => heap_wf h' (l1 ++ (fst (merge_next s l2), false) :: snd (merge_next s l2)) /\ same_ptrs h h').
Proof.
  intros Hwf hdr. subst hdr. rewrite (rd_next _ _ _ _ _ Hwf). cbn [res_bind].
  set (hdr := h_root h + tot l1).
  pose proof (at_facts _ _ _ _ _ Hwf) as (H8 & Hd & Hfit & Hlo & Hhi & Hw & _ & Hb & T1 & T2).
  fold hdr in Hlo, Hhi, Hw, Hb.
  destruct l2 as [|[s2 [|]] l3]; cbn [merge_next fst snd].
  - by apply total_Ok.
  - assert (fits s2) as Hf2.
    { rewrite cons_middle, app_assoc in Hwf. apply (at_facts _ _ _ _ _ Hwf). }
    rewrite ALOC_tag by done. by apply total_Ok.
  - pose proof Hwf as Hwf2. rewrite cons_middle, app_assoc in Hwf2.
    pose proof (at_facts _ _ _ _ _ Hwf2) as (H82 & Hd2 & Hf2 & _).
    pose proof (rd_ftr _ _ _ _ _ Hwf2) as Hftr. rewrite tot_app in Hftr. cbn [tot fold_right fst] in Hftr.
    rewrite ALOC_tag, SIZ_tag by done. cbn [negb andb]. replace (s2 =? 0) with false by lia. cbn [negb].
    replace (hdr + s + (s2 - 4)) with (h_root h + (tot l1 + (s + 0)) + s2 - 4) by (subst hdr; lia).
    rewrite Hftr. cbn [res_bind]. rewrite Z.eqb_refl. cbn [ASSERTK res_bind].
    unfold rd at 1. rewrite Hw. cbn [res_bind]. rewrite SIZ_tag by done.
    destruct (write_block h l1 [(s, false); (s2, false)] l3 (s + s2) false) as (h1 & h2 & E1 & E2 & _ & -> & -> & Hwf');
      [done|cbn; lia|lia|]. fold hdr in E1, E2.
    assert (tot l1 + (s + (s2 + tot l3)) < HEAP_LIMIT) as Hlim
      by (pose proof (hw_limit _ _ Hwf) as Hl; rewrite tot_app in Hl; exact Hl).
    assert (0 <= tot l3) as T3.
    { pose proof (hw_seg _ _ Hwf') as Hs. apply seg_app in Hs as [_ Hs]. cbn [seg] in Hs.
      destruct Hs as (_ & _ & _ & _ & Hs). apply seg_tot in Hs. apply Hs. }
    unfold HEAP_LIMIT in Hlim.
    rewrite (wrap_small 32 (s + s2)) by lia. change (SET (s + s2) 0) with (tag (s + s2) false).
    rewrite E1. cbn [res_bind]. unfold rd. cbn [h_mem upd]. rewrite lookup_insert_eq. cbn [res_bind].
    replace (h_root h + (tot l1 + (s + 0)) + s2 - 4) with (hdr + (s + s2) - 4) by (subst hdr; lia).
    rewrite E2. apply total_Ok. split; [exact Hwf'|done].
Qed.

Lemma merge_prev_spec h l1 s l2 :
  heap_wf h (l1 ++ (s, false) :: l2) ->
  let hdr := h_root h + tot l1 in
  total (let! pf := rd h (hdr - 4) in
         if (ALOC pf =? 0) && negb (SIZ pf =? 0) then
           let prev_hdr := hdr - SIZ pf in
           let! ph := rd h prev_hdr in
           do! ASSERTK (ph =? pf) in
           let! w := rd h hdr in
           let! h := PUT h prev_hdr (SET (u32 (SIZ ph + SIZ w)) 0) in
           let! ph := rd h prev_hdr in
           PUT h (prev_hdr + (SIZ ph - 4)) ph
         else Ok h)
    (fun h' => heap_wf h' (merge_prev l1 s ++ l2) /\ same_ptrs h h').
Proof.
  intros Hwf hdr. subst hdr. rewrite (rd_prev _ _ _ _ _ Hwf). cbn [res_bind].
  set (hdr := h_root h + tot l1).
  pose proof (at_facts _ _ _ _ _ Hwf) as (H8 & Hd & Hfit & Hlo & Hhi & Hw & _ & Hb & T1 & T2).
  fold hdr in Hlo, Hhi, Hw, Hb.
  unfold merge_prev. destruct l1 as [|[s1 al1] l0 _] using rev_ind.
  { cbn [last]. rewrite ALOC_tag by (unfold fits; lia). by apply total_Ok. }
  rewrite last_snoc. rewrite <- app_assoc in Hwf. cbn [app] in Hwf.
  pose proof (at_facts _ _ _ _ _ Hwf) as (H81 & Hd1 & Hf1 & _ & _ & _ & _ & _ & T0 & T3).
  rewrite ALOC_tag, SIZ_tag by done. destruct al1; cbn [negb andb].
  { apply total_Ok. rewrite <- app_assoc. rewrite <- app_assoc. done. }
  replace (s1 =? 0) with false by lia. cbn [negb]. rewrite removelast_last.
  assert (hdr = h_root h + tot l0 + s1) as Eh by (subst hdr; rewrite tot_app; cbn; lia).
  replace (hdr - s1) with (h_root h + tot l0) by lia.
  rewrite (rd_hdr _ _ _ _ _ Hwf). cbn [res_bind]. rewrite Z.eqb_refl. cbn [ASSERTK res_bind].
  unfold rd at 1. rewrite Hw. cbn [res_bind]. rewrite !SIZ_tag by done.
  destruct (write_block h l0 [(s1, false); (s, false)] l2 (s1 + s) false) as (h1 & h2 & E1 & E2 & _ & -> & -> & Hwf');
    [done|cbn; lia|lia|].
  assert (tot l0 + (s1 + (s + tot l2)) < HEAP_LIMIT) as Hlim
    by (pose proof (hw_limit _ _ Hwf) as Hl; rewrite tot_app in Hl; exact Hl).
  unfold HEAP_LIMIT in Hlim.
  rewrite (wrap_small 32 (s1 + s)) by lia. change (SET (s1 + s) 0) with (tag (s1 + s) false).
  rewrite E1. cbn [res_bind]. unfold rd. cbn [h_mem upd]. rewrite lookup_insert_eq. cbn [res_bind].
  rewrite SIZ_tag by (unfold fits; lia).
  replace (h_root h + tot l0 + (s1 + s - 4)) with (h_root h + tot l0 + (s1 + s) - 4) by lia.
  rewrite E2. apply total_Ok. split; [|done]. rewrite <- app_assoc. exact Hwf'.
Qed.

Lemma merge_spec h l1 s l2 :
  heap_wf h (l1 ++ (s, false) :: l2) ->
  total (_merge h (h_root h + tot l1)) (fun h' => heap_wf h' (merged l1 s l2) /\ same_ptrs h h').
Proof.
  intros Hwf. unfold _merge. rewrite (rd_hdr _ _ _ _ _ Hwf). cbn [res_bind].
  rewrite SIZ_tag by apply (at_facts _ _ _ _ _ Hwf). cbv zeta.
  replace (h_root h + tot l1 + s - 4 + 4) with (h_root h + tot l1 + s) by lia.
  destruct (merge_next_spec h l1 s l2 Hwf) as (h1 & E1 & Hwf1 & P1 & P2 & P3).
  destruct (rd h (h_root h + tot l1 + s)) as [nh|] eqn:En; [|done]. cbn [res_bind] in *. cbv zeta in E1.
  rewrite (rd_hdr _ _ _ _ _ Hwf) in E1. cbn [res_bind] in E1.
  rewrite SIZ_tag in E1 by apply (at_facts _ _ _ _ _ Hwf). rewrite E1.
  cbn [res_bind]. pose proof (merge_prev_spec h1 _ _ _ Hwf1) as Hp. rewrite P2 in Hp.
  eapply total_mono; [exact Hp|]. intros h' [Hwf' (Q1 & Q2 & Q3)]. split; [done|]. unfold same_ptrs. intuition congruence.
Qed.

(** ** Allocated blocks *)

Lemma allocs_app a l1 l2 : allocs a (l1 ++ l2) = allocs a l1 ++ allocs (a + tot l1) l2.
Proof.
  revert a. induction l1 as [|[s al] l1 IH]; intros a; cbn [allocs app].
  - change (tot []) with 0. by rewrite Z.add_0_r.
  - change (tot ((s, al) :: l1)) with (s + tot l1). by rewrite IH, Z.add_assoc, app_assoc.
Qed.

Definition endfree (pf : bool) (l : list block) : bool :=
  match last l with None => pf | Some (_, al) => negb al end.

Lemma co_app pf l1 l2 : co pf (l1 ++ l2) <-> co pf l1 /\ co (endfree pf l1) l2.
Proof.
  revert pf. induction l1 as [|[s al] l1 IH]; intros pf; [cbn; tauto|]. cbn [co app].
  rewrite IH. unfold endfree. rewrite last_cons. destruct (last l1) as [[]|]; tauto.
Qed.

Lemma endfree_snoc pf l s al : endfree pf (l ++ [(s, al)]) = negb al.
Proof. unfold endfree. by rewrite last_snoc. Qed.

Lemma merge_next_facts a pf s l2 :
  co pf l2 ->
  a + s + tot l2 = a + fst (merge_next s l2) + tot (snd (merge_next s l2)) /\
  allocs (a + fst (merge_next s l2)) (snd (merge_next s l2)) = allocs (a + s) l2 /\
  co true (snd (merge_next s l2)).
Proof.
  destruct l2 as [|[s2 [|]] l3]; cbn [merge_next fst snd co]; intros Hc; try done.
  - split_and!; [done|done|done|apply Hc].
  - destruct Hc as [_ Hc]. split_and!.
    + change (tot ((s2, false) :: l3)) with (s2 + tot l3). lia.
    + cbn. f_equal. lia.
    + exact Hc.
Qed.

Lemma merge_prev_facts a l1 s :
  coalesced l1 ->
  tot (merge_prev l1 s) = tot l1 + s /\ allocs a (merge_prev l1 s) = allocs a l1 /\
  coalesced (merge_prev l1 s) /\ endfree false (merge_prev l1 s) = true.
Proof.
  unfold merge_prev, coalesced. destruct l1 as [|[s1 al1] l0 _] using rev_ind; intros Hc.
  { cbn. split_and!; [lia|done|done|done|done]. }
  rewrite last_snoc. apply co_app in Hc as [Hc0 Hc1]. cbn in Hc1. destruct al1.
  - rewrite !tot_app, !allocs_app, !co_app, !endfree_snoc. cbn. rewrite app_nil_r.
    split_and!; (done || lia || tauto).
  - rewrite removelast_last, !tot_app, !allocs_app, !co_app, !endfree_snoc. cbn.
    split_and!; (done || lia || tauto).
Qed.

Lemma merged_facts a l1 s l2 pf :
  coalesced l1 -> co pf l2 ->
  tot (merged l1 s l2) = tot l1 + s + tot l2 /\
  allocs a (merged l1 s l2) = allocs a l1 ++ allocs (a + tot l1 + s) l2 /\ coalesced (merged l1 s l2).
Proof.
  intros H1 H2. unfold merged.
  destruct (merge_next_facts (a + tot l1) pf s l2 H2) as (Et & Ea & Hc).
  destruct (merge_prev_facts a l1 (fst (merge_next s l2)) H1) as (Et1 & Ea1 & Hc1 & He).
  rewrite tot_app, allocs_app, Et1, Ea1. split_and!; [lia| |].
  - by rewrite Z.add_assoc, Ea.
  - unfold coalesced. apply co_app. by rewrite He.
Qed.

(** C25: freeing an allocated block removes exactly that block: every other allocated block
    keeps its place and size, the freed space is merged with its free neighbours, and the heap
    stays well formed with no two free blocks side by side. *)
Theorem free_removes_block h l1 s l2 :
  heap_ok h (l1 ++ (s, true) :: l2) ->
  total (free h (Some (PAYLOAD (h_root h + tot l1)))) (fun h' => exists bs',
    heap_ok h' bs' /\ h_brk h' = h_brk h /\
    allocs (h_root h) bs' = allocs (h_root h) l1 ++ allocs (h_root h + tot l1 + s) l2).
Proof.
  intros [Hwf Hco]. set (a := h_root h + tot l1).
  pose proof (at_facts _ _ _ _ _ Hwf) as (H8 & Hd & Hfit & Hlo & Hhi & Hw & Hwf4 & Hb & T1 & T2).
  fold a in Hlo, Hhi, Hw, Hwf4, Hb. pose proof (hw_max _ _ Hwf) as Hm. unfold free, PAYLOAD.
  replace (h_max h <? a + 4) with false by lia. replace (a + 4 - 4) with a by lia.
  unfold rd at 1. rewrite Hw. cbn [res_bind]. rewrite SIZ_tag by done. cbv zeta.
  unfold rd at 1. rewrite Hwf4. cbn [res_bind]. rewrite Z.eqb_refl, ALOC_tag by done. cbn [negb ASSERTK res_bind].
  destruct (write_block h l1 [(s, true)] l2 s false) as (h1 & h2 & E1 & E2 & _ & Eh1 & Eh2 & Hwf2);
    [done|cbn; lia|lia|]. fold a in E1, E2, Eh1, Eh2. change (SET s 0) with (tag s false). rewrite E1. cbn [res_bind].
  assert (rd h1 (a + s - 4) = Ok (if decide (s = 4) then tag s false else tag s true)) as ->.
  { rewrite decide_False by lia. unfold rd. subst h1. cbn. rewrite lookup_insert_ne by lia. by rewrite Hwf4. }
  rewrite decide_False by lia. cbn [res_bind]. rewrite SIZ_tag by done.
  change (SET s 0) with (tag s false). rewrite E2. cbn [res_bind].
  assert (h_root h2 = h_root h) as Er by (by subst h2).
  pose proof (merge_spec h2 l1 s l2 Hwf2) as Hmg. rewrite Er in Hmg. fold a in Hmg.
  apply co_app in Hco as [Hc1 Hc2]. cbn [co] in Hc2. destruct Hc2 as [_ Hc2].
  eapply total_mono; [exact Hmg|]. intros h' [Hwf' (P1 & P2 & P3)]. exists (merged l1 s l2).
  destruct (merged_facts (h_root h) l1 s l2 _ Hc1 Hc2) as (_ & Ea & Hco').
  split_and!; [by split|rewrite P1; by subst h2|done].
Qed.

(** ** Growing the heap *)

Lemma PUT_Ok h a v :
  kern_heap_base <= a -> a + 4 <= h_max h -> PUT h a v = Ok (h <| h_mem := <[a := u32 v]> (h_mem h) |>).
Proof. intros. unfold PUT. by replace ((kern_heap_base <=? a) && (a + 4 <=? h_max h)) with true by lia. Qed.

(** The memory after the three writes of [_extend_heap]. *)
Lemma extend_wf h bs n m :
  heap_wf h bs -> 8 <= n -> (8 | n) -> tot bs + n < HEAP_LIMIT ->
  h_brk h + n + 4 <= m <= h_brk h + n + PAGE_SIZ -> (8 | m) ->
  heap_wf (Heap (h_brk h + n) (h_root h) m
    (<[h_brk h + n := tag 0 true]> (<[h_brk h + n - 4 := tag n false]> (<[h_brk h := tag n false]> (h_mem h)))))
    (bs ++ [(n, false)]).
Proof.
  intros [Hr Hp Hs Hb He Hm Hpg Hl] Hn Hd Hlim Hm' Hpg'. pose proof (seg_tot _ _ _ Hs) as [T _].
  split; cbn [h_root h_mem h_brk h_max]; rewrite ?tot_app; cbn [tot fold_right fst]; try done.
  - rewrite !lookup_insert_ne by lia. done.
  - apply seg_app. split; [eapply seg_frame; [|exact Hs]; intros; by rewrite !lookup_insert_ne by lia|].
    rewrite <- Hb. cbn [seg]. split_and!; [done|done| | |done].
    + rewrite lookup_insert_ne by lia. destruct (decide (n = 4)) as [->|]; [lia|].
      by rewrite lookup_insert_ne, lookup_insert_eq by lia.
    + by rewrite lookup_insert_ne, lookup_insert_eq by lia.
  - lia.
  - by rewrite lookup_insert_eq.
  - lia.
Qed.

Lemma page_round d : 0 < d < 2 ^ 62 -> exists k, DIV_ROUND_UP d PAGE_SIZ * PAGE_SIZ = k /\ d <= k < d + PAGE_SIZ /\ (8 | k).
Proof.
  intros Hd. unfold PAGE_SIZ. rewrite DIV_ROUND_UP_small by lia. eexists. split; [reflexivity|].
  pose proof (Z.div_mod (d + (4096 - 1)) 4096 ltac:(lia)).
  pose proof (Z.mod_pos_bound (d + (4096 - 1)) 4096 ltac:(lia)). split; [lia|].
  exists ((d + (4096 - 1)) / 4096 * 512). lia.
Qed.

Lemma heap_range h bs : heap_wf h bs -> kern_heap_base + 12 <= h_brk h < kern_heap_base + 12 + HEAP_LIMIT.
Proof.
  intros [Hr Hp Hs Hb He Hm Hpg Hl]. pose proof (seg_tot _ _ _ Hs) as [T _]. lia.
Qed.

(** The epilogue lies four bytes off the block grid, so it fits below a page end. *)
Lemma align_gap x m : x mod 8 = 4 -> (8 | m) -> x <= m -> x + 4 <= m.
Proof. intros Hx [q ->] Hle. pose proof (Z.div_mod x 8 ltac:(lia)). lia. Qed.

Lemma extend_spec h bs n :
  heap_wf h bs -> 8 <= n -> (8 | n) -> tot bs + n < HEAP_LIMIT ->
  total (_extend_heap h n) (fun h' => heap_wf h' (merged bs n []) /\ h_root h' = h_root h /\
    h_brk h' = h_brk h + n).
Proof.
  intros Hwf Hn Hd Hlim. pose proof Hwf as [Hr Hp Hs Hb He Hm Hpg Hl].
  pose proof (heap_range _ _ Hwf) as Hrng. pose proof (seg_tot _ _ _ Hs) as [T Td].
  unfold HEAP_LIMIT, kern_heap_base, PAGE_SIZ in *.
  unfold _extend_heap, sbrk. rewrite (ALIGN8_id n) by (done || lia). cbv zeta. rewrite (ALIGN8_id n) by (done || lia).
  (* the mapped area after the first step *)
  set (h0 := if 0 <? i64 (h_brk h + n - h_max h) then _ else h).
  assert (h0 = h <| h_max := h_max h0 |> /\ h_brk h + n + 4 <= h_max h0 <= h_brk h + n + 4096 /\ (8 | h_max h0))
    as (Eh0 & Hmax & Hpg0).
  { assert (i64 (h_brk h + n - h_max h) = h_brk h + n - h_max h) as Ed.
    { apply signed_small; [lia|]. change (2 ^ (64 - 1)) with (2 ^ 63). lia. }
    assert ((h_brk h + n) mod 8 = 4) as Hmod.
    { destruct Hd as [x ->], Td as [y Ty]. rewrite Hb, Hr, Ty.
      replace (0xffff810000000000 + 12 + y * 8 + x * 8) with (4 + (0x1ffff02000000000 + 1 + y + x) * 8) by lia.
      rewrite Z.mod_add by lia. done. }
    subst h0. rewrite Ed. destruct (Z.ltb_spec 0 (h_brk h + n - h_max h)) as [Hpos|Hneg].
    - destruct (page_round (h_brk h + n - h_max h)) as (k & Ek & Hk & Hk8); [unfold PAGE_SIZ in *; lia|].
      unfold PAGE_SIZ in *. rewrite Ek. cbn [h_max upd].
      assert (8 | h_max h + k) as H8 by (by apply Z.divide_add_r). split_and!; [done| | |done].
      + apply align_gap; [done|done|]. cbn. lia.
      + cbn. lia.
    - split_and!; [by destruct h| |lia|done]. apply align_gap; [done|done|lia]. }
  assert (h_brk h0 = h_brk h /\ h_root h0 = h_root h /\ h_mem h0 = h_mem h) as (Eb0 & Er0 & Em0)
    by (rewrite Eh0; done).
  clearbody h0. cbn [h_brk upd].
  change (h_brk (h0 <| h_brk ::= _ |>)) with (u64 (h_brk h0 + n)). rewrite Eb0, (wrap_small 64 (h_brk h + n)) by lia.
  replace (u64 (h_brk h + n - n)) with (h_brk h) by (rewrite wrap_small; lia).
  set (h1 := h0 <| h_brk ::= _ |>).
  assert (h1 = Heap (h_brk h + n) (h_root h) (h_max h0) (h_mem h)) as ->.
  { subst h1. destruct h0. cbn in *. unfold upd. cbn. subst. by rewrite wrap_small by lia. }
  rewrite PUT_Ok by (unfold kern_heap_base; cbn; lia). cbn [res_bind].
  rewrite PUT_Ok by (unfold kern_heap_base; cbn; lia). cbn [res_bind].
  rewrite PUT_Ok by (unfold kern_heap_base; cbn; lia). cbn [res_bind].
  change (SET n 0) with (tag n false). change (SET 0 1) with (tag 0 true).
  assert (fits n) as Hfit by (unfold fits; lia). unfold upd. cbn [h_mem h_brk h_root h_max].
  rewrite (u32_SET n (Z.b2z false) Hfit : u32 (tag n false) = tag n false).
  rewrite (u32_SET 0 (Z.b2z true) ltac:(unfold fits; lia) : u32 (tag 0 true) = tag 0 true).
  pose proof (extend_wf h bs n (h_max h0) Hwf Hn Hd) as Hwf'. unfold HEAP_LIMIT, PAGE_SIZ in Hwf'.
  specialize (Hwf' ltac:(lia) ltac:(lia) Hpg0).
  pose proof (merge_spec _ bs n [] Hwf') as Hmg. cbn [h_root] in Hmg. rewrite <- Hb in Hmg.
  eapply total_mono; [exact Hmg|]. intros h' [Hw' (P1 & P2 & P3)]. done.
Qed.

(** ** Allocating *)

Definition rest_of (s n : Z) (l2 : list block) : list block :=
  if decide (s = n) then l2 else (s - n, false) :: l2.

Lemma rest_facts a s n l2 pf :
  co pf ((s, false) :: l2) -> n <= s ->
  n + tot (rest_of s n l2) = s + tot l2 /\ allocs (a + n) (rest_of s n l2) = allocs (a + s) l2 /\
  co pf ((n, true) :: rest_of s n l2).
Proof.
  cbn [co]. intros [Hpf Hc] Hn. unfold rest_of. destruct (decide (s = n)) as [->|Hne].
  - split_and!; [lia|done|done|]. destruct l2 as [|[s2 al2] l3]; [done|]. cbn in *. tauto.
  - cbn [co allocs negb]. change (tot ((s - n, false) :: l2)) with (s - n + tot l2).
    split_and!; [lia| |done|done|done]. cbn. f_equal. lia.
Qed.

(** Both ways of carving [n] bytes out of the free block at [a]. *)
Lemma carve_spec h l1 s l2 n :
  heap_ok h (l1 ++ (s, false) :: l2) -> 8 <= n <= s -> (8 | n) ->
  let a := h_root h + tot l1 in
  total (let w := tag s false in
         if (ALOC w =? 0) && (n <? SIZ w) then
           let! h := PUT h (a + (SIZ w - 4)) (SET (u64 (SIZ w - n)) 0) in
           let! h := PUT h (a + n) (SET (u64 (SIZ w - n)) 0) in
           let! h := PUT h a (SET n 1) in
           let! h := PUT h (a + (n - 4)) (SET n 1) in
           Ok (PAYLOAD a, h)
         else
           let! h := PUT h a (SET n 1) in
           let! w := rd h a in
           let! h := PUT h (a + (SIZ w - 4)) w in
           Ok (PAYLOAD a, h))
    (fun r => fst r = PAYLOAD a /\ heap_ok (snd r) (l1 ++ (n, true) :: rest_of s n l2) /\ same_ptrs h (snd r)).
Proof.
  intros [Hwf Hco] Hn Hd a. apply co_app in Hco as [Hc1 Hc2].
  destruct (rest_facts a s n l2 _ Hc2 ltac:(lia)) as (_ & _ & Hc2').
  pose proof (at_facts _ _ _ _ _ Hwf) as (H8 & Hds & Hfit & Hlo & Hhi & Hw & _ & Hb & T1 & T2).
  fold a in Hlo, Hhi, Hw, Hb. pose proof (hw_max _ _ Hwf) as Hm. unfold fits in Hfit. cbv zeta.
  rewrite ALOC_tag, SIZ_tag by (unfold fits; lia). cbn [negb andb]. unfold rest_of in *.
  destruct (Z.ltb_spec n s) as [Hlt|Hge].
  - rewrite decide_False in * by lia. rewrite (wrap_small 64 (s - n)) by lia.
    assert (forall x al, fits x -> u32 (SET x (Z.b2z al)) = tag x al) as Hu by (intros; by apply u32_SET).
    change (SET (s - n) 0) with (SET (s - n) (Z.b2z false)). change (SET n 1) with (SET n (Z.b2z true)).
    rewrite PUT_Ok by lia. cbn [res_bind]. rewrite PUT_Ok by (cbn; lia). cbn [res_bind].
    rewrite PUT_Ok by (cbn; lia). cbn [res_bind]. rewrite PUT_Ok by (cbn; lia). cbn [res_bind].
    apply total_Ok. cbn [fst snd]. split; [done|]. split; [|done]. split; [|unfold coalesced; by apply co_app].
    rewrite !Hu by (unfold fits; lia). change (l1 ++ ?x :: ?y :: l2) with (l1 ++ [x; y] ++ l2).
    apply (wf_replace h l1 [(s, false)]); [done|cbn; lia| |]; fold a.
    + change (tot [(s, false)]) with (s + 0). intros x Hx. cbn. rewrite !lookup_insert_ne by lia. done.
    + cbn [seg]. assert (8 | s - n) by (by apply Z.divide_sub_r).
      assert (8 <= s - n) by (destruct H as [q Hq]; lia).
      split_and!; try done; try lia; replace (a + n - 4) with (a + (n - 4)) by lia;
        replace (a + n + (s - n) - 4) with (a + (s - 4)) by lia; cbn -[tag Z.sub Z.add];
        repeat (rewrite lookup_insert_eq || rewrite lookup_insert_ne by lia); done.
  - assert (n = s) as -> by lia. rewrite decide_True in * by done.
    destruct (write_block h l1 [(s, false)] l2 s true) as (h1 & h2 & E1 & E2 & _ & Eh1 & Eh2 & Hwf2);
      [done|cbn; lia|lia|]. fold a in E1, E2, Eh1, Eh2. change (SET s 1) with (tag s true). rewrite E1. cbn [res_bind].
    assert (rd h1 a = Ok (tag s true)) as -> by (unfold rd; subst h1; cbn; by rewrite lookup_insert_eq).
    cbn [res_bind]. rewrite SIZ_tag by (unfold fits; lia). replace (a + (s - 4)) with (a + s - 4) by lia. rewrite E2.
    apply total_Ok. cbn [fst snd]. split; [done|]. split; [|by subst h2]. split; [done|]. unfold coalesced. by apply co_app.
Qed.

(** What a successful search has done to the blocks [bs] it started from. *)
Definition malloc_post (h : heap) (bs : list block) (n : Z) (r : Z * heap) : Prop :=
  exists l1 l2, heap_ok (snd r) (l1 ++ (n, true) :: l2) /\ fst r = PAYLOAD (h_root h + tot l1) /\
    h_root (snd r) = h_root h /\
    allocs (h_root h) l1 ++ allocs (h_root h + tot l1 + n) l2 = allocs (h_root h) bs.

(** A free block that is large enough ends the search. *)
Lemma loop_take h l1 s l2 n fuel :
  heap_ok h (l1 ++ (s, false) :: l2) -> 8 <= n <= s -> (8 | n) ->
  total (malloc_loop (S fuel) h n (h_root h + tot l1)) (malloc_post h (l1 ++ (s, false) :: l2) n).
Proof.
  intros Hok Hn Hd. pose proof Hok as [Hwf Hco]. cbn [malloc_loop].
  rewrite (rd_hdr _ _ _ _ _ Hwf). cbn [res_bind].
  pose proof (at_facts _ _ _ _ _ Hwf) as (_ & _ & Hfit & _).
  pose proof (carve_spec h l1 s l2 n Hok Hn Hd) as Hcv. cbv zeta in Hcv.
  rewrite ALOC_tag, SIZ_tag in * by done. cbn [negb andb] in *.
  apply co_app in Hco as [_ Hc2].
  destruct (rest_facts (h_root h + tot l1) s n l2 _ Hc2 ltac:(lia)) as (_ & Ea & _).
  assert (forall r : Z * heap, r.1 = PAYLOAD (h_root h + tot l1) /\
    heap_ok r.2 (l1 ++ (n, true) :: rest_of s n l2) /\ same_ptrs h r.2 ->
    malloc_post h (l1 ++ (s, false) :: l2) n r) as Hpost.
  { intros r (Hr & Hok' & (_ & Er & _)). exists l1, (rest_of s n l2). split_and!; [done|done|done|].
    rewrite allocs_app. cbn [allocs app]. by rewrite Ea. }
  destruct (Z.ltb_spec n s); [by eapply total_mono|]. replace (s =? n) with true by lia. by eapply total_mono.
Qed.

(** A block that does not fit is passed over... *)
Lemma loop_advance h l1 s al b l2 n fuel :
  heap_wf h (l1 ++ (s, al) :: b :: l2) -> al = true \/ s < n ->
  malloc_loop (S fuel) h n (h_root h + tot l1) = malloc_loop fuel h n (h_root h + tot (l1 ++ [(s, al)])).
Proof.
  intros Hwf Hno. pose proof (at_facts _ _ _ _ _ Hwf) as (H8 & _ & Hfit & _ & _ & _ & _ & Hb & _).
  rewrite (cons_middle (s, al)) in Hwf. rewrite app_assoc in Hwf.
  destruct b as [s2 al2]. pose proof (at_facts _ _ _ _ _ Hwf) as (H82 & _ & _ & _ & _ & _ & _ & _ & _ & T2).
  rewrite <- app_assoc in Hwf. cbn [app] in Hwf. cbn [malloc_loop].
  rewrite (rd_hdr _ _ _ _ _ Hwf). cbn [res_bind]. rewrite ALOC_tag, SIZ_tag by done. cbv zeta.
  change (tot ((s2, al2) :: l2)) with (s2 + tot l2) in Hb.
  replace (negb (h_root h + tot l1 + s <? h_brk h)) with false by lia.
  rewrite tot_app. change (tot [(s, al)]) with (s + 0). replace (tot l1 + (s + 0)) with (tot l1 + s) by lia.
  rewrite Z.add_assoc. destruct Hno as [->|Hno]; [done|].
  replace (n <? s) with false by lia. replace (s =? n) with false by lia. by rewrite !andb_false_r.
Qed.

(** ... and at the end of the heap the search goes on in a larger one. *)
Lemma loop_extend h bs n fuel curr w :
  heap_ok h bs -> 8 <= n -> (8 | n) -> tot bs + n < HEAP_LIMIT ->
  rd h curr = Ok w -> ((ALOC w =? 0) = false \/ SIZ w < n) -> curr + SIZ w = h_brk h ->
  (forall h', heap_ok h' (merged bs n []) -> h_root h' = h_root h ->
     total (malloc_loop fuel h' n curr) (malloc_post h' (merged bs n []) n)) ->
  total (malloc_loop (S fuel) h n curr) (malloc_post h bs n).
Proof.
  intros [Hwf Hco] Hn Hd Hlim Hw Hno Hend Hgo. cbn [malloc_loop]. rewrite Hw. cbn [res_bind].
  replace ((ALOC w =? 0) && (n <? SIZ w)) with false by (destruct Hno as [-> | ?]; [done|lia]).
  replace ((ALOC w =? 0) && (SIZ w =? n)) with false by (destruct Hno as [-> | ?]; [done|lia]).
  cbv zeta. rewrite Hend, Z.ltb_irrefl. cbn [negb].
  eapply total_bind; [exact (extend_spec h bs n Hwf Hn Hd Hlim)|]. intros h' (Hwf' & Er & _).
  destruct (merged_facts (h_root h) bs n [] false Hco I) as (_ & Ea & Hc).
  eapply total_mono; [by apply Hgo|]. intros r (l1 & l2 & Hok & Hp & Err & Eal).
  rewrite Er in *. exists l1, l2. split_and!; [done|done|done|]. rewrite Eal, Ea. cbn. by rewrite app_nil_r.
Qed.

Lemma merged_snoc l1 s al n :
  merged (l1 ++ [(s, al)]) n [] = l1 ++ if al then [(s, true); (n, false)] else [(s + n, false)].
Proof.
  unfold merged, merge_prev. cbn [merge_next fst snd]. rewrite last_snoc, app_nil_r.
  destruct al; [by rewrite <- app_assoc|]. by rewrite removelast_last.
Qed.

(** The search finds or makes room; it looks at each block at most once, then at most twice more. *)
Lemma malloc_loop_spec h n l2 : forall l1 s al fuel,
  heap_ok h (l1 ++ (s, al) :: l2) -> 8 <= n -> (8 | n) -> tot (l1 ++ (s, al) :: l2) + n < HEAP_LIMIT ->
  (length l2 + 3 <= fuel)%nat ->
  total (malloc_loop fuel h n (h_root h + tot l1)) (malloc_post h (l1 ++ (s, al) :: l2) n).
Proof.
  induction l2 as [|b l2 IH]; intros l1 s al [|fuel] Hok Hn Hd Hlim Hf; try (cbn in Hf; lia);
    pose proof Hok as [Hwf _].
  all: destruct (decide (al = false /\ n <= s)) as [[-> Hfit]|Hno]; [by apply loop_take|].
  all: assert (al = true \/ s < n) as Hno' by (destruct al; [by left|right; lia]).
  - pose proof (at_facts _ _ _ _ _ Hwf) as (H8 & _ & Hfit & _ & _ & _ & _ & Hb & _).
    eapply loop_extend; [done|done|done|done|exact (rd_hdr _ _ _ _ _ Hwf)| | |].
    + rewrite ALOC_tag, SIZ_tag by done. destruct Hno' as [->|?]; [by left|by right].
    + rewrite SIZ_tag by done. change (tot []) with 0 in Hb. lia.
    + intros h' Hok' Er. rewrite <- Er. rewrite merged_snoc in *. destruct fuel as [|[|fuel]]; try (cbn in Hf; lia).
      destruct al; [|apply loop_take; [done|lia|done]].
      rewrite (loop_advance h' l1 s true (n, false) [] n) by (by apply Hok' || by left).
      change [(s, true); (n, false)] with ([(s, true)] ++ [(n, false)]) in *. rewrite app_assoc in *.
      apply loop_take; [done|lia|done].
  - rewrite (loop_advance h l1 s al b l2 n fuel Hwf Hno').
    change (l1 ++ (s, al) :: b :: l2) with (l1 ++ [(s, al)] ++ b :: l2) in *. rewrite app_assoc in *.
    destruct b as [s2 al2]. apply IH; [done|done|done|done|]. cbn in Hf. lia.
Qed.

Lemma malloc_search h bs n fuel :
  heap_ok h bs -> 8 <= n -> (8 | n) -> tot bs + n < HEAP_LIMIT -> (length bs + 2 <= fuel)%nat ->
  total (malloc_loop fuel h n (h_root h)) (malloc_post h bs n).
Proof.
  intros Hok Hn Hd Hlim Hf. destruct bs as [|[s al] bs].
  - destruct fuel as [|[|fuel]]; try (cbn in Hf; lia). pose proof Hok as [Hwf _].
    pose proof (hw_brk _ _ Hwf) as Hb. change (tot []) with 0 in Hb.
    eapply (loop_extend h [] n (S fuel) _ (tag 0 true)); [done|done|done|done| |by left| |].
    + unfold rd. replace (h_root h) with (h_brk h) by lia. by rewrite (hw_epilogue _ _ Hwf).
    + change (SIZ (tag 0 true)) with 0. lia.
    + intros h' Hok' Er. replace (h_root h) with (h_root h' + tot []) by (change (tot []) with 0; lia).
      apply (loop_take h' [] n [] n); [done|lia|done].
  - replace (h_root h) with (h_root h + tot []) by (change (tot []) with 0; lia).
    apply (malloc_loop_spec h n bs []); [done|done|done|done|]. cbn [length] in Hf. unfold block in *. lia.
Qed.

(** ** The allocator's contract *)

Lemma allocs_range m a bs b t :
  seg m a bs -> (b, t) ∈ allocs a bs -> a <= b /\ b + t <= a + tot bs.
Proof.
  revert a. induction bs as [|[s al] bs IH]; intros a Hs Hin; [by apply elem_of_nil in Hin|].
  pose proof (seg_tot _ _ _ Hs) as [T _]. cbn [seg] in Hs. destruct Hs as (H8 & Hds & _ & _ & Hs).
  change (tot ((s, al) :: bs)) with (s + tot bs) in *. pose proof (seg_tot _ _ _ Hs) as [T' _].
  cbn [allocs] in Hin. apply elem_of_app in Hin as [Hin|Hin].
  - destruct al; [|by apply elem_of_nil in Hin]. apply list_elem_of_singleton in Hin. simplify_eq. lia.
  - apply (IH (a + s)) in Hin; [|done]. lia.
Qed.

(** C7: [malloc] always returns a block: 8-aligned, with room for the [siz] bytes between its
    header and its footer, and clear of every block allocated before. The blocks allocated
    before stay allocated where they were, and the heap stays well formed and coalesced.  The
    heap stays below 256 MiB. *)
Theorem malloc_fresh_block h bs siz fuel :
  let n := 8 * ((siz + 15) / 8) in
  heap_ok h bs -> 0 < siz -> tot bs + n < HEAP_LIMIT -> (length bs + 2 <= fuel)%nat ->
  total (malloc fuel h siz) (fun r => exists p bs', fst r = Some p /\ heap_ok (snd r) bs' /\
    (8 | p) /\ siz + 8 <= n /\
    allocs (h_root h) bs' ≡ₚ (p - 4, n) :: allocs (h_root h) bs /\
    forall b t, (b, t) ∈ allocs (h_root h) bs -> b + t <= p - 4 \/ p - 4 + n <= b).
Proof.
  intros n Hok Hs Hlim Hf. unfold malloc. replace (siz =? 0) with false by lia.
  pose proof (seg_tot _ _ _ (hw_seg _ _ (proj1 Hok))) as [T _]. unfold HEAP_LIMIT in *.
  assert (siz + 8 <= n <= siz + 15) as Hn.
  { pose proof (Z.div_mod (siz + 15) 8). pose proof (Z.mod_pos_bound (siz + 15) 8). subst n. lia. }
  rewrite wrap_small by lia. rewrite ALIGN8 by lia. cbv zeta.
  replace (8 * ((siz + 4 * 2 + 7) / 8)) with n by (subst n; do 2 f_equal; lia).
  eapply total_bind; [apply (malloc_search h bs n fuel Hok); [lia|by exists ((siz + 15) / 8); lia|done|done]|].
  intros r (l1 & l2 & Hok' & Hp & Er & Eal). apply total_Ok. cbn [fst snd].
  exists (fst r), (l1 ++ (n, true) :: l2). unfold PAYLOAD in Hp.
  replace (fst r - 4) with (h_root h + tot l1) by lia.
  pose proof (hw_seg _ _ (proj1 Hok')) as Hsg. rewrite Er in Hsg. apply seg_app in Hsg as [Hs1 Hs2].
  cbn [seg] in Hs2. destruct Hs2 as (_ & _ & _ & _ & Hs2). pose proof (seg_tot _ _ _ Hs1) as [_ Td].
  split_and!; [done|done| |lia| |].
  - rewrite Hp, (hw_root _ _ (proj1 Hok)). unfold kern_heap_base. destruct Td as [q ->]. clear -q.
    exists (0xffff810000000000 / 8 + 2 + q). change 0xffff810000000000 with (8 * (0xffff810000000000 / 8)) at 1. lia.
  - rewrite allocs_app. cbn [allocs app]. rewrite <- Eal. symmetry. apply Permutation_middle.
  - intros b t Hin. rewrite <- Eal in Hin. apply elem_of_app in Hin as [Hin|Hin].
    + apply (allocs_range _ _ _ _ _ Hs1) in Hin. lia.
    + apply (allocs_range _ _ _ _ _ Hs2) in Hin. lia.
Qed.

(** [realloc] compares the new size with the size of the whole block, header and footer
    included: for the last eight sizes it returns the block unchanged although its footer lies
    inside the bytes the caller now may write. *)
Theorem realloc_overlaps_footer h l1 s l2 newsiz fuel :
  heap_ok h (l1 ++ (s, true) :: l2) -> 0 < newsiz -> s - 8 < newsiz <= s ->
  let p := PAYLOAD (h_root h + tot l1) in
  let ftr := p - 4 + s - 4 in
  realloc fuel h (Some p) newsiz = Ok (Some p, 0, h) /\
  h_mem h !! ftr = Some (tag s true) /\ p <= ftr < p + newsiz.
Proof.
  intros [Hwf _] Hn Hs p ftr.
  pose proof (at_facts _ _ _ _ _ Hwf) as (H8 & _ & Hfit & _ & _ & _ & Hf & _).
  unfold realloc. replace (newsiz =? 0) with false by lia.
  assert (p - 4 = h_root h + tot l1) as Ep by (subst p; unfold PAYLOAD; lia).
  rewrite Ep, (rd_hdr _ _ _ _ _ Hwf). cbn [res_bind]. rewrite SIZ_tag by done. cbv zeta.
  replace (newsiz <=? s) with true by lia. subst ftr. rewrite Ep. split_and!; [done|done|lia|lia].
Qed.

(** ** Concrete heaps *)

Definition heap_run {A} (m : res (A * heap)) : heap :=
  match m with Ok r => snd r | Fault _ => Heap 0 0 0 ∅ end.

Definition heap_fresh : heap :=
  match heap_init with Ok h => h | Fault _ => Heap 0 0 0 ∅ end.

(** A heap after [malloc(20)] and [malloc(100)]. *)
Definition heap_demo : heap := heap_run (malloc 8 (heap_run (malloc 8 heap_fresh 20)) 100).

Ltac heap_ok_by_computation :=
  split; [split; first
    [ vm_compute; reflexivity
    | vm_compute; split; discriminate
    | apply Z.mod_divide; [lia|vm_compute; reflexivity]
    | cbn [seg app]; split_and?; first [ exact I | lia | vm_compute; reflexivity
        | apply Z.mod_divide; [lia|vm_compute; reflexivity] ] ] | vm_compute; intuition (done || discriminate)].

(** What [heap_init] sets up is a well-formed heap without blocks. *)
Lemma heap_init_ok : heap_init = Ok heap_fresh /\ heap_ok heap_fresh [].
Proof.
  split; [vm_compute; reflexivity|]. heap_ok_by_computation.
Qed.

Lemma heap_demo_ok : heap_ok heap_demo ([(32, true)] ++ (112, true) :: []).
Proof. heap_ok_by_computation. Qed.

Example malloc_fresh_block_witness :
  total (malloc 8 heap_demo 50) (fun r => exists p, fst r = Some p /\ (8 | p)).
Proof.
  eapply total_mono; [refine (malloc_fresh_block heap_demo ([(32, true)] ++ (112, true) :: []) 50 8 heap_demo_ok _ _ _)|].
  - lia.
  - vm_compute. reflexivity.
  - cbn. lia.
  - intros r (p & bs & Hp & _ & Hd & _). exists p. split; [exact Hp|exact Hd].
Defined.

Example free_removes_block_witness :
  exists h' bs', free heap_demo (Some (PAYLOAD (h_root heap_demo + tot [(32, true)]))) = Ok h' /\
    allocs (h_root heap_demo) bs' = [(h_root heap_demo, 32)].
Proof.
  destruct (free_removes_block heap_demo [(32, true)] 112 [] heap_demo_ok) as (h' & E & bs' & _ & _ & Ha).
  exists h', bs'. split; [exact E|]. rewrite Ha. reflexivity.
Defined.

Example realloc_overlaps_footer_witness :
  realloc 8 heap_demo (Some (PAYLOAD (h_root heap_demo + tot [(32, true)]))) 110
  = Ok (Some (PAYLOAD (h_root heap_demo + tot [(32, true)])), 0, heap_demo).
Proof.
  exact (proj1 (realloc_overlaps_footer heap_demo [(32, true)] 112 [] 110 8 heap_demo_ok ltac:(lia) ltac:(lia))).
Defined.
