(* ===== verification/Pmm.v ===== *)
(** * Physical pages: [kernel/mm/pmm.c]

    The free zones form a singly linked list behind the static node [_free]. Until
    [__pmm_tovmm] a node lies in the first page of its own zone ([Early]); afterwards it is
    allocated from the kernel heap ([Post]). The model keeps the nodes by address, writes their
    fields one at a time and keeps aliased nodes aliased. Memory that no node was written to
    reads as the parameter [raw_node]; [node_alloc] stands for [malloc(sizeof(free_t))], of
    which only freshness and an address above all physical memory are used. The release of a node ([free]) leaves its bytes in place, as
    the kernel heap does, and is recorded in [live]. *)
From Stdlib Require Import ZArith Lia List Bool.
From stdpp Require Import base list gmap.
From S2P Require Import Prelude.

#[local] Open Scope Z_scope.

Record free_t := FNode { f_pages : Z; f_addr : Z; f_next : Z }.

#[export] Instance eta_free_t : Eta free_t := fun r => FNode (f_pages r) (f_addr r) (f_next r).

Inductive pmode := Early | Post.

Record pmm := Pmm {
  nodes : gmap Z free_t;
  live : gset Z;
  page_total : Z;
  page_free : Z;
  mode : pmode }.

#[export] Instance eta_pmm : Eta pmm :=
  fun r => Pmm (nodes r) (live r) (page_total r) (page_free r) (mode r).

(** The address of the static head node; no zone and no heap block is there. *)
Definition _free : Z := -1.

(** What the page allocator takes from the rest of the kernel. *)
Class PmmEnv := { raw_node : Z -> free_t; node_alloc : gset Z -> Z }.

Class PmmEnvOk `{PmmEnv} := {
  node_alloc_fresh : forall X, node_alloc X ∉ X;
  node_alloc_addr : forall X, 2 ^ 52 <= node_alloc X }.

(** A free zone: its first address and its number of pages. *)
Abbreviation zone := (Z * Z)%type.

Section Pmm.
Context `{PmmEnv}.

Definition node (s : pmm) (a : Z) : res free_t :=
  if a =? 0 then Fault NullDeref
  else Ok (match nodes s !! a with Some n => n | None => raw_node a end).

Definition put (s : pmm) (a : Z) (g : free_t -> free_t) : res pmm :=
  let! n := node s a in Ok (s <| nodes := <[a := g n]> (nodes s) |>).

Definition set_pages (s : pmm) (a v : Z) : res pmm := put s a (fun n => n <| f_pages := u64 v |>).

Definition set_addr (s : pmm) (a v : Z) : res pmm := put s a (fun n => n <| f_addr := u64 v |>).

Definition set_next (s : pmm) (a v : Z) : res pmm := put s a (fun n => n <| f_next := v |>).

Definition malloc_node (s : pmm) : Z * pmm :=
  let a := node_alloc (live s) in (a, s <| live ::= union {[a]} |>).

Definition alloc_early (prev num : Z) : Z := u64 (prev + num * PAGE_SIZ).

Definition alloc (s : pmm) (prev num : Z) : Z * pmm :=
  match mode s with
  | Early => (alloc_early prev num, s)
  | Post => (prev, s)
  end.

Definition alloc0 (s : pmm) (prev num : Z) : Z * pmm :=
  match mode s with
  | Early => (alloc_early prev num, s)
  | Post => malloc_node s
  end.

Definition delete0 (s : pmm) (n : Z) : pmm :=
  match mode s with
  | Early => s
  | Post => s <| live ::= fun L => L ∖ {[n]} |>
  end.

(** The loop of [pmm_allocpages]; [n] and [prev] are the pointers at the top of its body.
    [delete] does nothing in either mode. *)
Fixpoint allocpages_loop (fuel : nat) (s : pmm) (num n prev : Z) : res (Z * pmm) :=
  match fuel with
  | O => Fault OutOfFuel
  | S fuel =>
      let! nn := node s n in
      let n := f_next nn in
      let! nn := node s n in
      if num <=? f_pages nn then
        let! s := set_pages s n (f_pages nn - num) in
        let page := f_addr nn in
        let! nn := node s n in
        if f_pages nn =? 0 then
          let! s := set_next s prev (f_next nn) in
          Ok (page, delete0 s n)
        else
          let '(new, s) := alloc s n num in
          let! s := set_addr s new (f_addr nn + num * PAGE_SIZ) in
          let! nn := node s n in
          let! s := set_pages s new (f_pages nn) in
          let! nn := node s n in
          let! s := set_next s new (f_next nn) in
          let! s := set_next s prev new in
          Ok (page, s)
      else
        let! pn := node s prev in
        let prev := f_next pn in
        if f_next nn =? 0 then Ok (0, s) else allocpages_loop fuel s num n prev
  end.

Definition pmm_allocpages (fuel : nat) (s : pmm) (num : Z) : res (Z * pmm) :=
  let! r := allocpages_loop fuel s num _free _free in
  let '(page, s) := r in
  if page =? 0 then Ok (page, s) else Ok (page, s <| page_free ::= fun c => u64 (c - num) |>).

Fixpoint allochard_loop (fuel : nat) (s : pmm) (start end_ n prev : Z) : res pmm :=
  if n =? 0 then Ok s
  else
  match fuel with
  | O => Fault OutOfFuel
  | S fuel =>
      let! nn := node s n in
      let phy_start := f_addr nn in
      let phy_end := u64 (f_addr nn + f_pages nn * PAGE_SIZ) in
      let! s :=
        (if (phy_end <=? start) || (end_ <=? phy_start) then Ok s
         else if (phy_start <? start) && (end_ <? phy_end) then
           let! s := set_pages s n ((start - phy_start) / PAGE_SIZ) in
           let! nn := node s n in
           let '(new, s) := alloc0 s n (f_pages nn) in
           let! s := set_addr s new end_ in
           let! s := set_pages s new ((phy_end - end_) / PAGE_SIZ) in
           let! nn := node s n in
           let! s := set_next s new (f_next nn) in
           set_next s n new
         else if (start <=? phy_start) && (phy_end <=? end_) then
           let! s := set_next s prev (f_next nn) in
           Ok (delete0 s n)
         else if (phy_start <? start) && (start <? phy_end) then
           set_pages s n ((start - phy_start) / PAGE_SIZ)
         else if (phy_start <? end_) && (end_ <? phy_end) then
           let! s := set_addr s n end_ in
           set_pages s n ((phy_end - end_) / PAGE_SIZ)
         else Ok s) in
      let! nn := node s n in
      let! pn := node s prev in
      allochard_loop fuel s start end_ (f_next nn) (f_next pn)
  end.

Definition pmm_allochard (fuel : nat) (s : pmm) (page num : Z) : res pmm :=
  do! ASSERTK (Z.land page PAGE_MASK =? 0) in
  if num =? 0 then Ok s
  else
    let start := page in
    let end_ := u64 (start + num * PAGE_SIZ) in
    let! h := node s _free in
    allochard_loop fuel s start end_ (f_next h) _free.

Fixpoint isfree_loop (fuel : nat) (s : pmm) (start end_ n : Z) : res bool :=
  match fuel with
  | O => Fault OutOfFuel
  | S fuel =>
      let! nn := node s n in
      let n := f_next nn in
      let! nn := node s n in
      let ps := f_addr nn in
      let pe := u64 (f_addr nn + f_pages nn * PAGE_SIZ) in
      if MAX ps start <? MIN pe end_ then Ok true
      else if f_next nn =? 0 then Ok false else isfree_loop fuel s start end_ n
  end.

Definition _pmm_isfree (fuel : nat) (s : pmm) (page num : Z) : res bool :=
  isfree_loop fuel s page (u64 (page + num * PAGE_SIZ)) _free.

Fixpoint freepages_loop (fuel : nat) (s : pmm) (start end_ num n prev : Z) : res pmm :=
  match fuel with
  | O => Fault OutOfFuel
  | S fuel =>
      let! nn := node s n in
      let n := f_next nn in
      let! nn := node s n in
      let ps := f_addr nn in
      let pe := u64 (f_addr nn + f_pages nn * PAGE_SIZ) in
      if ps =? end_ then
        let '(new, s) := alloc s n (- f_pages nn) in
        let! s := set_addr s new start in
        let! nn := node s n in
        let! s := set_pages s new (f_pages nn + num) in
        let! nn := node s n in
        let! s := set_next s new (f_next nn) in
        set_next s prev new
      else if pe =? start then set_pages s n (f_pages nn + num)
      else
        let! gap := (if pe <? start then
                       if f_next nn =? 0 then Ok true
                       else let! nx := node s (f_next nn) in Ok (end_ <? f_addr nx)
                     else Ok false) in
        if gap : bool then
          let '(new, s) := alloc0 s n 0 in
          let! s := set_addr s new start in
          let! s := set_pages s new num in
          let! nn := node s n in
          let! s := set_next s new (f_next nn) in
          set_next s n new
        else
          let! pn := node s prev in
          if f_next nn =? 0 then Ok s else freepages_loop fuel s start end_ num n (f_next pn)
  end.

Definition pmm_freepages (fuel : nat) (s : pmm) (page num : Z) : res pmm :=
  do! ASSERTK (Z.land page PAGE_MASK =? 0) in
  let! b := _pmm_isfree fuel s page num in
  do! ASSERTK (negb b) in
  let! s := freepages_loop fuel s page (u64 (page + num * PAGE_SIZ)) num _free _free in
  Ok (s <| page_free ::= fun c => u64 (c + num) |>).

(** *** The move of the nodes to the kernel heap *)

Fixpoint count_nodes (fuel : nat) (s : pmm) (n : Z) : res nat :=
  if n =? 0 then Ok O
  else
  match fuel with
  | O => Fault OutOfFuel
  | S fuel => let! nn := node s n in let! c := count_nodes fuel s (f_next nn) in Ok (S c)
  end.

Fixpoint malloc_nodes (cnt : nat) (s : pmm) : list Z * pmm :=
  match cnt with
  | O => ([], s)
  | S cnt => let '(a, s) := malloc_node s in let '(l, s) := malloc_nodes cnt s in (a :: l, s)
  end.

(** The copy: [array] is what is left of the new nodes. *)
Fixpoint tovmm_loop (s : pmm) (array : list Z) (old new : Z) : res (list Z * pmm) :=
  match array with
  | [] => Ok ([], s)
  | a :: rest =>
      let! on := node s old in
      if f_next on =? 0 then Ok (array, s)
      else
        let old := f_next on in
        let! s := set_next s new a in
        let new := a in
        let! on := node s old in
        let! s := set_addr s new (f_addr on) in
        let! on := node s old in
        let! s := set_pages s new (f_pages on) in
        tovmm_loop s rest old new
  end.

Definition __pmm_tovmm (fuel : nat) (s : pmm) : res pmm :=
  let! h := node s _free in
  let! cnt := count_nodes fuel s (f_next h) in
  let '(array, s) := malloc_nodes cnt s in
  let! r := tovmm_loop s array _free _free in
  let '(rest, s) := r in
  let s := s <| live ::= fun L => L ∖ list_to_set rest |> in
  Ok (s <| mode := Post |>).

(** *** The firmware's memory map

    The boot-services types are rewritten to conventional memory first; only this loop reads
    the type afterwards. *)

Record efi_desc := EfiDesc { d_type : Z; d_start : Z; d_pages : Z }.

Definition EfiBootServicesCode : Z := 3.
Definition EfiBootServicesData : Z := 4.
Definition EfiConventionalMemory : Z := 7.

Definition usable (d : efi_desc) : bool :=
  (d_type d =? EfiBootServicesData) || (d_type d =? EfiBootServicesCode) || (d_type d =? EfiConventionalMemory).

Definition add_zone (s : pmm) (n start pages : Z) : res pmm :=
  let s := s <| page_free ::= fun c => u64 (c + pages) |> in
  let! s := set_next s n start in
  let! s := set_addr s start start in
  set_pages s start pages.

Fixpoint efi_loop (s : pmm) (n : Z) (map : list efi_desc) : res pmm :=
  match map with
  | [] => Ok s
  | d :: map =>
      let s := s <| page_total ::= fun c => u64 (c + d_pages d) |> in
      if (d_pages d =? 0) || (d_start d =? 0) then efi_loop s n map
      else if negb (usable d) then efi_loop s n map
      else let! s := add_zone s n (d_start d) (d_pages d) in efi_loop s (d_start d) map
  end.

Record mb_desc := MbDesc { m_type : Z; m_addr : Z; m_len : Z }.

Definition MULTIBOOT_MEMORY_AVAILABLE : Z := 1.

Fixpoint mb_loop (s : pmm) (n : Z) (map : list mb_desc) : res pmm :=
  match map with
  | [] => Ok s
  | m :: map =>
      let s := s <| page_total ::= fun c => u64 (c + m_len m / PAGE_SIZ) |> in
      if (m_len m =? 0) || (m_addr m =? 0) then mb_loop s n map
      else if negb (m_type m =? MULTIBOOT_MEMORY_AVAILABLE) then mb_loop s n map
      else let! s := add_zone s n (m_addr m) (m_len m / PAGE_SIZ) in mb_loop s (m_addr m) map
  end.

(** The statics before boot; [_free.next] is null. *)
Definition pmm_zero : pmm := Pmm {[ _free := FNode 0 0 0 ]} ∅ 0 0 Early.

(** [__pmm_pre]: the memory map comes from one boot protocol or the other. *)
Definition __pmm_pre (fuel : nat) (map : list efi_desc + list mb_desc) : res pmm :=
  let! s := match map with
            | inl map => efi_loop pmm_zero _free map
            | inr map => mb_loop pmm_zero _free map
            end in
  pmm_allochard fuel (s <| mode := Early |>) 0x1000 63.

(** ** The list of zones the nodes hold

    The list of a state starts with the head node. *)

Definition hd_id (l : list (Z * zone)) : Z := match l with [] => 0 | (x, _) :: _ => x end.

Fixpoint chain (m : gmap Z free_t) (l : list (Z * zone)) : Prop :=
  match l with
  | [] => True
  | (x, (a, pg)) :: l => m !! x = Some (FNode pg a (hd_id l)) /\ chain m l
  end.

Definition ids (l : list (Z * zone)) : list Z := map fst l.

Definition zones (l : list (Z * zone)) : list zone := map snd l.

Lemma chain_app m l1 l2 :
  chain m (l1 ++ l2) -> chain m l2.
Proof. induction l1 as [|[x [a pg]] l1 IH]; cbn; [done|]. tauto. Qed.

Lemma chain_at m l1 x a pg l2 :
  chain m (l1 ++ (x, (a, pg)) :: l2) -> m !! x = Some (FNode pg a (hd_id l2)).
Proof. intros Hc. apply chain_app in Hc. apply Hc. Qed.

Lemma chain_frame m m' l :
  (forall x, x ∈ ids l -> m' !! x = m !! x) -> chain m l -> chain m' l.
Proof.
  induction l as [|[x [a pg]] l IH]; [done|]. cbn. intros Hf [Hx Hc]. split.
  - rewrite Hf; [done|left].
  - apply IH; [|done]. intros y Hy. apply Hf. by right.
Qed.

(** Replacing the end of a chain; what comes before only has to be left alone. *)
Lemma chain_replace m m' l1 l2 l2' :
  chain m (l1 ++ l2) -> (forall x, x ∈ ids l1 -> m' !! x = m !! x) ->
  hd_id l2' = hd_id l2 -> chain m' l2' -> chain m' (l1 ++ l2').
Proof.
  induction l1 as [|[x [a pg]] l1 IH]; [done|]. cbn [app chain]. intros [Hx Hc] Hf Eh Hc'. split.
  - rewrite Hf by left. rewrite Hx. do 2 f_equal. destruct l1 as [|[y z] l1]; [by symmetry|done].
  - apply IH; [done| |done|done]. intros y Hy. apply Hf. by right.
Qed.

(** The state between two calls once the nodes live in the heap. *)
Record rep (s : pmm) (l : list (Z * zone)) : Prop := {
  rep_mode : mode s = Post;
  rep_chain : chain (nodes s) l;
  rep_nodup : NoDup (ids l);
  rep_head : hd_id l = _free;
  rep_ids : forall x, x ∈ ids l -> x <> 0 /\ (x = _free \/ x ∈ live s);
  rep_live : _free ∉ live s }.

Lemma ids_app l1 l2 : ids (l1 ++ l2) = ids l1 ++ ids l2.
Proof. apply map_app. Qed.

Lemma node_at s l1 x a pg l2 :
  rep s (l1 ++ (x, (a, pg)) :: l2) -> node s x = Ok (FNode pg a (hd_id l2)) /\ x <> 0.
Proof.
  intros [_ Hc _ _ Hn _]. destruct (Hn x) as [H0 _].
  - rewrite ids_app. apply elem_of_app. right. left.
  - unfold node. replace (x =? 0) with false by lia. by rewrite (chain_at _ _ _ _ _ _ Hc).
Qed.

Lemma node_next s l1 x z l2 : rep s (l1 ++ (x, z) :: l2) -> exists n, node s x = Ok n /\ f_next n = hd_id l2.
Proof. destruct z as [a pg]. intros Hr. destruct (node_at _ _ _ _ _ _ Hr) as [-> _]. by eexists. Qed.

(** The link to the next node is null exactly at the end. *)
Lemma hd_id_null s l1 l2 : rep s (l1 ++ l2) -> (hd_id l2 =? 0) = match l2 with [] => true | _ => false end.
Proof.
  intros [_ _ _ _ Hn _]. destruct l2 as [|[x z] l2]; [done|]. destruct (Hn x) as [H0 _].
  - rewrite ids_app. apply elem_of_app. right. left.
  - cbn. lia.
Qed.

(** Changing everything from the node [p] on. *)
Lemma rep_tail s s' l1 p zp zp' k k' :
  rep s (l1 ++ (p, zp) :: k) -> mode s' = Post -> _free ∉ live s' ->
  (forall x, x ∈ ids l1 -> nodes s' !! x = nodes s !! x) ->
  (forall x, x ∈ ids l1 \/ x = p -> x ∈ live s -> x ∈ live s') ->
  chain (nodes s') ((p, zp') :: k') -> NoDup (ids l1 ++ p :: ids k') ->
  (forall x, x ∈ ids k' -> x <> 0 /\ x ∈ live s') ->
  rep s' (l1 ++ (p, zp') :: k').
Proof.
  intros [Hm Hc Hnd Hh Hn Hl] Hm' Hl' Hf Hlv Hc' Hnd' Hk. split; [done| | | | |done].
  - eapply chain_replace; [exact Hc|exact Hf|done|done].
  - by rewrite ids_app.
  - destruct l1 as [|[y zy] l1]; [done|]. done.
  - intros x. rewrite ids_app. intros [Hx|Hx]%elem_of_app.
    + destruct (Hn x) as [H0 Hx']; [rewrite ids_app; apply elem_of_app; by left|]. split; [done|].
      destruct Hx' as [->|Hx']; [by left|]. right. auto.
    + apply elem_of_cons in Hx as [->|Hx]; [|destruct (Hk x Hx); auto]. cbn [fst].
      destruct (Hn p) as [H0 Hx']; [rewrite ids_app; apply elem_of_app; right; left|]. split; [done|].
      destruct Hx' as [->|Hx']; [by left|]. right. auto.
Qed.

Lemma rep_nodup_mid s l1 p zp k :
  rep s (l1 ++ (p, zp) :: k) -> (p ∉ ids l1) /\ (p ∉ ids k) /\ NoDup (ids l1) /\ NoDup (ids k) /\
  (forall x, x ∈ ids l1 -> x ∉ ids k).
Proof.
  intros Hr. pose proof (rep_nodup _ _ Hr) as Hnd. rewrite ids_app in Hnd.
  apply NoDup_app in Hnd as (H1 & Hd & Hnd). cbn in Hnd. apply NoDup_cons in Hnd as [Hp Hnd].
  split_and!; try done.
  - intros Hin. apply (Hd p Hin). left.
  - intros x Hx Hk. apply (Hd x Hx). by right.
Qed.

(** A node behind the head is a live heap block. *)
Lemma rep_behind s l1 p zp k x :
  rep s (l1 ++ (p, zp) :: k) -> x ∈ ids k -> x <> 0 /\ x ∈ live s /\ x <> _free.
Proof.
  intros Hr Hx. destruct (rep_nodup_mid _ _ _ _ _ Hr) as (_ & Hp & _ & _ & Hd).
  destruct (rep_ids _ _ Hr x) as [H0 Hx'].
  { rewrite ids_app. apply elem_of_app. right. by right. }
  assert (x <> _free) as Hne.
  { intros ->. pose proof (rep_head _ _ Hr) as Hh. destruct l1 as [|[y zy] l1]; cbn in Hh; subst; [done|].
    apply (Hd _free); [left|done]. }
  destruct Hx'; [done|]. done.
Qed.

(** The three changes of the list, each as the writes that make it. *)
Lemma rep_update s s' l1 p ap pp x z l2 a' pg' :
  rep s (l1 ++ (p, (ap, pp)) :: (x, z) :: l2) -> mode s' = Post -> live s' = live s ->
  (forall y, y <> x -> nodes s' !! y = nodes s !! y) -> nodes s' !! x = Some (FNode pg' a' (hd_id l2)) ->
  rep s' (l1 ++ (p, (ap, pp)) :: (x, (a', pg')) :: l2).
Proof.
  intros Hr Ms Ls Hm' Hx. pose proof Hr as [Hm Hc Hnd Hh Hn Hl].
  destruct (rep_nodup_mid _ _ _ _ _ Hr) as (Hp1 & Hp2 & H1 & Hk & Hd). cbn in Hp2, Hk, Hd.
  apply not_elem_of_cons in Hp2 as [Hpx Hp2]. apply NoDup_cons in Hk as [Hx2 Hk].
  eapply rep_tail; [exact Hr|done|by rewrite Ls| |by rewrite Ls| | |].
  - intros y Hy. cbn. apply Hm'. intros ->. apply (Hd x Hy). left.
  - apply chain_app in Hc. cbn in Hc |- *. destruct z as [za zp]. destruct Hc as (Ep & _ & Hc).
    rewrite Hm' by congruence. split_and!; [done|done|].
    eapply chain_frame; [|exact Hc]. intros y Hy. apply Hm'. by intros ->.
  - rewrite ids_app in Hnd. exact Hnd.
  - intros y Hy. rewrite Ls. destruct (rep_behind _ _ _ _ _ y Hr) as (? & ? & _); [exact Hy|done].
Qed.

Lemma rep_unlink s s' l1 p ap pp x z l2 :
  rep s (l1 ++ (p, (ap, pp)) :: (x, z) :: l2) -> mode s' = Post -> live s' = live s ∖ {[x]} ->
  (forall y, y <> p -> y <> x -> nodes s' !! y = nodes s !! y) -> nodes s' !! p = Some (FNode pp ap (hd_id l2)) ->
  rep s' (l1 ++ (p, (ap, pp)) :: l2).
Proof.
  intros Hr Ms Ls Hm' Hx. pose proof Hr as [Hm Hc Hnd Hh Hn Hl].
  destruct (rep_nodup_mid _ _ _ _ _ Hr) as (Hp1 & Hp2 & H1 & Hk & Hd). cbn in Hp2, Hk, Hd.
  apply not_elem_of_cons in Hp2 as [Hpx Hp2]. apply NoDup_cons in Hk as [Hx2 Hk].
  eapply rep_tail; [exact Hr|done| | | | | |]; rewrite ?Ls; cbn.
  - set_solver.
  - intros y Hy. apply Hm'; [by intros ->|]. intros ->. apply (Hd x Hy). left.
  - intros y Hy Hlv. apply elem_of_difference. split; [done|]. intros ->%elem_of_singleton.
    destruct Hy as [Hy|Hy]; [|congruence]. apply (Hd x Hy). left.
  - split; [done|]. apply chain_app in Hc. cbn in Hc. destruct z as [za zp].
    destruct Hc as (_ & _ & Hc). eapply chain_frame; [|exact Hc]. intros y Hy. apply Hm'; by intros ->.
  - apply NoDup_app. split_and!; [done| |by apply NoDup_cons].
    intros y Hy [->|Hy2]%elem_of_cons; [done|]. apply (Hd y Hy). by right.
  - intros y Hy. destruct (rep_behind _ _ _ _ _ y Hr) as (? & ? & _); [by right|]. split; [done|]. set_solver.
Qed.

Lemma rep_link s s' l1 p z ap pp x a' pg' l2 :
  rep s (l1 ++ (p, z) :: l2) -> mode s' = Post -> live s' = {[x]} ∪ live s ->
  x ∉ live s -> x <> 0 -> x <> _free ->
  (forall y, y <> p -> y <> x -> nodes s' !! y = nodes s !! y) ->
  nodes s' !! p = Some (FNode pp ap x) -> nodes s' !! x = Some (FNode pg' a' (hd_id l2)) ->
  rep s' (l1 ++ (p, (ap, pp)) :: (x, (a', pg')) :: l2).
Proof.
  intros Hr Ms Ls Hx H0 Hxf Hm' Ep Ex. pose proof Hr as [Hm Hc Hnd Hh Hn Hl].
  destruct (rep_nodup_mid _ _ _ _ _ Hr) as (Hp1 & Hp2 & H1 & Hk & Hd).
  assert (forall y, y ∈ ids (l1 ++ (p, z) :: l2) -> y <> x) as Hne.
  { intros y Hy ->. destruct (Hn x Hy) as [_ [?|?]]; done. }
  rewrite ids_app in Hne. cbn in Hne.
  assert (forall y, y ∈ ids l2 -> y <> x) as Hne2 by (intros y Hy; apply Hne, elem_of_app; right; by right).
  assert (forall y, y ∈ ids l1 -> y <> x) as Hne1 by (intros y Hy; apply Hne, elem_of_app; by left).
  assert (p <> x) as Hpx by (apply Hne, elem_of_app; right; left).
  eapply rep_tail; [exact Hr|done| | | | | |]; rewrite ?Ls; cbn.
  - set_solver.
  - intros y Hy. apply Hm'; [by intros ->|auto].
  - set_solver.
  - split_and!; [done|done|]. apply chain_app in Hc. destruct z as [za zp]. destruct Hc as (_ & Hc).
    eapply chain_frame; [|exact Hc]. intros y Hy. apply Hm'; [by intros ->|auto].
  - apply NoDup_app. split_and!; [done| |].
    + intros y Hy [->|[->|Hy2]%elem_of_cons]%elem_of_cons; [done|by apply (Hne1 x)|by apply (Hd y)].
    + apply NoDup_cons. split; [by intros [?|?]%elem_of_cons|]. apply NoDup_cons. split; [|done]. intros Hy. by apply (Hne2 x).
  - intros y [->|Hy]%elem_of_cons; [set_solver|].
    destruct (rep_behind _ _ _ _ _ y Hr) as (? & ? & _); [done|]. set_solver.
Qed.

(** ** The allocator's contract on lists of zones *)

(** Zones in address order, below the 52-bit physical limit; they may touch. *)
Fixpoint zwf (lo : Z) (zs : list zone) : Prop :=
  match zs with
  | [] => lo <= 2 ^ 52
  | (a, pg) :: zs => lo <= a /\ (PAGE_SIZ | a) /\ 0 < pg /\ zwf (a + pg * PAGE_SIZ) zs
  end.

Fixpoint covers (zs : list zone) (x : Z) : Prop :=
  match zs with
  | [] => False
  | (a, pg) :: zs => a <= x < a + pg * PAGE_SIZ \/ covers zs x
  end.

Lemma zwf_bound lo zs : zwf lo zs -> lo <= 2 ^ 52.
Proof.
  revert lo. induction zs as [|[a pg] zs IH]; cbn; [done|]. intros lo (? & _ & ? & Hz).
  apply IH in Hz. unfold PAGE_SIZ in *. lia.
Qed.

Lemma zwf_mono lo lo' zs : lo' <= lo -> zwf lo zs -> zwf lo' zs.
Proof. destruct zs as [|[a pg] zs]; cbn; [lia|]. intros ? (? & ?). split; [lia|done]. Qed.

Lemma zwf_covers lo zs x : zwf lo zs -> covers zs x -> lo <= x < 2 ^ 52.
Proof.
  revert lo. induction zs as [|[a pg] zs IH]; cbn; [done|]. intros lo (? & _ & ? & Hz) [Hx|Hx].
  - apply zwf_bound in Hz. lia.
  - apply (IH _ Hz) in Hx. unfold PAGE_SIZ in *. lia.
Qed.

Fixpoint first_fit (num : Z) (zs : list zone) : option (Z * list zone) :=
  match zs with
  | [] => None
  | (a, pg) :: zs =>
      if num <=? pg then Some (a, if pg - num =? 0 then zs else (a + num * PAGE_SIZ, pg - num) :: zs)
      else match first_fit num zs with
           | Some (p, zs) => Some (p, (a, pg) :: zs)
           | None => None
           end
  end.

(** First fit takes the pages from the start of the first zone that has enough of them. *)
Lemma first_fit_first num zs p zs' : first_fit num zs = Some (p, zs') ->
  exists pre pg post, zs = pre ++ (p, pg) :: post /\ num <= pg /\ (forall a g, (a, g) ∈ pre -> g < num) /\
  zs' = pre ++ (if pg - num =? 0 then post else (p + num * PAGE_SIZ, pg - num) :: post).
Proof.
  revert zs'. induction zs as [|[a pg] zs IH]; intros zs' E; cbn [first_fit] in E; [done|]. destruct (Z.leb_spec num pg).
  - injection E as <- <-. exists [], pg, zs. split_and!; [done|done|by intros ? ? ?%elem_of_nil|done].
  - destruct (first_fit num zs) as [[q zs1]|]; [|done]. injection E as -> <-.
    destruct (IH zs1 eq_refl) as (pre & g & post & -> & Hg & Hpre & ->). exists ((a, pg) :: pre), g, post. split_and!; [done|done| |done].
    intros a' g' [[= -> ->]|Hin]%elem_of_cons; [done|by eapply Hpre].
Qed.

(** What first fit takes was free, is page aligned, and is exactly what is no longer free. *)
Lemma first_fit_spec lo num zs :
  zwf lo zs -> 0 < num ->
  match first_fit num zs with
  | Some (p, zs') => zwf lo zs' /\ lo <= p /\ (PAGE_SIZ | p) /\
      (forall x, covers zs x <-> p <= x < p + num * PAGE_SIZ \/ covers zs' x) /\
      (forall x, p <= x < p + num * PAGE_SIZ -> ~ covers zs' x)
  | None => forall a pg, (a, pg) ∈ zs -> pg < num
  end.
Proof.
  intros Hz Hn. revert lo Hz. induction zs as [|[a pg] zs IH]; intros lo Hz; cbn [first_fit].
  - intros a pg H'. by apply elem_of_nil in H'.
  - cbn in Hz. destruct Hz as (Hlo & Hd & Hpg & Hz). unfold PAGE_SIZ in *. destruct (Z.leb_spec num pg).
    + assert (forall x, a <= x < a + pg * 4096 -> ~ covers zs x) as Hdis.
      { intros x Hx Hc. apply (zwf_covers _ _ _ Hz) in Hc. lia. }
      destruct (Z.eqb_spec (pg - num) 0) as [E|E].
      * assert (pg = num) as -> by lia. split_and!; [|done|done|done|done]. eapply zwf_mono; [|exact Hz]. lia.
      * cbn. unfold PAGE_SIZ. split_and!; try done; try lia.
        -- apply Z.divide_add_r; [done|]. apply Z.divide_factor_r.
        -- by replace (a + num * 4096 + (pg - num) * 4096) with (a + pg * 4096) by lia.
        -- intros x. replace (a + num * 4096 + (pg - num) * 4096) with (a + pg * 4096) by lia.
           split; [intros [?|?]; [|tauto]|intros [?|[?|?]]; [left; lia|left; lia|tauto]].
           destruct (Z.lt_ge_cases x (a + num * 4096)); [left; lia|right; left; lia].
        -- intros x Hx [?|Hc]; [lia|]. apply (Hdis x); [lia|done].
    + specialize (IH _ Hz). destruct (first_fit num zs) as [[p zs']|].
      * destruct IH as (Hz' & Hp & Hpd & Hc & Hdis). cbn. unfold PAGE_SIZ. split_and!; try done; try lia.
        -- intros x. rewrite Hc. tauto.
        -- intros x Hx [?|?]; [lia|by apply (Hdis x)].
      * intros a' pg' [[= -> ->]|Hin]%elem_of_cons; [done|by apply (IH a')].
Qed.

(** ** Running the code *)

Lemma node_Some s x n : x <> 0 -> nodes s !! x = Some n -> node s x = Ok n.
Proof. intros Hx E. unfold node. replace (x =? 0) with false by lia. by rewrite E. Qed.

Lemma put_Some s x n g :
  x <> 0 -> nodes s !! x = Some n -> put s x g = Ok (s <| nodes := <[x := g n]> (nodes s) |>).
Proof. intros Hx E. unfold put. by rewrite (node_Some _ _ _ Hx E). Qed.

(** Evaluates the next read or write of a node whose contents are known. *)
Ltac step_node :=
  first
    [ erewrite put_Some by first [eassumption | cbn; repeat (rewrite lookup_insert_eq || rewrite lookup_insert_ne by congruence); (reflexivity || eassumption)]
    | erewrite node_Some by first [eassumption | cbn; repeat (rewrite lookup_insert_eq || rewrite lookup_insert_ne by congruence); (reflexivity || eassumption)] ];
  cbn [res_bind f_pages f_addr f_next].

Ltac run_nodes := unfold set_pages, set_addr, set_next; repeat step_node.

Lemma rep_pair s l1 p ap pp x ax px l2 :
  rep s (l1 ++ (p, (ap, pp)) :: (x, (ax, px)) :: l2) ->
  p <> 0 /\ x <> 0 /\ p <> x /\ x <> _free /\
  nodes s !! p = Some (FNode pp ap x) /\ nodes s !! x = Some (FNode px ax (hd_id l2)).
Proof.
  intros Hr. destruct (node_at _ _ _ _ _ _ Hr) as [_ Hp].
  destruct (rep_behind _ _ _ _ _ x Hr) as (Hx & _ & Hf); [left|].
  destruct (rep_nodup_mid _ _ _ _ _ Hr) as (_ & Hpx & _). cbn in Hpx. apply not_elem_of_cons in Hpx as [Hpx _].
  pose proof (rep_chain _ _ Hr) as Hc. apply chain_app in Hc. cbn in Hc. destruct Hc as (Ep & Ex & _). done.
Qed.

(** Looks up a node behind a known sequence of writes. *)
Ltac look := cbn; repeat (rewrite lookup_insert_eq || rewrite lookup_insert_ne by congruence); cbn.

(** The node where first fit stops, both ways. *)
Lemma allocpages_take fuel s num l1 p zp x a pg l2 :
  rep s (l1 ++ (p, zp) :: (x, (a, pg)) :: l2) -> 0 < num <= pg -> a + pg * PAGE_SIZ <= 2 ^ 52 -> 0 <= a ->
  total (allocpages_loop (S fuel) s num p p) (fun r => fst r = a /\ exists l2',
    rep (snd r) (l1 ++ (p, zp) :: l2') /\ page_free (snd r) = page_free s /\
    zones l2' = if pg - num =? 0 then zones l2 else (a + num * PAGE_SIZ, pg - num) :: zones l2).
Proof.
  intros Hr Hn Hb Ha. destruct zp as [ap pp]. destruct (rep_pair _ _ _ _ _ _ _ _ _ Hr) as (Hp & Hx & Hpx & _ & Ep & Ex).
  pose proof (rep_mode _ _ Hr) as Hm.
  unfold PAGE_SIZ in *. cbn [allocpages_loop]. run_nodes. replace (num <=? pg) with true by lia. run_nodes. cbn.
  rewrite (wrap_small 64 (pg - num)) by lia. destruct (Z.eqb_spec (pg - num) 0) as [E|E].
  - run_nodes. unfold delete0. cbn. rewrite Hm. apply total_Ok. split; [done|]. exists l2. split; [|done].
    eapply rep_unlink; [exact Hr|done|done| |].
    + intros y Hy Hy'. by look.
    + by look.
  - unfold alloc. cbn. rewrite Hm. run_nodes. apply total_Ok. split; [done|].
    exists ((x, (a + num * 4096, pg - num)) :: l2). split; [|done].
    eapply rep_update; [exact Hr|done|done| |].
    + intros y Hy. destruct (decide (y = p)) as [->|]; look; by rewrite ?Ep.
    + look. by rewrite !wrap_small by (unfold PAGE_SIZ; lia).
Qed.

Lemma allocpages_loop_spec s num l2 : forall l1 p zp fuel,
  rep s (l1 ++ (p, zp) :: l2) -> l2 <> [] -> 0 < num -> zwf 0 (zones l2) -> (length l2 <= fuel)%nat ->
  total (allocpages_loop fuel s num p p) (fun r =>
    match first_fit num (zones l2) with
    | None => r = (0, s)
    | Some (a, zs) => fst r = a /\ exists l2', rep (snd r) (l1 ++ (p, zp) :: l2') /\
        page_free (snd r) = page_free s /\ zones l2' = zs
    end).
Proof.
  induction l2 as [|[x [a pg]] l2 IH]; intros l1 p [ap pp] [|fuel] Hr Hne Hn Hz Hf; try done; [cbn in Hf; lia|].
  destruct (rep_pair _ _ _ _ _ _ _ _ _ Hr) as (Hp & Hx & Hpx & _ & Ep & Ex).
  cbn [zones map snd zwf first_fit] in *. destruct Hz as (Ha & Hd & Hpg & Hz).
  pose proof (zwf_bound _ _ Hz) as Hb. destruct (Z.leb_spec num pg) as [Hle|Hgt].
  - exact (allocpages_take fuel s num l1 p (ap, pp) x a pg l2 Hr ltac:(lia) Hb Ha).
  - cbn [allocpages_loop]. run_nodes. replace (num <=? pg) with false by lia. run_nodes.
    change (l1 ++ (p, (ap, pp)) :: ?k) with (l1 ++ [(p, (ap, pp))] ++ k) in Hr. rewrite app_assoc in Hr.
    assert (rep s (((l1 ++ [(p, (ap, pp))]) ++ [(x, (a, pg))]) ++ l2)) as Hr2 by (by rewrite <- (app_assoc _ [_] l2)).
    rewrite (hd_id_null _ _ _ Hr2). destruct l2 as [|b l2]; [by apply total_Ok|].
    eapply total_mono; [apply (IH (l1 ++ [(p, (ap, pp))]) x (a, pg) fuel Hr)|].
    + done.
    + done.
    + eapply zwf_mono; [|exact Hz]. unfold PAGE_SIZ. lia.
    + cbn in Hf |- *. lia.
    + intros r. fold (zones (b :: l2)). destruct (first_fit num (zones (b :: l2))) as [[q zs]|]; [|done].
      intros (Eq & l2' & Hr' & Ec & Ez). split; [done|]. exists ((x, (a, pg)) :: l2').
      rewrite <- app_assoc in Hr'. cbn. by rewrite <- Ez.
Qed.

(** ** Releasing pages *)

Definition overlap (start end_ : Z) (z : zone) : bool :=
  MAX (fst z) start <? MIN (fst z + snd z * PAGE_SIZ) end_.

Lemma overlap_covers start end_ zs lo :
  zwf lo zs -> start < end_ ->
  existsb (overlap start end_) zs = false <-> forall x, start <= x < end_ -> ~ covers zs x.
Proof.
  intros Hz Hse. revert lo Hz. induction zs as [|[a pg] zs IH]; intros lo Hz; cbn; [intuition|].
  cbn in Hz. destruct Hz as (_ & _ & Hpg & Hz). specialize (IH _ Hz). unfold overlap. cbn [fst snd].
  unfold PAGE_SIZ in *. rewrite MAX_max, MIN_min. destruct (Z.ltb_spec (Z.max a start) (Z.min (a + pg * 4096) end_)); cbn.
  - split; [done|]. intros Hx. exfalso. apply (Hx (Z.max a start)); [lia|]. left. lia.
  - rewrite IH. split; [|intros Hx x Hr Hc; by apply (Hx x Hr); right]. intros Hx x Hr [?|Hc]; [lia|by apply (Hx x)].
Qed.

Lemma isfree_loop_spec s start end_ l2 : forall l1 p zp fuel,
  rep s (l1 ++ (p, zp) :: l2) -> l2 <> [] -> zwf 0 (zones l2) -> (length l2 <= fuel)%nat ->
  isfree_loop fuel s start end_ p = Ok (existsb (overlap start end_) (zones l2)).
Proof.
  induction l2 as [|[x [a pg]] l2 IH]; intros l1 p [ap pp] [|fuel] Hr Hne Hz Hf; try done; [cbn in Hf; lia|].
  destruct (rep_pair _ _ _ _ _ _ _ _ _ Hr) as (Hp & Hx & Hpx & _ & Ep & Ex).
  cbn [zones map snd zwf existsb] in *. destruct Hz as (Ha & Hd & Hpg & Hz). pose proof (zwf_bound _ _ Hz) as Hb.
  cbn [isfree_loop]. run_nodes. rewrite wrap_small by (unfold PAGE_SIZ in *; lia).
  unfold overlap at 1. cbn [fst snd]. destruct (MAX a start <? MIN (a + pg * PAGE_SIZ) end_); [done|]. cbn [orb].
  change (l1 ++ (p, (ap, pp)) :: ?k) with (l1 ++ [(p, (ap, pp))] ++ k) in Hr. rewrite app_assoc in Hr.
  assert (rep s (((l1 ++ [(p, (ap, pp))]) ++ [(x, (a, pg))]) ++ l2)) as Hr2 by (by rewrite <- (app_assoc _ [_] l2)).
  rewrite (hd_id_null _ _ _ Hr2). destruct l2 as [|b l2]; [done|].
  apply (IH _ _ _ _ Hr); [done| |cbn in Hf |- *; lia]. eapply zwf_mono; [|exact Hz]. unfold PAGE_SIZ. lia.
Qed.

Lemma zwf_raise lo end_ zs :
  zwf lo zs -> end_ <= 2 ^ 52 -> (forall b q zs', zs = (b, q) :: zs' -> end_ <= b) -> zwf end_ zs.
Proof. destruct zs as [|[b q] zs]; [done|]. cbn. intros (_ & Hz) _ Hb. split; [by eapply Hb|done]. Qed.

Definition hd_above (end_ : Z) (zs : list zone) : bool :=
  match zs with [] => true | (a, _) :: _ => end_ <? a end.

Fixpoint give (start num : Z) (zs : list zone) : list zone :=
  let end_ := start + num * PAGE_SIZ in
  match zs with
  | [] => []
  | (a, pg) :: zs =>
      if a =? end_ then (start, pg + num) :: zs
      else if a + pg * PAGE_SIZ =? start then (a, pg + num) :: zs
      else if (a + pg * PAGE_SIZ <? start) && hd_above end_ zs then (a, pg) :: (start, num) :: zs
      else (a, pg) :: give start num zs
  end.

(** Below the first zone, and not next to it, nothing happens. *)
Lemma give_below lo start num zs :
  zwf lo zs -> 0 < num -> start + num * PAGE_SIZ < lo -> give start num zs = zs.
Proof.
  intros Hz Hn. revert lo Hz. induction zs as [|[a pg] zs IH]; intros lo Hz Hlo; [done|].
  cbn in Hz. destruct Hz as (Ha & _ & Hpg & Hz). cbn [give]. unfold PAGE_SIZ in *.
  replace (a =? start + num * 4096) with false by lia. replace (a + pg * 4096 =? start) with false by lia.
  replace (a + pg * 4096 <? start) with false by lia. cbn [andb]. by rewrite (IH _ Hz) by lia.
Qed.

Lemma give_covers lo start num zs :
  zwf lo zs -> zs <> [] -> 0 < num -> lo <= start -> (PAGE_SIZ | start) -> start + num * PAGE_SIZ <= 2 ^ 52 ->
  (forall x, start <= x < start + num * PAGE_SIZ -> ~ covers zs x) ->
  hd_above (start + num * PAGE_SIZ) zs = false ->
  zwf lo (give start num zs) /\
  forall x, covers (give start num zs) x <-> start <= x < start + num * PAGE_SIZ \/ covers zs x.
Proof.
  intros Hz Hne Hn. revert lo Hz Hne. induction zs as [|[a pg] zs IH]; intros lo Hz Hne Hlo Hd He Hdis Hab; [done|].
  cbn in Hz. destruct Hz as (Ha & Had & Hpg & Hz). cbn [give hd_above covers] in *. unfold PAGE_SIZ in *.
  set (end_ := start + num * 4096) in *. assert (start < end_) as Hse by lia.
  destruct (Z.eqb_spec a end_) as [E|E].
  { cbn. unfold PAGE_SIZ. replace (start + (pg + num) * 4096) with (a + pg * 4096) by lia.
    split_and!; try done; try lia. intros x. split; [intros [?|?]|intros [?|[?|?]]]; try (by right; right); try (by right); try lia. }
  assert (a + pg * 4096 <= start) as Hle.
  { assert (a < start) by (destruct (Z.lt_ge_cases a start); [done|]; exfalso; apply (Hdis a); lia).
    destruct (Z.le_gt_cases (a + pg * 4096) start); [done|]. exfalso. apply (Hdis start); lia. }
  destruct (Z.eqb_spec (a + pg * 4096) start) as [E2|E2].
  { cbn. unfold PAGE_SIZ. replace (a + (pg + num) * 4096) with end_ by lia. split_and!; try done; try lia.
    - apply (zwf_raise _ _ _ Hz He). intros b q zs' ->. cbn in Hz. destruct Hz as (? & _ & ? & _). unfold PAGE_SIZ in *.
      destruct (Z.le_gt_cases end_ b); [done|]. exfalso. apply (Hdis b); [lia|]. right. left. unfold PAGE_SIZ. lia.
    - intros x. split; [intros [?|?]; [destruct (Z.lt_ge_cases x start); [right; left; lia|left; lia]|by right; right]|].
      intros [?|[?|?]]; [left; lia|left; lia|by right]. }
  replace (a + pg * 4096 <? start) with true by lia. cbn [andb].
  destruct (hd_above end_ zs) eqn:Eab.
  - cbn. unfold PAGE_SIZ. split_and!; try done; try lia; [|intros x; tauto].
    apply (zwf_raise _ _ _ Hz He). intros b q zs' ->. cbn in Eab. lia.
  - destruct (IH _ Hz) as [Hz' Hc]; try done; try lia; [by intros ->| |].
    { intros x Hx Hc. apply (Hdis x Hx). by right. }
    cbn. unfold PAGE_SIZ. split; [done|]. intros x. rewrite Hc. tauto.
Qed.

Context `{!PmmEnvOk}.

Lemma put_any s x g : x <> 0 -> exists n, put s x g = Ok (s <| nodes := <[x := g n]> (nodes s) |>).
Proof. intros Hx. unfold put, node. replace (x =? 0) with false by lia. by eexists. Qed.

Lemma node_alloc_ok s : (node_alloc (live s) ∉ live s) /\ node_alloc (live s) <> 0 /\ node_alloc (live s) <> _free.
Proof.
  pose proof (node_alloc_addr (live s)). pose proof (node_alloc_fresh (live s)). unfold _free. split_and!; [done|lia|lia].
Qed.

(** A new zone behind the node [x]. *)
Lemma insert_zone s l1 x a pg l2 start num :
  rep s (l1 ++ (x, (a, pg)) :: l2) -> 0 <= start < 2 ^ 64 -> 0 <= num < 2 ^ 64 ->
  total (let '(new, s) := alloc0 s x 0 in
         let! s := set_addr s new start in
         let! s := set_pages s new num in
         let! nn := node s x in
         let! s := set_next s new (f_next nn) in
         set_next s x new)
    (fun s' => page_free s' = page_free s /\ exists y, rep s' (l1 ++ (x, (a, pg)) :: (y, (start, num)) :: l2)).
Proof.
  intros Hr Hs Hn. unfold alloc0. rewrite (rep_mode _ _ Hr). unfold malloc_node. set (y := node_alloc (live s)).
  destruct (node_alloc_ok s) as (Hy & Hy0 & Hyf). fold y in Hy, Hy0, Hyf.
  destruct (node_at _ _ _ _ _ _ Hr) as [_ Hx]. pose proof (chain_at _ _ _ _ _ _ (rep_chain _ _ Hr)) as Ex.
  assert (x <> y) as Hxy.
  { intros E. destruct (rep_ids _ _ Hr x) as [_ [?|?]]; [rewrite ids_app; apply elem_of_app; right; left| |]; congruence. }
  unfold set_addr at 1. edestruct (put_any (s <| live ::= union {[y]} |>) y) as [n1 ->]; [done|]. cbn [res_bind].
  run_nodes. exists (s <| live ::= union {[y]} |> <| nodes := <[x := FNode pg a y]> (<[y := FNode num start (hd_id l2)]> (nodes s)) |>).
  split.
  - cbn. rewrite !wrap_small by done. by rewrite !insert_insert_eq.
  - split; [done|]. exists y. eapply rep_link; [exact Hr|by rewrite <- (rep_mode _ _ Hr)|done|done|done|done| | |].
    + intros w Hw Hw'. by look.
    + by look.
    + by look.
Qed.

Lemma freepages_loop_spec s start num l2 : forall l1 p zp fuel,
  rep s (l1 ++ (p, zp) :: l2) -> l2 <> [] -> 0 <= start -> 0 < num -> start + num * PAGE_SIZ <= 2 ^ 52 ->
  zwf 0 (zones l2) -> (length l2 <= fuel)%nat ->
  total (freepages_loop fuel s start (start + num * PAGE_SIZ) num p p) (fun s' =>
    page_free s' = page_free s /\ exists l2', rep s' (l1 ++ (p, zp) :: l2') /\ zones l2' = give start num (zones l2)).
Proof.
  induction l2 as [|[x [a pg]] l2 IH]; intros l1 p [ap pp] [|fuel] Hr Hne Hs Hn He Hz Hf; try done; [cbn in Hf; lia|].
  destruct (rep_pair _ _ _ _ _ _ _ _ _ Hr) as (Hp & Hx & Hpx & _ & Ep & Ex). pose proof (rep_mode _ _ Hr) as Hm.
  cbn [zones map snd zwf give] in *. destruct Hz as (Ha & Hd & Hpg & Hz). pose proof (zwf_bound _ _ Hz) as Hb.
  cbn [freepages_loop]. run_nodes. rewrite (wrap_small 64 (a + pg * PAGE_SIZ)) by (unfold PAGE_SIZ in *; lia). unfold PAGE_SIZ in *.
  destruct (Z.eqb_spec a (start + num * 4096)) as [E|E].
  { unfold alloc. rewrite Hm. run_nodes. apply total_Ok. split; [done|]. exists ((x, (start, pg + num)) :: l2). split; [|done].
    eapply rep_update; [exact Hr|done|done| |].
    - intros y Hy. destruct (decide (y = p)) as [->|]; look; by rewrite ?Ep.
    - look. by rewrite !wrap_small by lia. }
  destruct (Z.eqb_spec (a + pg * 4096) start) as [E2|E2].
  { run_nodes. apply total_Ok. split; [done|]. exists ((x, (a, pg + num)) :: l2). split; [|done].
    eapply rep_update; [exact Hr|done|done| |].
    - intros y Hy. by look.
    - look. by rewrite !wrap_small by lia. }
  change (l1 ++ (p, (ap, pp)) :: ?k) with (l1 ++ [(p, (ap, pp))] ++ k) in Hr. rewrite app_assoc in Hr.
  assert (rep s (((l1 ++ [(p, (ap, pp))]) ++ [(x, (a, pg))]) ++ l2)) as Hr2 by (by rewrite <- (app_assoc _ [_] l2)).
  rewrite (hd_id_null _ _ _ Hr2).
  assert ((if a + pg * 4096 <? start then
             if match l2 with [] => true | _ => false end then Ok true
             else let! nx := node s (hd_id l2) in Ok (start + num * 4096 <? f_addr nx)
           else Ok false) = Ok ((a + pg * 4096 <? start) && hd_above (start + num * 4096) (zones l2))) as ->.
  { destruct (a + pg * 4096 <? start); [|done]. destruct l2 as [|[y [b q]] l2]; [done|]. cbn [hd_id].
    by destruct (node_at _ _ _ _ _ _ Hr2) as [-> _]. }
  cbn [res_bind]. fold (zones l2). destruct ((a + pg * 4096 <? start) && hd_above (start + num * 4096) (zones l2)).
  - eapply total_mono; [exact (insert_zone s _ x a pg l2 start num Hr ltac:(lia) ltac:(lia))|].
    intros s' [Ec [y Hr']]. split; [done|]. exists ((x, (a, pg)) :: (y, (start, num)) :: l2). by rewrite <- app_assoc in Hr'.
  - run_nodes. destruct l2 as [|b l2].
    + apply total_Ok. split; [done|]. exists [(x, (a, pg))]. by rewrite <- app_assoc in Hr.
    + eapply total_mono; [apply (IH _ _ _ _ Hr); try done; [eapply zwf_mono; [|exact Hz]; lia|cbn in Hf |- *; lia]|].
      intros s' [Ec (l2' & Hr' & Ez)]. split; [done|]. exists ((x, (a, pg)) :: l2').
      rewrite <- app_assoc in Hr'. split; [exact Hr'|]. cbn [zones map snd]. by f_equal.
Qed.

(** ** Moving the nodes to the heap *)

Lemma malloc_nodes_spec cnt : forall s,
  let '(array, s') := malloc_nodes cnt s in
  length array = cnt /\ NoDup array /\ nodes s' = nodes s /\ mode s' = mode s /\
  (forall x, x ∈ array -> (x ∉ live s) /\ 2 ^ 52 <= x) /\
  (forall x, x ∈ live s' <-> x ∈ array \/ x ∈ live s).
Proof.
  induction cnt as [|cnt IH]; intros s; cbn [malloc_nodes malloc_node].
  { split_and!; try done; [constructor|by intros x ?%elem_of_nil|]. intros x. rewrite elem_of_nil. tauto. }
  set (a := node_alloc (live s)). specialize (IH (s <| live ::= union {[a]} |>)).
  destruct (malloc_nodes cnt (s <| live ::= union {[a]} |>)) as [array s'].
  destruct IH as (El & Hnd & En & Em & Hx & Hl). cbn in En, Em, Hx, Hl.
  pose proof (node_alloc_fresh (live s)) as Hfr. pose proof (node_alloc_addr (live s)) as Hr. fold a in Hfr, Hr.
  split_and!; [cbn; lia| |done|done| |].
  - apply NoDup_cons. split; [|done]. intros Ha. destruct (Hx a Ha) as [Ha' _]. set_solver.
  - intros x [->|Hin]%elem_of_cons; [split; [done|lia]|]. destruct (Hx x Hin) as [Ha' ?]. split; [set_solver|done].
  - intros x. rewrite Hl, elem_of_union, elem_of_singleton, elem_of_cons. tauto.
Qed.

(** Memory the heap hands out for the first time reads as zero. *)
Definition heap_zeroed (s : pmm) : Prop :=
  forall x, 2 ^ 52 <= x -> nodes s !! x = None /\ f_next (raw_node x) = 0.

Definition newlist (array : list Z) (lo : list (Z * zone)) : list (Z * zone) := zip array (zones lo).

Lemma tovmm_loop_spec lo : forall s array old new an pn nx,
  chain (nodes s) lo -> zwf 0 (zones lo) -> node s old = Ok nx -> f_next nx = hd_id lo -> length array = length lo ->
  NoDup (new :: array) -> (forall x, x ∈ ids lo -> x <> 0 /\ x <> new /\ x ∉ array) ->
  new <> 0 -> (exists k, nodes s !! new = Some (FNode pn an k) /\ (lo = [] -> k = 0)) ->
  (forall x, x ∈ array -> x <> 0 /\ nodes s !! x = None /\ f_next (raw_node x) = 0) ->
  total (tovmm_loop s array old new) (fun r => fst r = [] /\ live (snd r) = live s /\
    (forall y, y ∉ new :: array -> nodes (snd r) !! y = nodes s !! y) /\
    chain (nodes (snd r)) ((new, (an, pn)) :: newlist array lo)).
Proof.
  induction lo as [|[o [a pg]] lo IH]; intros s [|x array] old new an pn nx Hc Hz Ho Hnx El Hnd Hid Hn0 (k & Hk & Hk0) Har; try done.
  { apply total_Ok. cbn. by rewrite Hk, Hk0. }
  cbn [tovmm_loop]. rewrite Ho. cbn [res_bind]. rewrite Hnx. cbn [hd_id].
  destruct (Hid o) as (Ho0 & Hon & Hoa); [left|]. replace (o =? 0) with false by lia.
  apply not_elem_of_cons in Hoa as [Hox Hoa]. apply NoDup_cons in Hnd as [Hnx' Hnd].
  apply not_elem_of_cons in Hnx' as [Hnx' Hna]. destruct (Har x) as (Hx0 & Hxm & Hxr); [left|].
  destruct Hc as [Ec Hc]. unfold set_next at 1. erewrite put_Some by eassumption. cbn [res_bind].
  unfold set_addr at 1. erewrite node_Some by (try done; look; done). cbn [res_bind f_addr].
  unfold put, node at 1. replace (x =? 0) with false by lia.
  replace (nodes _ !! x) with (@None free_t) by (look; done). cbn [res_bind].
  cbn [zones map snd zwf] in Hz. destruct Hz as (Ha & _ & Hpg & Hz). pose proof (zwf_bound _ _ Hz) as Hb.
  unfold PAGE_SIZ in *. run_nodes. eapply total_mono; [eapply (IH _ array o x a pg)|].
  - eapply chain_frame; [|exact Hc]. intros y Hy. destruct (Hid y) as (_ & ? & Hya); [by right|].
    apply not_elem_of_cons in Hya as [? _]. by look.
  - eapply zwf_mono; [|exact Hz]. lia.
  - apply node_Some; [done|]. by look.
  - done.
  - cbn in El. lia.
  - done.
  - intros y Hy. destruct (Hid y) as (? & ? & Hya); [by right|]. by apply not_elem_of_cons in Hya.
  - done.
  - eexists. look. rewrite !wrap_small by lia. split; [reflexivity|]. intros _. exact Hxr.
  - intros y Hy. destruct (Har y) as (? & Hym & ?); [by right|]. split_and!; [done| |done].
    assert (y <> x) by (intros ->; by apply NoDup_cons in Hnd as [? _]). assert (y <> new) by (by intros ->). by look.
  - intros [rest s'] (Er & El' & Hfr & Hch). cbn [fst snd] in *. split_and!; [done|done| |].
    + intros y [? Hy]%not_elem_of_cons. rewrite Hfr by done. apply not_elem_of_cons in Hy as [? _]. by look.
    + cbn [chain]. split; [|exact Hch]. rewrite Hfr by (by apply not_elem_of_cons). by look.
Qed.

Lemma count_nodes_spec s l fuel :
  chain (nodes s) l -> (forall x, x ∈ ids l -> x <> 0) -> (length l <= fuel)%nat ->
  count_nodes fuel s (hd_id l) = Ok (length l).
Proof.
  revert fuel. induction l as [|[x [a pg]] l IH]; intros [|fuel] Hc Hn Hf; try done; [cbn in Hf; lia|].
  destruct Hc as [Ex Hc]. assert (x <> 0) as Hx by (apply Hn; left). cbn [count_nodes hd_id].
  replace (x =? 0) with false by lia. rewrite (node_Some _ _ _ Hx Ex). cbn [res_bind f_next].
  rewrite IH; [done|done| |cbn in Hf; lia]. intros y Hy. apply Hn. by right.
Qed.

(** The state before the move: the nodes lie in physical memory, none in the heap. *)
Definition early (s : pmm) (l : list (Z * zone)) : Prop :=
  (exists z, chain (nodes s) ((_free, z) :: l)) /\ (_free ∉ live s) /\
  (forall x, x ∈ ids l -> 0 < x < 2 ^ 52) /\ zwf 1 (zones l).

Lemma newlist_ids array l : length array = length l -> ids (newlist array l) = array.
Proof.
  unfold ids, newlist, zones. revert l. induction array as [|x array IH]; intros [|[o z] l] E; try done.
  cbn. f_equal. apply IH. by injection E.
Qed.

Lemma newlist_zones array l : length array = length l -> zones (newlist array l) = zones l.
Proof.
  unfold newlist, zones. revert l. induction array as [|x array IH]; intros [|[o z] l] E; try done.
  cbn. f_equal. apply IH. by injection E.
Qed.

(** Zones above the range are passed over. *)
Lemma allochard_skip s start end_ l lo fuel :
  chain (nodes s) l -> (forall x, x ∈ ids l -> x <> 0) -> zwf lo (zones l) -> end_ <= lo -> (length l <= fuel)%nat ->
  allochard_loop fuel s start end_ (hd_id l) (hd_id l) = Ok s.
Proof.
  revert fuel lo. induction l as [|[x [a pg]] l IH]; intros fuel lo Hc Hn Hz He Hf; [by destruct fuel|].
  destruct fuel as [|fuel]; [cbn in Hf; lia|]. destruct Hc as [Ex Hc]. cbn [zones map snd zwf] in Hz.
  destruct Hz as (Ha & _ & Hpg & Hz). assert (x <> 0) as Hx by (apply Hn; left). cbn [allochard_loop hd_id].
  replace (x =? 0) with false by lia. run_nodes. replace (end_ <=? a) with true by lia. rewrite orb_true_r. cbn [res_bind]. run_nodes.
  eapply IH; [done| |exact Hz| |cbn in Hf; lia].
  - intros w Hw. apply Hn. by right.
  - unfold PAGE_SIZ. lia.
Qed.

(** A zone inside the range whose node is [prev] as well is released but stays linked. *)
Lemma allochard_self fuel s start end_ y b q nx :
  mode s = Post -> y <> 0 -> nodes s !! y = Some (FNode q b nx) -> 0 < q -> 0 <= b -> start <= b ->
  b + q * PAGE_SIZ <= end_ <= 2 ^ 52 ->
  exists s', allochard_loop (S fuel) s start end_ y y = allochard_loop fuel s' start end_ nx nx /\
    nodes s' = nodes s /\ live s' = live s ∖ {[y]}.
Proof.
  intros Hm Hy E Hq Hb Hs He. cbn [allochard_loop]. replace (y =? 0) with false by lia. unfold PAGE_SIZ in *. run_nodes.
  rewrite (wrap_small 64 (b + q * 4096)) by lia.
  replace (b + q * 4096 <=? start) with false by lia. replace (end_ <=? b) with false by lia. cbn [orb].
  replace (b <? start) with false by lia. replace (start <=? b) with true by lia.
  replace (b + q * 4096 <=? end_) with true by lia. cbn [andb res_bind].
  unfold delete0. cbn. rewrite Hm. run_nodes. eexists. split; [done|]. cbn. split; [|done].
  by rewrite insert_id.
Qed.

(** ** Theorems *)

(** Between two calls the list behind the head holds the zones [zs]. *)
Definition pmm_ok (s : pmm) (zs : list zone) : Prop :=
  exists z l, rep s ((_free, z) :: l) /\ zones l = zs /\ zwf 1 zs.

Lemma zones_length l : length (zones l) = length l.
Proof. apply length_map. Qed.

Lemma rep_counter s l c : rep s l -> rep (s <| page_free ::= c |>) l.
Proof. by intros []. Qed.

(** C24: [pmm_allocpages] returns the first fit: either no zone has that many pages, and 0 is returned
    and nothing changes, or the pages are the first ones of the first zone that has enough, which
    is shortened by them or removed; they are page aligned, were free, and are exactly those no
    longer free.  With no zone left at all, where the comment of the function promises NULL, the
    call dereferences the null pointer. *)
Theorem pmm_allocpages_first_fit s zs num fuel :
  pmm_ok s zs -> 0 < num -> (length zs < fuel)%nat ->
  match zs with
  | [] => pmm_allocpages fuel s num = Fault NullDeref
  | _ => total (pmm_allocpages fuel s num) (fun r =>
      (r = (0, s) /\ forall a pg, (a, pg) ∈ zs -> pg < num) \/
      (0 < fst r /\ (PAGE_SIZ | fst r) /\ page_free (snd r) = u64 (page_free s - num) /\
       exists pre pg post zs', zs = pre ++ (fst r, pg) :: post /\ num <= pg /\ (forall a g, (a, g) ∈ pre -> g < num) /\
         zs' = pre ++ (if pg - num =? 0 then post else (fst r + num * PAGE_SIZ, pg - num) :: post) /\
         pmm_ok (snd r) zs' /\
         (forall x, covers zs x <-> fst r <= x < fst r + num * PAGE_SIZ \/ covers zs' x) /\
         (forall x, fst r <= x < fst r + num * PAGE_SIZ -> ~ covers zs' x)))
  end.
Proof.
  intros (z & l & Hr & Ez & Hz) Hn Hf. destruct zs as [|z1 zs].
  { destruct l; [|done]. destruct fuel as [|fuel]; [cbn in Hf; lia|]. unfold pmm_allocpages. cbn [allocpages_loop].
    destruct (node_next s [] _free z [] Hr) as (n & -> & E). cbn [res_bind]. by rewrite E. }
  unfold pmm_allocpages. pose proof (first_fit_spec 1 num _ Hz Hn) as Hff.
  eapply total_bind; [apply (allocpages_loop_spec s num l [] _free z fuel Hr)|].
  - by intros ->.
  - done.
  - rewrite Ez. eapply zwf_mono; [|exact Hz]. lia.
  - rewrite <- zones_length, Ez. lia.
  - rewrite Ez. intros [page s']. destruct (first_fit num (z1 :: zs)) as [[p zs']|] eqn:Eff.
    + cbn [fst snd]. intros (-> & l2' & Hr' & Ec & Ez'). destruct Hff as (Hz' & Hp & Hd & Hc & Hdis).
      replace (p =? 0) with false by lia. apply total_Ok. right. cbn [fst snd]. split_and!; [lia|done|cbn; by rewrite Ec|].
      destruct (first_fit_first _ _ _ _ Eff) as (pre & pg & post & Epre & Hpg & Hpre & Ezs'). exists pre, pg, post, zs'.
      split_and!; try done. exists z, l2'. split_and!; [by apply rep_counter|done|done].
    + intros [= -> ->]. cbn. apply total_Ok. by left.
Qed.

(** releasing pages that are not free makes exactly them free, and keeps the zones in order,
    provided they do not lie in a gap below the first zone; there they are counted as free but
    lost: no zone changes. *)
Theorem pmm_freepages_gives_back s zs start num fuel :
  pmm_ok s zs -> zs <> [] -> 0 < start -> (PAGE_SIZ | start) -> 0 < num -> start + num * PAGE_SIZ <= 2 ^ 52 ->
  (forall x, start <= x < start + num * PAGE_SIZ -> ~ covers zs x) -> (length zs <= fuel)%nat ->
  total (pmm_freepages fuel s start num) (fun s' => page_free s' = u64 (page_free s + num) /\
    exists zs', pmm_ok s' zs' /\
      if hd_above (start + num * PAGE_SIZ) zs then zs' = zs
      else forall x, covers zs' x <-> start <= x < start + num * PAGE_SIZ \/ covers zs x).
Proof.
  intros (z & l & Hr & Ez & Hz) Hne Hs Hd Hn He Hdis Hf.
  assert (zwf 0 (zones l)) as Hz0 by (rewrite Ez; eapply zwf_mono; [|exact Hz]; lia).
  assert (l <> []) as Hl by (by intros ->; subst). rewrite <- Ez, zones_length in Hf.
  unfold pmm_freepages. assert ((Z.land start PAGE_MASK =? 0) = true) as ->.
  { change PAGE_MASK with (Z.ones 12). rewrite Z.land_ones by lia. apply Z.eqb_eq. by apply Z.mod_divide. }
  assert (u64 (start + num * PAGE_SIZ) = start + num * PAGE_SIZ) as E by (apply wrap_small; unfold PAGE_SIZ in *; lia).
  unfold _pmm_isfree. rewrite E, (isfree_loop_spec s _ _ l [] _free z fuel Hr Hl Hz0 Hf). cbn [ASSERTK res_bind].
  rewrite (proj2 (overlap_covers start (start + num * PAGE_SIZ) (zones l) _ Hz0 ltac:(unfold PAGE_SIZ; lia))) by (by rewrite Ez).
  cbn [negb ASSERTK res_bind].
  eapply total_bind; [apply (freepages_loop_spec s start num l [] _free z fuel Hr); (done || lia)|].
  intros s' (Ec & l2' & Hr' & Ez'). apply total_Ok. split; [cbn; by rewrite Ec|]. rewrite Ez in Ez'.
  assert (forall zs', zones l2' = zs' -> zwf 1 zs' -> pmm_ok (s' <| page_free ::= fun c => u64 (c + num) |>) zs') as Hok.
  { intros zs' E1 E2. exists z, l2'. split_and!; [by apply rep_counter|done|done]. }
  destruct (hd_above _ zs) eqn:Eab.
  - exists zs. split; [|done]. apply Hok; [|done]. rewrite Ez'. destruct zs as [|[a pg] zs]; [done|]. cbn in Eab.
    apply (give_below a); [|done|lia]. cbn in Hz |- *. intuition lia.
  - destruct (give_covers 1 start num zs) as [Hz' Hc]; try done; [lia|]. exists (give start num zs). split; [by apply Hok|done].
Qed.

(** [__pmm_tovmm] moves every zone, in order, to a node of the kernel heap and switches the
    mode, on condition that the memory [malloc] returns reads as zero: the link of the last new
    node is never written. *)
Theorem pmm_tovmm_keeps_zones s l fuel :
  early s l -> heap_zeroed s -> (length l <= fuel)%nat ->
  total (__pmm_tovmm fuel s) (fun s' => pmm_ok s' (zones l)).
Proof.
  intros ([[zp za] Hc] & Hfl & Hid & Hz) Hzero Hf. pose proof Hc as [Eh Hc'].
  unfold __pmm_tovmm. erewrite node_Some by (try exact Eh; done). cbn [res_bind f_next].
  rewrite count_nodes_spec; [|done|intros x Hx; specialize (Hid x Hx); lia|done]. cbn [res_bind].
  pose proof (malloc_nodes_spec (length l) s) as Hm. destruct (malloc_nodes (length l) s) as [array s1].
  destruct Hm as (El & Hnd & En & _ & Har & Hlv).
  assert (_free ∉ array) as Hfa by (intros Hx; destruct (Har _ Hx); unfold _free in *; lia).
  eapply total_bind.
  { apply (tovmm_loop_spec l s1 array _free _free zp za (FNode za zp (hd_id l))).
    - by rewrite En.
    - eapply zwf_mono; [|exact Hz]. lia.
    - apply node_Some; [done|]. by rewrite En.
    - done.
    - done.
    - by apply NoDup_cons.
    - intros x Hx. specialize (Hid x Hx). unfold _free. split_and!; [lia|lia|]. intros Ha. destruct (Har x Ha). lia.
    - done.
    - exists (hd_id l). rewrite En. split; [done|]. by intros ->.
    - intros x Hx. destruct (Har x Hx) as [_ Hx']. destruct (Hzero x Hx') as [E1 E2]. rewrite En. split_and!; [lia|done|done]. }
  intros [rest s2] (Er & El2 & _ & Hch). cbn [fst snd] in *. subst rest. apply total_Ok.
  exists (zp, za), (newlist array l). rewrite newlist_zones by done. split_and!; [|done|done].
  split; cbn [nodes live mode hd_id ids map fst]; try done.
  - fold (ids (newlist array l)). rewrite newlist_ids by done. by apply NoDup_cons.
  - fold (ids (newlist array l)). rewrite newlist_ids by done. intros x [->|Hx]%elem_of_cons; [split; [done|by left]|].
    destruct (Har x Hx). split; [lia|]. right. cbn. rewrite El2. apply elem_of_difference. split; [|set_solver]. apply Hlv. by left.
  - change (_free ∉ live s2 ∖ list_to_set []). rewrite El2. intros Hx. apply elem_of_difference in Hx as [Hx _].
    apply Hlv in Hx as [?|?]; done.
Qed.

(** when two neighbouring zones lie inside the range [pmm_allochard] reserves, the second
    one stays in the free list, although its node has been released: after the first removal
    [prev] is the current node itself. *)
Theorem pmm_allochard_keeps_second s z x a pg y b q l2 start num fuel :
  let end_ := start + num * PAGE_SIZ in
  rep s ((_free, z) :: (x, (a, pg)) :: (y, (b, q)) :: l2) -> zwf 1 ((a, pg) :: (b, q) :: zones l2) ->
  (PAGE_SIZ | start) -> 0 <= start <= a -> b + q * PAGE_SIZ <= end_ <= 2 ^ 52 -> zwf end_ (zones l2) ->
  (length l2 + 2 <= fuel)%nat ->
  total (pmm_allochard fuel s start num) (fun s' =>
    (y ∉ live s') /\ chain (nodes s') ((_free, z) :: (y, (b, q)) :: l2)).
Proof.
  intros end_ Hr Hz Hd Hs He Hz2 Hf. destruct z as [za zp]. unfold PAGE_SIZ in Hd.
  destruct (rep_pair s [] _ _ _ _ _ _ _ Hr) as (Hf0 & Hx & Hfx & _ & Eh & Ex). cbn [hd_id] in Ex.
  destruct (rep_pair s [(_free, (za, zp))] _ _ _ _ _ _ _ Hr) as (_ & Hy & Hxy & Hyf & _ & Ey).
  cbn [zwf] in Hz. destruct Hz as (Ha & _ & Hpg & Hb & _ & Hq & Hz). unfold PAGE_SIZ in *.
  unfold pmm_allochard. assert ((Z.land start PAGE_MASK =? 0) = true) as ->.
  { change PAGE_MASK with (Z.ones 12). rewrite Z.land_ones by lia. apply Z.eqb_eq. by apply Z.mod_divide. }
  cbn [ASSERTK res_bind]. replace (num =? 0) with false by lia. rewrite (wrap_small 64 (start + num * PAGE_SIZ)) by (unfold PAGE_SIZ; lia).
  destruct fuel as [|[|fuel]]; try lia. run_nodes. remember (S fuel) as fuel' eqn:Ef. cbn [allochard_loop]. replace (x =? 0) with false by lia. run_nodes.
  rewrite (wrap_small 64 (a + pg * PAGE_SIZ)) by (unfold PAGE_SIZ; lia). unfold PAGE_SIZ in *. fold end_.
  replace (a + pg * 4096 <=? start) with false by lia. replace (end_ <=? a) with false by lia. cbn [orb].
  replace (a <? start) with false by lia. replace (start <=? a) with true by lia.
  replace (a + pg * 4096 <=? end_) with true by lia. cbn [andb res_bind]. unfold delete0. cbn. rewrite (rep_mode _ _ Hr). run_nodes. look.
  subst fuel'. match goal with |- total (allochard_loop (S fuel) ?s1 _ _ _ _) ?Q =>
    change (total (allochard_loop (S fuel) s1 start end_ y y) Q);
    destruct (allochard_self fuel s1 start end_ y b q (hd_id l2)) as (s2 & -> & En & El) end; cbn in *;
    try done; try lia; [by rewrite <- (rep_mode _ _ Hr)|by look|].
  destruct (rep_nodup_mid s [] _ _ _ Hr) as (_ & Hh & _ & Hnd & _). cbn in Hh, Hnd.
  assert (forall w, w ∈ ids l2 -> w <> 0 /\ w <> _free) as Hw.
  { intros w Hw. split; [apply (rep_behind s [] _ _ _ w Hr); cbn; set_solver|]. intros ->. apply Hh. set_solver. }
  assert (chain (nodes s2) l2) as Hc2.
  { rewrite En. eapply chain_frame; [|apply (rep_chain _ _ Hr)]. intros w Hw'. destruct (Hw w Hw'). by look. }
  rewrite (allochard_skip s2 start end_ l2 end_) by (done || lia || (intros w Hw'; by apply (Hw w)) || (unfold block; lia)).
  apply total_Ok. rewrite El. split; [set_solver|]. split_and!; [rewrite En; by look|rewrite En; by look|done].
Qed.

End Pmm.

(** ** A concrete allocator and concrete lists *)

#[export] Instance demo_pmm_env : PmmEnv := {
  raw_node _ := FNode 0 0 0;
  node_alloc X := set_fold (fun x m => Z.max (x + 32) m) (2 ^ 52) X }.

#[export] Instance demo_pmm_env_ok : PmmEnvOk.
Proof.
  assert (forall X : gset Z, (forall x, x ∈ X -> x < node_alloc X) /\ 2 ^ 52 <= node_alloc X) as H.
  { intros X. cbn. apply (set_fold_ind_L (fun m (X : gset Z) => (forall x, x ∈ X -> x < m) /\ 2 ^ 52 <= m)).
    - split; [|done]. intros x Hx. by apply not_elem_of_empty in Hx.
    - intros x Y m Hx [Hm Hb]. split; [|lia]. intros y [->%elem_of_singleton|Hy]%elem_of_union; [lia|].
      specialize (Hm y Hy). lia. }
  split; intros X; destruct (H X) as [Hf Hb]; [|done]. intros Hx. apply Hf in Hx. lia.
Qed.

Definition demo_list (n1 n2 : Z) : list (Z * zone) :=
  [(_free, (0, 0)); (n1, (0x10000, 4)); (n2, (0x40000, 8))].

Definition demo_nodes (n1 n2 : Z) : gmap Z free_t :=
  {[ _free := FNode 0 0 n1; n1 := FNode 4 0x10000 n2; n2 := FNode 8 0x40000 0 ]}.

Definition demo_pmm : pmm :=
  Pmm (demo_nodes (2 ^ 52) (2 ^ 52 + 32)) {[ 2 ^ 52; 2 ^ 52 + 32 ]} 12 12 Post.

Lemma demo_rep : rep demo_pmm (demo_list (2 ^ 52) (2 ^ 52 + 32)).
Proof.
  split; [done|vm_compute; done|apply (bool_decide_unpack _); vm_compute; done|done| |].
  - intros x Hx. cbn in Hx. repeat (apply elem_of_cons in Hx as [->|Hx]; [split; [done|]|]); [by left| | |by apply elem_of_nil in Hx].
    + right. apply (bool_decide_unpack _). vm_compute. done.
    + right. apply (bool_decide_unpack _). vm_compute. done.
  - apply (bool_decide_unpack _). vm_compute. done.
Qed.

Lemma demo_zwf : zwf 1 [(0x10000, 4); (0x40000, 8)].
Proof. cbn. unfold PAGE_SIZ. split_and!; try lia; [by exists 16|by exists 64]. Qed.

Lemma demo_pmm_ok : pmm_ok demo_pmm [(0x10000, 4); (0x40000, 8)].
Proof. exists (0, 0), (tail (demo_list (2 ^ 52) (2 ^ 52 + 32))). split_and!; [exact demo_rep|done|exact demo_zwf]. Qed.

Example pmm_allocpages_first_fit_witness :
  total (pmm_allocpages 3 demo_pmm 6) (fun r => fst r = 0x40000 /\ pmm_ok (snd r) [(0x10000, 4); (0x46000, 2)]).
Proof.
  eapply total_mono; [refine (pmm_allocpages_first_fit demo_pmm [(0x10000, 4); (0x40000, 8)] 6 3 demo_pmm_ok _ _)|].
  - lia.
  - cbn. lia.
  - intros r [[_ H]|(_ & _ & _ & pre & pg & post & zs' & E & Hpg & Hpre & -> & Hok & _)].
    { assert (8 < 6) by (apply (H 0x40000); rewrite !elem_of_cons; auto). lia. }
    destruct pre as [|z1 [|z2 pre]]; cbn [app] in E; [injection E as _ <- _; lia| |].
    + injection E as <- Hp <- <-. rewrite <- Hp in *. split; [reflexivity|exact Hok].
    + injection E as <- <- E. assert (8 < 6) by (apply (Hpre 0x40000); rewrite !elem_of_cons; auto). lia.
Defined.

Example pmm_freepages_gives_back_witness :
  total (pmm_freepages 3 demo_pmm 0x14000 2) (fun s' => exists zs', pmm_ok s' zs' /\ covers zs' 0x15000).
Proof.
  eapply total_mono; [refine (pmm_freepages_gives_back demo_pmm [(0x10000, 4); (0x40000, 8)] 0x14000 2 3 demo_pmm_ok _ _ _ _ _ _ _)|].
  - done.
  - lia.
  - by exists 20.
  - lia.
  - unfold PAGE_SIZ. lia.
  - unfold PAGE_SIZ. intros x Hx. cbn. unfold PAGE_SIZ. lia.
  - cbn. lia.
  - intros s' (_ & zs' & Hok & Hc). exists zs'. split; [exact Hok|]. apply Hc. left. unfold PAGE_SIZ. lia.
Defined.

Example pmm_tovmm_keeps_zones_witness :
  total (__pmm_tovmm 3 (Pmm (demo_nodes 0x10000 0x40000) ∅ 12 12 Early))
    (fun s' => pmm_ok s' [(0x10000, 4); (0x40000, 8)]).
Proof.
  apply (pmm_tovmm_keeps_zones _ (tail (demo_list 0x10000 0x40000))).
  - split_and!; [exists (0, 0); vm_compute; done|set_solver| |exact demo_zwf].
    intros x Hx. cbn in Hx. repeat (apply elem_of_cons in Hx as [->|Hx]; [lia|]). by apply elem_of_nil in Hx.
  - intros x Hx. split; [|done]. cbn. unfold demo_nodes. rewrite 2!lookup_insert_ne by (unfold _free; lia). apply lookup_singleton_ne. lia.
  - cbn. lia.
Defined.

Example pmm_allochard_keeps_second_witness :
  total (pmm_allochard 2 demo_pmm 0x1000 255) (fun s' => 2 ^ 52 + 32 ∉ live s').
Proof.
  eapply total_mono; [refine (pmm_allochard_keeps_second demo_pmm (0, 0) (2 ^ 52) 0x10000 4 (2 ^ 52 + 32) 0x40000 8 []
    0x1000 255 2 demo_rep demo_zwf _ _ _ _ _)|].
  - by exists 1.
  - lia.
  - unfold PAGE_SIZ. lia.
  - cbn. unfold PAGE_SIZ. lia.
  - cbn. lia.
  - intros s' [Hy _]. exact Hy.
Defined.
