(* ===== verification/TtyBuf.v ===== *)
(** * Terminal buffers: [kernel/dev/tty/tty_buffer.c]

    A ring of [TTY_BUFSIZ] characters, each with a byte of flags, refined to the list of the
    characters waiting in it, oldest first. *)
From Stdlib Require Import ZArith Lia List Bool.
From stdpp Require Import base list.
From S2P Require Import Prelude.

#[local] Open Scope Z_scope.

Definition TTY_BUFSIZ : Z := 4096.

Definition TTY_BF_END : Z := 1.

Record tty_buf := TtyBuf { buf : list Z; flags : list Z; head : Z; tail : Z }.

#[export] Instance eta_tty_buf : Eta tty_buf := fun r => TtyBuf (buf r) (flags r) (head r) (tail r).

Definition tty_buf_init (b : tty_buf) : tty_buf := b <| head := 0 |> <| tail := 0 |>.

(** [%] on the non-negative operands these functions give it. *)
Definition tty_buf_full (b : tty_buf) : bool := (head b + 1) mod TTY_BUFSIZ =? tail b.

Definition tty_buf_chrs (b : tty_buf) : Z := (head b - tail b + TTY_BUFSIZ) mod TTY_BUFSIZ.

Definition tty_buf_rems (b : tty_buf) : Z := (tail b - head b - 1 + TTY_BUFSIZ) mod TTY_BUFSIZ.

Definition tty_buf_putc (b : tty_buf) (c : Z) : res (Z * tty_buf) :=
  let next := (head b + 1) mod TTY_BUFSIZ in
  if next =? tail b then Ok (-1, b)
  else
    let! bs := aset (buf b) (head b) c in
    let! fs := aset (flags b) (head b) 0 in
    Ok (0, TtyBuf bs fs next (tail b)).

(** The result and the character stored through the pointer. *)
Definition tty_buf_getc (b : tty_buf) : res (Z * Z * tty_buf) :=
  if head b =? tail b then Ok (-1, 0, b)
  else
    let! c := aget (buf b) (tail b) in
    let! flag := aget (flags b) (tail b) in
    Ok (flag, c, b <| tail := (tail b + 1) mod TTY_BUFSIZ |>).

Definition tty_buf_mark (b : tty_buf) (flag : Z) : res (Z * tty_buf) :=
  if head b =? tail b then Ok (-1, b)
  else
    let pos := (head b - 1 + TTY_BUFSIZ) mod TTY_BUFSIZ in
    let! f := aget (flags b) pos in
    let! fs := aset (flags b) pos (Z.lor f flag) in
    Ok (0, b <| flags := fs |>).

Definition tty_buf_kill (b : tty_buf) : tty_buf := b <| head := 0 |> <| tail := 0 |>.

Definition tty_buf_erase (b : tty_buf) : res (Z * tty_buf) :=
  if head b =? tail b then Ok (-1, b)
  else
    let prev := (head b - 1 + TTY_BUFSIZ) mod TTY_BUFSIZ in
    let! f := aget (flags b) prev in
    if negb (Z.land f TTY_BF_END =? 0) then Ok (0, b)
    else Ok (0, b <| head := prev |>).

Definition isspace (c : Z) : bool :=
  (c =? 32) || (c =? 12) || (c =? 10) || (c =? 13) || (c =? 9) || (c =? 11).

(** One of the two loops of [tty_buf_erasew]; it goes on while [isspace(c)] is [want]. *)
Fixpoint erasew_loop (fuel : nat) (want : bool) (b : tty_buf) (count : Z) : res (Z * tty_buf) :=
  if head b =? tail b then Ok (count, b)
  else
  match fuel with
  | O => Fault OutOfFuel
  | S fuel =>
      let prev := (head b - 1 + TTY_BUFSIZ) mod TTY_BUFSIZ in
      let! c := aget (buf b) prev in
      let! flag := aget (flags b) prev in
      if negb (Z.land flag TTY_BF_END =? 0) then Ok (count, b)
      else if negb (Bool.eqb (isspace c) want) then Ok (count, b)
      else erasew_loop fuel want (b <| head := prev |>) (count + 1)
  end.

Definition tty_buf_erasew (fuel : nat) (b : tty_buf) : res (Z * tty_buf) :=
  if head b =? tail b then Ok (0, b)
  else
    let! r := erasew_loop fuel true b 0 in
    erasew_loop fuel false (snd r) (fst r).

(** ** The characters in the ring *)

Definition slot (b : tty_buf) (i : nat) : nat := Z.to_nat ((tail b + Z.of_nat i) mod TTY_BUFSIZ).

(** Each element is a character with its flags. *)
Record brep (b : tty_buf) (q : list (Z * Z)) : Prop := {
  br_buf : length (buf b) = 4096%nat;
  br_flags : length (flags b) = 4096%nat;
  br_tail : 0 <= tail b < TTY_BUFSIZ;
  br_head : head b = (tail b + Z.of_nat (length q)) mod TTY_BUFSIZ;
  br_len : (length q < 4096)%nat;
  br_at : forall i c f, q !! i = Some (c, f) -> buf b !! slot b i = Some c /\ flags b !! slot b i = Some f }.

Ltac ring_lia := unfold slot, TTY_BUFSIZ in *; Z.div_mod_to_equations; lia.

Lemma slot_inj b i j : (i < 4096)%nat -> (j < 4096)%nat -> slot b i = slot b j -> i = j.
Proof. intros. ring_lia. Qed.

Lemma slot_lt b i : (slot b i < 4096)%nat.
Proof. ring_lia. Qed.

Lemma brep_head b q : brep b q -> 0 <= head b < TTY_BUFSIZ /\ Z.to_nat (head b) = slot b (length q).
Proof. intros [_ _ Ht Hh _ _]. rewrite Hh. split; [ring_lia|]. unfold slot. done. Qed.

Lemma brep_empty b q : brep b q -> (head b =? tail b) = match q with [] => true | _ => false end.
Proof.
  intros [_ _ Ht Hh Hl _]. rewrite Hh. destruct q as [|x q]; cbn [length] in *.
  - apply Z.eqb_eq. ring_lia.
  - apply Z.eqb_neq. ring_lia.
Qed.

Lemma brep_chrs b q : brep b q -> tty_buf_chrs b = Z.of_nat (length q).
Proof. intros [_ _ Ht Hh Hl _]. unfold tty_buf_chrs. rewrite Hh. ring_lia. Qed.

Lemma brep_rems b q : brep b q -> tty_buf_rems b = 4095 - Z.of_nat (length q).
Proof. intros [_ _ Ht Hh Hl _]. unfold tty_buf_rems. rewrite Hh. ring_lia. Qed.

Lemma brep_full b q : brep b q -> tty_buf_full b = (Z.of_nat (length q) =? 4095).
Proof.
  intros [_ _ Ht Hh Hl _]. unfold tty_buf_full. rewrite Hh.
  destruct (Z.eqb_spec (Z.of_nat (length q)) 4095); [apply Z.eqb_eq|apply Z.eqb_neq]; ring_lia.
Qed.

Lemma brep_reset b q : brep b q -> brep (b <| head := 0 |> <| tail := 0 |>) [].
Proof. intros [Hb Hf _ _ _ _]. split; cbn; try done; ring_lia. Qed.

(** The slot before [head] is the slot of the newest character. *)
Lemma brep_last b q c f : brep b (q ++ [(c, f)]) ->
  let prev := (head b - 1 + TTY_BUFSIZ) mod TTY_BUFSIZ in
  0 <= prev < TTY_BUFSIZ /\ Z.to_nat prev = slot b (length q) /\
  prev = (tail b + Z.of_nat (length q)) mod TTY_BUFSIZ /\
  aget (buf b) prev = Ok c /\ aget (flags b) prev = Ok f.
Proof.
  intros Hr prev. pose proof Hr as [_ _ Ht Hh Hl Hat]. rewrite length_app in Hh, Hl. cbn [length] in Hh, Hl.
  assert (prev = (tail b + Z.of_nat (length q)) mod TTY_BUFSIZ) as E by (subst prev; rewrite Hh; ring_lia).
  destruct (Hat (length q) c f) as [H1 H2]; [by rewrite lookup_app_r, Nat.sub_diag by lia|].
  unfold slot in *. rewrite <- E in H1, H2. rewrite <- E. assert (0 <= prev) by (rewrite E; ring_lia).
  split_and!; [done|rewrite E; ring_lia|done|done|by apply aget_Ok|by apply aget_Ok].
Qed.

(** Dropping the newest character. *)
Lemma brep_drop b q x : brep b (q ++ [x]) ->
  brep (b <| head := (head b - 1 + TTY_BUFSIZ) mod TTY_BUFSIZ |>) q.
Proof.
  destruct x as [c f]. intros Hr. destruct (brep_last _ _ _ _ Hr) as (_ & _ & E & _ & _).
  destruct Hr as [Hb Hf Ht Hh Hl Hat]. rewrite length_app in Hl. cbn in Hl. split; cbn; try done; [lia|].
  intros i c' f' Hi. apply (Hat i). apply lookup_app_l_Some. exact Hi.
Qed.

(** ** Each operation on the list *)

Lemma putc_spec b q c : brep b q ->
  total (tty_buf_putc b c) (fun r =>
    if Z.of_nat (length q) =? 4095 then r = (-1, b) else fst r = 0 /\ brep (snd r) (q ++ [(c, 0)])).
Proof.
  intros Hr. destruct (brep_head _ _ Hr) as [Hh Eh]. pose proof (brep_full _ _ Hr) as Hfull. unfold tty_buf_full in Hfull.
  pose proof Hr as [Hb Hf Ht Hhd Hl Hat]. unfold tty_buf_putc. cbv zeta. rewrite Hfull.
  destruct (Z.eqb_spec (Z.of_nat (length q)) 4095) as [E|E]; [by apply total_Ok|]. unfold TTY_BUFSIZ in Hh.
  rewrite !aset_lt by (rewrite ?Hb, ?Hf; lia). cbn [res_bind]. apply total_Ok. split; [done|].
  split; cbn [buf flags head tail snd]; rewrite ?length_insert, ?length_app; cbn [length]; try done; [|lia|].
  { rewrite Hhd, Zplus_mod_idemp_l. f_equal. lia. }
  intros i c' f' Hi. assert (slot (TtyBuf (<[Z.to_nat (head b):=c]> (buf b)) (<[Z.to_nat (head b):=0]> (flags b))
    ((head b + 1) mod TTY_BUFSIZ) (tail b)) i = slot b i) as -> by done. rewrite Eh.
  destruct (decide (i = length q)) as [->|Hne].
  - rewrite lookup_app_r, Nat.sub_diag in Hi by lia. cbn in Hi. simplify_eq. pose proof (slot_lt b (length q)).
    rewrite !list_lookup_insert_eq by lia. done.
  - assert (i < length q)%nat by (apply lookup_lt_Some in Hi; rewrite length_app in Hi; cbn in Hi; lia).
    rewrite lookup_app_l in Hi by lia. rewrite !list_lookup_insert_ne; [by apply Hat|..];
      intros Es; apply slot_inj in Es; lia.
Qed.

Lemma getc_spec b q : brep b q ->
  total (tty_buf_getc b) (fun r =>
    match q with
    | [] => r = (-1, 0, b)
    | (c, f) :: q => fst r = (f, c) /\ brep (snd r) q
    end).
Proof.
  intros Hr. pose proof (brep_empty _ _ Hr) as He. unfold tty_buf_getc. rewrite He.
  destruct q as [|[c f] q]; [by apply total_Ok|]. destruct Hr as [Hb Hf Ht Hh Hl Hat].
  destruct (Hat 0%nat c f) as [H1 H2]; [done|]. unfold slot in H1, H2. rewrite Z.add_0_r, Z.mod_small in H1, H2 by done.
  rewrite (proj2 (aget_Ok (buf b) (tail b) c)), (proj2 (aget_Ok (flags b) (tail b) f)) by (split; [lia|done]).
  cbn [res_bind]. apply total_Ok. split; [done|]. cbn [length] in *.
  split; cbn -[Z.modulo Z.add Z.of_nat]; try done; [ring_lia| |lia|].
  { rewrite Hh, Zplus_mod_idemp_l. f_equal. lia. }
  intros i c' f' Hi. specialize (Hat (S i) c' f' Hi). cbn.
  assert (slot (b <| tail := (tail b + 1) mod TTY_BUFSIZ |>) i = slot b (S i)) as ->; [|done].
  unfold slot. cbn [tail]. f_equal. unfold TTY_BUFSIZ. rewrite Nat2Z.inj_succ.
  change (tail (b <| tail := (tail b + 1) mod 4096 |>)) with ((tail b + 1) mod 4096).
  rewrite Zplus_mod_idemp_l. f_equal. lia.
Qed.

Lemma mark_spec b q c f flag : brep b (q ++ [(c, f)]) ->
  total (tty_buf_mark b flag) (fun r => fst r = 0 /\ brep (snd r) (q ++ [(c, Z.lor f flag)])).
Proof.
  intros Hr. pose proof (brep_empty _ _ Hr) as He. unfold tty_buf_mark. rewrite He.
  replace (match q ++ [(c, f)] with [] => true | _ => false end) with false by (by destruct q). cbv zeta.
  destruct (brep_last _ _ _ _ Hr) as (Hp & Es & _ & _ & Hfl). set (prev := (head b - 1 + TTY_BUFSIZ) mod TTY_BUFSIZ) in *.
  destruct Hr as [Hb Hf Ht Hh Hl Hat]. rewrite Hfl. cbn [res_bind]. unfold TTY_BUFSIZ in Hp.
  rewrite aset_lt by (rewrite Hf; lia). cbn [res_bind]. apply total_Ok. split; [done|]. rewrite length_app in Hh, Hl.
  split; cbn -[Z.modulo Z.add Z.of_nat]; rewrite ?length_insert, ?length_app; try done.
  intros i c' f' Hi. change (slot (b <| flags := <[Z.to_nat prev:=Z.lor f flag]> (flags b) |>) i) with (slot b i).
  change (flags (b <| flags := ?x |>)) with x. change (buf (b <| flags := ?x |>)) with (buf b). rewrite Es.
  destruct (decide (i = length q)) as [->|Hne].
  - rewrite lookup_app_r, Nat.sub_diag in Hi by lia. cbn in Hi. simplify_eq. pose proof (slot_lt b (length q)).
    rewrite list_lookup_insert_eq by lia. split; [|done].
    destruct (Hat (length q) c' f) as [H1 _]; [by rewrite lookup_app_r, Nat.sub_diag by lia|done].
  - assert (i < length q)%nat by (apply lookup_lt_Some in Hi; rewrite length_app in Hi; cbn in Hi; lia).
    rewrite lookup_app_l in Hi by lia. cbn in Hl. rewrite list_lookup_insert_ne; [|intros E; apply slot_inj in E; lia].
    apply Hat. rewrite lookup_app_l by lia. done.
Qed.

(** What erasing one character, and erasing while a test holds, leave; the newest character is
    the first of the reversed list. *)
Definition ended (f : Z) : bool := negb (Z.land f TTY_BF_END =? 0).

Lemma erase_spec b q x : brep b (q ++ [x]) ->
  total (tty_buf_erase b) (fun r => fst r = 0 /\ brep (snd r) (if ended (snd x) then q ++ [x] else q)).
Proof.
  intros Hr. destruct x as [c f]. pose proof (brep_empty _ _ Hr) as He. unfold tty_buf_erase. rewrite He.
  replace (match q ++ [(c, f)] with [] => true | _ => false end) with false by (by destruct q). cbv zeta.
  destruct (brep_last _ _ _ _ Hr) as (_ & _ & _ & _ & ->). cbn [res_bind snd]. unfold ended.
  destruct (negb (Z.land f TTY_BF_END =? 0)); apply total_Ok; (split; [done|]); [done|]. by eapply brep_drop.
Qed.

Fixpoint drop_while (want : bool) (rq : list (Z * Z)) : list (Z * Z) :=
  match rq with
  | [] => []
  | (c, f) :: r => if ended f then rq else if Bool.eqb (isspace c) want then drop_while want r else rq
  end.

Lemma drop_while_length want rq : (length (drop_while want rq) <= length rq)%nat.
Proof. induction rq as [|[c f] rq IH]; cbn; [lia|]. destruct (ended f), (Bool.eqb (isspace c) want); cbn; lia. Qed.

Lemma erasew_loop_spec want rq : forall b count fuel,
  brep b (rev rq) -> (length rq <= fuel)%nat ->
  total (erasew_loop fuel want b count) (fun r => brep (snd r) (rev (drop_while want rq)) /\
    fst r = count + Z.of_nat (length rq - length (drop_while want rq))).
Proof.
  induction rq as [|[c f] rq IH]; intros b count fuel Hr Hf; pose proof (brep_empty _ _ Hr) as He.
  { destruct fuel; cbn [erasew_loop]; rewrite He; apply total_Ok; (split; [done|]); cbn; lia. }
  destruct fuel as [|fuel]; [cbn in Hf; lia|]. cbn [rev] in Hr, He. cbn [erasew_loop]. rewrite He.
  replace (match rev rq ++ [(c, f)] with [] => true | _ => false end) with false by (by destruct (rev rq)). cbv zeta.
  destruct (brep_last _ _ _ _ Hr) as (_ & _ & _ & -> & ->). cbn [res_bind]. cbn [drop_while].
  fold (ended f). destruct (ended f); [apply total_Ok; (split; [done|]); cbn; lia|].
  destruct (Bool.eqb (isspace c) want); cbn [negb]; [|apply total_Ok; (split; [done|]); cbn; lia].
  eapply total_mono; [apply (IH _ (count + 1) fuel); [by eapply brep_drop|cbn in Hf; lia]|].
  intros r [H1 H2]. split; [done|]. rewrite H2. pose proof (drop_while_length want rq). cbn [length]. lia.
Qed.

(** C26: a terminal buffer is a bounded queue of flagged characters that can also be edited at
    its newest end: putting fails exactly when 4095 characters wait, getting takes the oldest,
    marking flags the newest, erasing removes the newest unless it ends a line, and word erase
    removes first the spaces and then the word before the cursor, never past the end of a line. *)
Theorem tty_buf_refines b q :
  brep b q ->
  (forall c, total (tty_buf_putc b c) (fun r =>
     if Z.of_nat (length q) =? 4095 then r = (-1, b) else fst r = 0 /\ brep (snd r) (q ++ [(c, 0)]))) /\
  total (tty_buf_getc b) (fun r =>
     match q with [] => r = (-1, 0, b) | (c, f) :: q => fst r = (f, c) /\ brep (snd r) q end) /\
  (forall p c f flag, q = p ++ [(c, f)] ->
     total (tty_buf_mark b flag) (fun r => fst r = 0 /\ brep (snd r) (p ++ [(c, Z.lor f flag)]))) /\
  (forall p x, q = p ++ [x] ->
     total (tty_buf_erase b) (fun r => fst r = 0 /\ brep (snd r) (if ended (snd x) then q else p))) /\
  total (tty_buf_erasew 4096 b) (fun r =>
     let left := drop_while false (drop_while true (rev q)) in
     brep (snd r) (rev left) /\ fst r = Z.of_nat (length q - length left)).
Proof.
  intros Hr. split_and!; [intros c; by apply putc_spec|by apply getc_spec|intros p c f flag ->; by apply mark_spec|
    intros p x ->; by apply erase_spec|]. unfold tty_buf_erasew. rewrite (brep_empty _ _ Hr).
  pose proof (br_len _ _ Hr) as Hl. rewrite <- (rev_involutive q) in Hr. pose proof (length_rev q) as El.
  destruct (decide (q = [])) as [->|Hne]; [apply total_Ok; cbn; done|].
  replace (match q with [] => true | _ => false end) with false by (by destruct q).
  eapply total_bind; [apply (erasew_loop_spec true _ b 0 4096 Hr); lia|]. intros r [H1 H2].
  pose proof (drop_while_length true (rev q)). pose proof (drop_while_length false (drop_while true (rev q))).
  eapply total_mono; [apply (erasew_loop_spec false _ (snd r) (fst r) 4096 H1); lia|].
  intros r' [H3 H4]. cbv zeta. split; [done|]. lia.
Qed.

(** A buffer holding [ab] and then a word to erase. *)
Definition demo_buf : tty_buf := TtyBuf (replicate 4096 0) (replicate 4096 0) 0 0.

Lemma demo_buf_ok : brep demo_buf [].
Proof. split; cbn -[replicate]; rewrite ?length_replicate; try done; ring_lia. Qed.

Example tty_buf_refines_witness :
  total (tty_buf_putc demo_buf 97) (fun r => fst r = 0 /\ brep (snd r) [(97, 0)]).
Proof. exact (proj1 (tty_buf_refines demo_buf [] demo_buf_ok) 97). Defined.
