(* ===== verification/Poll.v ===== *)
(** * Poll notification: [kernel/fs/poll.c]

    The pollers waiting on an object, in the order of its list (a new one goes to the front).
    A delivery returns the task it made ready, if any. *)
From Stdlib Require Import ZArith Lia List Bool.
From stdpp Require Import base list.
From S2P Require Import Prelude.

#[local] Open Scope Z_scope.

Definition POLLIN : Z := 0x1.
Definition POLLOUT : Z := 0x4.
Definition POLLERR : Z := 0x8.
Definition POLLHUP : Z := 0x10.
Definition POLLNVAL : Z := 0x20.

Record fs_poller := Poller {
  p_id : Z;
  info_events : Z;
  info_openctx : Z;
  info_poller : option Z;
  revents : Z;
  in_pollee_list : bool }.

#[export] Instance eta_fs_poller : Eta fs_poller :=
  fun r => Poller (p_id r) (info_events r) (info_openctx r) (info_poller r) (revents r) (in_pollee_list r).

Record fs_pollee := Pollee { npollers : Z; r_pollee : list fs_poller }.

#[export] Instance eta_fs_pollee : Eta fs_pollee := fun r => Pollee (npollers r) (r_pollee r).

(** The count is left as the memory had it. *)
Definition fs_pollee_init (p : fs_pollee) : fs_pollee := p <| r_pollee := [] |>.

Definition fs_poller_init (id events openctx curr : Z) : fs_poller :=
  Poller id (Z.lor events (Z.lor POLLHUP (Z.lor POLLERR POLLNVAL))) openctx (Some curr) 0 false.

(** [ctx] is the list of pollers of the open file. *)
Definition fs_poll_setup (p : fs_pollee) (r : fs_poller) (ctx : list Z) : fs_pollee * list Z :=
  let r := r <| in_pollee_list := true |> in
  (Pollee (u64 (npollers p + 1)) (r :: r_pollee p), p_id r :: ctx).

Definition other (id : Z) (r : fs_poller) : bool := negb (p_id r =? id).

Definition fs_poll_teardown (p : fs_pollee) (r : fs_poller) (ctx : list Z) : fs_pollee * list Z :=
  if negb (in_pollee_list r) then (p, ctx)
  else (Pollee (u64 (npollers p - 1)) (List.filter (other (p_id r)) (r_pollee p)),
        List.filter (fun i => negb (i =? p_id r)) ctx).

Definition fs_poll_deliver_to (ev : Z) (r : fs_poller) (unblock : bool) : bool * fs_poller * option Z :=
  if Z.land (info_events r) ev =? 0 then (false, r, None)
  else
    let r := r <| revents := ev |> in
    if unblock then
      match info_poller r with
      | None => (false, r, None)
      | Some t => (true, r <| info_poller := None |>, Some t)
      end
    else (true, r, None).

Fixpoint deliver_loop (ev : Z) (l : list fs_poller) : bool * list fs_poller * option Z :=
  match l with
  | [] => (false, [], None)
  | r :: l =>
      let '(b, r, woken) := fs_poll_deliver_to ev r true in
      if b then (true, r :: l, woken)
      else let '(b, l, woken) := deliver_loop ev l in (b, r :: l, woken)
  end.

Definition fs_poll_deliver (p : fs_pollee) (ev : Z) : bool * fs_pollee * option Z :=
  if npollers p =? 0 then (false, p, None)
  else let '(b, l, woken) := deliver_loop ev (r_pollee p) in (b, p <| r_pollee := l |>, woken).

(** A delivery makes one task ready exactly when it succeeds, and no task twice. *)
Lemma deliver_loop_once ev l b l' woken :
  deliver_loop ev l = (b, l', woken) ->
  b = match woken with Some _ => true | None => false end /\
  forall t, woken = Some t -> exists l1 r l2, l = l1 ++ r :: l2 /\ info_poller r = Some t /\
    exists l1', length l1' = length l1 /\ l' = l1' ++ r <| revents := ev |> <| info_poller := None |> :: l2.
Proof.
  revert b l' woken. induction l as [|r l IH]; intros b l' woken; cbn [deliver_loop]; [intros [= <- <- <-]; split; done|].
  unfold fs_poll_deliver_to. destruct (Z.land (info_events r) ev =? 0); [|destruct (info_poller r) as [t|] eqn:Et; cbn; rewrite Et].
  2: { intros [= <- <- <-]. split; [done|]. intros t' [= <-]. exists [], r, l. split_and!; [done|done|]. by exists []. }
  all: destruct (deliver_loop ev l) as [[b1 l1] w1]; destruct (IH _ _ _ eq_refl) as [Hb Hw];
    intros [= <- <- <-]; (split; [done|]); intros t' Ht; destruct (Hw t' Ht) as (k1 & r1 & k2 & -> & Hr & k1' & El & ->).
  - exists (r :: k1), r1, k2. split_and!; [done|done|]. exists (r :: k1'). cbn. by rewrite El.
  - exists (r :: k1), r1, k2. split_and!; [done|done|]. eexists (_ :: k1'). cbn. by rewrite El.
Qed.
