(* ===== verification/Tty.v ===== *)
(** * The terminal: [kernel/dev/tty/tty.c], [cap.c]

    The state of one terminal. Calls that leave the component are recorded in order in [calls]:
    output to the device, tasks made ready, signals to a process group, timers armed. A reader
    or writer that blocks resumes in whatever state the rest of the kernel has left the
    terminal, with the result of [task_block]: the parameter [sleep]. Input characters are
    C's signed [char], control characters its unsigned [cc_t]. *)
From Stdlib Require Import ZArith Lia List Bool.
From stdpp Require Import base list.
From S2P Require Import Prelude TtyBuf Poll.

#[local] Open Scope Z_scope.

(** ** [termios.h] *)

Definition ISTRIP : Z := 0x20.
Definition INLCR : Z := 0x40.
Definition IGNCR : Z := 0x80.
Definition ICRNL : Z := 0x100.
Definition IXON : Z := 0x400.
Definition IXOFF : Z := 0x1000.

Definition OPOST : Z := 0x1.
Definition OLCUC : Z := 0x2.
Definition ONLCR : Z := 0x4.

Definition CS8 : Z := 0x30.
Definition CREAD : Z := 0x80.
Definition CLOCAL : Z := 0x800.

Definition ISIG : Z := 0x1.
Definition ICANON : Z := 0x2.
Definition ECHO : Z := 0x8.
Definition ECHOE : Z := 0x10.
Definition ECHOK : Z := 0x20.
Definition ECHONL : Z := 0x40.
Definition NOFLSH : Z := 0x80.
Definition ECHOKE : Z := 0x800.

Definition VINTR : Z := 0.
Definition VQUIT : Z := 1.
Definition VERASE : Z := 2.
Definition VKILL : Z := 3.
Definition VEOF : Z := 4.
Definition VTIME : Z := 5.
Definition VMIN : Z := 6.
Definition VSTART : Z := 8.
Definition VSTOP : Z := 9.
Definition VSUSP : Z := 10.
Definition VEOL : Z := 11.
Definition VEOL2 : Z := 16.

Record termios := Termios { c_iflag : Z; c_oflag : Z; c_cflag : Z; c_lflag : Z; c_cc : Z -> Z }.

Inductive call :=
| Out (s : list Z)
| Unblock (pid : Z)
| Fkill (pid sig : Z)
| Ktimer (ms : Z)
| Ctl (req : Z).

Record tty := Tty {
  stop : Z;
  istop : Z;
  pgrp : Z;
  ses_id : Z;
  ses_holders : Z;
  iwaiter : option Z;
  owaiter : option Z;
  ibuf : tty_buf;
  obuf : tty_buf;
  reqlen : Z;
  timeout : bool;
  tio : termios;
  pollee : fs_pollee;
  calls : list call }.

#[export] Instance eta_tty : Eta tty := fun r =>
  Tty (stop r) (istop r) (pgrp r) (ses_id r) (ses_holders r) (iwaiter r) (owaiter r) (ibuf r) (obuf r)
      (reqlen r) (timeout r) (tio r) (pollee r) (calls r).

(** What the terminal takes from the scheduler: the current task, and its sleep. *)
Class TtyEnv := { curr : Z; sleep : tty -> Z * tty }.

Definition FC (x y : Z) : bool := Z.land x y =? y.

Definition FC_IFLAG (t : tty) (y : Z) : bool := FC (c_iflag (tio t)) y.

Definition FC_OFLAG (t : tty) (y : Z) : bool := FC (c_oflag (tio t)) y.

Definition FC_LFLAG (t : tty) (y : Z) : bool := FC (c_lflag (tio t)) y.

Definition cc (t : tty) (i : Z) : Z := c_cc (tio t) i.

Definition emit (t : tty) (c : call) : tty := t <| calls ::= fun l => l ++ [c] |>.

Definition unblock_opt (t : tty) (w : option Z) : tty :=
  match w with None => t | Some pid => emit t (Unblock pid) end.

(** [unblock_and_clean(&tty->iwaiter)] and [unblock_and_clean(&tty->owaiter)] *)
Definition clean_iwaiter (t : tty) : tty := (unblock_opt t (iwaiter t)) <| iwaiter := None |>.

Definition clean_owaiter (t : tty) : tty := (unblock_opt t (owaiter t)) <| owaiter := None |>.

(** [fs_poll_deliver(&tty->pollee, POLLIN)] *)
Definition deliver (t : tty) : bool * tty :=
  let '(b, p, woken) := fs_poll_deliver (pollee t) POLLIN in (b, unblock_opt (t <| pollee := p |>) woken).

Definition mark_end (t : tty) : res tty :=
  let! r := tty_buf_mark (ibuf t) TTY_BF_END in Ok (t <| ibuf := snd r |>).

Definition tty_nc_timeout (t : tty) : res tty :=
  let! t := mark_end t in
  let '(b, t) := deliver t in
  if b then Ok t else Ok (clean_iwaiter (t <| timeout := true |>)).

Definition tflow (t : tty) (st : Z) : tty :=
  if negb (FC_IFLAG t IXOFF) then t
  else if istop t =? st then t
  else t <| istop := st |>.

(** ** Output *)

Section Tty.
Context `{TtyEnv}.

(** [fuel] bounds how often a stopped writer finds the buffer full again. *)
Fixpoint tputc (fuel : nat) (t : tty) (c : Z) : res tty :=
  if negb (stop t =? 0) then
    let! r := tty_buf_putc (obuf t) c in
    let t := t <| obuf := snd r |> in
    if fst r <? 0 then
      match fuel with
      | O => Fault OutOfFuel
      | S fuel =>
          let t := t <| owaiter := Some curr |> in
          let '(_, t) := sleep t in
          tputc fuel t c
      end
    else Ok t
  else Ok (emit t (Out [c])).

Definition islower (c : Z) : bool := (97 <=? c) && (c <=? 122).

Definition opost (fuel : nat) (t : tty) (c : Z) : res tty :=
  if FC_OFLAG t OPOST then
    let c := if FC_OFLAG t OLCUC && islower c then i8 (Z.land c (Z.lnot 32)) else c in
    let! t := (if FC_OFLAG t ONLCR && (c =? 10) then tputc fuel t 13 else Ok t) in
    tputc fuel t c
  else tputc fuel t c.

Fixpoint tty_write (fuel : nat) (t : tty) (s : list Z) : res (Z * tty) :=
  match s with
  | [] => Ok (0, t)
  | c :: s =>
      let! t := opost fuel t c in
      let! r := tty_write fuel t s in
      Ok (fst r + 1, snd r)
  end.

(** [tstop]: on restart the bytes before [tail] are sent. *)
Definition tstop (t : tty) (st : Z) : tty :=
  if negb (FC_IFLAG t IXON) then t
  else
    let t := t <| stop := st |> in
    if st =? 0 then
      let t := emit t (Out (firstn (Z.to_nat (tail (obuf t))) (buf (obuf t)))) in
      clean_owaiter (t <| obuf ::= tty_buf_kill |>)
    else t.

(** ** Input *)

Definition iputc (t : tty) (c : Z) : res tty :=
  let rem := tty_buf_rems (ibuf t) in
  if negb (rem =? 0) then
    let! r := tty_buf_putc (ibuf t) c in
    let t := t <| ibuf := snd r |> in
    Ok (if rem - 1 =? 0 then tflow t 1 else t)
  else Ok t.

Definition tty_c_deliver (t : tty) : res tty :=
  let! t := mark_end t in
  Ok (snd (deliver (clean_iwaiter t))).

Definition SIGINT : Z := 2.
Definition SIGQUIT : Z := 3.
Definition SIGTSTP : Z := 20.

Definition tsig (t : tty) (sig : Z) : tty :=
  let t := if negb (FC_LFLAG t NOFLSH) then t <| ibuf ::= tty_buf_kill |> else t in
  if FC_LFLAG t ISIG then emit t (Fkill (- pgrp t) sig) else t.

Definition rubout (fuel : nat) (t : tty) : res tty :=
  let! t := tputc fuel t 8 in
  let! t := tputc fuel t 32 in
  tputc fuel t 8.

(** The buffer holds fewer than [TTY_BUFSIZ] characters, which bounds [i]. *)
Fixpoint rubouts (n fuel : nat) (t : tty) (i : Z) : res tty :=
  if negb (i <? tty_buf_chrs (ibuf t)) then Ok t
  else
  match n with
  | O => Fault OutOfFuel
  | S n => let! t := rubout fuel t in rubouts n fuel t (i + 1)
  end.

(** The translations at the top of the loop of [tty_feed]; [None] skips the character. *)
Definition translate (t : tty) (p : Z) : option Z :=
  let p := if negb (Z.land p 0x80 =? 0) && FC_IFLAG t ISTRIP then i8 (Z.land p 0x7f) else p in
  if (p =? 13) && FC_IFLAG t IGNCR then None
  else
    let p := if (p =? 13) && FC_IFLAG t ICRNL then 10 else p in
    let p := if (p =? 10) && FC_IFLAG t INLCR then 13 else p in
    Some p.

(** The canonical-mode part; [None] when the character is none of its own. *)
Definition feed_canon (fuel : nat) (t : tty) (p : Z) : option (res tty) :=
  if cc t VEOF =? p then Some (tty_c_deliver t)
  else if (10 =? p) || (cc t VEOL =? p) || (cc t VEOL2 =? p) then
    Some (let! t := (if FC_LFLAG t ECHO || FC_LFLAG t ECHONL then opost fuel t 10 else Ok t) in
          let! t := iputc t 10 in
          tty_c_deliver t)
  else if cc t VERASE =? p then
    Some (let! t := (if FC_LFLAG t (Z.lor ECHO ECHOE) then rubout fuel t else Ok t) in
          let! r := tty_buf_erase (ibuf t) in
          Ok (t <| ibuf := snd r |>))
  else if cc t VKILL =? p then
    Some (if tty_buf_chrs (ibuf t) =? 0 then Ok t
          else
            let! t := (if FC_LFLAG t (Z.lor ECHO ECHOK) || FC_LFLAG t (Z.lor ECHO ECHOKE)
                       then rubouts (Z.to_nat TTY_BUFSIZ) fuel t 0 else Ok t) in
            let! t := (if FC_LFLAG t (Z.lor ECHO ECHOKE) then opost fuel t 10 else Ok t) in
            Ok (t <| ibuf ::= tty_buf_kill |>))
  else None.

(** What every character that is stored goes through. *)
Definition feed_store (fuel : nat) (t : tty) (p : Z) : res tty :=
  let! t := iputc t p in
  let t :=
    if negb (FC_LFLAG t ICANON) then
      let t := if negb (cc t VTIME =? 0) && negb (cc t VMIN =? 0) then emit t (Ktimer (cc t VTIME * 100)) else t in
      if (reqlen t <=? tty_buf_chrs (ibuf t)) || (cc t VMIN <=? tty_buf_chrs (ibuf t)) || tty_buf_full (ibuf t) then
        let '(b, t) := deliver t in if b then t else clean_iwaiter t
      else t
    else t in
  if FC_LFLAG t ECHO then opost fuel t p else Ok t.

Definition feed_plain (fuel : nat) (t : tty) (p : Z) : res tty :=
  if cc t VINTR =? p then Ok (tsig t SIGINT)
  else if cc t VQUIT =? p then Ok (tsig t SIGQUIT)
  else if cc t VSTART =? p then Ok (tstop t 0)
  else if cc t VSTOP =? p then Ok (tstop t 1)
  else if cc t VSUSP =? p then Ok (tsig t SIGTSTP)
  else feed_store fuel t p.

Definition feed1 (fuel : nat) (t : tty) (p : Z) : res tty :=
  match translate t p with
  | None => Ok t
  | Some p =>
      if FC_LFLAG t ICANON then
        match feed_canon fuel t p with
        | Some r => r
        | None => feed_plain fuel t p
        end
      else feed_plain fuel t p
  end.

Fixpoint tty_feed (fuel : nat) (t : tty) (s : list Z) : res (Z * tty) :=
  match s with
  | [] => Ok (0, t)
  | p :: s =>
      let! t := feed1 fuel t p in
      let! r := tty_feed fuel t s in
      Ok (fst r + 1, snd r)
  end.

(** ** Reading *)

Definition take_char (t : tty) : res (Z * Z * tty) :=
  let! r := tty_buf_getc (ibuf t) in Ok (fst r, t <| ibuf := snd r |>).

(** The loop of [tty_fetch]; [rem] is what the caller's buffer still takes. *)
Fixpoint fetch_loop (rem : nat) (t : tty) (acc : list Z) : res (Z * list Z * tty) :=
  match rem with
  | O => Ok (0, acc, t)
  | S rem =>
      let! r := take_char t in
      let '(flag, c, t) := r in
      if flag <? 0 then
        let '(reason, t) := sleep (t <| iwaiter := Some curr |>) in
        if reason <? 0 then Ok (reason, acc, t)
        else
          let! r := take_char t in
          let '(flag, c, t) := r in
          if flag <? 0 then Ok (reason, acc, t)
          else if FC flag TTY_BF_END then Ok (reason, acc ++ [c], t)
          else fetch_loop rem t (acc ++ [c])
      else if FC flag TTY_BF_END then Ok (0, acc ++ [c], t)
      else fetch_loop rem t (acc ++ [c])
  end.

(** The result of a read: the count or a negative error, and the bytes stored. *)
Definition tty_fetch (t : tty) (len : Z) : res (Z * list Z * tty) :=
  let! r := fetch_loop (Z.to_nat len) t [] in
  let '(reason, acc, t) := r in
  Ok (if reason <? 0 then reason else Z.of_nat (length acc), acc, t).

(** The [while] loop of [tty_fetch_nc]. *)
Fixpoint nc_inner (fuel : nat) (t : tty) (acc : list Z) : res (Z * list Z * tty) :=
  if timeout t || (reqlen t =? 0) then Ok (0, acc, t)
  else
  match fuel with
  | O => Fault OutOfFuel
  | S fuel =>
      let reset := negb (cc t VTIME * cc t VMIN =? 0) in
      let! r := take_char t in
      let '(flag, c, t) := r in
      if flag <? 0 then
        let t := if negb reset && negb (cc t VTIME =? 0) then emit t (Ktimer (cc t VTIME * 100)) else t in
        if cc t VMIN <=? Z.of_nat (length acc) then Ok (0, acc, t)
        else
          let '(reason, t) := sleep (t <| iwaiter := Some curr |>) in
          if reason <? 0 then Ok (reason, acc, t) else nc_inner fuel t acc
      else
        let t := t <| reqlen ::= fun n => u64 (n - 1) |> in
        if reset && FC flag TTY_BF_END then Ok (0, acc ++ [c], t)
        else nc_inner fuel t (acc ++ [c])
  end.

(** The rounds of [goto repeat]. *)
Fixpoint nc_outer (rounds fuel : nat) (t : tty) (acc : list Z) : res (Z * list Z * tty) :=
  match rounds with
  | O => Fault OutOfFuel
  | S rounds =>
      let! r := nc_inner fuel t acc in
      let '(reason, acc, t) := r in
      let cnt := Z.of_nat (length acc) in
      if reason <? 0 then Ok (reason, acc, t)
      else if negb (cc t VTIME =? 0) && timeout t then Ok (cnt, acc, t)
      else if (reqlen t =? 0) || (cc t VMIN <=? cnt) then Ok (cnt, acc, t)
      else nc_outer rounds fuel t acc
  end.

Definition tty_fetch_nc (rounds fuel : nat) (t : tty) (len : Z) : res (Z * list Z * tty) :=
  nc_outer rounds fuel (t <| reqlen := len |> <| timeout := false |>) [].

(** [TTY_XONSIZ] is four fifths of the buffer. *)
Definition tty_read (rounds fuel : nat) (t : tty) (len : Z) : res (Z * list Z * tty) :=
  let! r := (if FC_LFLAG t ICANON then tty_fetch t len else tty_fetch_nc rounds fuel t len) in
  let '(cnt, s, t) := r in
  Ok (i32 cnt, s, if 4 * TTY_BUFSIZ <=? 5 * tty_buf_rems (ibuf t) then tflow t 0 else t).

(** ** Control *)

(** [tty__init_pctx]: the first session leader without a terminal that opens this one gets it. *)
Definition tty__init_pctx (t : tty) (sid pid : Z) (has_ctrltty : bool) : bool * tty :=
  if (ses_holders t =? 0) && (sid =? pid) && negb has_ctrltty
  then (true, t <| ses_id := sid |> <| ses_holders := 1 |>) else (has_ctrltty, t).

Definition TTY_CAP_IFLAG : Z := 0x15e0.
Definition TTY_CAP_OFLAG : Z := 0x7.
Definition TTY_CAP_CFLAG : Z := 0.
Definition TTY_CAP_LFLAG : Z := 0xfb.

Definition tty_cap_check_attr (a : termios) : bool :=
  (Z.land (c_iflag a) (Z.lnot TTY_CAP_IFLAG) =? 0) && (Z.land (c_oflag a) (Z.lnot TTY_CAP_OFLAG) =? 0) &&
  (Z.land (c_cflag a) (Z.lnot TTY_CAP_CFLAG) =? 0) && (Z.land (c_lflag a) (Z.lnot TTY_CAP_LFLAG) =? 0).

Definition TCGETS : Z := 0x5401.
Definition TCSETS : Z := 0x5402.
Definition TIOCGPGRP : Z := 0x540f.
Definition TIOCSPGRP : Z := 0x5410.

(** What [argp] points to. *)
Inductive ioctl_arg := ArgTio (a : termios) | ArgPid (p : Z).

Definition tty_ioctl (t : tty) (req : Z) (arg : ioctl_arg) (ctl : Z -> Z) : Z * ioctl_arg * tty :=
  match arg with
  | ArgTio a =>
      if req =? TCGETS then (0, ArgTio (tio t), t)
      else if (TCSETS <=? req) && (req <=? TCSETS + 2) then (0, arg, t <| tio := a |>)
      else (ctl req, arg, emit t (Ctl req))
  | ArgPid p =>
      if req =? TIOCGPGRP then (0, ArgPid (pgrp t), t)
      else if req =? TIOCSPGRP then (0, arg, t <| pgrp := p |>)
      else (ctl req, arg, emit t (Ctl req))
  end.

(** [tty_poll_setup]: the poller, the list of pollers of the open file. *)
Definition tty_poll_setup (t : tty) (r : fs_poller) (ctx : list Z) : Z * fs_poller * list Z * tty :=
  let '(b, r, _) := if 0 <? tty_buf_chrs (ibuf t) then fs_poll_deliver_to POLLIN r false else (false, r, None) in
  if b then (1, r, ctx, t)
  else
    let t := t <| reqlen := SIZE_MAX |> in
    let '(p, ctx) := fs_poll_setup (pollee t) r ctx in
    (0, r <| in_pollee_list := true |>, ctx, t <| pollee := p |>).

Definition tty_poll_teardown (t : tty) (r : fs_poller) (ctx : list Z) : list Z * tty :=
  let '(p, ctx) := fs_poll_teardown (pollee t) r ctx in (ctx, t <| pollee := p |>).

Definition default_cc (i : Z) : Z :=
  if i =? VINTR then 0x03 else if i =? VQUIT then 0x1c else if i =? VERASE then 0x7f
  else if i =? VKILL then 0x15 else if i =? VEOF then 0x04 else if i =? VMIN then 1
  else if i =? VSTART then 0x11 else if i =? VSTOP then 0x13 else if i =? VSUSP then 0x1a else 0.

Definition default_tio : termios :=
  Termios (Z.lor ICRNL IXON) (Z.lor OPOST ONLCR) (Z.lor CS8 (Z.lor CREAD CLOCAL))
    (Z.lor ISIG (Z.lor ICANON (Z.lor ECHO (Z.lor ECHOE ECHOK)))) default_cc.

(** [tty_register] on a terminal in memory [t]; [istop], [reqlen], [timeout] and the poller
    count keep what the memory held. *)
Definition tty_register (t : tty) : tty :=
  t <| stop := 0 |> <| pgrp := 0 |> <| ses_id := 0 |> <| ses_holders := 0 |> <| iwaiter := None |>
    <| owaiter := None |> <| ibuf ::= tty_buf_init |> <| obuf ::= tty_buf_init |> <| tio := default_tio |>
    <| pollee ::= fs_pollee_init |>.

(** ** What output and notification leave alone *)

(** The input side and the settings are untouched. *)
Definition frame (t t' : tty) : Prop := ibuf t' = ibuf t /\ tio t' = tio t /\ stop t' = stop t.

Lemma frame_refl t : frame t t.
Proof. done. Qed.

Lemma frame_trans t1 t2 t3 : frame t1 t2 -> frame t2 t3 -> frame t1 t3.
Proof. unfold frame. intuition congruence. Qed.

Lemma tputc_run fuel t c : stop t = 0 -> tputc fuel t c = Ok (emit t (Out [c])).
Proof. intros Hs. destruct fuel; cbn [tputc]; by rewrite Hs. Qed.

Lemma opost_frame fuel t c : stop t = 0 -> total (opost fuel t c) (frame t).
Proof.
  intros Hs. unfold opost. destruct (FC_OFLAG t OPOST); cbv zeta; [|rewrite tputc_run by done; by apply total_Ok].
  set (c' := if FC_OFLAG t OLCUC && islower c then i8 (Z.land c (Z.lnot 32)) else c). destruct (FC_OFLAG t ONLCR && (c' =? 10)).
  - rewrite tputc_run by done. cbn [res_bind]. rewrite tputc_run by done. by apply total_Ok.
  - cbn [res_bind]. rewrite tputc_run by done. by apply total_Ok.
Qed.

Lemma rubout_frame fuel t : stop t = 0 -> total (rubout fuel t) (frame t).
Proof.
  intros Hs. unfold rubout. rewrite tputc_run by done. cbn [res_bind]. rewrite tputc_run by done. cbn [res_bind].
  rewrite tputc_run by done. by apply total_Ok.
Qed.

Lemma unblock_frame t w : frame t (unblock_opt t w).
Proof. by destruct w. Qed.

Lemma clean_iwaiter_frame t : frame t (clean_iwaiter t).
Proof. unfold clean_iwaiter. by destruct (iwaiter t). Qed.

Lemma deliver_frame t : frame t (snd (deliver t)).
Proof. unfold deliver. destruct (fs_poll_deliver (pollee t) POLLIN) as [[b p] w]. cbn. by destruct w. Qed.

Lemma tflow_frame t st : frame t (tflow t st).
Proof. unfold tflow. by destruct (FC_IFLAG t IXOFF), (istop t =? st). Qed.

(** ** Canonical input *)

(** A terminal in canonical mode, not stopped, with the queue [q] of flagged characters. *)
Record line_ok (t : tty) (q : list (Z * Z)) : Prop := {
  lo_canon : FC_LFLAG t ICANON = true;
  lo_inlcr : FC_IFLAG t INLCR = false;
  lo_eof : cc t VEOF <> 10;
  lo_stop : stop t = 0;
  lo_rep : brep (ibuf t) q }.

Lemma line_ok_frame t t' q : line_ok t q -> frame t t' -> line_ok t' q.
Proof.
  intros [H1 H2 H3 H4 H5] (Ei & Et & Es). unfold FC_LFLAG, FC_IFLAG, cc in *. split; unfold FC_LFLAG, FC_IFLAG, cc; congruence.
Qed.

Lemma line_ok_ibuf t b q q' : line_ok t q -> brep b q' -> line_ok (t <| ibuf := b |>) q'.
Proof. intros [H1 H2 H3 H4 H5] Hb. by split. Qed.

(** Characters with no special meaning, and the erase key. *)
Definition plain_char (t : tty) (c : Z) : bool := (0 <=? c) && (c <? 128) && negb (c =? 13) && negb (c =? 10) &&
  negb (cc t VEOF =? c) && negb (cc t VEOL =? c) && negb (cc t VEOL2 =? c).

Definition ordinary (t : tty) (c : Z) : bool :=
  plain_char t c && negb (cc t VERASE =? c) && negb (cc t VKILL =? c) && negb (cc t VINTR =? c) &&
  negb (cc t VQUIT =? c) && negb (cc t VSTART =? c) && negb (cc t VSTOP =? c) && negb (cc t VSUSP =? c).

Definition key_ok (t : tty) (k : Z) : bool := ordinary t k || ((k =? cc t VERASE) && plain_char t k).

Lemma key_ok_frame t t' k : tio t' = tio t -> key_ok t' k = key_ok t k.
Proof. intros E. unfold key_ok, ordinary, plain_char, cc. by rewrite E. Qed.

Lemma keys_ok_frame t t' keys : tio t' = tio t -> forallb (key_ok t) keys = true -> forallb (key_ok t') keys = true.
Proof. intros E. rewrite !forallb_forall. intros Hk x Hx. rewrite (key_ok_frame t) by done. auto. Qed.

Lemma land_0x80 c : 0 <= c < 128 -> Z.land c 0x80 = 0.
Proof.
  intros Hc. change 0x80 with (Z.shiftl 1 7). apply Z.bits_inj'. intros n Hn. rewrite Z.land_spec, Z.bits_0.
  destruct (Z.eq_dec n 7) as [->|Hne].
  - rewrite Z.bits_above_log2; [done|lia|]. destruct (Z.eq_dec c 0) as [->|]; [done|]. apply Z.log2_lt_pow2; lia.
  - rewrite Z.shiftl_spec by done. destruct (Z.lt_ge_cases n 7).
    + rewrite (Z.testbit_neg_r 1 (n - 7)) by lia. by rewrite andb_false_r.
    + rewrite (Z.bits_above_log2 1 (n - 7)) by (cbn; lia). by rewrite andb_false_r.
Qed.

Lemma translate_plain t c : plain_char t c = true -> translate t c = Some c.
Proof.
  unfold plain_char. intros Hp. bool_facts. unfold translate. rewrite land_0x80 by lia. cbn [negb andb Z.eqb].
  replace (c =? 13) with false by lia. cbn [andb]. by replace (c =? 10) with false by lia.
Qed.

Lemma iputc_spec t q c : brep (ibuf t) q -> (length q < 4095)%nat ->
  total (iputc t c) (fun t' => exists b, frame (t <| ibuf := b |>) t' /\ brep b (q ++ [(c, 0)])).
Proof.
  intros Hr Hl. unfold iputc. cbv zeta. rewrite (brep_rems _ _ Hr). replace (_ =? 0) with false by lia. cbn [negb].
  eapply total_bind; [exact (putc_spec _ _ c Hr)|]. intros [v b] Hv. replace (_ =? 4095) with false in Hv by lia.
  destruct Hv as [_ Hb]. apply total_Ok. exists b. split; [|done]. case_if; [apply tflow_frame|done].
Qed.

Lemma feed_ordinary fuel t q c : line_ok t q -> ordinary t c = true -> (length q < 4095)%nat ->
  total (feed1 fuel t c) (fun t' => line_ok t' (q ++ [(c, 0)]) /\ tio t' = tio t).
Proof.
  intros Hlo Ho Hl. unfold ordinary in Ho. bool_facts. unfold feed1. rewrite translate_plain by done.
  match goal with H : plain_char t c = true |- _ => unfold plain_char in H end. bool_facts.
  rewrite (lo_canon _ _ Hlo). unfold feed_canon, feed_plain.
  repeat match goal with |- context [cc t ?v =? c] => replace (cc t v =? c) with false by lia end.
  replace (10 =? c) with false by lia. cbn [orb]. unfold feed_store.
  eapply total_bind; [exact (iputc_spec t q c (lo_rep _ _ Hlo) Hl)|]. intros t1 (b & Hf & Hb).
  assert (line_ok t1 (q ++ [(c, 0)])) as Hlo1 by (eapply line_ok_frame; [|exact Hf]; by eapply line_ok_ibuf).
  rewrite (lo_canon _ _ Hlo1). cbn [negb]. cbv zeta. destruct Hf as (_ & Et & _).
  destruct (FC_LFLAG t1 ECHO); [|by apply total_Ok].
  eapply total_mono; [apply opost_frame, (lo_stop _ _ Hlo1)|]. intros t2 Hf2. split; [by eapply line_ok_frame|].
  destruct Hf2 as (_ & E2 & _). by rewrite E2.
Qed.

Lemma deliver_spec t q c f : line_ok t (q ++ [(c, f)]) ->
  total (tty_c_deliver t) (fun t' => line_ok t' (q ++ [(c, Z.lor f TTY_BF_END)]) /\ tio t' = tio t).
Proof.
  intros Hlo. unfold tty_c_deliver, mark_end.
  destruct (mark_spec _ _ _ _ TTY_BF_END (lo_rep _ _ Hlo)) as ([v b] & -> & _ & Hb). cbn [res_bind snd] in *.
  apply total_Ok. set (t1 := t <| ibuf := b |>).
  assert (frame t1 (snd (deliver (clean_iwaiter t1)))) as Hf.
  { eapply frame_trans; [apply clean_iwaiter_frame|apply deliver_frame]. }
  split; [|by destruct Hf as (_ & -> & _)]. eapply line_ok_frame; [|exact Hf]. by eapply line_ok_ibuf.
Qed.

Lemma translate_newline t : FC_IFLAG t INLCR = false -> translate t 10 = Some 10.
Proof. intros Hi. unfold translate. rewrite Hi. change (Z.land 10 0x80) with 0. reflexivity. Qed.

Lemma feed_newline fuel t q : line_ok t q -> (length q < 4095)%nat ->
  total (feed1 fuel t 10) (fun t' => line_ok t' (q ++ [(10, TTY_BF_END)]) /\ tio t' = tio t).
Proof.
  intros Hlo Hl. unfold feed1. rewrite (translate_newline _ (lo_inlcr _ _ Hlo)), (lo_canon _ _ Hlo).
  unfold feed_canon. replace (cc t VEOF =? 10) with false by (pose proof (lo_eof _ _ Hlo); lia). cbn [Z.eqb Pos.eqb orb].
  eapply (total_bind _ _ (fun t' => line_ok t' q /\ tio t' = tio t)).
  { destruct (FC_LFLAG t ECHO || FC_LFLAG t ECHONL); [|by apply total_Ok].
    eapply total_mono; [apply opost_frame, (lo_stop _ _ Hlo)|]. intros t2 Hf2. split; [by eapply line_ok_frame|]. apply Hf2. }
  intros t1 [Hlo1 E1]. eapply total_bind; [exact (iputc_spec t1 q 10 (lo_rep _ _ Hlo1) Hl)|]. intros t2 (b & Hf & Hb).
  assert (line_ok t2 (q ++ [(10, 0)])) as Hlo2 by (eapply line_ok_frame; [|exact Hf]; by eapply line_ok_ibuf).
  eapply total_mono; [exact (deliver_spec _ _ _ _ Hlo2)|]. intros t3 [Hlo3 E3]. split; [done|].
  destruct Hf as (_ & E2 & _). cbn in E2. congruence.
Qed.

(** ** Editing a line *)

Definition raw (l : list Z) : list (Z * Z) := map (fun c => (c, 0)) l.

(** The completed lines in front: the newest character of them is marked. *)
Definition complete (q : list (Z * Z)) : Prop := q = [] \/ exists q' c, q = q' ++ [(c, TTY_BF_END)].

Lemma feed_erase fuel t q l k : line_ok t (q ++ raw l) -> complete q -> k = cc t VERASE -> plain_char t k = true ->
  total (feed1 fuel t k) (fun t' => line_ok t' (q ++ raw (removelast l)) /\ tio t' = tio t).
Proof.
  intros Hlo Hq -> Hp. unfold feed1. rewrite translate_plain by done. unfold plain_char in Hp. bool_facts.
  rewrite (lo_canon _ _ Hlo). unfold feed_canon.
  replace (cc t VEOF =? cc t VERASE) with false by lia. replace (cc t VEOL =? cc t VERASE) with false by lia.
  replace (cc t VEOL2 =? cc t VERASE) with false by lia. replace (10 =? cc t VERASE) with false by lia. cbn [orb].
  rewrite Z.eqb_refl. eapply (total_bind _ _ (fun t' => line_ok t' (q ++ raw l) /\ tio t' = tio t)).
  { destruct (FC_LFLAG t (Z.lor ECHO ECHOE)); [|by apply total_Ok].
    eapply total_mono; [apply rubout_frame, (lo_stop _ _ Hlo)|]. intros t2 Hf2. split; [by eapply line_ok_frame|]. apply Hf2. }
  intros t1 [Hlo1 E1]. pose proof (lo_rep _ _ Hlo1) as Hr.
  assert (total (tty_buf_erase (ibuf t1)) (fun r => brep (snd r) (q ++ raw (removelast l)))) as He.
  { destruct l as [|c l _] using rev_ind.
    - cbn [raw map removelast] in *. rewrite app_nil_r in *. destruct Hq as [->|(q' & c & ->)].
      + unfold tty_buf_erase. rewrite (brep_empty _ _ Hr). by apply total_Ok.
      + eapply total_mono; [exact (erase_spec _ _ _ Hr)|]. intros r [_ Hb]. exact Hb.
    - rewrite removelast_last. unfold raw in *. rewrite map_app, app_assoc in Hr.
      eapply total_mono; [exact (erase_spec _ _ _ Hr)|]. intros r [_ Hb]. exact Hb. }
  destruct He as (r & -> & Hb). cbn [res_bind]. apply total_Ok. split; [by eapply line_ok_ibuf|done].
Qed.

Definition press (e : Z) (l : list Z) (k : Z) : list Z := if k =? e then removelast l else l ++ [k].

(** The line a sequence of keys leaves. *)
Definition edit (e : Z) (keys : list Z) : list Z := fold_left (press e) keys [].

Lemma press_length e l k : (length (press e l k) <= length l + 1)%nat.
Proof.
  unfold press. destruct (k =? e); [|rewrite length_app; cbn; lia].
  destruct l as [|x l _] using rev_ind; [cbn; lia|]. rewrite removelast_last, length_app. lia.
Qed.

Lemma feed_keys fuel keys : forall t q l,
  line_ok t (q ++ raw l) -> complete q -> forallb (key_ok t) keys = true ->
  (length q + length l + length keys <= 4095)%nat ->
  total (tty_feed fuel t keys) (fun r => line_ok (snd r) (q ++ raw (fold_left (press (cc t VERASE)) keys l)) /\
    tio (snd r) = tio t).
Proof.
  induction keys as [|k keys IH]; intros t q l Hlo Hq Hk Hl; [by apply total_Ok|].
  cbn [forallb] in Hk. apply andb_true_iff in Hk as [Hk Hks]. cbn [tty_feed fold_left length] in *.
  eapply (total_bind _ _ (fun t' => line_ok t' (q ++ raw (press (cc t VERASE) l k)) /\ tio t' = tio t)).
  { unfold key_ok in Hk. unfold press. destruct (Z.eqb_spec k (cc t VERASE)) as [E|E].
    - apply feed_erase; try done. apply orb_true_iff in Hk as [Hk|Hk]; unfold ordinary in *; by bool_facts.
    - rewrite orb_false_r in Hk. unfold raw. rewrite map_app, app_assoc. apply feed_ordinary; [done|done|].
      rewrite length_app, length_map. lia. }
  intros t1 [Hlo1 E1]. pose proof (press_length (cc t VERASE) l k).
  assert (cc t1 VERASE = cc t VERASE) as Ec by (unfold cc; by rewrite E1).
  eapply total_bind; [apply (IH t1 q _ Hlo1 Hq)|].
  - by apply (keys_ok_frame t).
  - lia.
  - intros r [Hlo2 E2]. rewrite Ec in Hlo2. apply total_Ok. cbn [snd]. split; [done|congruence].
Qed.

Lemma tty_feed_app fuel s1 : forall t s2,
  tty_feed fuel t (s1 ++ s2) = (let! r := tty_feed fuel t s1 in
                                let! r2 := tty_feed fuel (snd r) s2 in Ok (fst r2 + fst r, snd r2)).
Proof.
  induction s1 as [|c s1 IH]; intros t s2; cbn [app tty_feed].
  - cbn [res_bind snd fst]. destruct (tty_feed fuel t s2) as [[a b]|]; cbn; [|done]. by rewrite Z.add_0_r.
  - destruct (feed1 fuel t c) as [t1|]; cbn [res_bind]; [|done]. rewrite IH.
    destruct (tty_feed fuel t1 s1) as [[a b]|]; cbn [res_bind snd fst]; [|done].
    destruct (tty_feed fuel b s2) as [[a2 b2]|]; cbn; [|done]. by rewrite Z.add_assoc.
Qed.

Definition enc (l : list Z) : list (Z * Z) := raw l ++ [(10, TTY_BF_END)].

Lemma edit_length e keys : (length (edit e keys) <= length keys)%nat.
Proof.
  unfold edit. assert (forall l, (length (fold_left (press e) keys l) <= length l + length keys)%nat) as Hl; [|by apply Hl].
  induction keys as [|k keys IH]; intros l; cbn [fold_left length]; [lia|].
  pose proof (IH (press e l k)). pose proof (press_length e l k). lia.
Qed.

(** A line typed with corrections, ended by the newline key. *)
Lemma feed_line fuel t q keys : line_ok t q -> complete q -> forallb (key_ok t) keys = true ->
  (length q + length keys < 4095)%nat ->
  total (tty_feed fuel t (keys ++ [10])) (fun r => line_ok (snd r) (q ++ enc (edit (cc t VERASE) keys)) /\ tio (snd r) = tio t).
Proof.
  intros Hlo Hq Hk Hl. rewrite tty_feed_app. pose proof (edit_length (cc t VERASE) keys) as He.
  eapply total_bind; [apply (feed_keys fuel keys t q []); [by rewrite app_nil_r|done|done|cbn; lia]|].
  intros r [Hlo1 E1]. cbn [tty_feed]. fold (edit (cc t VERASE) keys) in Hlo1.
  destruct (feed_newline fuel (snd r) _ Hlo1) as (t2 & -> & Hlo2 & E2).
  { rewrite length_app. unfold raw. rewrite length_map. lia. }
  cbn [res_bind fst snd]. apply total_Ok. cbn [snd]. unfold enc. rewrite app_assoc. split; [done|congruence].
Qed.

(** ** Reading lines back *)

Lemma take_char_spec t c f q : brep (ibuf t) ((c, f) :: q) ->
  exists b, take_char t = Ok (f, c, t <| ibuf := b |>) /\ brep b q.
Proof.
  intros Hr. destruct (getc_spec _ _ Hr) as ([[f' c'] b] & E & Ef & Hb). cbn in Ef, Hb. simplify_eq.
  exists b. unfold take_char. by rewrite E.
Qed.

Lemma fetch_line l : forall t acc rest rem,
  brep (ibuf t) (enc l ++ rest) -> (length l < rem)%nat ->
  exists b, fetch_loop rem t acc = Ok (0, acc ++ l ++ [10], t <| ibuf := b |>) /\ brep b rest.
Proof.
  induction l as [|c l IH]; intros t acc rest [|rem] Hr Hl; try (cbn in Hl; lia); cbn [fetch_loop].
  - destruct (take_char_spec _ _ _ _ Hr) as (b & -> & Hb). cbn [res_bind]. exists b. done.
  - change (enc (c :: l) ++ rest) with ((c, 0) :: enc l ++ rest) in Hr.
    destruct (take_char_spec _ _ _ _ Hr) as (b & -> & Hb). cbn [res_bind].
    change (0 <? 0) with false. change (FC 0 TTY_BF_END) with false. cbn [negb].
    destruct (IH (t <| ibuf := b |>) (acc ++ [c]) rest rem) as (b' & -> & Hb'); [exact Hb|cbn in Hl; lia|].
    exists b'. split; [|done]. by rewrite <- app_assoc.
Qed.

Lemma read_line rounds fuel t l rest len :
  line_ok t (enc l ++ rest) -> Z.of_nat (length l) < len ->
  total (tty_read rounds fuel t len) (fun r => fst r = (Z.of_nat (length l) + 1, l ++ [10]) /\
    line_ok (snd r) rest /\ tio (snd r) = tio t).
Proof.
  intros Hlo Hl. unfold tty_read. rewrite (lo_canon _ _ Hlo). unfold tty_fetch.
  destruct (fetch_line l t [] rest (Z.to_nat len) (lo_rep _ _ Hlo)) as (b & -> & Hb); [lia|]. cbn [res_bind].
  change (0 <? 0) with false. apply total_Ok. cbn [fst snd app].
  assert (Z.of_nat (length l) < 4096) as Hb4.
  { pose proof (br_len _ _ (lo_rep _ _ Hlo)) as Hq. unfold enc, raw in Hq. rewrite !length_app, length_map in Hq. lia. }
  rewrite signed_small; [|lia|rewrite length_app; cbn; lia]. split.
  - f_equal. rewrite length_app. cbn. lia.
  - set (t1 := t <| ibuf := b |>). assert (line_ok t1 rest) as Hlo1 by (by eapply line_ok_ibuf).
    case_if; [|done]. split; [eapply line_ok_frame; [exact Hlo1|apply tflow_frame]|]. apply (tflow_frame t1 0).
Qed.

Fixpoint read_lines (n : nat) (t : tty) (len : Z) : res (list (list Z) * tty) :=
  match n with
  | O => Ok ([], t)
  | S n =>
      let! r := tty_read 1 1 t len in
      let '(_, s, t) := r in
      let! r := read_lines n t len in
      Ok (s :: fst r, snd r)
  end.

Lemma read_lines_spec len ls : forall t rest,
  line_ok t (concat (map enc ls) ++ rest) -> Forall (fun l => Z.of_nat (length l) < len) ls ->
  total (read_lines (length ls) t len) (fun r => fst r = map (fun l => l ++ [10]) ls /\ line_ok (snd r) rest).
Proof.
  induction ls as [|l ls IH]; intros t rest Hlo Hl; [by apply total_Ok|]. cbn [map concat length read_lines] in *.
  rewrite <- app_assoc in Hlo. apply Forall_cons in Hl as [Hl Hls].
  destruct (read_line 1 1 t l _ len Hlo Hl) as ([[n s] t1] & -> & E & Hlo1 & _). cbn [fst snd] in E, Hlo1. simplify_eq.
  cbn [res_bind]. eapply total_bind; [exact (IH t1 rest Hlo1 Hls)|]. intros r [E Hlo2]. apply total_Ok. cbn. by rewrite E.
Qed.

Definition typed (ks : list (list Z)) : list Z := concat (map (fun k => k ++ [10]) ks).

Lemma complete_enc q l : complete (q ++ enc l).
Proof. right. unfold enc. rewrite app_assoc. by eexists _, _. Qed.

Lemma feed_lines fuel ks : forall t q,
  line_ok t q -> complete q -> Forall (fun k => forallb (key_ok t) k = true) ks ->
  (length q + length (typed ks) <= 4095)%nat ->
  total (tty_feed fuel t (typed ks)) (fun r =>
    line_ok (snd r) (q ++ concat (map enc (map (edit (cc t VERASE)) ks)))).
Proof.
  induction ks as [|k ks IH]; intros t q Hlo Hq Hk Hl; unfold typed in *; cbn [map concat] in *.
  { rewrite app_nil_r. by apply total_Ok. }
  rewrite !length_app in Hl. cbn [length] in Hl. apply Forall_cons in Hk as [Hk Hks]. rewrite tty_feed_app.
  destruct (feed_line fuel t q k Hlo Hq Hk) as (r & -> & Hlo1 & E1); [lia|]. cbn [res_bind].
  assert (cc (snd r) VERASE = cc t VERASE) as Ec by (unfold cc; by rewrite E1).
  destruct (IH (snd r) _ Hlo1 (complete_enc _ _)) as (r2 & -> & Hlo2).
  - eapply Forall_impl; [exact Hks|]. intros x Hx. by apply (keys_ok_frame t).
  - rewrite length_app. unfold enc, raw. rewrite length_app, length_map. cbn [length].
    pose proof (edit_length (cc t VERASE) k). lia.
  - cbn [res_bind]. apply total_Ok. cbn [snd]. rewrite Ec, <- app_assoc in Hlo2. exact Hlo2.
Qed.

(** C27: canonical input round trip: lines typed with corrections are read back one per call,
    each exactly as the erase key left it and ended by its newline, whatever the echo settings,
    as long as they fit in the buffer and the reader's buffer is large enough. *)
Theorem tty_lines_roundtrip fuel t ks len :
  line_ok t [] -> Forall (fun k => forallb (key_ok t) k = true) ks -> (length (typed ks) <= 4095)%nat ->
  Forall (fun k => Z.of_nat (length (edit (cc t VERASE) k)) < len) ks ->
  total (let! r := tty_feed fuel t (typed ks) in read_lines (length ks) (snd r) len)
    (fun r => fst r = map (fun k => edit (cc t VERASE) k ++ [10]) ks /\ line_ok (snd r) []).
Proof.
  intros Hlo Hk Hl Hlen. eapply total_bind; [apply (feed_lines fuel ks t [] Hlo); [by left|done|done]|].
  intros r Hlo1. cbn [app] in Hlo1. rewrite <- (length_map (edit (cc t VERASE)) ks).
  rewrite <- (app_nil_r (concat _)) in Hlo1.
  eapply total_mono; [apply (read_lines_spec len _ (snd r) [] Hlo1)|].
  - apply Forall_map. exact Hlen.
  - intros r2 [E Hlo2]. rewrite E, map_map. done.
Qed.

(** ** Output while the terminal is stopped *)

(** The bytes that have reached the device. *)
Definition sent (t : tty) : list Z := concat (map (fun c => match c with Out s => s | _ => [] end) (calls t)).

(** Stopped, with [q] waiting in an output buffer nothing was taken from. *)
Record stopped (t : tty) (q : list (Z * Z)) : Prop := {
  st_stop : stop t <> 0;
  st_tail : tail (obuf t) = 0;
  st_rep : brep (obuf t) q }.

Lemma stopped_tputc fuel t q c : stopped t q -> (length q < 4095)%nat ->
  total (tputc fuel t c) (fun t' => stopped t' (q ++ [(c, 0)]) /\ calls t' = calls t /\ tio t' = tio t).
Proof.
  intros [Hs Ht Hr] Hl. destruct (putc_spec _ _ c Hr) as ([v b] & E & Hv). replace (_ =? 4095) with false in Hv by lia.
  destruct Hv as [Hv Hb]. cbn in Hv, Hb. subst v.
  assert (tail b = tail (obuf t)) as Et.
  { unfold tty_buf_putc in E. cbv zeta in E. case_if; [congruence|]. bind_inv E as bs Hbs. bind_inv E as fs Hfs. by injection E as <-. }
  destruct fuel; cbn [tputc]; replace (stop t =? 0) with false by lia; cbn [negb]; rewrite E; cbn [res_bind fst snd];
    change (0 <? 0) with false; apply total_Ok; (split; [|done]); split; cbn; congruence || done.
Qed.

Lemma stopped_opost fuel t q c : stopped t q -> (length q + 2 <= 4095)%nat ->
  total (opost fuel t c) (fun t' => exists q', stopped t' q' /\ (length q' <= length q + 2)%nat /\
    calls t' = calls t /\ tio t' = tio t).
Proof.
  intros Hst Hl. unfold opost.
  assert (forall t c q, stopped t q -> (length q < 4095)%nat ->
    total (tputc fuel t c) (fun t' => exists q', stopped t' q' /\ (length q' <= length q + 1)%nat /\ calls t' = calls t /\ tio t' = tio t)) as Hput.
  { intros t0 c0 q0 H0 L0. eapply total_mono; [by apply stopped_tputc|]. intros t1 (H1 & E1 & E2).
    exists (q0 ++ [(c0, 0)]). rewrite length_app. cbn. split_and!; [done|lia|done|done]. }
  destruct (FC_OFLAG t OPOST); cbv zeta.
  - set (c' := if FC_OFLAG t OLCUC && islower c then i8 (Z.land c (Z.lnot 32)) else c).
    destruct (FC_OFLAG t ONLCR && (c' =? 10)); cbn [res_bind].
    + eapply total_bind; [apply (Hput t 13 q Hst); lia|]. intros t1 (q1 & H1 & L1 & E1 & E1').
      eapply total_mono; [apply (Hput t1 c' q1 H1); lia|]. intros t2 (q2 & H2 & L2 & E2 & E2').
      exists q2. split_and!; [done|lia|congruence|congruence].
    + eapply total_mono; [apply (Hput t c' q Hst); lia|]. intros t2 (q2 & H2 & L2 & E2 & E2'). exists q2. split_and!; [done|lia|done|done].
  - eapply total_mono; [apply (Hput t c q Hst); lia|]. intros t2 (q2 & H2 & L2 & E2 & E2'). exists q2. split_and!; [done|lia|done|done].
Qed.

Lemma stopped_write fuel s : forall t q, stopped t q -> (length q + 2 * length s <= 4095)%nat ->
  total (tty_write fuel t s) (fun r => exists q', stopped (snd r) q' /\ calls (snd r) = calls t /\ tio (snd r) = tio t).
Proof.
  induction s as [|c s IH]; intros t q Hst Hl; cbn [tty_write length] in *; [apply total_Ok; by exists q|].
  eapply total_bind; [apply (stopped_opost fuel t q c Hst); lia|]. intros t1 (q1 & H1 & L1 & E1 & E1').
  eapply total_bind; [apply (IH t1 q1 H1); lia|]. intros r (q2 & H2 & E2 & E2'). apply total_Ok. exists q2. cbn. split_and!; [done|congruence|congruence].
Qed.

(** what is written while the terminal is stopped never reaches the device: the restart
    sends the bytes before the buffer's [tail], of which there are none, and clears the buffer. *)
Theorem xon_drops_output fuel t s :
  FC_IFLAG t IXON = true -> stopped t [] -> (2 * length s <= 4095)%nat ->
  total (let! r := tty_write fuel t s in Ok (tstop (snd r) 0)) (fun t' =>
    stop t' = 0 /\ brep (obuf t') [] /\ sent t' = sent t).
Proof.
  intros Hx Hst Hl. eapply total_bind; [apply (stopped_write fuel s t [] Hst); cbn; lia|]. intros r (q & [_ Ht Hr] & Ec & Et).
  apply total_Ok. unfold tstop. assert (FC_IFLAG (snd r) IXON = true) as -> by (unfold FC_IFLAG in *; by rewrite Et).
  cbn [negb Z.eqb]. cbn [obuf emit]. change (obuf (emit ?x _)) with (obuf x). change (obuf ((snd r) <| stop := 0 |>)) with (obuf (snd r)).
  rewrite Ht. cbn [Z.to_nat firstn]. unfold clean_owaiter.
  assert (sent (snd r) = sent t) as Es by (unfold sent; by rewrite Ec).
  destruct (owaiter _) as [w|]; cbn; split_and!; try done; try (by eapply brep_reset); unfold sent in *; cbn;
    rewrite !map_app, !concat_app, Es; cbn; by rewrite !app_nil_r.
Qed.

(** ** Reading without waiting *)

Lemma nc_inner_spec fuel : forall t acc q n,
  cc t VTIME = 0 -> cc t VMIN = 0 -> timeout t = false -> reqlen t = Z.of_nat n -> Z.of_nat n < 2 ^ 64 ->
  brep (ibuf t) q -> Forall (fun x => 0 <= snd x) q -> (Nat.min n (length q) < fuel)%nat ->
  total (nc_inner fuel t acc) (fun r => fst r = (0, acc ++ firstn n (map fst q)) /\ brep (ibuf (snd r)) (skipn n q) /\
    calls (snd r) = calls t /\ tio (snd r) = tio t).
Proof.
  induction fuel as [|fuel IH]; intros t acc q n Hv Hm Hto Hq Hn Hr Hpos Hf; [lia|]. cbn [nc_inner]. rewrite Hto, Hq. cbn [orb].
  destruct n as [|n]; [apply total_Ok; cbn; by rewrite app_nil_r|].
  replace (Z.of_nat (S n) =? 0) with false by (symmetry; apply Z.eqb_neq; lia). rewrite Hv, Hm. cbn [Z.mul Z.eqb negb andb]. unfold take_char.
  destruct (getc_spec _ _ Hr) as ([[f c] b] & -> & Hg). cbn [res_bind fst snd]. destruct q as [|[c1 f1] q].
  - simplify_eq. unfold cc in *. cbn -[Z.leb Z.of_nat Z.mul Z.eqb]. rewrite Hv. cbn -[Z.leb Z.of_nat]. rewrite andb_false_r. cbn -[Z.leb Z.of_nat]. rewrite Hm.
    replace (0 <=? Z.of_nat (length acc)) with true by (symmetry; apply Z.leb_le; lia). apply total_Ok. cbn. by rewrite app_nil_r.
  - destruct Hg as [Eg Hb]. cbn in Eg, Hb. simplify_eq.
    apply Forall_cons in Hpos as [Hp Hpos]. cbn in Hp.
    replace (f1 <? 0) with false by (symmetry; apply Z.ltb_ge; lia). cbv zeta.
    destruct (IH (t <| ibuf := b |> <| reqlen ::= fun m => u64 (m - 1) |>) (acc ++ [c1]) q n) as (r & -> & E1 & E2 & E3 & E4).
    { exact Hv. } { exact Hm. } { exact Hto. }
    { change (u64 (reqlen t - 1) = Z.of_nat n). rewrite Hq, wrap_small by lia. lia. }
    { lia. } { exact Hb. } { exact Hpos. } { cbn [length] in Hf. lia. }
    apply total_Ok. rewrite E1. rewrite <- app_assoc. done.
Qed.

(** with VMIN and VTIME zero a non-canonical read never sleeps: it returns at once with the
    characters that wait, as many as fit, oldest first, and arms no timer. *)
Theorem nc_read_immediate rounds fuel t q len :
  cc t VTIME = 0 -> cc t VMIN = 0 -> 0 <= len < 2 ^ 64 -> brep (ibuf t) q -> Forall (fun x => 0 <= snd x) q ->
  (length q < fuel)%nat ->
  total (tty_fetch_nc (S rounds) fuel t len) (fun r =>
    fst r = (Z.min len (Z.of_nat (length q)), firstn (Z.to_nat len) (map fst q)) /\
    brep (ibuf (snd r)) (skipn (Z.to_nat len) q) /\ calls (snd r) = calls t).
Proof.
  intros Hv Hm Hl Hr Hp Hf. unfold tty_fetch_nc. cbn [nc_outer].
  eapply total_bind; [apply (nc_inner_spec fuel _ [] q (Z.to_nat len)); try done; cbn; try lia|].
  intros [[reason acc] t1] (E & Hr1 & Ec & Et). cbn [fst snd] in *. simplify_eq. cbv zeta.
  change (0 <? 0) with false. assert (cc t1 VTIME = 0 /\ cc t1 VMIN = 0) as [-> ->] by (unfold cc in *; by rewrite Et).
  change (negb (0 =? 0) && timeout t1) with false. cbn [app].
  replace (0 <=? Z.of_nat (length (firstn (Z.to_nat len) (map fst q)))) with true by (symmetry; apply Z.leb_le; lia).
  rewrite orb_true_r. apply total_Ok. cbn [fst snd]. split; [|done]. f_equal. rewrite length_firstn, length_map. lia.
Qed.

End Tty.

(** ** A concrete terminal *)

Definition demo_tty : tty :=
  tty_register (Tty 0 0 0 0 0 None None demo_buf demo_buf 0 false default_tio (Pollee 0 []) []).

#[local] Instance demo_tty_env : TtyEnv := {| curr := 1; sleep t := (0, t) |}.

Lemma demo_line_ok : line_ok demo_tty [].
Proof. split; try done. exact (brep_reset _ _ demo_buf_ok). Qed.

(** Typing [hx], erase, [i] and a newline, then [ok]. *)
Example tty_lines_roundtrip_witness :
  total (let! r := tty_feed 0 demo_tty (typed [[104; 120; 127; 105]; [111; 107]]) in read_lines 2 (snd r) 80)
    (fun r => fst r = [[104; 105; 10]; [111; 107; 10]]).
Proof.
  eapply total_mono; [apply (tty_lines_roundtrip 0 demo_tty [[104; 120; 127; 105]; [111; 107]] 80 demo_line_ok)|].
  - repeat constructor.
  - vm_compute. lia.
  - repeat constructor.
  - intros r [E _]. exact E.
Defined.

Lemma demo_stopped : stopped (demo_tty <| stop := 1 |>) [].
Proof. split; [done|done|]. exact (brep_reset _ _ demo_buf_ok). Qed.

Example xon_drops_output_witness :
  total (let! r := tty_write 0 (demo_tty <| stop := 1 |>) [104; 105] in Ok (tstop (snd r) 0)) (fun t' => sent t' = []).
Proof.
  eapply total_mono; [apply (xon_drops_output 0 (demo_tty <| stop := 1 |>) [104; 105])|].
  - vm_compute. reflexivity.
  - exact demo_stopped.
  - cbn. lia.
  - intros t' (_ & _ & E). exact E.
Defined.

Example nc_read_immediate_witness :
  total (tty_fetch_nc 1 1 (demo_tty <| tio := Termios 0 0 0 0 (fun _ => 0) |>) 8) (fun r => fst r = (0, [])).
Proof.
  eapply total_mono; [apply (nc_read_immediate 0 1 (demo_tty <| tio := Termios 0 0 0 0 (fun _ => 0) |>) [] 8)|].
  - reflexivity.
  - reflexivity.
  - lia.
  - exact (brep_reset _ _ demo_buf_ok).
  - constructor.
  - cbn. lia.
  - intros r (E & _). exact E.
Defined.
