(* ===== verification/KString.v ===== *)
(** * Kernel strings and memory blocks: [kernel/klib/string.c]

    Memory is a partial map from addresses to bytes; an access outside it is a fault, so a
    result of a function also says which bytes it may touch. Characters are compared as bytes:
    two values of C's [char] are equal exactly when their bytes are. Loops over a string take
    fuel; the theorems give them one step per character. *)
From Stdlib Require Import ZArith Lia List Bool.
From stdpp Require Import base list gmap.
From S2P Require Import Prelude.

#[local] Open Scope Z_scope.

Abbreviation mem := (gmap Z Z).

Definition ld (m : mem) (a : Z) : res Z :=
  match m !! a with Some b => Ok b | None => Fault OutOfBounds end.

Definition st (m : mem) (a v : Z) : res mem :=
  match m !! a with Some _ => Ok (<[a := u8 v]> m) | None => Fault OutOfBounds end.

(** ** Lengths *)

Fixpoint strlen_loop (fuel : nat) (m : mem) (str i : Z) : res Z :=
  match fuel with
  | O => Fault OutOfFuel
  | S fuel => let! c := ld m str in if c =? 0 then Ok i else strlen_loop fuel m (str + 1) (i + 1)
  end.

Definition strlen (fuel : nat) (m : mem) (str : Z) : res Z :=
  if str =? 0 then Ok 0 else strlen_loop fuel m str 0.

Fixpoint strnlen_loop (rem : nat) (m : mem) (str i : Z) : res Z :=
  match rem with
  | O => Ok i
  | S rem => let! c := ld m str in if c =? 0 then Ok i else strnlen_loop rem m (str + 1) (i + 1)
  end.

Definition strnlen (m : mem) (str maxlen : Z) : res Z :=
  if str =? 0 then Ok 0 else strnlen_loop (Z.to_nat maxlen) m str 0.

(** ** Comparing *)

Fixpoint strcmp (fuel : nat) (m : mem) (str1 str2 : Z) : res Z :=
  match fuel with
  | O => Fault OutOfFuel
  | S fuel =>
      let! a := ld m str1 in
      let! b := ld m str2 in
      if negb (a =? 0) && negb (b =? 0) && (a =? b) then strcmp fuel m (str1 + 1) (str2 + 1)
      else Ok (a - b)
  end.

(** The test of [n] comes last: the strings are read once more when it runs out. *)
Fixpoint strncmp (n : nat) (m : mem) (str1 str2 : Z) : res Z :=
  let! a := ld m str1 in
  if a =? 0 then
    match n with O => Ok 0 | S _ => let! b := ld m str2 in Ok (a - b) end
  else
    let! b := ld m str2 in
    match n with
    | O => Ok 0
    | S n => if negb (b =? 0) && (a =? b) then strncmp n m (str1 + 1) (str2 + 1) else Ok (a - b)
    end.

Fixpoint memcmp (n : nat) (m : mem) (p1 p2 : Z) : res Z :=
  match n with
  | O => Ok 0
  | S n =>
      let! a := ld m p1 in
      let! b := ld m p2 in
      if negb (a =? b) then Ok (a - b) else memcmp n m (p1 + 1) (p2 + 1)
  end.

(** ** Searching; a null result is address 0 *)

Fixpoint strchr (fuel : nat) (m : mem) (str c : Z) : res Z :=
  match fuel with
  | O => Fault OutOfFuel
  | S fuel =>
      let! a := ld m str in
      if a =? u8 c then Ok str
      else if a =? 0 then Ok 0 else strchr fuel m (str + 1) c
  end.

Fixpoint strrchr_loop (fuel : nat) (m : mem) (str c r : Z) : res Z :=
  match fuel with
  | O => Fault OutOfFuel
  | S fuel =>
      let! a := ld m str in
      let r := if a =? u8 c then str else r in
      if a =? 0 then Ok r else strrchr_loop fuel m (str + 1) c r
  end.

Definition strrchr (fuel : nat) (m : mem) (str c : Z) : res Z := strrchr_loop fuel m str c 0.

Fixpoint strchrnul (fuel : nat) (m : mem) (str c : Z) : res Z :=
  match fuel with
  | O => Fault OutOfFuel
  | S fuel =>
      let! a := ld m str in
      if a =? u8 c then Ok str
      else if a =? 0 then Ok str else strchrnul fuel m (str + 1) c
  end.

(** [strrchrnul]: [str - 1] after the loop is the address of the terminator. *)
Fixpoint strrchrnul_loop (fuel : nat) (m : mem) (str c r : Z) : res Z :=
  match fuel with
  | O => Fault OutOfFuel
  | S fuel =>
      let! a := ld m str in
      let r := if a =? u8 c then str else r in
      if a =? 0 then Ok (if r =? 0 then str else r) else strrchrnul_loop fuel m (str + 1) c r
  end.

Definition strrchrnul (fuel : nat) (m : mem) (str c : Z) : res Z := strrchrnul_loop fuel m str c 0.

(** The inner loop of [strstr]: where [n] stops. *)
Fixpoint match_loop (fuel : nat) (m : mem) (h n : Z) : res Z :=
  match fuel with
  | O => Fault OutOfFuel
  | S fuel =>
      let! a := ld m h in
      if a =? 0 then Ok n
      else
        let! b := ld m n in
        if negb (b =? 0) && (a =? b) then match_loop fuel m (h + 1) (n + 1) else Ok n
  end.

Fixpoint strstr_loop (fuel : nat) (m : mem) (haystack needle : Z) : res Z :=
  match fuel with
  | O => Fault OutOfFuel
  | S fuel' =>
      let! a := ld m haystack in
      if a =? 0 then Ok 0
      else
        let! n := match_loop fuel m haystack needle in
        let! b := ld m n in
        if b =? 0 then Ok haystack else strstr_loop fuel' m (haystack + 1) needle
  end.

Definition strstr (fuel : nat) (m : mem) (haystack needle : Z) : res Z :=
  let! b := ld m needle in
  if b =? 0 then Ok haystack else strstr_loop fuel m haystack needle.

Fixpoint table_loop (fuel : nat) (m : mem) (s : Z) (table : list bool) : res (list bool) :=
  match fuel with
  | O => Fault OutOfFuel
  | S fuel =>
      let! a := ld m s in
      if a =? 0 then Ok table
      else let! table := aset table a true in table_loop fuel m (s + 1) table
  end.

(** The second loop of [strspn] ([want] true) and of [strcspn] ([want] false). *)
Fixpoint span_loop (fuel : nat) (m : mem) (s : Z) (table : list bool) (want : bool) : res Z :=
  match fuel with
  | O => Fault OutOfFuel
  | S fuel =>
      let! a := ld m s in
      if a =? 0 then Ok s
      else
        let! t := aget table a in
        if Bool.eqb t want then span_loop fuel m (s + 1) table want else Ok s
  end.

Definition strspn (fuel : nat) (m : mem) (str accept : Z) : res Z :=
  let! table := table_loop fuel m accept (replicate 256 false) in
  let! s := span_loop fuel m str table true in
  Ok (s - str).

Definition strcspn (fuel : nat) (m : mem) (str reject : Z) : res Z :=
  let! table := table_loop fuel m reject (replicate 256 false) in
  let! s := span_loop fuel m str table false in
  Ok (s - str).

Definition strpbrk (fuel : nat) (m : mem) (str accept : Z) : res Z :=
  let! k := strcspn fuel m str accept in
  let! a := ld m (str + k) in
  Ok (if a =? 0 then 0 else str + k).

Fixpoint memchr (n : nat) (m : mem) (p c : Z) : res Z :=
  match n with
  | O => Ok 0
  | S n => let! a := ld m p in if a =? u8 c then Ok p else memchr n m (p + 1) c
  end.

(** ** Copying *)

Fixpoint strcpy (fuel : nat) (m : mem) (p src : Z) : res mem :=
  match fuel with
  | O => Fault OutOfFuel
  | S fuel =>
      let! c := ld m src in
      if c =? 0 then st m p c
      else let! m := st m p c in strcpy fuel m (p + 1) (src + 1)
  end.

Fixpoint memset (n : nat) (m : mem) (p c : Z) : res mem :=
  match n with
  | O => Ok m
  | S n => let! m := st m p c in memset n m (p + 1) c
  end.

(** The first loop reads [*src] before it tests [n]. *)
Fixpoint strncpy (n : nat) (m : mem) (p src : Z) : res mem :=
  let! c := ld m src in
  match n with
  | O => Ok m
  | S n' =>
      if c =? 0 then memset n m p 0
      else let! m := st m p c in strncpy n' m (p + 1) (src + 1)
  end.

Fixpoint strcat_end (fuel : nat) (m : mem) (dest : Z) : res Z :=
  match fuel with
  | O => Fault OutOfFuel
  | S fuel => let! c := ld m dest in if c =? 0 then Ok dest else strcat_end fuel m (dest + 1)
  end.

(** The rest of [strcat] copies the bytes of [src] and then a null, as [strcpy] does. *)
Definition strcat (fuel : nat) (m : mem) (dest src : Z) : res mem :=
  let! e := strcat_end fuel m dest in strcpy fuel m e src.

Fixpoint memcpy (n : nat) (m : mem) (p src : Z) : res mem :=
  match n with
  | O => Ok m
  | S n => let! c := ld m src in let! m := st m p c in memcpy n m (p + 1) (src + 1)
  end.

(** [p] is what [malloc] returned. *)
Definition strdup (fuel : nat) (m : mem) (str p : Z) : res (Z * mem) :=
  let! len := strlen fuel m str in
  if p =? 0 then Ok (0, m)
  else let! m := memcpy (Z.to_nat (len + 1)) m p str in Ok (p, m).

Definition strndup (m : mem) (str n p : Z) : res (Z * mem) :=
  let! len := strnlen m str n in
  if p =? 0 then Ok (0, m)
  else
    let! m := memcpy (Z.to_nat len) m p str in
    let! m := st m (p + len) 0 in
    Ok (p, m).

(** ** Strings in memory *)

Fixpoint bytes_at (m : mem) (a : Z) (l : list Z) : Prop :=
  match l with
  | [] => True
  | b :: l => m !! a = Some b /\ bytes_at m (a + 1) l
  end.

(** The C string [s] at address [a]. *)
Definition cstr (m : mem) (a : Z) (s : list Z) : Prop :=
  bytes_at m a (s ++ [0]) /\ Forall (fun b => 0 < b < 256) s.

Lemma cstr_nil m a : cstr m a [] -> ld m a = Ok 0.
Proof. intros [[E _] _]. unfold ld. by rewrite E. Qed.

Lemma cstr_cons m a b s : cstr m a (b :: s) -> ld m a = Ok b /\ 0 < b < 256 /\ cstr m (a + 1) s.
Proof. intros [[E Hs] Hb]. apply Forall_cons in Hb as [Hb Hf]. unfold ld. by rewrite E. Qed.

Lemma ld_at m a l1 b l2 : bytes_at m a (l1 ++ b :: l2) -> ld m (a + Z.of_nat (length l1)) = Ok b.
Proof.
  revert a. induction l1 as [|x l1 IH]; intros a Hb.
  - destruct Hb as [E _]. cbn. rewrite Z.add_0_r. unfold ld. by rewrite E.
  - destruct Hb as [_ Hb]. rewrite <- (IH _ Hb). f_equal. cbn [length]. lia.
Qed.

Lemma bytes_at_frame m m' a l :
  (forall x, a <= x < a + Z.of_nat (length l) -> m' !! x = m !! x) -> bytes_at m a l -> bytes_at m' a l.
Proof.
  revert a. induction l as [|b l IH]; intros a Hf Hb; [done|]. destruct Hb as [E Hb]. cbn [length] in Hf. split.
  - rewrite Hf by lia. done.
  - apply IH; [|done]. intros x Hx. apply Hf. lia.
Qed.

(** One step of a loop over a string. *)
Ltac step_str H :=
  first [ rewrite (cstr_nil _ _ H)
        | let E := fresh "E" in let Hb := fresh "Hb" in
          destruct (cstr_cons _ _ _ _ H) as (E & Hb & ?); rewrite E; clear E ];
  cbn [res_bind].

(** [strlen] counts the characters; a null pointer is the empty string. *)
Lemma strlen_spec m a s fuel : cstr m a s -> a <> 0 -> (length s < fuel)%nat ->
  strlen fuel m a = Ok (Z.of_nat (length s)).
Proof.
  intros Hs Ha Hf. unfold strlen. replace (a =? 0) with false by lia.
  assert (forall s a i fuel, cstr m a s -> (length s < fuel)%nat -> strlen_loop fuel m a i = Ok (i + Z.of_nat (length s))) as Hl;
    [|exact (Hl s a 0 fuel Hs Hf)]. clear.
  induction s as [|b s IH]; intros a i [|fuel] Hs Hf; try (cbn in Hf; lia); cbn [strlen_loop]; step_str Hs.
  - cbn. by rewrite Z.add_0_r.
  - replace (b =? 0) with false by lia. rewrite IH; [|done|cbn in Hf; lia]. f_equal. cbn [length]. lia.
Qed.

(** The order of strings by unsigned bytes. *)
Fixpoint lex (s1 s2 : list Z) : Z :=
  match s1, s2 with
  | a :: s1, b :: s2 => if a =? b then lex s1 s2 else a - b
  | [], b :: _ => - b
  | a :: _, [] => a
  | [], [] => 0
  end.

Lemma lex_eq s1 s2 : Forall (fun b => 0 < b < 256) s1 -> Forall (fun b => 0 < b < 256) s2 -> (lex s1 s2 = 0 <-> s1 = s2).
Proof.
  revert s2. induction s1 as [|a s1 IH]; intros [|b s2] H1 H2; cbn [lex]; try done.
  - apply Forall_cons in H2 as [? _]. split; [lia|done].
  - apply Forall_cons in H1 as [? _]. split; [lia|done].
  - apply Forall_cons in H1 as [_ H1]. apply Forall_cons in H2 as [_ H2]. destruct (Z.eqb_spec a b) as [->|Hne].
    + rewrite IH by done. split; [by intros ->|by intros [= ->]].
    + split; [lia|]. by intros [= -> ->].
Qed.

Lemma strcmp_lex m s1 : forall s2 a1 a2 fuel, cstr m a1 s1 -> cstr m a2 s2 -> (length s1 < fuel)%nat ->
  strcmp fuel m a1 a2 = Ok (lex s1 s2).
Proof.
  induction s1 as [|x s1 IH]; intros [|y s2] a1 a2 [|fuel] H1 H2 Hf; try (cbn in Hf; lia); cbn [strcmp];
    step_str H1; step_str H2; cbn [lex]; try done.
  - replace (x =? 0) with false by lia. cbn. by rewrite Z.sub_0_r.
  - replace (x =? 0) with false by lia. replace (y =? 0) with false by lia. cbn [negb andb].
    destruct (x =? y); [|done]. apply IH; [done|done|cbn in Hf; lia].
Qed.

(** ** Searching a string *)

Fixpoint is_prefix (n h : list Z) : bool :=
  match n, h with
  | [], _ => true
  | b :: n, a :: h => (a =? b) && is_prefix n h
  | _ :: _, [] => false
  end.

(** The first position of [n] in [h]. *)
Fixpoint index_of (n h : list Z) : option nat :=
  if is_prefix n h then Some 0%nat
  else match h with
       | [] => None
       | _ :: h => match index_of n h with Some i => Some (S i) | None => None end
       end.

Lemma match_loop_spec m h : forall n ah an fuel,
  cstr m ah h -> cstr m an n -> (length h < fuel)%nat ->
  total (match_loop fuel m ah an) (fun e => total (ld m e) (fun b => (b =? 0) = is_prefix n h)).
Proof.
  induction h as [|a h IH]; intros n ah an [|fuel] Hh Hn Hf; try (cbn in Hf; lia); cbn [match_loop]; step_str Hh.
  - apply total_Ok. destruct n as [|b n]; [exists 0; by rewrite (cstr_nil _ _ Hn)|].
    destruct (cstr_cons _ _ _ _ Hn) as (E & Hb & _). exists b. rewrite E. split; [done|]. cbn. lia.
  - replace (a =? 0) with false by lia. destruct n as [|b n]; step_str Hn.
    + apply total_Ok. exists 0. by rewrite (cstr_nil _ _ Hn).
    + replace (b =? 0) with false by lia. cbn [negb andb is_prefix]. destruct (a =? b); cbn [andb].
      * apply IH; [done|done|cbn in Hf; lia].
      * apply total_Ok. destruct (cstr_cons _ _ _ _ Hn) as (E & Hb' & _). exists b. rewrite E. split; [done|]. lia.
Qed.

Lemma strstr_loop_spec m n : n <> [] -> forall h ah an fuel,
  cstr m ah h -> cstr m an n -> (length h < fuel)%nat ->
  strstr_loop fuel m ah an = Ok (match index_of n h with Some i => ah + Z.of_nat i | None => 0 end).
Proof.
  intros Hne. induction h as [|a h IH]; intros ah an [|fuel] Hh Hn Hf; try (cbn in Hf; lia); cbn [strstr_loop].
  - step_str Hh. by destruct n.
  - pose proof Hh as Hh'. step_str Hh. replace (a =? 0) with false by lia.
    destruct (match_loop_spec m (a :: h) n ah an (S fuel) Hh' Hn ltac:(cbn in Hf |- *; lia)) as (e & Ee & b & Eb & Hp).
    rewrite Ee. cbn [res_bind]. rewrite Eb. cbn [res_bind]. rewrite Hp. cbn [index_of].
    destruct (is_prefix n (a :: h)); [cbn; by rewrite Z.add_0_r|]. rewrite (IH (ah + 1)); [|done|done|cbn in Hf; lia].
    destruct (index_of n h); [|done]. f_equal. lia.
Qed.

Lemma is_prefix_app n h : is_prefix n h = true <-> exists k, h = n ++ k.
Proof.
  revert h. induction n as [|b n IH]; intros h; cbn; [split; [by exists h|done]|].
  destruct h as [|a h]; [split; [done|by intros [k ?]]|]. rewrite andb_true_iff, IH, Z.eqb_eq.
  split; [intros [-> [k ->]]; by exists k|intros [k [= -> ->]]; split; [done|by exists k]].
Qed.

(** [index_of] is the first occurrence. *)
Lemma index_of_first n h :
  match index_of n h with
  | Some i => (exists k, drop i h = n ++ k) /\ forall j, (j < i)%nat -> ~ exists k, drop j h = n ++ k
  | None => forall j, (j <= length h)%nat -> ~ exists k, drop j h = n ++ k
  end.
Proof.
  induction h as [|a h IH]; cbn [index_of].
  - destruct (is_prefix n []) eqn:E; [apply is_prefix_app in E; split; [done|lia]|].
    intros j Hj [k Hk]. rewrite drop_nil in Hk. assert (is_prefix n [] = true); [apply is_prefix_app; by exists k|congruence].
  - destruct (is_prefix n (a :: h)) eqn:E; [apply is_prefix_app in E; split; [done|lia]|].
    assert (~ exists k, a :: h = n ++ k) as Hno by (intros Hk; apply is_prefix_app in Hk; congruence).
    destruct (index_of n h) as [i|].
    + destruct IH as [Hi Hj]. split; [done|]. intros [|j] Hlt; [done|]. apply Hj. lia.
    + intros [|j] Hlt; [done|]. apply IH. cbn in Hlt. lia.
Qed.

(** [strchr] finds the first occurrence; asked for the terminator it returns its address. *)
Lemma strchr_spec m s c : 0 <= c < 256 -> forall a fuel, cstr m a s -> (length s < fuel)%nat ->
  strchr fuel m a c = Ok (match index_of [c] (s ++ [0]) with Some i => a + Z.of_nat i | None => 0 end).
Proof.
  intros Hc. induction s as [|b s IH]; intros a [|fuel] Hs Hf; try (cbn in Hf; lia); cbn [strchr]; step_str Hs;
    rewrite (wrap_small 8 c) by lia; cbn [index_of is_prefix app]; rewrite andb_true_r.
  - destruct (0 =? c); [cbn; by rewrite Z.add_0_r|done].
  - destruct (b =? c); [cbn; by rewrite Z.add_0_r|]. replace (b =? 0) with false by lia.
    rewrite IH; [|done|cbn in Hf; lia]. destruct (index_of [c] (s ++ [0])); [|done]. f_equal. lia.
Qed.

(** ** Spans *)

Fixpoint span (f : Z -> bool) (s : list Z) : nat :=
  match s with
  | b :: s => if f b then S (span f s) else 0%nat
  | [] => 0%nat
  end.

(** The table holds exactly the characters of the set. *)
Definition table_of (set : list Z) (table : list bool) : Prop :=
  length table = 256%nat /\ forall b, 0 <= b < 256 -> table !! Z.to_nat b = Some (bool_decide (b ∈ set)).

Lemma table_loop_spec m s : forall a set table fuel,
  cstr m a s -> table_of set table -> (length s < fuel)%nat ->
  total (table_loop fuel m a table) (table_of (set ++ s)).
Proof.
  induction s as [|c s IH]; intros a set table [|fuel] Hs Ht Hf; try (cbn in Hf; lia); cbn [table_loop]; step_str Hs.
  { rewrite app_nil_r. by apply total_Ok. }
  destruct Ht as [Hl Ht]. replace (c =? 0) with false by lia. rewrite aset_lt by (rewrite Hl; lia). cbn [res_bind].
  rewrite (cons_middle c), app_assoc. apply IH; [done| |cbn in Hf; lia]. split; [by rewrite length_insert|].
  intros b Hb0. destruct (decide (b = c)) as [->|Hne].
  - rewrite list_lookup_insert_eq by (rewrite Hl; lia). f_equal. symmetry. apply bool_decide_eq_true. apply elem_of_app. right. left.
  - rewrite list_lookup_insert_ne by lia. rewrite Ht by done. f_equal. apply bool_decide_ext. rewrite elem_of_app.
    split; [by left|]. intros [?|?%list_elem_of_singleton]; done.
Qed.

Lemma table_zero : table_of [] (replicate 256 false).
Proof.
  split; [by rewrite length_replicate|]. intros b Hb. by rewrite lookup_replicate_2 by lia.
Qed.

Lemma span_loop_spec m s set table want : forall a fuel,
  cstr m a s -> table_of set table -> (length s < fuel)%nat ->
  span_loop fuel m a table want = Ok (a + Z.of_nat (span (fun b => Bool.eqb (bool_decide (b ∈ set)) want) s)).
Proof.
  induction s as [|c s IH]; intros a [|fuel] Hs Ht Hf; try (cbn in Hf; lia); cbn [span_loop span]; step_str Hs.
  { cbn. by rewrite Z.add_0_r. }
  replace (c =? 0) with false by lia. destruct Ht as [Hl Ht].
  assert (aget table c = Ok (bool_decide (c ∈ set))) as -> by (apply aget_Ok; split; [lia|apply Ht; lia]). cbn [res_bind].
  destruct (Bool.eqb (bool_decide (c ∈ set)) want); [|cbn; by rewrite Z.add_0_r].
  rewrite IH; [|done|done|cbn in Hf; lia]. f_equal. lia.
Qed.

(** ** Writing memory *)

(** [m'] is [m] with the bytes [l] at [p]. *)
Definition writes (m : mem) (p : Z) (l : list Z) (m' : mem) : Prop :=
  bytes_at m' p l /\ forall x, ~ (p <= x < p + Z.of_nat (length l)) -> m' !! x = m !! x.

Definition mapped (m : mem) (p n : Z) : Prop := forall x, p <= x < p + n -> is_Some (m !! x).

Lemma st_spec m p n c : mapped m p n -> 0 < n -> 0 <= c < 256 -> st m p c = Ok (<[p := c]> m) /\ mapped (<[p := c]> m) (p + 1) (n - 1).
Proof.
  intros Hm Hn Hc. split.
  - unfold st. destruct (Hm p) as [b ->]; [lia|]. by rewrite wrap_small by lia.
  - intros x Hx. rewrite lookup_insert_ne by lia. apply Hm. lia.
Qed.

Lemma writes_nil m p : writes m p [] m.
Proof. done. Qed.

Lemma writes_cons m p c l m' : writes (<[p := c]> m) (p + 1) l m' -> writes m p (c :: l) m'.
Proof.
  intros [Hb Hf]. split; [split; [|done]|].
  - rewrite Hf by lia. apply lookup_insert_eq.
  - intros x Hx. cbn [length] in Hx. rewrite Hf by lia. apply lookup_insert_ne. lia.
Qed.

Lemma memset_spec c n : 0 <= c < 256 -> forall m p, mapped m p (Z.of_nat n) ->
  total (memset n m p c) (writes m p (replicate n c)).
Proof.
  intros Hc. induction n as [|n IH]; intros m p Hm; cbn [memset replicate]; [apply total_Ok, writes_nil|].
  destruct (st_spec m p (Z.of_nat (S n)) c Hm) as [-> Hm']; [lia|done|]. cbn [res_bind].
  eapply total_mono; [apply IH; replace (Z.of_nat n) with (Z.of_nat (S n) - 1) by lia; done|].
  intros m' Hw. by apply writes_cons.
Qed.

Lemma cstr_frame m m' a s :
  (forall x, a <= x <= a + Z.of_nat (length s) -> m' !! x = m !! x) -> cstr m a s -> cstr m' a s.
Proof.
  intros Hf [Hb Hs]. split; [|done]. eapply bytes_at_frame; [|exact Hb]. intros x Hx. apply Hf.
  rewrite length_app in Hx. cbn in Hx. lia.
Qed.

(** Copying [n] bytes between areas that do not overlap. *)
Lemma memcpy_spec l : forall m p a,
  bytes_at m a l -> Forall (fun b => 0 <= b < 256) l -> mapped m p (Z.of_nat (length l)) ->
  (p + Z.of_nat (length l) <= a \/ a + Z.of_nat (length l) <= p) ->
  total (memcpy (length l) m p a) (writes m p l).
Proof.
  induction l as [|c l IH]; intros m p a Hb Hr Hm Hd; cbn [memcpy length]; [apply total_Ok, writes_nil|].
  destruct Hb as [E Hb]. apply Forall_cons in Hr as [Hc Hr]. cbn [length] in Hm, Hd.
  unfold ld. rewrite E. cbn [res_bind]. destruct (st_spec m p _ c Hm) as [-> Hm']; [lia|done|]. cbn [res_bind].
  eapply total_mono; [apply (IH (<[p := c]> m) (p + 1) (a + 1))|intros m' Hw; by apply writes_cons].
  - eapply bytes_at_frame; [|exact Hb]. intros x Hx. apply lookup_insert_ne. lia.
  - done.
  - replace (Z.of_nat (length l)) with (Z.of_nat (S (length l)) - 1) by lia. done.
  - lia.
Qed.

Definition padded (n : nat) (s : list Z) : list Z := take n s ++ replicate (n - length s) 0.

Lemma strncpy_writes n : forall m p a s,
  cstr m a s -> mapped m p (Z.of_nat n) -> (p + Z.of_nat n <= a \/ a + Z.of_nat (length s) < p) ->
  total (strncpy n m p a) (writes m p (padded n s)).
Proof.
  unfold padded. induction n as [|n IH]; intros m p a s Hs Hm Hd; cbn [strncpy].
  { destruct s; step_str Hs; apply total_Ok, writes_nil. }
  destruct s as [|c s]; step_str Hs; [apply memset_spec; [lia|done]|].
  replace (c =? 0) with false by lia. destruct (st_spec m p _ c Hm) as [-> Hm']; [lia|lia|]. cbn [res_bind length] in *.
  eapply total_mono; [apply (IH (<[p := c]> m) (p + 1) (a + 1) s)|intros m' Hw; by apply writes_cons].
  - eapply cstr_frame; [|done]. intros x Hx. apply lookup_insert_ne. lia.
  - replace (Z.of_nat n) with (Z.of_nat (S n) - 1) by lia. done.
  - lia.
Qed.

Lemma strcpy_writes s : forall m p a fuel,
  cstr m a s -> mapped m p (Z.of_nat (length s) + 1) ->
  (p + Z.of_nat (length s) < a \/ a + Z.of_nat (length s) < p) -> (length s < fuel)%nat ->
  total (strcpy fuel m p a) (writes m p (s ++ [0])).
Proof.
  induction s as [|c s IH]; intros m p a [|fuel] Hs Hm Hd Hf; try (cbn in Hf; lia); cbn [strcpy app]; step_str Hs.
  - destruct (st_spec m p _ 0 Hm) as [-> _]; [cbn; lia|lia|]. apply total_Ok, writes_cons, writes_nil.
  - replace (c =? 0) with false by lia. cbn [length] in *. destruct (st_spec m p _ c Hm) as [-> Hm']; [lia|lia|]. cbn [res_bind].
    eapply total_mono; [apply (IH (<[p := c]> m) (p + 1) (a + 1) fuel)|intros m' Hw; by apply writes_cons].
    + eapply cstr_frame; [|done]. intros x Hx. apply lookup_insert_ne. lia.
    + replace (Z.of_nat (length s) + 1) with (Z.of_nat (S (length s)) + 1 - 1) by lia. done.
    + lia.
    + lia.
Qed.

(** ** Theorems *)

(** [strstr] returns the address of the first occurrence of the needle in the haystack, and
    null when there is none; the empty needle occurs at the start. *)
Theorem strstr_first_occurrence m h n ah an fuel :
  cstr m ah h -> cstr m an n -> (length h < fuel)%nat ->
  exists r, strstr fuel m ah an = Ok r /\
    ((exists i k, r = ah + Z.of_nat i /\ drop i h = n ++ k /\ forall j, (j < i)%nat -> ~ exists k, drop j h = n ++ k) \/
     (r = 0 /\ forall j, (j <= length h)%nat -> ~ exists k, drop j h = n ++ k)).
Proof.
  intros Hh Hn Hf. unfold strstr. pose proof (index_of_first n h) as Hi. destruct n as [|b n].
  - rewrite (cstr_nil _ _ Hn). cbn [res_bind Z.eqb]. exists ah. split; [done|]. left. exists 0%nat, h. cbn. split_and!; [lia|done|lia].
  - destruct (cstr_cons _ _ _ _ Hn) as (E & Hb & _). rewrite E. cbn [res_bind]. replace (b =? 0) with false by lia.
    rewrite (strstr_loop_spec m (b :: n)) with (h := h) by done. eexists. split; [done|].
    destruct (index_of (b :: n) h) as [i|]; [|by right]. destruct Hi as [[k Hk] Hj]. left. by exists i, k.
Qed.

(** [strcmp] orders strings by their unsigned bytes: its result is the difference at the
    first place where they differ, and is zero exactly for equal strings. *)
Theorem strcmp_orders m s1 s2 a1 a2 fuel :
  cstr m a1 s1 -> cstr m a2 s2 -> (length s1 < fuel)%nat ->
  exists r, strcmp fuel m a1 a2 = Ok r /\ r = lex s1 s2 /\ (r = 0 <-> s1 = s2).
Proof.
  intros H1 H2 Hf. exists (lex s1 s2). split; [by apply strcmp_lex|]. split; [done|]. apply lex_eq; [apply H1|apply H2].
Qed.

(** [strncpy] writes exactly [n] bytes: the first [n] bytes of the source, then nulls up to
    [n]; so the copy is terminated only when the source is shorter than [n]. No other byte
    changes. *)
Theorem strncpy_exact m p a s n :
  cstr m a s -> mapped m p (Z.of_nat n) -> (p + Z.of_nat n <= a \/ a + Z.of_nat (length s) < p) ->
  total (strncpy n m p a) (fun m' => bytes_at m' p (padded n s) /\ length (padded n s) = n /\
    (forall x, ~ (p <= x < p + Z.of_nat n) -> m' !! x = m !! x) /\
    ((length s < n)%nat -> cstr m' p s)).
Proof.
  intros Hs Hm Hd. assert (length (padded n s) = n) as El.
  { unfold padded. rewrite length_app, length_take, length_replicate. lia. }
  eapply total_mono; [by apply strncpy_writes|]. intros m' [Hb Hf]. rewrite El in Hf. split_and!; [done|done|done|].
  intros Hlt. split; [|apply Hs]. unfold padded in Hb. rewrite take_ge in Hb by lia.
  replace (n - length s)%nat with (S (n - length s - 1)) in Hb by lia. cbn [replicate] in Hb.
  rewrite (cons_middle 0), app_assoc in Hb. revert Hb. generalize (s ++ [0]). intros l. clear.
  revert p. induction l as [|b l IH]; intros p; [done|]. cbn. intros [E Hb]. split; [done|by eapply IH].
Qed.

(** [strspn] and [strcspn] measure the longest prefix of characters inside, respectively
    outside, the set given as a string. *)
Theorem strspn_strcspn_spans m a s b set fuel :
  cstr m a s -> cstr m b set -> (length s < fuel)%nat -> (length set < fuel)%nat ->
  strspn fuel m a b = Ok (Z.of_nat (span (fun c => bool_decide (c ∈ set)) s)) /\
  strcspn fuel m a b = Ok (Z.of_nat (span (fun c => negb (bool_decide (c ∈ set))) s)).
Proof.
  intros Hs Hset Hf Hf2. unfold strspn, strcspn.
  destruct (table_loop_spec m set b [] _ fuel Hset table_zero Hf2) as (table & -> & Ht). cbn [app] in Ht. cbn [res_bind].
  rewrite !(span_loop_spec m s set table) by done. cbn [res_bind].
  assert (forall f g, (forall c, f c = g c) -> span f s = span g s) as He.
  { intros f g E. clear -E. induction s as [|c s IH]; [done|]. cbn. by rewrite E, IH. }
  split; f_equal; rewrite Z.add_simpl_l; f_equal; apply He; intros c; by destruct (bool_decide (c ∈ set)).
Qed.

(** ** Strings laid out in a concrete memory *)

Fixpoint load (m : mem) (a : Z) (l : list Z) : mem :=
  match l with [] => m | b :: l => <[a := b]> (load m (a + 1) l) end.

(** "banana" at 100, "nan" at 200, eight free bytes at 300. *)
Definition demo_mem : mem :=
  load (load (load ∅ 300 (replicate 8 1)) 200 [110; 97; 110; 0]) 100 [98; 97; 110; 97; 110; 97; 0].

Lemma demo_banana : cstr demo_mem 100 [98; 97; 110; 97; 110; 97].
Proof. split; [vm_compute; tauto|]. repeat constructor. Qed.

Lemma demo_nan : cstr demo_mem 200 [110; 97; 110].
Proof. split; [vm_compute; tauto|]. repeat constructor. Qed.

Example strstr_first_occurrence_witness : exists r, strstr 8 demo_mem 100 200 = Ok r /\ r <> 0.
Proof.
  destruct (strstr_first_occurrence demo_mem _ _ 100 200 8 demo_banana demo_nan ltac:(cbn; lia)) as (r & E & _).
  exists r. split; [exact E|]. assert (strstr 8 demo_mem 100 200 = Ok 102) as E2 by (vm_compute; reflexivity).
  rewrite E2 in E. injection E as <-. discriminate.
Defined.

Example strcmp_orders_witness : exists r, strcmp 8 demo_mem 100 200 = Ok r /\ r = lex [98; 97; 110; 97; 110; 97] [110; 97; 110].
Proof.
  destruct (strcmp_orders demo_mem _ _ 100 200 8 demo_banana demo_nan ltac:(cbn; lia)) as (r & E & El & _).
  exists r. split; [exact E|exact El].
Defined.

Example strncpy_exact_witness : total (strncpy 8 demo_mem 300 100) (fun m' => cstr m' 300 [98; 97; 110; 97; 110; 97]).
Proof.
  eapply total_mono; [apply (strncpy_exact demo_mem 300 100 _ 8 demo_banana)|].
  - intros x Hx. assert (x = 300 \/ x = 301 \/ x = 302 \/ x = 303 \/ x = 304 \/ x = 305 \/ x = 306 \/ x = 307) as Hc by lia.
    repeat destruct Hc as [->|Hc]; try subst x; vm_compute; eexists; reflexivity.
  - cbn. lia.
  - intros m' (_ & _ & _ & Hc). apply Hc. cbn. lia.
Defined.

Example strspn_strcspn_spans_witness : strspn 8 demo_mem 100 200 = Ok 0.
Proof.
  destruct (strspn_strcspn_spans demo_mem 100 _ 200 _ 8 demo_banana demo_nan ltac:(cbn; lia) ltac:(cbn; lia)) as [E _]. exact E.
Defined.
