(* ===== verification/Printf.v ===== *)
(** * Numbers as text

    The formatted output of the kernel ([kernel/klib/vsprintf.c]) and the conversion of text to
    a number of the C library ([app/libc/stdlib/strtol.c]).  A string is the list of its bytes
    without the terminating zero. *)
From Stdlib Require Import ZArith Lia List Bool.
From stdpp Require Import base list.
From S2P Require Import Prelude.

#[local] Open Scope Z_scope.

(** ** [vsprintf] *)

(** The bits of [flgs]. *)
Record flags := Flags { LEFT : bool; SIGN : bool; ZERO : bool; SPECIAL : bool; SPACE : bool }.

#[export] Instance eta_flags : Eta flags := fun f => Flags (LEFT f) (SIGN f) (ZERO f) (SPECIAL f) (SPACE f).

Definition no_flags : flags := Flags false false false false false.

(** An argument: the 64 bits of a number, or a string. *)
Inductive arg := AInt (z : Z) | AStr (s : option (list Z)).

(** [va_arg]; an argument that was not passed as the type asked for has no meaning. *)
Definition va_int (args : list arg) : res (Z * list arg) :=
  match args with
  | AInt z :: args => Ok (z, args)
  | _ => Fault OutOfBounds
  end.

Definition va_str (args : list arg) : res (option (list Z) * list arg) :=
  match args with
  | AStr s :: args => Ok (s, args)
  | _ => Fault OutOfBounds
  end.

Definition is_digit (c : Z) : bool := (48 <=? c) && (c <=? 57).

(** [_int]: the number and what follows it. *)
Fixpoint _int (p : list Z) (i : Z) : Z * list Z :=
  match p with
  | c :: q => if is_digit c then _int q (i32 (i * 10 + c - 48)) else (i, p)
  | [] => (i, [])
  end.

(** [letters[d]] *)
Definition letter (upper : bool) (d : Z) : Z := if d <? 10 then 48 + d else if upper then 55 + d else 87 + d.

(** The loop of [_number] fills the 64 bytes of [tmp] from the lowest digit on. *)
Fixpoint number_loop (room : nat) (num base : Z) (upper : bool) (tmp : list Z) : res (list Z) :=
  if num =? 0 then Ok tmp
  else
    match room with
    | O => Fault OutOfBounds
    | S room => number_loop room (num / base) base upper (tmp ++ [letter upper (num mod base)])
    end.

(** [_number]: the digits, the highest first. *)
Definition _number (num base : Z) (upper : bool) : res (list Z) :=
  if num =? 0 then Ok [48]
  else
    let! tmp := number_loop 64 num base upper [] in
    Ok (rev tmp).

(** The flags after a percent sign; at ['0'] with [ZERO] set the width begins. *)
Fixpoint parse_flgs (p : list Z) (f : flags) : flags * list Z :=
  match p with
  | c :: q =>
      if c =? 35 then parse_flgs q (f <| SPECIAL := true |>)
      else if c =? 48 then (if ZERO f then (f, p) else parse_flgs q (f <| ZERO := true |>))
      else if c =? 45 then parse_flgs q (f <| LEFT := true |>)
      else if c =? 32 then parse_flgs q (f <| SPACE := true |>)
      else if c =? 43 then parse_flgs q (f <| SIGN := true |>)
      else (f, p)
  | [] => (f, [])
  end.

(** How a conversion goes on: with text that is complete, or with a number to be printed. *)
Inductive conv :=
| Text (out rest : list Z) (args : list arg)
| Number (f : flags) (radix len width : Z) (sign upper : bool) (rest : list Z) (args : list arg).

(** The switch at [parse_args]; [p] starts at the character it looks at, no character is the
    terminating zero. *)
Fixpoint parse_args (fuel : nat) (p : list Z) (f : flags) (len width : Z) (args : list arg) : res conv :=
  match fuel with
  | O => Fault OutOfFuel
  | S fuel =>
      match p with
      | [] => Ok (Number f 10 len width false false [] args)
      | c :: q =>
          if c =? 37 then Ok (Text [37] q args)
          else if (c =? 108) || (c =? 76) then
            match q with
            | d :: q' => if (d =? 108) || (d =? 76) then parse_args fuel q' f 2 width args else parse_args fuel q f 1 width args
            | [] => parse_args fuel q f 1 width args
            end
          else if c =? 88 then Ok (Number f 16 len width false true p args)
          else if c =? 120 then Ok (Number f 16 len width false false p args)
          else if c =? 111 then Ok (Number f 8 len width false false p args)
          else if (c =? 100) || (c =? 105) then Ok (Number f 10 len width true false p args)
          else if c =? 117 then Ok (Number f 10 len width false false p args)
          else if c =? 99 then
            let! a := va_int args in
            Ok (Text (replicate (Z.to_nat (width - 1)) 32 ++ [u8 (fst a)]) q (snd a))
          else if c =? 115 then
            let! a := va_str args in
            let src := default [40; 110; 117; 108; 108; 41] (fst a) in
            Ok (Text (replicate (Z.to_nat (width - Z.of_nat (length src))) 32 ++ src) q (snd a))
          else if c =? 112 then Ok (Number (f <| SPECIAL := true |>) 16 2 width false false p args)
          else if c =? 113 then
            let! a := va_int args in
            Ok (Text (replicate (Z.to_nat width) (u8 (fst a))) q (snd a))
          else if is_digit c then
            let '(w, q) := _int p 0 in
            parse_args fuel q f len w args
          else if c =? 42 then
            let! a := va_int args in
            let w := i32 (fst a) in
            parse_args fuel q (if w <? 0 then f <| LEFT := true |> else f) len w (snd a)
          else Ok (Number f 10 len width false false p args)
      end
  end.

(** The argument of a number: its magnitude and whether it is negative. *)
Definition magnitude (len : Z) (sign : bool) (a : Z) : Z * bool :=
  if len =? 0 then
    let val := u32 a in
    if sign && (i32 val <? 0) then (u64 (i32 (- i32 val)), true) else (val, false)
  else
    let val := u64 a in
    if sign && (i64 val <? 0) then (u64 (i64 (- i64 val)), true) else (val, false).

(** [b && siz--]: the result and [siz]. *)
Definition take_col (b : bool) (siz : Z) : bool * Z := if b then (negb (siz =? 0), i32 (siz - 1)) else (false, siz).

(** The character in front of a decimal number, 0 for none, and the columns left. *)
Definition prefix_of (f : flags) (radix : Z) (sign minus : bool) (siz : Z) : Z * Z :=
  if radix =? 10 then
    let '(ok, siz) := take_col minus siz in
    if ok : bool then (45, siz)
    else
      let '(ok, siz) := take_col (sign && SIGN f) siz in
      if ok : bool then (43, siz)
      else
        let '(ok, siz) := take_col (SPACE f) siz in
        if ok : bool then (32, siz) else (0, siz)
  else (0, siz).

Definition front (f : flags) (radix prefix : Z) (upper : bool) : list Z :=
  (if prefix =? 0 then [] else [prefix]) ++
  (if SPECIAL f && negb (radix =? 10) then 48 :: (if radix =? 16 then [if upper then 88 else 120] else []) else []).

(** From [val] on: the text of a number. *)
Definition put_number (f : flags) (radix len width : Z) (sign upper : bool) (a : Z) : res (list Z) :=
  let '(val, minus) := magnitude len sign a in
  let! digits := _number val radix upper in
  let siz := i32 (width - Z.of_nat (length digits)) in
  let '(prefix, siz) := prefix_of f radix sign minus siz in
  let siz := if SPECIAL f then i32 (siz - (if radix =? 16 then 2 else if radix =? 8 then 1 else 0)) else siz in
  let pad := if negb (LEFT f) && (0 <? siz) then replicate (Z.to_nat siz) (if ZERO f then 48 else 32) else [] in
  Ok ((if ZERO f then front f radix prefix upper else []) ++ pad ++
      (if ZERO f then [] else front f radix prefix upper) ++ digits).

(** The loop of [vsprintf]; every round takes a character of the format.  Behind a number the
    pointer moves on, also when it is at the terminating zero. *)
Fixpoint vsprintf_loop (fuel : nat) (p : list Z) (args : list arg) : res (list Z) :=
  match p with
  | [] => Ok []
  | c :: q =>
      match fuel with
      | O => Fault OutOfFuel
      | S fuel =>
          if negb (c =? 37) then let! out := vsprintf_loop fuel q args in Ok (c :: out)
          else
            let '(f, q) := parse_flgs q no_flags in
            let! k := parse_args (S (length q)) q f 0 0 args in
            match k with
            | Text out rest args => let! more := vsprintf_loop fuel rest args in Ok (out ++ more)
            | Number f radix len width sign upper rest args =>
                let! a := va_int args in
                let! out := put_number f radix len width sign upper (fst a) in
                match rest with
                | [] => Fault OutOfBounds
                | _ :: rest => let! more := vsprintf_loop fuel rest (snd a) in Ok (out ++ more)
                end
            end
      end
  end.

Definition vsprintf (format : list Z) (args : list arg) : res (list Z) := vsprintf_loop (length format) format args.

(** ** [strtol] *)

Definition LONG_MAX : Z := 2 ^ 63 - 1.
Definition LONG_MIN : Z := - 2 ^ 63.
Definition ULONG_MAX : Z := 2 ^ 64 - 1.
Definition ERANGE : Z := 34.

Definition isspace (c : Z) : bool := (c =? 32) || (c =? 12) || (c =? 10) || (c =? 13) || (c =? 9) || (c =? 11).

Definition tolower (c : Z) : Z := if (65 <=? c) && (c <=? 90) then c + 32 else c.

(** [extract]: the value of a digit of the base. *)
Definition extract (c base : Z) : option Z :=
  let v := if (48 <=? c) && (c <=? 57) then Some (c - 48)
           else if (97 <=? c) && (c <=? 122) then Some (c - 97 + 10)
           else if (65 <=? c) && (c <=? 90) then Some (c - 65 + 10)
           else None in
  match v with
  | Some v => if v <? base then Some v else None
  | None => None
  end.

Fixpoint skip_space (p : list Z) : list Z :=
  match p with
  | c :: q => if isspace c then skip_space q else p
  | [] => []
  end.

Section Strto.
(** [TYPE] as the reduction to its range, and its bounds. *)
Context (TYPE : Z -> Z) (MAXV MINV : Z) (SIGNED : bool).

(** The loop over the digits: the value, the sign, [end] and [errno]. *)
Fixpoint digits_loop (p : list Z) (base cutoff cutlim sign ret : Z) (fin : list Z) : Z * Z * list Z * Z :=
  match p with
  | c :: q =>
      match extract c base with
      | Some digit =>
          if (cutoff <? ret) || ((ret =? cutoff) && (cutlim <? digit)) then
            ((if sign <? 0 then MINV else MAXV), 1, fin, ERANGE)
          else digits_loop q base cutoff cutlim sign (TYPE (ret * base + digit)) q
      | None => (ret, sign, fin, 0)
      end
  | [] => (ret, sign, fin, 0)
  end.

(** The value, what [*endptr] points to, and [errno]. *)
Definition strto (nptr : list Z) (base : Z) : Z * list Z * Z :=
  let fin := nptr in
  if (base <? 0) || (base =? 1) || (36 <? base) then (0, fin, 0)
  else
    let p := skip_space nptr in
    let '(sign, p) := match p with
                      | c :: q => if c =? 45 then (TYPE (-1), q) else if c =? 43 then (1, q) else (1, p)
                      | [] => (1, p)
                      end in
    let '(base, p) := if base =? 0 then
                        match p with
                        | c :: q => if c =? 48 then (match q with
                                                     | d :: q' => if tolower d =? 120 then (16, q') else (8, q)
                                                     | [] => (8, q)
                                                     end)
                                    else (10, p)
                        | [] => (10, p)
                        end
                      else (base, p) in
    if (sign <? 0) && negb SIGNED then (TYPE (sign * MINV), fin, ERANGE)
    else
      let cutoff := if 0 <? sign then Z.quot MAXV base else TYPE (- Z.quot MINV base) in
      let cutlim := if 0 <? sign then Z.rem MAXV base else TYPE (- Z.rem MINV base) in
      let '(ret, sign, fin, errno) := digits_loop p base cutoff cutlim sign 0 fin in
      (TYPE (sign * ret), fin, errno).

End Strto.

Definition strtol : list Z -> Z -> Z * list Z * Z := strto i64 LONG_MAX LONG_MIN true.

Definition strtoul : list Z -> Z -> Z * list Z * Z := strto u64 ULONG_MAX 0 false.

(** [atoi] *)
Definition atoi (str : list Z) : Z := i32 (fst (fst (strtol str 10))).

(** ** Numerals *)

Fixpoint numeral_loop (k : nat) (base : Z) (upper : bool) (n : Z) : list Z :=
  match k with
  | O => []
  | S k => (if n <? base then [] else numeral_loop k base upper (n / base)) ++ [letter upper (n mod base)]
  end.

(** The digits of [n], the highest first. *)
Definition numeral (base : Z) (upper : bool) (n : Z) : list Z := numeral_loop 64 base upper n.

Lemma div_small_pow n base k : 2 <= base -> 0 <= n < 2 ^ Z.of_nat (S k) -> 0 <= n / base < 2 ^ Z.of_nat k.
Proof.
  intros Hb Hn. rewrite Nat2Z.inj_succ, Z.pow_succ_r in Hn by lia. split; [apply Z.div_pos; lia|]. apply Z.div_lt_upper_bound; nia.
Qed.

Lemma number_loop_ok base upper k : 2 <= base -> forall n tmp, 0 < n < 2 ^ Z.of_nat k -> number_loop k n base upper tmp = Ok (tmp ++ rev (numeral_loop k base upper n)).
Proof.
  intros Hb. induction k as [|k IH]; intros n tmp Hn; [cbn in Hn; lia|]. cbn [number_loop numeral_loop]. rewrite (proj2 (Z.eqb_neq n 0)) by lia.
  rewrite rev_app_distr. cbn [rev app]. destruct (Z.ltb_spec n base) as [Hlt|Hge].
  - rewrite Z.div_small by lia. destruct k; cbn; done.
  - pose proof (div_small_pow n base k Hb ltac:(lia)). assert (1 <= n / base) by (apply Z.div_le_lower_bound; lia). rewrite IH by lia. by rewrite <- app_assoc.
Qed.

Lemma number_ok n base upper : 2 <= base -> 0 <= n < 2 ^ 64 -> _number n base upper = Ok (numeral base upper n).
Proof.
  intros Hb Hn. unfold _number. destruct (Z.eqb_spec n 0) as [->|Hne].
  - unfold numeral. cbn [numeral_loop]. rewrite (proj2 (Z.ltb_lt 0 base)) by lia. rewrite Zmod_0_l. done.
  - rewrite (number_loop_ok base upper 64 Hb) by (change (Z.of_nat 64) with 64; lia). cbn [res_bind app]. rewrite rev_involutive. done.
Qed.

(** The value of digits. *)
Definition dval (base acc : Z) (ds : list Z) : Z := fold_left (fun a d => a * base + d) ds acc.

(** The digits of a numeral, as numbers. *)
Lemma numeral_digits base upper k : 2 <= base -> forall n, 0 <= n < 2 ^ Z.of_nat k -> (0 < k)%nat ->
  exists ds, numeral_loop k base upper n = map (letter upper) ds /\ Forall (fun d => 0 <= d < base) ds /\ dval base 0 ds = n /\ ds <> [] /\ (0 < n -> hd 0 ds <> 0).
Proof.
  intros Hb. induction k as [|k IH]; intros n Hn Hk; [lia|]. cbn [numeral_loop]. pose proof (Z.mod_pos_bound n base ltac:(lia)) as Hm. destruct (Z.ltb_spec n base) as [Hlt|Hge].
  - exists [n mod base]. split; [done|]. split; [by apply Forall_singleton|]. split; [cbn; rewrite Z.mod_small; lia|]. split; [done|]. cbn. rewrite Z.mod_small; lia.
  - pose proof (div_small_pow n base k Hb Hn) as Hd. assert (1 <= n / base) by (apply Z.div_le_lower_bound; lia). destruct k as [|k]; [cbn in Hd; lia|].
    destruct (IH (n / base) Hd ltac:(lia)) as (ds & -> & Hds & Hv & Hnil & Hhd). exists (ds ++ [n mod base]). rewrite map_app. split; [done|]. split; [apply Forall_app; split; [done|by apply Forall_singleton]|].
    split; [|split; [by destruct ds|intros _; destruct ds; [done|]; cbn in *; apply Hhd; lia]]. unfold dval in *. rewrite fold_left_app, Hv. cbn. pose proof (Z.div_mod n base). lia.
Qed.

Lemma letter_digit upper d : 0 <= d < 10 -> letter upper d = 48 + d /\ is_digit (letter upper d) = true.
Proof. intros Hd. unfold letter, is_digit. rewrite (proj2 (Z.ltb_lt d 10)) by lia. lia. Qed.

Lemma dval_ge base ds : 2 <= base -> Forall (fun d => 0 <= d < base) ds -> forall acc, 0 <= acc -> acc <= dval base acc ds.
Proof.
  intros Hb. induction 1 as [|d ds Hd _ IH]; intros acc Ha; cbn; [done|]. specialize (IH (acc * base + d) ltac:(nia)). unfold dval in IH. nia.
Qed.

(** [_int] reads a number back. *)
Lemma int_ok ds rest : Forall (fun d => 0 <= d < 10) ds -> match rest with c :: _ => is_digit c = false | [] => True end ->
  forall i, 0 <= i -> dval 10 i ds < 2 ^ 31 -> _int (map (letter false) ds ++ rest) i = (dval 10 i ds, rest).
Proof.
  intros Hds Hrest. induction Hds as [|d ds Hd Hds IH]; intros i Hi Hv; cbn [map app _int].
  - destruct rest as [|c q]; [done|]. cbn [_int]. by rewrite Hrest.
  - destruct (letter_digit false d Hd) as [E Edig]. rewrite Edig, E. pose proof (dval_ge 10 ds ltac:(lia) Hds (i * 10 + d) ltac:(lia)). cbn [dval fold_left] in *. unfold dval in *.
    rewrite signed_small by lia. replace (i * 10 + (48 + d) - 48) with (i * 10 + d) by lia. apply IH; lia.
Qed.

Lemma numeral_length base upper : 2 <= base -> forall k j n, 0 <= n < base ^ Z.of_nat (S j) -> (length (numeral_loop k base upper n) <= S j)%nat.
Proof.
  intros Hb. induction k as [|k IH]; intros j n Hn; cbn [numeral_loop]; [cbn; lia|]. rewrite length_app. cbn [length]. destruct (Z.ltb_spec n base); [cbn; lia|].
  destruct j as [|j]; [change (base ^ Z.of_nat 1) with (base ^ 1) in Hn; rewrite Z.pow_1_r in Hn; lia|].
  enough (length (numeral_loop k base upper (n / base)) <= S j)%nat by lia. apply IH. rewrite Nat2Z.inj_succ, Z.pow_succ_r in Hn by lia. split; [apply Z.div_pos; lia|apply Z.div_lt_upper_bound; lia].
Qed.

Lemma digits_short radix upper v : 8 <= radix -> 0 <= v < 2 ^ 64 -> (length (numeral radix upper v) <= 22)%nat /\ (10 <= radix -> (length (numeral radix upper v) <= 20)%nat).
Proof.
  intros Hr Hv. split.
  - apply (numeral_length radix upper ltac:(lia) 64 21). split; [lia|]. pose proof (Z.pow_le_mono_l 8 radix (Z.of_nat 22) ltac:(lia)). change (8 ^ Z.of_nat 22) with (4 * 2 ^ 64) in *. lia.
  - intros Hr'. apply (numeral_length radix upper ltac:(lia) 64 19). split; [lia|]. pose proof (Z.pow_le_mono_l 10 radix (Z.of_nat 20) ltac:(lia)). change (10 ^ Z.of_nat 20) with 100000000000000000000 in *. change (2 ^ 64) with 18446744073709551616 in *. lia.
Qed.

Lemma i32_small x : - 2 ^ 31 <= x < 2 ^ 31 -> i32 x = x.
Proof. intros Hx. apply signed_small; [lia|]. change (2 ^ (32 - 1)) with (2 ^ 31). lia. Qed.

(** ** Formats *)

Inductive kind := Dec | Uns | Oct | Hex | HEX.

Definition kind_char (k : kind) : Z := match k with Dec => 100 | Uns => 117 | Oct => 111 | Hex => 120 | HEX => 88 end.

Definition kind_radix (k : kind) : Z := match k with Dec | Uns => 10 | Oct => 8 | _ => 16 end.

Definition kind_upper (k : kind) : bool := match k with HEX => true | _ => false end.

Definition kind_sign (k : kind) : bool := match k with Dec => true | _ => false end.

(** The parts of a format: a character, a percent sign, a number with its flags, width and count
    of [l], a string and a character with their widths. *)
Inductive item :=
| ILit (c : Z)
| IPct
| INum (f : flags) (w len : Z) (k : kind)
| IStr (w : Z)
| IChr (w : Z).

Definition flags_text (f : flags) : list Z :=
  (if SPECIAL f then [35] else []) ++ (if LEFT f then [45] else []) ++ (if SPACE f then [32] else []) ++
  (if SIGN f then [43] else []) ++ (if ZERO f then [48] else []).

Definition width_text (w : Z) : list Z := if w =? 0 then [] else numeral 10 false w.

Definition len_text (len : Z) : list Z := if len =? 0 then [] else if len =? 1 then [108] else [108; 108].

Definition render1 (i : item) : list Z :=
  match i with
  | ILit c => [c]
  | IPct => [37; 37]
  | INum f w len k => 37 :: flags_text f ++ width_text w ++ len_text len ++ [kind_char k]
  | IStr w => 37 :: width_text w ++ [115]
  | IChr w => 37 :: width_text w ++ [99]
  end.

Definition render (items : list item) : list Z := concat (map render1 items).

(** The text of a number in the C standard: sign or, in front of a number other than zero, prefix, filled with zeros behind them or with
    spaces in front of them. *)
Definition std_front (f : flags) (k : kind) (v : Z) : list Z :=
  (if v <? 0 then [45] else if kind_sign k && SIGN f then [43] else if kind_sign k && SPACE f then [32] else []) ++
  (if SPECIAL f && negb (v =? 0) then match k with Hex => [48; 120] | HEX => [48; 88] | Oct => [48] | _ => [] end else []).

Definition std_digits (k : kind) (v : Z) : list Z := numeral (kind_radix k) (kind_upper k) (Z.abs v).

Definition std_number (f : flags) (w : Z) (k : kind) (v : Z) : list Z :=
  let fill := Z.to_nat (w - Z.of_nat (length (std_front f k v ++ std_digits k v))) in
  if ZERO f then std_front f k v ++ replicate fill 48 ++ std_digits k v
  else replicate fill 32 ++ std_front f k v ++ std_digits k v.

(** The values of the type of an argument; the least [int] has no magnitude that is one. *)
Definition in_type (len : Z) (k : kind) (v : Z) : Prop :=
  if kind_sign k then (if len =? 0 then - 2 ^ 31 < v < 2 ^ 31 else - 2 ^ 63 <= v < 2 ^ 63)
  else (if len =? 0 then 0 <= v < 2 ^ 32 else 0 <= v < 2 ^ 64).

Definition width_ok (w : Z) : Prop := 0 <= w < 2 ^ 31.

(** No left alignment, no space for an unsigned number, no prefix for a zero, and a number with a
    sign in front of it has not just as many digits as its width. *)
Record num_ok (f : flags) (w len : Z) (k : kind) (v : Z) : Prop := {
  no_type : in_type len k v;
  no_width : width_ok w;
  no_len : 0 <= len <= 2;
  no_left : LEFT f = false;
  no_space : kind_sign k = false -> SPACE f = false;
  no_zero : SPECIAL f = true -> kind_radix k <> 10 -> v <> 0;
  no_exact : v < 0 \/ (kind_sign k = true /\ (SIGN f = true \/ SPACE f = true)) -> w <> Z.of_nat (length (std_digits k v))
}.

Inductive prints : list item -> list arg -> list Z -> Prop :=
| pr_nil args : prints [] args []
| pr_lit c is_ args t : c <> 37 /\ c <> 0 -> prints is_ args t -> prints (ILit c :: is_) args (c :: t)
| pr_pct is_ args t : prints is_ args t -> prints (IPct :: is_) args (37 :: t)
| pr_num f w len k v is_ args t : num_ok f w len k v -> prints is_ args t -> prints (INum f w len k :: is_) (AInt v :: args) (std_number f w k v ++ t)
| pr_str w s is_ args t : width_ok w -> 0 ∉ s -> prints is_ args t ->
    prints (IStr w :: is_) (AStr (Some s) :: args) (replicate (Z.to_nat (w - Z.of_nat (length s))) 32 ++ s ++ t)
| pr_chr w c is_ args t : width_ok w -> 0 <= c < 256 -> prints is_ args t ->
    prints (IChr w :: is_) (AInt c :: args) (replicate (Z.to_nat (w - 1)) 32 ++ c :: t).

(** ** Parsing a conversion *)

Definition no_flag (c : Z) : Prop := c <> 35 /\ c <> 48 /\ c <> 45 /\ c <> 32 /\ c <> 43.

Lemma parse_stop c q f : no_flag c -> parse_flgs (c :: q) f = (f, c :: q).
Proof. intros (H1 & H2 & H3 & H4 & H5). cbn [parse_flgs]. by rewrite !(proj2 (Z.eqb_neq _ _)) by done. Qed.

Lemma parse_flgs_ok f c q : no_flag c -> parse_flgs (flags_text f ++ c :: q) no_flags = (f, c :: q).
Proof.
  intros Hc. pose proof (fun g => parse_stop c q g Hc) as Hs. destruct f as [[] [] [] [] []]; cbn [flags_text app SPECIAL LEFT SPACE SIGN ZERO]; cbn [parse_flgs Z.eqb Pos.eqb]; apply Hs.
Qed.

Lemma is_digit_letter d : 0 <= d < 10 -> is_digit (letter false d) = true.
Proof. intros Hd. by apply letter_digit. Qed.

(** The digits of a width. *)
Lemma width_digits w : width_ok w -> w <> 0 -> exists d ds, numeral 10 false w = map (letter false) (d :: ds) /\ Forall (fun d => 0 <= d < 10) (d :: ds) /\ dval 10 0 (d :: ds) = w /\ d <> 0.
Proof.
  intros Hw Hne. unfold width_ok in Hw. destruct (numeral_digits 10 false 64 ltac:(lia) w) as (ds & E & Hds & Hv & Hnil & Hhd); [change (Z.of_nat 64) with 64; lia|lia|].
  destruct ds as [|d ds]; [done|]. exists d, ds. split_and!; try done. apply Hhd. lia.
Qed.

Lemma width_head w c r : width_ok w -> no_flag c -> exists c' q, width_text w ++ c :: r = c' :: q /\ no_flag c'.
Proof.
  intros Hw Hc. unfold width_text. destruct (Z.eqb_spec w 0) as [->|Hne]; [by eexists _, _|]. destruct (width_digits w Hw Hne) as (d & ds & -> & Hds & _ & Hd). cbn [map app]. eexists _, _. split; [done|].
  apply Forall_cons in Hds as [Hd10 _]. destruct (letter_digit false d Hd10) as [-> _]. unfold no_flag. lia.
Qed.

(** The rounds of [parse_args] over a width. *)
Lemma parse_width w fuel c r f len args : width_ok w -> is_digit c = false ->
  parse_args ((if w =? 0 then 0 else 1) + fuel) (width_text w ++ c :: r) f len 0 args = parse_args fuel (c :: r) f len w args.
Proof.
  intros Hw Hc. unfold width_text. destruct (Z.eqb_spec w 0) as [->|Hne]; [done|]. destruct (width_digits w Hw Hne) as (d & ds & E & Hds & Hv & Hd). rewrite E. cbn [Nat.add parse_args map app].
  assert (0 <= d < 10) as Hd10 by (by apply Forall_cons in Hds as [? _]). destruct (letter_digit false d Hd10) as [El Edig]. rewrite Edig, El.
  rewrite !(proj2 (Z.eqb_neq (48 + d) _)) by lia. cbn [orb].
  pose proof (int_ok (d :: ds) (c :: r) Hds Hc 0 ltac:(lia)) as Hi. rewrite Hv in Hi. cbn [map app] in Hi. rewrite El in Hi. rewrite Hi by (unfold width_ok in Hw; lia). done.
Qed.

Lemma parse_len len fuel c r f w args : 0 <= len <= 2 -> c <> 108 -> c <> 76 ->
  parse_args ((if len =? 0 then 0 else 1) + fuel) (len_text len ++ c :: r) f 0 w args = parse_args fuel (c :: r) f len w args.
Proof.
  intros Hl H1 H2. assert (len = 0 \/ len = 1 \/ len = 2) as [->|[->| ->]] by lia; cbn [len_text Z.eqb Pos.eqb Nat.add app parse_args orb]; try done.
  rewrite !(proj2 (Z.eqb_neq c _)) by done. done.
Qed.

Lemma parse_kind k fuel r f len w args : parse_args (S fuel) (kind_char k :: r) f len w args = Ok (Number f (kind_radix k) len w (kind_sign k) (kind_upper k) (kind_char k :: r) args).
Proof. by destruct k. Qed.

Lemma len_head len k r : 0 <= len <= 2 -> exists c q, len_text len ++ kind_char k :: r = c :: q /\ no_flag c /\ is_digit c = false.
Proof. intros Hl. assert (len = 0 \/ len = 1 \/ len = 2) as [->|[->| ->]] by lia; destruct k; eexists _, _; (split; [reflexivity|]); unfold no_flag; cbn; lia. Qed.

Lemma parse_num f w len k r args : width_ok w -> 0 <= len <= 2 ->
  let q := width_text w ++ len_text len ++ kind_char k :: r in
  parse_flgs (flags_text f ++ q) no_flags = (f, q) /\
  parse_args (S (length q)) q f 0 0 args = Ok (Number f (kind_radix k) len w (kind_sign k) (kind_upper k) (kind_char k :: r) args).
Proof.
  intros Hw Hl q. destruct (len_head len k r Hl) as (c & t & Et & Hc & Hdig). unfold q. rewrite Et. split.
  - destruct (width_head w c t Hw Hc) as (c' & q' & -> & Hc'). by apply parse_flgs_ok.
  - assert (exists fuel, S (length (width_text w ++ c :: t)) = ((if Z.eqb w 0 then 0 else 1) + ((if Z.eqb len 0 then 0 else 1) + S fuel))%nat) as [fuel ->].
    { rewrite length_app, <- Et, length_app. assert ((if Z.eqb w 0 then 0 else 1) <= length (width_text w))%nat.
      { unfold width_text. destruct (Z.eqb_spec w 0); [lia|]. destruct (width_digits w Hw) as (d & ds & -> & _); [done|]. cbn. lia. }
      assert ((if Z.eqb len 0 then 0 else 1) <= length (len_text len))%nat by (unfold len_text; destruct (len =? 0); [lia|]; destruct (len =? 1); cbn; lia). cbn [length].
      exists (S (length (width_text w) - (if Z.eqb w 0 then 0 else 1) + (length (len_text len) - (if Z.eqb len 0 then 0 else 1)) + length r))%nat. lia. }
    rewrite parse_width by done. rewrite <- Et. rewrite parse_len by (done || by destruct k). apply parse_kind.
Qed.

(** A width and a conversion character that takes its argument at once. *)
Lemma parse_after w c r args : width_ok w -> no_flag c -> is_digit c = false -> exists g,
  parse_flgs (width_text w ++ c :: r) no_flags = (no_flags, width_text w ++ c :: r) /\
  parse_args (S (length (width_text w ++ c :: r))) (width_text w ++ c :: r) no_flags 0 0 args = parse_args (S g) (c :: r) no_flags 0 w args.
Proof.
  intros Hw Hc Hd. exists (length (width_text w) + S (length r) - (if Z.eqb w 0 then 0 else 1))%nat. split.
  - destruct (width_head w c r Hw Hc) as (c' & q' & -> & Hc'). by apply parse_stop.
  - rewrite <- (parse_width w) by done. f_equal. rewrite length_app. cbn [length]. destruct (w =? 0); lia.
Qed.

(** ** Printing a number *)

Lemma magnitude_ok len k v : in_type len k v -> 0 <= len <= 2 -> magnitude len (kind_sign k) v = (Z.abs v, (v <? 0)) /\ 0 <= Z.abs v < 2 ^ 64.
Proof.
  unfold in_type, magnitude. intros Ht Hl. assert (forall x n, - 2 ^ (n - 1) <= x < 2 ^ (n - 1) -> 0 < n -> signed n (wrap n x) = x) as Hsw.
  { intros x n Hx Hn. unfold signed. rewrite wrap_wrap. fold (signed n x). by apply signed_small. }
  destruct (Z.eqb_spec len 0) as [->|Hne]; destruct (kind_sign k) eqn:Ek; cbn [andb].
  - rewrite Hsw by (change (2 ^ (32 - 1)) with (2 ^ 31); lia). destruct (Z.ltb_spec v 0).
    + rewrite signed_small by (change (2 ^ (32 - 1)) with (2 ^ 31); lia). rewrite wrap_small by lia. split; [f_equal; lia|lia].
    + rewrite wrap_small by lia. split; [f_equal; lia|lia].
  - rewrite wrap_small by lia. rewrite (proj2 (Z.ltb_ge v 0)) by lia. split; [f_equal; lia|lia].
  - rewrite Hsw by (change (2 ^ (64 - 1)) with (2 ^ 63); lia). destruct (Z.ltb_spec v 0).
    + split; [|lia]. f_equal. destruct (Z.eq_dec v (- 2 ^ 63)) as [->|]; [reflexivity|]. rewrite signed_small by (change (2 ^ (64 - 1)) with (2 ^ 63); lia). rewrite wrap_small by lia. lia.
    + rewrite wrap_small by lia. split; [f_equal; lia|lia].
  - rewrite wrap_small by lia. rewrite (proj2 (Z.ltb_ge v 0)) by lia. split; [f_equal; lia|lia].
Qed.

Definition sgn (f : flags) (k : kind) (v : Z) : list Z := if v <? 0 then [45] else if kind_sign k && SIGN f then [43] else if kind_sign k && SPACE f then [32] else [].

Lemma std_digits_short len k v : in_type len k v -> (length (std_digits k v) <= 22)%nat.
Proof.
  intros Ht. apply (digits_short (kind_radix k) (kind_upper k) (Z.abs v)); [destruct k; cbn; lia|]. unfold in_type in Ht. destruct (kind_sign k), (len =? 0); lia.
Qed.

(** The sign of a number whose width is not just that of its digits. *)
Lemma prefix_ok f w len k v : num_ok f w len k v -> exists c,
  prefix_of f (kind_radix k) (kind_sign k) (v <? 0) (w - Z.of_nat (length (std_digits k v))) = (c, w - Z.of_nat (length (std_digits k v)) - Z.of_nat (length (sgn f k v))) /\
  (if c =? 0 then [] else [c]) = sgn f k v.
Proof.
  intros [Ht Hw _ _ Hsp _ Hex]. pose proof (std_digits_short len k v Ht) as Hd. set (siz := w - Z.of_nat (length (std_digits k v))) in *. unfold prefix_of, sgn, take_col.
  assert (i32 (siz - 1) = siz - 1) as Hi by (apply i32_small; unfold width_ok in Hw; lia).
  assert (kind_sign k = false -> 0 <= v) as Huns by (unfold in_type in Ht; intros E; rewrite E in Ht; destruct (len =? 0); lia).
  assert (v < 0 \/ (kind_sign k = true /\ (SIGN f = true \/ SPACE f = true)) -> (siz =? 0) = false) as Hz by (intros Hs; apply Z.eqb_neq; unfold siz; specialize (Hex Hs); lia).
  destruct (Z.ltb_spec v 0).
  - rewrite Hz by (by left). cbn [negb]. destruct k; try (specialize (Huns eq_refl); lia). exists 45. cbn [kind_radix Z.eqb Pos.eqb length]. by rewrite Hi.
  - destruct k; cbn [kind_radix kind_sign Z.eqb Pos.eqb andb] in *.
    + destruct (SIGN f) eqn:E1; [rewrite Hz by auto; cbn [negb]; rewrite Hi; by exists 43|]. destruct (SPACE f) eqn:E2; [rewrite Hz by auto; cbn [negb]; rewrite Hi; by exists 32|]. exists 0. split; [|done]. f_equal. cbn. lia.
    + rewrite Hsp by done. exists 0. split; [|done]. f_equal. cbn. lia.
    + exists 0. split; [|done]. f_equal. cbn. lia.
    + exists 0. split; [|done]. f_equal. cbn. lia.
    + exists 0. split; [|done]. f_equal. cbn. lia.
Qed.

Lemma put_number_ok f w len k v : num_ok f w len k v -> put_number f (kind_radix k) len w (kind_sign k) (kind_upper k) v = Ok (std_number f w k v).
Proof.
  intros Hok. pose proof Hok as [Ht Hw Hl Hleft _ Hnz _]. unfold put_number. destruct (magnitude_ok len k v Ht Hl) as [-> Hm]. rewrite number_ok by (destruct k; cbn; lia). cbn [res_bind]. fold (std_digits k v).
  pose proof (std_digits_short len k v Ht) as Hshort. assert (length (sgn f k v) <= 1)%nat as Hsgn by (unfold sgn; repeat case_match; cbn; lia). unfold width_ok in Hw. rewrite i32_small by lia.
  destruct (prefix_ok f w len k v Hok) as (c & -> & Hc). rewrite Hleft. cbn [negb andb].
  assert (std_front f k v = sgn f k v ++ (if SPECIAL f then match k with Hex => [48; 120] | HEX => [48; 88] | Oct => [48] | _ => [] end else [])) as Hstd.
  { unfold std_front. fold (sgn f k v). f_equal. destruct (SPECIAL f) eqn:Es; [|done]. destruct k; try (by destruct (v =? 0)); by rewrite (proj2 (Z.eqb_neq v 0)) by by apply Hnz. }
  assert (front f (kind_radix k) c (kind_upper k) = std_front f k v) as Hfront.
  { rewrite Hstd. unfold front. rewrite Hc. f_equal. destruct (SPECIAL f), k; reflexivity. }
  rewrite Hfront. set (siz := w - _ - _).
  assert ((if SPECIAL f then i32 (siz - (if kind_radix k =? 16 then 2 else if kind_radix k =? 8 then 1 else 0)) else siz) = w - Z.of_nat (length (std_front f k v ++ std_digits k v))) as ->.
  { rewrite i32_small by (unfold siz; destruct k; cbn [kind_radix Z.eqb Pos.eqb]; lia). rewrite Hstd. unfold siz. rewrite !length_app. destruct (SPECIAL f), k; cbn [kind_radix Z.eqb Pos.eqb length]; lia. }
  unfold std_number. set (fill := w - Z.of_nat _). assert (forall x : Z, (if 0 <? fill then replicate (Z.to_nat fill) x else []) = replicate (Z.to_nat fill) x) as Hrep.
  { intros x. destruct (Z.ltb_spec 0 fill); [done|]. by replace (Z.to_nat fill) with 0%nat by lia. }
  rewrite Hrep. f_equal. by destruct (ZERO f).
Qed.

(** ** The whole format *)

Lemma render_cons i is_ : render (i :: is_) = render1 i ++ render is_.
Proof. done. Qed.

Lemma vsprintf_loop_ok items args text : prints items args text -> forall fuel, (length (render items) <= fuel)%nat -> vsprintf_loop fuel (render items) args = Ok text.
Proof.
  induction 1 as [args|c is_ args t Hc _ IH|is_ args t _ IH|f w len k v is_ args t Hok _ IH|w s is_ args t Hw _ _ IH|w c is_ args t Hw Hc _ IH]; intros fuel Hf; rewrite ?render_cons in *.
  - by destruct fuel.
  - destruct fuel as [|fuel]; [cbn in Hf; lia|]. cbn [render1 app vsprintf_loop]. rewrite (proj2 (Z.eqb_neq c 37)) by by destruct Hc. cbn [negb]. rewrite IH by (cbn in Hf; lia). done.
  - destruct fuel as [|fuel]; [cbn in Hf; lia|]. cbn [render1 app vsprintf_loop]. change (37 =? 37) with true. cbn [negb parse_flgs Z.eqb Pos.eqb length parse_args res_bind]. rewrite IH by (cbn in Hf; lia). done.
  - destruct fuel as [|fuel]; [cbn in Hf; lia|]. cbn [render1 app vsprintf_loop]. change (37 =? 37) with true. cbn [negb]. rewrite <- !app_assoc.
    destruct (parse_num f w len k (render is_) (AInt v :: args) (no_width _ _ _ _ _ Hok) (no_len _ _ _ _ _ Hok)) as [E1 E2]. cbn [app]. rewrite E1, E2. cbn [res_bind va_int fst snd].
    rewrite put_number_ok by done. cbn [res_bind]. rewrite IH; [done|]. cbn [render1 app length] in Hf. rewrite !length_app in Hf. lia.
  - destruct fuel as [|fuel]; [cbn in Hf; lia|]. cbn [render1 app vsprintf_loop]. change (37 =? 37) with true. cbn [negb]. rewrite <- !app_assoc. cbn [app].
    destruct (parse_after w 115 (render is_) (AStr (Some s) :: args) Hw) as (g & -> & ->); [done|done|]. cbn [parse_args Z.eqb Pos.eqb orb va_str res_bind fst snd default from_option]. unfold id. rewrite IH by (cbn [render1 app length] in Hf; rewrite !length_app in Hf; lia). cbn [res_bind]. by rewrite app_assoc.
  - destruct fuel as [|fuel]; [cbn in Hf; lia|]. cbn [render1 app vsprintf_loop]. change (37 =? 37) with true. cbn [negb]. rewrite <- !app_assoc. cbn [app].
    destruct (parse_after w 99 (render is_) (AInt c :: args) Hw) as (g & -> & ->); [done|done|]. cbn [parse_args Z.eqb Pos.eqb orb va_int res_bind fst snd]. rewrite IH by (cbn [render1 app length] in Hf; rewrite !length_app in Hf; lia). cbn [res_bind].
    rewrite wrap_small by lia. by rewrite <- app_assoc.
Qed.

(** ** Reading a number back *)

Lemma extract_digit d : 0 <= d < 10 -> extract (letter false d) 10 = Some d.
Proof.
  intros Hd. destruct (letter_digit false d Hd) as [-> _]. unfold extract. rewrite (proj2 (Z.leb_le 48 _)), (proj2 (Z.leb_le _ 57)) by lia. cbn [andb].
  rewrite (proj2 (Z.ltb_lt _ 10)) by lia. f_equal. lia.
Qed.

(** The loop over digits whose number is within the limit; only the last one may leave the range
    of the type. *)
Lemma digits_loop_ok MAXV MINV c l sign ds : 0 <= c < 2 ^ 63 -> 0 <= l < 10 -> Forall (fun d => 0 <= d < 10) ds -> forall ret fin, 0 <= ret -> ds <> [] -> dval 10 ret ds <= 10 * c + l ->
  digits_loop i64 MAXV MINV (map (letter false) ds) 10 c l sign ret fin = (i64 (dval 10 ret ds), sign, [], 0).
Proof.
  intros Hc Hl. induction 1 as [|d ds Hd Hds IH]; intros ret fin Hr Hne Hv; [done|]. cbn [map digits_loop]. rewrite extract_digit by done.
  pose proof (dval_ge 10 ds ltac:(lia) Hds (ret * 10 + d) ltac:(lia)) as Hge. change (dval 10 ret (d :: ds)) with (dval 10 (ret * 10 + d) ds) in *.
  assert (((c <? ret) || ((ret =? c) && (l <? d))) = false) as -> by lia.
  destruct ds as [|e ds]; [done|]. pose proof Hds as Hds'. apply Forall_cons in Hds' as [He Hds'].
  pose proof (dval_ge 10 ds ltac:(lia) Hds' ((ret * 10 + d) * 10 + e) ltac:(lia)) as Hge'. change (dval 10 (ret * 10 + d) (e :: ds)) with (dval 10 ((ret * 10 + d) * 10 + e) ds) in Hv.
  rewrite signed_small by (change (2 ^ (64 - 1)) with (2 ^ 63); lia). apply IH; [lia|done|exact Hv].
Qed.

Lemma dval_zeros n ds : dval 10 0 (replicate n 0 ++ ds) = dval 10 0 ds.
Proof. by induction n. Qed.

Lemma skip_spaces n p : skip_space (replicate n 32 ++ p) = skip_space p.
Proof. by induction n. Qed.

(** A sign and the digits behind it. *)
Lemma strtol_plus p (plus : bool) ds : skip_space p = (if plus then [43] else []) ++ map (letter false) ds -> Forall (fun d => 0 <= d < 10) ds -> ds <> [] -> dval 10 0 ds <= LONG_MAX ->
  strtol p 10 = (dval 10 0 ds, [], 0).
Proof.
  intros Hp Hds Hne Hd. pose proof (dval_ge 10 ds ltac:(lia) Hds 0 ltac:(lia)) as H0.
  assert (forall fin, digits_loop i64 LONG_MAX LONG_MIN (map (letter false) ds) 10 922337203685477580 7 1 0 fin = (i64 (dval 10 0 ds), 1, [], 0)) as Hl
    by (intros fin; apply digits_loop_ok; try done; change (10 * 922337203685477580 + 7) with LONG_MAX; done).
  rewrite signed_small in Hl by (unfold LONG_MAX in Hd; change (2 ^ (64 - 1)) with (2 ^ 63); lia).
  unfold strtol, strto. rewrite Hp. destruct plus; cbn [app Z.ltb Z.eqb Z.compare Pos.compare Pos.compare_cont Pos.eqb orb andb].
  - change (Z.quot LONG_MAX 10) with 922337203685477580. change (Z.rem LONG_MAX 10) with 7. rewrite Hl. f_equal. f_equal. rewrite Z.mul_1_l. apply signed_small; unfold LONG_MAX in Hd; change (2 ^ (64 - 1)) with (2 ^ 63); lia.
  - destruct ds as [|d ds]; [done|]. pose proof Hds as Hd10. apply Forall_cons in Hd10 as [Hd10 _]. cbn [map] in *. destruct (letter_digit false d Hd10) as [El _]. rewrite El in *.
    rewrite !(proj2 (Z.eqb_neq (48 + d) _)) by lia. cbn [Z.ltb Z.compare andb].
    change (Z.quot LONG_MAX 10) with 922337203685477580. change (Z.rem LONG_MAX 10) with 7. rewrite Hl. f_equal. f_equal. rewrite Z.mul_1_l. apply signed_small; unfold LONG_MAX in Hd; change (2 ^ (64 - 1)) with (2 ^ 63); lia.
Qed.

Lemma strtol_minus p ds : skip_space p = 45 :: map (letter false) ds -> Forall (fun d => 0 <= d < 10) ds -> ds <> [] -> dval 10 0 ds <= 2 ^ 63 ->
  strtol p 10 = (- dval 10 0 ds, [], 0).
Proof.
  intros Hp Hds Hne Hd. pose proof (dval_ge 10 ds ltac:(lia) Hds 0 ltac:(lia)) as H0. set (n := dval 10 0 ds) in *.
  assert (forall fin, digits_loop i64 LONG_MAX LONG_MIN (map (letter false) ds) 10 922337203685477580 8 (-1) 0 fin = (i64 n, -1, [], 0)) as Hl
    by (intros fin; apply digits_loop_ok; try done; change (10 * 922337203685477580 + 8) with (2 ^ 63); done).
  unfold strtol, strto. rewrite Hp. cbn [Z.ltb Z.eqb Z.compare Pos.compare Pos.compare_cont Pos.eqb orb andb]. change (i64 (-1)) with (-1). cbn [Z.ltb Z.compare andb negb].
  change (i64 (- Z.quot LONG_MIN 10)) with 922337203685477580. change (i64 (- Z.rem LONG_MIN 10)) with 8. rewrite Hl. f_equal. f_equal.
  destruct (Z.eq_dec n (2 ^ 63)) as [->|]; [reflexivity|]. rewrite !signed_small; change (2 ^ (64 - 1)) with (2 ^ 63); try lia.
  rewrite signed_small; change (2 ^ (64 - 1)) with (2 ^ 63); lia.
Qed.

(** The digits of a printed number, with the zeros that fill it. *)
Lemma filled_digits n v : - 2 ^ 63 <= v < 2 ^ 63 -> exists ds, replicate n 48 ++ std_digits Dec v = map (letter false) ds /\ Forall (fun d => 0 <= d < 10) ds /\ ds <> [] /\ dval 10 0 ds = Z.abs v.
Proof.
  intros Hv. destruct (numeral_digits 10 false 64 ltac:(lia) (Z.abs v)) as (ds & E & Hds & Hd & Hne & _); [change (Z.of_nat 64) with 64; lia|lia|].
  exists (replicate n 0 ++ ds). unfold std_digits, numeral. cbn [kind_radix kind_upper]. rewrite E, map_app. split_and!.
  - f_equal. by induction n as [|n IH]; cbn; [|rewrite <- IH].
  - apply Forall_app. split; [|done]. apply Forall_replicate. lia.
  - by destruct n, ds.
  - by rewrite dval_zeros.
Qed.

Lemma skip_digits ds : Forall (fun d => 0 <= d < 10) ds -> skip_space (map (letter false) ds) = map (letter false) ds.
Proof.
  intros Hds. destruct ds as [|d ds]; [done|]. apply Forall_cons in Hds as [Hd10 _]. cbn [map skip_space]. destruct (letter_digit false d Hd10) as [-> _].
  unfold isspace. by rewrite !(proj2 (Z.eqb_neq (48 + d) _)) by lia.
Qed.

Lemma strtol_number f w v : num_ok f w 1 Dec v -> strtol (std_number f w Dec v) 10 = (v, [], 0).
Proof.
  intros [Ht _ _ _ _ _]. cbn in Ht. unfold std_number. set (fill := Z.to_nat _). set (n := if ZERO f then fill else 0%nat). set (m := if ZERO f then 0%nat else fill).
  assert ((if ZERO f then std_front f Dec v ++ replicate fill 48 ++ std_digits Dec v else replicate fill 32 ++ std_front f Dec v ++ std_digits Dec v) =
    replicate m 32 ++ sgn f Dec v ++ replicate n 48 ++ std_digits Dec v) as ->.
  { unfold m, n, std_front. fold (sgn f Dec v). destruct (SPECIAL f && _), (ZERO f); cbn [replicate app]; by rewrite ?app_nil_r. }
  destruct (filled_digits n v Ht) as (ds & -> & Hds & Hne & Hd). destruct (Z.ltb_spec v 0) as [Hneg|Hpos].
  - replace v with (- dval 10 0 ds) at 2 by lia. apply strtol_minus; try done; [|lia]. rewrite skip_spaces. unfold sgn. by rewrite (proj2 (Z.ltb_lt v 0)).
  - replace v with (dval 10 0 ds) at 2 by lia. apply (strtol_plus _ (SIGN f)); try done; [|unfold LONG_MAX; lia]. rewrite skip_spaces. unfold sgn. rewrite (proj2 (Z.ltb_ge v 0)) by lia. cbn [kind_sign andb].
    pose proof (skip_digits ds Hds) as Hsk.
    destruct (SIGN f); [done|]. destruct (SPACE f); cbn [app]; [|done]. by cbn [skip_space isspace Z.eqb Pos.eqb orb].
Qed.

(** ** How long a number gets *)

Lemma magnitude_range len sign a : 0 <= fst (magnitude len sign a) < 2 ^ 64.
Proof.
  assert (forall x, 0 <= wrap 64 x < 2 ^ 64) as H by (intros x; apply wrap_range; lia). pose proof (wrap_range 32 a ltac:(lia)). change (2 ^ 32) with 4294967296 in *.
  unfold magnitude. destruct (len =? 0); destruct (sign && _); cbn [fst]; try apply H. lia.
Qed.

(** A column that is not used was the last one. *)
Lemma prefix_cols f radix sign minus siz c siz' : - 2 ^ 31 + 3 <= siz < 2 ^ 31 -> prefix_of f radix sign minus siz = (c, siz') ->
  let n := if c =? 0 then 0 else 1 in siz' <= siz - n /\ siz - 3 <= siz' /\ (siz' = siz - n \/ siz = 0) /\ (radix <> 10 -> c = 0).
Proof.
  intros Hsz. unfold prefix_of, take_col. assert (i32 (siz - 1) = siz - 1) as Hi by (apply i32_small; lia). destruct (Z.eqb_spec radix 10) as [->|Hr]; [|intros [= <- <-]; cbn; lia].
  destruct (Z.eq_dec siz 0) as [->|Hz]; destruct minus, (sign && SIGN f), (SPACE f); intros E.
  1-8: vm_compute in E; injection E as <- <-; cbn [Z.eqb]; lia.
  all: rewrite ?(proj2 (Z.eqb_neq siz 0) Hz), ?Hi in E; cbn [negb] in E; injection E as <- <-; cbn [Z.eqb]; lia.
Qed.

Lemma front_length f radix c upper : radix = 8 \/ radix = 10 \/ radix = 16 -> Z.of_nat (length (front f radix c upper)) =
  (if c =? 0 then 0 else 1) + (if SPECIAL f then (if radix =? 16 then 2 else if radix =? 8 then 1 else 0) else 0).
Proof. unfold front. intros [->|[->| ->]]; destruct (c =? 0), (SPECIAL f); reflexivity. Qed.

(** C30: Whatever the flags, the length and the argument of a number are, and with any width
    that is not close to the least [int], [vsprintf]
    puts a text: its 64-byte buffer of digits is never left, the text takes the columns of the
    width when it is not left aligned, and it never takes more than the larger of the width and
    23 columns. *)
Theorem put_number_bounded f radix len width sign upper a : - 2 ^ 30 <= width < 2 ^ 31 -> radix = 8 \/ radix = 10 \/ radix = 16 ->
  exists text, put_number f radix len width sign upper a = Ok text /\
    (LEFT f = false -> width <= Z.of_nat (length text)) /\ Z.of_nat (length text) <= Z.max width 23.
Proof.
  intros Hw Hr. unfold put_number. destruct (magnitude len sign a) as [val minus] eqn:Em. pose proof (magnitude_range len sign a) as Hv. rewrite Em in Hv. cbn [fst] in Hv.
  rewrite number_ok by lia. cbn [res_bind]. destruct (digits_short radix upper val ltac:(lia) Hv) as [H22 H20]. set (ds := numeral radix upper val) in *.
  rewrite i32_small by lia. destruct (prefix_of _ _ _ _ _) as [c siz] eqn:Ep. apply prefix_cols in Ep as (Hs & Hlow & Hex & Hc); [|lia]. eexists. split; [done|]. pose proof (front_length f radix c upper Hr) as Hf. set (fr := front f radix c upper) in *.
  rewrite !length_app. set (n := if c =? 0 then 0 else 1) in *. set (sp := if radix =? 16 then 2 else if radix =? 8 then 1 else 0) in *.
  assert (0 <= sp <= 2 /\ 0 <= n <= 1) as [? ?] by (unfold sp, n; destruct (radix =? 16), (radix =? 8), (c =? 0); lia).
  assert ((if SPECIAL f then i32 (siz - sp) else siz) = siz - (if SPECIAL f then sp else 0)) as -> by (rewrite i32_small by lia; destruct (SPECIAL f); lia). set (s := if SPECIAL f then sp else 0) in *. assert (0 <= s <= sp) by (unfold s; destruct (SPECIAL f); lia).
  assert (length (if ZERO f then fr else []) + length (if ZERO f then [] else fr) = length fr)%nat by (destruct (ZERO f); cbn; lia).
  assert (Z.of_nat (length ds) + n + sp <= 23). { destruct Hr as [->|[->| ->]]; unfold sp; cbn [Z.eqb Pos.eqb]; [|lia|lia]. specialize (Hc ltac:(lia)). unfold n. rewrite Hc. cbn [Z.eqb]. lia. }
  destruct (LEFT f); cbn [negb andb length]; [split; [done|lia]|]. destruct (Z.ltb_spec 0 (siz - s)); [rewrite length_replicate|cbn [length]]; lia.
Qed.

Lemma put_number_bounded_witness : put_number (Flags false false false true false) 8 2 0 false false (2 ^ 64 - 1) = Ok (48 :: 49 :: replicate 21 55) /\
  exists text, put_number (Flags false false false true false) 8 2 0 false false (2 ^ 64 - 1) = Ok text /\
    (LEFT (Flags false false false true false) = false -> 0 <= Z.of_nat (length text)) /\ Z.of_nat (length text) <= Z.max 0 23.
Proof. split; [vm_compute; reflexivity|]. apply (put_number_bounded (Flags false false false true false) 8 2 0 false false (2 ^ 64 - 1)); [lia|]. left. reflexivity. Defined.

(** C16: [vsprintf] formats as the C standard says: a format made of characters, percent signs,
    numbers in the bases 8, 10 and 16 with flags, width and length, strings and characters with a
    width gives, with arguments of the types it names, the text of each part in turn.  Excepted
    are left alignment, the least [int], a space flag for an unsigned number, a prefix ([#]) for
    a zero, where the code prints 0x0 and 00, and a number with a sign whose width is its count of digits. *)
Theorem vsprintf_formats items args text : prints items args text -> vsprintf (render items) args = Ok text.
Proof. intros Hp. by apply vsprintf_loop_ok. Qed.

(** "a=%+05d %s%%" *)
Lemma vsprintf_formats_witness : vsprintf [97; 61; 37; 43; 48; 53; 100; 32; 37; 115; 37; 37] [AInt 42; AStr (Some [111; 107])] = Ok [97; 61; 43; 48; 48; 52; 50; 32; 111; 107; 37].
Proof.
  apply (vsprintf_formats [ILit 97; ILit 61; INum (Flags false true true false false) 5 0 Dec; ILit 32; IStr 0; IPct] [AInt 42; AStr (Some [111; 107])] [97; 61; 43; 48; 48; 52; 50; 32; 111; 107; 37]).
  constructor; [done|]. constructor; [done|].
  apply (pr_num (Flags false true true false false) 5 0 Dec 42 _ _ [32; 111; 107; 37]).
  - split; try reflexivity; [unfold in_type; cbn; lia|unfold width_ok; lia|lia|discriminate|intros _; vm_compute; discriminate].
  - constructor; [done|]. apply (pr_str 0 [111; 107] _ _ [37]); [unfold width_ok; lia|by rewrite !elem_of_cons, elem_of_nil; lia|]. constructor. constructor.
Defined.

(** C17: The two directions of the conversion agree: the text [vsprintf] makes of a [long], with
    any of the flags and widths above, is read back by [strtol] as the same number, to the end of
    the text and without an error, the least [long] included. *)
Theorem printed_number_roundtrip f w v : num_ok f w 1 Dec v ->
  exists text, vsprintf (render [INum f w 1 Dec]) [AInt v] = Ok text /\ strtol text 10 = (v, [], 0).
Proof.
  intros Hok. exists (std_number f w Dec v). split; [|by apply strtol_number]. rewrite <- (app_nil_r (std_number f w Dec v)). apply vsprintf_loop_ok; [|done]. constructor; [done|constructor].
Qed.

Lemma printed_number_roundtrip_witness : vsprintf (render [INum (Flags false true true false false) 25 1 Dec]) [AInt (- 2 ^ 63)] = Ok (45 :: 48 :: 48 :: 48 :: 48 :: 48 :: [57;50;50;51;51;55;50;48;51;54;56;53;52;55;55;53;56;48;56]) /\
  exists text, vsprintf (render [INum (Flags false true true false false) 25 1 Dec]) [AInt (- 2 ^ 63)] = Ok text /\ strtol text 10 = (- 2 ^ 63, [], 0).
Proof.
  split; [vm_compute; reflexivity|]. apply (printed_number_roundtrip (Flags false true true false false) 25 (- 2 ^ 63)). split; try reflexivity; [unfold in_type; cbn; lia|unfold width_ok; lia|lia|discriminate|intros _; vm_compute; discriminate].
Defined.

(** A negative number whose digits just fill its width loses its sign, whatever the number,
    its length and the flags are: the text has the plus sign or the space of the flags in front
    of the digits, or nothing, and [strtol] reads the positive number back. *)
Theorem vsprintf_loses_sign f len v : in_type len Dec v -> 0 <= len <= 2 -> - 2 ^ 63 < v < 0 ->
  exists text, vsprintf (render [INum f (Z.of_nat (length (std_digits Dec v))) len Dec]) [AInt v] = Ok text /\
    text = (if SIGN f then [43] else if SPACE f then [32] else []) ++ std_digits Dec v /\
    strtol text 10 = (- v, [], 0).
Proof.
  intros Ht Hl Hv. set (w := Z.of_nat (length (std_digits Dec v))). pose proof (std_digits_short len Dec v Ht) as Hs.
  eexists. split; [|split; [reflexivity|]].
  - unfold vsprintf. destruct (parse_num f w len Dec [] [AInt v]) as [E1 E2]; [unfold width_ok, w; lia|done|].
    rewrite render_cons. change (render []) with ([] : list Z). rewrite app_nil_r. cbn [render1 length vsprintf_loop].
    change (37 =? 37) with true. cbn [negb]. rewrite E1, E2. cbn [res_bind va_int fst snd kind_radix kind_sign kind_upper].
    unfold put_number. destruct (magnitude_ok len Dec v Ht Hl) as [Em Hm]. cbn [kind_sign] in Em. rewrite Em, number_ok by lia. cbn [res_bind].
    fold (std_digits Dec v). change (Z.of_nat (length (numeral 10 false (Z.abs v)))) with w. rewrite Z.sub_diag, (proj2 (Z.ltb_lt v 0)) by lia.
    unfold front, std_digits. cbn [kind_radix kind_upper].
    assert (forall n a, vsprintf_loop n [] a = Ok []) as -> by by intros [].
    cbn [res_bind]. set (ds := numeral 10 false (Z.abs v)). clearbody ds. clear E1 E2. destruct f as [[] [] [] [] []]; cbn;
      change (i32 0) with 0; change (i32 (0 - 1)) with (-1); change (i32 (-1 - 1)) with (-2); change (i32 (-2 - 1)) with (-3); cbn; by rewrite ?app_nil_r.
  - destruct (filled_digits 0 v ltac:(lia)) as (ds & E & Hds & Hne & Hd). cbn [replicate app] in E. rewrite E.
    replace (- v) with (dval 10 0 ds) by lia. apply (strtol_plus _ (SIGN f)); try done; [|unfold LONG_MAX; lia].
    pose proof (skip_digits ds Hds) as Hsk. destruct (SIGN f); [done|]. destruct (SPACE f); [|done]. by cbn [app skip_space isspace Z.eqb Pos.eqb orb].
Qed.

(** "%+3d" of -123 *)
Lemma vsprintf_loses_sign_witness : vsprintf [37; 43; 51; 100] [AInt (-123)] = Ok [43; 49; 50; 51] /\ strtol [43; 49; 50; 51] 10 = (123, [], 0).
Proof.
  destruct (vsprintf_loses_sign (Flags false true false false false) 0 (-123)) as (text & E & -> & H).
  - split; reflexivity.
  - lia.
  - lia.
  - split; [exact E|exact H].
Defined.

(** [strtol] slips at the ends: "0" in base 0 is read as 0 with the end pointer left at the
    start, as if there was no number; out of range it is left at the digit that went over; base 16 stops at
    the x of "0x1f"; and a sign of [strtoul], whose type has no
    negative numbers, never gives the error the code has for it. *)
Theorem strtol_slips :
  strtol [48] 0 = (0, [48], 0) /\
  strtol (replicate 20 57) 10 = (LONG_MAX, [57; 57], ERANGE) /\
  strtol [48; 120; 49; 102] 16 = (0, [120; 49; 102], 0) /\
  strtoul [45; 49] 10 = (ULONG_MAX, [], 0).
Proof. split_and!; vm_compute; reflexivity. Qed.
