(* ===== verification/Sha256.v ===== *)
(** * sha256sum

    The program [app/sha256sum.c]: the context, the compression of a block, the buffering of
    the input and the padding, proved against the definition of the hash in FIPS 180-4. *)
From Stdlib Require Import ZArith Lia List Bool.
From stdpp Require Import base list.
From S2P Require Import Prelude Bytes.

#[local] Open Scope Z_scope.

(** ** The program *)

(** The [n] words of 32 bits of a number, the highest first. *)
Fixpoint words_of (n : nat) (x : Z) : list Z :=
  match n with
  | O => []
  | S n => words_of n (x / 2 ^ 32) ++ [x mod 2 ^ 32]
  end.

(** The table of round constants, a line of the source in each number. *)
Definition K : list Z := Eval cbv in concat (map (words_of 8) [
  0x428a2f9871374491b5c0fbcfe9b5dba53956c25b59f111f1923f82a4ab1c5ed5;
  0xd807aa9812835b01243185be550c7dc372be5d7480deb1fe9bdc06a7c19bf174;
  0xe49b69c1efbe47860fc19dc6240ca1cc2de92c6f4a7484aa5cb0a9dc76f988da;
  0x983e5152a831c66db00327c8bf597fc7c6e00bf3d5a7914706ca635114292967;
  0x27b70a852e1b21384d2c6dfc53380d13650a7354766a0abb81c2c92e92722c85;
  0xa2bfe8a1a81a664bc24b8b70c76c51a3d192e819d6990624f40e3585106aa070;
  0x19a4c1161e376c082748774c34b0bcb5391c0cb34ed8aa4a5b9cca4f682e6ff3;
  0x748f82ee78a5636f84c878148cc7020890befffaa4506cebbef9a3f7c67178f2
]).

Record sha256_ctx := Sha256_ctx { state : list Z; buf : list Z; buflen : Z; bitlen : Z }.

#[export] Instance eta_sha256_ctx : Eta sha256_ctx := fun c => Sha256_ctx (state c) (buf c) (buflen c) (bitlen c).

Definition rotr (x n : Z) : Z := Z.lor (Z.shiftr x n) (u32 (Z.shiftl x (32 - n))).
Definition Ch (x y z : Z) : Z := Z.lxor (Z.land x y) (Z.land (u32 (Z.lnot x)) z).
Definition Maj (x y z : Z) : Z := Z.lxor (Z.lxor (Z.land x y) (Z.land x z)) (Z.land y z).
Definition Sigma0 (x : Z) : Z := Z.lxor (Z.lxor (rotr x 2) (rotr x 13)) (rotr x 22).
Definition Sigma1 (x : Z) : Z := Z.lxor (Z.lxor (rotr x 6) (rotr x 11)) (rotr x 25).
Definition sigma0 (x : Z) : Z := Z.lxor (Z.lxor (rotr x 7) (rotr x 18)) (Z.shiftr x 3).
Definition sigma1 (x : Z) : Z := Z.lxor (Z.lxor (rotr x 17) (rotr x 19)) (Z.shiftr x 10).

(** What the buffer of a new context holds is not set. *)
Definition sha256_init (junk : list Z) : sha256_ctx :=
  Sha256_ctx [0x6a09e667; 0xbb67ae85; 0x3c6ef372; 0xa54ff53a; 0x510e527f; 0x9b05688c; 0x1f83d9ab; 0x5be0cd19] junk 0 0.

(** The first loop of [sha256_transform]: [m] is the words written so far. *)
Fixpoint load_words (k : nat) (i j : Z) (data m : list Z) : res (list Z) :=
  match k with
  | O => Ok m
  | S k =>
      let! b0 := aget data j in
      let! b1 := aget data (j + 1) in
      let! b2 := aget data (j + 2) in
      let! b3 := aget data (j + 3) in
      load_words k (i + 1) (j + 4) data
        (m ++ [Z.lor (Z.lor (Z.lor (u32 (Z.shiftl b0 24)) (Z.shiftl b1 16)) (Z.shiftl b2 8)) b3])
  end.

(** The second one. *)
Fixpoint extend_words (k : nat) (i : Z) (m : list Z) : res (list Z) :=
  match k with
  | O => Ok m
  | S k =>
      let! m2 := aget m (i - 2) in
      let! m7 := aget m (i - 7) in
      let! m15 := aget m (i - 15) in
      let! m16 := aget m (i - 16) in
      extend_words k (i + 1) (m ++ [u32 (sigma1 m2 + m7 + sigma0 m15 + m16)])
  end.

(** The variables [a] to [h]. *)
Record vars := Vars { va : Z; vb : Z; vc : Z; vd : Z; ve : Z; vf : Z; vg : Z; vh : Z }.

Definition round (v : vars) (ki mi : Z) : vars :=
  let t1 := u32 (vh v + Sigma1 (ve v) + Ch (ve v) (vf v) (vg v) + ki + mi) in
  let t2 := u32 (Sigma0 (va v) + Maj (va v) (vb v) (vc v)) in
  Vars (u32 (t1 + t2)) (va v) (vb v) (vc v) (u32 (vd v + t1)) (ve v) (vf v) (vg v).

Fixpoint rounds (k : nat) (i : Z) (m : list Z) (v : vars) : res vars :=
  match k with
  | O => Ok v
  | S k => let! ki := aget K i in let! mi := aget m i in rounds k (i + 1) m (round v ki mi)
  end.

Definition sha256_transform (ctx : sha256_ctx) (data : list Z) : res sha256_ctx :=
  let! m := load_words 16 0 0 data [] in
  let! m := extend_words 48 16 m in
  match state ctx with
  | [s0; s1; s2; s3; s4; s5; s6; s7] =>
      let! v := rounds 64 0 m (Vars s0 s1 s2 s3 s4 s5 s6 s7) in
      Ok (ctx <| state := [u32 (s0 + va v); u32 (s1 + vb v); u32 (s2 + vc v); u32 (s3 + vd v);
                           u32 (s4 + ve v); u32 (s5 + vf v); u32 (s6 + vg v); u32 (s7 + vh v)] |>)
  | _ => Fault OutOfBounds
  end.

Fixpoint sha256_update (ctx : sha256_ctx) (data : list Z) : res sha256_ctx :=
  match data with
  | [] => Ok ctx
  | b :: data =>
      let! bf := aset (buf ctx) (buflen ctx) b in
      let ctx := ctx <| buf := bf |> <| buflen := u32 (buflen ctx + 1) |> in
      if buflen ctx =? 64 then
        let! ctx := sha256_transform ctx (buf ctx) in
        sha256_update (ctx <| bitlen := u64 (bitlen ctx + 512) |> <| buflen := 0 |>) data
      else sha256_update ctx data
  end.

(** [while (i < i + k) buf[i++] = 0] *)
Fixpoint zeros (k : nat) (b : list Z) (i : Z) : res (list Z) :=
  match k with
  | O => Ok b
  | S k => let! b := aset b i 0 in zeros k b (i + 1)
  end.

(** The eight stores of the length, from [buf[63]] down. *)
Fixpoint put_len (k : nat) (b : list Z) (i len : Z) : res (list Z) :=
  match k with
  | O => Ok b
  | S k => let! b := aset b i (u8 len) in put_len k b (i - 1) (Z.shiftr len 8)
  end.

(** The last loop: the bytes of a word, the highest first. *)
Definition word_bytes (w : Z) : list Z :=
  [Z.land (Z.shiftr w 24) 255; Z.land (Z.shiftr w 16) 255; Z.land (Z.shiftr w 8) 255; Z.land w 255].

(** The first part of [sha256_final]: a one bit and zeros, up to the place of the length. *)
Definition pad_zeros (ctx : sha256_ctx) : res sha256_ctx :=
  let i := buflen ctx in
  if i <? 56 then
    let! b := aset (buf ctx) i 0x80 in
    let! b := zeros (Z.to_nat (56 - (i + 1))) b (i + 1) in
    Ok (ctx <| buf := b |>)
  else
    let! b := aset (buf ctx) i 0x80 in
    let! b := zeros (Z.to_nat (64 - (i + 1))) b (i + 1) in
    let! ctx := sha256_transform (ctx <| buf := b |>) b in
    let! b := zeros 56 (buf ctx) 0 in
    Ok (ctx <| buf := b |>).

Definition sha256_final (ctx : sha256_ctx) : res (list Z) :=
  let! ctx := pad_zeros ctx in
  let ctx := ctx <| bitlen := u64 (bitlen ctx + u32 (buflen ctx * 8)) |> in
  let! b := put_len 8 (buf ctx) 63 (bitlen ctx) in
  let! ctx := sha256_transform (ctx <| buf := b |>) b in
  Ok (concat (map word_bytes (state ctx))).

(** The loop of [sha256_file]: what the calls of [read] return, up to the one that returns
    nothing. *)
Fixpoint update_all (reads : list (list Z)) (ctx : sha256_ctx) : res sha256_ctx :=
  match reads with
  | [] => Ok ctx
  | b :: reads =>
      match b with
      | [] => Ok ctx
      | _ => let! ctx := sha256_update ctx b in update_all reads ctx
      end
  end.

Definition sha256_file (junk : list Z) (reads : list (list Z)) : res (list Z) :=
  let! ctx := update_all reads (sha256_init junk) in
  sha256_final ctx.

(** ** The standard

    FIPS 180-4, sections 4.1.2, 4.2.2, 5.1.1, 5.3.3 and 6.2.2, on numbers below 2^32. *)

Definition add32 (x y : Z) : Z := (x + y) mod 2 ^ 32.
Definition ROTR (n x : Z) : Z := (x / 2 ^ n + x * 2 ^ (32 - n)) mod 2 ^ 32.
Definition SHR (n x : Z) : Z := x / 2 ^ n.
Definition fCh (x y z : Z) : Z := Z.lxor (Z.land x y) (Z.land (2 ^ 32 - 1 - x) z).
Definition fS0 (x : Z) : Z := Z.lxor (Z.lxor (ROTR 2 x) (ROTR 13 x)) (ROTR 22 x).
Definition fS1 (x : Z) : Z := Z.lxor (Z.lxor (ROTR 6 x) (ROTR 11 x)) (ROTR 25 x).
Definition fs0 (x : Z) : Z := Z.lxor (Z.lxor (ROTR 7 x) (ROTR 18 x)) (SHR 3 x).
Definition fs1 (x : Z) : Z := Z.lxor (Z.lxor (ROTR 17 x) (ROTR 19 x)) (SHR 10 x).

(** The bits two of three words have. *)
Definition fMaj (x y z : Z) : Z := Z.lor (Z.land x y) (Z.land z (Z.lor x y)).

(** The first 64 primes, up to 311. *)
Definition prime_b (n : Z) : bool := forallb (fun d => negb (n mod d =? 0)) (seqZ 2 (n - 2)).

Definition primes64 : list Z := List.filter prime_b (seqZ 2 310).

(** The largest [r] below [2 ^ n] with [r ^ 3 <= x], bit by bit. *)
Fixpoint cbrt (n : nat) (x r : Z) : Z :=
  match n with
  | O => r
  | S n => let r' := r + 2 ^ Z.of_nat n in cbrt n x (if r' ^ 3 <=? x then r' else r)
  end.

(** The constants: the first 32 bits of the fractional parts of the cube roots of the first 64
    primes, and of the square roots of the first eight of them. *)
Definition fK : list Z := map (fun p => cbrt 36 (p * 2 ^ 96) 0 mod 2 ^ 32) primes64.

Definition H0 : list Z := map (fun p => Z.sqrt (p * 2 ^ 64) mod 2 ^ 32) (take 8 primes64).

(** The 64 words of the schedule of a block. *)
Definition schedule (blk W : list Z) : Prop :=
  length W = 64%nat /\
  (forall t, (t < 16)%nat -> nth t W 0 = 2 ^ 24 * nth (4 * t) blk 0 + 2 ^ 16 * nth (4 * t + 1) blk 0 + 2 ^ 8 * nth (4 * t + 2) blk 0 + nth (4 * t + 3) blk 0) /\
  (forall t, (16 <= t < 64)%nat -> nth t W 0 = (fs1 (nth (t - 2) W 0) + nth (t - 7) W 0 + fs0 (nth (t - 15) W 0) + nth (t - 16) W 0) mod 2 ^ 32).

(** One step on [a ... h]. *)
Definition step (v : list Z) (kw : Z * Z) : list Z :=
  match v with
  | [a; b; c; d; e; f; g; h] =>
      let T1 := (h + fS1 e + fCh e f g + fst kw + snd kw) mod 2 ^ 32 in
      let T2 := (fS0 a + fMaj a b c) mod 2 ^ 32 in
      [add32 T1 T2; a; b; c; add32 d T1; e; f; g]
  | _ => v
  end.

(** The hash value after the blocks of a padded message. *)
Inductive hashes : list Z -> list Z -> list Z -> Prop :=
| hashes_nil H : hashes H [] H
| hashes_block H blk W rest H' :
    length blk = 64%nat -> schedule blk W -> hashes (zip_with add32 H (foldl step H (zip fK W))) rest H' -> hashes H (blk ++ rest) H'.

(** The [n] low bytes of a number, the highest first. *)
Fixpoint be (n : nat) (x : Z) : list Z :=
  match n with
  | O => []
  | S n => be n (x / 256) ++ [x mod 256]
  end.

(** A message behind which the number [len] is written. *)
Definition pad_to (msg : list Z) (len : Z) : list Z :=
  msg ++ 0x80 :: replicate (Z.to_nat ((55 - Z.of_nat (length msg)) mod 64)) 0 ++ be 8 len.

Definition pad (msg : list Z) : list Z := pad_to msg (8 * Z.of_nat (length msg)).

(** [digest] is the hash of [msg]. *)
Definition is_sha256 (msg digest : list Z) : Prop :=
  exists H, hashes H0 (pad msg) H /\ digest = concat (map (be 4) H).

(** ** The words *)

Definition word (x : Z) : Prop := 0 <= x < 2 ^ 32.

(** [cbrt] is the cube root rounded down. *)
Lemma cbrt_spec n x : forall r, 0 <= r -> r ^ 3 <= x < (r + 2 ^ Z.of_nat n) ^ 3 -> cbrt n x r ^ 3 <= x < (cbrt n x r + 1) ^ 3.
Proof.
  induction n as [|n IH]; intros r Hr Hx; cbn [cbrt]; [done|]. rewrite Nat2Z.inj_succ, Z.pow_succ_r in Hx by lia.
  pose proof (Z.pow_pos_nonneg 2 (Z.of_nat n) ltac:(lia) ltac:(lia)) as Hp.
  destruct (Z.leb_spec ((r + 2 ^ Z.of_nat n) ^ 3) x) as [Hle|Hgt]; apply IH; lia.
Qed.

(** The tables of the program are those of the standard. *)
Lemma K_standard : fK = K.
Proof. vm_compute. reflexivity. Qed.

Lemma H0_standard : H0 = [0x6a09e667; 0xbb67ae85; 0x3c6ef372; 0xa54ff53a; 0x510e527f; 0x9b05688c; 0x1f83d9ab; 0x5be0cd19].
Proof. vm_compute. reflexivity. Qed.

Lemma Maj_fMaj x y z : Maj x y z = fMaj x y z.
Proof.
  unfold Maj, fMaj. apply Z.bits_inj'. intros i _. rewrite !Z.lxor_spec, Z.lor_spec, !Z.land_spec, Z.lor_spec.
  by destruct (Z.testbit x i), (Z.testbit y i), (Z.testbit z i).
Qed.

Lemma u32_word x : word (u32 x).
Proof. by apply wrap_range. Qed.

Lemma word_bits x : word x <-> 0 <= x /\ forall i, 32 <= i -> Z.testbit x i = false.
Proof.
  unfold word. split.
  - intros Hx. split; [lia|]. intros i Hi. apply Z.bits_above_log2; [lia|]. destruct (Z.eq_dec x 0) as [->|]; [cbn; lia|]. apply Z.log2_lt_pow2; [lia|].
    apply Z.lt_le_trans with (2 ^ 32); [lia|]. apply Z.pow_le_mono_r; lia.
  - intros [H0 Hb]. split; [done|]. destruct (Z.lt_ge_cases x (2 ^ 32)) as [|Hge]; [done|]. exfalso. assert (32 <= Z.log2 x) as Hl by (apply Z.log2_le_pow2; lia).
    specialize (Hb _ Hl). rewrite Z.bit_log2 in Hb by lia. done.
Qed.

Lemma word_lxor x y : word x -> word y -> word (Z.lxor x y).
Proof.
  rewrite !word_bits. intros [Hx Bx] [Hy By]. split; [by apply Z.lxor_nonneg|]. intros i Hi. rewrite Z.lxor_spec, Bx, By by done. done.
Qed.

Lemma word_land x y : word x -> 0 <= y -> word (Z.land x y).
Proof.
  rewrite !word_bits. intros [Hx Bx] Hy. split; [apply Z.land_nonneg; by left|]. intros i Hi. rewrite Z.land_spec, Bx by done. done.
Qed.

Lemma lor_high_low x y n : 0 <= n -> 0 <= x < 2 ^ n -> Z.lor (y * 2 ^ n) x = y * 2 ^ n + x.
Proof.
  intros Hn Hx. rewrite <- Z.lxor_lor, <- Z.add_nocarry_lxor; [done| |].
  all: apply Z.bits_inj'; intros i Hi; rewrite Z.land_spec, Z.bits_0; destruct (Z.lt_ge_cases i n);
    [rewrite Z.mul_pow2_bits_low by done; done|]; apply andb_false_intro2; destruct (Z.eq_dec x 0) as [->|]; [by rewrite Z.bits_0|];
    apply Z.bits_above_log2; [lia|]; apply Z.lt_le_trans with n; [apply Z.log2_lt_pow2; lia|lia].
Qed.

Lemma rotr_ROTR x n : word x -> 0 < n < 32 -> rotr x n = ROTR n x.
Proof.
  intros Hx Hn. unfold rotr, ROTR. rewrite Z.shiftr_div_pow2, Z.shiftl_mul_pow2 by lia. unfold wrap.
  assert (2 ^ 32 = 2 ^ (32 - n) * 2 ^ n) as E by (rewrite <- Z.pow_add_r by lia; f_equal; lia).
  assert (0 < 2 ^ (32 - n)) by (apply Z.pow_pos_nonneg; lia). assert (0 < 2 ^ n) by (apply Z.pow_pos_nonneg; lia).
  assert (0 <= x / 2 ^ n < 2 ^ (32 - n)) as Hd.
  { split; [apply Z.div_pos; unfold word in Hx; lia|]. apply Z.div_lt_upper_bound; [lia|]. unfold word in Hx. nia. }
  assert ((x * 2 ^ (32 - n)) mod 2 ^ 32 = (x mod 2 ^ n) * 2 ^ (32 - n)) as Em by (rewrite E, (Z.mul_comm (2 ^ (32 - n))); apply Z.mul_mod_distr_r; lia).
  rewrite Em, Z.lor_comm, lor_high_low by lia. rewrite <- Zplus_mod_idemp_r, Em. rewrite (Z.mod_small (_ + _) (2 ^ 32)); [apply Z.add_comm|].
  pose proof (Z.mod_pos_bound x (2 ^ n) ltac:(lia)). nia.
Qed.

Lemma ROTR_word n x : word (ROTR n x).
Proof. apply Z.mod_pos_bound. lia. Qed.

Lemma SHR_word n x : 0 <= n -> word x -> word (SHR n x).
Proof. unfold word, SHR. intros Hn Hx. assert (0 < 2 ^ n) by (apply Z.pow_pos_nonneg; lia). split; [apply Z.div_pos; lia|]. apply Z.div_lt_upper_bound; nia. Qed.

Lemma sigmas x : word x -> Sigma0 x = fS0 x /\ Sigma1 x = fS1 x /\ sigma0 x = fs0 x /\ sigma1 x = fs1 x.
Proof.
  intros Hx. unfold Sigma0, Sigma1, sigma0, sigma1, fS0, fS1, fs0, fs1, SHR. rewrite !rotr_ROTR by (done || lia). by rewrite !Z.shiftr_div_pow2 by lia.
Qed.

Lemma Ch_fCh x y z : word x -> Ch x y z = fCh x y z.
Proof.
  intros Hx. unfold Ch, fCh. do 2 f_equal. unfold Z.lnot, wrap. rewrite <- (Z_mod_plus_full _ 1). rewrite Z.mod_small; unfold word in Hx; lia.
Qed.

Lemma load_word b0 b1 b2 b3 : is_byte b0 -> is_byte b1 -> is_byte b2 -> is_byte b3 ->
  Z.lor (Z.lor (Z.lor (u32 (Z.shiftl b0 24)) (Z.shiftl b1 16)) (Z.shiftl b2 8)) b3 = 2 ^ 24 * b0 + 2 ^ 16 * b1 + 2 ^ 8 * b2 + b3.
Proof.
  unfold is_byte. intros Hb0 Hb1 Hb2 Hb3. rewrite !Z.shiftl_mul_pow2 by lia. rewrite wrap_small by lia.
  rewrite lor_high_low by lia. replace (b0 * 2 ^ 24 + b1 * 2 ^ 16) with ((b0 * 2 ^ 8 + b1) * 2 ^ 16) by lia.
  rewrite lor_high_low by lia. replace ((b0 * 2 ^ 8 + b1) * 2 ^ 16 + b2 * 2 ^ 8) with (((b0 * 2 ^ 8 + b1) * 2 ^ 8 + b2) * 2 ^ 8) by lia. rewrite lor_high_low by lia. lia.
Qed.

(** ** A block *)

Definition block_word (blk : list Z) (t : nat) : Z :=
  2 ^ 24 * nth (4 * t) blk 0 + 2 ^ 16 * nth (4 * t + 1) blk 0 + 2 ^ 8 * nth (4 * t + 2) blk 0 + nth (4 * t + 3) blk 0.

Lemma block_word_ok blk t : bytes_ok blk -> word (block_word blk t).
Proof.
  intros Hb. unfold block_word, word. pose proof (bytes_nth blk (4 * t) Hb). pose proof (bytes_nth blk (4 * t + 1) Hb).
  pose proof (bytes_nth blk (4 * t + 2) Hb). pose proof (bytes_nth blk (4 * t + 3) Hb). unfold is_byte in *. lia.
Qed.

Lemma load_words_ok blk : length blk = 64%nat -> bytes_ok blk -> forall k i m, (i + k <= 16)%nat ->
  load_words k (Z.of_nat i) (Z.of_nat (4 * i)) blk m = Ok (m ++ map (block_word blk) (seq i k)).
Proof.
  intros Hl Hb. induction k as [|k IH]; intros i m Hk; cbn [load_words seq map]; [by rewrite app_nil_r|].
  rewrite !aget_nth by lia. cbn [res_bind].
  replace (Z.to_nat (Z.of_nat (4 * i))) with (4 * i)%nat by lia. replace (Z.to_nat (Z.of_nat (4 * i) + 1)) with (4 * i + 1)%nat by lia.
  replace (Z.to_nat (Z.of_nat (4 * i) + 2)) with (4 * i + 2)%nat by lia. replace (Z.to_nat (Z.of_nat (4 * i) + 3)) with (4 * i + 3)%nat by lia.
  rewrite load_word by (by apply bytes_nth). fold (block_word blk i).
  replace (Z.of_nat i + 1) with (Z.of_nat (S i)) by lia. replace (Z.of_nat (4 * i) + 4) with (Z.of_nat (4 * S i)) by lia.
  rewrite IH by lia. by rewrite <- app_assoc.
Qed.

Definition recur (W : list Z) (t : nat) : Z :=
  (fs1 (nth (t - 2) W 0) + nth (t - 7) W 0 + fs0 (nth (t - 15) W 0) + nth (t - 16) W 0) mod 2 ^ 32.

Lemma words_nth m t : Forall word m -> word (nth t m 0).
Proof.
  intros Hm. destruct (nth_in_or_default t m 0) as [Hin|E]; [|rewrite E; unfold word; lia]. rewrite List.Forall_forall in Hm. by apply Hm.
Qed.

Lemma recur_app m m' t : (16 <= t <= length m)%nat -> recur (m ++ m') t = recur m t.
Proof. intros Ht. unfold recur. by rewrite !app_nth1 by lia. Qed.

Lemma extend_words_ok k : forall m, (16 <= length m)%nat -> Forall word m ->
  exists m', extend_words k (Z.of_nat (length m)) m = Ok (m ++ m') /\ length m' = k /\ Forall word (m ++ m') /\
    forall t, (length m <= t < length m + k)%nat -> nth t (m ++ m') 0 = recur (m ++ m') t.
Proof.
  induction k as [|k IH]; intros m Hm Hw; cbn [extend_words].
  - exists []. rewrite app_nil_r. split_and!; try done. lia.
  - rewrite !aget_nth by lia. cbn [res_bind]. replace (Z.to_nat (Z.of_nat (length m) - 2)) with (length m - 2)%nat by lia.
    replace (Z.to_nat (Z.of_nat (length m) - 7)) with (length m - 7)%nat by lia. replace (Z.to_nat (Z.of_nat (length m) - 15)) with (length m - 15)%nat by lia.
    replace (Z.to_nat (Z.of_nat (length m) - 16)) with (length m - 16)%nat by lia.
    destruct (sigmas (nth (length m - 2) m 0) (words_nth _ _ Hw)) as (_ & _ & _ & ->). destruct (sigmas (nth (length m - 15) m 0) (words_nth _ _ Hw)) as (_ & _ & -> & _).
    unfold wrap at 1. fold (recur m (length m)).
    destruct (IH (m ++ [recur m (length m)])) as (m' & E & Hl & Hw' & Hr).
    { rewrite length_app. cbn. lia. }
    { apply Forall_app. split; [done|]. constructor; [by apply Z.mod_pos_bound|constructor]. }
    rewrite length_app in E, Hr. cbn [length] in E, Hr. replace (Z.of_nat (length m) + 1) with (Z.of_nat (length m + 1)) by lia. rewrite E.
    rewrite <- app_assoc in Hw', Hr |- *. cbn [app] in *. exists (recur m (length m) :: m'). split_and!; [done|cbn; lia|done|].
    intros t Ht. destruct (decide (t = length m)) as [->|Hne]; [|apply Hr; lia]. rewrite recur_app by lia. by rewrite nth_middle.
Qed.

Definition vlist (v : vars) : list Z := [va v; vb v; vc v; vd v; ve v; vf v; vg v; vh v].

Lemma round_step v k m : Forall word (vlist v) -> vlist (round v k m) = step (vlist v) (k, m) /\ Forall word (vlist (round v k m)).
Proof.
  intros Hv. destruct v as [a b c d e f g h]. unfold vlist, round in *. cbn [va vb vc vd ve vf vg vh] in *. rewrite !Forall_cons in Hv.
  destruct Hv as (Ha & Hb & Hc & Hd & He & Hf & Hg & Hh & _). split.
  - cbn [step fst snd]. destruct (sigmas e He) as (_ & -> & _). destruct (sigmas a Ha) as (-> & _). by rewrite Ch_fCh, Maj_fMaj by done.
  - rewrite !Forall_cons. split_and!; try done; by apply u32_word.
Qed.

Lemma rounds_ok W : length W = 64%nat -> forall k i v, (i + k = 64)%nat -> Forall word (vlist v) ->
  exists v', rounds k (Z.of_nat i) W v = Ok v' /\ vlist v' = foldl step (vlist v) (drop i (zip K W)) /\ Forall word (vlist v').
Proof.
  intros HW. assert (length K = 64%nat) as HK by reflexivity. assert (length (zip K W) = 64%nat) as Hz by (rewrite length_zip_with; lia).
  induction k as [|k IH]; intros i v Hk Hv; cbn [rounds].
  - exists v. rewrite drop_ge by lia. done.
  - destruct (aget_lt K (Z.of_nat i) ltac:(lia)) as (ki & -> & Ek). destruct (aget_lt W (Z.of_nat i) ltac:(lia)) as (wi & -> & Ew). cbn [res_bind].
    rewrite Nat2Z.id in Ek, Ew. destruct (round_step v ki wi Hv) as [Es Hr]. destruct (IH (S i) (round v ki wi) ltac:(lia) Hr) as (v' & E & Ev & Hv').
    replace (Z.of_nat i + 1) with (Z.of_nat (S i)) by lia. exists v'. split; [done|]. split; [|done]. rewrite Ev, Es.
    rewrite (drop_S (zip K W) (ki, wi) i) by (apply lookup_zip_with_Some; eauto). done.
Qed.

Lemma step_length v kw : length (step v kw) = length v.
Proof. unfold step. by destruct v as [|? [|? [|? [|? [|? [|? [|? [|? [|]]]]]]]]]. Qed.

(** [sha256_transform] compresses a block as the standard does. *)
Lemma transform_ok ctx blk : length blk = 64%nat -> bytes_ok blk -> length (state ctx) = 8%nat -> Forall word (state ctx) ->
  exists W, schedule blk W /\ sha256_transform ctx blk = Ok (ctx <| state := zip_with add32 (state ctx) (foldl step (state ctx) (zip fK W)) |>).
Proof.
  intros Hl Hb Hs Hw. rewrite K_standard. unfold sha256_transform. pose proof (load_words_ok blk Hl Hb 16 0 [] ltac:(lia)) as E0.
  change (load_words 16 0 0 blk [] = Ok (map (block_word blk) (seq 0 16))) in E0. rewrite E0. cbn [res_bind].
  set (m := map (block_word blk) (seq 0 16)). assert (length m = 16%nat) as Hm by (unfold m; by rewrite length_map, length_seq).
  assert (Forall word m) as Hmw by (unfold m; apply Forall_map, Forall_true; intros; by apply block_word_ok).
  destruct (extend_words_ok 48 m ltac:(lia) Hmw) as (m' & E & Hl' & Hw' & Hr). rewrite Hm in E, Hr. change (Z.of_nat 16) with 16 in E. rewrite E. cbn [res_bind].
  assert (length (m ++ m') = 64%nat) as HW by (rewrite length_app; lia). exists (m ++ m'). split.
  - split; [done|]. split; [|intros t Ht; apply Hr; lia]. intros t Ht. rewrite app_nth1 by lia. unfold m. fold (block_word blk t).
    rewrite (nth_indep _ 0 (block_word blk 0)) by (rewrite length_map, length_seq; lia). rewrite map_nth, seq_nth by lia. done.
  - destruct (state ctx) as [|s0 [|s1 [|s2 [|s3 [|s4 [|s5 [|s6 [|s7 [|]]]]]]]]]; try discriminate Hs. clear Hs.
    destruct (rounds_ok (m ++ m') HW 64 0 (Vars s0 s1 s2 s3 s4 s5 s6 s7) ltac:(lia) Hw) as (v & Ev & El & _). change (Z.of_nat 0) with 0 in Ev. rewrite Ev. cbn [res_bind].
    rewrite drop_0 in El. change (vlist (Vars s0 s1 s2 s3 s4 s5 s6 s7)) with [s0; s1; s2; s3; s4; s5; s6; s7] in El. rewrite <- El. reflexivity.
Qed.

(** ** The buffer *)

Lemma hashes_snoc H a H1 blk W : hashes H a H1 -> length blk = 64%nat -> schedule blk W ->
  hashes H (a ++ blk) (zip_with add32 H1 (foldl step H1 (zip fK W))).
Proof.
  intros Ha Hl HW. induction Ha as [H|H b W' rest H' Hb HW' _ IH].
  - cbn [app]. rewrite <- (app_nil_r blk). apply (hashes_block _ _ W); [done|done|]. constructor.
  - rewrite <- app_assoc. by eapply hashes_block.
Qed.

Lemma foldl_step_length kws : forall v, length (foldl step v kws) = length v.
Proof. induction kws as [|kw kws IH]; intros v; cbn [foldl]; [done|]. by rewrite IH, step_length. Qed.

Lemma next_words H : forall H1, Forall word (zip_with add32 H H1).
Proof. induction H as [|x H IH]; intros [|y H1]; cbn [zip_with]; constructor; [by apply Z.mod_pos_bound|apply IH]. Qed.

Section Fed.
Context (Hst : list Z) (base : Z).

(** The context after the bytes [msg], from the hash value [Hst] and [base] bits on: whole blocks
    are hashed, the rest is in the buffer. *)
Record fed (ctx : sha256_ctx) (msg : list Z) : Prop := {
  fed_split : exists dn rest q, msg = dn ++ rest /\ hashes Hst dn (state ctx) /\ length dn = (64 * q)%nat /\ bitlen ctx = u64 (base + 8 * Z.of_nat (length dn)) /\
    buflen ctx = Z.of_nat (length rest) /\ (length rest < 64)%nat /\ bytes_ok rest /\ exists tl, buf ctx = rest ++ tl;
  fed_state : length (state ctx) = 8%nat;
  fed_words : Forall word (state ctx);
  fed_buf : length (buf ctx) = 64%nat
}.

Lemma put_next (l tl : list Z) b : (0 < length tl)%nat -> exists tl', aset (l ++ tl) (Z.of_nat (length l)) b = Ok ((l ++ [b]) ++ tl') /\ length tl = S (length tl').
Proof.
  intros Ht. destruct tl as [|y tl]; [cbn in Ht; lia|]. exists tl. split; [|done]. rewrite aset_lt by (rewrite length_app; cbn; lia).
  rewrite Nat2Z.id, insert_app_r_alt, Nat.sub_diag by lia. cbn. by rewrite <- app_assoc.
Qed.

(** A block that is complete. *)
Lemma transform_fed ctx dn blk : hashes Hst dn (state ctx) -> length (state ctx) = 8%nat -> Forall word (state ctx) -> length blk = 64%nat -> bytes_ok blk ->
  exists H, sha256_transform ctx blk = Ok (ctx <| state := H |>) /\ hashes Hst (dn ++ blk) H /\ length H = 8%nat /\ Forall word H.
Proof.
  intros Hh Hs Hw Hl Hb. destruct (transform_ok ctx blk Hl Hb Hs Hw) as (W & HW & E). eexists. split; [exact E|].
  split; [by apply hashes_snoc|]. split; [|apply next_words]. rewrite length_zip_with, foldl_step_length, Hs. lia.
Qed.

Lemma update_ok data : forall ctx msg, fed ctx msg -> bytes_ok data -> exists ctx', sha256_update ctx data = Ok ctx' /\ fed ctx' (msg ++ data).
Proof.
  induction data as [|b data IH]; intros ctx msg Hf Hd; cbn [sha256_update].
  - exists ctx. rewrite app_nil_r. done.
  - apply Forall_cons in Hd as [Hb Hd]. destruct Hf as [(dn & rest & q & -> & Hh & Hq & Hbit & Hn & Hlt & Hrest & tl & Htl) Hs Hw Hbuf].
    rewrite Htl, length_app in Hbuf. rewrite Htl, Hn. destruct (put_next rest tl b ltac:(lia)) as (tl' & -> & Hl'). cbn [res_bind].
    assert (bytes_ok (rest ++ [b])) as Hrb by (apply Forall_app; split; [done|by constructor]).
    assert (length (rest ++ [b]) = S (length rest)) as Hrl by (rewrite length_app; cbn; lia).
    replace ((dn ++ rest) ++ b :: data) with ((dn ++ rest ++ [b]) ++ data) by (by rewrite <- !app_assoc).
    unfold upd. cbn [buflen buf state bitlen]. rewrite wrap_small by lia. case_bool (Z.of_nat (length rest) + 1 =? 64).
    + destruct tl'; [|cbn in Hl'; lia]. rewrite app_nil_r.
      destruct (transform_fed (Sha256_ctx (state ctx) (rest ++ [b]) (Z.of_nat (length rest) + 1) (bitlen ctx)) dn (rest ++ [b]) Hh Hs Hw ltac:(lia) Hrb) as (H & -> & Hh' & Hs' & Hw').
      cbn [res_bind]. unfold upd. cbn [buflen buf state bitlen]. apply IH; [|done]. split; cbn [buflen buf state bitlen]; [|done|done|lia].
      exists (dn ++ rest ++ [b]), [], (S q). rewrite app_nil_r. split_and!; [done|done|rewrite length_app; lia| |done|cbn; lia|constructor|by eexists].
      rewrite Hbit, wrap_add_l, length_app, Hrl. f_equal. lia.
    + apply IH; [|done]. split; cbn [buflen buf state bitlen]; [|done|done|rewrite length_app; lia].
      exists dn, (rest ++ [b]), q. split_and!; [done|done|done|done|lia|lia|done|by eexists].
Qed.

(** ** The padding *)

Lemma zeros_st k : forall b i, zeros k b i = st b i (replicate k 0).
Proof. induction k as [|k IH]; intros b i; cbn [zeros st replicate]; [done|]. destruct (aset b i 0); [|done]. cbn [res_bind]. apply IH. Qed.

Lemma be_length k : forall x, length (be k x) = k.
Proof. induction k as [|k IH]; intros x; cbn [be]; [done|]. rewrite length_app, IH. cbn. lia. Qed.

Lemma be_bytes k : forall x, bytes_ok (be k x).
Proof.
  induction k as [|k IH]; intros x; cbn [be]; [constructor|]. apply Forall_app. split; [apply IH|]. constructor; [|constructor]. by apply Z.mod_pos_bound.
Qed.

Lemma put_len_ok k : forall (a x c : list Z) len, length x = k -> 0 <= len -> put_len k (a ++ x ++ c) (Z.of_nat (length a + k) - 1) len = Ok (a ++ be k len ++ c).
Proof.
  induction k as [|k IH]; intros a x c len Hx Hlen; cbn [put_len be].
  - by destruct x.
  - destruct x as [|y x _] using rev_ind; [done|]. rewrite length_app in Hx. cbn in Hx. rewrite <- !app_assoc. cbn [app].
    rewrite aset_lt by (rewrite !length_app; cbn; lia). cbn [res_bind]. replace (Z.to_nat (Z.of_nat (length a + S k) - 1)) with (length a + (length x + 0))%nat by lia.
    rewrite insert_app_r, insert_app_r. cbn [insert list_insert].
    replace (Z.of_nat (length a + S k) - 1 - 1) with (Z.of_nat (length a + k) - 1) by lia. rewrite Z.shiftr_div_pow2 by lia. change (2 ^ 8) with 256.
    rewrite IH by (done || lia || apply Z.div_pos; lia). done.
Qed.

Lemma word_bytes_be w : word w -> word_bytes w = be 4 w.
Proof.
  intros Hw. unfold word_bytes. rewrite !Z.shiftr_div_pow2 by lia. change 255 with (Z.ones 8). rewrite !Z.land_ones by lia. cbn [be app].
  rewrite !Z.div_div by lia. done.
Qed.

(** The last block: the length behind 56 bytes. *)
Lemma last_block ctx dn pre tl L : hashes Hst dn (state ctx) -> length (state ctx) = 8%nat -> Forall word (state ctx) -> length pre = 56%nat -> bytes_ok pre -> length tl = 8%nat -> 0 <= L ->
  exists H, (let! b := put_len 8 (pre ++ tl) 63 L in let! c := sha256_transform (ctx <| buf := b |>) b in Ok (concat (map word_bytes (state c)))) = Ok (concat (map (be 4) H)) /\
    hashes Hst (dn ++ pre ++ be 8 L) H /\ length H = 8%nat.
Proof.
  intros Hh Hs Hw Hl Hb Ht HL. pose proof (put_len_ok 8 pre tl [] L Ht HL) as E. rewrite !app_nil_r, Hl in E. change (Z.of_nat (56 + 8) - 1) with 63 in E. rewrite E. cbn [res_bind].
  destruct (transform_fed (ctx <| buf := pre ++ be 8 L |>) dn (pre ++ be 8 L)) as (H & -> & Hh' & Hs' & Hw'); try done.
  { rewrite length_app, be_length. lia. }
  { apply Forall_app. split; [done|apply be_bytes]. }
  exists H. cbn [res_bind]. unfold upd. cbn [state]. split; [|done]. do 2 f_equal. apply map_ext_in. intros w Hin. apply word_bytes_be. rewrite List.Forall_forall in Hw'. by apply Hw'.
Qed.

Lemma st_zeros (a tl : list Z) k : (k <= length tl)%nat -> exists tl', st (a ++ tl) (Z.of_nat (length a)) (replicate k 0) = Ok (a ++ replicate k 0 ++ tl') /\ length tl = (k + length tl')%nat.
Proof.
  intros Hk. exists (drop k tl). split; [|rewrite length_drop; lia]. rewrite <- (take_drop k tl) at 1. apply st_app. rewrite length_take, length_replicate. lia.
Qed.

Lemma replicate_bytes k : bytes_ok (replicate k 0).
Proof. apply Forall_replicate. unfold is_byte. lia. Qed.

Lemma bytes_app a b : bytes_ok a -> bytes_ok b -> bytes_ok (a ++ b).
Proof. intros. by apply Forall_app. Qed.

Lemma pad_split dn rest q k : length dn = (64 * q)%nat -> (length rest < 64)%nat -> k = (if Z.of_nat (length rest) <? 56 then (55 - length rest)%nat else (63 - length rest + 56)%nat) ->
  forall L, pad_to (dn ++ rest) L = dn ++ (rest ++ [0x80]) ++ replicate k 0 ++ be 8 L.
Proof.
  intros Hq Hlt -> L. unfold pad_to. rewrite <- !app_assoc. cbn [app]. do 4 f_equal. f_equal. rewrite length_app, Hq. case_if; dlia.
Qed.

(** [pad_zeros] leaves 56 bytes that end the message up to its length. *)
Lemma pad_zeros_ok ctx msg : fed ctx msg -> exists H b dn pre tl, pad_zeros ctx = Ok (Sha256_ctx H b (buflen ctx) (bitlen ctx)) /\ b = pre ++ tl /\ length pre = 56%nat /\ bytes_ok pre /\
  length tl = 8%nat /\ hashes Hst dn H /\ length H = 8%nat /\ Forall word H /\ forall L, pad_to msg L = dn ++ pre ++ be 8 L.
Proof.
  intros [(dn & rest & q & -> & Hh & Hq & Hbit & Hn & Hlt & Hrest & tl & Htl) Hs Hw Hbuf]. pose proof (pad_split dn rest q _ Hq Hlt eq_refl) as Hpad. rewrite Htl, length_app in Hbuf.
  assert (bytes_ok (rest ++ [0x80])) as Hrb by (apply bytes_app; [done|]; constructor; [unfold is_byte; lia|constructor]).
  assert (length (rest ++ [0x80]) = S (length rest)) as Hrl by (rewrite length_app; cbn; lia).
  unfold pad_zeros. rewrite Htl, Hn. destruct (put_next rest tl 0x80 ltac:(lia)) as (tl' & -> & Hl'). cbn [res_bind]. rewrite !zeros_st.
  replace (Z.of_nat (length rest) + 1) with (Z.of_nat (length (rest ++ [0x80]))) by lia. case_if; cbn [res_bind].
  - destruct (st_zeros (rest ++ [0x80]) tl' (55 - length rest) ltac:(lia)) as (tl2 & E2 & Hl2).
    replace (Z.to_nat (56 - Z.of_nat (length (rest ++ [0x80])))) with (55 - length rest)%nat by lia. rewrite E2. cbn [res_bind]. unfold upd. cbn [buf bitlen buflen state].
    eexists _, _, dn, ((rest ++ [0x80]) ++ replicate (55 - length rest) 0), tl2. rewrite Hn.
    split_and!; [done|by rewrite <- !app_assoc|rewrite length_app, length_replicate; lia|apply bytes_app; [done|apply replicate_bytes]|lia|done|done|done|intros L; rewrite Hpad; by rewrite <- !app_assoc].
  - destruct (st_zeros (rest ++ [0x80]) tl' (63 - length rest) ltac:(lia)) as (tl2 & E2 & Hl2). destruct tl2; [|cbn in Hl2; lia]. rewrite app_nil_r in E2.
    replace (Z.to_nat (64 - Z.of_nat (length (rest ++ [0x80])))) with (63 - length rest)%nat by lia. rewrite E2. cbn [res_bind]. unfold upd. cbn [buf bitlen buflen state].
    set (blk := (rest ++ [0x80]) ++ replicate (63 - length rest) 0). assert (length blk = 64%nat) as Hblk by (unfold blk; rewrite length_app, length_replicate; lia).
    destruct (transform_fed (Sha256_ctx (state ctx) blk (buflen ctx) (bitlen ctx)) dn blk Hh Hs Hw Hblk ltac:(apply bytes_app; [done|apply replicate_bytes])) as (H & -> & Hh' & Hs' & Hw').
    cbn [res_bind]. unfold upd. cbn [buf bitlen buflen state]. destruct (st_zeros [] blk 56 ltac:(lia)) as (tl3 & E3 & Hl3). rewrite zeros_st. cbn [app length] in E3. change (Z.of_nat 0) with 0 in E3. rewrite E3.
    cbn [res_bind]. eexists _, _, (dn ++ blk), (replicate 56 0), tl3. rewrite Hn.
    split_and!; [done|done|done|apply replicate_bytes|lia|done|done|done|intros L; rewrite Hpad]. unfold blk. rewrite replicate_add. by rewrite <- !app_assoc.
Qed.

Lemma final_ok ctx msg : fed ctx msg ->
  exists H, sha256_final ctx = Ok (concat (map (be 4) H)) /\ hashes Hst (pad_to msg (u64 (base + 8 * Z.of_nat (length msg)))) H /\ length H = 8%nat.
Proof.
  intros Hf. destruct (pad_zeros_ok ctx msg Hf) as (H1 & b & dn & pre & tl & E & -> & Hpre & Hpb & Htl & Hh & Hs & Hw & Hpad). unfold sha256_final. rewrite E. cbn [res_bind]. unfold upd. cbn [buf bitlen buflen state].
  assert (u64 (bitlen ctx + u32 (buflen ctx * 8)) = u64 (base + 8 * Z.of_nat (length msg))) as ->.
  { destruct (fed_split _ _ Hf) as (d & rest & q & -> & _ & _ & -> & -> & Hlt & _). rewrite length_app. rewrite wrap_add_l, (wrap_small 32) by lia. f_equal. lia. }
  set (L := u64 (base + 8 * Z.of_nat (length msg))). rewrite Hpad.
  destruct (last_block (Sha256_ctx H1 (pre ++ tl) (buflen ctx) L) dn pre tl L) as (H & E2 & Hh2 & HL2); try done; [by apply wrap_range|].
  exists H. split; [|done]. exact E2.
Qed.

End Fed.

(** ** The program *)

Lemma update_all_ok base reads : forall Hst ctx msg, fed Hst base ctx msg -> Forall (fun b => b <> [] /\ bytes_ok b) reads ->
  exists ctx', update_all reads ctx = Ok ctx' /\ fed Hst base ctx' (msg ++ concat reads).
Proof.
  induction reads as [|b reads IH]; intros Hst ctx msg Hf Hr; cbn [update_all concat].
  - exists ctx. by rewrite app_nil_r.
  - apply Forall_cons in Hr as [[Hne Hb] Hr]. destruct b as [|x b]; [done|]. destruct (update_ok Hst base (x :: b) ctx msg Hf Hb) as (ctx1 & -> & Hf1). cbn [res_bind].
    rewrite app_assoc. by apply IH.
Qed.

Lemma init_fed junk : length junk = 64%nat -> fed H0 0 (sha256_init junk) [].
Proof.
  intros Hj. rewrite H0_standard. split; [|done|cbn [state sha256_init]; rewrite !Forall_cons; unfold word; split_and!; (lia || constructor)|done].
  exists [], [], 0%nat. split_and!; [done|constructor|done|done|done|cbn; lia|constructor|by exists junk].
Qed.

Lemma digest_bytes H : bytes_ok (concat (map (be 4) H)) /\ length (concat (map (be 4) H)) = (4 * length H)%nat.
Proof.
  induction H as [|x H [IHb IHl]]; cbn [map concat]; [split; [constructor|done]|]. split; [apply bytes_app; [apply be_bytes|done]|]. rewrite length_app, IHl, be_length. cbn. lia.
Qed.

(** C14: whatever the pieces in which [read] returns a file, [sha256sum] computes the hash the
    standard defines for its contents. *)
Theorem sha256_file_correct (junk : list Z) (reads : list (list Z)) :
  length junk = 64%nat -> Forall (fun b => b <> [] /\ bytes_ok b) reads -> 8 * Z.of_nat (length (concat reads)) < 2 ^ 64 ->
  exists digest, sha256_file junk reads = Ok digest /\ is_sha256 (concat reads) digest /\ length digest = 32%nat.
Proof.
  intros Hj Hr Hlen. destruct (update_all_ok 0 reads H0 _ _ (init_fed junk Hj) Hr) as (ctx & E & Hf). unfold sha256_file. rewrite E. cbn [res_bind app] in *.
  destruct (final_ok H0 0 ctx _ Hf) as (H & Ef & Hh & Hl). exists (concat (map (be 4) H)). split; [done|]. destruct (digest_bytes H) as [_ ->]. rewrite Hl. split; [|done].
  exists H. split; [|done]. rewrite Z.add_0_l, wrap_small in Hh by lia. exact Hh.
Qed.

Lemma sha256_file_correct_witness : exists digest, sha256_file (replicate 64 7) [[97]; [98; 99]] = Ok digest /\ is_sha256 [97; 98; 99] digest /\ length digest = 32%nat.
Proof.
  apply (sha256_file_correct (replicate 64 7) [[97]; [98; 99]]).
  - reflexivity.
  - repeat (constructor; [split; [discriminate|repeat (constructor; [split; vm_compute; congruence|]); constructor]|]). constructor.
  - reflexivity.
Defined.

(** A context whose fields have the values of their types. *)
Record typed (ctx : sha256_ctx) : Prop := {
  ty_state : length (state ctx) = 8%nat /\ Forall word (state ctx);
  ty_buf : length (buf ctx) = 64%nat /\ bytes_ok (buf ctx);
  ty_buflen : 0 <= buflen ctx < 64;
  ty_bitlen : 0 <= bitlen ctx < 2 ^ 64
}.

Lemma typed_fed ctx : typed ctx -> fed (state ctx) (bitlen ctx) ctx (take (Z.to_nat (buflen ctx)) (buf ctx)).
Proof.
  intros [[Hs Hw] [Hb Hby] Hn Hbit]. split; [|done|done|done]. exists [], (take (Z.to_nat (buflen ctx)) (buf ctx)), 0%nat.
  assert (length (take (Z.to_nat (buflen ctx)) (buf ctx)) = Z.to_nat (buflen ctx)) as E by (rewrite length_take; lia). rewrite E.
  split_and!; [done|constructor|done|cbn; rewrite Z.add_0_r; by rewrite wrap_small|lia|lia|by apply Forall_take|]. exists (drop (Z.to_nat (buflen ctx)) (buf ctx)). by rewrite take_drop.
Qed.

Lemma update_typed data : forall ctx, typed ctx -> bytes_ok data -> exists ctx', sha256_update ctx data = Ok ctx' /\ typed ctx'.
Proof.
  induction data as [|b data IH]; intros ctx Ht Hd; cbn [sha256_update]; [by exists ctx|]. apply Forall_cons in Hd as [Hb Hd]. destruct Ht as [[Hs Hw] [Hl Hby] Hn Hbit].
  rewrite aset_lt by lia. cbn [res_bind]. unfold upd. cbn [buflen buf state bitlen]. rewrite wrap_small by lia.
  assert (bytes_ok (<[Z.to_nat (buflen ctx) := b]> (buf ctx))) as Hby' by (by apply Forall_insert).
  case_if; [|apply IH; [|done]; split; cbn [buflen buf state bitlen]; rewrite ?length_insert; (done || lia)].
  destruct (transform_ok (Sha256_ctx (state ctx) (<[Z.to_nat (buflen ctx) := b]> (buf ctx)) (buflen ctx + 1) (bitlen ctx)) (<[Z.to_nat (buflen ctx) := b]> (buf ctx))) as (W & _ & ->); try done; [by rewrite length_insert|].
  cbn [res_bind]. unfold upd. cbn [buflen buf state bitlen]. apply IH; [|done].
  split; cbn [buflen buf state bitlen]; [split; [rewrite length_zip_with, foldl_step_length, Hs; lia|apply next_words]|by rewrite length_insert|lia|by apply wrap_range].
Qed.

(** C18: on a context whose fields have the values of their types and on bytes, [sha256_update]
    and [sha256_final] return, with such a context and a digest of 32 bytes: no access is
    outside of an array and every word stays below 2^32. *)
Theorem sha256_typed (ctx : sha256_ctx) (data : list Z) : typed ctx -> bytes_ok data ->
  exists ctx' digest, sha256_update ctx data = Ok ctx' /\ typed ctx' /\ sha256_final ctx' = Ok digest /\ length digest = 32%nat /\ bytes_ok digest.
Proof.
  intros Ht Hd. destruct (update_typed data ctx Ht Hd) as (ctx' & E & Ht'). destruct (final_ok _ _ _ _ (typed_fed ctx' Ht')) as (H & Ef & _ & Hl).
  exists ctx', (concat (map (be 4) H)). destruct (digest_bytes H) as [Hb Hlen]. split_and!; try done. by rewrite Hlen, Hl.
Qed.

Lemma sha256_typed_witness : exists ctx' digest, sha256_update (sha256_init (replicate 64 0)) [1; 2] = Ok ctx' /\ typed ctx' /\ sha256_final ctx' = Ok digest /\ length digest = 32%nat /\ bytes_ok digest.
Proof.
  apply (sha256_typed (sha256_init (replicate 64 0)) [1; 2]).
  - split.
    + split; [reflexivity|]. repeat (constructor; [split; vm_compute; congruence|]). constructor.
    + split; [reflexivity|exact (replicate_bytes 64)].
    + split; vm_compute; congruence.
    + split; vm_compute; congruence.
  - repeat (constructor; [split; vm_compute; congruence|]). constructor.
Defined.

(** The example of the standard, "abc". *)
Example sha256_abc : sha256_file (replicate 64 0) [[97; 98; 99]] = Ok [
  0xba; 0x78; 0x16; 0xbf; 0x8f; 0x01; 0xcf; 0xea; 0x41; 0x41; 0x40; 0xde; 0x5d; 0xae; 0x22; 0x23;
  0xb0; 0x03; 0x61; 0xa3; 0x96; 0x17; 0x7a; 0x9c; 0xb4; 0x10; 0xff; 0x61; 0xf2; 0x00; 0x15; 0xad].
Proof. vm_compute. reflexivity. Qed.
