(* ===== verification/Calendar.v ===== *)
(** * Dates and times

    The seconds since 1970 and the calendar: [kernel/klib/time.c] and [gmtime_r], [mktime] and
    the normalisation of [app/libc/time], proved against the rules of the Gregorian calendar. *)
From Stdlib Require Import ZArith Lia List Bool.
From stdpp Require Import base list.
From S2P Require Import Prelude.

#[local] Open Scope Z_scope.

(** ** The calendar *)

Definition leap (y : Z) : bool := (y mod 4 =? 0) && (negb (y mod 100 =? 0) || (y mod 400 =? 0)).

Definition ylen (y : Z) : Z := if leap y then 366 else 365.

(** The days of month [m], from 0. *)
Definition days_of (lp : bool) (m : Z) : Z :=
  if m =? 1 then (if lp then 29 else 28)
  else if (m =? 3) || (m =? 5) || (m =? 8) || (m =? 10) then 30 else 31.

Definition mlen (y m : Z) : Z := days_of (leap y) m.

Definition leaps (y : Z) : Z := y / 4 - y / 100 + y / 400.

(** The days from 1970 to the beginning of a year. *)
Definition year_start (y : Z) : Z := 365 * (y - 1970) + leaps (y - 1) - leaps 1969.

(** The days from the beginning of the year to that of a month. *)
Definition month_start (y m : Z) : Z := fold_left (fun s k => s + mlen y (Z.of_nat k)) (seq 0 (Z.to_nat m)) 0.

Definition day_number (y m d : Z) : Z := year_start y + month_start y m + (d - 1).

Definition valid (y m d : Z) : Prop := 0 <= m < 12 /\ 1 <= d <= mlen y m.

Definition valid_time (h mi s : Z) : Prop := 0 <= h < 24 /\ 0 <= mi < 60 /\ 0 <= s < 60.

(** The seconds from 1970 to a date and time. *)
Definition seconds (y m d h mi s : Z) : Z := 86400 * day_number y m d + 3600 * h + 60 * mi + s.

(** ** The kernel: [klib/time.c] *)

(** [rtc_tm_t] *)
Record rtc_tm := Rtc_tm { second : Z; minute : Z; hour : Z; day : Z; month : Z; year : Z }.

(** [month] *)
Definition month_tab : list Z := [0; 31; 59; 90; 120; 151; 181; 212; 243; 273; 304; 334; 365].

Definition LEAP_CKR (y : Z) : bool := if Z.rem y 100 =? 0 then Z.rem y 400 =? 0 else Z.rem y 4 =? 0.

Definition TS_MINUTE : Z := 60.
Definition TS_HOUR : Z := 60 * 60.
Definition TS_DAY : Z := 60 * 60 * 24.

Definition time_stamp (tm : rtc_tm) : res Z :=
  let Y := year tm in
  let offset := u64 (DIV_ROUND_UP (u64 (Y - 1972)) 4 - DIV_ROUND_UP (u64 (Y - 2000)) 100 + DIV_ROUND_UP (u64 (Y - 2000)) 400) in
  let common := u32 (u32 (year tm - 1970) * 365) in
  let! mo := aget month_tab (month tm - 1) in
  let days := u32 (mo + (if (2 <? month tm) && LEAP_CKR (year tm) then 1 else 0) + (day tm - 1)) in
  Ok (u64 (u64 (common + offset + days) * TS_DAY + hour tm * TS_HOUR + minute tm * TS_MINUTE + second tm)).

(** The first loop of [time_rtctm]: a round for every year. *)
Fixpoint rtctm_years (fuel : nat) (y days_left : Z) : res (Z * Z) :=
  match fuel with
  | O => Fault OutOfFuel
  | S fuel =>
      let year_days := if LEAP_CKR y then 366 else 365 in
      if days_left <? year_days then Ok (y, days_left) else rtctm_years fuel (y + 1) (days_left - year_days)
  end.

(** The second one: the month and the days before it. *)
Fixpoint rtctm_months (k : nat) (i : Z) (is_leap : bool) (days_left : Z) : res (Z * Z) :=
  match k with
  | O => Ok (i, 0)
  | S k =>
      let! cum := aget month_tab i in
      let cum := if is_leap && (2 <=? i) then cum + 1 else cum in
      if days_left <? cum then
        let! prev := aget month_tab (i - 1) in
        Ok (i, if is_leap && (2 <=? i - 1) then prev + 1 else prev)
      else rtctm_months k (i + 1) is_leap days_left
  end.

Definition time_rtctm (ts : Z) : res rtc_tm :=
  let days_total := ts / TS_DAY in
  let seconds_in_day := ts mod TS_DAY in
  let! r := rtctm_years (S (Z.to_nat (days_total / 365))) 1970 days_total in
  let '(y, days_left) := r in
  let! r := rtctm_months 12 1 (LEAP_CKR y) days_left in
  let '(i, prev_days) := r in
  let in_hour := seconds_in_day mod TS_HOUR in
  Ok (Rtc_tm (u8 (in_hour mod TS_MINUTE)) (u8 (in_hour / TS_MINUTE)) (u8 (seconds_in_day / TS_HOUR)) (u8 (days_left - prev_days + 1)) (u8 i) (u32 y)).

(** ** The C library: [libc/time] *)

(** [struct tm], without the time zone *)
Record tm := Tm { tm_sec : Z; tm_min : Z; tm_hour : Z; tm_mday : Z; tm_mon : Z; tm_year : Z; tm_wday : Z; tm_yday : Z }.

#[export] Instance eta_tm : Eta tm := fun t => Tm (tm_sec t) (tm_min t) (tm_hour t) (tm_mday t) (tm_mon t) (tm_year t) (tm_wday t) (tm_yday t).

Definition LEAPOCH : Z := 951868800.
Definition INT_MAX : Z := 2 ^ 31 - 1.
Definition INT_MIN : Z := - 2 ^ 31.

Definition isleap (y : Z) : bool := if Z.rem y 100 =? 0 then Z.rem y 400 =? 0 else Z.rem y 4 =? 0.

Definition leap_1 (y : Z) : Z := Z.quot y 4 - Z.quot y 100 + Z.quot y 400.

(** The count and what is stored in [*leap]. *)
Definition leap_cnt (y : Z) : Z * Z :=
  let y := i32 y in
  if 0 <? y then (leap_1 (y - 1) - leap_1 1969, Z.b2z (isleap y))
  else (- leap_1 (i32 (- y)) + (if y =? 0 then 0 else -1) + - leap_1 1969, Z.b2z (isleap (i32 (- y)))).

Definition mdays : list Z := [31; 28; 31; 30; 31; 30; 31; 31; 30; 31; 30; 31].

Definition s_mdays : list Z := [0; 31; 59; 90; 120; 151; 181; 212; 243; 273; 304; 334; 365].

(** The loop of [gmtime_r] over the months: the month and the days left. *)
Fixpoint gm_months (k : nat) (m : Z) (lp : bool) (days : Z) : res (Z * Z) :=
  match k with
  | O => Ok (m, days)
  | S k =>
      let! d := aget mdays m in
      let d := if (m =? 1) && lp then d + 1 else d in
      if days <? d then Ok (m, days) else gm_months k (m + 1) lp (days - d)
  end.

(** [gmtime_r]; nothing is the null pointer with [EOVERFLOW]. *)
Definition gmtime_r (t : Z) : res (option tm) :=
  let rel := i64 (t - LEAPOCH) in
  let days := Z.quot rel TS_DAY in
  let inday := Z.rem rel TS_DAY in
  let '(days, inday) := if inday <? 0 then (days - 1, inday + TS_DAY) else (days, inday) in
  let wday := Z.rem (days + 3) 7 in
  let wday := if wday <? 0 then wday + 7 else wday in
  let T4 := 365 * 4 + 1 in
  let T100 := 365 * 100 + 24 in
  let T400 := 365 * 400 + 97 in
  let c400 := Z.quot days T400 in
  let days := Z.rem days T400 in
  let '(c400, days) := if days <? 0 then (c400 - 1, days + T400) else (c400, days) in
  let c100 := Z.quot days T100 in
  let c100 := if c100 =? 4 then c100 - 1 else c100 in
  let days := days - c100 * T100 in
  let c4 := Z.quot days T4 in
  let c4 := if c4 =? 25 then c4 - 1 else c4 in
  let days := days - c4 * T4 in
  let y_rem := Z.quot days 365 in
  let lp := ((Z.rem y_rem 4 =? 0) && negb (c4 =? 0)) || (c100 =? 0) in
  let y_rem := if y_rem =? 4 then y_rem - 1 else y_rem in
  let days := days - y_rem * 365 + (31 + 28 + Z.b2z lp) in
  let '(days, y_rem) := if 365 + Z.b2z lp <=? days then (days - (365 + Z.b2z lp), y_rem + 1) else (days, y_rem) in
  let y := 100 + y_rem + 4 * c4 + 100 * c100 + 400 * c400 in
  if (INT_MAX <? y) || (y <? INT_MIN) then Ok None
  else
    let yday := days in
    let! r := gm_months 12 0 lp days in
    let '(m, days) := r in
    Ok (Some (Tm (Z.rem inday 60) (Z.rem (Z.quot inday 60) 60) (Z.quot (Z.quot inday 60) 60) (days + 1) m y wday yday)).

(** [__norm_time] *)
Definition sign (x : Z) : Z := if x <? 0 then -1 else 1.

Definition chkadd (y x : Z) : bool :=
  let y_ := i32 (y - 1900) in
  ((0 <? y_) && (INT_MAX - x <? y_)) || ((y_ <? 0) && (y_ <? INT_MIN - x)).

Definition monthlen (m y : Z) : res Z :=
  let m := Z.rem m 12 in
  let m := if m <? 0 then m + 12 else m in
  if (m =? 1) && isleap y then Ok 29 else aget mdays m.

(** [x / n], less one for a negative [x], in an [int] *)
Definition carry (x n : Z) : Z := i32 (if x <? 0 then Z.quot x n - 1 else Z.quot x n).

(** The loop of [__norm_dmy]: year, month and day, or nothing for -1. *)
Fixpoint dmy_loop (fuel : nat) (y m d : Z) : res (option (Z * Z * Z)) :=
  match fuel with
  | O => Fault OutOfFuel
  | S fuel =>
      let far := (m <? 0) || (11 <? m) in
      let x := carry m 12 in
      if far && chkadd (i32 (y - 1900)) x then Ok None
      else
        let y := if far then i32 (y + x) else y in
        let m := if far then i32 (m - i32 (x * 12)) else m in
        let! e := monthlen m y in
        if (0 <=? d) && (d <? e) then Ok (Some (y, m, d))
        else
          let direct := sign d in
          let m := i32 (m + direct) in
          let! l := monthlen m y in
          dmy_loop fuel y m (d - direct * l)
  end.

Definition norm_time (fuel : nat) (t : tm) : res (option tm) :=
  let x := carry (tm_sec t) 60 in
  let sec := i32 (tm_sec t - i32 (x * 60)) in
  let mi := tm_min t + x in
  let x := carry mi 60 in
  let h := tm_hour t + x in
  let mi := mi - i32 (x * 60) in
  let x := carry h 24 in
  let d := i32 (tm_mday t - 1) + x in
  let h := h - i32 (x * 24) in
  let! r := dmy_loop fuel (i32 (tm_year t + 1900)) (tm_mon t) d in
  match r with
  | None => Ok None
  | Some (y, m, d) => Ok (Some (Tm sec (i32 mi) (i32 h) (i32 (d + 1)) m (i32 (y - 1900)) (tm_wday t) (tm_yday t)))
  end.

(** [mktime]: nothing for -1 with [EOVERFLOW]; an [assert] that fails ends the program. *)
Definition mktime (fuel : nat) (t : tm) : res (option (Z * tm)) :=
  let! n := norm_time fuel t in
  match n with
  | None => Ok None
  | Some t =>
      let y := i32 (tm_year t + 1900) in
      let '(offset, lp) := leap_cnt y in
      let common := (y - 1970) * 365 in
      let! mo := aget s_mdays (tm_mon t) in
      let days := mo + i32 (tm_mday t - 1) + (if 1 <? tm_mon t then lp else 0) in
      let res := i64 (i64 ((common + offset + days) * TS_DAY) + i32 (tm_hour t * TS_HOUR) + i32 (i32 (tm_min t * TS_MINUTE) + tm_sec t)) in
      let! g := gmtime_r res in
      let! fixed := deref g in
      do! ASSERTK ((tm_sec t =? tm_sec fixed) && (tm_min t =? tm_min fixed) && (tm_hour t =? tm_hour fixed) &&
                   (tm_mday t =? tm_mday fixed) && (tm_mon t =? tm_mon fixed) && (tm_year t =? tm_year fixed)) in
      Ok (Some (res, t <| tm_yday := tm_yday fixed |> <| tm_wday := tm_wday fixed |>))
  end.

(** ** The calendar as the rules give it *)

Ltac zdiv := Z.div_mod_to_equations; lia.

Lemma year_start_1970 : year_start 1970 = 0.
Proof. reflexivity. Qed.

(** Each year begins where the one before ends. *)
Lemma year_start_succ y : year_start (y + 1) = year_start y + ylen y.
Proof.
  unfold year_start, leaps, ylen, leap. replace (y + 1 - 1) with y by lia.
  destruct (Z.eqb_spec (y mod 4) 0), (Z.eqb_spec (y mod 100) 0), (Z.eqb_spec (y mod 400) 0); cbn [negb andb orb]; zdiv.
Qed.

Lemma month_cases m : 0 <= m < 12 -> m = 0 \/ m = 1 \/ m = 2 \/ m = 3 \/ m = 4 \/ m = 5 \/ m = 6 \/ m = 7 \/ m = 8 \/ m = 9 \/ m = 10 \/ m = 11.
Proof. lia. Qed.

(** The days before a month. *)
Definition before (lp : bool) (m : Z) : Z := nth (Z.to_nat m) s_mdays 0 + (if (1 <? m) && lp then 1 else 0).

Ltac each_month Hm :=
  destruct (month_cases _ Hm) as [->|[->|[->|[->|[->|[->|[->|[->|[->|[->|[->| ->]]]]]]]]]]];
  cbv [before mlen days_of s_mdays month_tab nth Z.to_nat Pos.to_nat Pos.iter_op Init.Nat.add] in *; cbn in *.

Lemma month_start_before y m : 0 <= m < 12 -> month_start y m = before (leap y) m.
Proof.
  intros Hm. unfold month_start. each_month Hm; by destruct (leap y).
Qed.

Lemma LEAP_CKR_leap y : LEAP_CKR y = leap y.
Proof.
  unfold LEAP_CKR, leap. destruct (Z.eqb_spec (Z.rem y 100) 0), (Z.eqb_spec (y mod 100) 0), (Z.eqb_spec (Z.rem y 400) 0), (Z.eqb_spec (y mod 400) 0), (Z.eqb_spec (Z.rem y 4) 0), (Z.eqb_spec (y mod 4) 0);
    cbn [negb andb orb]; try done; exfalso; Z.to_euclidean_division_equations; lia.
Qed.

Lemma isleap_leap y : isleap y = leap y.
Proof. apply LEAP_CKR_leap. Qed.

(** A statement on the days of a year is checked day by day. *)
Definition each_day (P : bool -> Z -> Z -> bool) : bool :=
  forallb (fun lp => forallb (fun m => forallb (fun d => negb (Z.of_nat d <=? days_of lp (Z.of_nat m)) || P lp (Z.of_nat m) (Z.of_nat d)) (seq 1 31)) (seq 0 12)) [true; false].

Lemma days_of_31 lp m : days_of lp m <= 31.
Proof. unfold days_of. repeat case_if; lia. Qed.

Lemma each_day_ok P : each_day P = true -> forall lp m d, 0 <= m < 12 -> 1 <= d <= days_of lp m -> P lp m d = true.
Proof.
  unfold each_day. intros H lp m d Hm Hd. rewrite forallb_forall in H. specialize (H lp ltac:(destruct lp; cbn; auto)). rewrite forallb_forall in H.
  specialize (H (Z.to_nat m) ltac:(apply in_seq; lia)). rewrite forallb_forall in H. pose proof (days_of_31 lp m).
  specialize (H (Z.to_nat d) ltac:(apply in_seq; lia)). rewrite !Z2Nat.id in H by lia. rewrite (proj2 (Z.leb_le _ _)) in H by lia. done.
Qed.

Definition zz_eqb (a b : res (Z * Z)) : bool :=
  match a, b with Ok (x, y), Ok (x', y') => (x =? x') && (y =? y') | _, _ => false end.

Lemma zz_eqb_eq a b : zz_eqb a b = true -> a = b.
Proof. destruct a as [[x y]|], b as [[x' y']|]; cbn [zz_eqb]; intros H; try done. bool_facts. by subst. Qed.

Lemma year_start_far n : forall y, year_start y + 365 * Z.of_nat n <= year_start (y + Z.of_nat n).
Proof.
  induction n as [|n IH]; intros y; [replace (y + Z.of_nat 0) with y by lia; lia|]. replace (y + Z.of_nat (S n)) with (y + 1 + Z.of_nat n) by lia. specialize (IH (y + 1)).
  rewrite year_start_succ in IH. unfold ylen in IH. destruct (leap y); lia.
Qed.

Lemma before_end lp m d : 0 <= m < 12 -> 1 <= d -> (forall y, leap y = lp -> d <= mlen y m) -> (exists y, leap y = lp) -> before lp m + (d - 1) < (if lp then 366 else 365).
Proof.
  intros Hm Hd Hl [y Hy]. specialize (Hl y Hy). unfold mlen in Hl. rewrite Hy in Hl. clear y Hy.
  each_month Hm; destruct lp; lia.
Qed.

(** A valid date lies in its year. *)
Lemma day_in_year y m d : valid y m d -> year_start y <= day_number y m d < year_start (y + 1).
Proof.
  intros [Hm Hd]. rewrite year_start_succ. unfold day_number. rewrite month_start_before by done. split.
  - enough (0 <= before (leap y) m) by lia. clear Hd. each_month Hm; destruct (leap y); lia.
  - unfold ylen. enough (before (leap y) m + (d - 1) < (if leap y then 366 else 365)) by lia. apply before_end; [done|lia| |by exists y].
    intros y' Hy'. unfold mlen in *. rewrite Hy'. lia.
Qed.

(** ** The kernel *)

Lemma time_stamp_ok t : 1970 <= year t < 11000000 -> valid (year t) (month t - 1) (day t) -> valid_time (hour t) (minute t) (second t) ->
  time_stamp t = Ok (seconds (year t) (month t - 1) (day t) (hour t) (minute t) (second t)).
Proof.
  intros Hy Hv Ht. pose proof (day_in_year _ _ _ Hv) as Hin. destruct Hv as [Hm Hd]. unfold time_stamp, DIV_ROUND_UP. autorewrite with mint.
  assert (aget month_tab (month t - 1) = Ok (nth (Z.to_nat (month t - 1)) s_mdays 0)) as ->.
  { clear Hin Hd. generalize dependent (month t - 1). intros m Hm. each_month Hm; reflexivity. }
  cbn [res_bind]. f_equal. rewrite LEAP_CKR_leap.
  replace (u64 (year t - 1972 + (4 - 1)) / 4 - u64 (year t - 2000 + (100 - 1)) / 100 + u64 (year t - 2000 + (400 - 1)) / 400) with (leaps (year t - 1) - leaps 1969).
  2: { unfold leaps. rewrite !wrap_small by lia. change (1969 / 4) with 492. change (1969 / 100) with 19. change (1969 / 400) with 4. zdiv. }
  assert (0 <= year_start (year t) /\ year_start (year t) < 366 * 11000000) as Hys.
  { unfold year_start, leaps. change (1969 / 4) with 492. change (1969 / 100) with 19. change (1969 / 400) with 4. zdiv. }
  assert (0 <= leaps (year t - 1) - leaps 1969 < 11000000) as Hlp by (unfold leaps; change (1969 / 4) with 492; change (1969 / 100) with 19; change (1969 / 400) with 4; zdiv).
  assert (nth (Z.to_nat (month t - 1)) s_mdays 0 + (if (2 <? month t) && leap (year t) then 1 else 0) = month_start (year t) (month t - 1)) as ->.
  { rewrite month_start_before by done. unfold before. by replace (1 <? month t - 1) with (2 <? month t) by lia. }
  unfold day_number in Hin. rewrite year_start_succ in Hin. unfold ylen in Hin. assert (0 <= month_start (year t) (month t - 1) + (day t - 1) < 367) as Hmo by (destruct (leap (year t)); lia).
  unfold year_start in Hys. unfold valid_time in Ht. unfold seconds, day_number, year_start, TS_DAY, TS_HOUR, TS_MINUTE.
  rewrite (wrap_small 32 (year t - 1970)) by lia. rewrite (wrap_small 32 (_ * _)) by lia. rewrite (wrap_small 64 (_ - _)) by lia. rewrite (wrap_small 32) by lia.
  rewrite (wrap_small 64 (_ * 365 + _ + _)) by lia. rewrite wrap_small by lia. lia.
Qed.

Lemma rtctm_years_ok n : forall fuel y d, (n < fuel)%nat -> year_start (y + Z.of_nat n) <= year_start y + d < year_start (y + Z.of_nat n + 1) ->
  rtctm_years fuel y d = Ok (y + Z.of_nat n, year_start y + d - year_start (y + Z.of_nat n)).
Proof.
  induction n as [|n IH]; intros fuel y d Hf Hd; (destruct fuel as [|fuel]; [lia|]); cbn [rtctm_years]; rewrite LEAP_CKR_leap; fold (ylen y).
  - replace (y + Z.of_nat 0) with y in * by lia. rewrite year_start_succ in Hd. rewrite (proj2 (Z.ltb_lt _ _)) by lia. do 2 f_equal. lia.
  - replace (y + Z.of_nat (S n)) with (y + 1 + Z.of_nat n) in * by lia. pose proof (year_start_far n (y + 1)) as Hfar. rewrite year_start_succ in Hfar.
    rewrite (proj2 (Z.ltb_ge _ _)) by lia. rewrite IH; [|lia|]; rewrite year_start_succ; [|lia]. do 2 f_equal. lia.
Qed.

Lemma rtctm_months_ok y m d : valid y m d -> rtctm_months 12 1 (leap y) (before (leap y) m + (d - 1)) = Ok (m + 1, before (leap y) m).
Proof.
  intros [Hm Hd]. apply zz_eqb_eq.
  apply (each_day_ok (fun lp m d => zz_eqb (rtctm_months 12 1 lp (before lp m + (d - 1))) (Ok (m + 1, before lp m)))); [vm_compute; reflexivity|done|done].
Qed.

Lemma time_rtctm_ok y m d h mi s : 1970 <= y < 2 ^ 32 -> valid y m d -> valid_time h mi s -> time_rtctm (seconds y m d h mi s) = Ok (Rtc_tm s mi h d (m + 1) y).
Proof.
  intros Hy Hv (Hh & Hmi & Hs). pose proof (day_in_year _ _ _ Hv) as Hin. unfold time_rtctm, TS_DAY, TS_HOUR, TS_MINUTE. change (60 * 60 * 24) with 86400. change (60 * 60) with 3600.
  assert (seconds y m d h mi s / 86400 = day_number y m d) as -> by (unfold seconds; zdiv). assert (seconds y m d h mi s mod 86400 = 3600 * h + 60 * mi + s) as -> by (unfold seconds; zdiv).
  pose proof (year_start_far (Z.to_nat (y - 1970)) 1970) as Hfar. rewrite year_start_1970, Z2Nat.id in Hfar by lia. replace (1970 + (y - 1970)) with y in Hfar by lia.
  assert (rtctm_years (S (Z.to_nat (day_number y m d / 365))) 1970 (day_number y m d) = Ok (y, before (leap y) m + (d - 1))) as ->.
  { rewrite (rtctm_years_ok (Z.to_nat (y - 1970))).
    - rewrite Z2Nat.id, year_start_1970 by lia. replace (1970 + (y - 1970)) with y by lia. unfold day_number. destruct Hv. rewrite month_start_before by done. do 2 f_equal. lia.
    - assert (y - 1970 <= day_number y m d / 365) by (apply Z.div_le_lower_bound; lia). lia.
    - rewrite Z2Nat.id, year_start_1970 by lia. replace (1970 + (y - 1970)) with y by lia. lia. }
  cbn [res_bind]. rewrite LEAP_CKR_leap, (rtctm_months_ok y m d Hv). cbn [res_bind].
  assert (1 <= d <= 31) as Hd by (destruct Hv as [Hm Hd]; unfold mlen in Hd; pose proof (days_of_31 (leap y) m); lia). destruct Hv as [Hm _].
  assert ((3600 * h + 60 * mi + s) mod 3600 = 60 * mi + s) as -> by zdiv. assert ((3600 * h + 60 * mi + s) / 3600 = h) as -> by zdiv.
  assert ((60 * mi + s) mod 60 = s) as -> by zdiv. assert ((60 * mi + s) / 60 = mi) as -> by zdiv.
  replace (before (leap y) m + (d - 1) - before (leap y) m + 1) with d by lia. by rewrite !wrap_small by lia.
Qed.

(** the seconds [time_stamp] counts for a valid date are those of the calendar, and
    [time_rtctm] turns them back into the date. *)
Theorem rtc_time_roundtrip (t : rtc_tm) :
  1970 <= year t < 11000000 -> valid (year t) (month t - 1) (day t) -> valid_time (hour t) (minute t) (second t) ->
  exists ts, time_stamp t = Ok ts /\ ts = seconds (year t) (month t - 1) (day t) (hour t) (minute t) (second t) /\ time_rtctm ts = Ok t.
Proof.
  intros Hy Hv Ht. eexists. split; [by apply time_stamp_ok|]. split; [done|]. rewrite time_rtctm_ok by (done || lia). destruct t. cbn. do 2 f_equal. lia.
Qed.

Lemma rtc_time_roundtrip_witness : exists ts, time_stamp (Rtc_tm 59 58 23 29 2 2024) = Ok ts /\ ts = seconds 2024 1 29 23 58 59 /\ time_rtctm ts = Ok (Rtc_tm 59 58 23 29 2 2024).
Proof.
  apply (rtc_time_roundtrip (Rtc_tm 59 58 23 29 2 2024)).
  - cbn. lia.
  - split; [cbn; lia|]. split; vm_compute; congruence.
  - cbn. unfold valid_time. lia.
Defined.

(** ** The C library *)

Lemma floor_fix x n : 0 < n -> (if Z.rem x n <? 0 then (Z.quot x n - 1, Z.rem x n + n) else (Z.quot x n, Z.rem x n)) = (x / n, x mod n).
Proof.
  intros Hn. pose proof (Z.quot_rem' x n) as E. pose proof (Z.rem_bound_abs x n ltac:(lia)) as Hr. case_if; f_equal.
  - apply Z.div_unique_pos with (Z.rem x n + n); lia.
  - apply Z.mod_unique_pos with (Z.quot x n - 1); lia.
  - apply Z.div_unique_pos with (Z.rem x n); lia.
  - apply Z.mod_unique_pos with (Z.quot x n); lia.
Qed.

Lemma floor_rem x n : 0 < n -> (if Z.rem x n <? 0 then Z.rem x n + n else Z.rem x n) = x mod n.
Proof. intros Hn. pose proof (floor_fix x n Hn) as E. case_if; by injection E. Qed.

(** A date counted from the first of March 2000, in cycles of 400, 100, 4 and 1 years. *)
Lemma cycles y m d : valid y m d -> exists a b c e k,
  0 <= b < 4 /\ 0 <= c < 25 /\ 0 <= e < 4 /\ 0 <= k < 366 /\ (k = 365 -> e = 3 /\ (c < 24 \/ b = 3)) /\
  day_number y m d = 11017 + (146097 * a + 36524 * b + 1461 * c + 365 * e + k) /\
  y = 2000 + 400 * a + 100 * b + 4 * c + e + (if m <? 2 then 1 else 0) /\
  k = (if m <? 2 then 306 + before (leap y) m + (d - 1) else before false m - 59 + (d - 1)).
Proof.
  intros Hv. pose proof Hv as [Hm Hd]. set (Y := if m <? 2 then y - 1 else y). set (k := if m <? 2 then 306 + before (leap y) m + (d - 1) else before false m - 59 + (d - 1)).
  exists ((Y - 2000) / 400), ((Y - 2000) mod 400 / 100), ((Y - 2000) mod 100 / 4), ((Y - 2000) mod 4), k.
  assert (0 <= k < 366 /\ (k = 365 -> m = 1 /\ leap y = true)) as [Hk Hk365].
  { clear Hv. unfold k, mlen in *. each_month Hm; destruct (leap y); cbn; lia. }
  assert (day_number y m d = 365 * (Y - 1970) + leaps Y - leaps 1969 + 59 + k) as E.
  { unfold day_number. rewrite month_start_before by done. unfold k, Y. pose proof (year_start_succ y) as Es. unfold year_start in *. replace (y + 1 - 1) with y in Es by lia.
    unfold ylen in Es. destruct (Z.ltb_spec m 2); [lia|]. assert (before (leap y) m = before false m + (if leap y then 1 else 0)) as ->; [|destruct (leap y); lia].
    unfold before. rewrite (proj2 (Z.ltb_lt 1 m)) by lia. destruct (leap y); cbn; lia. }
  rewrite E. clear E. unfold leaps. change (1969 / 4) with 492. change (1969 / 100) with 19. change (1969 / 400) with 4.
  split_and!; try done; try zdiv.
  - intros Ek. destruct (Hk365 Ek) as [-> Hl]. unfold Y, leap in *. cbn in *. bool_facts. apply orb_true_iff in H0. destruct H0; bool_facts; zdiv.
  - unfold Y. case_if; zdiv.
Qed.

Lemma gm_months_ok lp m d : 0 <= m < 12 -> 1 <= d <= days_of lp m -> gm_months 12 0 lp (before lp m + (d - 1)) = Ok (m, d - 1).
Proof.
  intros Hm Hd. apply zz_eqb_eq. apply (each_day_ok (fun lp m d => zz_eqb (gm_months 12 0 lp (before lp m + (d - 1))) (Ok (m, d - 1)))); [vm_compute; reflexivity|done|done].
Qed.

(** The day [gmtime_r] does not know: the 29th of February of a year 4 after a century that is no
    leap year. *)
Definition lost_day (y m d : Z) : Prop := m = 1 /\ d = 29 /\ y mod 100 = 4 /\ y mod 400 <> 4.

(** What [gmtime_r] takes for a leap year, in the four cycles. *)
Definition gm_leap (b c e k : Z) : bool := ((Z.rem (if k =? 365 then 4 else e) 4 =? 0) && negb (c =? 0)) || (b =? 0).

(** The steps of [gmtime_r] up to the day of the year. *)
Lemma gm_cycles b c e k : 0 <= b < 4 -> 0 <= c < 25 -> 0 <= e < 4 -> 0 <= k < 366 -> (k = 365 -> e = 3 /\ (c < 24 \/ b = 3)) ->
  let D := 36524 * b + 1461 * c + 365 * e + k in
  (if Z.quot D 36524 =? 4 then Z.quot D 36524 - 1 else Z.quot D 36524) = b /\
  (if Z.quot (D - b * 36524) 1461 =? 25 then Z.quot (D - b * 36524) 1461 - 1 else Z.quot (D - b * 36524) 1461) = c /\
  D - b * 36524 - c * 1461 = 365 * e + k /\ Z.quot (365 * e + k) 365 = (if k =? 365 then 4 else e).
Proof.
  intros Hb Hc He Hk H365 D. split_and!.
  - rewrite Z.quot_div_nonneg by lia. assert (D / 36524 = b \/ (D / 36524 = 4 /\ b = 3)) as [->|[-> ->]]; [unfold D; zdiv| |done]. case_if; lia.
  - replace (D - b * 36524) with (1461 * c + 365 * e + k) by (unfold D; lia). rewrite Z.quot_div_nonneg by lia. assert ((1461 * c + 365 * e + k) / 1461 = c) as -> by zdiv. case_if; lia.
  - unfold D. lia.
  - rewrite Z.quot_div_nonneg by lia. case_if; zdiv.
Qed.

Lemma gm_day lp y m d e k : 0 <= m < 12 -> 1 <= d <= mlen y m -> k = (if m <? 2 then 306 + before (leap y) m + (d - 1) else before false m - 59 + (d - 1)) ->
  (if 365 + Z.b2z lp <=? k + (31 + 28 + Z.b2z lp) then (k + (31 + 28 + Z.b2z lp) - (365 + Z.b2z lp), e + 1) else (k + (31 + 28 + Z.b2z lp), e)) =
  (before lp m + (d - 1), e + (if m <? 2 then 1 else 0)).
Proof.
  intros Hm Hd ->. each_month Hm; destruct lp, (leap y); cbn in *; case_if; f_equal; lia.
Qed.

Lemma gm_leap_day a b c e k y m d : valid y m d -> ~ lost_day y m d -> 0 <= b < 4 -> 0 <= c < 25 -> (k = 365 -> e = 3 /\ (c < 24 \/ b = 3)) ->
  y = 2000 + 400 * a + 100 * b + 4 * c + e + (if m <? 2 then 1 else 0) -> k = (if m <? 2 then 306 + before (leap y) m + (d - 1) else before false m - 59 + (d - 1)) ->
  d <= days_of (gm_leap b c e k) m.
Proof.
  intros [Hm Hd] Hlost Hb Hc H365 Ey Ek. unfold mlen, days_of in *. destruct (Z.eqb_spec m 1) as [->|]; [|by apply Hd].
  destruct (decide (d = 29)) as [->|]; [|destruct (gm_leap b c e k), (leap y); lia]. assert (k = 365) as -> by (rewrite Ek; reflexivity). destruct (H365 eq_refl) as [-> Hcb].
  enough (gm_leap b c 3 365 = true) as -> by lia. unfold gm_leap. cbn [Z.eqb]. destruct (Z.eqb_spec c 0) as [->|]; [|done]. destruct (Z.eqb_spec b 0) as [->|]; [done|].
  exfalso. apply Hlost. unfold lost_day. cbn in Ey. split_and!; zdiv.
Qed.

Lemma gmtime_ok y m d h mi s : valid y m d -> valid_time h mi s -> INT_MIN <= y - 1900 <= INT_MAX -> ~ lost_day y m d ->
  exists yd, gmtime_r (seconds y m d h mi s) = Ok (Some (Tm s mi h d m (y - 1900) ((day_number y m d + 4) mod 7) yd)).
Proof.
  intros Hv (Hh & Hmi & Hs) Hy Hlost. unfold INT_MIN, INT_MAX in Hy. destruct (cycles y m d Hv) as (a & b & c & e & k & Hb & Hc & He & Hk & H365 & ED & Ey & Ek). destruct Hv as [Hm Hd].
  unfold gmtime_r, seconds. rewrite ED. set (R := 36524 * b + 1461 * c + 365 * e + k). replace (146097 * a + 36524 * b + 1461 * c + 365 * e + k) with (146097 * a + R) by (unfold R; lia).
  assert (0 <= R < 146097) as HR by (unfold R; lia). set (sod := 3600 * h + 60 * mi + s). cbv zeta.
  replace (86400 * (11017 + (146097 * a + R)) + 3600 * h + 60 * mi + s - LEAPOCH) with (86400 * (146097 * a + R) + sod) by (unfold sod, LEAPOCH; lia).
  assert (-6000000 <= a <= 6000000) as Ha by (destruct (m <? 2); lia).
  rewrite signed_small by (change (2 ^ (64 - 1)) with 9223372036854775808; unfold sod; lia). rewrite floor_fix by (unfold TS_DAY; lia). unfold TS_DAY. change (60 * 60 * 24) with 86400.
  assert ((86400 * (146097 * a + R) + sod) / 86400 = 146097 * a + R) as -> by (unfold sod; zdiv). assert ((86400 * (146097 * a + R) + sod) mod 86400 = sod) as -> by (unfold sod; zdiv).
  change (365 * 400 + 97) with 146097. change (365 * 100 + 24) with 36524. change (365 * 4 + 1) with 1461.
  rewrite floor_rem, floor_fix by lia. assert ((146097 * a + R) / 146097 = a) as -> by zdiv. assert ((146097 * a + R) mod 146097 = R) as -> by zdiv.
  pose proof (gm_cycles b c e k Hb Hc He Hk H365) as G. cbv zeta in G. fold R in G. destruct G as (-> & -> & -> & ->). fold (gm_leap b c e k). set (lp := gm_leap b c e k).
  assert (365 * e + k - (if (if k =? 365 then 4 else e) =? 4 then (if k =? 365 then 4 else e) - 1 else if k =? 365 then 4 else e) * 365 = k) as ->.
  { destruct (Z.eqb_spec k 365); [destruct H365; [done|]; cbn; lia|]. destruct (Z.eqb_spec e 4); lia. }
  assert ((if (if k =? 365 then 4 else e) =? 4 then (if k =? 365 then 4 else e) - 1 else if k =? 365 then 4 else e) = e) as ->.
  { destruct (Z.eqb_spec k 365); [destruct H365; [done|]; cbn; lia|]. destruct (Z.eqb_spec e 4); lia. }
  rewrite (gm_day lp y m d e k Hm Hd Ek). replace (100 + (e + (if m <? 2 then 1 else 0)) + 4 * c + 100 * b + 400 * a) with (y - 1900) by lia.
  unfold INT_MAX, INT_MIN. rewrite !(proj2 (Z.ltb_ge _ _)) by lia. cbn [orb].
  assert (d <= days_of lp m) as Hdl by (apply (gm_leap_day a b c e k y m d); done). rewrite gm_months_ok by lia. cbn [res_bind]. eexists. do 2 f_equal.
  assert (sod = 3600 * h + 60 * mi + s) as -> by done. rewrite !Z.quot_div_nonneg, !Z.rem_mod_nonneg by (try apply Z.div_pos; lia).
  f_equal; zdiv.
Qed.

Lemma carry_small x n : 0 <= x < n -> carry x n = 0.
Proof. intros Hx. unfold carry. rewrite (proj2 (Z.ltb_ge _ _)) by lia. by rewrite Z.quot_small by lia. Qed.

Lemma int_id x : INT_MIN <= x <= INT_MAX -> i32 x = x.
Proof. unfold INT_MIN, INT_MAX. intros. apply signed_small; [lia|]. change (2 ^ (32 - 1)) with (2 ^ 31). lia. Qed.

#[local] Ltac ints := rewrite ?int_id by (unfold INT_MIN, INT_MAX in *; lia).

Lemma monthlen_mlen y m : 0 <= m < 12 -> monthlen m y = Ok (mlen y m).
Proof.
  intros Hm. unfold monthlen. rewrite Z.rem_small, isleap_leap by lia. rewrite (proj2 (Z.ltb_ge _ _)) by lia. each_month Hm; destruct (leap y); reflexivity.
Qed.

(** A time whose fields are in range is left as it is. *)
Lemma norm_time_valid fuel y m d h mi s wd yd : valid y m d -> valid_time h mi s -> INT_MIN <= y - 1900 -> y <= INT_MAX ->
  norm_time (S fuel) (Tm s mi h d m (y - 1900) wd yd) = Ok (Some (Tm s mi h d m (y - 1900) wd yd)).
Proof.
  intros [Hm Hd] (Hh & Hmi & Hs) Hy1 Hy2. pose proof (days_of_31 (leap y) m) as H31. fold (mlen y m) in H31. unfold norm_time. cbn [tm_sec tm_min tm_hour tm_mday tm_mon tm_year tm_wday tm_yday].
  rewrite (carry_small s) by lia. rewrite Z.add_0_r, (carry_small mi) by lia. rewrite Z.add_0_r, (carry_small h) by lia.
  replace (y - 1900 + 1900) with y by lia. change (i32 (0 * 60)) with 0. change (i32 (0 * 24)) with 0. ints. cbn [dmy_loop].
  replace (m <? 0) with false by lia. replace (11 <? m) with false by lia. cbn [orb andb]. rewrite monthlen_mlen by done. cbn [res_bind].
  replace ((0 <=? d - 1 + 0) && (d - 1 + 0 <? mlen y m)) with true by lia. cbn [res_bind]. ints. do 3 f_equal; lia.
Qed.

Lemma seconds_range y m d h mi s : valid y m d -> valid_time h mi s -> INT_MIN <= y -> y <= INT_MAX -> - 2 ^ 60 <= seconds y m d h mi s < 2 ^ 60.
Proof.
  intros Hv (Hh & Hmi & Hs) H1 H2. pose proof (day_in_year y m d Hv) as [Hd1 Hd2]. unfold seconds, year_start, leaps, INT_MIN, INT_MAX in *. zdiv.
Qed.

Lemma leap_cnt_ok y : INT_MIN < y <= INT_MAX -> y <> 0 -> leap_cnt y = (leaps (y - 1) - leaps 1969, Z.b2z (leap y)).
Proof.
  intros Hr Hy. unfold leap_cnt. ints. unfold leap_1, leaps. rewrite !isleap_leap. change (Z.quot 1969 4 - Z.quot 1969 100 + Z.quot 1969 400) with 477. change (1969 / 4 - 1969 / 100 + 1969 / 400) with 477.
  case_if; f_equal.
  - rewrite !Z.quot_div_nonneg by lia. lia.
  - rewrite !Z.quot_div_nonneg by lia. rewrite (proj2 (Z.eqb_neq _ _)) by done. zdiv.
  - f_equal. unfold leap. destruct (Z.eqb_spec (- y mod 4) 0), (Z.eqb_spec (y mod 4) 0), (Z.eqb_spec (- y mod 100) 0), (Z.eqb_spec (y mod 100) 0), (Z.eqb_spec (- y mod 400) 0), (Z.eqb_spec (y mod 400) 0);
      cbn [negb andb orb]; try done; exfalso; zdiv.
Qed.

Lemma mktime_ok fuel y m d h mi s wd yd yd' : valid y m d -> valid_time h mi s -> INT_MIN <= y - 1900 -> y <= INT_MAX -> y <> 0 ->
  gmtime_r (seconds y m d h mi s) = Ok (Some (Tm s mi h d m (y - 1900) ((day_number y m d + 4) mod 7) yd')) ->
  mktime (S fuel) (Tm s mi h d m (y - 1900) wd yd) = Ok (Some (seconds y m d h mi s, Tm s mi h d m (y - 1900) ((day_number y m d + 4) mod 7) yd')).
Proof.
  intros Hv Ht Hy1 Hy2 Hy0 Eg. unfold mktime. rewrite norm_time_valid by done. cbn [res_bind].
  cbn [tm_sec tm_min tm_hour tm_mday tm_mon tm_year tm_wday tm_yday]. replace (y - 1900 + 1900) with y by lia. rewrite int_id by (unfold INT_MIN in *; lia).
  rewrite leap_cnt_ok by (done || (unfold INT_MIN in *; lia)). pose proof Hv as [Hm Hd].
  assert (aget s_mdays m = Ok (nth (Z.to_nat m) s_mdays 0)) as -> by (clear - Hm; each_month Hm; reflexivity). cbn [res_bind].
  assert (((y - 1970) * 365 + (leaps (y - 1) - leaps 1969) + (nth (Z.to_nat m) s_mdays 0 + (d - 1) + (if 1 <? m then Z.b2z (leap y) else 0))) * TS_DAY + h * TS_HOUR + (mi * TS_MINUTE + s) = seconds y m d h mi s) as Eres.
  { unfold seconds, day_number, year_start. rewrite month_start_before by done. unfold before, TS_DAY, TS_HOUR, TS_MINUTE. destruct (1 <? m), (leap y); cbn [andb Z.b2z]; lia. }
  pose proof (seconds_range y m d h mi s Hv Ht ltac:(unfold INT_MIN in *; lia) Hy2) as Hr. destruct Ht as (Hh & Hmi & Hs).
  pose proof (days_of_31 (leap y) m) as H31. fold (mlen y m) in H31.
  rewrite (int_id (d - 1)), (int_id (h * TS_HOUR)), (int_id (mi * TS_MINUTE)), (int_id (mi * TS_MINUTE + s)) by (unfold INT_MIN, INT_MAX, TS_HOUR, TS_MINUTE; lia).
  rewrite (signed_small 64 (_ * TS_DAY)), Eres, signed_small by (unfold TS_DAY, TS_HOUR, TS_MINUTE in *; lia).
  rewrite Eg. cbn [res_bind deref tm_sec tm_min tm_hour tm_mday tm_mon tm_year]. rewrite !Z.eqb_refl. reflexivity.
Qed.

(** C15: [gmtime_r] gives the date and time of the Gregorian calendar, with the day of the week,
    for every [tm_year] an [int] holds, and [mktime] counts its seconds again where the year
    itself, [tm_year + 1900], is an [int] as well.  Excepted are year 0 and the 29th of
    February of the leap years [gmtime_r] does not know: 2104, 2204, 2304 and those a multiple
    of 400 years away. *)
Theorem libc_time_roundtrip (y m d h mi s : Z) (fuel : nat) :
  valid y m d -> valid_time h mi s -> INT_MIN <= y - 1900 <= INT_MAX -> y <> 0 -> ~ lost_day y m d ->
  exists t, gmtime_r (seconds y m d h mi s) = Ok (Some t) /\
    tm_year t = y - 1900 /\ tm_mon t = m /\ tm_mday t = d /\ tm_hour t = h /\ tm_min t = mi /\ tm_sec t = s /\ tm_wday t = (day_number y m d + 4) mod 7 /\
    (y <= INT_MAX -> mktime (S fuel) t = Ok (Some (seconds y m d h mi s, t))).
Proof.
  intros Hv Ht Hy Hy0 Hl. destruct (gmtime_ok y m d h mi s Hv Ht Hy Hl) as (yd & E). exists (Tm s mi h d m (y - 1900) ((day_number y m d + 4) mod 7) yd). split_and!; try done.
  intros Hmax. apply mktime_ok; try done. lia.
Qed.

Lemma libc_time_roundtrip_witness : exists t, gmtime_r (seconds 1969 11 31 23 59 59) = Ok (Some t) /\
  tm_year t = 69 /\ tm_mon t = 11 /\ tm_mday t = 31 /\ tm_hour t = 23 /\ tm_min t = 59 /\ tm_sec t = 59 /\ tm_wday t = 3 /\
  mktime 1 t = Ok (Some (seconds 1969 11 31 23 59 59, t)).
Proof.
  destruct (libc_time_roundtrip 1969 11 31 23 59 59 0) as (t & Ht); cycle 5.
  { exists t. destruct Ht as (H1 & H2 & H3 & H4 & H5 & H6 & H7 & H8 & H9). split_and!; try assumption. apply H9. vm_compute. congruence. }
  - split; [lia|]. split; vm_compute; congruence.
  - unfold valid_time. lia.
  - split; vm_compute; congruence.
  - lia.
  - intros (Hm & _). lia.
Defined.

(** ** What goes wrong *)

(** the 29th of February 2104 is the first of March to [gmtime_r], and [mktime] of it ends
    the program with a failed assertion; [mktime] of January 32 is the fourth of February; and
    the first of March 2001 is day 60 of its year. *)
Theorem libc_time_slips :
  (exists t, gmtime_r (seconds 2104 1 29 0 0 0) = Ok (Some t) /\ tm_mon t = 2 /\ tm_mday t = 1) /\
  mktime 10 (Tm 0 0 0 29 1 204 0 0) = Fault AssertFailed /\
  (exists ts t, mktime 10 (Tm 0 0 0 32 0 123 0 0) = Ok (Some (ts, t)) /\ tm_mon t = 1 /\ tm_mday t = 4) /\
  (exists t, gmtime_r (seconds 2001 2 1 0 0 0) = Ok (Some t) /\ tm_yday t = month_start 2001 2 + 1).
Proof.
  split_and!.
  - eexists. split; [vm_compute; reflexivity|done].
  - vm_compute. reflexivity.
  - eexists _, _. split; [vm_compute; reflexivity|done].
  - eexists. split; [vm_compute; reflexivity|done].
Qed.
