(* ===== verification/Lock.v ===== *)
(** * Semaphores and locks: [kernel/lock.c]

    System calls run with interrupts masked on one processor, so tasks only interleave where
    one of them sleeps. A lock is modelled with the tasks that wait for it: [waiter] is the
    semaphore's list (a new waiter goes to the front and the front is woken first), [inside]
    the tasks in the loop of [sema_down], [asleep] those of them the scheduler will not run.  A
    signal wakes a waiter without taking it off the list ([task_unblock]); when such a task
    blocks again, here or on another list, its links are overwritten while its neighbours still
    use them, which is the fault [Panicked] of the model. *)
From Stdlib Require Import ZArith Lia List Bool.
From stdpp Require Import base list gmap.
From S2P Require Import Prelude.

#[local] Open Scope Z_scope.

Record sema := Sema { val : Z; waiter : list Z }.

#[export] Instance eta_sema : Eta sema := fun r => Sema (val r) (waiter r).

Record lock := Lock { holder : option Z; hrepeat : Z; lsema : sema; inside : gset Z; asleep : gset Z }.

#[export] Instance eta_lock : Eta lock := fun r => Lock (holder r) (hrepeat r) (lsema r) (inside r) (asleep r).

Definition sema_init (v : Z) : sema := Sema v [].

Definition lock_init (l : lock) : lock := l <| holder := None |> <| hrepeat := 0 |> <| lsema := sema_init 1 |>.

(** [sema_up]: the task made ready, if any. *)
Definition sema_up (s : sema) : res (option Z * sema) :=
  do! ASSERTK (val s =? 0) in
  let s := s <| val ::= fun v => i32 (v + 1) |> in
  do! ASSERTK (val s =? 1) in
  match waiter s with
  | [] => Ok (None, s)
  | p :: w => Ok (Some p, s <| waiter := w |>)
  end.

(** One turn of the loop of [sema_down]: [false] when the task went to sleep. The list is
    intrusive: a task already in it cannot be linked again. *)
Definition sema_down (s : sema) (p : Z) : res (bool * sema) :=
  if val s =? 0 then
    if bool_decide (p ∈ waiter s) then Fault Panicked
    else Ok (false, s <| waiter ::= cons p |>)
  else
    do! ASSERTK (val s =? 1) in
    let s := s <| val ::= fun v => i32 (v - 1) |> in
    do! ASSERTK (val s =? 0) in
    Ok (true, s).

(** The part of [lock_acquire] from [sema_down] on, entered again after each sleep. *)
Definition lock_enter (l : lock) (p : Z) : res (bool * lock) :=
  let! r := sema_down (lsema l) p in
  let '(got, s) := r in
  if got : bool then
    Ok (true, l <| lsema := s |> <| holder := Some p |> <| hrepeat := 1 |>
                <| inside ::= fun X => X ∖ {[p]} |>)
  else Ok (false, l <| lsema := s |> <| inside ::= union {[p]} |> <| asleep ::= union {[p]} |>).

Definition lock_acquire (l : lock) (p : Z) : res (bool * lock) :=
  if decide (holder l = Some p) then Ok (true, l <| hrepeat ::= fun n => u32 (n + 1) |>)
  else lock_enter l p.

Definition lock_release (l : lock) (p : Z) : res lock :=
  do! ASSERTK (bool_decide (holder l = Some p)) in
  if 1 <? hrepeat l then Ok (l <| hrepeat ::= fun n => u32 (n - 1) |>)
  else
    let l := l <| holder := None |> <| hrepeat := 0 |> in
    let! r := sema_up (lsema l) in
    let '(woken, s) := r in
    Ok (l <| lsema := s |> <| asleep ::= fun X => X ∖ match woken with Some q => {[q]} | None => ∅ end |>).

(** ** The tasks around a lock *)

Inductive lock_event :=
| Acquire (p : Z)
| Resume (p : Z)
| Release (p : Z)
| Signal (p : Z)
| Elsewhere (p : Z).

(** What can happen next: a task outside acquires, a ready waiter runs on, the holder releases, a
    signal wakes a sleeper, a task outside blocks on some other list.  Nesting stays below the
    counter's range. *)
Definition enabled (l : lock) (e : lock_event) : Prop :=
  match e with
  | Acquire p => (p ∉ inside l) /\ hrepeat l < 2 ^ 32 - 1
  | Resume p => p ∈ inside l /\ (p ∉ asleep l)
  | Release p => holder l = Some p /\ p ∉ inside l
  | Signal p => p ∈ asleep l
  | Elsewhere p => p ∉ inside l
  end.

Definition lock_step (l : lock) (e : lock_event) : res lock :=
  match e with
  | Acquire p => let! r := lock_acquire l p in Ok (snd r)
  | Resume p => let! r := lock_enter l p in Ok (snd r)
  | Release p => lock_release l p
  | Signal p => Ok (l <| asleep ::= fun X => X ∖ {[p]} |>)
  | Elsewhere p => if bool_decide (p ∈ waiter (lsema l)) then Fault Panicked else Ok l
  end.

Definition is_signal (e : lock_event) : bool := match e with Signal _ => true | _ => false end.

(** The states of a lock; [calm] ones are reached without a signal to a waiter. *)
Inductive reachable : bool -> lock -> Prop :=
| reach_init l : inside l = ∅ -> asleep l = ∅ -> reachable true (lock_init l)
| reach_step c l e l' : reachable c l -> enabled l e -> lock_step l e = Ok l' -> reachable (c && negb (is_signal e)) l'.

(** Held by one task or free, and the semaphore agrees; every sleeper is queued, once. *)
Record lock_safe (l : lock) : Prop := {
  li_held : match holder l with
            | Some p => val (lsema l) = 0 /\ 1 <= hrepeat l < 2 ^ 32 /\ p ∉ inside l
            | None => val (lsema l) = 1 /\ hrepeat l = 0
            end;
  li_queue : forall p, p ∈ asleep l -> p ∈ waiter (lsema l);
  li_nodup : NoDup (waiter (lsema l));
  li_asleep : asleep l ⊆ inside l }.

(** Moreover only sleepers are queued, and a free lock with tasks inside has one of them ready to
    take it. *)
Record lock_calm (l : lock) : Prop := {
  li_only : forall p, p ∈ waiter (lsema l) -> p ∈ asleep l;
  li_wake : holder l = None -> inside l <> ∅ -> exists p, p ∈ inside l /\ p ∉ asleep l }.

(** A task that is in the queue although it runs: a signal has woken it. *)
Definition stale (l : lock) (e : lock_event) : Prop :=
  match e with
  | Acquire p | Resume p | Elsewhere p => p ∈ waiter (lsema l) /\ p ∉ asleep l
  | _ => False
  end.

(** A step ends well, or links a task that is still in the queue. *)
Definition stepped (l : lock) (e : lock_event) : Prop :=
  match lock_step l e with
  | Ok l' => lock_safe l' /\ (lock_calm l -> is_signal e = false -> lock_calm l')
  | Fault f => f = Panicked /\ stale l e
  end.

Lemma i32_01 v : 0 <= v <= 1 -> i32 v = v.
Proof. intros. apply signed_small; lia. Qed.

(** Entering: the lock is taken, the task joins the queue, or it is in the queue already. *)
Lemma lock_enter_ok l p : lock_safe l -> holder l <> Some p -> p ∉ asleep l ->
  match lock_enter l p with
  | Ok r => lock_safe (snd r) /\ (lock_calm l -> lock_calm (snd r)) /\
      (if fst r then holder (snd r) = Some p /\ holder l = None
       else holder (snd r) = holder l /\ holder l <> None /\ p ∈ asleep (snd r))
  | Fault f => f = Panicked /\ p ∈ waiter (lsema l) /\ holder l <> None
  end.
Proof.
  intros [Hh Hq Hn Ha] Hne Hp. unfold lock_enter, sema_down. destruct (holder l) as [h|] eqn:Eh.
  - destruct Hh as (Hv & Hr & Hin). rewrite Hv. cbn [Z.eqb]. destruct (bool_decide_reflect (p ∈ waiter (lsema l))) as [Hw|Hw]; cbn [res_bind]; [done|]. cbn [fst snd]. split_and!; [| |cbn; done|done|cbn; set_solver].
    + split; cbn; rewrite ?Eh; [|set_solver|by apply NoDup_cons|set_solver]. split_and!; [done|lia|lia|set_solver].
    + intros [Ho _]. split; cbn; [|by rewrite Eh]. intros x [->|Hx]%elem_of_cons; [set_solver|]. specialize (Ho x Hx). set_solver.
  - destruct Hh as [Hv Hr]. rewrite Hv. change (1 =? 0) with false. change (1 =? 1) with true. cbn -[signed].
    rewrite Hv, i32_01 by lia. cbn -[signed]. split; [|split; [intros [Ho _]; by split|done]]. split; cbn -[signed]; [|done|done|set_solver].
    rewrite Hv, i32_01 by lia. split_and!; [done|lia|lia|set_solver].
Qed.

Lemma lock_release_ok l p : lock_safe l -> holder l = Some p ->
  total (lock_release l p) (fun l' => lock_safe l' /\ (lock_calm l -> lock_calm l') /\ holder l' = (if 1 <? hrepeat l then Some p else None)).
Proof.
  intros [Hh Hq Hn Ha] Eh. rewrite Eh in Hh. destruct Hh as (Hv & Hr & Hin). unfold lock_release.
  rewrite bool_decide_true by done. cbn [ASSERTK res_bind]. destruct (Z.ltb_spec 1 (hrepeat l)).
  - apply total_Ok. split_and!; [|intros [Ho _]; split; cbn; [done|by rewrite Eh]|done]. split; cbn; rewrite ?Eh; try done. rewrite wrap_small by lia. split_and!; [done|lia|lia|done].
  - unfold sema_up. cbn -[signed]. rewrite Hv. cbn -[signed]. rewrite i32_01 by lia. cbn -[signed].
    destruct (waiter (lsema l)) as [|q w] eqn:Ew; cbn -[signed]; apply total_Ok; (split_and!; [| |done]).
    + split; cbn -[signed]; rewrite ?Hv, ?Ew, ?i32_01 by lia; [done| |done|set_solver]. intros x [Hx _]%elem_of_difference. by apply Hq.
    + intros _. split; cbn -[signed]; rewrite ?Ew; [by intros ? ?%elem_of_nil|]. intros _ Hne. apply set_choose_L in Hne as [x Hx]. exists x. split; [done|]. intros [Hy _]%elem_of_difference. apply Hq in Hy. by apply elem_of_nil in Hy.
    + apply NoDup_cons in Hn as [Hqn Hn]. split; cbn -[signed]; rewrite ?Hv, ?i32_01 by lia; [done| |done|set_solver]. intros x [Hx Hne]%elem_of_difference. apply Hq, elem_of_cons in Hx as [->|Hx]; [set_solver|done].
    + intros [Ho _]. apply NoDup_cons in Hn as [Hqn _]. split; cbn -[signed].
      * intros x Hx. apply elem_of_difference. split; [apply Ho; rewrite Ew; by right|]. intros ->%elem_of_singleton. done.
      * intros _ _. exists q. split; [apply Ha, Ho; rewrite Ew; left|]. intros [_ Hx]%elem_of_difference. by apply Hx, elem_of_singleton.
Qed.

Lemma lock_step_ok l e : lock_safe l -> enabled l e -> stepped l e.
Proof.
  intros Hi He. pose proof (li_asleep _ Hi) as Ha. unfold stepped. destruct e as [p|p|p|p|p]; cbn [enabled lock_step] in He |- *.
  - destruct He as [Hp Hr]. unfold lock_acquire. destruct (decide (holder l = Some p)) as [Eh|Eh].
    + cbn [res_bind snd]. destruct Hi as [Hh Hq Hn _]. split; [|intros [Ho _] _; split; cbn; [done|by rewrite Eh]]. split; cbn; rewrite ?Eh in *; try done.
      destruct Hh as (Hv & Hr' & Hin). rewrite wrap_small by lia. split_and!; [done|lia|lia|done].
    + assert (p ∉ asleep l) as Hpa by set_solver. pose proof (lock_enter_ok l p Hi Eh Hpa) as Hen. destruct (lock_enter l p) as [[got l']|f]; cbn [res_bind snd] in *; [by destruct Hen as (? & ? & _); split; auto|by destruct Hen as (-> & ? & _)].
  - destruct He as [Hp Hs]. assert (holder l <> Some p) as Eh.
    { intros E. pose proof (li_held _ Hi) as Hh. rewrite E in Hh. by destruct Hh as (_ & _ & ?). }
    pose proof (lock_enter_ok l p Hi Eh Hs) as Hen. destruct (lock_enter l p) as [[got l']|f]; cbn [res_bind snd] in *; [by destruct Hen as (? & ? & _); split; auto|by destruct Hen as (-> & ? & _)].
  - destruct He as [Hp _]. destruct (lock_release_ok l p Hi Hp) as (l' & -> & H1 & H2 & _). split; auto.
  - destruct Hi as [Hh Hq Hn _]. split; [|done]. split; cbn; [done|set_solver|done|set_solver].
  - destruct (bool_decide_reflect (p ∈ waiter (lsema l))) as [Hw|Hw]; [|split; auto]. split; [done|]. cbn. split; [done|set_solver].
Qed.

Lemma reachable_ok c l : reachable c l -> lock_safe l /\ (c = true -> lock_calm l).
Proof.
  induction 1 as [l Hin Has|c l e l' _ [IH1 IH2] He Hs].
  - split; [split; cbn; rewrite ?Hin, ?Has; [done|set_solver|constructor|done]|]. intros _. split; cbn; [by intros ? ?%elem_of_nil|by rewrite Hin].
  - pose proof (lock_step_ok l e IH1 He) as H. unfold stepped in H. rewrite Hs in H. destruct H as [H1 H2]. split; [done|]. intros [Hc Hn%negb_true_iff]%andb_true_iff. auto.
Qed.

(** C8: Whatever the tasks do, and whatever signals wake them while they wait, a lock has at most one
    holder in every state, the semaphore agrees with it, and every task that sleeps for the lock
    is in its queue; no assertion of [lock.c] fails in any next step, and the only step that goes
    wrong is that of a task which a signal has woken and which blocks while the queue still holds
    it.  As long as no signal wakes a waiter, no step goes wrong, only sleepers are queued, and
    whenever the lock is free some waiting task is ready to take it: no wake-up is lost. *)
Theorem lock_mutual_exclusion c l : reachable c l ->
  lock_safe l /\ (forall e, enabled l e -> stepped l e) /\
  (c = true -> lock_calm l /\ forall e, enabled l e -> total (lock_step l e) lock_safe).
Proof.
  intros [Hs Hc]%reachable_ok. split_and!; [done|intros e He; by apply lock_step_ok|]. intros Ec. specialize (Hc Ec). split; [done|]. intros e He. pose proof (lock_step_ok l e Hs He) as H. unfold stepped in H.
  destruct (lock_step l e) as [l'|f]; [exists l'; by destruct H|]. exfalso. destruct H as [_ H]. destruct e as [p|p|p|p|p]; try done; cbn in H; destruct H as [H1 H2]; by apply (li_only _ Hc) in H1.
Qed.

(** A lock held by task 1, acquired by task 2, which sleeps. *)
Definition demo_lock : lock :=
  match (let! l := lock_step (lock_init (Lock None 0 (Sema 0 []) ∅ ∅)) (Acquire 1) in lock_step l (Acquire 2)) with
  | Ok l => l
  | Fault _ => Lock None 0 (Sema 0 []) ∅ ∅
  end.

Lemma lock_mutual_exclusion_witness : lock_safe demo_lock /\ lock_calm demo_lock.
Proof.
  destruct (lock_mutual_exclusion true demo_lock) as (H1 & _ & H2); [|split; [exact H1|by apply H2]].
  eapply (reach_step true (match lock_step (lock_init (Lock None 0 (Sema 0 []) ∅ ∅)) (Acquire 1) with Ok l => l | Fault _ => Lock None 0 (Sema 0 []) ∅ ∅ end) (Acquire 2)).
  - eapply (reach_step true (lock_init (Lock None 0 (Sema 0 []) ∅ ∅)) (Acquire 1)).
    + apply reach_init; reflexivity.
    + split; [vm_compute; intros E; discriminate E|vm_compute; reflexivity].
    + vm_compute. reflexivity.
  - split; [vm_compute; intros E; discriminate E|vm_compute; reflexivity].
  - vm_compute. reflexivity.
Defined.

(** A signal to a task that waits for a lock damages the queue: if the task runs on before the
    lock is released, it links itself into the queue it is still in, whatever state the lock is in
    and whoever holds it. *)
Theorem signalled_waiter_corrupts c l p : reachable c l -> p ∈ asleep l -> holder l <> None ->
  exists l', lock_step l (Signal p) = Ok l' /\ reachable false l' /\ enabled l' (Resume p) /\ lock_step l' (Resume p) = Fault Panicked.
Proof.
  intros Hr Hp Hh. pose proof (reachable_ok c l Hr) as [Hs _]. eexists. split; [reflexivity|]. split; [|split]; cbn.
  - rewrite <- (andb_false_r c). by apply (reach_step c l (Signal p)).
  - split; [by apply (li_asleep _ Hs)|set_solver].
  - pose proof (li_held _ Hs) as Hv. destruct (holder l) as [h|]; [|done]. destruct Hv as [Hv _]. unfold lock_enter, sema_down. cbn. rewrite Hv. cbn. rewrite bool_decide_true; [done|]. by apply (li_queue _ Hs).
Qed.

Lemma signalled_waiter_corrupts_witness : exists l', lock_step demo_lock (Signal 2) = Ok l' /\ reachable false l' /\ enabled l' (Resume 2) /\ lock_step l' (Resume 2) = Fault Panicked.
Proof.
  apply (signalled_waiter_corrupts true demo_lock 2); [|vm_compute; reflexivity|vm_compute; discriminate].
  eapply (reach_step true (match lock_step (lock_init (Lock None 0 (Sema 0 []) ∅ ∅)) (Acquire 1) with Ok l => l | Fault _ => Lock None 0 (Sema 0 []) ∅ ∅ end) (Acquire 2)).
  - eapply (reach_step true (lock_init (Lock None 0 (Sema 0 []) ∅ ∅)) (Acquire 1)).
    + apply reach_init; reflexivity.
    + split; [vm_compute; intros E; discriminate E|vm_compute; reflexivity].
    + vm_compute. reflexivity.
  - split; [vm_compute; intros E; discriminate E|vm_compute; reflexivity].
  - vm_compute. reflexivity.
Defined.
