(* ===== verification/Buffer.v ===== *)
(** * The block cache: [kernel/dev/blk/buffer.c]

    The buffers by address, the hash table of the blocks that are cached, the list of unused
    buffers and the two kinds of lock.  The bytes at [blk] are kept in the record of their
    buffer.  A call runs until it returns or sleeps on a lock; the part after a sleep is a
    definition of its own.  The drivers are an interface ([BlkDev]). *)
From Stdlib Require Import ZArith Lia List Bool.
From stdpp Require Import base list gmap.
From S2P Require Import Prelude Lock.

#[local] Open Scope Z_scope.

(** [buffer_t]; [data] is the memory at [b_blk]. *)
Record buffer := Buffer {
  dirty : bool;
  b_idx : Z;
  b_siz : Z;
  b_blk : Z;
  b_phy : Z;
  b_dev : Z;
  b_lock : lock;
  data : list Z
}.

#[export] Instance eta_buffer : Eta buffer := fun b =>
  Buffer (dirty b) (b_idx b) (b_siz b) (b_blk b) (b_phy b) (b_dev b) (b_lock b) (data b).

(** Block devices: the number of the driver, [BLKSSZGET], the transfer of [cnt] sectors from
    sector [no] on, and what uninitialised memory holds. *)
Class BlkDev (D : Type) := {
  major : Z -> Z;
  ssz : Z -> Z;
  dev_read : D -> Z -> Z -> Z -> res (list Z * D);
  dev_write : D -> Z -> Z -> list Z -> Z -> res D;
  raw : Z -> Z;
  junk_buf : buffer
}.

(** [tbl] is [all]; a new [buffer_t] is put at [brk], new pages at [vp] and [pp]. *)
Record bstate (D : Type) := Bstate {
  bufs : gmap Z buffer;
  tbl : list (list Z);
  fre : list Z;
  lkall : lock;
  brk : Z;
  vp : Z;
  pp : Z;
  disk : D
}.
Arguments Bstate {D} bufs tbl fre lkall brk vp pp disk.
Arguments bufs {D} b.
Arguments tbl {D} b.
Arguments fre {D} b.
Arguments lkall {D} b.
Arguments brk {D} b.
Arguments vp {D} b.
Arguments pp {D} b.
Arguments disk {D} b.

#[export] Instance eta_bstate (D : Type) : Eta (bstate D) := fun s =>
  Bstate (bufs s) (tbl s) (fre s) (lkall s) (brk s) (vp s) (pp s) (disk s).

(** How a call ends: with the buffer, or asleep on [lkall] or on the lock of a buffer. *)
Inductive bout := Got (b : Z) | SleepAll | SleepBuf (b : Z).

(** A lock no task waits for, before [lock_init]. *)
Definition idle_lock : lock := Lock None 0 (sema_init 0) ∅ ∅.

Section Buffer.
Context {D : Type} `{BlkDev D}.

Definition bget (st : bstate D) (b : Z) : res buffer := deref (bufs st !! b).

Definition bset (st : bstate D) (b : Z) (r : buffer) : bstate D := st <| bufs := <[b := r]> (bufs st) |>.

(** [hash]: the exclusive or is an [unsigned], the key 64 bits wide. *)
Definition hash (dev idx : Z) : Z := Z.lxor (major dev) (u32 idx).

Definition slot (dev idx : Z) : nat := Z.to_nat (hash dev idx mod 32).

Fixpoint find_in (st : bstate D) (l : list Z) (dev idx : Z) : res (option Z) :=
  match l with
  | [] => Ok None
  | b :: l =>
      let! r := bget st b in
      if (b_dev r =? dev) && (b_idx r =? u32 idx) then Ok (Some b) else find_in st l dev idx
  end.

Definition find_all (st : bstate D) (dev idx : Z) : res (option Z) :=
  let! l := aget (tbl st) (Z.of_nat (slot dev idx)) in
  find_in st l dev idx.

(** The loop of [fill_fre]: [k] buffers from offset [i * bsiz] of the new pages on. *)
Fixpoint fill_loop (k : nat) (st : bstate D) (va pa i bsiz : Z) : bstate D :=
  match k with
  | O => st
  | S k =>
      let a := brk st in
      let n := junk_buf <| b_siz := bsiz |> <| b_blk := va + i * bsiz |> <| b_phy := pa + i * bsiz |>
                        <| data := map (fun j => raw (va + i * bsiz + j)) (seqZ 0 bsiz) |> in
      fill_loop k ((bset st a n) <| brk := a + 1 |> <| fre ::= cons a |>) va pa (i + 1) bsiz
  end.

Definition fill_fre (st : bstate D) (bsiz : Z) : bstate D :=
  let x := PAGE_SIZ / bsiz in
  let '(nr, x) := if x =? 0 then (bsiz / PAGE_SIZ, 1) else (1, x) in
  let va := vp st in
  let pa := pp st in
  let st := st <| vp := va + nr * PAGE_SIZ |> <| pp := pa + nr * PAGE_SIZ |> in
  fill_loop (Z.to_nat x) st va pa 0 bsiz.

Definition mark_fre (st : bstate D) (b : Z) : bstate D := st <| fre ::= cons b |>.

(** The search of [find_fre]: the buffer and the list without it. *)
Fixpoint take_fre (st : bstate D) (l : list Z) (bsiz : Z) : res (option (Z * list Z)) :=
  match l with
  | [] => Ok None
  | b :: l =>
      let! r := bget st b in
      if b_siz r =? bsiz then Ok (Some (b, l))
      else
        let! x := take_fre st l bsiz in
        Ok (option_map (fun y => (fst y, b :: snd y)) x)
  end.

Fixpoint find_fre (fuel : nat) (st : bstate D) (bsiz : Z) : res (Z * bstate D) :=
  match fuel with
  | O => Fault OutOfFuel
  | S fuel =>
      let st := match fre st with [] => fill_fre st bsiz | _ => st end in
      let! r := take_fre st (fre st) bsiz in
      match r with
      | Some (b, l) => Ok (b, st <| fre := l |>)
      | None => find_fre fuel (fill_fre st bsiz) bsiz
      end
  end.

(** The block is not cached: a buffer for it, filled by the driver and entered in the table. *)
Definition bread_new (st : bstate D) (dev siz idx : Z) : res (Z * bstate D) :=
  let! r := find_fre 2 st siz in
  let '(b, st) := r in
  let! n := bget st b in
  let n := n <| b_dev := dev |> <| b_idx := u32 idx |> <| dirty := false |> <| b_lock := lock_init idle_lock |> in
  let scale := Z.quot siz (ssz dev) in
  let! r := dev_read (disk st) dev (u32 (idx * scale)) scale in
  let '(bytes, d) := r in
  let n := n <| data := bytes ++ drop (length bytes) (data n) |> in
  let st := (bset st b n) <| disk := d |> in
  let! l := aget (tbl st) (Z.of_nat (slot dev idx)) in
  let! t := aset (tbl st) (Z.of_nat (slot dev idx)) (b :: l) in
  Ok (b, st <| tbl := t |>).

(** From the lock of the buffer on; entered again after a sleep with [lock_enter]. *)
Definition bread_own (acquire : lock -> Z -> res (bool * lock)) (st : bstate D) (p b : Z) : res (bout * bstate D) :=
  let! n := bget st b in
  let! r := acquire (b_lock n) p in
  let '(got, l) := r in
  let st := bset st b (n <| b_lock := l |>) in
  if got : bool then
    let! l := lock_release (lkall st) p in
    Ok (Got b, st <| lkall := l |>)
  else Ok (SleepBuf b, st).

(** [bread] by task [p], from [lkall] on; [acquire] is [lock_enter] after a sleep. *)
Definition bread_with (acquire : lock -> Z -> res (bool * lock)) (st : bstate D) (p dev siz idx : Z) : res (bout * bstate D) :=
  let! r := acquire (lkall st) p in
  let '(got, l) := r in
  let st := st <| lkall := l |> in
  if got : bool then
    let! o := find_all st dev idx in
    let! r := match o with
              | Some b => Ok (b, st)
              | None => bread_new st dev siz idx
              end in
    let '(b, st) := r in
    bread_own lock_acquire st p b
  else Ok (SleepAll, st).

Definition bread (st : bstate D) (p dev siz idx : Z) : res (bout * bstate D) := bread_with lock_acquire st p dev siz idx.

Definition bdirty (st : bstate D) (b : Z) (v : bool) : res (bstate D) :=
  let! n := bget st b in Ok (bset st b (n <| dirty := v |>)).

Definition bwrite (st : bstate D) (b : Z) : res (bstate D) :=
  let! n := bget st b in
  if negb (dirty n) then Ok st
  else
    let scale := Z.quot (b_siz n) (ssz (b_dev n)) in
    let! d := dev_write (disk st) (b_dev n) (u32 (b_idx n * scale)) (data n) scale in
    Ok (st <| disk := d |>).

Definition brelse (st : bstate D) (p b : Z) : res (bstate D) :=
  let! st := bwrite st b in
  let! n := bget st b in
  let! l := lock_release (b_lock n) p in
  Ok (bset st b (n <| b_lock := l |>)).

Definition bdma_alloc (st : bstate D) (p siz : Z) : res (Z * bstate D) :=
  let! r := find_fre 2 st siz in
  let '(b, st) := r in
  let! n := bget st b in
  let! r := lock_acquire (lock_init idle_lock) p in
  let '(_, l) := r in
  Ok (b, bset st b (n <| b_dev := 0 |> <| b_idx := 0 |> <| dirty := false |> <| b_lock := l |>)).

Definition bdma_free (st : bstate D) (p b : Z) : res (bstate D) :=
  let! n := bget st b in
  let! l := lock_release (b_lock n) p in
  Ok (mark_fre (bset st b (n <| b_lock := l |>)) b).

(** [buffer_init], on the zeroed table of the kernel image. *)
Definition buffer_init (brk va pa : Z) (d : D) : bstate D :=
  Bstate ∅ (replicate 32 []) [] (lock_init idle_lock) brk va pa d.

(** What a file system does with a block: to look at it, or to replace its bytes. *)
Inductive bop := BRead (dev siz idx : Z) | BWrite (dev siz idx : Z) (bytes : list Z).

(** [bread] with the size the caller asks for, the use of the bytes, and [brelse]. *)
Definition bstep (p : Z) (op : bop) (st : bstate D) : res (list Z * bstate D) :=
  match op with
  | BRead dev siz idx =>
      let! r := bread st p dev siz idx in
      match r with
      | (Got b, st) =>
          let! n := bget st b in
          let! st := brelse st p b in
          Ok (data n, st)
      | _ => Fault Panicked
      end
  | BWrite dev siz idx bytes =>
      let! r := bread st p dev siz idx in
      match r with
      | (Got b, st) =>
          let! n := bget st b in
          let st := bset st b (n <| data := bytes |>) in
          let! st := bdirty st b true in
          let! st := brelse st p b in
          Ok ([], st)
      | _ => Fault Panicked
      end
  end.

Fixpoint bruns (p : Z) (ops : list bop) (st : bstate D) : res (list (list Z) * bstate D) :=
  match ops with
  | [] => Ok ([], st)
  | op :: ops =>
      let! r := bstep p op st in
      let! q := bruns p ops (snd r) in
      Ok (fst r :: fst q, snd q)
  end.

End Buffer.

(** ** The drivers *)

(** Sectors of devices that share none: a transfer reads and writes the sectors it names. *)
Class BlkLaws (D : Type) `{BlkDev D} := {
  sector : D -> Z -> Z -> list Z;
  ssz_pos : forall dev, 0 < ssz dev;
  sector_len : forall d dev n, length (sector d dev n) = Z.to_nat (ssz dev);
  read_law : forall d dev no cnt, 0 <= no -> 0 <= cnt ->
    dev_read d dev no cnt = Ok (concat (map (sector d dev) (seqZ no cnt)), d);
  write_law : forall d dev no bytes cnt, 0 <= no -> 0 <= cnt -> length bytes = Z.to_nat (cnt * ssz dev) ->
    exists d', dev_write d dev no bytes cnt = Ok d' /\
      forall dev' n, sector d' dev' n =
        if (dev' =? dev) && (no <=? n) && (n <? no + cnt) then take (Z.to_nat (ssz dev)) (drop (Z.to_nat ((n - no) * ssz dev)) bytes) else sector d dev' n
}.

Lemma concat_len {A} (f : Z -> list A) s l : (forall n, length (f n) = s) -> length (concat (map f l)) = (length l * s)%nat.
Proof. intros Hf. induction l as [|n l IH]; cbn [map concat length]; [done|]. rewrite length_app, IH, Hf. lia. Qed.

(** Bytes cut into pieces and put together again. *)
Lemma concat_chunks (s : nat) (bytes : list Z) (n : nat) : forall k : nat,
  concat (map (fun i => take s (drop (i * s) bytes)) (seq k n)) = take (n * s) (drop (k * s) bytes).
Proof.
  induction n as [|n IH]; intros k; cbn [seq map concat]; [by rewrite take_0|]. rewrite IH. replace (S n * s)%nat with (s + n * s)%nat by lia.
  rewrite <- (take_take_drop (drop (k * s) bytes) s (n * s)). f_equal. rewrite drop_drop. do 2 f_equal. lia.
Qed.

Section Cache.
Context {D : Type} `{BlkLaws D} (bs : Z -> Z) (p : Z).

(** Sectors in a block of a device. *)
Definition scale (dev : Z) : Z := bs dev / ssz dev.

(** The sizes of blocks are multiples of the sizes of sectors. *)
Definition sizes_ok : Prop := forall dev, exists k, 0 < k /\ bs dev = k * ssz dev.

Definition block (d : D) (dev idx : Z) : list Z := concat (map (sector d dev) (seqZ (idx * scale dev) (scale dev))).

(** A block the 32 bits of its first sector reach. *)
Definition reachable_block (dev idx : Z) : Prop := 0 <= idx < 2 ^ 32 /\ idx * scale dev < 2 ^ 32.

Context (Hbs : sizes_ok).

Lemma scale_ok dev : 0 < scale dev /\ bs dev = scale dev * ssz dev /\ Z.quot (bs dev) (ssz dev) = scale dev.
Proof.
  destruct (Hbs dev) as (k & Hk & E). pose proof (ssz_pos dev). unfold scale. rewrite E. rewrite Z.div_mul by lia. split; [done|]. split; [done|].
  rewrite Z.quot_div_nonneg by nia. apply Z.div_mul. lia.
Qed.

Lemma block_len d dev idx : length (block d dev idx) = Z.to_nat (bs dev).
Proof.
  unfold block. rewrite (concat_len _ (Z.to_nat (ssz dev))) by (intros; apply sector_len). destruct (scale_ok dev) as (Hs & -> & _). pose proof (ssz_pos dev).
  rewrite length_seqZ. lia.
Qed.

Lemma block_written d d' dev idx bytes : length bytes = Z.to_nat (bs dev) ->
  (forall dev' n, sector d' dev' n = if (dev' =? dev) && (idx * scale dev <=? n) && (n <? idx * scale dev + scale dev)
     then take (Z.to_nat (ssz dev)) (drop (Z.to_nat ((n - idx * scale dev) * ssz dev)) bytes) else sector d dev' n) ->
  block d' dev idx = bytes /\ forall dev' idx', (dev', idx') <> (dev, idx) -> block d' dev' idx' = block d dev' idx'.
Proof.
  intros Hl Hd. destruct (scale_ok dev) as (Hs & Eb & _). pose proof (ssz_pos dev) as Hz. split.
  - unfold block. assert (map (sector d' dev) (seqZ (idx * scale dev) (scale dev)) = map (fun i => take (Z.to_nat (ssz dev)) (drop (i * Z.to_nat (ssz dev)) bytes)) (seq 0 (Z.to_nat (scale dev)))) as ->.
    { unfold seqZ. change (@fmap list list_fmap) with (@map). rewrite map_map. apply map_ext_in. intros i Hi%in_seq. rewrite Hd.
      replace (dev =? dev) with true by lia. replace (idx * scale dev <=? Z.of_nat i + idx * scale dev) with true by lia. replace (Z.of_nat i + idx * scale dev <? idx * scale dev + scale dev) with true by lia.
      cbn [andb]. do 2 f_equal. nia. }
    rewrite concat_chunks, drop_0. apply take_ge. rewrite Hl, Eb. nia.
  - intros dev' idx' Hne. unfold block. f_equal. apply map_ext_in. intros n Hn. apply list_elem_of_In, elem_of_seqZ in Hn. rewrite Hd.
    destruct (Z.eqb_spec dev' dev) as [->|]; [|done]. assert (idx' <> idx) as Hi by congruence. assert (idx' < idx \/ idx < idx') as [|] by lia.
    + replace (idx * scale dev <=? n) with false by nia. done.
    + replace (n <? idx * scale dev + scale dev) with false by nia. by rewrite andb_false_r.
Qed.

(** ** Free locks *)

Definition lock_free (l : lock) : Prop := l = lock_init idle_lock.

Lemma lock_cycle l : lock_free l -> exists l1, lock_acquire l p = Ok (true, l1) /\ lock_release l1 p = Ok l.
Proof.
  intros ->. exists (Lock (Some p) 1 (sema_init 0) (∅ ∖ {[p]}) ∅). split; [reflexivity|]. unfold lock_release. cbn [holder hrepeat].
  rewrite bool_decide_true by done. cbn [ASSERTK res_bind]. change (1 <? 1) with false. cbv iota.
  change (sema_up _) with (Ok (@None Z, sema_init 1)). cbn [res_bind]. unfold upd, lock_init, idle_lock. cbn [eta_lock inside asleep holder hrepeat lsema].
  change (Ok (Lock None 0 (sema_init 1) (∅ ∖ {[p]}) (∅ ∖ ∅)) = Ok (Lock None 0 (sema_init 1) ∅ ∅)). do 2 f_equal; set_solver.
Qed.

(** ** The state of the cache *)

Definition in_tbl (st : bstate D) (b : Z) : Prop := exists j l, tbl st !! j = Some l /\ b ∈ l.

(** A buffer in the table between two calls: it holds its block as the disk does. *)
Record cached (d : D) (r : buffer) : Prop := {
  ca_siz : b_siz r = bs (b_dev r);
  ca_lock : lock_free (b_lock r);
  ca_data : data r = block d (b_dev r) (b_idx r);
  ca_idx : reachable_block (b_dev r) (b_idx r)
}.

Record cache_ok (st : bstate D) : Prop := {
  co_tbl : length (tbl st) = 32%nat;
  co_in : forall j l b, tbl st !! j = Some l -> b ∈ l -> exists r, bufs st !! b = Some r /\ slot (b_dev r) (b_idx r) = j /\ cached (disk st) r;
  co_uniq : forall b1 b2 r1 r2, in_tbl st b1 -> in_tbl st b2 -> bufs st !! b1 = Some r1 -> bufs st !! b2 = Some r2 ->
    b_dev r1 = b_dev r2 -> b_idx r1 = b_idx r2 -> b1 = b2;
  co_fre : forall b, b ∈ fre st -> ~ in_tbl st b /\ exists r, bufs st !! b = Some r /\ length (data r) = Z.to_nat (b_siz r);
  co_nodup : NoDup (fre st);
  co_brk : forall b r, bufs st !! b = Some r -> b < brk st
}.

Lemma bucket_lt dev idx : (slot dev idx < 32)%nat.
Proof. unfold slot. pose proof (Z.mod_pos_bound (hash dev idx) 32 ltac:(lia)). lia. Qed.

Lemma in_tbl_node (st : bstate D) b : cache_ok st -> in_tbl st b -> exists r, bufs st !! b = Some r /\ cached (disk st) r.
Proof. intros Hc (j & l & Hl & Hb). destruct (co_in _ Hc j l b Hl Hb) as (r & Hr & _ & Hca). by exists r. Qed.

Lemma u32_idx dev idx : reachable_block dev idx -> u32 idx = idx.
Proof. intros [Hi _]. by apply wrap_small. Qed.

(** The search in the table. *)
Lemma find_in_ok (st : bstate D) l dev idx : u32 idx = idx -> (forall b, b ∈ l -> exists r, bufs st !! b = Some r) ->
  exists o, find_in st l dev idx = Ok o /\
    match o with
    | Some b => b ∈ l /\ exists r, bufs st !! b = Some r /\ b_dev r = dev /\ b_idx r = idx
    | None => forall b r, b ∈ l -> bufs st !! b = Some r -> ~ (b_dev r = dev /\ b_idx r = idx)
    end.
Proof.
  intros Hi. induction l as [|b l IH]; intros Hl; cbn [find_in].
  - exists None. split; [done|]. by intros b r ?%elem_of_nil.
  - destruct (Hl b ltac:(left)) as (r & Hr). unfold bget. rewrite Hr. cbn [deref res_bind]. rewrite Hi. case_if.
    + exists (Some b). split; [done|]. split; [left|]. by exists r.
    + destruct IH as (o & -> & Ho); [intros c Hc; apply Hl; by right|]. exists o. split; [done|]. destruct o as [c|].
      * destruct Ho as [Hin Hr']. split; [by right|done].
      * intros c x [->|Hin]%elem_of_cons Hx; [|by apply (Ho c x)]. rewrite Hr in Hx. injection Hx as <-. intros [E1 E2]. rewrite E1, E2, !Z.eqb_refl in E. done.
Qed.

Lemma find_all_ok (st : bstate D) dev idx : cache_ok st -> reachable_block dev idx ->
  exists o, find_all st dev idx = Ok o /\
    match o with
    | Some b => in_tbl st b /\ exists r, bufs st !! b = Some r /\ b_dev r = dev /\ b_idx r = idx
    | None => forall b r, in_tbl st b -> bufs st !! b = Some r -> ~ (b_dev r = dev /\ b_idx r = idx)
    end.
Proof.
  intros Hc Hb. unfold find_all. pose proof (bucket_lt dev idx) as Hs. destruct (aget_lt (tbl st) (Z.of_nat (slot dev idx))) as (l & -> & Hl); [rewrite (co_tbl _ Hc); lia|]. cbn [res_bind].
  rewrite Nat2Z.id in Hl. destruct (find_in_ok st l dev idx (u32_idx _ _ Hb)) as (o & -> & Ho).
  { intros b Hin. destruct (co_in _ Hc _ _ _ Hl Hin) as (r & Hr & _). by exists r. }
  exists o. split; [done|]. destruct o as [b|].
  - destruct Ho as [Hin Hr]. split; [by exists (slot dev idx), l|done].
  - intros b r (j & l' & Hl' & Hin) Hr [E1 E2]. destruct (co_in _ Hc _ _ _ Hl' Hin) as (r' & Hr' & Hj & _). rewrite Hr in Hr'. injection Hr' as <-. rewrite E1, E2 in Hj. subst j.
    rewrite Hl in Hl'. injection Hl' as <-. by apply (Ho b r Hin Hr).
Qed.

(** ** Unused buffers *)

(** A new buffer that is in no list of the table. *)
Lemma add_free (st : bstate D) r st' : cache_ok st -> length (data r) = Z.to_nat (b_siz r) ->
  st' = (bset st (brk st) r) <| brk := brk st + 1 |> <| fre ::= cons (brk st) |> -> cache_ok st'.
Proof.
  intros Hc Hr ->. assert (forall b x, bufs st !! b = Some x -> b <> brk st) as Hne by (intros b x Hx ->; pose proof (co_brk _ Hc _ _ Hx); lia).
  split; cbn; try apply Hc.
  - intros j l b Hl Hb. destruct (co_in _ Hc j l b Hl Hb) as (x & Hx & Hj). exists x. split; [|done]. rewrite lookup_insert_ne; [done|]. apply not_eq_sym. by eapply Hne.
  - intros b1 b2 r1 r2 H1 H2 E1 E2. destruct (in_tbl_node st b1 Hc H1) as (x1 & Hx1 & _), (in_tbl_node st b2 Hc H2) as (x2 & Hx2 & _).
    rewrite lookup_insert_ne in E1 by (apply not_eq_sym; by eapply Hne). rewrite lookup_insert_ne in E2 by (apply not_eq_sym; by eapply Hne). by apply (co_uniq _ Hc).
  - intros b [->|Hb]%elem_of_cons.
    + split; [|exists r; by rewrite lookup_insert_eq]. intros Hin. destruct (in_tbl_node st _ Hc Hin) as (x & Hx & _). by apply (Hne _ _ Hx).
    + destruct (co_fre _ Hc b Hb) as [Hn (x & Hx & Hl)]. split; [done|]. exists x. split; [|done]. rewrite lookup_insert_ne; [done|]. apply not_eq_sym. by eapply Hne.
  - constructor; [|apply Hc]. intros Hin. destruct (co_fre _ Hc _ Hin) as [_ (x & Hx & _)]. by apply (Hne _ _ Hx).
  - intros b x. destruct (decide (b = brk st)) as [->|Hb]; [lia|]. rewrite lookup_insert_ne by done. intros Hx. pose proof (co_brk _ Hc _ _ Hx). lia.
Qed.

Lemma fill_loop_ok bsiz va pa k : forall st i, cache_ok st -> 
  cache_ok (fill_loop k st va pa i bsiz) /\ tbl (fill_loop k st va pa i bsiz) = tbl st /\ disk (fill_loop k st va pa i bsiz) = disk st /\ lkall (fill_loop k st va pa i bsiz) = lkall st /\ (forall c, in_tbl st c -> bufs (fill_loop k st va pa i bsiz) !! c = bufs st !! c) /\
  ((exists b l r, fre st = b :: l /\ bufs st !! b = Some r /\ b_siz r = bsiz) \/ (0 < k)%nat -> exists b l r, fre (fill_loop k st va pa i bsiz) = b :: l /\ bufs (fill_loop k st va pa i bsiz) !! b = Some r /\ b_siz r = bsiz).
Proof.
  induction k as [|k IH]; intros st i Hc; cbn [fill_loop]; [split_and!; try done; intros [H1|H1]; [done|lia]|].
  set (n := junk_buf <| b_siz := _ |> <| b_blk := _ |> <| b_phy := _ |> <| data := _ |>).
  match goal with |- context [fill_loop k ?s] => set (st1 := s) end.
  destruct (IH st1 (i + 1)) as (H1 & H2 & H3 & H4 & H45 & H5).
  { apply (add_free st n); [done| |done]. cbn. rewrite length_map, length_seqZ. done. }
  split_and!; try done.
  { intros c Hin. rewrite H45 by done. cbn. apply lookup_insert_ne. intros <-. destruct (in_tbl_node st _ Hc Hin) as (x & Hx & _). pose proof (co_brk _ Hc _ _ Hx). lia. }
  intros _. apply H5. left. exists (brk st), (fre st), n. split; [done|]. split; [cbn; by rewrite lookup_insert_eq|done].
Qed.

Lemma fill_fre_ok (st : bstate D) bsiz : cache_ok st -> 0 < bsiz -> exists b l r, let st' := fill_fre st bsiz in
  cache_ok st' /\ tbl st' = tbl st /\ disk st' = disk st /\ lkall st' = lkall st /\ (forall c, in_tbl st c -> bufs st' !! c = bufs st !! c) /\ fre st' = b :: l /\ bufs st' !! b = Some r /\ b_siz r = bsiz.
Proof.
  intros Hc Hb. unfold fill_fre. set (x := PAGE_SIZ / bsiz). assert (exists nr y, (if x =? 0 then (bsiz / PAGE_SIZ, 1) else (1, x)) = (nr, y) /\ 0 < y) as (nr & y & -> & Hy).
  { assert (0 <= x) by (apply Z.div_pos; unfold PAGE_SIZ; lia). case_if; eexists _, _; (split; [done|lia]). }
  match goal with |- context [fill_loop _ ?s] => set (st1 := s) end.
  destruct (fill_loop_ok bsiz (vp st) (pp st) (Z.to_nat y) st1 0) as (H1 & H2 & H3 & H4 & H45 & H5); [by destruct Hc; split|].
  destruct H5 as (b & l & r & H5 & H6 & H7); [right; lia|]. exists b, l, r. split_and!; done.
Qed.

Lemma take_fre_ok (st : bstate D) l bsiz : (forall b, b ∈ l -> exists r, bufs st !! b = Some r) -> exists o, take_fre st l bsiz = Ok o /\
  match o with
  | Some (b, l') => exists l1 l2 r, l = l1 ++ b :: l2 /\ l' = l1 ++ l2 /\ bufs st !! b = Some r /\ b_siz r = bsiz
  | None => forall b r, b ∈ l -> bufs st !! b = Some r -> b_siz r <> bsiz
  end.
Proof.
  induction l as [|b l IH]; intros Hl; cbn [take_fre].
  - exists None. split; [done|]. by intros b r ?%elem_of_nil.
  - destruct (Hl b ltac:(left)) as (r & Hr). unfold bget. rewrite Hr. cbn [deref res_bind]. case_if.
    + exists (Some (b, l)). split; [done|]. by exists [], l, r.
    + destruct IH as (o & -> & Ho); [intros c Hc; apply Hl; by right|]. cbn [res_bind]. eexists. split; [done|]. destruct o as [[c l']|]; cbn.
      * destruct Ho as (l1 & l2 & x & -> & -> & Hx & Es). exists (b :: l1), l2, x. done.
      * intros c x [->|Hin]%elem_of_cons Hx; [by simplify_eq|by eapply Ho].
Qed.

(** [find_fre] takes a buffer out of the list; at the second try there is one. *)
Lemma find_fre_ok (st : bstate D) siz : cache_ok st -> 0 < siz -> exists b st' r, find_fre 2 st siz = Ok (b, st') /\
  cache_ok st' /\ tbl st' = tbl st /\ disk st' = disk st /\ lkall st' = lkall st /\ (forall c, in_tbl st c -> bufs st' !! c = bufs st !! c) /\ bufs st' !! b = Some r /\ b_siz r = siz /\ length (data r) = Z.to_nat siz /\ ~ in_tbl st' b /\ b ∉ fre st'.
Proof.
  intros Hc Hs.
  assert (forall st0 l b r l1 l2, cache_ok st0 -> fre st0 = l1 ++ b :: l2 -> l = l1 ++ l2 -> bufs st0 !! b = Some r -> b_siz r = siz ->
    cache_ok (st0 <| fre := l |>) /\ length (data r) = Z.to_nat siz /\ ~ in_tbl (st0 <| fre := l |>) b /\ b ∉ l) as Htake.
  { intros st0 l b r l1 l2 Hc0 Ef -> Hr Er. pose proof (co_nodup _ Hc0) as Hnd. rewrite Ef in Hnd. destruct (co_fre _ Hc0 b) as [Hn (x & Hx & Hlx)]; [rewrite Ef; set_solver|]. rewrite Hr in Hx. injection Hx as <-.
    apply NoDup_app in Hnd as (Hn1 & Hd & Hn2). apply NoDup_cons in Hn2 as [Hb2 Hn2]. split_and!; [|by rewrite <- Er|done|].
    - destruct Hc0; split; cbn; try done.
      + intros c Hin. apply co_fre0. rewrite Ef. apply elem_of_app. apply elem_of_app in Hin as [?|?]; [by left|right; by right].
      + apply NoDup_app. split_and!; [done| |done]. intros c H1 H2. apply (Hd c H1). by right.
    - intros [H1|H2]%elem_of_app; [|done]. apply (Hd b H1). left. }
  assert (exists st0, (match fre st with [] => fill_fre st siz | _ :: _ => st end) = st0 /\ cache_ok st0 /\ tbl st0 = tbl st /\ disk st0 = disk st /\ lkall st0 = lkall st /\ (forall c, in_tbl st c -> bufs st0 !! c = bufs st !! c)) as (st0 & E0 & Hc0 & Ht0 & Hd0 & Hl0 & Hb0).
  { destruct (fre st); [|by exists st]. destruct (fill_fre_ok st siz Hc Hs) as (b & l & r & H1 & H2 & H3 & H4 & H5 & _). by eexists. }
  cbn [find_fre]. rewrite E0. destruct (take_fre_ok st0 (fre st0) siz) as (o & -> & Ho).
  { intros b Hb. destruct (co_fre _ Hc0 b Hb) as [_ (r & Hr & _)]. by exists r. }
  cbn [res_bind]. destruct o as [[b l]|].
  - destruct Ho as (l1 & l2 & r & Ef & El & Hr & Er). destruct (Htake st0 l b r l1 l2 Hc0 Ef El Hr Er) as (H1 & H2 & H3 & H4). exists b, (st0 <| fre := l |>), r. split_and!; done.
  - clear Ho. destruct (fill_fre_ok st0 siz Hc0 Hs) as (b & l & r & H1 & H2 & H3 & H4 & H45 & H5 & H6 & H7). rewrite H5. cbv beta iota zeta. rewrite H5. cbn [take_fre]. unfold bget. rewrite H6. cbn [deref res_bind]. rewrite H7, Z.eqb_refl. cbn [res_bind].
    destruct (Htake (fill_fre st0 siz) l b r [] l H1 H5 eq_refl H6 H7) as (G1 & G2 & G3 & G4). exists b, ((fill_fre st0 siz) <| fre := l |>), r. split_and!; try done; cbn; try congruence.
    intros c Hin. rewrite H45; [by apply Hb0|]. destruct Hin as (j & k & Hj & Hk). exists j, k. by rewrite Ht0.
Qed.

(** ** The calls *)

Lemma bs_pos dev : 0 < bs dev.
Proof. destruct (scale_ok dev) as (Hs & -> & _). pose proof (ssz_pos dev). nia. Qed.

Lemma insert_in_tbl (st : bstate D) j l b t : tbl st !! j = Some l -> t = <[j := b :: l]> (tbl st) ->
  forall c, (exists i k, t !! i = Some k /\ c ∈ k) <-> c = b \/ in_tbl st c.
Proof.
  intros Hj -> c. pose proof (lookup_lt_Some _ _ _ Hj) as Hlt. split.
  - intros (i & k & Hi & Hin). destruct (decide (i = j)) as [->|Hne].
    + rewrite list_lookup_insert_eq in Hi by done. injection Hi as <-. apply elem_of_cons in Hin as [->|Hin]; [by left|right; by exists j, l].
    + rewrite list_lookup_insert_ne in Hi by done. right. by exists i, k.
  - intros [->|(i & k & Hi & Hin)].
    + exists j, (b :: l). rewrite list_lookup_insert_eq by done. split; [done|left].
    + destruct (decide (i = j)) as [->|Hne].
      * rewrite Hj in Hi. injection Hi as <-. exists j, (b :: l). rewrite list_lookup_insert_eq by done. split; [done|by right].
      * exists i, k. by rewrite list_lookup_insert_ne.
Qed.

(** A block that was not cached is entered. *)
Lemma enter_ok (st : bstate D) b r l : cache_ok st -> ~ in_tbl st b -> b ∉ fre st -> is_Some (bufs st !! b) -> cached (disk st) r ->
  (forall c x, in_tbl st c -> bufs st !! c = Some x -> ~ (b_dev x = b_dev r /\ b_idx x = b_idx r)) -> tbl st !! slot (b_dev r) (b_idx r) = Some l ->
  cache_ok ((bset st b r) <| tbl := <[slot (b_dev r) (b_idx r) := b :: l]> (tbl st) |>).
Proof.
  intros Hc Hn Hf [old Hold] Hca Hnew Hl. pose proof (insert_in_tbl st _ l b _ Hl eq_refl) as Hin.
  assert (forall c, in_tbl st c -> c <> b) as Hne by (intros c Hin' ->; done).
  split; cbn.
  - rewrite length_insert. apply Hc.
  - intros j k c Hk Hck. destruct (decide (c = b)) as [->|Hcb].
    + exists r. rewrite lookup_insert_eq. split; [done|]. split; [|done]. destruct (decide (j = slot (b_dev r) (b_idx r))) as [->|Hj]; [done|].
      rewrite list_lookup_insert_ne in Hk by done. exfalso. apply Hn. by exists j, k.
    + rewrite lookup_insert_ne by done. destruct (decide (j = slot (b_dev r) (b_idx r))) as [->|Hj].
      * rewrite list_lookup_insert_eq in Hk by (by apply (lookup_lt_Some _ _ _ Hl)). injection Hk as <-. apply elem_of_cons in Hck as [|Hck]; [done|]. by apply (co_in _ Hc _ l).
      * rewrite list_lookup_insert_ne in Hk by done. by apply (co_in _ Hc _ k).
  - intros b1 b2 r1 r2 H1 H2 E1 E2 Ed Ei. apply Hin in H1, H2. destruct H1 as [->|H1], H2 as [->|H2]; [done| | |].
    + rewrite lookup_insert_eq in E1. injection E1 as <-. rewrite lookup_insert_ne in E2 by (apply not_eq_sym; by apply Hne). exfalso. by apply (Hnew b2 r2 H2 E2).
    + rewrite lookup_insert_eq in E2. injection E2 as <-. rewrite lookup_insert_ne in E1 by (apply not_eq_sym; by apply Hne). exfalso. by apply (Hnew b1 r1 H1 E1).
    + rewrite lookup_insert_ne in E1 by (apply not_eq_sym; by apply Hne). rewrite lookup_insert_ne in E2 by (apply not_eq_sym; by apply Hne). by apply (co_uniq _ Hc b1 b2 r1 r2).
  - intros c Hcf. destruct (co_fre _ Hc c Hcf) as [Hct (x & Hx & Hlx)]. assert (c <> b) as Hcb by (intros ->; done). split; [intros Ht; apply Hin in Ht as [?|?]; done|].
    exists x. by rewrite lookup_insert_ne.
  - apply Hc.
  - intros c x. destruct (decide (c = b)) as [->|Hcb]; [intros _; by apply (co_brk _ Hc _ _ Hold)|]. rewrite lookup_insert_ne by done. apply Hc.
Qed.

Lemma bread_new_ok (st : bstate D) dev idx : cache_ok st -> reachable_block dev idx ->
  (forall c x, in_tbl st c -> bufs st !! c = Some x -> ~ (b_dev x = dev /\ b_idx x = idx)) ->
  exists b st' r, bread_new st dev (bs dev) idx = Ok (b, st') /\ cache_ok st' /\ lkall st' = lkall st /\ disk st' = disk st /\ in_tbl st' b /\
    bufs st' !! b = Some r /\ b_dev r = dev /\ b_idx r = idx.
Proof.
  intros Hc Hb Hnew. destruct (find_fre_ok st (bs dev) Hc (bs_pos dev)) as (b & st1 & n & E & Hc1 & Ht & Hd & Hlk & Hsame & Hn & Es & Hlen & Hnt & Hnf).
  unfold bread_new. rewrite E. cbn [res_bind]. unfold bget at 1. rewrite Hn. cbn [deref res_bind]. destruct (scale_ok dev) as (Hs & Ebs & Eq). rewrite Eq.
  rewrite (u32_idx dev idx Hb). destruct Hb as [Hi Hsi]. rewrite (wrap_small 32) by nia. rewrite read_law by nia. cbn [res_bind]. fold (block (disk st1) dev idx).
  match goal with |- context [bset st1 b ?x] => set (r := x) end.
  assert (data r = block (disk st1) dev idx) as Hdata.
  { unfold r. cbn. rewrite block_len, drop_ge by lia. apply app_nil_r. }
  assert (((bset st1 b r) <| disk := disk st1 |>) = bset st1 b r) as -> by (by destruct st1).
  pose proof (bucket_lt dev idx) as Hslot. destruct (aget_lt (tbl st1) (Z.of_nat (slot dev idx))) as (l & El & Hl); [rewrite (co_tbl _ Hc1); lia|]. rewrite Nat2Z.id in Hl.
  assert (tbl (bset st1 b r) = tbl st1) as Etb by done. rewrite Etb, El. cbn [res_bind]. rewrite aset_lt by (rewrite (co_tbl _ Hc1); lia). cbn [res_bind]. rewrite Nat2Z.id.
  eexists b, _, r. split; [reflexivity|]. split.
  - apply (enter_ok st1 b r l); [done|done|done|by exists n| | |done].
    + split; [done|done|done|]. unfold r. cbn. done.
    + intros c x Hin Hx. assert (in_tbl st c) as Hin' by (destruct Hin as (j & k & Hj & Hk); exists j, k; by rewrite <- Ht). rewrite Hsame in Hx by done. by apply (Hnew c x).
  - split_and!; try done; [|cbn; by rewrite lookup_insert_eq]. exists (slot dev idx), (b :: l). cbn. rewrite list_lookup_insert_eq by (by apply (lookup_lt_Some _ _ _ Hl)). split; [done|left].
Qed.

(** [bread] on free locks: the buffer with the block, now locked. *)
Lemma bread_locked_ok (st : bstate D) dev idx : cache_ok st -> lock_free (lkall st) -> reachable_block dev idx ->
  exists b st1 r l1, bread st p dev (bs dev) idx = Ok (Got b, bset st1 b (r <| b_lock := l1 |>)) /\
    cache_ok st1 /\ lkall st1 = lkall st /\ disk st1 = disk st /\ in_tbl st1 b /\ bufs st1 !! b = Some r /\ b_dev r = dev /\ b_idx r = idx /\ lock_release l1 p = Ok (b_lock r).
Proof.
  intros Hc Hlk Hb. unfold bread, bread_with. destruct (lock_cycle _ Hlk) as (l & -> & Erel). cbn [res_bind]. set (st0 := st <| lkall := l |>).
  assert (cache_ok st0) as Hc0 by (by destruct Hc; split).
  assert (exists b st1 r, (let! o := find_all st0 dev idx in match o with Some b => Ok (b, st0) | None => bread_new st0 dev (bs dev) idx end) = Ok (b, st1) /\
    cache_ok st1 /\ lkall st1 = lkall st0 /\ disk st1 = disk st0 /\ in_tbl st1 b /\ bufs st1 !! b = Some r /\ b_dev r = dev /\ b_idx r = idx) as (b & st1 & r & E & Hc1 & Hl1 & Hd1 & Hin & Hr & Hdev & Hidx).
  { destruct (find_all_ok st0 dev idx Hc0 Hb) as ([b|] & -> & Ho); cbn [res_bind].
    - destruct Ho as (Hin & r & Hr & H1 & H2). by exists b, st0, r.
    - by apply bread_new_ok. }
  destruct (find_all st0 dev idx) as [o|] eqn:Ef; cbn [res_bind] in E |- *; [|done]. rewrite E. cbn [res_bind]. unfold bread_own, bget. rewrite Hr. cbn [deref res_bind].
  destruct (in_tbl_node st1 b Hc1 Hin) as (r' & Hr' & Hca). rewrite Hr in Hr'. injection Hr' as <-. destruct (lock_cycle _ (ca_lock _ _ Hca)) as (l1 & -> & Erel1). cbn [res_bind].
  assert (lkall (bset st1 b (r <| b_lock := l1 |>)) = l) as -> by (cbn; by rewrite Hl1). rewrite Erel. cbn [res_bind].
  exists b, (st1 <| lkall := lkall st |>), r, l1. split; [done|]. split; [by destruct Hc1; split|]. done.
Qed.

(** [brelse] of a buffer whose bytes are now [w]: a dirty one is written to the disk. *)
Lemma brelse_ok (st : bstate D) b r l1 w f : cache_ok st -> in_tbl st b -> bufs st !! b = Some r -> lock_release l1 p = Ok (b_lock r) ->
  length w = Z.to_nat (bs (b_dev r)) -> (f = false -> w = data r) ->
  exists st2, brelse (bset st b (r <| data := w |> <| dirty := f |> <| b_lock := l1 |>)) p b = Ok st2 /\ cache_ok st2 /\ lkall st2 = lkall st /\
    block (disk st2) (b_dev r) (b_idx r) = w /\ forall dev idx, (dev, idx) <> (b_dev r, b_idx r) -> block (disk st2) dev idx = block (disk st) dev idx.
Proof.
  intros Hc Hin Hr Hrel Hw Hf. set (r' := r <| data := w |> <| dirty := f |> <| b_lock := l1 |>).
  destruct (in_tbl_node st b Hc Hin) as (x & Hx & Hca). rewrite Hr in Hx. injection Hx as <-. destruct Hca as [Hsiz Hlock Hdata Hidx].
  assert (exists d', bwrite (bset st b r') b = Ok ((bset st b r') <| disk := d' |>) /\ block d' (b_dev r) (b_idx r) = w /\
    forall dev idx, (dev, idx) <> (b_dev r, b_idx r) -> block d' dev idx = block (disk st) dev idx) as (d' & Ew & Hd1 & Hd2).
  { unfold bwrite, bget. cbn [bset bufs upd]. rewrite lookup_insert_eq. cbn [deref res_bind]. change (dirty r') with f. change (b_siz r') with (b_siz r). change (b_dev r') with (b_dev r).
    change (b_idx r') with (b_idx r). change (data r') with w. destruct f; cbn [negb].
    - destruct (scale_ok (b_dev r)) as (Hs & Eb & Eq). rewrite Hsiz, Eq. destruct Hidx as [Hi Hsi]. rewrite wrap_small by nia.
      destruct (write_law (disk st) (b_dev r) (b_idx r * scale (b_dev r)) w (scale (b_dev r))) as (d' & E & Hsec); [nia|lia|by rewrite Hw, Eb|].
      exists d'. split; [|by apply block_written]. change (disk (bset st b r')) with (disk st). by rewrite E.
    - exists (disk st). split; [by destruct st|]. split; [by rewrite Hf|done]. }
  unfold brelse. rewrite Ew. cbn [res_bind]. unfold bget. cbn [bset bufs upd]. rewrite lookup_insert_eq. cbn [deref res_bind]. cbn [r' b_lock upd]. rewrite Hrel. cbn [res_bind].
  eexists. split; [reflexivity|]. split; [|done].
  assert (forall c, c <> b -> forall y, bufs st !! c = Some y -> in_tbl st c -> cached (disk st) y -> cached d' y) as Hother.
  { intros c Hcb y Hy Hcin [H1 H2 H3 H4]. split; try done. rewrite Hd2; [done|]. intros [= E1 E2]. apply Hcb. by apply (co_uniq _ Hc c b y r). }
  split; cbn; try apply Hc.
  - intros j k c Hj Hk. rewrite insert_insert_eq. destruct (co_in _ Hc j k c Hj Hk) as (y & Hy & Hs & Hcy). destruct (decide (c = b)) as [->|Hcb].
    + rewrite Hr in Hy. injection Hy as <-. eexists. rewrite lookup_insert_eq. split; [reflexivity|]. split; [done|]. split; cbn; done.
    + exists y. rewrite lookup_insert_ne by done. split; [done|]. split; [done|]. apply (Hother c Hcb y Hy); [by exists j, k|done].
  - intros b1 b2 r1 r2 H1 H2. rewrite insert_insert_eq. intros E1 E2 Ed Ei. 
    assert (forall c y, in_tbl st c -> <[b := r' <| b_lock := b_lock r |>]> (bufs st) !! c = Some y -> exists z, bufs st !! c = Some z /\ b_dev z = b_dev y /\ b_idx z = b_idx y) as Hget.
    { intros c y Hc' Hy. destruct (decide (c = b)) as [->|Hcb]; [rewrite lookup_insert_eq in Hy; injection Hy as <-; by exists r|rewrite lookup_insert_ne in Hy by done; by exists y]. }
    destruct (Hget b1 r1 H1 E1) as (z1 & Hz1 & Ed1 & Ei1), (Hget b2 r2 H2 E2) as (z2 & Hz2 & Ed2 & Ei2). apply (co_uniq _ Hc b1 b2 z1 z2 H1 H2 Hz1 Hz2); congruence.
  - intros c Hcf. destruct (co_fre _ Hc c Hcf) as [Hct (y & Hy & Hly)]. split; [done|]. exists y. rewrite !lookup_insert_ne by (intros <-; done). done.
  - intros c y. rewrite insert_insert_eq. destruct (decide (c = b)) as [->|Hcb]; [intros _; by apply (co_brk _ Hc _ _ Hr)|]. rewrite lookup_insert_ne by done. apply Hc.
Qed.

(** ** The array of blocks *)

Definition bspec (op : bop) (A : Z -> Z -> list Z) : list Z * (Z -> Z -> list Z) :=
  match op with
  | BRead dev _ idx => (A dev idx, A)
  | BWrite dev _ idx bytes => ([], fun dev' idx' => if (dev' =? dev) && (idx' =? idx) then bytes else A dev' idx')
  end.

Fixpoint bspecs (ops : list bop) (A : Z -> Z -> list Z) : list (list Z) * (Z -> Z -> list Z) :=
  match ops with
  | [] => ([], A)
  | op :: ops => let '(o, A) := bspec op A in let '(os, A) := bspecs ops A in (o :: os, A)
  end.

(** A block is asked for in the size of its device, and replaced as a whole. *)
Definition bop_ok (op : bop) : Prop :=
  match op with
  | BRead dev siz idx => siz = bs dev /\ reachable_block dev idx
  | BWrite dev siz idx bytes => siz = bs dev /\ reachable_block dev idx /\ length bytes = Z.to_nat (bs dev)
  end.

(** The blocks of the disk are those of the array. *)
Definition holds_blocks (d : D) (A : Z -> Z -> list Z) : Prop := forall dev idx, block d dev idx = A dev idx.

Lemma bstep_ok op st A : cache_ok st -> lock_free (lkall st) -> holds_blocks (disk st) A -> bop_ok op ->
  exists st', bstep p op st = Ok (fst (bspec op A), st') /\ cache_ok st' /\ lock_free (lkall st') /\ holds_blocks (disk st') (snd (bspec op A)).
Proof.
  intros Hc Hlk HA Hop. assert (exists dev idx, reachable_block dev idx /\ match op with BRead d z i => d = dev /\ z = bs dev /\ i = idx | BWrite d z i w => d = dev /\ z = bs dev /\ i = idx /\ length w = Z.to_nat (bs dev) end) as (dev & idx & Hb & Hdi).
  { destruct op as [d z i|d z i w]; exists d, i; [by destruct Hop|]. by destruct Hop as (? & ? & ?). }
  destruct (bread_locked_ok st dev idx Hc Hlk Hb) as (b & st1 & r & l1 & E & Hc1 & Hl1 & Hd1 & Hin & Hr & Hdev & Hidx & Hrel).
  destruct (in_tbl_node st1 b Hc1 Hin) as (x & Hx & Hca). rewrite Hr in Hx. injection Hx as <-.
  assert (data r = A dev idx) as Hdata by (rewrite (ca_data _ _ Hca), Hd1, Hdev, Hidx; apply HA).
  assert (bget (bset st1 b (r <| b_lock := l1 |>)) b = Ok (r <| b_lock := l1 |>)) as Eg by (unfold bget; cbn; by rewrite lookup_insert_eq).
  destruct op as [d z i|d z i w]; cbn [bstep bspec fst snd].
  - destruct Hdi as (-> & -> & ->). rewrite E. cbn [res_bind]. rewrite Eg. cbn [res_bind].
    destruct (brelse_ok st1 b r l1 (data r) (dirty r) Hc1 Hin Hr Hrel) as (st2 & E2 & Hc2 & Hl2 & Hw & Ho); [by rewrite (ca_data _ _ Hca), block_len|done|].
    assert (r <| data := data r |> <| dirty := dirty r |> <| b_lock := l1 |> = r <| b_lock := l1 |>) as Er by done. rewrite Er in E2. rewrite E2. cbn [res_bind].
    exists st2. split; [by rewrite <- Hdata|]. split; [done|]. split; [by rewrite Hl2, Hl1|]. intros dv ix. destruct (decide ((dv, ix) = (b_dev r, b_idx r))) as [[= -> ->]|Hne].
    + rewrite Hw, Hdata. by rewrite Hdev, Hidx.
    + rewrite Ho, Hd1 by done. apply HA.
  - destruct Hdi as (-> & -> & -> & Hw). rewrite E. cbn [res_bind]. rewrite Eg. cbn [res_bind]. unfold bdirty, bget. cbn [bset bufs upd]. rewrite lookup_insert_eq. cbn [deref res_bind].
    destruct (brelse_ok st1 b r l1 w true Hc1 Hin Hr Hrel) as (st2 & E2 & Hc2 & Hl2 & Hww & Ho); [by rewrite Hdev|done|].
    match goal with |- context [brelse ?s p b] => assert (s = bset st1 b (r <| data := w |> <| dirty := true |> <| b_lock := l1 |>)) as -> by (unfold bset, upd; cbn; by rewrite !insert_insert_eq) end.
    rewrite E2. cbn [res_bind]. exists st2. split; [done|]. split; [done|]. split; [by rewrite Hl2, Hl1|]. intros dv ix. destruct (decide ((dv, ix) = (b_dev r, b_idx r))) as [[= -> ->]|Hne].
    + rewrite Hww, Hdev, Hidx, !Z.eqb_refl. done.
    + rewrite Ho, Hd1 by done. rewrite HA. rewrite Hdev, Hidx in Hne. destruct (Z.eqb_spec dv dev) as [->|], (Z.eqb_spec ix idx) as [->|]; done.
Qed.

Lemma bruns_ok ops : forall st A, cache_ok st -> lock_free (lkall st) -> holds_blocks (disk st) A -> Forall bop_ok ops ->
  exists st', bruns p ops st = Ok (fst (bspecs ops A), st') /\ cache_ok st' /\ lock_free (lkall st') /\ holds_blocks (disk st') (snd (bspecs ops A)).
Proof.
  induction ops as [|op ops IH]; intros st A Hc Hlk HA Hops; cbn [bruns bspecs]; [by exists st|]. apply Forall_cons in Hops as [Hop Hops].
  destruct (bstep_ok op st A Hc Hlk HA Hop) as (st1 & -> & Hc1 & Hl1 & HA1). cbn [res_bind snd fst]. destruct (bspec op A) as [o A1]. cbn [fst snd] in *.
  destruct (IH st1 A1 Hc1 Hl1 HA1 Hops) as (st2 & -> & Hc2 & Hl2 & HA2). cbn [res_bind fst snd]. destruct (bspecs ops A1) as [os A2]. by exists st2.
Qed.

Lemma init_ok br va pa d : cache_ok (buffer_init br va pa d) /\ lock_free (lkall (buffer_init br va pa d)).
Proof.
  split; [|done]. assert (forall b, ~ in_tbl (buffer_init br va pa d) b) as Hn.
  { intros b (j & l & Hl & Hb). apply lookup_replicate in Hl as [-> _]. by apply elem_of_nil in Hb. }
  split; cbn [tbl bufs fre brk disk buffer_init].
  - apply length_replicate.
  - intros j l b Hl Hb. exfalso. apply (Hn b). by exists j, l.
  - intros b1 b2 r1 r2 H1. by destruct (Hn b1).
  - by intros b ?%elem_of_nil.
  - constructor.
  - intros b r. by rewrite lookup_empty.
Qed.

End Cache.


(** ** A disk of sectors *)

(** Sectors of two bytes; those never written hold zeros. *)
Abbreviation sectors := (gmap (Z * Z) (list Z)).

Definition get_sector (d : sectors) (dev n : Z) : list Z := take 2 (default [] (d !! (dev, n)) ++ [0; 0]).

Fixpoint put_sectors (cnt : nat) (d : sectors) (dev no : Z) (bytes : list Z) : sectors :=
  match cnt with
  | O => d
  | S cnt => put_sectors cnt (<[(dev, no) := take 2 bytes]> d) dev (no + 1) (drop 2 bytes)
  end.

Definition toy_dev : BlkDev sectors := {|
  major _ := 8;
  ssz _ := 2;
  dev_read d dev no cnt := Ok (concat (map (get_sector d dev) (seqZ no cnt)), d);
  dev_write d dev no bytes cnt := Ok (put_sectors (Z.to_nat cnt) d dev no bytes);
  raw _ := 0;
  junk_buf := Buffer false 0 0 0 0 0 idle_lock []
|}.

Lemma put_sectors_get cnt : forall d dev no bytes dev' n, (length bytes = 2 * cnt)%nat ->
  get_sector (put_sectors cnt d dev no bytes) dev' n =
  if (dev' =? dev) && (no <=? n) && (n <? no + Z.of_nat cnt) then take 2 (drop (Z.to_nat ((n - no) * 2)) bytes) else get_sector d dev' n.
Proof.
  induction cnt as [|cnt IH]; intros d dev no bytes dev' n Hl; cbn [put_sectors].
  - replace (n <? no + Z.of_nat 0) with (n <? no) by (f_equal; lia). destruct (Z.leb_spec no n), (Z.ltb_spec n no); try lia; by rewrite ?andb_false_r.
  - rewrite IH by (rewrite length_drop; lia). destruct (Z.eqb_spec dev' dev) as [->|Hd]; cbn [andb].
    + destruct (Z.eq_dec n no) as [->|Hn].
      * replace (no + 1 <=? no) with false by lia. replace (no <=? no) with true by lia. destruct (Z.ltb_spec no (no + Z.of_nat (S cnt))); [|lia]. cbn [andb]. rewrite Z.sub_diag. cbn [Z.mul Z.to_nat]. rewrite drop_0.
        unfold get_sector. rewrite lookup_insert_eq. cbn [default from_option]. unfold id. rewrite take_app_le by (rewrite length_take; lia). apply take_ge. rewrite length_take. lia.
      * destruct (Z.leb_spec (no + 1) n), (Z.leb_spec no n); try lia; cbn [andb].
        -- replace (n <? no + 1 + Z.of_nat cnt) with (n <? no + Z.of_nat (S cnt)) by (f_equal; lia). case_if.
           ++ rewrite drop_drop. do 2 f_equal. lia.
           ++ unfold get_sector. rewrite lookup_insert_ne by congruence. done.
        -- unfold get_sector. rewrite lookup_insert_ne by congruence. done.
    + unfold get_sector. rewrite lookup_insert_ne by congruence. done.
Qed.

#[local] Instance toy_dev_instance : BlkDev sectors := toy_dev.

Lemma toy_write d dev no bytes cnt : 0 <= no -> 0 <= cnt -> length bytes = Z.to_nat (cnt * ssz dev) ->
  exists d', dev_write d dev no bytes cnt = Ok d' /\
    forall dev' n, get_sector d' dev' n =
      if (dev' =? dev) && (no <=? n) && (n <? no + cnt) then take (Z.to_nat (ssz dev)) (drop (Z.to_nat ((n - no) * ssz dev)) bytes) else get_sector d dev' n.
Proof.
  intros Hno Hcnt Hl. eexists. split; [reflexivity|]. intros dev' n. change (ssz dev) with 2 in *. rewrite put_sectors_get by lia. by rewrite Z2Nat.id.
Qed.

Definition toy_laws : BlkLaws sectors.
Proof.
  refine {| sector := get_sector; write_law := toy_write |}.
  - intros dev. change (ssz dev) with 2. lia.
  - intros d dev n. unfold get_sector. rewrite length_take, length_app. change (length [0; 0]) with 2%nat. change (Z.to_nat (ssz dev)) with 2%nat. lia.
  - intros d dev no cnt Hno Hcnt. reflexivity.
Defined.


(** ** What goes wrong *)

Section Wrong.
Context {D : Type} `{BlkDev D}.

Lemma find_all_same (st st' : bstate D) dev idx : bufs st' = bufs st -> tbl st' = tbl st -> find_all st' dev idx = find_all st dev idx.
Proof.
  intros Hb Ht. unfold find_all. rewrite Ht. destruct (aget (tbl st) _) as [l|]; [|done]. cbn [res_bind]. induction l as [|b l IH]; cbn [find_in]; [done|]. unfold bget. rewrite Hb. destruct (bufs st !! b); cbn; [|done]. by rewrite IH.
Qed.

(** A lock that is free, and one that [q] holds. *)
Definition unheld (l : lock) : Prop := holder l = None /\ val (lsema l) = 1.

Definition held_by (l : lock) (q : Z) : Prop := holder l = Some q /\ val (lsema l) = 0.

Lemma acquire_unheld l p : unheld l -> exists l', lock_acquire l p = Ok (true, l') /\ held_by l' p /\ waiter (lsema l') = waiter (lsema l).
Proof.
  intros [Hh Hv]. unfold lock_acquire. rewrite decide_False by congruence. unfold lock_enter, sema_down. rewrite Hv. change (1 =? 0) with false. change (1 =? 1) with true. cbn -[signed]. rewrite Hv, i32_01 by lia. cbn -[signed].
  eexists. split; [reflexivity|]. split; [split; cbn -[signed]; [done|by rewrite Hv, i32_01 by lia]|done].
Qed.

Lemma acquire_held l p q : held_by l q -> p <> q -> (p ∉ waiter (lsema l)) -> exists l', lock_acquire l p = Ok (false, l') /\ held_by l' q /\ p ∈ asleep l'.
Proof.
  intros [Hh Hv] Hne Hp. unfold lock_acquire. rewrite decide_False by congruence. unfold lock_enter, sema_down. rewrite Hv. cbn. rewrite bool_decide_false by done. cbn. eexists. split; [reflexivity|]. split; [done|set_solver].
Qed.

Lemma release_once l p : held_by l p -> hrepeat l = 1 -> exists l', lock_release l p = Ok l' /\ unheld l'.
Proof.
  intros [Hh Hv] Hr. unfold lock_release. rewrite bool_decide_true by done. cbn [ASSERTK res_bind]. rewrite Hr. change (1 <? 1) with false. unfold sema_up. cbn -[signed]. rewrite Hv. cbn -[signed]. rewrite i32_01 by lia. cbn -[signed].
  destruct (waiter (lsema l)); cbn -[signed]; (eexists; split; [reflexivity|split; cbn -[signed]; [done|by rewrite Hv, i32_01 by lia]]).
Qed.

(** C38: [bread] waits for a buffer with the lock of the table held.  So whenever a task [p] asks for
    a block whose buffer another task [q] is using, it goes to sleep as the holder of [lkall], and
    then any block [q] asks for, in any size and of any device, puts [q] to sleep behind it: each
    of the two sleeps on a lock the other one holds. *)
Theorem bread_deadlock (st : bstate D) p q dev siz idx b n : p <> q -> unheld (lkall st) -> (q ∉ waiter (lsema (lkall st))) ->
  find_all st dev idx = Ok (Some b) -> bufs st !! b = Some n -> held_by (b_lock n) q -> (p ∉ waiter (lsema (b_lock n))) ->
  exists st1, bread st p dev siz idx = Ok (SleepBuf b, st1) /\
    forall dev' siz' idx', exists st2 n2, bread st1 q dev' siz' idx' = Ok (SleepAll, st2) /\
      bufs st2 !! b = Some n2 /\ holder (lkall st2) = Some p /\ q ∈ asleep (lkall st2) /\ holder (b_lock n2) = Some q /\ p ∈ asleep (b_lock n2).
Proof.
  intros Hne Hall Hq Hfind Hb Hheld Hp. destruct (acquire_unheld _ p Hall) as (l & El & Hl & Hw). destruct (acquire_held _ p q Hheld Hne Hp) as (lb & Eb & Hlb & Hpa).
  unfold bread at 1, bread_with. rewrite El. cbn [res_bind]. rewrite (find_all_same st), Hfind by done. cbn [res_bind]. unfold bread_own, bget. cbn [upd bufs]. change (bufs (st <| lkall := l |>)) with (bufs st). rewrite Hb. cbn [deref res_bind]. rewrite Eb. cbn [res_bind].
  eexists. split; [reflexivity|]. intros dev' siz' idx'. rewrite <- Hw in Hq. destruct (acquire_held l q p Hl (not_eq_sym Hne) Hq) as (l2 & E2 & Hl2 & Hqa). unfold bread, bread_with.
  match goal with |- context [lock_acquire (lkall ?s) q] => change (lkall s) with l end. rewrite E2. cbn [res_bind]. eexists _, (n <| b_lock := lb |>). split; [reflexivity|].
  split; [apply lookup_insert_eq|]. split; [apply Hl2|]. split; [exact Hqa|]. split; [apply Hlb|exact Hpa].
Qed.

(** The search of the table does not look at the size.  Whatever size is asked for, [bread] of a
    block that is cached returns the buffer that is there, with its own size and bytes. *)
Theorem bread_ignores_size (st : bstate D) p dev siz idx b n : unheld (lkall st) -> hrepeat (lkall st) = 0 ->
  find_all st dev idx = Ok (Some b) -> bufs st !! b = Some n -> unheld (b_lock n) ->
  exists st1 n1, bread st p dev siz idx = Ok (Got b, st1) /\ bufs st1 !! b = Some n1 /\ b_siz n1 = b_siz n /\ data n1 = data n.
Proof.
  intros Hall Hr Hfind Hb Hfree. destruct (acquire_unheld _ p Hall) as (l & El & Hl & _). destruct (acquire_unheld _ p Hfree) as (lb & Eb & Hlb & _).
  assert (hrepeat l = 1) as H1.
  { unfold lock_acquire in El. destruct Hall as [Hh Hv]. rewrite decide_False in El by congruence. unfold lock_enter, sema_down in El. rewrite Hv in El. change (1 =? 0) with false in El. change (1 =? 1) with true in El. cbn -[signed] in El. rewrite Hv, i32_01 in El by lia. cbn -[signed] in El. by injection El as <-. }
  destruct (release_once l p Hl H1) as (l2 & E2 & _).
  unfold bread, bread_with. rewrite El. cbn [res_bind]. rewrite (find_all_same st), Hfind by done. cbn [res_bind]. unfold bread_own, bget. change (bufs (st <| lkall := l |>)) with (bufs st). rewrite Hb. cbn [deref res_bind]. rewrite Eb. cbn [res_bind].
  match goal with |- context [lock_release (lkall ?s) p] => change (lkall s) with l end. rewrite E2. cbn [res_bind]. eexists _, (n <| b_lock := lb |>). split; [reflexivity|]. split; [apply lookup_insert_eq|done].
Qed.

End Wrong.

(** Task 1 has read block 1 of device 7, in two bytes, and keeps it or has released it. *)
Definition one_reader (release : bool) : bstate sectors :=
  match bread (buffer_init 0 0 0 (∅ : sectors)) 1 7 2 1 with
  | Ok (Got b, st) => if release then match brelse st 1 b with Ok st => st | Fault _ => st end else st
  | _ => buffer_init 0 0 0 ∅
  end.

Lemma bread_deadlock_witness : exists st1, bread (one_reader false) 2 7 2 1 = Ok (SleepBuf 2047, st1) /\
  forall dev' siz' idx', exists st2 n2, bread st1 1 dev' siz' idx' = Ok (SleepAll, st2) /\
    bufs st2 !! 2047 = Some n2 /\ holder (lkall st2) = Some 2 /\ 1 ∈ asleep (lkall st2) /\ holder (b_lock n2) = Some 1 /\ 2 ∈ asleep (b_lock n2).
Proof.
  destruct (bufs (one_reader false) !! 2047) as [n|] eqn:En; [|vm_compute in En; discriminate En].
  eapply (bread_deadlock (one_reader false) 2 1 7 2 1 2047 n); [lia|split; vm_compute; reflexivity|vm_compute; by intros ?%elem_of_nil|vm_compute; reflexivity|exact En| |]; vm_compute in En; injection En as <-; [split; reflexivity|by intros ?%elem_of_nil].
Defined.

Lemma bread_ignores_size_witness : exists n st1 n1, bufs (one_reader true) !! 2047 = Some n /\ b_siz n = 2 /\ bread (one_reader true) 1 7 4 1 = Ok (Got 2047, st1) /\ bufs st1 !! 2047 = Some n1 /\ b_siz n1 = b_siz n /\ data n1 = data n.
Proof.
  destruct (bufs (one_reader true) !! 2047) as [n|] eqn:En; [|vm_compute in En; discriminate En]. exists n.
  destruct (bread_ignores_size (one_reader true) 1 7 4 1 2047 n) as (st1 & n1 & H1); [split; vm_compute; reflexivity|vm_compute; reflexivity|vm_compute; reflexivity|exact En|vm_compute in En; injection En as <-; split; reflexivity|].
  exists st1, n1. split; [reflexivity|]. split; [vm_compute in En; injection En as <-; reflexivity|exact H1].
Defined.
