(* ===== verification/Pipe.v ===== *)
(** * Pipes: [kernel/fs/drift/pipe.c]

    A pipe over any [ByteQueue]. A system call runs until it returns or sleeps ([outcome]); the
    part after a sleep is a definition of its own. [woken] lists the tasks a call made ready.
    [Pipesys] puts the calls of several tasks together: which of them are inside a call, which
    sleep, and, as ghost state, the bytes accepted and the bytes delivered so far. *)
From Stdlib Require Import ZArith Lia List Bool.
From stdpp Require Import base list gmap.
From S2P Require Import Prelude Fifo Poll Lock.

#[local] Open Scope Z_scope.

Definition O_ACCMODE : Z := 3.
Definition O_RDONLY : Z := 0.
Definition O_WRONLY : Z := 1.
Definition O_NONBLOCK : Z := 0x800.

Definition is_rpipe_ (fl : Z) : bool := Z.land fl O_ACCMODE =? O_RDONLY.

Definition is_wpipe_ (fl : Z) : bool := Z.land fl O_ACCMODE =? O_WRONLY.

Definition nonblock (fl : Z) : bool := negb (Z.land fl O_NONBLOCK =? 0).

Record pipe (F : Type) := Pipe {
  rd_alive : Z;
  wr_alive : Z;
  p_fifo : F;
  p_lock : lock;
  rd_waiter : option Z;
  wr_waiter : option Z;
  rd_pollee : fs_pollee;
  wr_pollee : fs_pollee;
  woken : list Z;
  freed : bool }.
Arguments Pipe {F}.
Arguments rd_alive {F}.
Arguments wr_alive {F}.
Arguments p_fifo {F}.
Arguments p_lock {F}.
Arguments rd_waiter {F}.
Arguments wr_waiter {F}.
Arguments rd_pollee {F}.
Arguments wr_pollee {F}.
Arguments woken {F}.
Arguments freed {F}.

#[export] Instance eta_pipe F : Eta (pipe F) := fun r =>
  Pipe (rd_alive r) (wr_alive r) (p_fifo r) (p_lock r) (rd_waiter r) (wr_waiter r) (rd_pollee r) (wr_pollee r)
       (woken r) (freed r).

(** How a call ends for now: with a result and the bytes stored to the caller's buffer, with the
    result of a write, an [int], and the bytes not written, asleep with the bytes still to write, or
    asleep in the lock. *)
Inductive outcome :=
| Done (ret : Z) (data : list Z)
| Wrote (ret : Z) (rest : list Z)
| Sleep (rest : list Z)
| LockWait.

Section Pipe.
Context {F : Type} `{ByteQueue F}.

Definition wake (pi : pipe F) (w : option Z) : pipe F :=
  match w with Some p => pi <| woken ::= fun l => l ++ [p] |> | None => pi end.

Definition deliver_rd (pi : pipe F) (ev : Z) : pipe F :=
  let '(_, p, w) := fs_poll_deliver (rd_pollee pi) ev in wake (pi <| rd_pollee := p |>) w.

Definition deliver_wr (pi : pipe F) (ev : Z) : pipe F :=
  let '(_, p, w) := fs_poll_deliver (wr_pollee pi) ev in wake (pi <| wr_pollee := p |>) w.

Definition release (pi : pipe F) (p : Z) : res (pipe F) :=
  let! l := lock_release (p_lock pi) p in Ok (pi <| p_lock := l |>).

(** Runs [k] with the lock held, unless the task has to sleep for it. *)
Definition with_lock (pi : pipe F) (p : Z) (k : pipe F -> res (outcome * pipe F)) : res (outcome * pipe F) :=
  let! r := lock_acquire (p_lock pi) p in
  let '(got, l) := r in
  let pi := pi <| p_lock := l |> in
  if got : bool then k pi else Ok (LockWait, pi).

(** [block_as] up to the sleep. *)
Definition block_rd (pi : pipe F) (p : Z) : res (pipe F) :=
  do! ASSERTK (match rd_waiter pi with None => true | Some _ => false end) in
  release (pi <| rd_waiter := Some p |>) p.

Definition block_wr (pi : pipe F) (p : Z) : res (pipe F) :=
  do! ASSERTK (match wr_waiter pi with None => true | Some _ => false end) in
  release (pi <| wr_waiter := Some p |>) p.

(** The body of the loop of [pipe_read]; it is only repeated after a sleep. *)
Definition read_try (p siz fl : Z) (pi : pipe F) : res (outcome * pipe F) :=
  let! r := bq_read (p_fifo pi) siz in
  let '(out, f) := r in
  let pi := pi <| p_fifo := f |> in
  match out with
  | [] =>
      if (wr_alive pi =? 0) || nonblock fl then let! pi := release pi p in Ok (Done 0 [], pi)
      else let! pi := block_rd pi p in Ok (Sleep [], pi)
  | _ :: _ =>
      let pi := wake (deliver_wr pi POLLOUT) (wr_waiter pi) in
      let! pi := release pi p in
      Ok (Done (Z.of_nat (length out)) out, pi)
  end.

Definition pipe_read (pi : pipe F) (p siz fl : Z) : res (outcome * pipe F) :=
  if is_wpipe_ fl then Ok (Done (- EBADF) [], pi)
  else if siz =? 0 then Ok (Done 0 [], pi)
  else with_lock pi p (read_try p siz fl).

Definition pipe_read_resume (pi : pipe F) (p siz fl : Z) : res (outcome * pipe F) :=
  with_lock pi p (fun pi => read_try p siz fl (pi <| rd_waiter := None |>)).

(** The loop of [pipe_write]: [data] is what remains of the [reqsiz] bytes. A partial write
    fills the queue, so the third turn is never reached. *)
Fixpoint write_try (fuel : nat) (p reqsiz fl : Z) (data : list Z) (pi : pipe F) : res (outcome * pipe F) :=
  match fuel with
  | O => Fault OutOfFuel
  | S fuel =>
      let! r := bq_write (p_fifo pi) data (Z.of_nat (length data)) in
      let '(n, f) := r in
      let pi := pi <| p_fifo := f |> in
      if n =? 0 then let! pi := block_wr pi p in Ok (Sleep data, pi)
      else
        let rest := drop (Z.to_nat n) data in
        let pi := wake (deliver_rd pi POLLIN) (rd_waiter pi) in
        if bool_decide (rest = []) || (rd_alive pi =? 0) || nonblock fl then
          let! pi := release pi p in
          Ok (Wrote (i32 (reqsiz - Z.of_nat (length rest))) rest, pi)
        else write_try fuel p reqsiz fl rest pi
  end.

Definition pipe_write (pi : pipe F) (p : Z) (data : list Z) (fl : Z) : res (outcome * pipe F) :=
  if is_rpipe_ fl then Ok (Done (- EBADF) [], pi)
  else if bool_decide (data = []) then Ok (Done 0 [], pi)
  else if rd_alive pi =? 0 then Ok (Done 0 [], pi)
  else with_lock pi p (write_try 2 p (Z.of_nat (length data)) fl data).

Definition pipe_write_resume (pi : pipe F) (p reqsiz fl : Z) (data : list Z) : res (outcome * pipe F) :=
  with_lock pi p (fun pi => write_try 2 p reqsiz fl data (pi <| wr_waiter := None |>)).

Definition nz (v : Z) : Z := if v =? 0 then 0 else 1.

Definition pipe__fini_pctx (pi : pipe F) (fl : Z) : pipe F :=
  let pi := if is_rpipe_ fl then pi <| rd_alive ::= fun n => i32 (n - 1) |> else pi in
  let pi := if is_wpipe_ fl then pi <| wr_alive ::= fun n => i32 (n - 1) |> else pi in
  let alive := nz (rd_alive pi) + nz (wr_alive pi) in
  if alive =? 1 then
    let pi := deliver_wr pi POLLHUP in
    let pi := deliver_rd pi POLLHUP in
    let pi := wake pi (rd_waiter pi) in
    wake pi (wr_waiter pi)
  else if alive =? 0 then pi <| freed := true |>
  else pi.

(** [pipe_poll_setup]: the result, the poller, the pollers of the open file; [fl] are the flags
    of that file. *)
Definition pipe_poll_setup (pi : pipe F) (r : fs_poller) (fl : Z) (ctx : list Z) : Z * fs_poller * list Z * pipe F :=
  let try ev cond (r : fs_poller) : bool * fs_poller :=
    if cond : bool then let '(b, r, _) := fs_poll_deliver_to ev r false in (b, r) else (false, r) in
  if is_rpipe_ fl then
    let '(b, r) := try POLLHUP (wr_alive pi =? 0) r in
    if b then (1, r, ctx, pi)
    else
      let '(b, r) := try POLLIN (negb (bq_empty (p_fifo pi))) r in
      if b then (1, r, ctx, pi)
      else let '(q, ctx) := fs_poll_setup (rd_pollee pi) r ctx in
           (0, r <| in_pollee_list := true |>, ctx, pi <| rd_pollee := q |>)
  else if is_wpipe_ fl then
    let '(b, r) := try POLLHUP (rd_alive pi =? 0) r in
    if b then (1, r, ctx, pi)
    else
      let '(b, r) := try POLLOUT (negb (bq_full (p_fifo pi))) r in
      if b then (1, r, ctx, pi)
      else let '(q, ctx) := fs_poll_setup (wr_pollee pi) r ctx in
           (0, r <| in_pollee_list := true |>, ctx, pi <| wr_pollee := q |>)
  else (-1, r, ctx, pi).

Definition pipe_poll_teardown (pi : pipe F) (r : fs_poller) (fl : Z) (ctx : list Z) : Z * list Z * pipe F :=
  if is_rpipe_ fl then
    let '(q, ctx) := fs_poll_teardown (rd_pollee pi) r ctx in (0, ctx, pi <| rd_pollee := q |>)
  else if is_wpipe_ fl then
    let '(q, ctx) := fs_poll_teardown (wr_pollee pi) r ctx in (0, ctx, pi <| wr_pollee := q |>)
  else (-1, ctx, pi).

(** [vfs_drift_cb_pipe_open] on an existing pipe: up to the sleep of the first opener... *)
Definition pipe_open (pi : pipe F) (p fl : Z) : res (outcome * pipe F) :=
  with_lock pi p (fun pi =>
    if is_rpipe_ fl then
      let pi := pi <| rd_alive ::= fun n => i32 (n + 1) |> in
      if wr_alive pi =? 0 then
        match wr_waiter pi with
        | None => let! pi := release (pi <| rd_waiter := Some p |>) p in Ok (Sleep [], pi)
        | Some w => let! pi := release (wake pi (Some w)) p in Ok (Done 0 [], pi)
        end
      else let! pi := release pi p in Ok (Done 0 [], pi)
    else if is_wpipe_ fl then
      let pi := pi <| wr_alive ::= fun n => i32 (n + 1) |> in
      if rd_alive pi =? 0 then
        match rd_waiter pi with
        | None => let! pi := release (pi <| wr_waiter := Some p |>) p in Ok (Sleep [], pi)
        | Some w => do! deref (wr_waiter pi) in let! pi := release (wake pi (Some w)) p in Ok (Done 0 [], pi)
        end
      else let! pi := release pi p in Ok (Done 0 [], pi)
    else let! pi := release pi p in Ok (Done 0 [], pi)).

(** ... and after it. *)
Definition pipe_open_resume (pi : pipe F) (p fl : Z) : res (outcome * pipe F) :=
  with_lock pi p (fun pi =>
    let pi := if is_rpipe_ fl then pi <| rd_waiter := None |> else pi <| wr_waiter := None |> in
    let! pi := release pi p in Ok (Done 0 [], pi)).

(** ** Several tasks on one pipe *)

(** The call a task is inside of. *)
Inductive pending :=
| PRead (siz fl : Z)
| PWrite (data : list Z) (reqsiz fl : Z)
| POpen (fl : Z).

Record psys := PSys {
  pi : pipe F;
  pend : gmap Z pending;
  sleeping : gset Z;
  accepted : list Z;
  received : list Z }.

#[global] Instance eta_psys : Eta psys := fun r => PSys (pi r) (pend r) (sleeping r) (accepted r) (received r).

Inductive pev :=
| ERead (p siz fl : Z)
| EWrite (p : Z) (data : list Z) (fl : Z)
| EOpen (p fl : Z)
| ERun (p : Z)
| EWake (p : Z)
| EClose (fl : Z).

(** The bytes of [data] a call that ended with [o] has put into the pipe. *)
Definition taken (data : list Z) (o : outcome) : list Z :=
  match o with
  | Done _ _ => []
  | Wrote _ rest => take (length data - length rest) data
  | Sleep rest => take (length data - length rest) data
  | LockWait => []
  end.

(** The state after a call of [p] that ended with [o]; [k] is what it is inside of if it
    sleeps, given the bytes it still has to write. *)
Definition settle (s : psys) (p : Z) (k : list Z -> pending) (acc : outcome -> list Z) (r : outcome * pipe F) : psys :=
  let '(o, q) := r in
  let s := s <| pi := q <| woken := [] |> |> <| sleeping ::= fun X => X ∖ list_to_set (woken q) |>
             <| accepted ::= fun l => l ++ acc o |> in
  match o with
  | Done _ data => s <| pend ::= delete p |> <| received ::= fun l => l ++ data |>
  | Wrote _ _ => s <| pend ::= delete p |>
  | Sleep rest => s <| pend ::= insert p (k rest) |> <| sleeping ::= union {[p]} |>
  | LockWait => s <| pend ::= insert p (k []) |> <| sleeping ::= union {[p]} |>
  end.

Definition nothing (o : outcome) : list Z := [].

Definition close_ok (s : psys) (fl : Z) : bool :=
  (is_rpipe_ fl && (0 <? rd_alive (pi s))) || (is_wpipe_ fl && (0 <? wr_alive (pi s))).

(** One event; an event that cannot happen changes nothing. *)
Definition pstep (s : psys) (e : pev) : res psys :=
  if freed (pi s) then Ok s
  else
  match e with
  | ERead p siz fl =>
      if decide (pend s !! p = None /\ 0 <= siz) then
        let! r := pipe_read (pi s) p siz fl in Ok (settle s p (fun _ => PRead siz fl) nothing r)
      else Ok s
  | EWrite p data fl =>
      if decide (pend s !! p = None) then
        let n := Z.of_nat (length data) in
        let! r := pipe_write (pi s) p data fl in Ok (settle s p (fun rest => PWrite rest n fl) (taken data) r)
      else Ok s
  | EOpen p fl =>
      if decide (pend s !! p = None) then
        let! r := pipe_open (pi s) p fl in Ok (settle s p (fun _ => POpen fl) nothing r)
      else Ok s
  | ERun p =>
      if decide (p ∈ sleeping s) then Ok s
      else
      match pend s !! p with
      | None => Ok s
      | Some (PRead siz fl) =>
          let! r := pipe_read_resume (pi s) p siz fl in Ok (settle s p (fun _ => PRead siz fl) nothing r)
      | Some (PWrite data n fl) =>
          let! r := pipe_write_resume (pi s) p n fl data in
          Ok (settle s p (fun rest => PWrite rest n fl) (taken data) r)
      | Some (POpen fl) =>
          let! r := pipe_open_resume (pi s) p fl in Ok (settle s p (fun _ => POpen fl) nothing r)
      end
  | EWake p => Ok (s <| sleeping ::= fun X => X ∖ {[p]} |>)
  | EClose fl =>
      if close_ok s fl then
        let q := pipe__fini_pctx (pi s) fl in
        Ok (s <| pi := q <| woken := [] |> |> <| sleeping ::= fun X => X ∖ list_to_set (woken q) |>)
      else Ok s
  end.

Fixpoint prun (s : psys) (es : list pev) : res psys :=
  match es with
  | [] => Ok s
  | e :: es => let! s := pstep s e in prun s es
  end.

(** ** Locking *)

Definition LFREE : lock := Lock None 0 (Sema 1 []) ∅ ∅.

Definition LHELD (p : Z) : lock := Lock (Some p) 1 (Sema 0 []) ∅ ∅.

Lemma empty_minus (X : gset Z) : (∅ : gset Z) ∖ X = ∅.
Proof. set_solver. Qed.

Lemma acquire_free p : lock_acquire LFREE p = Ok (true, LHELD p).
Proof.
  unfold lock_acquire. rewrite decide_False by done. unfold lock_enter.
  change (sema_down (lsema LFREE) p) with (Ok (true, Sema 0 [])). unfold LHELD.
  rewrite <- (empty_minus {[p]}) at 1. reflexivity.
Qed.

Lemma release_held p : lock_release (LHELD p) p = Ok LFREE.
Proof.
  unfold lock_release. rewrite bool_decide_true by done. cbn [ASSERTK res_bind]. change (1 <? hrepeat (LHELD p)) with false. cbv zeta.
  change (sema_up (lsema ((LHELD p) <| holder := None |> <| hrepeat := 0 |>))) with (Ok (@None Z, Sema 1 [])).
  unfold LFREE. rewrite <- (empty_minus ∅) at 2. reflexivity.
Qed.

Lemma release_pipe (q : pipe F) p : p_lock q = LHELD p -> release q p = Ok (q <| p_lock := LFREE |>).
Proof. intros E. unfold release. rewrite E, release_held. done. Qed.

Lemma with_lock_free (q : pipe F) p k : p_lock q = LFREE -> with_lock q p k = k (q <| p_lock := LHELD p |>).
Proof. intros E. unfold with_lock. by rewrite E, acquire_free. Qed.

(** What a delivery and a wake-up change. *)
Lemma deliver_wr_frame (q : pipe F) ev :
  exists P w, deliver_wr q ev = q <| wr_pollee := P |> <| woken := woken q ++ w |>.
Proof.
  unfold deliver_wr. destruct (fs_poll_deliver (wr_pollee q) ev) as [[b P] [t|]]; [by exists P, [t]|].
  exists P, []. cbn. by rewrite app_nil_r.
Qed.

Lemma deliver_rd_frame (q : pipe F) ev :
  exists P w, deliver_rd q ev = q <| rd_pollee := P |> <| woken := woken q ++ w |>.
Proof.
  unfold deliver_rd. destruct (fs_poll_deliver (rd_pollee q) ev) as [[b P] [t|]]; [by exists P, [t]|].
  exists P, []. cbn. by rewrite app_nil_r.
Qed.

Lemma wake_frame (q : pipe F) o : wake q o = q <| woken := woken q ++ match o with Some t => [t] | None => [] end |>.
Proof. destruct o; [done|]. cbn. rewrite app_nil_r. by destruct q. Qed.

(** ** One turn of each loop *)

Context `{!ByteQueueLaws F}.

(** What the calls leave alone. *)
Definition same_ends (q q' : pipe F) : Prop :=
  rd_alive q' = rd_alive q /\ wr_alive q' = wr_alive q /\ freed q' = freed q.

Lemma read_try_spec n q p siz fl (a : pipe F) :
  bq_rep n (p_fifo a) q -> p_lock a = LHELD p -> rd_waiter a = None -> 0 < siz ->
  total (read_try p siz fl a) (fun r => p_lock (snd r) = LFREE /\ same_ends a (snd r) /\ wr_waiter (snd r) = wr_waiter a /\
    ((q = [] /\ bq_rep n (p_fifo (snd r)) [] /\
      ((fst r = Done 0 [] /\ rd_waiter (snd r) = None) \/
       (fst r = Sleep [] /\ rd_waiter (snd r) = Some p /\ wr_alive a <> 0))) \/
     (exists out q', q = out ++ q' /\ out <> [] /\ fst r = Done (Z.of_nat (length out)) out /\
        bq_rep n (p_fifo (snd r)) q' /\ rd_waiter (snd r) = None /\
        forall w, wr_waiter a = Some w -> w ∈ woken (snd r)))).
Proof.
  intros Hr Hl Hw Hs. unfold read_try.
  destruct (bq_read_law n _ q siz Hr) as ([out f] & -> & Eo & Hf); [lia|]. cbn [fst snd] in Eo, Hf. cbn [res_bind].
  set (k := Z.to_nat (Z.min siz (Z.of_nat (length q)))) in *. destruct q as [|b q].
  - rewrite take_nil in Eo. rewrite drop_nil in Hf. subst out. change (wr_alive (a <| p_fifo := f |>)) with (wr_alive a).
    destruct ((wr_alive a =? 0) || nonblock fl) eqn:E.
    + rewrite release_pipe by done. apply total_Ok. cbn. split_and!; try done. left. split_and!; try done. by left.
    + unfold block_rd. cbn. rewrite Hw. cbn. rewrite release_pipe by done. apply total_Ok. cbn. split_and!; try done.
      left. split_and!; try done. right. apply orb_false_iff in E as [E _]. split_and!; [done|done|lia].
  - assert (k = S (pred k)) as Ek by (subst k; cbn [length]; lia). rewrite Ek in Eo. cbn [take] in Eo. rewrite Eo.
    destruct (deliver_wr_frame (a <| p_fifo := f |>) POLLOUT) as (P & w & ->). rewrite wake_frame.
    rewrite release_pipe by done. apply total_Ok. cbn [fst snd]. split_and!; try done. right.
    exists (b :: take (pred k) q), (drop k (b :: q)). split_and!; try done.
    + rewrite Ek. cbn [drop app]. by rewrite take_drop.
    + intros x Hx. cbn. rewrite Hx. apply elem_of_app. right. left.
Qed.

(** A write into a full queue sleeps with all its bytes. *)
Lemma write_full n q p reqsiz fl data fuel (a : pipe F) :
  bq_rep n (p_fifo a) q -> Z.of_nat (length q) = n -> p_lock a = LHELD p -> wr_waiter a = None ->
  total (write_try (S fuel) p reqsiz fl data a) (fun r => fst r = Sleep data /\ bq_rep n (p_fifo (snd r)) q /\
    p_lock (snd r) = LFREE /\ same_ends a (snd r) /\ rd_waiter (snd r) = rd_waiter a /\ wr_waiter (snd r) = Some p /\
    woken (snd r) = woken a).
Proof.
  intros Hr Hfull Hl Hw. cbn [write_try].
  destruct (bq_write_law n _ q data (Z.of_nat (length data)) Hr) as ([m f] & -> & Em & Hf); [lia|].
  cbn [fst snd] in Em, Hf. cbn [res_bind]. assert (m = 0) as -> by lia. cbn [Z.eqb]. rewrite <- Em in Hf. cbn in Hf.
  rewrite take_0, app_nil_r in Hf. unfold block_wr. cbn. rewrite Hw. cbn. rewrite release_pipe by done. apply total_Ok. done.
Qed.

(** The whole loop: asleep with everything when the queue was full; otherwise a prefix is
    accepted, the waiting reader woken, and the call returns, or sleeps with the queue full. *)
Lemma write_try_spec n q p reqsiz fl data (a : pipe F) :
  bq_rep n (p_fifo a) q -> p_lock a = LHELD p -> wr_waiter a = None -> data <> [] ->
  total (write_try 2 p reqsiz fl data a) (fun r => p_lock (snd r) = LFREE /\ same_ends a (snd r) /\
    rd_waiter (snd r) = rd_waiter a /\
    ((Z.of_nat (length q) = n /\ fst r = Sleep data /\ bq_rep n (p_fifo (snd r)) q /\ wr_waiter (snd r) = Some p) \/
     (exists d rest, data = d ++ rest /\ d <> [] /\ bq_rep n (p_fifo (snd r)) (q ++ d) /\
        (forall w, rd_waiter a = Some w -> w ∈ woken (snd r)) /\
        ((fst r = Wrote (i32 (reqsiz - Z.of_nat (length rest))) rest /\ wr_waiter (snd r) = None) \/
         (fst r = Sleep rest /\ rest <> [] /\ wr_waiter (snd r) = Some p /\ Z.of_nat (length (q ++ d)) = n))))).
Proof.
  intros Hr Hl Hw Hd. destruct (decide (Z.of_nat (length q) = n)) as [Hfull|Hroom].
  { eapply total_mono; [by apply (write_full n q)|]. intros r (H1 & H2 & H3 & H4 & H5 & H6 & _). split_and!; try done. by left. }
  pose proof (bq_fits _ _ _ Hr) as Hfit. cbn [write_try].
  destruct (bq_write_law n _ q data (Z.of_nat (length data)) Hr) as ([m f] & -> & Em & Hf); [lia|].
  cbn [fst snd] in Em, Hf. rewrite <- Em in Hf. cbn [res_bind].
  assert (0 < length data)%nat by (destruct data; [done|cbn; lia]). replace (m =? 0) with false by lia.
  destruct (deliver_rd_frame (a <| p_fifo := f |>) POLLIN) as (P & w & ->). rewrite wake_frame. cbv zeta.
  set (d := take (Z.to_nat m) data) in *. set (rest := drop (Z.to_nat m) data).
  assert (data = d ++ rest) as Ed by (symmetry; apply take_drop).
  assert (length d = Z.to_nat m) as Eld by (subst d; rewrite length_take; lia).
  assert (d <> []) as Hdne by (intros E; rewrite E in Eld; cbn in Eld; lia).
  match goal with |- context [rd_alive ?b =? 0] => set (b0 := b) end.
  assert (forall t, rd_waiter a = Some t -> t ∈ woken b0) as Hwk.
  { intros t Ht. subst b0. cbn. rewrite Ht. apply elem_of_app. right. left. }
  destruct (bool_decide (rest = []) || (rd_alive b0 =? 0) || nonblock fl) eqn:Estop.
  - rewrite release_pipe by done. apply total_Ok. cbn [fst snd]. split_and!; try done. right. exists d, rest.
    split_and!; try done. by left.
  - apply orb_false_iff in Estop as [Estop _]. apply orb_false_iff in Estop as [Er _]. apply bool_decide_eq_false in Er.
    assert (Z.of_nat (length (q ++ d)) = n) as Hfl.
    { rewrite length_app. destruct (Nat.eq_dec (length rest) 0%nat) as [E0|]; [by apply nil_length_inv in E0|].
      assert (length data = length d + length rest)%nat by (rewrite Ed, length_app; done). lia. }
    eapply total_mono; [apply (write_full n (q ++ d) p reqsiz fl rest 0%nat b0); done|].
    intros r (H1 & H2 & H3 & H4 & H5 & H6 & H7). split_and!; try done. right. exists d, rest. split_and!; try done.
    + intros t Ht. rewrite H7. auto.
    + right. done.
Qed.

(** ** The invariant of one reader and one writer *)

Section System.
Context (n R W : Z) (HRW : R <> W).

(** The call a task may be inside of. *)
Definition pend_ok (p : Z) (k : pending) : Prop :=
  match k with
  | PRead siz _ => p = R /\ 0 < siz
  | PWrite data reqsiz _ => p = W /\ data <> [] /\ Z.of_nat (length data) <= reqsiz
  | POpen _ => False
  end.

Definition waiting (o : option pending) (p : Z) : option Z := match o with Some _ => Some p | None => None end.

(** [q] is in the pipe. Exactly the task inside a read is the reading waiter, and it sleeps only
    while the pipe is empty and a writer is left; the writing waiter sleeps only while the pipe
    is full. *)
Record pinv (s : psys) (q : list Z) : Prop := {
  pv_lock : p_lock (pi s) = LFREE;
  pv_ends : 0 <= rd_alive (pi s) <= 1 /\ 0 <= wr_alive (pi s) <= 1;
  pv_rep : bq_rep n (p_fifo (pi s)) q;
  pv_data : accepted s = received s ++ q;
  pv_pend : forall p k, pend s !! p = Some k -> pend_ok p k;
  pv_sleep : forall p, p ∈ sleeping s -> is_Some (pend s !! p);
  pv_rd : rd_waiter (pi s) = waiting (pend s !! R) R;
  pv_wr : wr_waiter (pi s) = waiting (pend s !! W) W;
  pv_empty : R ∈ sleeping s -> freed (pi s) = false -> q = [] /\ wr_alive (pi s) <> 0;
  pv_full : W ∈ sleeping s -> freed (pi s) = false -> Z.of_nat (length q) = n;
  pv_woken : woken (pi s) = [] }.

(** The tasks inside calls after one of them has returned, or gone to sleep. *)
Lemma pend_delete s q p : pinv s q -> forall x k, delete p (pend s) !! x = Some k -> pend_ok x k.
Proof. intros Hi x k Hx. apply lookup_delete_Some in Hx as [_ Hx]. by apply (pv_pend _ _ Hi). Qed.

Lemma pend_insert s q p k : pinv s q -> pend_ok p k -> forall x k', <[p := k]> (pend s) !! x = Some k' -> pend_ok x k'.
Proof.
  intros Hi Hk x k' Hx. apply lookup_insert_Some in Hx as [[<- <-]|[_ Hx]]; [done|]. by apply (pv_pend _ _ Hi).
Qed.

Lemma sleep_delete s q p Y : pinv s q -> p ∉ sleeping s -> forall x, x ∈ sleeping s ∖ Y -> is_Some (delete p (pend s) !! x).
Proof.
  intros Hi Hp x [Hx _]%elem_of_difference. rewrite lookup_delete_ne by congruence. by apply (pv_sleep _ _ Hi).
Qed.

Lemma sleep_insert s q p k Y : pinv s q -> forall x, x ∈ {[p]} ∪ sleeping s ∖ Y -> is_Some (<[p := k]> (pend s) !! x).
Proof.
  intros Hi x Hx. destruct (decide (p = x)) as [->|Hne]; [by rewrite lookup_insert_eq|]. rewrite lookup_insert_ne by done.
  apply elem_of_union in Hx as [?%elem_of_singleton|[Hx _]%elem_of_difference]; [congruence|]. by apply (pv_sleep _ _ Hi).
Qed.

(** A sleeping task that has not been woken by the call was a waiter. *)
Lemma still_asleep p Y (X : gset Z) t : t <> p -> t ∈ {[p]} ∪ X ∖ Y -> t ∈ X /\ t ∉ Y.
Proof. intros Hne [?%elem_of_singleton|Hx%elem_of_difference]%elem_of_union; [done|done]. Qed.

Lemma asleep_waits_W s q : pinv s q -> W ∈ sleeping s -> wr_waiter (pi s) = Some W.
Proof. intros Hi Hs. rewrite (pv_wr _ _ Hi). by destruct (pv_sleep _ _ Hi W Hs) as [k ->]. Qed.

Lemma asleep_waits_R s q : pinv s q -> R ∈ sleeping s -> rd_waiter (pi s) = Some R.
Proof. intros Hi Hs. rewrite (pv_rd _ _ Hi). by destruct (pv_sleep _ _ Hi R Hs) as [k ->]. Qed.

(** The reader's call, first or resumed: [a] is the pipe with the lock held. *)
Lemma read_settle s q siz fl (a : pipe F) :
  pinv s q -> freed (pi s) = false -> R ∉ sleeping s -> 0 < siz ->
  p_fifo a = p_fifo (pi s) -> p_lock a = LHELD R -> rd_waiter a = None -> wr_waiter a = wr_waiter (pi s) ->
  same_ends (pi s) a ->
  total (let! r := read_try R siz fl a in Ok (settle s R (fun _ => PRead siz fl) nothing r)) (fun s' => exists q', pinv s' q').
Proof.
  intros Hi Hfr HR Hsz Ef Ela Era Ewa (E4 & E5 & E6). pose proof Hi as [Hl He Hr Hd Hp Hs Hrd Hwr Hem Hfu Hwk].
  rewrite <- Ef in Hr. eapply total_bind; [exact (read_try_spec n q R siz fl a Hr Ela Era Hsz)|].
  intros [o b] (Hlb & (E1 & E2 & E3) & Ewb & Hcase). cbn [fst snd] in *. apply total_Ok.
  assert (wr_waiter b = waiting (pend s !! W) W) as Ewb' by congruence. rewrite <- E4, <- E5, <- E1, <- E2 in He.
  destruct Hcase as [(-> & Hb & [[-> Hrb]|(-> & Hrb & Hwa)])|(out & q' & -> & Hne & -> & Hb & Hrb & Hwake)]; cbn [settle nothing].
  - exists []. split; cbn; rewrite ?app_nil_r; try done; [by rewrite app_nil_r in Hd| | | | | |].
    + by apply (pend_delete s []).
    + by apply (sleep_delete s []).
    + by rewrite lookup_delete_eq.
    + by rewrite lookup_delete_ne.
    + by intros [? _]%elem_of_difference.
    + intros [HW _]%elem_of_difference _. auto.
  - exists []. split; cbn; rewrite ?app_nil_r; try done; [by rewrite app_nil_r in Hd| | | | | |].
    + by apply (pend_insert s []).
    + by apply (sleep_insert s []).
    + by rewrite lookup_insert_eq.
    + by rewrite lookup_insert_ne.
    + intros _ _. split; [done|congruence].
    + intros HW _. apply still_asleep in HW as [HW _]; [|done]. auto.
  - exists q'. split; cbn; rewrite ?app_nil_r; try done; [by rewrite Hd, app_assoc| | | | | |].
    + by apply (pend_delete s (out ++ q')).
    + by apply (sleep_delete s (out ++ q')).
    + by rewrite lookup_delete_eq.
    + by rewrite lookup_delete_ne.
    + by intros [? _]%elem_of_difference.
    + intros [HW Hnw]%elem_of_difference _. exfalso. apply Hnw, elem_of_list_to_set, Hwake. rewrite Ewa.
      by apply (asleep_waits_W s (out ++ q')).
Qed.

Lemma take_prefix (d rest : list Z) k : (k = length d)%nat -> take k (d ++ rest) = d.
Proof. intros ->. by rewrite take_app_length. Qed.

(** The writer's call, first or resumed. *)
Lemma write_settle s q data reqsiz fl (a : pipe F) :
  pinv s q -> freed (pi s) = false -> W ∉ sleeping s -> data <> [] -> Z.of_nat (length data) <= reqsiz ->
  p_fifo a = p_fifo (pi s) -> p_lock a = LHELD W -> wr_waiter a = None -> rd_waiter a = rd_waiter (pi s) ->
  same_ends (pi s) a ->
  total (let! r := write_try 2 W reqsiz fl data a in
         Ok (settle s W (fun rest => PWrite rest reqsiz fl) (taken data) r)) (fun s' => exists q', pinv s' q').
Proof.
  intros Hi Hfr HW Hne Hreq Ef Ela Ewa Era (E4 & E5 & E6). pose proof Hi as [Hl He Hr Hd Hp Hs Hrd Hwr Hem Hfu Hwk].
  rewrite <- Ef in Hr. eapply total_bind; [exact (write_try_spec n q W reqsiz fl data a Hr Ela Ewa Hne)|].
  intros [o b] (Hlb & (E1 & E2 & E3) & Erb & Hcase). cbn [fst snd] in *. apply total_Ok.
  assert (rd_waiter b = waiting (pend s !! R) R) as Erb' by congruence. rewrite <- E4, <- E5, <- E1, <- E2 in He.
  destruct Hcase as [(Hfull & -> & Hb & Hwb)|(d & rest & -> & Hdne & Hb & Hwake & Hend)]; cbn [settle taken].
  { exists q. split; cbn; rewrite ?Nat.sub_diag, ?take_0, ?app_nil_r; try done.
    - by apply (pend_insert s q).
    - by apply (sleep_insert s q).
    - by rewrite lookup_insert_ne.
    - by rewrite lookup_insert_eq.
    - intros HR _. apply still_asleep in HR as [HR _]; [|done]. destruct (Hem HR Hfr). split; [done|congruence]. }
  rewrite length_app in Hreq.
  assert (forall Y, R ∈ Y ∖ list_to_set (woken b) -> Y = sleeping s -> False) as HnR.
  { intros Y [HR Hnw]%elem_of_difference ->. apply Hnw, elem_of_list_to_set, Hwake. rewrite Era. by apply (asleep_waits_R s q). }
  destruct Hend as [[-> Hwb]|(-> & Hrest & Hwb & Hfull)]; cbn [settle taken].
  - exists (q ++ d). split; cbn; rewrite ?app_nil_r; try done.
    + rewrite take_prefix by (rewrite length_app; lia). by rewrite Hd, app_assoc.
    + by apply (pend_delete s q).
    + by apply (sleep_delete s q).
    + by rewrite lookup_delete_ne.
    + by rewrite lookup_delete_eq.
    + intros HR. exfalso. by apply (HnR (sleeping s)).
    + by intros [? _]%elem_of_difference.
  - exists (q ++ d). split; cbn; rewrite ?app_nil_r; try done.
    + rewrite take_prefix by (rewrite length_app; lia). by rewrite Hd, app_assoc.
    + apply (pend_insert s q); [done|]. split_and!; [done|done|lia].
    + by apply (sleep_insert s q).
    + by rewrite lookup_insert_ne.
    + by rewrite lookup_insert_eq.
    + intros HR _. exfalso. apply (HnR (sleeping s)); [|done]. apply still_asleep in HR as [? ?]; [|done]. by apply elem_of_difference.
Qed.

(** Closing an end wakes the waiters of a pipe that still has the other end. *)
Lemma fini_spec (a : pipe F) fl :
  0 <= rd_alive a <= 1 -> 0 <= wr_alive a <= 1 ->
  (is_rpipe_ fl && (0 <? rd_alive a)) || (is_wpipe_ fl && (0 <? wr_alive a)) = true ->
  let c := pipe__fini_pctx a fl in
  p_fifo c = p_fifo a /\ p_lock c = p_lock a /\ rd_waiter c = rd_waiter a /\ wr_waiter c = wr_waiter a /\
  0 <= rd_alive c <= 1 /\ 0 <= wr_alive c <= 1 /\
  (freed c = true \/ (forall w, rd_waiter a = Some w \/ wr_waiter a = Some w -> w ∈ woken c)).
Proof.
  intros Hr Hw Hok c. subst c. unfold pipe__fini_pctx.
  assert (is_rpipe_ fl = true -> is_wpipe_ fl = false) as Hex by (unfold is_rpipe_, is_wpipe_, O_RDONLY, O_WRONLY; lia).
  set (a1 := if is_rpipe_ fl then _ else a). set (a2 := if is_wpipe_ fl then _ else a1).
  assert (p_fifo a2 = p_fifo a /\ p_lock a2 = p_lock a /\ rd_waiter a2 = rd_waiter a /\ wr_waiter a2 = wr_waiter a /\
    0 <= rd_alive a2 <= 1 /\ 0 <= wr_alive a2 <= 1 /\ (rd_alive a2 = 0 \/ wr_alive a2 = 0)) as (Ef & El & Er & Ew & Hr2 & Hw2 & H0).
  { subst a2 a1. destruct (is_rpipe_ fl); [rewrite (Hex eq_refl) in *|destruct (is_wpipe_ fl); [|done]]; cbn [andb orb] in Hok;
      rewrite ?orb_false_r in Hok; cbn -[signed]; rewrite signed_small by lia; split_and!; try done; lia. }
  cbv zeta. destruct (Z.eqb_spec (nz (rd_alive a2) + nz (wr_alive a2)) 1) as [E|E].
  - destruct (deliver_wr_frame a2 POLLHUP) as (P & w & ->). destruct (deliver_rd_frame (a2 <| wr_pollee := P |> <| woken := woken a2 ++ w |>) POLLHUP) as (P' & w' & ->).
    rewrite !wake_frame. cbn. split_and!; try done; try lia. right. intros t. rewrite <- Er, <- Ew.
    intros [->| ->]; rewrite ?elem_of_app, ?list_elem_of_singleton; tauto.
  - destruct (Z.eqb_spec (nz (rd_alive a2) + nz (wr_alive a2)) 0) as [E2|E2].
    + cbn. split_and!; try done; try lia; by left.
    + exfalso. unfold nz in *. destruct (rd_alive a2 =? 0) eqn:?, (wr_alive a2 =? 0) eqn:?; lia.
Qed.

Lemma close_settle s q fl :
  pinv s q -> close_ok s fl = true ->
  let c := pipe__fini_pctx (pi s) fl in
  pinv (s <| pi := c <| woken := [] |> |> <| sleeping ::= fun X => X ∖ list_to_set (woken c) |>) q.
Proof.
  intros Hi Hok c. pose proof Hi as [Hl [He1 He2] Hr Hd Hp Hs Hrd Hwr Hem Hfu Hwk].
  destruct (fini_spec (pi s) fl He1 He2 Hok) as (Ef & El & Er & Ew & H1 & H2 & Hf). fold c in Ef, El, Er, Ew, H1, H2, Hf.
  assert (forall t, t ∈ sleeping s ∖ list_to_set (woken c) -> freed c = false ->
    rd_waiter (pi s) = Some t \/ wr_waiter (pi s) = Some t -> False) as Hno.
  { intros t [_ Hn]%elem_of_difference Hfc Ht. destruct Hf as [?|Hf]; [congruence|]. by apply Hn, elem_of_list_to_set, Hf. }
  split; cbn; try congruence; try done.
  - by intros x [Hx _]%elem_of_difference; apply Hs.
  - intros HR Hfc. exfalso. apply (Hno R HR Hfc). left. apply elem_of_difference in HR as [HR _]. by apply (asleep_waits_R s q).
  - intros HW Hfc. exfalso. apply (Hno W HW Hfc). right. apply elem_of_difference in HW as [HW _]. by apply (asleep_waits_W s q).
Qed.

(** Events of this reader and this writer, and of anyone else: a signal, a close, the scheduler. *)
Definition ev_ok (e : pev) : Prop :=
  match e with
  | ERead p _ _ => p = R
  | EWrite p _ _ => p = W
  | EOpen _ _ => False
  | _ => True
  end.

Lemma lookup_none_awake s q p : pinv s q -> pend s !! p = None -> p ∉ sleeping s.
Proof. intros Hi Hp Hs. destruct (pv_sleep _ _ Hi p Hs). congruence. Qed.

(** A call that returns without touching the pipe. *)
Lemma settle_idle s q p k acc ret :
  pinv s q -> pend s !! p = None -> woken (pi s) = [] -> acc (Done ret []) = [] -> pinv (settle s p k acc (Done ret [], pi s)) q.
Proof.
  intros Hi Hp Hw Ha. destruct Hi as [Hl He Hr Hd Hpe Hs Hrd Hwr Hem Hfu Hwk]. cbn. rewrite Ha, Hw.
  split; cbn; rewrite ?app_nil_r, ?delete_id by done; try done.
  - intros x [Hx _]%elem_of_difference. by apply Hs.
  - intros [Hx _]%elem_of_difference. auto.
  - intros [Hx _]%elem_of_difference. auto.
Qed.

Lemma pinv_wake s q p : pinv s q -> pinv (s <| sleeping ::= fun X => X ∖ {[p]} |>) q.
Proof.
  intros [Hl He Hr Hd Hp Hs Hrd Hwr Hem Hfu Hwk]. split; cbn; try done.
  - intros x [Hx _]%elem_of_difference. by apply Hs.
  - intros [Hx _]%elem_of_difference. auto.
  - intros [Hx _]%elem_of_difference. auto.
Qed.

Lemma pstep_inv s q e : pinv s q -> ev_ok e -> total (pstep s e) (fun s' => exists q', pinv s' q').
Proof.
  intros Hi He. unfold pstep. destruct (freed (pi s)) eqn:Hfr; [apply total_Ok; by exists q|].
  pose proof (pv_lock _ _ Hi) as Hl. pose proof (pv_woken _ _ Hi) as Hwk.
  destruct e as [p siz fl|p data fl|p fl|p|p|fl]; cbn in He; try done.
  - subst p. destruct (decide _) as [[Hn Hsz]|]; [|apply total_Ok; by exists q]. unfold pipe_read.
    destruct (is_wpipe_ fl); [apply total_Ok; exists q; by apply settle_idle|].
    destruct (Z.eqb_spec siz 0); [apply total_Ok; exists q; by apply settle_idle|]. rewrite with_lock_free by done.
    apply (read_settle s q); try done; [by apply (lookup_none_awake s q)|lia|]. cbn. by rewrite (pv_rd _ _ Hi), Hn.
  - subst p. destruct (decide _) as [Hn|]; [|apply total_Ok; by exists q]. unfold pipe_write. cbv zeta.
    destruct (is_rpipe_ fl); [apply total_Ok; exists q; by apply settle_idle|].
    destruct (bool_decide (data = [])) eqn:Ed; [apply total_Ok; exists q; by apply settle_idle|].
    destruct (rd_alive (pi s) =? 0); [apply total_Ok; exists q; by apply settle_idle|].
    rewrite with_lock_free by done. apply bool_decide_eq_false in Ed.
    apply (write_settle s q); try done; [by apply (lookup_none_awake s q)|]. cbn. by rewrite (pv_wr _ _ Hi), Hn.
  - destruct (decide (p ∈ sleeping s)) as [|Hp]; [apply total_Ok; by exists q|].
    destruct (pend s !! p) as [k|] eqn:Ek; [|apply total_Ok; by exists q]. pose proof (pv_pend _ _ Hi p k Ek) as Hk.
    destruct k as [siz fl|data reqsiz fl|fl]; [| |done].
    + destruct Hk as [-> Hsz]. unfold pipe_read_resume. rewrite with_lock_free by done. by apply (read_settle s q).
    + destruct Hk as (-> & Hne & Hreq). unfold pipe_write_resume. rewrite with_lock_free by done. by apply (write_settle s q).
  - apply total_Ok. exists q. by apply pinv_wake.
  - destruct (close_ok s fl) eqn:Ec; [|apply total_Ok; by exists q]. apply total_Ok. exists q. by apply close_settle.
Qed.

Lemma prun_inv es : forall s q, pinv s q -> Forall ev_ok es -> total (prun s es) (fun s' => exists q', pinv s' q').
Proof.
  induction es as [|e es IH]; intros s q Hi He; cbn [prun]; [apply total_Ok; by exists q|].
  apply Forall_cons in He as [He Hes]. eapply total_bind; [by eapply pstep_inv|]. intros s' [q' Hi']. by eapply IH.
Qed.
End System.

(** A pipe nobody uses yet, with both ends open. *)
Definition fresh_sys (a : pipe F) : psys := PSys a ∅ ∅ [] [].

Definition fresh_pipe (n : Z) (a : pipe F) : Prop :=
  rd_alive a = 1 /\ wr_alive a = 1 /\ p_lock a = LFREE /\ rd_waiter a = None /\ wr_waiter a = None /\
  woken a = [] /\ bq_rep n (p_fifo a) [].

Lemma fresh_pinv n R W a : fresh_pipe n a -> pinv n R W (fresh_sys a) [].
Proof.
  intros (E1 & E2 & El & Er & Ew & Ek & Hr). split; cbn; try done; try (rewrite ?lookup_empty; done).
  - rewrite E1, E2. lia.
  all: set_solver.
Qed.

Lemma prun_reliable n R W a es :
  R <> W -> fresh_pipe n a -> Forall (ev_ok R W) es ->
  total (prun (fresh_sys a) es) (fun s => exists q,
    bq_rep n (p_fifo (pi s)) q /\ accepted s = received s ++ q /\ p_lock (pi s) = LFREE /\
    (R ∈ sleeping s -> freed (pi s) = false -> q = [] /\ wr_alive (pi s) <> 0) /\
    (W ∈ sleeping s -> freed (pi s) = false -> Z.of_nat (length q) = n)).
Proof.
  intros Hne Hf He. eapply total_mono; [by apply (prun_inv n R W Hne es _ _ (fresh_pinv n R W a Hf))|].
  intros s [q Hi]. exists q. split_and!; by apply Hi.
Qed.

(** ** Opening a named pipe *)

Lemma open_writer f rp wp W :
  pipe_open (Pipe 0 0 f LFREE None None rp wp [] false) W O_WRONLY =
  Ok (Sleep [], Pipe 0 1 f LFREE None (Some W) rp wp [] false).
Proof.
  unfold pipe_open. rewrite with_lock_free by done.
  change (is_rpipe_ O_WRONLY) with false. change (is_wpipe_ O_WRONLY) with true. cbn -[signed release].
  by rewrite release_pipe by done.
Qed.

Lemma open_reader f rp wp W R :
  pipe_open (Pipe 0 1 f LFREE None (Some W) rp wp [] false) R O_RDONLY =
  Ok (Done 0 [], Pipe 1 1 f LFREE None (Some W) rp wp [] false).
Proof.
  unfold pipe_open. rewrite with_lock_free by done. change (is_rpipe_ O_RDONLY) with true. cbn -[signed release].
  by rewrite release_pipe by done.
Qed.

Lemma read_empty n f rp wp w R siz :
  bq_rep n f [] -> 0 < siz ->
  exists f', pipe_read (Pipe 1 1 f LFREE None w rp wp [] false) R siz O_RDONLY =
    Ok (Sleep [], Pipe 1 1 f' LFREE (Some R) w rp wp [] false) /\ bq_rep n f' [].
Proof.
  intros Hr Hs. unfold pipe_read. change (is_wpipe_ O_RDONLY) with false. rewrite (proj2 (Z.eqb_neq siz 0)) by lia.
  rewrite with_lock_free by done. unfold read_try. cbn [p_fifo upd].
  destruct (bq_read_law n f [] siz Hr) as ([out f'] & E & Eo & Hf); [lia|]. rewrite take_nil in Eo.
  cbn in Eo. subst out. exists f'. split; [|by rewrite drop_nil in Hf].
  rewrite E. cbn -[release]. change (nonblock O_RDONLY) with false. unfold block_rd. cbn -[release].
  by rewrite release_pipe by done.
Qed.

(** The events the two tasks cause themselves: no signal, no exit. *)
Definition own (R W : Z) (e : pev) : Prop :=
  match e with
  | ERead p _ _ | EWrite p _ _ | EOpen p _ | ERun p => p = R \/ p = W
  | EWake _ | EClose _ => False
  end.

Definition all_asleep (R W : Z) (s : psys) : Prop :=
  forall p, p = R \/ p = W -> p ∈ sleeping s /\ is_Some (pend s !! p).

(** Tasks that all sleep do nothing. *)
Lemma asleep_stuck R W s e : all_asleep R W s -> own R W e -> pstep s e = Ok s.
Proof.
  intros Ha He. unfold pstep. destruct (freed (pi s)); [done|].
  assert (forall p, p = R \/ p = W -> pend s !! p <> None) as Hn.
  { intros p Hp E. destruct (Ha p Hp) as [_ [k Hk]]. congruence. }
  destruct e as [p siz fl|p data fl|p fl|p|p|fl]; cbn in He; try done.
  - rewrite decide_False; [done|]. intros [E _]. by apply (Hn p He).
  - rewrite decide_False; [done|]. by apply Hn.
  - rewrite decide_False; [done|]. by apply Hn.
  - rewrite decide_True; [done|]. by apply Ha.
Qed.

Lemma asleep_forever R W s es : all_asleep R W s -> Forall (own R W) es -> prun s es = Ok s.
Proof.
  intros Ha. induction es as [|e es IH]; intros He; [done|]. apply Forall_cons in He as [He Hes]. cbn [prun].
  rewrite (asleep_stuck R W) by done. by apply IH.
Qed.

Lemma prun_app es es' s s' : prun s es = Ok s' -> prun s (es ++ es') = prun s' es'.
Proof.
  revert s. induction es as [|e es IH]; intros s Hs; cbn [prun app] in *; [by inversion Hs|].
  destruct (pstep s e); cbn in *; [by apply IH|done].
Qed.

Lemma step_open s p fl r :
  freed (pi s) = false -> pend s !! p = None -> pipe_open (pi s) p fl = Ok r ->
  pstep s (EOpen p fl) = Ok (settle s p (fun _ => POpen fl) nothing r).
Proof. intros Hf Hp Hr. unfold pstep. by rewrite Hf, decide_True, Hr by done. Qed.

Lemma step_read s p siz fl r :
  freed (pi s) = false -> pend s !! p = None -> 0 <= siz -> pipe_read (pi s) p siz fl = Ok r ->
  pstep s (ERead p siz fl) = Ok (settle s p (fun _ => PRead siz fl) nothing r).
Proof. intros Hf Hp Hs Hr. unfold pstep. by rewrite Hf, decide_True, Hr by done. Qed.

(** A writer that opens first sleeps; the open of the reader counts it as a peer, returns
    without waking it, and the reader sleeps in its first read. *)
Lemma open_writer_first n R W siz f rp wp :
  R <> W -> 0 < siz -> bq_rep n f [] ->
  exists s, prun (fresh_sys (Pipe 0 0 f LFREE None None rp wp [] false))
              [EOpen W O_WRONLY; EOpen R O_RDONLY; ERead R siz O_RDONLY] = Ok s /\ all_asleep R W s.
Proof.
  intros Hne Hsz Hq. cbn [prun].
  rewrite (step_open (fresh_sys (Pipe 0 0 f LFREE None None rp wp [] false)) W O_WRONLY _ eq_refl (lookup_empty W)
             (open_writer f rp wp W)). cbn [res_bind].
  set (s1 := settle _ _ _ _ _). assert (pend s1 !! R = None) as E1 by (unfold s1; cbn -[insert lookup]; by rewrite lookup_insert_ne).
  rewrite (step_open s1 R O_RDONLY _ eq_refl E1 (open_reader f rp wp W R)). cbn [res_bind].
  set (s2 := settle _ _ _ _ _). assert (pend s2 !! R = None) as E2 by (unfold s2; cbn -[delete lookup]; by rewrite lookup_delete_eq).
  destruct (read_empty n f rp wp (Some W) R siz Hq Hsz) as (f' & Er & _).
  rewrite (step_read s2 R siz O_RDONLY _ eq_refl E2 ltac:(lia) Er). eexists. split; [done|].
  intros p [->| ->]; cbn -[insert lookup union difference]; (split; [set_solver|]); [by rewrite lookup_insert_eq|].
  rewrite lookup_insert_ne, lookup_delete_ne by done. unfold s1. cbn -[insert lookup]. by rewrite lookup_insert_eq.
Qed.

(** ** What one reader and one writer do not cover *)

(** a writer woken because the last reader has closed finds the pipe still full and goes to
    sleep again, and no reader is left to wake it. *)
Theorem writer_sleeps_without_readers n q p reqsiz fl data (a : pipe F) :
  bq_rep n (p_fifo a) q -> Z.of_nat (length q) = n -> p_lock a = LFREE -> rd_alive a = 0 ->
  total (pipe_write_resume a p reqsiz fl data) (fun r =>
    fst r = Sleep data /\ wr_waiter (snd r) = Some p /\ rd_alive (snd r) = 0 /\ woken (snd r) = woken a).
Proof.
  intros Hr Hfull Hl Ha. unfold pipe_write_resume. rewrite with_lock_free by done.
  eapply total_mono; [by apply (write_full n q)|]. intros r (E & _ & _ & [Es _] & _ & Ew & Ek). cbn in Es, Ek. by rewrite Es.
Qed.

(** when a second task reads from an empty pipe that has a sleeping reader, the assertion of
    [block_as] fails. *)
Theorem second_reader_panics n p p' siz (a : pipe F) :
  bq_rep n (p_fifo a) [] -> p_lock a = LFREE -> wr_alive a <> 0 -> rd_waiter a = Some p' -> 0 < siz ->
  pipe_read a p siz O_RDONLY = Fault AssertFailed.
Proof.
  intros Hr Hl Ha Hw Hs. unfold pipe_read. change (is_wpipe_ O_RDONLY) with false. rewrite (proj2 (Z.eqb_neq siz 0)) by lia.
  rewrite with_lock_free by done. unfold read_try. destruct (bq_read_law n (p_fifo a) [] siz Hr) as ([out f'] & E & Eo & Hf); [lia|].
  rewrite take_nil in Eo. cbn in Eo. subst out. cbn [p_fifo upd]. 
  change (p_fifo (a <| p_lock := LHELD p |>)) with (p_fifo a). rewrite E. cbn.
  change (nonblock O_RDONLY) with false. rewrite (proj2 (Z.eqb_neq _ 0) Ha). cbn. unfold block_rd. cbn. by rewrite Hw.
Qed.

End Pipe.

(** ** Creating pipes *)

(** [vfs_pipe_create_dead]: [pb] is the page and [mem] the memory of the structure, [None] where
    the allocation fails; the fields the function does not set keep what the memory holds. *)
Definition vfs_pipe_create_dead (pb : option (list Z)) (mem : option (pipe fifo)) : res (Z * option (pipe fifo)) :=
  match pb, mem with
  | None, _ | _, None => Ok (- ENOMEM, None)
  | Some pb, Some m =>
      let m := m <| rd_alive := 0 |> <| wr_alive := 0 |> in
      let! f := fifo_init (Some (p_fifo m)) (Some pb) PAGE_SIZ in
      let! f := deref f in
      let m := m <| p_fifo := f |> <| p_lock ::= lock_init |> <| rd_waiter := None |> <| wr_waiter := None |>
                 <| rd_pollee ::= fs_pollee_init |> <| wr_pollee ::= fs_pollee_init |> in
      Ok (0, Some m)
  end.

Definition vfs_pipe_create_anony (pb : option (list Z)) (mem : option (pipe fifo)) : res (Z * option (pipe fifo)) :=
  let! r := vfs_pipe_create_dead pb mem in
  let '(ret, p) := r in
  if ret <? 0 then Ok (ret, p)
  else let! a := deref p in Ok (0, Some (a <| rd_alive := 1 |> <| wr_alive := 1 |>)).

(** [vfs_drift_cb_pipe_open]: [pd] is [pdata_pipe] of the node; the pipe afterwards comes with
    how the call ended. *)
Definition vfs_drift_cb_pipe_open (pd pb_mem : option (pipe fifo)) (pb : option (list Z)) (p args : Z) : res (outcome * option (pipe fifo)) :=
  let! r := match pd with Some a => Ok (0, Some a) | None => vfs_pipe_create_dead pb pb_mem end in
  let '(ret, a) := r in
  if ret <? 0 then Ok (Done ret [], a)
  else let! a := deref a in let! r := pipe_open a p args in Ok (fst r, Some (snd r)).

(** Memory for a pipe: no task uses the lock, and nothing has been woken or freed. *)
Definition pipe_mem (m : pipe fifo) : Prop :=
  inside (p_lock m) = ∅ /\ asleep (p_lock m) = ∅ /\ woken m = [] /\ freed m = false.

Definition page (pb : list Z) : Prop := length pb = Z.to_nat PAGE_SIZ.

Lemma create_dead_spec pb m :
  page pb -> pipe_mem m ->
  exists f rp wp, vfs_pipe_create_dead (Some pb) (Some m) = Ok (0, Some (Pipe 0 0 f LFREE None None rp wp [] false)) /\
    bq_rep PAGE_SIZ f [].
Proof.
  intros Hp (Hi & Ha & Hk & Hf). destruct m as [a b f l rw ww rp wp wk fr]. destruct l as [h hr se ins asl]. cbn in *. subst.
  eexists _, _, _. split; [done|]. split; [|done].
  split; cbn; try done; [split; [done|by exists (2 ^ 52)]|by rewrite Hp|lia].
Qed.

(** C2: a pipe made by [pipe(2)], used by one reader and one writer, is a reliable byte stream
    under every interleaving of their calls with signals and closes: no assertion fails, the
    bytes delivered followed by those still in the pipe are exactly the bytes accepted, in order;
    the reader sleeps only while the pipe is empty and a writer is left, and the writer only
    while the pipe is full. *)
Theorem pipe_reliable pb m R W es :
  page pb -> pipe_mem m -> R <> W -> Forall (ev_ok R W) es ->
  exists a, vfs_pipe_create_anony (Some pb) (Some m) = Ok (0, Some a) /\
  total (prun (fresh_sys a) es) (fun s => exists q,
    bq_rep PAGE_SIZ (p_fifo (pi s)) q /\ accepted s = received s ++ q /\
    (R ∈ sleeping s -> freed (pi s) = false -> q = [] /\ wr_alive (pi s) <> 0) /\
    (W ∈ sleeping s -> freed (pi s) = false -> Z.of_nat (length q) = PAGE_SIZ)).
Proof.
  intros Hp Hm Hne He. destruct (create_dead_spec pb m Hp Hm) as (f & rp & wp & E & Hr).
  unfold vfs_pipe_create_anony. rewrite E. eexists. split; [done|].
  eapply total_mono; [by apply (prun_reliable PAGE_SIZ R W)|].
  intros s (q & H1 & H2 & _ & H3 & H4). exists q. split_and!; try done; by apply H3.
Qed.

(** C37: a named pipe whose writer opens first never gets going: the reader's open does not wake
    the writer, its first read sleeps, and no call of the two changes anything any more. *)
Theorem named_pipe_open_deadlock pb m R W siz es :
  page pb -> pipe_mem m -> R <> W -> 0 < siz -> Forall (own R W) es ->
  exists a s, vfs_pipe_create_dead (Some pb) (Some m) = Ok (0, Some a) /\
    prun (fresh_sys a) ([EOpen W O_WRONLY; EOpen R O_RDONLY; ERead R siz O_RDONLY] ++ es) = Ok s /\
    R ∈ sleeping s /\ W ∈ sleeping s.
Proof.
  intros Hp Hm Hne Hs He. destruct (create_dead_spec pb m Hp Hm) as (f & rp & wp & E & Hr).
  destruct (open_writer_first PAGE_SIZ R W siz f rp wp Hne Hs Hr) as (s & Es & Ha).
  eexists _, s. split; [done|]. rewrite (prun_app _ _ _ s Es), (asleep_forever R W) by done.
  split_and!; [done|apply Ha; by left|apply Ha; by right].
Qed.

(** ** Witnesses *)

Definition mem0 : pipe fifo :=
  Pipe 7 7 (Fifo [] 0 0 0) (Lock None 0 (Sema 0 []) ∅ ∅) None None (Pollee 3 []) (Pollee 5 []) [] false.

Definition page0 : list Z := repeat 0 4096.

(** The reader comes first, sleeps, is woken by a write and gets its bytes; then the writer closes. *)
Definition talk : list pev :=
  [ERead 1 4 O_RDONLY; EWrite 2 [10; 11; 12] O_WRONLY; ERun 1; EClose O_WRONLY; ERead 1 4 O_RDONLY].

Lemma pipe_reliable_witness :
  exists a, vfs_pipe_create_anony (Some page0) (Some mem0) = Ok (0, Some a) /\
  total (prun (fresh_sys a) talk) (fun s => exists q,
    bq_rep PAGE_SIZ (p_fifo (pi s)) q /\ accepted s = received s ++ q /\
    (1 ∈ sleeping s -> freed (pi s) = false -> q = [] /\ wr_alive (pi s) <> 0) /\
    (2 ∈ sleeping s -> freed (pi s) = false -> Z.of_nat (length q) = PAGE_SIZ)).
Proof.
  apply pipe_reliable; [reflexivity|split_and!; reflexivity|discriminate|].
  repeat (apply Forall_cons; split; [exact eq_refl || exact I|]). apply Forall_nil. exact I.
Defined.

Example talk_received :
  match vfs_pipe_create_anony (Some page0) (Some mem0) with
  | Ok (_, Some a) => match prun (fresh_sys a) talk with Ok s => received s = [10; 11; 12] | Fault _ => False end
  | _ => False
  end.
Proof. vm_compute. reflexivity. Qed.

Lemma named_pipe_open_deadlock_witness :
  exists a s, vfs_pipe_create_dead (Some page0) (Some mem0) = Ok (0, Some a) /\
    prun (fresh_sys a) ([EOpen 2 O_WRONLY; EOpen 1 O_RDONLY; ERead 1 8 O_RDONLY] ++ [ERun 1; ERun 2]) = Ok s /\
    1 ∈ sleeping s /\ 2 ∈ sleeping s.
Proof.
  apply named_pipe_open_deadlock; [reflexivity|split_and!; reflexivity|discriminate|reflexivity|].
  apply Forall_cons. split; [left; reflexivity|]. apply Forall_cons. split; [right; reflexivity|]. apply Forall_nil. exact I.
Defined.

(** A full queue of four bytes. *)
Definition full4 : fifo := Fifo [1; 2; 3; 4] 4 0 8.

Lemma full4_rep : bq_rep 4 full4 [1; 2; 3; 4].
Proof.
  split; [|reflexivity]. split; cbn; try reflexivity; try lia; [split; [split; reflexivity|exists (2 ^ 62); reflexivity]|].
  intros k Hk. do 4 (destruct k as [|k]; [reflexivity|]). cbn in Hk. lia.
Qed.

Lemma writer_sleeps_without_readers_witness :
  total (pipe_write_resume (Pipe 0 1 full4 LFREE None (Some 2) (Pollee 0 []) (Pollee 0 []) [] false) 2 6 O_WRONLY [5; 6])
    (fun r => fst r = Sleep [5; 6] /\ wr_waiter (snd r) = Some 2 /\ rd_alive (snd r) = 0 /\ woken (snd r) = []).
Proof. apply (writer_sleeps_without_readers 4 [1; 2; 3; 4]); [exact full4_rep|reflexivity..]. Defined.

Lemma second_reader_panics_witness :
  pipe_read (Pipe 1 1 (fifo_clear full4) LFREE (Some 1) None (Pollee 0 []) (Pollee 0 []) [] false) 3 8 O_RDONLY = Fault AssertFailed.
Proof.
  apply (second_reader_panics 4 3 1); [|reflexivity|discriminate|reflexivity|reflexivity]. split; [|reflexivity].
  split; cbn; try reflexivity; try lia. split; [split; reflexivity|exists (2 ^ 62); reflexivity].
Defined.
