(* ===== verification/Rbtree.v ===== *)
(** * Red-black trees: [kernel/klib/rbtree.c]

    The nodes live in a heap of addresses with their parent, child and colour
    fields, and every operation is the sequence of reads and writes of the C
    code.  [rep t x] says that the tree whose root pointer and nodes are in [t]
    has the shape and colours of the abstract tree [x], parent pointers
    included. *)
From Stdlib Require Import ZArith Lia List Bool.
From stdpp Require Import base list gmap.
From S2P Require Import Prelude.

#[local] Open Scope Z_scope.

Definition RED : Z := 0.
Definition BLACK : Z := 1.

(** [rbnode_t]; a null pointer is 0. *)
Record rbnode := RbNode { n_color : Z; n_left : Z; n_right : Z; n_parent : Z }.

#[export] Instance eta_rbnode : Eta rbnode :=
  fun n => RbNode (n_color n) (n_left n) (n_right n) (n_parent n).

(** [rbtree_t] with the memory its nodes live in. *)
Record rbtree := RbTree { root : Z; nodes : gmap Z rbnode }.

#[export] Instance eta_rbtree : Eta rbtree := fun t => RbTree (root t) (nodes t).

Definition RBTREE_INIT : rbtree := RbTree 0 ∅.

(** ** Field accesses through a pointer *)

Definition fld {A : Type} (t : rbtree) (x : Z) (f : rbnode -> A) : res A :=
  let! n := deref (nodes t !! x) in Ok (f n).

Definition put (t : rbtree) (x : Z) (f : rbnode -> rbnode) : res rbtree :=
  let! n := deref (nodes t !! x) in Ok (t <| nodes ::= <[x := f n]> |>).

Definition set_color (t : rbtree) (x c : Z) : res rbtree := put t x (fun n => n <| n_color := c |>).
Definition set_left (t : rbtree) (x v : Z) : res rbtree := put t x (fun n => n <| n_left := v |>).
Definition set_right (t : rbtree) (x v : Z) : res rbtree := put t x (fun n => n <| n_right := v |>).
Definition set_parent (t : rbtree) (x v : Z) : res rbtree := put t x (fun n => n <| n_parent := v |>).

(** [if (x) x->parent = v] *)
Definition set_parent_opt (t : rbtree) (x v : Z) : res rbtree :=
  if x =? 0 then Ok t else set_parent t x v.

(** The statement that puts [y] where [x] hangs: below the root pointer or in
    the child field of the parent of [x]. *)
Definition hang (t : rbtree) (x y : Z) : res rbtree :=
  let! xp := fld t x n_parent in
  if xp =? 0 then Ok (t <| root := y |>)
  else
    let! xpl := fld t xp n_left in
    if x =? xpl then set_left t xp y else set_right t xp y.

(** ** Rotations *)

Definition rotate_left (t : rbtree) (x : Z) : res (Z * rbtree) :=
  let! y := fld t x n_right in
  let! yl := fld t y n_left in
  let! t := set_right t x yl in
  let! yl := fld t y n_left in
  let! t := set_parent_opt t yl x in
  let! xp := fld t x n_parent in
  let! t := set_parent t y xp in
  let! t := hang t x y in
  let! t := set_left t y x in
  let! t := set_parent t x y in
  Ok (y, t).

Definition rotate_right (t : rbtree) (y : Z) : res (Z * rbtree) :=
  let! x := fld t y n_left in
  let! xr := fld t x n_right in
  let! t := set_left t y xr in
  let! xr := fld t x n_right in
  let! t := set_parent_opt t xr y in
  let! yp := fld t y n_parent in
  let! t := set_parent t x yp in
  let! t := hang t y x in
  let! t := set_right t x y in
  let! t := set_parent t y x in
  Ok (x, t).

Definition isred (t : rbtree) (x : Z) : res bool :=
  if x =? 0 then Ok false else let! c := fld t x n_color in Ok (c =? RED).

(** [!x || x->color == BLACK] *)
Definition isblack (t : rbtree) (x : Z) : res bool :=
  if x =? 0 then Ok true else let! c := fld t x n_color in Ok (c =? BLACK).

(** ** Insertion *)

(** One turn of the loop of [fixup] below a red parent. *)
Definition fixup_step (t : rbtree) (z : Z) : res (Z * rbtree) :=
  let! p := fld t z n_parent in
  let! g := fld t p n_parent in
  let! gl := fld t g n_left in
  if p =? gl then
    let! u := fld t g n_right in
    let! ru := isred t u in
    if ru then
      let! t := set_color t p BLACK in
      let! t := set_color t u BLACK in
      let! t := set_color t g RED in
      Ok (g, t)
    else
      let! pr := fld t p n_right in
      let! r := (if z =? pr then
                   let! r := rotate_left t p in
                   let t := snd r in
                   let! p' := fld t p n_parent in
                   let! g := fld t p' n_parent in
                   Ok (p, p', g, t)
                 else Ok (z, p, g, t)) in
      let '(z, p, g, t) := r in
      let! t := set_color t p BLACK in
      let! t := set_color t g RED in
      let! r := rotate_right t g in
      Ok (z, snd r)
  else
    let! u := fld t g n_left in
    let! ru := isred t u in
    if ru then
      let! t := set_color t p BLACK in
      let! t := set_color t u BLACK in
      let! t := set_color t g RED in
      Ok (g, t)
    else
      let! pl := fld t p n_left in
      let! r := (if z =? pl then
                   let! r := rotate_right t p in
                   let t := snd r in
                   let! p' := fld t p n_parent in
                   let! g := fld t p' n_parent in
                   Ok (p, p', g, t)
                 else Ok (z, p, g, t)) in
      let '(z, p, g, t) := r in
      let! t := set_color t p BLACK in
      let! t := set_color t g RED in
      let! r := rotate_left t g in
      Ok (z, snd r).

Fixpoint fixup_loop (fuel : nat) (t : rbtree) (z : Z) : res rbtree :=
  match fuel with
  | O => Fault OutOfFuel
  | S fuel =>
      let! go := (if z =? root t then Ok false else let! p := fld t z n_parent in isred t p) in
      if go then
        let! r := fixup_step t z in
        fixup_loop fuel (snd r) (fst r)
      else set_color t (root t) BLACK
  end.

(** The loop climbs one level at least, so it is over after as many turns as
    there are nodes. *)
Definition fixup (t : rbtree) (z : Z) : res rbtree := fixup_loop (S (size (nodes t))) t z.

(** The pointer a node is linked through: [&t->root], [&p->left] or [&p->right]. *)
Inductive slot := AtRoot | AtLeft (p : Z) | AtRight (p : Z).

Definition slot_get (t : rbtree) (pp : slot) : res Z :=
  match pp with
  | AtRoot => Ok (root t)
  | AtLeft p => fld t p n_left
  | AtRight p => fld t p n_right
  end.

Definition slot_set (t : rbtree) (pp : slot) (v : Z) : res rbtree :=
  match pp with
  | AtRoot => Ok (t <| root := v |>)
  | AtLeft p => set_left t p v
  | AtRight p => set_right t p v
  end.

Definition replace (t : rbtree) (n : Z) (pp : slot) : res rbtree :=
  let! old := slot_get t pp in
  let! o := deref (nodes t !! old) in
  let! t := put t n (fun m => m <| n_color := n_color o |> <| n_left := n_left o |>
                                <| n_right := n_right o |> <| n_parent := n_parent o |>) in
  let! ol := fld t old n_left in
  let! t := set_parent_opt t ol n in
  let! or := fld t old n_right in
  let! t := set_parent_opt t or n in
  slot_set t pp n.

Definition rbtree_link (t : rbtree) (n : Z) (pp : slot) (p : Z) : res rbtree :=
  let! cur := slot_get t pp in
  if negb (cur =? 0) then replace t n pp
  else
    let! t := put t n (fun m => m <| n_color := RED |> <| n_left := 0 |>
                                  <| n_right := 0 |> <| n_parent := p |>) in
    slot_set t pp n.

Definition rbtree_fixup (t : rbtree) (n : Z) : res rbtree := fixup t n.

(** ** Deletion *)

Fixpoint minimum_loop (fuel : nat) (t : rbtree) (x : Z) : res Z :=
  match fuel with
  | O => Fault OutOfFuel
  | S fuel =>
      let! l := fld t x n_left in
      if l =? 0 then Ok x else minimum_loop fuel t l
  end.

Definition minimum (t : rbtree) (x : Z) : res Z := minimum_loop (S (size (nodes t))) t x.

(** The turn of the loop of [fixup_del] once the sibling [w] of [x] is not red,
    with [x] on the left and on the right of [p]: the next [x] and the tree. *)
Definition fixup_del_left (t : rbtree) (p w : Z) : res (Z * rbtree) :=
  let! wl := fld t w n_left in
  let! bl := isblack t wl in
  let! wr := fld t w n_right in
  let! br := isblack t wr in
  if bl && br then
    let! t := set_color t w RED in
    Ok (p, t)
  else
    let! r := (if br then
                 let! t := (if wl =? 0 then Ok t else set_color t wl BLACK) in
                 let! t := set_color t w RED in
                 let! r := rotate_right t w in
                 let! w := fld (snd r) p n_right in
                 Ok (w, snd r)
               else Ok (w, t)) in
    let '(w, t) := r in
    let! pc := fld t p n_color in
    let! t := set_color t w pc in
    let! t := set_color t p BLACK in
    let! wr := fld t w n_right in
    let! t := (if wr =? 0 then Ok t else set_color t wr BLACK) in
    let! r := rotate_left t p in
    Ok (root (snd r), snd r).

Definition fixup_del_right (t : rbtree) (p w : Z) : res (Z * rbtree) :=
  let! wr := fld t w n_right in
  let! br := isblack t wr in
  let! wl := fld t w n_left in
  let! bl := isblack t wl in
  if br && bl then
    let! t := set_color t w RED in
    Ok (p, t)
  else
    let! r := (if bl then
                 let! t := (if wr =? 0 then Ok t else set_color t wr BLACK) in
                 let! t := set_color t w RED in
                 let! r := rotate_left t w in
                 let! w := fld (snd r) p n_left in
                 Ok (w, snd r)
               else Ok (w, t)) in
    let '(w, t) := r in
    let! pc := fld t p n_color in
    let! t := set_color t w pc in
    let! t := set_color t p BLACK in
    let! wl := fld t w n_left in
    let! t := (if wl =? 0 then Ok t else set_color t wl BLACK) in
    let! r := rotate_right t p in
    Ok (root (snd r), snd r).

Definition fixup_del_step (t : rbtree) (x : Z) : res (Z * rbtree) :=
  let! p := (if x =? 0 then Ok 0 else fld t x n_parent) in
  let! pl := fld t p n_left in
  if x =? pl then
    let! w := fld t p n_right in
    let! rw := isred t w in
    let! r := (if rw then
                 let! t := set_color t w BLACK in
                 let! t := set_color t p RED in
                 let! r := rotate_left t p in
                 let! w := fld (snd r) p n_right in
                 Ok (w, snd r)
               else Ok (w, t)) in
    fixup_del_left (snd r) p (fst r)
  else
    let! w := fld t p n_left in
    let! rw := isred t w in
    let! r := (if rw then
                 let! t := set_color t w BLACK in
                 let! t := set_color t p RED in
                 let! r := rotate_right t p in
                 let! w := fld (snd r) p n_left in
                 Ok (w, snd r)
               else Ok (w, t)) in
    fixup_del_right (snd r) p (fst r).

Fixpoint fixup_del_loop (fuel : nat) (t : rbtree) (x : Z) : res rbtree :=
  match fuel with
  | O => Fault OutOfFuel
  | S fuel =>
      let! b := isblack t x in
      if negb (x =? root t) && b then
        let! r := fixup_del_step t x in
        fixup_del_loop fuel (snd r) (fst r)
      else if x =? 0 then Ok t else set_color t x BLACK
  end.

Definition fixup_del (t : rbtree) (x : Z) : res rbtree := fixup_del_loop (S (size (nodes t))) t x.

(** [y] takes the place, the colour and the left subtree of [z]. *)
Definition seat (t : rbtree) (z y : Z) : res rbtree :=
  let! t := hang t z y in
  let! zp := fld t z n_parent in
  let! t := set_parent t y zp in
  let! zl := fld t z n_left in
  let! t := set_left t y zl in
  let! yl := fld t y n_left in
  let! t := set_parent t yl y in
  let! zc := fld t z n_color in
  set_color t y zc.

(** The unlinking part of [rbtree_delete]: the colour lost, the node that moved
    up and the tree. *)
Definition unlink (t : rbtree) (z : Z) : res (Z * Z * rbtree) :=
  let! zc := fld t z n_color in
  let! zl := fld t z n_left in
  let! zr := fld t z n_right in
  if zl =? 0 then
    let x := zr in
    let! zp := fld t z n_parent in
    let! t := set_parent_opt t x zp in
    let! t := hang t z x in
    Ok (zc, x, t)
  else if zr =? 0 then
    let x := zl in
    let! zp := fld t z n_parent in
    let! t := set_parent_opt t x zp in
    let! t := hang t z x in
    Ok (zc, x, t)
  else
    let! y := minimum t zr in
    let! yc := fld t y n_color in
    let! x := fld t y n_right in
    let! yp := fld t y n_parent in
    let! t := (if yp =? z then set_parent_opt t x y
               else
                 let! t := set_parent_opt t x yp in
                 let! yp := fld t y n_parent in
                 let! t := set_left t yp x in
                 let! zr := fld t z n_right in
                 let! t := set_right t y zr in
                 let! yr := fld t y n_right in
                 set_parent t yr y) in
    let! t := seat t z y in
    Ok (yc, x, t).

Definition rbtree_delete (t : rbtree) (z : Z) : res rbtree :=
  let! r := unlink t z in
  let '(y_original_color, x, t) := r in
  if (y_original_color =? BLACK) && negb (x =? 0) then fixup_del t x else Ok t.

(** ** Traversal: the calls of the callback in order, with their depth. *)

Inductive rb_mode := RB_PREORDER | RB_INORDER | RB_POSTORDER.

#[export] Instance rb_mode_eq_dec : EqDecision rb_mode.
Proof. solve_decision. Defined.

Fixpoint rbtree_walk (fuel : nat) (t : rbtree) (n : Z) (mode : rb_mode) (d : Z) : res (list (Z * Z)) :=
  match fuel with
  | O => Fault OutOfFuel
  | S fuel =>
      if n =? 0 then Ok []
      else
        let cb m := if decide (mode = m) then [(d, n)] else [] in
        let! nl := fld t n n_left in
        let! l := rbtree_walk fuel t nl mode (d + 1) in
        let! nr := fld t n n_right in
        let! r := rbtree_walk fuel t nr mode (d + 1) in
        Ok (cb RB_PREORDER ++ l ++ cb RB_INORDER ++ r ++ cb RB_POSTORDER)
  end.

Definition rbtree_foreach (t : rbtree) (mode : rb_mode) : res (list (Z * Z)) :=
  rbtree_walk (S (size (nodes t))) t (root t) mode 0.

(** ** Abstract trees and their contexts *)

Inductive tree := E | T (c : Z) (l : tree) (a : Z) (r : tree).

#[export] Instance tree_eq_dec : EqDecision tree.
Proof. solve_decision. Defined.

(** A frame of the path from a node to the root: the node is the left or the
    right child of [a], whose other child is [s]. *)
Inductive frame := FL (c a : Z) (s : tree) | FR (c a : Z) (s : tree).

Definition plug1 (f : frame) (t : tree) : tree :=
  match f with FL c a s => T c t a s | FR c a s => T c s a t end.

(** The innermost frame comes first. *)
Fixpoint plug (k : list frame) (t : tree) : tree :=
  match k with [] => t | f :: k => plug k (plug1 f t) end.

Fixpoint inorder (t : tree) : list Z :=
  match t with E => [] | T _ l a r => inorder l ++ a :: inorder r end.

(** The nodes before and after the hole of a context. *)
Fixpoint before (k : list frame) : list Z :=
  match k with [] => [] | FL _ _ _ :: k => before k | FR _ a s :: k => before k ++ inorder s ++ [a] end.

Fixpoint after (k : list frame) : list Z :=
  match k with [] => [] | FL _ a s :: k => a :: inorder s ++ after k | FR _ _ _ :: k => after k end.

Definition rt (t : tree) : Z := match t with E => 0 | T _ _ a _ => a end.

Definition fa (f : frame) : Z := match f with FL _ a _ | FR _ a _ => a end.

Definition par (k : list frame) : Z := match k with [] => 0 | f :: _ => fa f end.

Definition top (k : list frame) (x : Z) : Z := default x (fa <$> last k).

(** The contents of the nodes of a tree below the parent [p], and of the nodes
    of a context whose hole holds the node [x]. *)
Fixpoint flat (t : tree) (p : Z) : list (Z * rbnode) :=
  match t with
  | E => []
  | T c l a r => (a, RbNode c (rt l) (rt r) p) :: flat l a ++ flat r a
  end.

Fixpoint flatc (k : list frame) (x : Z) : list (Z * rbnode) :=
  match k with
  | [] => []
  | FL c a s :: k => (a, RbNode c x (rt s) (par k)) :: flat s a ++ flatc k a
  | FR c a s :: k => (a, RbNode c (rt s) x (par k)) :: flat s a ++ flatc k a
  end.

Definition in_heap (m : gmap Z rbnode) (l : list (Z * rbnode)) : Prop :=
  Forall (fun '(a, n) => m !! a = Some n) l.

(** The tree [t] is represented: every node has its fields, the addresses are
    distinct and none of them is null. *)
Record rep (t : rbtree) (x : tree) : Prop := {
  rep_root : root t = rt x;
  rep_heap : in_heap (nodes t) (flat x 0);
  rep_nodup : NoDup (inorder x);
  rep_nz : 0 ∉ inorder x;
  rep_null : nodes t !! 0 = None
}.

(** ** Structure lemmas *)

Lemma inorder_plug k t : inorder (plug k t) = before k ++ inorder t ++ after k.
Proof.
  revert t. induction k as [|[c a s|c a s] k IH]; intros t; cbn; [by rewrite app_nil_r| |];
    rewrite IH; cbn; rewrite <- ?app_assoc; reflexivity.
Qed.

Lemma flat_fst t p : (flat t p).*1 ≡ₚ inorder t.
Proof.
  revert p. induction t as [|c l IHl a r IHr]; intros p; cbn; [done|].
  rewrite fmap_app, IHl, IHr. by rewrite Permutation_middle.
Qed.

Lemma flatc_fst k x : (flatc k x).*1 ≡ₚ before k ++ after k.
Proof.
  revert x. induction k as [|[c a s|c a s] k IH]; intros x; cbn; [done| |];
    rewrite fmap_app, flat_fst, IH; solve_Permutation.
Qed.

Lemma rt_plug k t : rt (plug k t) = top k (rt t).
Proof.
  revert t. induction k as [|f k IH] using rev_ind; intros t; [done|].
  unfold top. rewrite last_snoc. cbn.
  assert (plug (k ++ [f]) t = plug1 f (plug k t)) as ->
    by (clear; revert t; induction k; intros t; cbn; [done|apply IHk]).
  by destruct f.
Qed.

Lemma flat_plug k t : flat (plug k t) 0 ≡ₚ flatc k (rt t) ++ flat t (par k).
Proof.
  revert t. induction k as [|[c a s|c a s] k IH]; intros t; cbn; [done| |];
    rewrite IH; cbn; solve_Permutation.
Qed.

Lemma in_heap_app m l1 l2 : in_heap m (l1 ++ l2) <-> in_heap m l1 /\ in_heap m l2.
Proof. apply Forall_app. Qed.

Lemma in_heap_cons m a n l : in_heap m ((a, n) :: l) <-> m !! a = Some n /\ in_heap m l.
Proof. unfold in_heap. by rewrite Forall_cons. Qed.

#[export] Instance in_heap_perm m : Proper ((≡ₚ) ==> iff) (in_heap m).
Proof. intros l1 l2 H. unfold in_heap. by rewrite H. Qed.

Lemma in_heap_insert m a n l : a ∉ l.*1 -> in_heap m l -> in_heap (<[a := n]> m) l.
Proof.
  unfold in_heap. rewrite !Forall_forall. intros Ha H [b n'] Hb. cbn.
  rewrite lookup_insert_ne; [by apply (H (b, n'))|].
  intros ->. apply Ha. apply list_elem_of_fmap. by exists (b, n').
Qed.

(** A tree seen from one of its nodes. *)
Lemma rep_focus t k x :
  rep t (plug k x) <->
  root t = top k (rt x) /\ in_heap (nodes t) (flatc k (rt x)) /\ in_heap (nodes t) (flat x (par k)) /\
  NoDup (inorder x ++ before k ++ after k) /\ (0 ∉ inorder x ++ before k ++ after k) /\ nodes t !! 0 = None.
Proof.
  assert (inorder (plug k x) ≡ₚ inorder x ++ (before k ++ after k)) as Hp
    by (rewrite inorder_plug; solve_Permutation).
  split.
  - intros [H1 H2 H3 H4 H5]. rewrite flat_plug, in_heap_app in H2. rewrite rt_plug in H1.
    rewrite <- Hp. by destruct H2.
  - intros (H1 & H2 & H3 & H4 & H5 & H6). split; [by rewrite rt_plug| | | |done].
    + rewrite flat_plug, in_heap_app. done.
    + by rewrite Hp.
    + by rewrite Hp.
Qed.

Lemma in_heap_frame (m m' : gmap Z rbnode) l :
  (forall a, a ∈ l.*1 -> m' !! a = m !! a) -> in_heap m l -> in_heap m' l.
Proof.
  unfold in_heap. rewrite !Forall_forall. intros Hf H [a n] Ha.
  rewrite Hf; [by apply (H (a, n))|]. apply list_elem_of_fmap. by exists (a, n).
Qed.

Lemma in_heap_flat_frame (m m' : gmap Z rbnode) x p :
  (forall a, a ∈ inorder x -> m' !! a = m !! a) -> in_heap m (flat x p) -> in_heap m' (flat x p).
Proof. intros H. apply in_heap_frame. intros a. rewrite flat_fst. apply H. Qed.

(** A subtree whose parent moves. *)
Lemma in_heap_reparent (m m' : gmap Z rbnode) (x : tree) p p' :
  in_heap m (flat x p) -> NoDup (inorder x) ->
  (forall a, a ∈ inorder x -> a <> rt x -> m' !! a = m !! a) ->
  (x <> E -> forall n, m !! rt x = Some n -> m' !! rt x = Some (n <| n_parent := p' |>)) ->
  in_heap m' (flat x p').
Proof.
  destruct x as [|c l a r]; [intros; constructor|]. cbn. rewrite !in_heap_cons, !in_heap_app.
  intros (Ha & Hl & Hr) Hnd Hf Hroot. split_and!.
  - by rewrite (Hroot ltac:(discriminate) _ Ha).
  - eapply in_heap_flat_frame, Hl. intros b Hb.
    apply Hf; [set_solver|]. intros ->. apply NoDup_app in Hnd. set_solver.
  - eapply in_heap_flat_frame, Hr. intros b Hb.
    apply Hf; [set_solver|]. intros ->. rewrite NoDup_app, NoDup_cons in Hnd. set_solver.
Qed.

(** A context whose hole gets another node. *)
Lemma in_heap_rehole (m m' : gmap Z rbnode) k x y :
  in_heap m (flatc k x) -> NoDup (before k ++ after k) ->
  (forall a, a ∈ before k ++ after k -> a <> par k -> m' !! a = m !! a) ->
  (forall c a s k', k = FL c a s :: k' -> m' !! a = Some (RbNode c y (rt s) (par k'))) ->
  (forall c a s k', k = FR c a s :: k' -> m' !! a = Some (RbNode c (rt s) y (par k'))) ->
  in_heap m' (flatc k y).
Proof.
  destruct k as [|[c a s|c a s] k]; [intros; constructor| |]; cbn; rewrite !in_heap_cons, !in_heap_app;
    intros (Ha & Hs & Hk) Hnd Hf HL HR; (split_and!;
      [by eauto|eapply in_heap_flat_frame, Hs|eapply in_heap_frame, Hk]); intros b Hb;
    rewrite ?flatc_fst in Hb; (apply Hf; [set_solver|]);
    intros ->; rewrite ?NoDup_app, ?NoDup_cons in Hnd; set_solver.
Qed.

Lemma fld_at {A : Type} t k c l a r (f : rbnode -> A) :
  rep t (plug k (T c l a r)) -> fld t a f = Ok (f (RbNode c (rt l) (rt r) (par k))).
Proof.
  intros (_ & _ & H & _)%rep_focus. cbn in H. apply in_heap_cons in H as [H _].
  unfold fld. rewrite H. reflexivity.
Qed.

Lemma set_color_at t k c l a r c' :
  rep t (plug k (T c l a r)) ->
  exists t', set_color t a c' = Ok t' /\ rep t' (plug k (T c' l a r)) /\ size (nodes t') = size (nodes t).
Proof.
  intros (Hr & Hk & Hx & Hnd & Hz & H0)%rep_focus. cbn in Hx. rewrite in_heap_cons, in_heap_app in Hx.
  destruct Hx as (Ha & Hl & Hrr). unfold set_color, put. rewrite Ha. cbn.
  eexists. split; [reflexivity|].
  assert ((a ∉ before k ++ after k) /\ (a ∉ inorder l) /\ (a ∉ inorder r) /\ a <> 0) as (? & ? & ? & ?).
  { cbn in Hnd, Hz. rewrite !NoDup_app, NoDup_cons in Hnd. set_solver. }
  split.
  - apply rep_focus. cbn. split_and!; [done| | |done|done|by rewrite lookup_insert_ne].
    + apply in_heap_insert; [by rewrite flatc_fst|done].
    + rewrite in_heap_cons, in_heap_app. rewrite lookup_insert_eq.
      split_and!; [done|apply in_heap_insert; [by rewrite flat_fst|done]..].
  - cbn. apply map_size_insert_Some. by exists (RbNode c (rt l) (rt r) (par k)).
Qed.

(** The statements of the model evaluate on a heap whose relevant entries are known. *)
Ltac heap_step :=
  first
  [ progress cbn [nodes root res_bind deref n_left n_right n_parent n_color upd fst snd]
  | rewrite lookup_insert_eq
  | rewrite lookup_insert_ne by congruence
  | match goal with H : ?m !! ?a = Some _ |- context [?m !! ?a] => rewrite H end
  | match goal with H : ?a <> ?b |- context [?a =? ?b] => rewrite (proj2 (Z.eqb_neq a b) H) end
  | rewrite Z.eqb_refl ].

Ltac heap_run :=
  unfold set_parent_opt, set_left, set_right, set_parent, set_color, hang, put, fld; repeat heap_step.

(** An address of a tree or of the rest differs from the ones that were written. *)
Ltac heap_same := intros; rewrite ?lookup_insert_ne by (first [congruence|set_solver]); done.

(** The pointer that holds [x], as the context describes it. *)
Definition hole (t : rbtree) (k : list frame) (x : Z) : Prop :=
  match k with
  | [] => root t = x
  | FL c p s :: k => p <> 0 /\ nodes t !! p = Some (RbNode c x (rt s) (par k))
  | FR c p s :: k => p <> 0 /\ nodes t !! p = Some (RbNode c (rt s) x (par k)) /\ x <> rt s
  end.

(** The tree after [y] is stored there. *)
Definition hung (t : rbtree) (k : list frame) (y : Z) : rbtree :=
  match k with
  | [] => t <| root := y |>
  | FL c p s :: k => t <| nodes ::= <[p := RbNode c y (rt s) (par k)]> |>
  | FR c p s :: k => t <| nodes ::= <[p := RbNode c (rt s) y (par k)]> |>
  end.

Lemma hang_eq t k x y n :
  hole t k x -> nodes t !! x = Some n -> n_parent n = par k -> hang t x y = Ok (hung t k y).
Proof.
  destruct t as [r m]. destruct n as [c l r' p]. cbn. intros Hh Hx ->.
  destruct k as [|[c' p s|c' p s] k]; cbn in *; unfold hang, fld; repeat heap_step; cbn.
  - done.
  - destruct Hh as [Hp H]. heap_run. done.
  - destruct Hh as (Hp & H & Hne). heap_run. done.
Qed.

Lemma hung_lookup t k y a : (a <> par k \/ k = []) -> nodes (hung t k y) !! a = nodes t !! a.
Proof.
  destruct t as [r m]. destruct k as [|[c p s|c p s] k]; cbn; [done| |];
    intros [H|H]; try discriminate; by rewrite lookup_insert_ne by congruence.
Qed.

Lemma rep_hole t k c l x r : rep t (plug k (T c l x r)) -> hole t k x.
Proof.
  intros (Hr & Hk & _ & Hnd & Hz & _)%rep_focus.
  destruct k as [|[c' p s|c' p s] k]; cbn in *; rewrite ?in_heap_cons in Hk; [done| |].
  - destruct Hk as [Hp _]. split; [set_solver|done].
  - destruct Hk as [Hp _]. split; [set_solver|]. split; [done|].
    destruct s; cbn in *; [set_solver|]. rewrite !NoDup_app in Hnd. set_solver.
Qed.

Lemma hole_frame t t' k x :
  hole t k x -> root t' = root t -> (par k <> 0 -> nodes t' !! par k = nodes t !! par k) -> hole t' k x.
Proof.
  intros H Hr Hn. destruct k as [|[c p s|c p s] k]; cbn in *; [congruence| |].
  - destruct H. rewrite Hn by done. done.
  - destruct H. rewrite Hn by done. done.
Qed.

(** The heap of a context after the hole is filled anew. *)
Lemma flatc_hung (m : gmap Z rbnode) t k x y :
  in_heap m (flatc k x) -> NoDup (before k ++ after k) ->
  (forall a, (a ∈ before k ++ after k) -> nodes t !! a = m !! a) ->
  in_heap (nodes (hung t k y)) (flatc k y).
Proof.
  intros Hk Hnd Hf. eapply in_heap_rehole; [done|done| | |].
  - intros a Ha Hne. rewrite hung_lookup by auto. by apply Hf.
  - intros c a s k' ->. destruct t. cbn. by rewrite lookup_insert_eq.
  - intros c a s k' ->. destruct t. cbn. by rewrite lookup_insert_eq.
Qed.

Lemma root_hung t k x y : root t = top k x -> root (hung t k y) = top k y.
Proof.
  destruct t as [r m]. destruct k as [|f k]; cbn; [done|]. intros ->.
  unfold top. destruct f; cbn; destruct (last k) eqn:E; 
    rewrite ?last_cons, ?E; done.
Qed.

Lemma par_in k : k <> [] -> par k ∈ before k ++ after k.
Proof. destruct k as [|[c a s|c a s] k]; [done| |]; intros _; cbn; set_solver. Qed.

(** [if (b) b->parent = x] for the root [b] of a subtree. *)
Definition adopted (t : rbtree) (B : tree) (x : Z) : rbtree :=
  match B with
  | E => t
  | T c l b r => t <| nodes ::= alter (fun n => n <| n_parent := x |>) b |>
  end.

Lemma set_parent_opt_eq t B p x :
  in_heap (nodes t) (flat B p) -> (0 ∉ inorder B) ->
  set_parent_opt t (rt B) x = Ok (adopted t B x).
Proof.
  destruct B as [|c l b r]; cbn; [done|]. rewrite in_heap_cons. intros [Hb _] Hz.
  unfold set_parent_opt. rewrite (proj2 (Z.eqb_neq b 0)) by set_solver.
  unfold set_parent, put. rewrite Hb. cbn. f_equal. destruct t as [ro m]. unfold upd. cbn. f_equal.
  cbn in Hb. apply map_eq. intros a. destruct (decide (a = b)) as [->|].
  - by rewrite lookup_insert_eq, lookup_alter_eq, Hb.
  - by rewrite lookup_insert_ne, lookup_alter_ne by done.
Qed.

Lemma adopted_lookup t B x a : a ∉ inorder B -> nodes (adopted t B x) !! a = nodes t !! a.
Proof.
  destruct B as [|c l b r]; cbn; [done|]. intros Ha. destruct t. cbn. apply lookup_alter_ne. set_solver.
Qed.

Lemma root_adopted t B x : root (adopted t B x) = root t.
Proof. by destruct B, t. Qed.

Lemma flat_adopted (m : gmap Z rbnode) t B p x :
  in_heap m (flat B p) -> NoDup (inorder B) ->
  (forall a, a ∈ inorder B -> nodes t !! a = m !! a) ->
  in_heap (nodes (adopted t B x)) (flat B x).
Proof.
  intros HB Hnd Hf. eapply in_heap_reparent; [done|done| |].
  - intros a Ha Hne. destruct B as [|c l b r]; [by apply elem_of_nil in Ha|]. cbn in *.
    rewrite lookup_alter_ne by congruence. by apply Hf.
  - intros HE n Hn. destruct B as [|c l b r]; [done|]. cbn in *.
    rewrite lookup_alter_eq, Hf, Hn by set_solver. done.
Qed.

Lemma fld_eq {A : Type} t x n (f : rbnode -> A) : nodes t !! x = Some n -> fld t x f = Ok (f n).
Proof. unfold fld. intros ->. reflexivity. Qed.

Lemma put_eq t x n n' f :
  nodes t !! x = Some n -> f n = n' -> put t x f = Ok (t <| nodes ::= <[x := n']> |>).
Proof. unfold put. intros -> <-. reflexivity. Qed.

(** The common part of the two rotations: [x] goes below its child [y], and the
    subtree [B] between them changes its parent. *)
Lemma rotated_rep t k x y A B C lo nx ny :
  rep t (plug k lo) -> rt lo = x ->
  inorder lo ≡ₚ x :: y :: inorder A ++ inorder B ++ inorder C ->
  in_heap (nodes t) (flat A x) -> in_heap (nodes t) (flat B y) -> in_heap (nodes t) (flat C y) ->
  forall mid : rbnode * rbnode, let t4 := hung ((adopted (t <| nodes ::= <[x := mid.1]> |>) B x) <| nodes ::= <[y := mid.2]> |>) k y in
  let t' := t4 <| nodes ::= <[y := ny]> |> <| nodes ::= <[x := nx]> |> in
  root t' = top k y /\ in_heap (nodes t') (flatc k y) /\ nodes t' !! 0 = None /\
  nodes t' !! x = Some nx /\ nodes t' !! y = Some ny /\
  in_heap (nodes t') (flat A x) /\ in_heap (nodes t') (flat B x) /\ in_heap (nodes t') (flat C y).
Proof.
  intros Hrep Hx Hp HA HB HC [mx my] t4 t'. apply rep_focus in Hrep as (Hr & Hk & _ & Hnd & Hz & H0).
  rewrite Hp in Hnd, Hz. rewrite Hx in *. cbn in Hnd, Hz.
  rewrite !NoDup_cons, !NoDup_app in Hnd.
  assert (par k ∈ before k ++ after k \/ k = []) as Hpar by (destruct k; [auto|left; by apply par_in]).
  assert (forall a, a <> x -> a <> y -> (a ∉ inorder B) -> (a <> par k \/ k = []) -> nodes t' !! a = nodes t !! a) as Hf.
  { intros a H1 H2 H3 H4. unfold t', t4. cbn. rewrite 2 lookup_insert_ne, hung_lookup by done. cbn.
    rewrite lookup_insert_ne, adopted_lookup by done. cbn. by rewrite lookup_insert_ne. }
  assert (forall a, (a ∉ before k ++ after k) -> a <> par k \/ k = []) as Hpk.
  { intros a Ha. destruct Hpar; [left; set_solver|by right]. }
  split_and!.
  - unfold t', t4. cbn. erewrite root_hung; [done|]. cbn. by rewrite root_adopted.
  - unfold t'. cbn. apply in_heap_insert; [rewrite flatc_fst; set_solver|].
    apply in_heap_insert; [rewrite flatc_fst; set_solver|].
    eapply flatc_hung; [exact Hk|apply NoDup_app; split_and!; set_solver|].
    intros a Ha. cbn. rewrite lookup_insert_ne, adopted_lookup by set_solver.
    cbn. apply lookup_insert_ne. set_solver.
  - rewrite Hf; [done|set_solver..|]. apply Hpk. set_solver.
  - unfold t'. cbn. apply lookup_insert_eq.
  - unfold t'. cbn. rewrite lookup_insert_ne by set_solver. apply lookup_insert_eq.
  - eapply in_heap_flat_frame, HA. intros a Ha. apply Hf; [set_solver..|apply Hpk; set_solver].
  - unfold t'. cbn. apply in_heap_insert; [rewrite flat_fst; set_solver|].
    apply in_heap_insert; [rewrite flat_fst; set_solver|]. 
    eapply in_heap_flat_frame; [intros a Ha; apply hung_lookup, Hpk; set_solver|].
    cbn. apply in_heap_insert; [rewrite flat_fst; set_solver|].
    eapply flat_adopted; [exact HB|set_solver|]. intros a Ha. cbn. apply lookup_insert_ne. set_solver.
  - eapply in_heap_flat_frame, HC. intros a Ha. apply Hf; [set_solver..|apply Hpk; set_solver].
Qed.

(** The reads of a rotation after each of its writes. *)
Lemma rotation_reads t k x y B lo mx mx' :
  rep t (plug k lo) -> rt lo = x -> x <> y -> (y ∈ inorder lo) -> (forall a, a ∈ inorder B -> a ∈ inorder lo) ->
  (x ∉ inorder B) -> (y ∉ inorder B) -> in_heap (nodes t) (flat B y) ->
  hole t k x -> nodes t !! y = Some mx' -> n_parent mx = par k ->
  let t1 := t <| nodes ::= <[x := mx]> |> in
  let t2 := adopted t1 B x in
  nodes t1 !! y = Some mx' /\ set_parent_opt t1 (rt B) x = Ok t2 /\
  nodes t2 !! x = Some mx /\ nodes t2 !! y = Some mx' /\
  forall my, let t3 := t2 <| nodes ::= <[y := my]> |> in
  hang t3 x y = Ok (hung t3 k y) /\
  nodes (hung t3 k y) !! y = Some my /\
  forall my', nodes ((hung t3 k y) <| nodes ::= <[y := my']> |>) !! x = Some mx.
Proof.
  intros Hrep Hx Hne Hy HBlo HxB HyB HB Hh Hmy Hmx t1 t2.
  apply rep_focus in Hrep as (Hr & Hk & _ & Hnd & Hz & H0).
  assert (x ∈ inorder lo) as Hxl by (destruct lo; cbn in *; [set_solver|subst; set_solver]).
  apply NoDup_app in Hnd as (_ & Hd & _).
  assert (forall a, a ∈ inorder lo -> a <> par k \/ k = []) as Hpk.
  { intros a Ha. destruct k as [|f k']; [by right|left]. intros ->. apply (Hd _ Ha). by apply par_in. }
  assert (nodes t2 !! x = Some mx) as Hx2.
  { unfold t2. rewrite adopted_lookup by done. cbn. apply lookup_insert_eq. }
  assert (nodes t2 !! y = Some mx') as Hy2.
  { unfold t2. rewrite adopted_lookup by done. cbn. by rewrite lookup_insert_ne. }
  split; [cbn; by rewrite lookup_insert_ne|]. split.
  { eapply (set_parent_opt_eq t1 B y x); [|set_solver].
    cbn. apply in_heap_insert; [by rewrite flat_fst|done]. }
  split; [done|]. split; [done|]. intros my t3. split_and!.
  - eapply hang_eq; [|cbn; by rewrite lookup_insert_ne|done].
    eapply hole_frame; [exact Hh| |].
    + cbn. unfold t2. by rewrite root_adopted.
    + intros Hp. cbn. assert (k <> []) as Hk0 by (by intros ->).
      assert (forall a, a ∈ inorder lo -> par k <> a) as Hpne.
      { intros a Ha <-. apply (Hd _ Ha). by apply par_in. }
      rewrite lookup_insert_ne by (intros E; by apply (Hpne y)).
      unfold t2. rewrite adopted_lookup by (intros E; by apply (Hpne (par k)); auto).
      cbn. apply lookup_insert_ne. intros E. by apply (Hpne x).
  - rewrite hung_lookup by auto. cbn. apply lookup_insert_eq.
  - intros my'. cbn. rewrite lookup_insert_ne by done. rewrite hung_lookup by auto. cbn. by rewrite lookup_insert_ne.
Qed.

Lemma rotate_left_at t k cx A x cy B y C :
  rep t (plug k (T cx A x (T cy B y C))) ->
  exists t', rotate_left t x = Ok (y, t') /\ rep t' (plug k (T cy (T cx A x B) y C)).
Proof.
  intros Hrep. pose proof (rep_hole _ _ _ _ _ _ Hrep) as Hh.
  pose proof Hrep as (Hr & Hk & Hx & Hnd & Hz & H0)%rep_focus.
  cbn in Hx. rewrite !in_heap_cons, !in_heap_app, !in_heap_cons, !in_heap_app in Hx.
  destruct Hx as (Hx & HA & Hy & HB & HC).
  assert (inorder (T cx A x (T cy B y C)) ≡ₚ x :: y :: inorder A ++ inorder B ++ inorder C) as Hp
    by (cbn; solve_Permutation).
  assert (x <> y /\ (x ∉ inorder B) /\ (y ∉ inorder B)) as (? & ? & ?).
  { rewrite Hp in Hnd. cbn in Hnd. rewrite !NoDup_cons in Hnd. set_solver. }
  edestruct (rotation_reads t k x y B _ (RbNode cx (rt A) (rt B) (par k))
              (RbNode cy (rt B) (rt C) x) Hrep)
    as (Hy1 & Ep & Hx2 & Hy2 & Hmy); [done|done|cbn; set_solver|cbn; set_solver|done|done|done|done|exact Hy|done|].
  specialize (Hmy (RbNode cy (rt B) (rt C) (par k))) as (Eh & Hy4 & Hx5).
  edestruct (rotated_rep t k x y A B C _ (RbNode cx (rt A) (rt B) y) (RbNode cy x (rt C) (par k)) Hrep)
    with (mid := (RbNode cx (rt A) (rt B) (par k), RbNode cy (rt B) (rt C) (par k))) as (R1 & R2 & R3 & R4 & R5 & R6 & R7 & R8); [done|exact Hp|done|done|done|].
  match type of R1 with root ?u = _ => set (t' := u) in * end. exists t'. split.
  - unfold rotate_left. rewrite (fld_eq _ _ _ _ Hx). cbn [res_bind n_right].
    rewrite (fld_eq _ _ _ _ Hy). cbn [res_bind n_left].
    unfold set_right. rewrite (put_eq _ _ _ (RbNode cx (rt A) (rt B) (par k)) _ Hx) by done. cbn [res_bind].
    rewrite (fld_eq _ _ _ _ Hy1). cbn [res_bind n_left]. rewrite Ep. cbn [res_bind].
    rewrite (fld_eq _ _ _ _ Hx2). cbn [res_bind n_parent].
    unfold set_parent at 1. rewrite (put_eq _ _ _ (RbNode cy (rt B) (rt C) (par k)) _ Hy2) by done.
    cbn [res_bind]. rewrite Eh. cbn [res_bind].
    unfold set_left. rewrite (put_eq _ _ _ (RbNode cy x (rt C) (par k)) _ Hy4) by done. cbn [res_bind].
    unfold set_parent at 1. rewrite (put_eq _ _ _ (RbNode cx (rt A) (rt B) y) _ (Hx5 _)) by done. reflexivity.
  - clearbody t'. apply rep_focus. cbn. rewrite !in_heap_cons, !in_heap_app.
    cbn in Hnd, Hz. rewrite <- !app_assoc in *. cbn in *. rewrite <- !app_assoc in *. done.
Qed.

Lemma rotate_right_at t k cx A x cy B y C :
  rep t (plug k (T cy (T cx A x B) y C)) ->
  exists t', rotate_right t y = Ok (x, t') /\ rep t' (plug k (T cx A x (T cy B y C))).
Proof.
  intros Hrep. pose proof (rep_hole _ _ _ _ _ _ Hrep) as Hh.
  pose proof Hrep as (Hr & Hk & Hx & Hnd & Hz & H0)%rep_focus.
  cbn in Hx. rewrite !in_heap_cons, !in_heap_app in Hx.
  destruct Hx as (Hy & Hx & (HA & HB) & HC).
  assert (inorder (T cy (T cx A x B) y C) ≡ₚ y :: x :: inorder C ++ inorder B ++ inorder A) as Hp
    by (cbn; solve_Permutation).
  assert (y <> x /\ (x ∉ inorder B) /\ (y ∉ inorder B)) as (? & ? & ?).
  { rewrite Hp in Hnd. cbn in Hnd. rewrite !NoDup_cons in Hnd. set_solver. }
  edestruct (rotation_reads t k y x B _ (RbNode cy (rt B) (rt C) (par k))
              (RbNode cx (rt A) (rt B) y) Hrep)
    as (Hx1 & Ep & Hy2 & Hx2 & Hmx); [done|done|cbn; set_solver|cbn; set_solver|done|done|done|done|exact Hx|done|].
  specialize (Hmx (RbNode cx (rt A) (rt B) (par k))) as (Eh & Hx4 & Hy5).
  edestruct (rotated_rep t k y x C B A _ (RbNode cy (rt B) (rt C) x) (RbNode cx (rt A) y (par k)) Hrep)
    with (mid := (RbNode cy (rt B) (rt C) (par k), RbNode cx (rt A) (rt B) (par k)))
    as (R1 & R2 & R3 & R4 & R5 & R6 & R7 & R8); [done|exact Hp|done|done|done|].
  match type of R1 with root ?u = _ => set (t' := u) in * end. exists t'. split.
  - unfold rotate_right. rewrite (fld_eq _ _ _ _ Hy). cbn [res_bind n_left].
    rewrite (fld_eq _ _ _ _ Hx). cbn [res_bind n_right].
    unfold set_left. rewrite (put_eq _ _ _ (RbNode cy (rt B) (rt C) (par k)) _ Hy) by done. cbn [res_bind].
    rewrite (fld_eq _ _ _ _ Hx1). cbn [res_bind n_right]. rewrite Ep. cbn [res_bind].
    rewrite (fld_eq _ _ _ _ Hy2). cbn [res_bind n_parent].
    unfold set_parent at 1. rewrite (put_eq _ _ _ (RbNode cx (rt A) (rt B) (par k)) _ Hx2) by done.
    cbn [res_bind]. rewrite Eh. cbn [res_bind].
    unfold set_right. rewrite (put_eq _ _ _ (RbNode cx (rt A) y (par k)) _ Hx4) by done. cbn [res_bind].
    unfold set_parent at 1. rewrite (put_eq _ _ _ (RbNode cy (rt B) (rt C) x) _ (Hy5 _)) by done. reflexivity.
  - clearbody t'. apply rep_focus. cbn. rewrite !in_heap_cons, !in_heap_app, in_heap_cons, in_heap_app.
    cbn in Hnd, Hz. rewrite <- !app_assoc in *. cbn in *. rewrite <- !app_assoc in *. done.
Qed.

(** ** Colours and heights *)

Definition red (t : tree) : bool := match t with E => false | T c _ _ _ => c =? RED end.

Definition colored (c : Z) : bool := (c =? RED) || (c =? BLACK).

(** No red node has a red child. *)
Fixpoint redok (t : tree) : bool :=
  match t with
  | E => true
  | T c l _ r => colored c && (negb (c =? RED) || (negb (red l) && negb (red r))) && redok l && redok r
  end.

(** The number of black nodes on every path is [n]. *)
Fixpoint bal (n : nat) (t : tree) : Prop :=
  match t with
  | E => n = O
  | T c l _ r => exists m, bal m l /\ bal m r /\ n = (if Z.eqb c BLACK then S m else m)
  end.

Definition fc (f : frame) : Z := match f with FL c _ _ | FR c _ _ => c end.
Definition fs (f : frame) : tree := match f with FL _ _ s | FR _ _ s => s end.

(** The same for a context; a red frame has a black one above it, so that the
    root is black. *)
Fixpoint redokc (k : list frame) : bool :=
  match k with
  | [] => true
  | f :: k =>
      colored (fc f) && redok (fs f) &&
      (negb (fc f =? RED) || (negb (red (fs f)) && match k with [] => false | g :: _ => negb (fc g =? RED) end)) &&
      redokc k
  end.

Fixpoint balc (k : list frame) (n N : nat) : Prop :=
  match k with
  | [] => n = N
  | f :: k => bal n (fs f) /\ balc k (if Z.eqb (fc f) BLACK then S n else n) N
  end.

Lemma bal_plug k x N : bal N (plug k x) <-> exists n, bal n x /\ balc k n N.
Proof.
  revert x. induction k as [|f k IH]; intros x; cbn.
  - split; [intros H; by exists N|by intros (n & H & ->)].
  - rewrite IH. split.
    + intros (n & H & Hk). destruct f; cbn in *; destruct H as (m & H1 & H2 & ->); exists m; auto.
    + intros (n & H & Hs & Hk). destruct f; cbn in *; eauto 10.
Qed.

Lemma redok_plug k x :
  redokc k = true -> redok x = true -> (red x = true -> match k with [] => True | f :: _ => fc f <> RED end) ->
  redok (plug k x) = true /\ (k <> [] -> red (plug k x) = false).
Proof.
  revert x. induction k as [|f k IH]; intros x Hk Hx Hr; cbn in *; [done|].
  rewrite !andb_true_iff in Hk. destruct Hk as (((Hc & Hs) & Hf) & Hk).
  assert (redok (plug1 f x) = true) as Hp.
  { destruct f; cbn in *; rewrite Hc, Hs, Hx; cbn; rewrite ?andb_true_r;
      (destruct (c =? RED) eqn:E; cbn in *; [|done]); bool_facts; subst c;
      destruct (red x); cbn; [by destruct Hr| |by destruct Hr|]; rewrite H; done. }
  destruct (IH (plug1 f x) Hk Hp) as [H1 H2].
  - intros Hrf. destruct k as [|g k]; [done|]. destruct f; cbn in *; rewrite Hrf in Hf; cbn in Hf;
      bool_facts; done.
  - split; [done|]. intros _. destruct k as [|g k]; [|by apply H2].
    cbn. destruct f; cbn in *; destruct (c =? RED); cbn in Hf; [|done|by destruct (red s)|done];
    by destruct (red s).
Qed.

Definition blacken (t : tree) : tree := match t with E => E | T _ l a r => T BLACK l a r end.

Lemma blacken_ok t : redok t = true -> redok (blacken t) = true /\ red (blacken t) = false.
Proof. destruct t as [|c l a r]; [done|]. cbn. rewrite !andb_true_iff. intros [[_ Hl] Hr]. by rewrite Hl, Hr. Qed.

Lemma blacken_bal n t : bal n t -> exists n', bal n' (blacken t).
Proof. destruct t as [|c l a r]; cbn; [eauto|]. intros (m & H1 & H2 & _). eauto 10. Qed.

Lemma inorder_blacken t : inorder (blacken t) = inorder t.
Proof. by destruct t. Qed.

(** ** Insertion *)

Lemma children_ne t k c l a r : rep t (plug k (T c l a r)) -> (l <> E \/ r <> E) -> rt l <> rt r.
Proof.
  intros (_ & _ & _ & Hnd & Hz & _)%rep_focus Hne. cbn in Hnd, Hz.
  rewrite !NoDup_app, NoDup_cons in Hnd. destruct l, r; cbn in *; [by destruct Hne|set_solver..].
Qed.

Lemma set_color_root t x :
  rep t x -> x <> E -> total (set_color t (root t) BLACK) (fun t' => rep t' (blacken x)).
Proof.
  intros H Hne. destruct x as [|c l a r]; [done|]. rewrite (rep_root _ _ H). cbn.
  destruct (set_color_at t [] c l a r BLACK H) as (t' & -> & H' & _). by exists t'.
Qed.

Lemma isred_rt t k x : rep t (plug k x) -> isred t (rt x) = Ok (red x).
Proof.
  intros H. unfold isred. destruct x as [|c l a r]; [done|]. cbn.
  rewrite (proj2 (Z.eqb_neq a 0)), (fld_at _ _ _ _ _ _ _ H); [done|].
  apply rep_focus in H as (_ & _ & _ & _ & Hz & _). cbn in Hz. set_solver.
Qed.

Definition refr (f : frame) (c : Z) (s : tree) : frame :=
  match f with FL _ a _ => FL c a s | FR _ a _ => FR c a s end.

(** What one turn of the loop makes of the subtree of the grandparent: the
    colours of parent, uncle and grandparent change, or one or two rotations
    put a black node on top. *)
Definition recolored (fp fg : frame) (x : tree) : tree :=
  plug1 (refr fg RED (blacken (fs fg))) (plug1 (refr fp BLACK (fs fp)) x).

Definition rotated (fp fg : frame) (l : tree) (z : Z) (r : tree) : tree :=
  match fg, fp with
  | FL _ g u, FL _ p s => T BLACK (T RED l z r) p (T RED s g u)
  | FL _ g u, FR _ p s => T BLACK (T RED s p l) z (T RED r g u)
  | FR _ g u, FR _ p s => T BLACK (T RED u g s) p (T RED l z r)
  | FR _ g u, FL _ p s => T BLACK (T RED u g l) z (T RED r p s)
  end.

(** Reads and writes at a node in focus. *)
Ltac at_node H := rewrite (fld_at _ _ _ _ _ _ _ H); cbn [res_bind n_color n_left n_right n_parent par fa rt].

Ltac paint H c :=
  let t := fresh "t" in let E := fresh "E" in let H' := fresh "Hc" in
  destruct (set_color_at _ _ _ _ _ _ c H) as (t & E & H' & _); rewrite E; cbn [res_bind]; clear E.

Lemma fixup_step_left t fp k cg g u l z r :
  rep t (plug (fp :: FL cg g u :: k) (T RED l z r)) -> fc fp = RED ->
  total (fixup_step t z) (fun '(z', t') =>
    if red u then z' = g /\ rep t' (plug k (recolored fp (FL cg g u) (T RED l z r)))
    else (exists f l' r', plug1 f (T RED l' z' r') = rotated fp (FL cg g u) l z r /\ fc f = BLACK) /\
         rep t' (plug k (rotated fp (FL cg g u) l z r))).
Proof.
  intros H Hc. unfold fixup_step. at_node H.
  assert (exists cp pl p pr, plug1 fp (T RED l z r) = T cp pl p pr /\ p = fa fp) as (cp & pl & p & pr & Ep & Ea)
    by (destruct fp; cbn; eauto 10).
  assert (rep t (plug (FL cg g u :: k) (T cp pl p pr))) as Hp by (rewrite <- Ep; exact H).
  assert (rep t (plug k (T cg (T cp pl p pr) g u))) as Hg by exact Hp.
  assert (rep t (plug (FR cg g (T cp pl p pr) :: k) u)) as Hu by exact Hp.
  rewrite <- Ea. at_node Hp. at_node Hg. rewrite Z.eqb_refl. at_node Hg. rewrite (isred_rt _ _ _ Hu). cbn [res_bind].
  destruct (red u) eqn:Eu.
  - destruct u as [|cu ul ua ur]; [done|]. cbn [rt].
    paint Hp BLACK. assert (rep t0 (plug (FR cg g (T BLACK pl p pr) :: k) (T cu ul ua ur))) as Hu0 by exact Hc0.
    paint Hu0 BLACK. assert (rep t1 (plug k (T cg (T BLACK pl p pr) g (T BLACK ul ua ur)))) as Hg0 by exact Hc1.
    paint Hg0 RED. apply total_Ok. split; [done|]. unfold recolored. cbn [refr fs plug1 blacken].
    destruct fp; cbn in *; injection Ep as <- <- <- <-; exact Hc2.
  - destruct fp as [cp' p' s|cp' p' s]; cbn in Ep, Ea, Hc; injection Ep as <- <- <- <-; subst cp'.
    + at_node Hp. rewrite (proj2 (Z.eqb_neq z (rt s))) by (eapply (children_ne _ _ _ _ _ _ Hp); by left).
      cbn [res_bind]. paint Hp BLACK.
      assert (rep t0 (plug k (T cg (T BLACK (T RED l z r) p' s) g u))) as Hg0 by exact Hc. paint Hg0 RED.
      destruct (rotate_right_at _ _ _ _ _ _ _ _ _ Hc0) as (t2 & -> & H2). cbn [res_bind snd].
      apply total_Ok. split; [|exact H2]. by exists (FL BLACK p' (T RED s g u)), l, r.
    + at_node Hp. rewrite Z.eqb_refl.
      destruct (rotate_left_at _ _ _ _ _ _ _ _ _ Hp) as (t1 & -> & H1). cbn [res_bind snd].
      assert (rep t1 (plug (FL RED z r :: FL cg g u :: k) (T RED s p' l))) as H1p by exact H1.
      at_node H1p. at_node H1. paint H1 BLACK.
      assert (rep t0 (plug k (T cg (T BLACK (T RED s p' l) z r) g u))) as Hg0 by exact Hc. paint Hg0 RED.
      destruct (rotate_right_at _ _ _ _ _ _ _ _ _ Hc0) as (t3 & -> & H3). cbn [res_bind snd].
      apply total_Ok. split; [|exact H3]. by exists (FL BLACK z (T RED r g u)), s, l.
Qed.

Lemma fixup_step_right t fp k cg g u l z r :
  rep t (plug (fp :: FR cg g u :: k) (T RED l z r)) -> fc fp = RED ->
  total (fixup_step t z) (fun '(z', t') =>
    if red u then z' = g /\ rep t' (plug k (recolored fp (FR cg g u) (T RED l z r)))
    else (exists f l' r', plug1 f (T RED l' z' r') = rotated fp (FR cg g u) l z r /\ fc f = BLACK) /\
         rep t' (plug k (rotated fp (FR cg g u) l z r))).
Proof.
  intros H Hc. unfold fixup_step. at_node H.
  assert (exists cp pl p pr, plug1 fp (T RED l z r) = T cp pl p pr /\ p = fa fp) as (cp & pl & p & pr & Ep & Ea)
    by (destruct fp; cbn; eauto 10).
  assert (rep t (plug (FR cg g u :: k) (T cp pl p pr))) as Hp by (rewrite <- Ep; exact H).
  assert (rep t (plug k (T cg u g (T cp pl p pr)))) as Hg by exact Hp.
  assert (rep t (plug (FL cg g (T cp pl p pr) :: k) u)) as Hu by exact Hp.
  rewrite <- Ea. at_node Hp. at_node Hg.
  rewrite (proj2 (Z.eqb_neq p (rt u)))
    by (apply not_eq_sym; eapply (children_ne _ _ _ _ _ _ Hg); by right).
  cbn [res_bind]. rewrite (isred_rt _ _ _ Hu). cbn [res_bind].
  destruct (red u) eqn:Eu.
  - destruct u as [|cu ul ua ur]; [done|]. cbn [rt].
    paint Hp BLACK. assert (rep t0 (plug (FL cg g (T BLACK pl p pr) :: k) (T cu ul ua ur))) as Hu0 by exact Hc0.
    paint Hu0 BLACK. assert (rep t1 (plug k (T cg (T BLACK ul ua ur) g (T BLACK pl p pr)))) as Hg0 by exact Hc1.
    paint Hg0 RED. apply total_Ok. split; [done|]. unfold recolored. cbn [refr fs plug1 blacken].
    destruct fp; cbn in *; injection Ep as <- <- <- <-; exact Hc2.
  - destruct fp as [cp' p' s|cp' p' s]; cbn in Ep, Ea, Hc; injection Ep as <- <- <- <-; subst cp'.
    + at_node Hp. rewrite Z.eqb_refl.
      destruct (rotate_right_at _ _ _ _ _ _ _ _ _ Hp) as (t1 & -> & H1). cbn [res_bind snd].
      assert (rep t1 (plug (FR RED z l :: FR cg g u :: k) (T RED r p' s))) as H1p by exact H1.
      at_node H1p. at_node H1. paint H1 BLACK.
      assert (rep t0 (plug k (T cg u g (T BLACK l z (T RED r p' s))))) as Hg0 by exact Hc. paint Hg0 RED.
      destruct (rotate_left_at _ _ _ _ _ _ _ _ _ Hc0) as (t3 & -> & H3). cbn [res_bind snd].
      apply total_Ok. split; [|exact H3]. by exists (FR BLACK z (T RED u g l)), r, s.
    + at_node Hp.
      rewrite (proj2 (Z.eqb_neq z (rt s)))
        by (apply not_eq_sym; eapply (children_ne _ _ _ _ _ _ Hp); by right).
      cbn [res_bind]. paint Hp BLACK.
      assert (rep t0 (plug k (T cg u g (T BLACK s p' (T RED l z r))))) as Hg0 by exact Hc. paint Hg0 RED.
      destruct (rotate_left_at _ _ _ _ _ _ _ _ _ Hc0) as (t2 & -> & H2). cbn [res_bind snd].
      apply total_Ok. split; [|exact H2]. by exists (FR BLACK p' (T RED u g s)), l, r.
Qed.

Lemma fixup_step_at t fp fg k l z r :
  rep t (plug (fp :: fg :: k) (T RED l z r)) -> fc fp = RED ->
  total (fixup_step t z) (fun '(z', t') =>
    if red (fs fg) then z' = fa fg /\ rep t' (plug k (recolored fp fg (T RED l z r)))
    else (exists f l' r', plug1 f (T RED l' z' r') = rotated fp fg l z r /\ fc f = BLACK) /\
         rep t' (plug k (rotated fp fg l z r))).
Proof. destruct fg; [apply fixup_step_left|apply fixup_step_right]. Qed.

Lemma inorder_recolored fp fg x : inorder (recolored fp fg x) = inorder (plug1 fg (plug1 fp x)).
Proof. destruct fp, fg; cbn; by rewrite inorder_blacken. Qed.

Lemma inorder_rotated fp fg l z r : inorder (rotated fp fg l z r) = inorder (plug1 fg (plug1 fp (T RED l z r))).
Proof. destruct fp, fg; cbn; rewrite <- ?app_assoc; cbn; rewrite <- ?app_assoc; reflexivity. Qed.

Lemma blacken_bal_red n t : bal n t -> red t = true -> bal (S n) (blacken t).
Proof.
  destruct t as [|c l a r]; cbn; [done|]. intros (m & H1 & H2 & ->) Hc. bool_facts. subst c. eauto 10.
Qed.

Lemma bal_recolored n fp fg x :
  bal n (plug1 fg (plug1 fp x)) -> fc fp = RED -> fc fg = BLACK -> red (fs fg) = true ->
  bal n (recolored fp fg x).
Proof.
  intros H Hp Hg Hu. destruct fp as [cp p s|cp p s], fg as [cg g u|cg g u]; cbn in *; subst cp cg;
    destruct H as (m & H1 & H2 & ->).
  - destruct H1 as (m' & H3 & H4 & ->). exists (S m'). eauto 10 using blacken_bal_red.
  - destruct H2 as (m' & H3 & H4 & ->). exists (S m'). eauto 10 using blacken_bal_red.
  - destruct H1 as (m' & H3 & H4 & ->). exists (S m'). eauto 10 using blacken_bal_red.
  - destruct H2 as (m' & H3 & H4 & ->). exists (S m'). eauto 10 using blacken_bal_red.
Qed.

Lemma bal_rotated n fp fg l z r :
  bal n (plug1 fg (plug1 fp (T RED l z r))) -> fc fp = RED -> fc fg = BLACK -> bal n (rotated fp fg l z r).
Proof.
  intros H Hp Hg. destruct fp as [cp p s|cp p s], fg as [cg g u|cg g u]; cbn in *; subst cp cg;
    repeat match goal with H : exists _, _ |- _ => destruct H as (? & ? & ? & ?) | H : _ /\ _ |- _ => destruct H end;
    cbn in *; subst; eauto 12.
Qed.

Lemma top_in f k x : top (f :: k) x ∈ before (f :: k) ++ after (f :: k).
Proof.
  unfold top. revert f x. induction k as [|g k IH]; intros f x; [destruct f; cbn; set_solver|].
  rewrite last_cons. specialize (IH g x). destruct (last (g :: k)) eqn:El; [|by apply last_None in El].
  cbn [fmap option_fmap option_map default] in *. destruct f; cbn in *; set_solver.
Qed.

Lemma root_ne t f k c l z r : rep t (plug (f :: k) (T c l z r)) -> z <> root t.
Proof.
  intros (Hr & _ & _ & Hnd & _)%rep_focus. rewrite Hr. intros E. apply NoDup_app in Hnd as (_ & Hd & _).
  apply (Hd z); [cbn; set_solver|]. rewrite E at 1. apply top_in.
Qed.

Lemma isred_parent t f k c l z r :
  rep t (plug (f :: k) (T c l z r)) ->
  (let! p := fld t z n_parent in isred t p) = Ok (fc f =? RED).
Proof.
  intros H. at_node H. assert (rep t (plug k (plug1 f (T c l z r)))) as Hp by exact H.
  pose proof (isred_rt _ _ _ Hp) as E. by destruct f.
Qed.

(** The loop has nothing left to do. *)
Lemma fixup_loop_stop fuel t f k l z r :
  rep t (plug (f :: k) (T RED l z r)) -> fc f <> RED ->
  total (fixup_loop (S fuel) t z) (fun t' => rep t' (blacken (plug (f :: k) (T RED l z r)))).
Proof.
  intros H Hc. cbn [fixup_loop]. rewrite (proj2 (Z.eqb_neq z _) (root_ne _ _ _ _ _ _ _ H)).
  rewrite (isred_parent _ _ _ _ _ _ _ H). rewrite (proj2 (Z.eqb_neq (fc f) RED) Hc). cbn [res_bind].
  apply set_color_root; [done|]. intros E. apply (f_equal (length ∘ inorder)) in E.
  cbn -[plug] in E. rewrite inorder_plug, !length_app in E. cbn in E. rewrite length_app in E. cbn in E. lia.
Qed.

(** What [fixup] promises of the new tree [y] for the old one [x]. *)
Record fixed (x y : tree) : Prop := {
  fixed_inorder : inorder y = inorder x;
  fixed_redok : redok y = true;
  fixed_root : red y = false;
  fixed_bal : forall n, bal n x -> exists n', bal n' y
}.

Lemma fixed_blacken x y :
  redok y = true -> inorder y = inorder x -> (forall n, bal n x -> bal n y) -> fixed x (blacken y).
Proof.
  intros H Hi Hb. destruct (blacken_ok y H). split; [by rewrite inorder_blacken|done|done|].
  intros n Hn. by eapply blacken_bal, Hb.
Qed.

Lemma redok_T c l a r :
  redok (T c l a r) = true <->
  (c = RED \/ c = BLACK) /\ (c = RED -> red l = false /\ red r = false) /\ redok l = true /\ redok r = true.
Proof.
  cbn. unfold colored. rewrite !andb_true_iff, orb_true_iff, !Z.eqb_eq, orb_true_iff, andb_true_iff, !negb_true_iff, Z.eqb_neq.
  split; [intros (((H1 & H2) & H3) & H4); split_and!; try done; intros ->; by destruct H2|].
  intros (H1 & H2 & H3 & H4). split_and!; try done. destruct H1 as [->| ->]; [right; by apply H2|by left].
Qed.

Lemma redokc_cons f k :
  redokc (f :: k) = true <->
  (fc f = RED \/ fc f = BLACK) /\ redok (fs f) = true /\ redokc k = true /\
  (fc f = RED -> red (fs f) = false /\ match k with [] => False | g :: _ => fc g <> RED end).
Proof.
  cbn. unfold colored. rewrite !andb_true_iff, !orb_true_iff, !Z.eqb_eq, andb_true_iff, !negb_true_iff, Z.eqb_neq.
  split.
  - intros (((H1 & H2) & H3) & H4). split_and!; try done. intros E. destruct H3 as [H3|[H3 H5]]; [done|].
    split; [done|]. destruct k; [done|]. by apply negb_true_iff, Z.eqb_neq in H5.
  - intros (H1 & H2 & H3 & H4). split_and!; try done. destruct H1 as [H1|H1]; [right|left; by rewrite H1].
    destruct (H4 H1) as [H5 H6]. split; [done|]. destruct k; [done|]. by apply negb_true_iff, Z.eqb_neq.
Qed.

Lemma recolored_shape fp fg x :
  redok x = true -> redok (fs fp) = true -> redok (fs fg) = true ->
  exists l r, recolored fp fg x = T RED l (fa fg) r /\ redok (T RED l (fa fg) r) = true.
Proof.
  intros Hx Hp Hg. destruct (blacken_ok (fs fg) Hg) as [Hb1 Hb2].
  assert (redok (plug1 (refr fp BLACK (fs fp)) x) = true /\ red (plug1 (refr fp BLACK (fs fp)) x) = false) as [H1 H2].
  { destruct fp; (split; [|done]); cbn [refr plug1]; rewrite redok_T; split_and!; auto; discriminate. }
  destruct fg as [c g u|c g u]; do 2 eexists; (split; [reflexivity|]); rewrite redok_T; split_and!; auto.
Qed.

Lemma rotated_ok fp fg l z r :
  redok (T RED l z r) = true -> redok (fs fp) = true -> redok (fs fg) = true ->
  red (fs fp) = false -> red (fs fg) = false ->
  redok (rotated fp fg l z r) = true /\ red (rotated fp fg l z r) = false.
Proof.
  intros (_ & Hlr & Hl & Hr)%redok_T Hp Hg Hpr Hgr. destruct (Hlr eq_refl).
  destruct fp, fg; cbn [rotated fs] in *; (split; [|done]); rewrite !redok_T; split_and!; auto; discriminate.
Qed.

Lemma fixup_loop_spec fuel t k l z r :
  rep t (plug k (T RED l z r)) -> redokc k = true -> redok (T RED l z r) = true -> (length k < fuel)%nat ->
  total (fixup_loop fuel t z) (fun t' => exists y, rep t' y /\ fixed (plug k (T RED l z r)) y).
Proof.
  revert t k l z r. induction fuel as [|fuel IH]; intros t k l z r H Hk Hx Hf; [lia|].
  destruct k as [|f k].
  - cbn [fixup_loop plug]. rewrite (rep_root _ _ H). cbn [plug rt]. rewrite Z.eqb_refl. cbn [res_bind].
    destruct (set_color_root t (T RED l z r) H) as (t' & E & H'); [done|].
    rewrite (rep_root _ _ H) in E. cbn in E. rewrite E. exists t'. split; [done|]. eexists. split; [exact H'|].
    by apply fixed_blacken.
  - destruct (Z.eq_dec (fc f) RED) as [Hc|Hc].
    2:{ destruct (fixup_loop_stop fuel t f k l z r H Hc) as (t' & E & H'). exists t'. split; [done|].
        eexists. split; [done|]. apply fixed_blacken; [|done|done]. by apply redok_plug. }
    cbn [fixup_loop]. rewrite (proj2 (Z.eqb_neq z _) (root_ne _ _ _ _ _ _ _ H)).
    rewrite (isred_parent _ _ _ _ _ _ _ H), Hc. cbn [res_bind Z.eqb RED].
    pose proof (proj1 (redokc_cons _ _) Hk) as (_ & Hfs & Hk' & Hred).
    destruct (Hred Hc) as [Hfr Hg]. destruct k as [|fg k]; [done|].
    pose proof (proj1 (redokc_cons _ _) Hk') as (Hgc & Hgs & Hk'' & _).
    assert (fc fg = BLACK) as HgB by (destruct Hgc; [done|done]).
    pose proof (proj1 (redok_T _ _ _ _) Hx) as (_ & Hlr & Hl & Hr). destruct (Hlr eq_refl) as [Hlb Hrb].
    destruct (fixup_step_at t f fg k l z r H Hc) as ([z' t'] & E & Hpost). rewrite E. cbn [res_bind fst snd].
    destruct (red (fs fg)) eqn:Eu.
    + destruct Hpost as [-> Hrep].
      destruct (recolored_shape f fg (T RED l z r) Hx Hfs Hgs) as (l' & r' & Es & Hs). rewrite Es in Hrep.
      destruct (IH t' k l' (fa fg) r' Hrep Hk'' Hs) as (t2 & E2 & y & Hy & Hfix); [cbn in Hf; lia|].
      exists t2. split; [done|]. exists y. split; [done|]. destruct Hfix as [F1 F2 F3 F4]. rewrite <- Es in *. split; [|done|done|].
      * rewrite F1. cbn [plug]. by rewrite !inorder_plug, inorder_recolored.
      * intros n Hn. apply (F4 n). apply bal_plug. cbn [plug] in Hn. apply bal_plug in Hn as (m & Hm & Hkm).
        exists m. split; [|done]. by apply bal_recolored.
    + destruct Hpost as [(f' & l' & r' & Ef & Hf') Hrep]. rewrite <- Ef in Hrep.
      destruct fuel as [|fuel]; [cbn in Hf; lia|].
      destruct (fixup_loop_stop fuel t' f' k l' z' r' Hrep) as (t2 & E2 & H2); [by rewrite Hf'|].
      exists t2. split; [done|]. eexists. split; [exact H2|]. cbn [plug]. rewrite Ef.
      destruct (rotated_ok f fg l z r Hx Hfs Hgs Hfr Eu) as [R1 R2]. apply fixed_blacken.
      * apply redok_plug; [done|done|congruence].
      * by rewrite !inorder_plug, inorder_rotated.
      * intros n (m & Hm & Hkm)%bal_plug. apply bal_plug. exists m. split; [|done]. by apply bal_rotated.
Qed.

Lemma rep_size t x : rep t x -> (length (inorder x) <= size (nodes t))%nat.
Proof.
  intros [_ Hh Hnd _ _]. rewrite <- size_dom, <- (size_list_to_set (C := gset Z) (inorder x)) by done.
  apply subseteq_size. intros a Ha%elem_of_list_to_set. rewrite <- (flat_fst x 0) in Ha.
  apply list_elem_of_fmap in Ha as ([b n] & -> & Hb). apply elem_of_dom. exists n.
  unfold in_heap in Hh. rewrite Forall_forall in Hh. by apply (Hh (b, n)).
Qed.

Lemma length_ctx k x : (length k + length (inorder x) <= length (inorder (plug k x)))%nat.
Proof.
  revert x. induction k as [|f k IH]; intros x; [done|]. cbn [length plug].
  specialize (IH (plug1 f x)). destruct f; cbn in *; rewrite length_app in IH; cbn in IH; lia.
Qed.

Lemma redok_unplug k x :
  redok (plug k x) = true -> red (plug k x) = false ->
  redokc k = true /\ redok x = true /\
  (red x = true -> match k with [] => False | f :: _ => fc f <> RED end).
Proof.
  revert x. induction k as [|f k IH]; intros x; cbn [plug]; [intros H Hr; split_and!; [done|done|congruence]|].
  intros H Hr. destruct (IH _ H Hr) as (Hk & Hx & Hrf).
  assert ((fc f = RED \/ fc f = BLACK) /\ redok (fs f) = true /\ redok x = true /\
          (fc f = RED -> red (fs f) = false /\ red x = false)) as (Hc & Hs & Hx' & Hrr).
  { destruct f; cbn [plug1 fc fs] in *; rewrite redok_T in Hx; intuition. }
  split_and!; [|done|].
  - apply redokc_cons. split_and!; try done. intros E. split; [by apply Hrr|].
    apply Hrf. destruct f; cbn in *; by apply Z.eqb_eq.
  - intros E Ef. destruct (Hrr Ef). congruence.
Qed.

(** The slot at the hole of a context. *)
Definition slot_of (k : list frame) : slot :=
  match k with [] => AtRoot | FL _ a _ :: _ => AtLeft a | FR _ a _ :: _ => AtRight a end.

Lemma slot_get_of t k x : rep t (plug k x) -> slot_get t (slot_of k) = Ok (rt x).
Proof.
  intros (Hr & Hk & _)%rep_focus. destruct k as [|[c a s|c a s] k]; cbn in *; [by rewrite Hr| |];
    rewrite in_heap_cons in Hk; destruct Hk as [Ha _]; by rewrite (fld_eq _ _ _ _ Ha).
Qed.

Lemma slot_set_of t k x v : in_heap (nodes t) (flatc k x) -> slot_set t (slot_of k) v = Ok (hung t k v).
Proof.
  destruct k as [|[c a s|c a s] k]; cbn; [done| |]; rewrite in_heap_cons; intros [Ha _].
  - unfold set_left. by rewrite (put_eq _ _ _ (RbNode c v (rt s) (par k)) _ Ha).
  - unfold set_right. by rewrite (put_eq _ _ _ (RbNode c (rt s) v (par k)) _ Ha).
Qed.

Lemma rbtree_link_at t k n nd :
  rep t (plug k E) -> nodes t !! n = Some nd -> (n ∉ inorder (plug k E)) -> n <> 0 ->
  exists t', rbtree_link t n (slot_of k) (par k) = Ok t' /\ rep t' (plug k (T RED E n E)) /\
    dom (nodes t') = dom (nodes t).
Proof.
  intros H Hn Hni Hn0. pose proof (slot_get_of _ _ _ H) as Eg.
  apply rep_focus in H as (Hr & Hk & _ & Hnd & Hz & H0). rewrite inorder_plug in Hni. cbn in Hni, Hnd, Hz.
  unfold rbtree_link. rewrite Eg. cbn [res_bind rt Z.eqb negb].
  rewrite (put_eq _ _ _ (RbNode RED 0 0 (par k)) _ Hn) by done. cbn [res_bind].
  set (t1 := t <| nodes ::= <[n:=RbNode RED 0 0 (par k)]> |>).
  assert (in_heap (nodes t1) (flatc k 0)) as Hk1 by (cbn; apply in_heap_insert; [by rewrite flatc_fst|done]).
  rewrite (slot_set_of t1 k 0 n Hk1).
  eexists. split; [done|].
  assert (forall a, (a ∉ before k ++ after k) -> a <> par k \/ k = []) as Hpk.
  { intros a Ha. destruct k as [|f k]; [by right|left]. intros ->. by apply Ha, par_in. }
  split.
  - apply rep_focus. cbn. split_and!.
    + by eapply root_hung.
    + eapply flatc_hung; [exact Hk|done|]. intros a Ha. cbn. apply lookup_insert_ne. set_solver.
    + rewrite in_heap_cons. split; [|constructor]. rewrite hung_lookup by auto. cbn. by rewrite lookup_insert_eq.
    + by apply NoDup_cons.
    + set_solver.
    + rewrite hung_lookup by (apply Hpk; set_solver). cbn. by rewrite lookup_insert_ne.
  - assert (dom (nodes t1) = dom (nodes t)) as Ed.
    { cbn. rewrite dom_insert_L. assert (n ∈ dom (nodes t)) by (apply elem_of_dom; eauto). set_solver. }
    rewrite <- Ed. clearbody t1. destruct k as [|[c a s|c a s] k]; cbn in *; [done| |]; rewrite in_heap_cons in Hk1;
      destruct Hk1 as [Ha _]; rewrite dom_insert_L; apply (mk_is_Some) in Ha; apply elem_of_dom in Ha; set_solver.
Qed.

(** Linking a node at the place the search ends and fixing the colours up gives
    the tree with the node at that place, with the colour rule restored. *)
Lemma rbtree_insert_at t k n nd :
  rep t (plug k E) -> redok (plug k E) = true -> red (plug k E) = false ->
  nodes t !! n = Some nd -> (n ∉ inorder (plug k E)) -> n <> 0 ->
  total (let! t := rbtree_link t n (slot_of k) (par k) in rbtree_fixup t n) (fun t' =>
    exists y, rep t' y /\ inorder y = before k ++ n :: after k /\ redok y = true /\ red y = false /\
      (forall h, bal h (plug k E) -> exists h', bal h' y)).
Proof.
  intros H Hr Hroot Hn Hni Hn0. destruct (rbtree_link_at _ _ _ _ H Hn Hni Hn0) as (t1 & -> & H1 & Hd).
  cbn [res_bind]. unfold rbtree_fixup, fixup. destruct (redok_unplug _ _ Hr Hroot) as (Hk & _ & _).
  assert (length k < S (size (nodes t1)))%nat as Hlen.
  { pose proof (rep_size _ _ H1). pose proof (length_ctx k (T RED E n E)). lia. }
  destruct (fixup_loop_spec _ t1 k E n E H1 Hk eq_refl Hlen) as (t2 & -> & y & Hy & [F1 F2 F3 F4]).
  exists t2. split; [done|]. exists y. split_and!; try done.
  - rewrite F1, inorder_plug. done.
  - intros h (m & Hm & Hkm)%bal_plug. apply (F4 h). apply bal_plug. exists m. split; [|done].
    cbn in *. subst m. by exists O.
Qed.

(** ** Deletion *)

Lemma plug_app k1 k2 x : plug (k1 ++ k2) x = plug k2 (plug k1 x).
Proof. revert x. induction k1; intros x; cbn; [done|]. apply IHk1. Qed.

Lemma ctx_ne k a : (a ∉ before k ++ after k) -> a <> par k \/ k = [].
Proof. intros Ha. destruct k as [|f k]; [by right|left]. intros ->. by apply Ha, par_in. Qed.

(** A node with one subtree [x] at most is replaced by it. *)
Lemma splice_at t k c l z r x :
  rep t (plug k (T c l z r)) -> (l = E /\ x = r) \/ (r = E /\ x = l) ->
  set_parent_opt t (rt x) (par k) = Ok (adopted t x (par k)) /\
  hang (adopted t x (par k)) z (rt x) = Ok (hung (adopted t x (par k)) k (rt x)) /\
  rep (hung (adopted t x (par k)) k (rt x)) (plug k x) /\
  (forall a, (a ∉ inorder x) -> (a ∉ before k ++ after k) ->
     nodes (hung (adopted t x (par k)) k (rt x)) !! a = nodes t !! a).
Proof.
  intros H Hx. pose proof (rep_hole _ _ _ _ _ _ H) as Hh.
  apply rep_focus in H as (Hr & Hk & Hn & Hnd & Hz & H0). cbn in Hr, Hk, Hn, Hnd, Hz.
  rewrite in_heap_cons, in_heap_app in Hn. destruct Hn as (Hn & Hl & Hrr).
  assert (in_heap (nodes t) (flat x z) /\ NoDup (z :: inorder x ++ before k ++ after k) /\
          (0 ∉ z :: inorder x ++ before k ++ after k)) as (HX & Hnd' & Hz').
  { destruct Hx as [[-> ->]|[-> ->]]; cbn in *; [done|]. split; [done|].
    rewrite <- app_assoc in Hnd, Hz. cbn in Hnd, Hz. by rewrite <- Permutation_middle in Hnd, Hz. }
  clear Hnd Hz Hl Hrr Hx. apply NoDup_cons in Hnd' as [Hzn Hnd]. rewrite not_elem_of_app in Hzn.
  destruct Hzn as [Hzx Hzk]. pose proof Hnd as (Hndx & Hd & Hndk)%NoDup_app.
  assert (forall a, (a ∉ inorder x) -> (a ∉ before k ++ after k) ->
    nodes (hung (adopted t x (par k)) k (rt x)) !! a = nodes t !! a) as Hf.
  { intros a Ha1 Ha2. rewrite hung_lookup by by apply ctx_ne. by apply adopted_lookup. }
  split_and!; [eapply set_parent_opt_eq; [done|set_solver]| | |done].
  - eapply hang_eq; [|rewrite adopted_lookup by done; exact Hn|done].
    eapply hole_frame; [exact Hh|apply root_adopted|]. intros Hp. apply adopted_lookup.
    intros Ha. apply (Hd _ Ha). apply par_in. by intros ->.
  - apply rep_focus. split_and!.
    + eapply root_hung. rewrite root_adopted. exact Hr.
    + eapply flatc_hung; [exact Hk|done|]. intros a Ha. apply adopted_lookup. intros Ha'. by apply (Hd _ Ha').
    + eapply in_heap_flat_frame; [intros a Ha; apply hung_lookup, ctx_ne; intros Ha'; by apply (Hd _ Ha)|].
      eapply flat_adopted; [exact HX|done|done].
    + done.
    + set_solver.
    + rewrite Hf by set_solver. done.
Qed.

(** The leftmost node of a tree. *)
Definition isFL (f : frame) : Prop := match f with FL _ _ _ => True | FR _ _ _ => False end.

Lemma min_split r : r <> E -> exists ky c y X, r = plug ky (T c E y X) /\ Forall isFL ky.
Proof.
  induction r as [|c l IHl a r IHr]; [done|]. intros _. destruct l as [|cl ll al rl].
  - exists [], c, a, r. by split.
  - destruct IHl as (ky & cy & y & X & E & Hky); [done|]. exists (ky ++ [FL c a r]), cy, y, X.
    rewrite plug_app, <- E. split; [done|]. apply Forall_app. split; [done|]. by repeat constructor.
Qed.

Lemma rt_nz t k x : rep t (plug k x) -> x <> E -> rt x <> 0.
Proof.
  intros (_ & _ & _ & _ & Hz & _)%rep_focus Hx. destruct x; [done|]. cbn in *. set_solver.
Qed.

Lemma plug_nz k x : x <> E -> plug k x <> E.
Proof. revert x. induction k as [|f k IH]; intros x Hx; [done|]. cbn. apply IH. by destruct f. Qed.

Lemma minimum_loop_at fuel t ky k c y X :
  rep t (plug (ky ++ k) (T c E y X)) -> Forall isFL ky -> (length ky < fuel)%nat ->
  minimum_loop fuel t (rt (plug ky (T c E y X))) = Ok y.
Proof.
  revert fuel k. induction ky as [|f ky IH] using rev_ind; intros fuel k H Hky Hf.
  - destruct fuel; [lia|]. cbn [minimum_loop plug rt]. at_node H. done.
  - rewrite length_app in Hf. cbn in Hf. destruct fuel as [|fuel]; [lia|].
    apply Forall_app in Hky as [Hky Hf1]. rewrite Forall_singleton in Hf1. destruct f as [cf a s|]; [|done].
    rewrite <- app_assoc in H. cbn [app] in H. rewrite plug_app. cbn [minimum_loop plug plug1 rt].
    assert (rep t (plug k (T cf (plug ky (T c E y X)) a s))) as Ha by (rewrite plug_app in H; exact H).
    at_node Ha. rewrite (proj2 (Z.eqb_neq _ 0)).
    + apply (IH fuel (FL cf a s :: k)); [done|done|lia].
    + eapply (rt_nz t (FL cf a s :: k)); [exact Ha|by apply plug_nz].
Qed.

Lemma seat_at t k c l z zr y ny r :
  hole t k z -> root t = top k z -> in_heap (nodes t) (flatc k z) ->
  nodes t !! z = Some (RbNode c (rt l) zr (par k)) ->
  nodes t !! y = Some ny -> n_right ny = rt r ->
  in_heap (nodes t) (flat l z) -> in_heap (nodes t) (flat r y) -> l <> E -> nodes t !! 0 = None ->
  NoDup (z :: y :: inorder l ++ inorder r ++ before k ++ after k) ->
  (0 ∉ z :: y :: inorder l ++ inorder r ++ before k ++ after k) ->
  exists t', seat t z y = Ok t' /\ rep t' (plug k (T c l y r)).
Proof.
  unfold seat.
  intros Hh Hr Hk Hz Hy Hyr Hl Hrr Hle H0 Hnd Hnz.
  rewrite !NoDup_cons in Hnd. destruct Hnd as (Hzn & Hyn & Hnd).
  rewrite (hang_eq _ _ _ y _ Hh Hz) by done. cbn [res_bind].
  assert (nodes (hung t k y) !! z = Some (RbNode c (rt l) zr (par k))) as Hz1
    by (rewrite hung_lookup by (apply ctx_ne; set_solver); done).
  assert (nodes (hung t k y) !! y = Some ny) as Hy1
    by (rewrite hung_lookup by (apply ctx_ne; set_solver); done).
  rewrite (fld_eq _ _ _ _ Hz1). cbn [res_bind n_parent].
  destruct ny as [nc nl nr np]. cbn in Hyr. subst nr.
  unfold set_parent at 1. rewrite (put_eq _ _ _ (RbNode nc nl (rt r) (par k)) _ Hy1) by done. cbn [res_bind].
  assert (z <> y) as Hzy by set_solver. assert (rt l <> 0) as Hl0 by (destruct l; [done|]; cbn in *; set_solver).
  set (t2 := (hung t k y) <| nodes ::= _ |>).
  assert (nodes t2 !! z = Some (RbNode c (rt l) zr (par k))) as Hz2 by (cbn; by rewrite lookup_insert_ne).
  assert (nodes t2 !! y = Some (RbNode nc nl (rt r) (par k))) as Hy2 by apply lookup_insert_eq.
  rewrite (fld_eq _ _ _ _ Hz2). cbn [res_bind n_left].
  unfold set_left. rewrite (put_eq _ _ _ (RbNode nc (rt l) (rt r) (par k)) _ Hy2) by done. cbn [res_bind].
  set (t3 := t2 <| nodes ::= _ |>).
  assert (nodes t3 !! z = Some (RbNode c (rt l) zr (par k))) as Hz3 by (cbn; by rewrite lookup_insert_ne).
  assert (nodes t3 !! y = Some (RbNode nc (rt l) (rt r) (par k))) as Hy3 by apply lookup_insert_eq.
  rewrite (fld_eq _ _ _ _ Hy3). cbn [res_bind n_left].
  assert (forall a, a <> y -> (a ∉ before k ++ after k) -> nodes t3 !! a = nodes t !! a) as H3.
  { intros a Ha1 Ha2. cbn. rewrite 2 lookup_insert_ne by done. by rewrite hung_lookup by by apply ctx_ne. }
  assert (in_heap (nodes t3) (flat l z)) as Hl3.
  { eapply in_heap_flat_frame, Hl. intros a Ha. apply H3; [set_solver|]. 
    apply NoDup_app in Hnd as (_ & Hd & _). specialize (Hd a Ha). set_solver. }
  assert (set_parent t3 (rt l) y = Ok (adopted t3 l y)) as Ea.
  { pose proof (set_parent_opt_eq t3 l z y Hl3) as E. unfold set_parent_opt in E.
    rewrite (proj2 (Z.eqb_neq _ 0) Hl0) in E. apply E. set_solver. }
  rewrite Ea. cbn [res_bind].
  assert (nodes (adopted t3 l y) !! z = Some (RbNode c (rt l) zr (par k))) as Hz4
    by (rewrite adopted_lookup by set_solver; done).
  assert (nodes (adopted t3 l y) !! y = Some (RbNode nc (rt l) (rt r) (par k))) as Hy4
    by (rewrite adopted_lookup by set_solver; done).
  rewrite (fld_eq _ _ _ _ Hz4). cbn [res_bind n_color].
  unfold set_color. rewrite (put_eq _ _ _ (RbNode c (rt l) (rt r) (par k)) _ Hy4) by done.
  eexists. split; [done|].
  pose proof Hnd as (Hndl & Hdl & (Hndr & Hdr & Hndk)%NoDup_app)%NoDup_app.
  apply rep_focus. cbn. split_and!.
  - rewrite root_adopted. cbn. by eapply root_hung.
  - apply in_heap_insert; [rewrite flatc_fst; set_solver|].
    eapply in_heap_frame; [intros a Ha; apply adopted_lookup; rewrite flatc_fst in Ha; intros Hal;
      specialize (Hdl a Hal); set_solver|].
    cbn. do 2 (apply in_heap_insert; [rewrite flatc_fst; set_solver|]).
    eapply flatc_hung; [exact Hk|done|done].
  - rewrite in_heap_cons, in_heap_app. split_and!; [apply lookup_insert_eq|apply in_heap_insert; [rewrite flat_fst; set_solver|]..].
    + eapply flat_adopted; [exact Hl3|done|done].
    + eapply in_heap_flat_frame, Hrr. intros a Ha. rewrite adopted_lookup by (intros Hal; specialize (Hdl a Hal); set_solver).
      apply H3; [set_solver|]. specialize (Hdr a Ha). set_solver.
  - rewrite <- app_assoc. cbn. rewrite <- Permutation_middle. by apply NoDup_cons.
  - set_solver.
  - rewrite lookup_insert_ne, adopted_lookup by set_solver. rewrite H3 by set_solver. done.
Qed.

(** What [unlink] makes of the subtree of [z] in the context [k]: the context of
    the node that moved up, that node's subtree, and the colour that is lost. *)
Inductive unlinked (k : list frame) (c : Z) : tree -> Z -> tree -> list frame -> tree -> Z -> Prop :=
| unlinked_right z r : unlinked k c E z r k r c
| unlinked_left z l : l <> E -> unlinked k c l z E k l c
| unlinked_min z l ky cy y X : l <> E -> Forall isFL ky ->
    unlinked k c l z (plug ky (T cy E y X)) (ky ++ FR c y l :: k) X cy.

Lemma before_app k1 k2 : before (k1 ++ k2) = before k2 ++ before k1.
Proof. induction k1 as [|[c a s|c a s] k1 IH]; cbn; [by rewrite app_nil_r|done|].
  by rewrite IH, <- app_assoc.
Qed.

Lemma after_app k1 k2 : after (k1 ++ k2) = after k1 ++ after k2.
Proof. induction k1 as [|[c a s|c a s] k1 IH]; cbn; [done| |done]. by rewrite IH, <- app_assoc. Qed.

Lemma before_left ky : Forall isFL ky -> before ky = [].
Proof. induction 1 as [|[|] ky Hf _ IH]; cbn; done. Qed.

Lemma unlinked_inorder k c l z r kx X yc :
  unlinked k c l z r kx X yc -> inorder (plug kx X) = before k ++ inorder l ++ inorder r ++ after k.
Proof.
  intros [z' r'|z' l' Hl|z' l' ky cy y X' Hl Hky]; rewrite ?inorder_plug; cbn; [done|done|].
  rewrite before_app, after_app, (before_left ky) by done. cbn. rewrite <- !app_assoc. done.
Qed.

(** [y] is the right child of [z] itself. *)
Lemma unlink_min_child t k c l z cy y X :
  rep t (plug k (T c l z (T cy E y X))) -> l <> E ->
  exists t', unlink t z = Ok (cy, rt X, t') /\ rep t' (plug k (T c l y X)).
Proof.
  intros H Hl. pose proof (rep_hole _ _ _ _ _ _ H) as Hh.
  assert (rep t (plug (FR c z l :: k) (T cy E y X))) as Hy by exact H.
  assert (rep t (plug (FL c z (T cy E y X) :: k) l)) as Hll by exact H.
  assert (rep t (plug (FR cy y E :: FR c z l :: k) X)) as HX by exact H.
  pose proof (rt_nz _ _ _ Hll Hl) as Hl0. pose proof (rt_nz _ _ _ Hy ltac:(discriminate)) as Hy0. cbn in Hy0.
  unfold unlink. do 3 at_node H. rewrite !(proj2 (Z.eqb_neq _ 0)) by done.
  pose proof (minimum_loop_at (S (size (nodes t))) t [] (FR c z l :: k) cy y X Hy ltac:(constructor) ltac:(cbn; lia)) as Em.
  unfold minimum. cbn [plug rt] in Em. rewrite Em. cbn [res_bind]. do 3 at_node Hy. rewrite Z.eqb_refl.
  apply rep_focus in H as (Hr & Hk & Hn & Hnd & Hz & H0). cbn in Hr, Hk, Hn, Hnd, Hz.
  rewrite !in_heap_cons, !in_heap_app, !in_heap_cons in Hn. destruct Hn as (Hnz & Hnl & Hny & HnX).
  assert (NoDup (z :: y :: inorder l ++ inorder X ++ before k ++ after k) /\
    (0 ∉ z :: y :: inorder l ++ inorder X ++ before k ++ after k)) as [Hnd' Hz'].
  { assert ((inorder l ++ z :: y :: inorder X) ++ before k ++ after k ≡ₚ
            z :: y :: inorder l ++ inorder X ++ before k ++ after k) as Hp by solve_Permutation.
    by rewrite Hp in Hnd, Hz. }
  clear Hnd Hz. pose proof Hnd' as Hnd. rewrite !NoDup_cons in Hnd. destruct Hnd as (Hzn & Hyn & Hnd).
  pose proof Hnd as (Hndl & Hdl & (HndX & HdX & Hndk)%NoDup_app)%NoDup_app.
  rewrite (set_parent_opt_eq t X y y) by (done || set_solver). cbn [res_bind].
  assert (forall a, (a ∉ inorder X) -> nodes (adopted t X y) !! a = nodes t !! a) as Hf
    by (intros a Ha; by apply adopted_lookup).
  edestruct (seat_at (adopted t X y) k c l z y y (RbNode cy 0 (rt X) z) X) as (t' & Es & Ht').
  - eapply hole_frame; [exact Hh|apply root_adopted|]. intros Hp. apply Hf. intros Ha. apply (HdX _ Ha), par_in. by intros ->.
  - by rewrite root_adopted.
  - eapply in_heap_frame; [|exact Hk]. intros a Ha. apply Hf. rewrite flatc_fst in Ha. intros Ha'. by apply (HdX _ Ha').
  - rewrite Hf by set_solver. exact Hnz.
  - rewrite Hf by set_solver. exact Hny.
  - done.
  - eapply in_heap_flat_frame; [|exact Hnl]. intros a Ha. apply Hf. specialize (Hdl a Ha). set_solver.
  - eapply flat_adopted; [exact HnX|done|done].
  - done.
  - rewrite Hf by set_solver. done.
  - done.
  - done.
  - exists t'. rewrite Es. done.
Qed.

(** [y] is further down: it is spliced out first. *)
Lemma unlink_min_deep t k c l z cf a s ky cy y X :
  rep t (plug k (T c l z (plug (FL cf a s :: ky) (T cy E y X)))) -> l <> E -> Forall isFL (FL cf a s :: ky) ->
  exists t', unlink t z = Ok (cy, rt X, t') /\ rep t' (plug k (T c l y (plug (FL cf a s :: ky) X))).
Proof.
  intros H Hl Hky. set (k1 := FL cf a s :: ky) in *.
  assert (rep t (plug (k1 ++ FR c z l :: k) (T cy E y X))) as Hy by (rewrite plug_app; exact H).
  assert (rep t (plug (FL c z (plug k1 (T cy E y X)) :: k) l)) as Hll by exact H.
  assert (plug k1 (T cy E y X) <> E) as Hne by (by apply plug_nz).
  assert (rt (plug k1 (T cy E y X)) <> 0) as Hr0
    by (eapply (rt_nz t (FR c z l :: k)); [rewrite plug_app in Hy; exact Hy|done]).
  unfold unlink. do 3 at_node H. rewrite (proj2 (Z.eqb_neq _ 0) (rt_nz _ _ _ Hll Hl)), (proj2 (Z.eqb_neq _ 0) Hr0).
  unfold minimum. rewrite (minimum_loop_at _ t k1 (FR c z l :: k) cy y X Hy Hky).
  2:{ pose proof (rep_size _ _ Hy). pose proof (length_ctx (k1 ++ FR c z l :: k) (T cy E y X)) as Hlen.
      rewrite length_app in Hlen. lia. }
  cbn [res_bind]. do 3 at_node Hy. cbn [app k1 par fa].
  destruct (splice_at t _ cy E y X X Hy) as (E1 & E2 & H2 & Hf2); [by left|].
  set (t1 := adopted t X (par (k1 ++ FR c z l :: k))) in *.
  set (t2 := hung t1 (k1 ++ FR c z l :: k) (rt X)) in *. change (par (k1 ++ FR c z l :: k)) with a in E1.
  pose proof Hy as (_ & Hky' & Hn & Hnd & Hz & H0)%rep_focus.
  rewrite before_app, after_app in Hnd, Hz.
  assert (NoDup (z :: y :: inorder l ++ inorder (plug k1 X) ++ before k ++ after k) /\
    (0 ∉ z :: y :: inorder l ++ inorder (plug k1 X) ++ before k ++ after k)) as [Hnd' Hz'].
  { assert (inorder (T cy E y X) ++ (before (FR c z l :: k) ++ before k1) ++ after k1 ++ after (FR c z l :: k) ≡ₚ
      z :: y :: inorder l ++ inorder (plug k1 X) ++ before k ++ after k) as Hp
      by (rewrite inorder_plug; cbn -[k1]; solve_Permutation).
    by rewrite Hp in Hnd, Hz. }
  clear Hnd Hz. pose proof Hnd' as Hnd. rewrite !NoDup_cons in Hnd. destruct Hnd as (Hzn & Hyn & Hnd).
  assert (a ∈ inorder (plug k1 X)) as Ha by (rewrite inorder_plug; cbn; set_solver).
  rewrite (proj2 (Z.eqb_neq a z)) by set_solver.
  rewrite E1. cbn [res_bind].
  assert (nodes t1 !! y = Some (RbNode cy 0 (rt X) a)) as Hy1.
  { unfold t1. rewrite adopted_lookup. 2:{ rewrite inorder_plug in Hyn. set_solver. }
    cbn in Hn. by apply in_heap_cons in Hn as [Hn _]. }
  rewrite (fld_eq _ _ _ _ Hy1). cbn [res_bind n_parent].
  assert (set_left t1 a (rt X) = Ok t2) as E3.
  { apply (slot_set_of t1 (k1 ++ FR c z l :: k) y (rt X)).
    eapply in_heap_frame; [|exact Hky']. intros b Hb. apply adopted_lookup. rewrite flatc_fst, before_app, after_app in Hb.
    rewrite inorder_plug in Hnd, Hzn. apply NoDup_app in Hnd as (_ & Hd1 & Hnd). rewrite !NoDup_app in Hnd.
    cbn -[k1] in Hb. intros HbX. specialize (Hd1 b). set_solver. }
  rewrite E3. cbn [res_bind].
  assert (rep t2 (plug k (T c l z (plug k1 X)))) as H2' by (rewrite plug_app in H2; exact H2).
  at_node H2'.
  assert (nodes t2 !! y = Some (RbNode cy 0 (rt X) a)) as Hy2.
  { rewrite Hf2; [cbn in Hn; by apply in_heap_cons in Hn as [Hn _]|..];
      rewrite ?before_app, ?after_app; rewrite inorder_plug in Hyn; cbn -[k1]; set_solver. }
  unfold set_right. rewrite (put_eq _ _ _ (RbNode cy 0 (rt (plug k1 X)) a) _ Hy2) by done. cbn [res_bind].
  set (t3 := t2 <| nodes ::= _ |>).
  assert (nodes t3 !! y = Some (RbNode cy 0 (rt (plug k1 X)) a)) as Hy3 by apply lookup_insert_eq.
  rewrite (fld_eq _ _ _ _ Hy3). cbn [res_bind n_right].
  pose proof (rep_hole _ _ _ _ _ _ H2') as Hh2.
  apply rep_focus in H2' as (Hr2 & Hk2 & Hn2 & _ & _ & H02). cbn -[k1] in Hr2, Hk2, Hn2.
  rewrite in_heap_cons, in_heap_app in Hn2. destruct Hn2 as (Hz2 & Hl2 & HR2).
  set (R := plug k1 X) in *. clearbody R t2.
  pose proof Hnd as (Hndl & Hdl & (HndR & HdR & Hndk)%NoDup_app)%NoDup_app.
  assert (in_heap (nodes t3) (flat R z)) as HR3 by (cbn; apply in_heap_insert; [rewrite flat_fst; set_solver|done]).
  assert (set_parent t3 (rt R) y = Ok (adopted t3 R y)) as E4.
  { pose proof (set_parent_opt_eq t3 R z y HR3) as E. unfold set_parent_opt in E.
    rewrite (proj2 (Z.eqb_neq _ 0)) in E; [apply E; set_solver|]. destruct R; cbn in *; [set_solver|set_solver]. }
  rewrite E4. cbn [res_bind].
  assert (forall b, b <> y -> (b ∉ inorder R) -> nodes (adopted t3 R y) !! b = nodes t2 !! b) as Hf4.
  { intros b Hb1 Hb2. rewrite adopted_lookup by done. cbn. by apply lookup_insert_ne. }
  edestruct (seat_at (adopted t3 R y) k c l z (rt R) y (RbNode cy 0 (rt R) a) R) as (t' & Es & Ht').
  - eapply hole_frame; [exact Hh2|by rewrite root_adopted|]. intros Hp.
    assert (par k ∈ before k ++ after k) by (apply par_in; by intros ->).
    apply Hf4; [set_solver|]. intros Hb. by apply (HdR _ Hb).
  - by rewrite root_adopted.
  - eapply in_heap_frame; [|exact Hk2]. intros b Hb. rewrite flatc_fst in Hb. apply Hf4; [set_solver|].
    intros Hb'. by apply (HdR _ Hb').
  - rewrite Hf4 by set_solver. exact Hz2.
  - rewrite adopted_lookup by set_solver. exact Hy3.
  - done.
  - eapply in_heap_flat_frame; [|exact Hl2]. intros b Hb. specialize (Hdl b Hb). apply Hf4; set_solver.
  - eapply flat_adopted; [exact HR3|done|done].
  - done.
  - rewrite Hf4 by set_solver. done.
  - done.
  - done.
  - exists t'. rewrite Es. done.
Qed.


Lemma unlink_at t k c l z r :
  rep t (plug k (T c l z r)) ->
  exists t' kx X yc, unlink t z = Ok (yc, rt X, t') /\ rep t' (plug kx X) /\ unlinked k c l z r kx X yc.
Proof.
  intros H. destruct (decide (l = E)) as [->|Hl].
  { destruct (splice_at t k c E z r r H) as (E1 & E2 & H2 & _); [by left|].
    unfold unlink. do 3 at_node H. cbn [Z.eqb]. at_node H. rewrite E1. cbn [res_bind]. rewrite E2. cbn [res_bind].
    do 4 eexists. split; [reflexivity|]. split; [exact H2|]. constructor. }
  assert (rep t (plug (FL c z r :: k) l)) as Hll by exact H. pose proof (rt_nz _ _ _ Hll Hl) as Hl0.
  destruct (decide (r = E)) as [->|Hr].
  { destruct (splice_at t k c l z E l H) as (E1 & E2 & H2 & _); [by right|].
    unfold unlink. do 3 at_node H. rewrite (proj2 (Z.eqb_neq _ 0) Hl0). cbn [Z.eqb]. at_node H.
    rewrite E1. cbn [res_bind]. rewrite E2. cbn [res_bind].
    do 4 eexists. split; [reflexivity|]. split; [exact H2|]. by constructor. }
  destruct (min_split r Hr) as (ky & cy & y & X & -> & Hky). destruct ky as [|[cf a s|cf a s] ky].
  - destruct (unlink_min_child _ _ _ _ _ _ _ _ H Hl) as (t' & E & H').
    exists t', (FR c y l :: k), X, cy. split; [done|]. split; [exact H'|]. by apply (unlinked_min k c z l []).
  - destruct (unlink_min_deep _ _ _ _ _ _ _ _ _ _ _ _ H Hl Hky) as (t' & E & H').
    exists t', ((FL cf a s :: ky) ++ FR c y l :: k), X, cy. split; [done|]. split; [rewrite plug_app; exact H'|]. by constructor.
  - by apply Forall_cons in Hky as [[] _].
Qed.

(** The colour rule with a black root. *)
Definition good (x : tree) : Prop := redok x = true /\ red x = false.

Lemma good_swap k x y :
  good (plug k x) -> redok y = true -> (red y = true -> red x = true) -> good (plug k y).
Proof.
  intros [H Hr] Hy Hc. destruct (redok_unplug _ _ H Hr) as (Hk & Hx & Hf).
  assert (redok (plug k y) = true /\ (k <> [] -> red (plug k y) = false)) as [H1 H2].
  { apply redok_plug; [done|done|]. intros E. specialize (Hf (Hc E)). by destruct k. }
  split; [done|]. destruct k as [|f k]; [|by apply H2]. cbn in *. destruct (red y); [|done]. rewrite Hc in Hr; done.
Qed.

Lemma good_sub k x : good (plug k x) -> redok x = true.
Proof. intros [H Hr]. by apply (redok_unplug _ _ H Hr). Qed.

Definition blk (x : tree) : bool := match x with E => true | T c _ _ _ => c =? BLACK end.

Lemma isblack_rt t k x : rep t (plug k x) -> isblack t (rt x) = Ok (blk x).
Proof.
  intros H. unfold isblack. destruct x as [|c l a r]; [done|]. 
  rewrite (proj2 (Z.eqb_neq _ 0)) by (by eapply rt_nz). cbn [rt]. by at_node H.
Qed.

Lemma blk_red x : redok x = true -> blk x = negb (red x).
Proof. destruct x as [|c l a r]; [done|]. rewrite redok_T. intros [[->| ->] _]; done. Qed.

(** Equal concatenations up to associativity. *)
Ltac norm_app := cbn [inorder app]; repeat (rewrite <- app_assoc; cbn [app]); reflexivity.

Lemma fixup_del_left_at t cp p wl w wr k X :
  rep t (plug (FL cp p (T BLACK wl w wr) :: k) X) -> X <> E -> red X = false ->
  good (plug (FL cp p (T BLACK wl w wr) :: k) X) ->
  total (fixup_del_left t p w) (fun '(x', t') => exists k' X', x' = rt X' /\ X' <> E /\ rep t' (plug k' X') /\
    inorder (plug k' X') = inorder (plug (FL cp p (T BLACK wl w wr) :: k) X) /\ good (plug k' (blacken X'))).
Proof.
  intros H HX Hred Hg. set (W := T BLACK wl w wr) in *.
  assert (rep t (plug (FR cp p X :: k) W)) as Hw by exact H.
  assert (rep t (plug (FL BLACK w wr :: FR cp p X :: k) wl)) as Hwl by exact H.
  assert (rep t (plug (FR BLACK w wl :: FR cp p X :: k) wr)) as Hwr by exact H.
  pose proof (good_sub k (T cp X p W) Hg) as Hok.
  pose proof (proj1 (redok_T _ _ _ _) Hok) as (Hcp & Hpr & HXok & HWok).
  pose proof (proj1 (redok_T _ _ _ _) HWok) as (_ & _ & Hlok & Hrok).
  unfold fixup_del_left. at_node Hw. rewrite (isblack_rt _ _ _ Hwl). cbn [res_bind]. at_node Hw.
  rewrite (isblack_rt _ _ _ Hwr). cbn [res_bind]. rewrite (blk_red wl Hlok), (blk_red wr Hrok).
  destruct (negb (red wl) && negb (red wr)) eqn:Eb.
  - bool_facts. paint Hw RED. apply total_Ok. exists k, (T cp X p (T RED wl w wr)).
    split_and!; [done|done|exact Hc|cbn [plug]; by rewrite !inorder_plug|].
    cbn [blacken]. apply (good_swap k _ _ Hg); [|done]. rewrite !redok_T. split_and!; auto; discriminate.
  - destruct (red wr) eqn:Er; cbn [negb andb] in *.
    + destruct wr as [|c' wrl wrv wrr]; [done|]. cbn in Er. bool_facts. subst c'. cbn [res_bind].
      assert (rep t (plug k (T cp X p W))) as Hp by exact H. at_node Hp. paint Hw cp.
      assert (rep t0 (plug k (T cp X p (T cp wl w (T RED wrl wrv wrr))))) as Hp0 by exact Hc. paint Hp0 BLACK.
      assert (rep t1 (plug (FR BLACK p X :: k) (T cp wl w (T RED wrl wrv wrr)))) as Hw1 by exact Hc0. at_node Hw1.
      assert (rep t1 (plug (FR cp w wl :: FR BLACK p X :: k) (T RED wrl wrv wrr))) as Hwr1 by exact Hc0.
      rewrite (proj2 (Z.eqb_neq wrv 0)) by (eapply (rt_nz _ _ _ Hwr1); done). paint Hwr1 BLACK.
      assert (rep t2 (plug k (T BLACK X p (T cp wl w (T BLACK wrl wrv wrr))))) as Hp2 by exact Hc1.
      destruct (rotate_left_at _ _ _ _ _ _ _ _ _ Hp2) as (t3 & -> & H3). cbn [res_bind snd]. apply total_Ok.
      set (Y := plug k _) in H3. exists [], Y. pose proof (proj1 (redok_T _ _ _ _) Hrok) as (_ & _ & R1 & R2).
      split_and!; [apply H3|by apply plug_nz|exact H3| |].
      * unfold Y, W. cbn [plug plug1]. rewrite !inorder_plug. f_equal. norm_app.
      * apply blacken_ok. apply (good_swap k _ (T cp (T BLACK X p wl) w (T BLACK wrl wrv wrr)) Hg); [|done].
        rewrite !redok_T. split_and!; auto; discriminate.
    + destruct wl as [|c' wll wlv wlr]; [done|]. cbn [red] in Eb. destruct (Z.eqb_spec c' RED); [subst c'|done].
      cbn [rt]. rewrite (proj2 (Z.eqb_neq wlv 0)) by (eapply (rt_nz _ _ _ Hwl); done). paint Hwl BLACK.
      assert (rep t0 (plug (FR cp p X :: k) (T BLACK (T BLACK wll wlv wlr) w wr))) as Hw0 by exact Hc. paint Hw0 RED.
      destruct (rotate_right_at _ _ _ _ _ _ _ _ _ Hc0) as (t2 & -> & H2). cbn [res_bind snd].
      assert (rep t2 (plug k (T cp X p (T BLACK wll wlv (T RED wlr w wr))))) as Hp2 by exact H2.
      at_node Hp2. at_node Hp2. paint H2 cp.
      assert (rep t3 (plug k (T cp X p (T cp wll wlv (T RED wlr w wr))))) as Hp3 by exact Hc1. paint Hp3 BLACK.
      assert (rep t4 (plug (FR BLACK p X :: k) (T cp wll wlv (T RED wlr w wr)))) as Hw4 by exact Hc2. at_node Hw4.
      assert (rep t4 (plug (FR cp wlv wll :: FR BLACK p X :: k) (T RED wlr w wr))) as Hwr4 by exact Hc2.
      rewrite (proj2 (Z.eqb_neq w 0)) by (eapply (rt_nz _ _ _ Hwr4); done). paint Hwr4 BLACK.
      assert (rep t5 (plug k (T BLACK X p (T cp wll wlv (T BLACK wlr w wr))))) as Hp5 by exact Hc3.
      destruct (rotate_left_at _ _ _ _ _ _ _ _ _ Hp5) as (t6 & -> & H6). cbn [res_bind snd]. apply total_Ok.
      set (Y := plug k _) in H6. exists [], Y. pose proof (proj1 (redok_T _ _ _ _) Hlok) as (_ & R0 & R1 & R2).
      destruct (R0 eq_refl). split_and!; [apply H6|by apply plug_nz|exact H6| |].
      * unfold Y, W. cbn [plug plug1]. rewrite !inorder_plug. f_equal. norm_app.
      * apply blacken_ok. apply (good_swap k _ (T cp (T BLACK X p wll) wlv (T BLACK wlr w wr)) Hg); [|done].
        rewrite !redok_T. split_and!; auto; discriminate.
Qed.

Lemma fixup_del_right_at t cp p wl w wr k X :
  rep t (plug (FR cp p (T BLACK wl w wr) :: k) X) -> X <> E -> red X = false ->
  good (plug (FR cp p (T BLACK wl w wr) :: k) X) ->
  total (fixup_del_right t p w) (fun '(x', t') => exists k' X', x' = rt X' /\ X' <> E /\ rep t' (plug k' X') /\
    inorder (plug k' X') = inorder (plug (FR cp p (T BLACK wl w wr) :: k) X) /\ good (plug k' (blacken X'))).
Proof.
  intros H HX Hred Hg. set (W := T BLACK wl w wr) in *.
  assert (rep t (plug (FL cp p X :: k) W)) as Hw by exact H.
  assert (rep t (plug (FL BLACK w wr :: FL cp p X :: k) wl)) as Hwl by exact H.
  assert (rep t (plug (FR BLACK w wl :: FL cp p X :: k) wr)) as Hwr by exact H.
  pose proof (good_sub k (T cp W p X) Hg) as Hok.
  pose proof (proj1 (redok_T _ _ _ _) Hok) as (Hcp & Hpr & HWok & HXok).
  pose proof (proj1 (redok_T _ _ _ _) HWok) as (_ & _ & Hlok & Hrok).
  unfold fixup_del_right. at_node Hw. rewrite (isblack_rt _ _ _ Hwr). cbn [res_bind]. at_node Hw.
  rewrite (isblack_rt _ _ _ Hwl). cbn [res_bind]. rewrite (blk_red wl Hlok), (blk_red wr Hrok).
  destruct (negb (red wr) && negb (red wl)) eqn:Eb.
  - bool_facts. paint Hw RED. apply total_Ok. exists k, (T cp (T RED wl w wr) p X).
    split_and!; [done|done|exact Hc|cbn [plug]; by rewrite !inorder_plug|].
    cbn [blacken]. apply (good_swap k _ _ Hg); [|done]. rewrite !redok_T. split_and!; auto; discriminate.
  - destruct (red wl) eqn:Er; cbn [negb andb] in *.
    + destruct wl as [|c' wll wlv wlr]; [done|]. cbn in Er. bool_facts. subst c'. cbn [res_bind].
      assert (rep t (plug k (T cp W p X))) as Hp by exact H. at_node Hp. paint Hw cp.
      assert (rep t0 (plug k (T cp (T cp (T RED wll wlv wlr) w wr) p X))) as Hp0 by exact Hc. paint Hp0 BLACK.
      assert (rep t1 (plug (FL BLACK p X :: k) (T cp (T RED wll wlv wlr) w wr))) as Hw1 by exact Hc0. at_node Hw1.
      assert (rep t1 (plug (FL cp w wr :: FL BLACK p X :: k) (T RED wll wlv wlr))) as Hwl1 by exact Hc0.
      rewrite (proj2 (Z.eqb_neq wlv 0)) by (eapply (rt_nz _ _ _ Hwl1); done). paint Hwl1 BLACK.
      assert (rep t2 (plug k (T BLACK (T cp (T BLACK wll wlv wlr) w wr) p X))) as Hp2 by exact Hc1.
      destruct (rotate_right_at _ _ _ _ _ _ _ _ _ Hp2) as (t3 & -> & H3). cbn [res_bind snd]. apply total_Ok.
      set (Y := plug k _) in H3. exists [], Y. pose proof (proj1 (redok_T _ _ _ _) Hlok) as (_ & _ & R1 & R2).
      split_and!; [apply H3|by apply plug_nz|exact H3| |].
      * unfold Y, W. cbn [plug plug1]. rewrite !inorder_plug. f_equal. norm_app.
      * apply blacken_ok. apply (good_swap k _ (T cp (T BLACK wll wlv wlr) w (T BLACK wr p X)) Hg); [|done].
        rewrite !redok_T. split_and!; auto; discriminate.
    + destruct wr as [|c' wrl wrv wrr]; [done|]. cbn [red] in Eb. destruct (Z.eqb_spec c' RED); [subst c'|done].
      cbn [rt]. rewrite (proj2 (Z.eqb_neq wrv 0)) by (eapply (rt_nz _ _ _ Hwr); done). paint Hwr BLACK.
      assert (rep t0 (plug (FL cp p X :: k) (T BLACK wl w (T BLACK wrl wrv wrr)))) as Hw0 by exact Hc. paint Hw0 RED.
      destruct (rotate_left_at _ _ _ _ _ _ _ _ _ Hc0) as (t2 & -> & H2). cbn [res_bind snd].
      assert (rep t2 (plug k (T cp (T BLACK (T RED wl w wrl) wrv wrr) p X))) as Hp2 by exact H2.
      at_node Hp2. at_node Hp2. paint H2 cp.
      assert (rep t3 (plug k (T cp (T cp (T RED wl w wrl) wrv wrr) p X))) as Hp3 by exact Hc1. paint Hp3 BLACK.
      assert (rep t4 (plug (FL BLACK p X :: k) (T cp (T RED wl w wrl) wrv wrr))) as Hw4 by exact Hc2. at_node Hw4.
      assert (rep t4 (plug (FL cp wrv wrr :: FL BLACK p X :: k) (T RED wl w wrl))) as Hwl4 by exact Hc2.
      rewrite (proj2 (Z.eqb_neq w 0)) by (eapply (rt_nz _ _ _ Hwl4); done). paint Hwl4 BLACK.
      assert (rep t5 (plug k (T BLACK (T cp (T BLACK wl w wrl) wrv wrr) p X))) as Hp5 by exact Hc3.
      destruct (rotate_right_at _ _ _ _ _ _ _ _ _ Hp5) as (t6 & -> & H6). cbn [res_bind snd]. apply total_Ok.
      set (Y := plug k _) in H6. exists [], Y. pose proof (proj1 (redok_T _ _ _ _) Hrok) as (_ & R0 & R1 & R2).
      destruct (R0 eq_refl). split_and!; [apply H6|by apply plug_nz|exact H6| |].
      * unfold Y, W. cbn [plug plug1]. rewrite !inorder_plug. f_equal. norm_app.
      * apply blacken_ok. apply (good_swap k _ (T cp (T BLACK wl w wrl) wrv (T BLACK wrr p X)) Hg); [|done].
        rewrite !redok_T. split_and!; auto; discriminate.
Qed.

(** A sibling that is null is dereferenced. *)
Lemma fixup_del_null t p : nodes t !! 0 = None -> fixup_del_left t p 0 = Fault NullDeref /\ fixup_del_right t p 0 = Fault NullDeref.
Proof. intros H. unfold fixup_del_left, fixup_del_right, fld. by rewrite H. Qed.

(** What a turn of the loop of [fixup_del] gives when it does not fault. *)
Definition del_turn (x : tree) (r : Z * rbtree) : Prop :=
  exists k' X', fst r = rt X' /\ X' <> E /\ rep (snd r) (plug k' X') /\
    inorder (plug k' X') = inorder x /\ good (plug k' (blacken X')).

Lemma black_shape W : redok W = true -> red W = false -> W = E \/ exists l w r, W = T BLACK l w r.
Proof.
  destruct W as [|c l w r]; [by left|]. rewrite redok_T. intros [[->| ->] _] Hr; [done|]. right. eauto.
Qed.

(** The two endings of a turn, for a sibling that is not red. *)
Lemma del_turn_left t cp p W k X x r :
  rep t (plug (FL cp p W :: k) X) -> X <> E -> red X = false -> good (plug (FL cp p W :: k) X) -> red W = false ->
  inorder (plug (FL cp p W :: k) X) = inorder x -> fixup_del_left t p (rt W) = Ok r -> del_turn x r.
Proof.
  intros H HX Hred Hg Hw Hi E. pose proof (good_sub k _ Hg) as (_ & _ & _ & HWok)%redok_T.
  destruct (black_shape W HWok Hw) as [->|(wl & w & wr & ->)].
  - cbn [rt] in E. by rewrite (proj1 (fixup_del_null t p (rep_null _ _ H))) in E.
  - destruct (fixup_del_left_at t cp p wl w wr k X H HX Hred Hg) as ([x' t'] & E' & k' & X' & P1 & P2 & P3 & P4 & P5).
    cbn [rt] in E. rewrite E' in E. injection E as <-. exists k', X'. split_and!; try done. by rewrite P4.
Qed.

Lemma del_turn_right t cp p W k X x r :
  rep t (plug (FR cp p W :: k) X) -> X <> E -> red X = false -> good (plug (FR cp p W :: k) X) -> red W = false ->
  inorder (plug (FR cp p W :: k) X) = inorder x -> fixup_del_right t p (rt W) = Ok r -> del_turn x r.
Proof.
  intros H HX Hred Hg Hw Hi E. pose proof (good_sub k _ Hg) as (_ & _ & HWok & _)%redok_T.
  destruct (black_shape W HWok Hw) as [->|(wl & w & wr & ->)].
  - cbn [rt] in E. by rewrite (proj2 (fixup_del_null t p (rep_null _ _ H))) in E.
  - destruct (fixup_del_right_at t cp p wl w wr k X H HX Hred Hg) as ([x' t'] & E' & k' & X' & P1 & P2 & P3 & P4 & P5).
    cbn [rt] in E. rewrite E' in E. injection E as <-. exists k', X'. split_and!; try done. by rewrite P4.
Qed.

Lemma fixup_del_step_left t cp p W k X r :
  rep t (plug (FL cp p W :: k) X) -> X <> E -> red X = false -> good (plug (FL cp p W :: k) X) ->
  fixup_del_step t (rt X) = Ok r -> del_turn (plug (FL cp p W :: k) X) r.
Proof.
  intros H HX Hred Hg. unfold fixup_del_step. rewrite (proj2 (Z.eqb_neq _ 0) (rt_nz _ _ _ H HX)).
  assert (fld t (rt X) n_parent = Ok p) as -> by (destruct X; [done|]; by at_node H). cbn [res_bind].
  assert (rep t (plug k (T cp X p W))) as Hp by exact H. assert (rep t (plug (FR cp p X :: k) W)) as Hw by exact H.
  at_node Hp. rewrite Z.eqb_refl. at_node Hp. rewrite (isred_rt _ _ _ Hw). cbn [res_bind]. destruct (red W) eqn:Ew.
  2:{ cbn [res_bind fst snd]. by apply del_turn_left with cp k X. }
  destruct W as [|cw wl w wr]; [done|]. cbn [rt]. paint Hw BLACK.
  assert (rep t0 (plug k (T cp X p (T BLACK wl w wr)))) as Hp0 by exact Hc. paint Hp0 RED.
  destruct (rotate_left_at _ _ _ _ _ _ _ _ _ Hc0) as (t2 & -> & H2). cbn [res_bind snd fst].
  assert (rep t2 (plug (FL BLACK w wr :: k) (T RED X p wl))) as Hp2 by exact H2. at_node Hp2.
  pose proof (good_sub k (T cp X p (T cw wl w wr)) Hg) as (_ & _ & HXok & (_ & Hcw & Hlok & Hrok)%redok_T)%redok_T.
  cbn in Ew. bool_facts. subst cw. destruct (Hcw eq_refl) as [Hwl Hwr].
  apply (del_turn_left t2 RED p wl (FL BLACK w wr :: k) X); [exact Hp2|done|done| |done|].
  - apply (good_swap k (T cp X p (T RED wl w wr)) (T BLACK (T RED X p wl) w wr) Hg); [|done].
    rewrite !redok_T. split_and!; auto; discriminate.
  - cbn [plug plug1]. rewrite !inorder_plug. f_equal. norm_app.
Qed.

Lemma fixup_del_step_right t cp p W k X r :
  rep t (plug (FR cp p W :: k) X) -> X <> E -> red X = false -> good (plug (FR cp p W :: k) X) ->
  fixup_del_step t (rt X) = Ok r -> del_turn (plug (FR cp p W :: k) X) r.
Proof.
  intros H HX Hred Hg. unfold fixup_del_step. rewrite (proj2 (Z.eqb_neq _ 0) (rt_nz _ _ _ H HX)).
  assert (fld t (rt X) n_parent = Ok p) as -> by (destruct X; [done|]; by at_node H). cbn [res_bind].
  assert (rep t (plug k (T cp W p X))) as Hp by exact H. assert (rep t (plug (FL cp p X :: k) W)) as Hw by exact H.
  at_node Hp. rewrite (proj2 (Z.eqb_neq (rt X) (rt W)))
    by (apply not_eq_sym, (children_ne _ _ _ _ _ _ Hp); by right).
  cbn [res_bind]. rewrite (isred_rt _ _ _ Hw). cbn [res_bind]. destruct (red W) eqn:Ew.
  2:{ cbn [res_bind fst snd]. by apply del_turn_right with cp k X. }
  destruct W as [|cw wl w wr]; [done|]. cbn [rt]. paint Hw BLACK.
  assert (rep t0 (plug k (T cp (T BLACK wl w wr) p X))) as Hp0 by exact Hc. paint Hp0 RED.
  destruct (rotate_right_at _ _ _ _ _ _ _ _ _ Hc0) as (t2 & -> & H2). cbn [res_bind snd fst].
  assert (rep t2 (plug (FR BLACK w wl :: k) (T RED wr p X))) as Hp2 by exact H2. at_node Hp2.
  pose proof (good_sub k (T cp (T cw wl w wr) p X) Hg) as (_ & _ & (_ & Hcw & Hlok & Hrok)%redok_T & HXok)%redok_T.
  cbn in Ew. bool_facts. subst cw. destruct (Hcw eq_refl) as [Hwl Hwr].
  apply (del_turn_right t2 RED p wr (FR BLACK w wl :: k) X); [exact Hp2|done|done| |done|].
  - apply (good_swap k (T cp (T RED wl w wr) p X) (T BLACK wl w (T RED wr p X)) Hg); [|done].
    rewrite !redok_T. split_and!; auto; discriminate.
  - cbn [plug plug1]. rewrite !inorder_plug. f_equal. norm_app.
Qed.

Lemma fixup_del_step_at t f k X r :
  rep t (plug (f :: k) X) -> X <> E -> red X = false -> good (plug (f :: k) X) ->
  fixup_del_step t (rt X) = Ok r -> del_turn (plug (f :: k) X) r.
Proof. destruct f; [apply fixup_del_step_left|apply fixup_del_step_right]. Qed.

Lemma fixup_del_loop_at fuel t k X t' :
  rep t (plug k X) -> X <> E -> good (plug k (blacken X)) -> fixup_del_loop fuel t (rt X) = Ok t' ->
  exists y, rep t' y /\ inorder y = inorder (plug k X) /\ good y.
Proof.
  revert t k X. induction fuel as [|fuel IH]; intros t k X H HX Hg; cbn [fixup_del_loop]; [done|].
  rewrite (isblack_rt _ _ _ H). cbn [res_bind].
  assert (total (if rt X =? 0 then Ok t else set_color t (rt X) BLACK) (fun t' => rep t' (plug k (blacken X)))) as Hstop.
  { rewrite (proj2 (Z.eqb_neq _ 0) (rt_nz _ _ _ H HX)). destruct X as [|c l a r]; [done|].
    destruct (set_color_at t k c l a r BLACK H) as (t0 & E0 & H0 & _). exists t0. by split. }
  destruct (negb (rt X =? root t) && blk X) eqn:Eg.
  - bool_facts. destruct k as [|f k]; [by rewrite (rep_root _ _ H) in *|].
    assert (blacken X = X /\ red X = false) as [Eb Hred].
    { destruct X as [|c l a r]; [done|]. cbn in *. bool_facts. by subst c. }
    rewrite Eb in Hg. destruct (fixup_del_step t (rt X)) as [r|] eqn:Es; cbn [res_bind]; [|done].
    destruct (fixup_del_step_at t f k X r H HX Hred Hg Es) as (k' & X' & -> & HX' & H' & Hi & Hg').
    intros E. destruct (IH _ _ _ H' HX' Hg' E) as (y & Hy & Hiy & Hgy). exists y. split_and!; try done. congruence.
  - intros E. destruct Hstop as (t0 & E0 & H0). rewrite E0 in E. injection E as <-.
    exists (plug k (blacken X)). split_and!; try done; [by rewrite !inorder_plug, inorder_blacken|apply Hg..].
Qed.

Lemma redok_sub k x : redok (plug k x) = true -> redok x = true.
Proof.
  revert x. induction k as [|f k IH]; intros x H; [done|]. cbn in H. apply IH in H.
  destruct f; cbn [plug1] in H; by apply redok_T in H as (_ & _ & ? & ?).
Qed.

Lemma redok_swap k x y :
  redok (plug k x) = true -> redok y = true -> (red y = true -> red x = true) ->
  redok (plug k y) = true /\ (red (plug k y) = true -> red (plug k x) = true).
Proof.
  revert x y. induction k as [|f k IH]; intros x y H Hy Hc; [done|]. cbn [plug] in *. apply IH; [done| |by destruct f].
  pose proof (redok_sub _ _ H) as Hx.
  destruct f; cbn [plug1] in *; rewrite redok_T in *; destruct Hx as (H1 & H2 & H3 & H4); split_and!; try done;
    intros E; destruct (H2 E); split; try done; destruct (red y); try done; rewrite Hc in *; done.
Qed.

Lemma unlinked_good k c l z r kx X Y yc :
  good (plug k (T c l z r)) -> unlinked k c l z r kx X yc -> redok Y = true -> red Y = false ->
  good (plug kx Y).
Proof.
  intros Hg Hu HY HYb.
  destruct Hu as [z r|z l Hl|z l ky cy y X Hl Hky].
  - apply (good_swap k _ _ Hg); [done|congruence].
  - apply (good_swap k _ _ Hg); [done|congruence].
  - rewrite plug_app. cbn [plug plug1]. apply (good_swap k _ _ Hg); [|done].
    pose proof (good_sub _ _ Hg) as (G1 & G2 & G3 & G4)%redok_T.
    destruct (redok_swap ky (T cy E y X) Y G4 HY) as [S1 S2]; [congruence|].
    rewrite redok_T. split_and!; try done. intros E. destruct (G2 E) as [? Hr]. split; [done|].
    destruct (red (plug ky Y)) eqn:Er; [|done]. rewrite S2 in Hr; done.
Qed.

Lemma unlinked_old k c l z r kx X yc :
  good (plug k (T c l z r)) -> unlinked k c l z r kx X yc ->
  (yc = RED \/ yc = BLACK) /\ redok X = true /\ (yc = RED -> red X = false) /\
  (forall N, bal N (plug k (T c l z r)) -> yc = BLACK -> X <> E -> red X = true).
Proof.
  intros Hg Hu. pose proof (good_sub _ _ Hg) as (G1 & G2 & G3 & G4)%redok_T.
  assert (forall n X, bal n X -> n = O -> redok X = true -> X <> E -> red X = true) as Hb.
  { intros n [|cX Xl a Xr] Hb Hn HX Hne; [done|]. cbn in Hb. destruct Hb as (m & _ & _ & Hm). rewrite redok_T in HX.
    cbn. destruct HX as [[->| ->] _]; [done|]. cbn in Hm. lia. }
  destruct Hu as [z r|z l Hl|z l ky cy y X Hl Hky].
  - split_and!; [done|done|intros E; by apply G2|]. intros N (n & Hn & _)%bal_plug _ Hne.
    destruct Hn as (m & H1 & H2 & _). cbn in H1. subst m. by eapply Hb.
  - split_and!; [done|done|intros E; by apply G2|]. intros N (n & Hn & _)%bal_plug _ Hne.
    destruct Hn as (m & H1 & H2 & _). cbn in H2. subst m. by eapply Hb.
  - pose proof (redok_sub _ _ G4) as (K1 & K2 & K3 & K4)%redok_T.
    split_and!; [done|done|intros E; by apply K2|]. intros N (n & Hn & _)%bal_plug _ Hne.
    destruct Hn as (m & _ & H2 & _). apply bal_plug in H2 as (m2 & (m3 & H3 & H4 & _) & _). cbn in H3. subst m3. by eapply Hb.
Qed.

(** Deletion: whenever it returns the other nodes keep their order, the colour
    rule and the black root; on a balanced tree it does return. *)
Lemma rbtree_delete_at t k c l z r :
  rep t (plug k (T c l z r)) -> good (plug k (T c l z r)) ->
  (forall t', rbtree_delete t z = Ok t' ->
     exists y, rep t' y /\ inorder y = before k ++ inorder l ++ inorder r ++ after k /\ good y) /\
  (forall N, bal N (plug k (T c l z r)) -> exists t', rbtree_delete t z = Ok t').
Proof.
  intros H Hg. destruct (unlink_at t k c l z r H) as (t1 & kx & X & yc & E1 & H1 & Hu).
  destruct (unlinked_old _ _ _ _ _ _ _ _ Hg Hu) as (O1 & O2 & O3 & O4).
  pose proof (unlinked_inorder _ _ _ _ _ _ _ _ Hu) as Hi.
  unfold rbtree_delete. rewrite E1. cbn [res_bind]. destruct ((yc =? BLACK) && negb (rt X =? 0)) eqn:Eb.
  - bool_facts. subst yc. assert (X <> E) as HX by (intros ->; done).
    destruct (blacken_ok X O2) as [B1 B2].
    assert (good (plug kx (blacken X))) as Hgb by (apply (unlinked_good _ _ _ _ _ _ _ _ _ Hg Hu); done).
    split.
    + intros t' E. destruct (fixup_del_loop_at _ _ _ _ _ H1 HX Hgb E) as (y & Hy & Hiy & Hgy).
      exists y. split_and!; [done|congruence|apply Hgy..].
    + intros N Hb. pose proof (O4 N Hb eq_refl HX) as Hred. unfold fixup_del. cbn [fixup_del_loop].
      rewrite (isblack_rt _ _ _ H1). cbn [res_bind]. rewrite (blk_red X O2), Hred, andb_false_r.
      rewrite (proj2 (Z.eqb_neq _ 0)) by (by eapply rt_nz). destruct X as [|cX Xl x Xr]; [done|].
      destruct (set_color_at _ _ _ _ _ _ BLACK H1) as (t2 & E2 & _). by exists t2.
  - split; [|intros; by eexists]. intros t' [= <-]. exists (plug kx X). split; [done|]. split; [done|].
    apply (unlinked_good _ _ _ _ _ _ _ _ _ Hg Hu); [done|].
    destruct O1 as [->| ->]; [by apply O3|]. destruct X; [done|]. cbn in Eb.
    apply negb_false_iff, Z.eqb_eq in Eb. exfalso. by apply (rt_nz _ _ _ H1).
Qed.

(** ** Traversal *)

Fixpoint depths (t : tree) (d : Z) : list (Z * Z) :=
  match t with E => [] | T _ l a r => depths l (d + 1) ++ (d, a) :: depths r (d + 1) end.

Lemma rbtree_walk_at fuel t k x d :
  rep t (plug k x) -> (length (inorder x) < fuel)%nat ->
  rbtree_walk fuel t (rt x) RB_INORDER d = Ok (depths x d).
Proof.
  revert fuel k d. induction x as [|c l IHl a r IHr]; intros fuel k d H Hf; (destruct fuel as [|fuel]; [cbn in Hf; lia|]); [reflexivity|].
  cbn [rbtree_walk]. rewrite (proj2 (Z.eqb_neq _ 0) (rt_nz _ _ _ H ltac:(discriminate))). cbn [rt].
  cbn in Hf. rewrite length_app in Hf. cbn in Hf. do 2 at_node H.
  rewrite (IHl fuel (FL c a r :: k)), (IHr fuel (FR c a l :: k)) by (exact H || lia). cbn [res_bind].
  repeat case_decide; try done. cbn [app depths]. by rewrite app_nil_r.
Qed.

(** The traversal visits every node once, in the order of the tree. *)
Lemma rbtree_foreach_at t x : rep t x -> rbtree_foreach t RB_INORDER = Ok (depths x 0).
Proof.
  intros H. unfold rbtree_foreach. rewrite (rep_root _ _ H). apply (rbtree_walk_at _ t [] x 0 H).
  pose proof (rep_size _ _ H). lia.
Qed.

Lemma depths_inorder x d : (depths x d).*2 = inorder x.
Proof. revert d. induction x as [|c l IHl a r IHr]; intros d; cbn; [done|]. by rewrite fmap_app, IHl; cbn; rewrite IHr. Qed.

(** C9: the tree is an ordered set of nodes under both operations.  Linking a node into a free
    slot and fixing the colours up always succeeds and puts the node at the place of that slot
    in the order of the tree; deleting a node, whenever it returns, takes exactly that node out
    of the order.  Both keep the pointers consistent, the root black and no red node below a
    red one; insertion keeps the black heights equal, and deletion from a tree with equal
    heights always returns. *)
Theorem rbtree_ordered_set t x :
  rep t x -> good x ->
  (forall k n nd, x = plug k E -> nodes t !! n = Some nd -> (n ∉ inorder x) -> n <> 0 ->
     total (let! t := rbtree_link t n (slot_of k) (par k) in rbtree_fixup t n) (fun t' =>
       exists y, rep t' y /\ good y /\ inorder y = before k ++ n :: after k /\
         (forall h, bal h x -> exists h', bal h' y) /\ rbtree_foreach t' RB_INORDER = Ok (depths y 0))) /\
  (forall k c l z r, x = plug k (T c l z r) ->
     (forall t', rbtree_delete t z = Ok t' ->
        exists y, rep t' y /\ good y /\ inorder y = before k ++ inorder l ++ inorder r ++ after k) /\
     (forall h, bal h x -> exists t', rbtree_delete t z = Ok t')).
Proof.
  intros H Hg. split.
  - intros k n nd -> Hn Hni Hn0. destruct Hg as [G1 G2].
    destruct (rbtree_insert_at t k n nd H G1 G2 Hn Hni Hn0) as (t' & E & y & Hy & Hi & R1 & R2 & Hb).
    exists t'. split; [done|]. exists y. split_and!; try done. by apply rbtree_foreach_at.
  - intros k c l z r ->. destruct (rbtree_delete_at t k c l z r H Hg) as [D1 D2]. split; [|done].
    intros t' E. destruct (D1 t' E) as (y & Hy & Hi & Gy). by exists y.
Qed.

(** A black root 20 with a red left child 10, and a node 30 that is not linked yet. *)
Definition demo_rb : rbtree :=
  RbTree 20 {[10 := RbNode RED 0 0 20; 20 := RbNode BLACK 10 0 0; 30 := RbNode RED 0 0 0]}.

Lemma rbtree_ordered_set_witness :
  exists t' y, (let! t := rbtree_link demo_rb 30 (AtRight 20) 20 in rbtree_fixup t 30) = Ok t' /\
    rep t' y /\ inorder y = [10; 20; 30].
Proof.
  set (x := plug [FR BLACK 20 (T RED E 10 E)] E).
  destruct (proj1 (rbtree_ordered_set demo_rb x ltac:(split; [reflexivity|repeat constructor|
      cbn; repeat (constructor; [set_solver|]); constructor|cbn; set_solver|reflexivity]) ltac:(by split))
    [FR BLACK 20 (T RED E 10 E)] 30 (RbNode RED 0 0 0) eq_refl eq_refl ltac:(cbn; set_solver) ltac:(done))
    as (t' & E & y & Hy & _ & Hi & _).
  exists t', y. split; [exact E|]. split; [exact Hy|exact Hi].
Defined.
