(* ===== verification/Vma.v ===== *)
(** * Address spaces: [kernel/mm/mman/vma.c], [mman.c], [anon.c] and [fitter.c]

    An address space is a list of areas in a ring and a red-black tree of the
    same areas, keyed by their start.  The ring is the sequence of its nodes
    (file [Dlist] shows that the intrusive list behaves as one); the tree is the
    pointer structure of file [Rbtree].  The pages behind an area are the
    business of another component: [munmap] calls it through the class
    [PageUnmap]. *)
From Stdlib Require Import ZArith Lia List Bool Sorted.
From stdpp Require Import base list gmap sorting.
From S2P Require Import Prelude Rbtree.

#[local] Open Scope Z_scope.

Definition PROT_WRITE : Z := 2.
Definition PROT_EXEC : Z := 4.
Definition MAP_SHARED : Z := 0x1.
Definition MAP_TYPE : Z := 0xf.
Definition MAP_FIXED : Z := 0x10.
Definition MAP_ANON : Z := 0x20.
Definition MAPL_FILE : Z := 1.

(** [vm_area_t] without its list and tree links; [ppgs] names its page records. *)
Record vm_area := VmArea {
  a_s : Z; a_t : Z;
  a_flgs : Z; a_prot : Z; a_label : Z;
  a_foff : Z; a_node : Z;
  a_ppgs : Z
}.

#[export] Instance eta_vm_area : Eta vm_area := fun a =>
  VmArea (a_s a) (a_t a) (a_flgs a) (a_prot a) (a_label a) (a_foff a) (a_node a) (a_ppgs a).

(** [vm_space_t], the heap its areas live in and the next address [malloc]
    hands out. *)
Record vm_space := VmSpace { sp_list : list Z; sp_tree : rbtree; areas : gmap Z vm_area; heap_next : Z }.

#[export] Instance eta_vm_space : Eta vm_space := fun s =>
  VmSpace (sp_list s) (sp_tree s) (areas s) (heap_next s).

Definition area (s : vm_space) (p : Z) : res vm_area := deref (areas s !! p).

Definition set_area (s : vm_space) (p : Z) (f : vm_area -> vm_area) : res vm_space :=
  let! a := area s p in Ok (s <| areas ::= <[p := f a]> |>).

(** ** Search *)

(** The last node on the path of the search at which [keep] holds; the search
    goes left there and right elsewhere. *)
Fixpoint bound_loop (fuel : nat) (s : vm_space) (keep : vm_area -> bool) (p : Z) (c : option Z) : res (option Z) :=
  match fuel with
  | O => Fault OutOfFuel
  | S fuel =>
      if p =? 0 then Ok c
      else
        let! a := area s p in
        if keep a then
          let! l := fld (sp_tree s) p n_left in
          bound_loop fuel s keep l (Some p)
        else
          let! r := fld (sp_tree s) p n_right in
          bound_loop fuel s keep r c
  end.

(** No path is longer than the number of nodes. *)
Definition path_fuel (s : vm_space) : nat := S (size (nodes (sp_tree s))).

Definition vmm_sp_lowerbound (s : vm_space) (addr : Z) : res (option Z) :=
  bound_loop (path_fuel s) s (fun a => addr <=? a_s a) (root (sp_tree s)) None.

Definition vmm_sp_upperbound (s : vm_space) (addr : Z) : res (option Z) :=
  bound_loop (path_fuel s) s (fun a => addr <? a_s a) (root (sp_tree s)) None.

Fixpoint containing_loop (fuel : nat) (s : vm_space) (addr p : Z) : res (option Z) :=
  match fuel with
  | O => Fault OutOfFuel
  | S fuel =>
      if p =? 0 then Ok None
      else
        let! a := area s p in
        if (a_s a <=? addr) && (addr <? a_t a) then Ok (Some p)
        else if addr <? a_s a then
          let! l := fld (sp_tree s) p n_left in
          containing_loop fuel s addr l
        else
          let! r := fld (sp_tree s) p n_right in
          containing_loop fuel s addr r
  end.

Definition vmm_sp_containing (s : vm_space) (addr : Z) : res (option Z) :=
  containing_loop (path_fuel s) s addr (root (sp_tree s)).

(** ** Registration *)

(** [list_insert_before] in the ring: before the node [p], or at the end before
    the head of the list. *)
Fixpoint insert_before (l : list Z) (p : option Z) (n : Z) : list Z :=
  match l, p with
  | [], _ => [n]
  | x :: l, Some y => if x =? y then n :: x :: l else x :: insert_before l p n
  | x :: l, None => x :: insert_before l p n
  end.

(** The descent of [vmm_sp_regst] to the pointer the new node goes to; there is
    no branch for equal starts, and the loop stays where it is. *)
Fixpoint descend (fuel : nat) (s : vm_space) (key : Z) (pp : slot) (p : Z) : res (slot * Z) :=
  match fuel with
  | O => Fault OutOfFuel
  | S fuel =>
      let! cur := slot_get (sp_tree s) pp in
      if cur =? 0 then Ok (pp, p)
      else
        let! a := area s cur in
        if a_s a <? key then descend fuel s key (AtRight cur) cur
        else if key <? a_s a then descend fuel s key (AtLeft cur) cur
        else descend fuel s key pp cur
  end.

Definition regst_with (fuel : nat) (s : vm_space) (vma : Z) : res vm_space :=
  let! v := area s vma in
  let! prev := vmm_sp_upperbound s (a_s v) in
  let s := s <| sp_list ::= fun l => insert_before l prev vma |> in
  let! r := descend fuel s (a_s v) AtRoot 0 in
  let '(pp, p) := r in
  let! t := rbtree_link (sp_tree s) vma pp p in
  let! t := rbtree_fixup t vma in
  Ok (s <| sp_tree := t |>).

Definition vmm_sp_regst (s : vm_space) (vma : Z) : res vm_space := regst_with (path_fuel s) s vma.

Definition vmm_sp_unreg (s : vm_space) (vma : Z) : res vm_space :=
  let! t := rbtree_delete (sp_tree s) vma in
  Ok (s <| sp_tree := t |> <| sp_list ::= filter (fun x => x <> vma) |>).

(** The allocation of [vmm_new_vma]: the structure gets the given fields; its
    tree links are written when it is registered. *)
Definition alloc_vma (s : vm_space) (a : vm_area) : Z * vm_space :=
  let p := heap_next s in
  (p, s <| areas ::= <[p := a]> |> <| sp_tree ::= fun t => t <| nodes ::= <[p := RbNode 0 0 0 0]> |> |>
        <| heap_next := p + 1 |>).

(** ** [munmap] *)

(** What the owner of the pages does for one page of an area: [unmap]. *)
Class PageUnmap (P : Type) := page_unmap : P -> vm_area -> Z -> res P.

(** The page records of a copy of an area: [vmm_ppg_new]. *)
Class PageSplit (P : Type) := page_split : P -> Z -> res (Z * P).

Section Munmap.
Context {P : Type} `{!PageUnmap P} `{!PageSplit P}.

Definition covered (a : vm_area) (s t : Z) : bool := MAX (a_s a) s <? MIN (a_t a) t.

Fixpoint unmap_pages (n : nat) (pg : P) (a : vm_area) (cur : Z) : res P :=
  match n with
  | O => Ok pg
  | S n =>
      let! pg := page_unmap pg a cur in
      unmap_pages n pg a (cur + PAGE_SIZ)
  end.

(** The turns of [for (cur = s; cur < t; cur += PAGE_SIZE)]. *)
Definition page_count (s t : Z) : nat := Z.to_nat ((t - s + PAGE_SIZ - 1) / PAGE_SIZ).

(** The neighbours of a node in the ring; [None] is the head. *)
Fixpoint next_of (l : list Z) (p : Z) : option Z :=
  match l with
  | [] => None
  | x :: l => if x =? p then head l else next_of l p
  end.

Definition prev_of (l : list Z) (p : option Z) : option Z :=
  match p with
  | None => last l
  | Some p => next_of (reverse l) p
  end.

(** The body of the loop of [munmap] for the area [p]: the new state and the
    node the ring continues with. *)
Definition munmap_one (s : vm_space) (pg : P) (p ask_start ask_end : Z) : res (vm_space * P * option Z) :=
  let! a := area s p in
  let cov_start := MAX (a_s a) ask_start in
  let cov_end := MIN (a_t a) ask_end in
  let! pg := unmap_pages (page_count cov_start cov_end) pg a cov_start in
  if (a_s a <? ask_start) && (ask_end <? a_t a) then
    let! r := page_split pg (a_ppgs a) in
    let '(pp, pg) := r in
    let '(na, s) := alloc_vma s (a <| a_ppgs := pp |>) in
    let! s := set_area s p (fun a => a <| a_t := ask_start |>) in
    let! s := set_area s na (fun a => a <| a_s := ask_end |>) in
    let! s := vmm_sp_regst s na in
    Ok (s, pg, next_of (sp_list s) p)
  else if (cov_start =? a_s a) && (a_t a =? cov_end) then
    let nxt := next_of (sp_list s) p in
    let! s := vmm_sp_unreg s p in
    Ok (s, pg, nxt)
  else if a_s a =? cov_start then
    let! s := set_area s p (fun a => a <| a_s := cov_end |>) in
    Ok (s, pg, next_of (sp_list s) p)
  else if a_t a =? cov_end then
    let! s := set_area s p (fun a => a <| a_t := cov_start |>) in
    Ok (s, pg, next_of (sp_list s) p)
  else Ok (s, pg, next_of (sp_list s) p).

Fixpoint munmap_loop (fuel : nat) (s : vm_space) (pg : P) (ptr : option Z) (ask_start ask_end : Z) : res (vm_space * P) :=
  match fuel with
  | O => Fault OutOfFuel
  | S fuel =>
      match ptr with
      | None => Ok (s, pg)
      | Some p =>
          let! a := area s p in
          if negb (covered a ask_start ask_end) then Ok (s, pg)
          else
            let! r := munmap_one s pg p ask_start ask_end in
            let '(s, pg, nxt) := r in
            munmap_loop fuel s pg nxt ask_start ask_end
      end
  end.

(** The first area [munmap] looks at.  [junk] is what lies in memory where the
    head of the list would have its [s] and [t] if it were part of an area: the
    code reads it as one when no area starts at or below the address asked for. *)
Definition munmap_start (s : vm_space) (junk : vm_area) (ask_start ask_end : Z) : res (option Z) :=
  let! up := vmm_sp_upperbound s ask_start in
  let cand := prev_of (sp_list s) up in
  let! a := (match cand with Some p => area s p | None => Ok junk end) in
  Ok (if covered a ask_start ask_end then cand
      else match cand with Some p => next_of (sp_list s) p | None => head (sp_list s) end).

Definition munmap (s : vm_space) (pg : P) (junk : vm_area) (addr len : Z) : res (Z * vm_space * P) :=
  let ask_start := addr in
  let ask_end := u64 (ask_start + len) in
  if negb (Z.land (Z.lor ask_start ask_end) PAGE_MASK =? 0) then Ok (- EINVAL, s, pg)
  else if ask_end <=? ask_start then Ok (- EINVAL, s, pg)
  else
    let! start := munmap_start s junk ask_start ask_end in
    let! r := munmap_loop (S (S (length (sp_list s)))) s pg start ask_start ask_end in
    Ok (0, fst r, snd r).

(** [vmm_new_space]: the areas of [old], copied in the order of its ring. *)
Fixpoint copy_areas (old s : vm_space) (pg : P) (ps : list Z) : res (vm_space * P) :=
  match ps with
  | [] => Ok (s, pg)
  | p :: ps =>
      let! o := area old p in
      let! r := page_split pg (a_ppgs o) in
      let '(pp, pg) := r in
      let '(a, s) := alloc_vma s (o <| a_ppgs := pp |>) in
      let! s := vmm_sp_regst s a in
      copy_areas old s pg ps
  end.

Definition vmm_new_space (old : option vm_space) (next : Z) (pg : P) : res (vm_space * P) :=
  let s := VmSpace [] RBTREE_INIT ∅ next in
  match old with
  | None => Ok (s, pg)
  | Some old => copy_areas old s pg (sp_list old)
  end.

End Munmap.

(** ** [mmap] *)

(** [mmap_anon] and [vfs_generic_mmap] up to the population of the pages: the
    area is registered under its start. *)
Definition map_area (s : vm_space) (a : vm_area) : res (Z * vm_space) :=
  let '(p, s) := alloc_vma s a in
  let! s := vmm_sp_regst s p in
  Ok (a_s a, s).

(** [vmm_fitaddr]: the bump pointer of the task, one page left out. *)
Definition vmm_fitaddr (mmap_ num : Z) : Z * Z := (mmap_, u64 (mmap_ + (num + 1) * PAGE_SIZ)).

(** ** Well-formed spaces *)

(** Areas in the order of their addresses, without overlaps. *)
Definition before_area (u v : Z * vm_area) : Prop := a_t u.2 <= a_s v.2.

Record layout (rs : list (Z * vm_area)) : Prop := {
  lay_sorted : StronglySorted before_area rs;
  lay_size : Forall (fun u => 0 <= a_s u.2 < a_t u.2) rs
}.

(** The ring and the tree hold the areas [rs], in this order. *)
Record wf (s : vm_space) (x : tree) (rs : list (Z * vm_area)) : Prop := {
  wf_rep : rep (sp_tree s) x;
  wf_good : good x;
  wf_inorder : inorder x = rs.*1;
  wf_list : sp_list s = rs.*1;
  wf_areas : Forall (fun u => areas s !! u.1 = Some u.2) rs;
  wf_layout : layout rs;
  wf_fresh : Forall (fun u => u.1 < heap_next s) rs;
  wf_next : 0 < heap_next s
}.

(** ** Search *)

(** A test of an area by its address. *)
Definition test (s : vm_space) (keep : vm_area -> bool) (p : Z) : bool :=
  match areas s !! p with Some a => keep a | None => false end.

Definition known (s : vm_space) (x : tree) : Prop := Forall (fun p => is_Some (areas s !! p)) (inorder x).

Definition upward (f : Z -> bool) (l : list Z) : Prop :=
  forall l1 p l2, l = l1 ++ p :: l2 -> f p = true -> Forall (fun q => f q = true) l2.

Definition pick (f : Z -> bool) (l : list Z) (c : option Z) : option Z :=
  match find f l with Some p => Some p | None => c end.

Lemma find_app f (l1 l2 : list Z) : find f (l1 ++ l2) = match find f l1 with Some p => Some p | None => find f l2 end.
Proof. induction l1 as [|p l1 IH]; cbn; [done|]. by destruct (f p). Qed.

Lemma find_none_all f (l : list Z) : Forall (fun q => f q = false) l -> find f l = None.
Proof. induction 1 as [|p l Hp _ IH]; cbn; [done|]. by rewrite Hp. Qed.

Lemma upward_down f l1 p l2 : upward f (l1 ++ p :: l2) -> f p = false -> Forall (fun q => f q = false) l1.
Proof.
  intros Hu Hp. apply Forall_forall. intros q Hq. destruct (f q) eqn:E; [|done].
  apply list_elem_of_split in Hq as (la & lb & ->). rewrite <- app_assoc in Hu. cbn in Hu.
  pose proof (Hu la q (lb ++ p :: l2) eq_refl E) as Hf. apply Forall_app in Hf as [_ Hf].
  apply Forall_cons in Hf as [Hf _]. congruence.
Qed.

Lemma upward_app f l1 l2 : upward f (l1 ++ l2) -> upward f l1 /\ upward f l2.
Proof.
  intros Hu. split.
  - intros la p lb -> Hp. specialize (Hu la p (lb ++ l2)). rewrite <- app_assoc in Hu. specialize (Hu eq_refl Hp).
    by apply Forall_app in Hu as [? _].
  - intros la p lb -> Hp. apply (Hu (l1 ++ la) p lb); [by rewrite <- app_assoc|done].
Qed.

Lemma upward_cons f p l : upward f (p :: l) -> upward f l.
Proof. intros Hu. by apply (upward_app f [p] l) in Hu as [_ ?]. Qed.

Lemma bound_loop_at fuel s keep k x c :
  rep (sp_tree s) (plug k x) -> known s x -> upward (test s keep) (inorder x) -> (length (inorder x) < fuel)%nat ->
  bound_loop fuel s keep (rt x) c = Ok (pick (test s keep) (inorder x) c).
Proof.
  revert fuel k c. induction x as [|co l IHl p r IHr]; intros fuel k c H Hk Hu Hf;
    (destruct fuel as [|fuel]; [cbn in Hf; lia|]); [done|].
  cbn [bound_loop]. rewrite (proj2 (Z.eqb_neq _ 0) (rt_nz _ _ _ H ltac:(discriminate))). cbn [rt].
  unfold known in Hk. cbn in Hk, Hu, Hf. rewrite length_app in Hf. cbn in Hf.
  apply Forall_app in Hk as [Hkl [[a Ha] Hkr]%Forall_cons].
  unfold area. rewrite Ha. cbn [deref res_bind]. unfold pick. cbn [inorder]. rewrite find_app.
  assert (test s keep p = keep a) as Et by (unfold test; by rewrite Ha).
  pose proof (upward_app _ _ _ Hu) as [Hul Hur].
  destruct (keep a) eqn:Ek; cbn [find]; rewrite Et.
  - at_node H. rewrite (IHl fuel (FL co p r :: k)); [|exact H|done|done|lia]. unfold pick. by destruct (find _ _).
  - at_node H. rewrite (IHr fuel (FR co p l :: k)); [|exact H|done|by eapply upward_cons|lia].
    rewrite (find_none_all _ (inorder l)) by (by eapply upward_down). done.
Qed.

Lemma test_eq s keep rs u : Forall (fun u => areas s !! u.1 = Some u.2) rs -> u ∈ rs -> test s keep u.1 = keep u.2.
Proof. intros H Hu. rewrite Forall_forall in H. unfold test. by rewrite (H u Hu). Qed.

Lemma find_fst s keep rs :
  Forall (fun u => areas s !! u.1 = Some u.2) rs ->
  find (test s keep) rs.*1 = fst <$> find (fun u => keep u.2) rs.
Proof.
  induction 1 as [|u rs Hu _ IH]; [done|]. cbn. unfold test at 1. rewrite Hu. by destruct (keep u.2).
Qed.

Lemma wf_known s x rs : wf s x rs -> known s x.
Proof.
  intros H. unfold known. rewrite (wf_inorder _ _ _ H). pose proof (wf_areas _ _ _ H) as Ha.
  apply Forall_fmap. eapply Forall_impl; [exact Ha|]. intros u Hu. by exists u.2.
Qed.

(** Starts grow along a layout. *)
Lemma layout_starts rs l1 u l2 v : layout rs -> rs = l1 ++ u :: l2 -> v ∈ l2 -> a_t u.2 <= a_s v.2 /\ a_s u.2 < a_s v.2.
Proof.
  intros [Hs Hz] -> Hv. rewrite Forall_app, Forall_cons in Hz. destruct Hz as (_ & Hu & _).
  pose proof (StronglySorted_app_1_elem_of before_area (l1 ++ [u]) l2 u v) as H. rewrite <- app_assoc in H.
  specialize (H Hs ltac:(set_solver) Hv). unfold before_area in H. lia.
Qed.

Lemma wf_upward s x rs keep :
  wf s x rs -> (forall a b, a_s a < a_s b -> keep a = true -> keep b = true) -> upward (test s keep) rs.*1.
Proof.
  intros H Hk l1 p l2 E Hp. apply fmap_app_inv in E as (r1 & r' & -> & E & Ers).
  destruct r' as [|u r2]; [done|]. cbn in E. injection E as -> ->.
  rewrite (test_eq s keep rs u (wf_areas _ _ _ H)) in Hp by (rewrite Ers; set_solver).
  apply Forall_fmap, Forall_forall. intros v Hv. cbn.
  rewrite (test_eq s keep rs v (wf_areas _ _ _ H)) by (rewrite Ers; set_solver).
  eapply Hk; [|exact Hp]. by eapply (layout_starts rs r1 u r2 v (wf_layout _ _ _ H)).
Qed.

Lemma wf_length s x rs : wf s x rs -> (length (inorder x) < path_fuel s)%nat.
Proof. intros H. unfold path_fuel. pose proof (rep_size _ _ (wf_rep _ _ _ H)). lia. Qed.

(** The first area that starts above an address, and the first that does not start below it. *)
Lemma upperbound_at s x rs addr :
  wf s x rs -> vmm_sp_upperbound s addr = Ok (fst <$> find (fun u => addr <? a_s u.2) rs).
Proof.
  intros H. unfold vmm_sp_upperbound. rewrite (rep_root _ _ (wf_rep _ _ _ H)).
  rewrite (bound_loop_at _ s _ [] x None (wf_rep _ _ _ H)); [|by eapply wf_known| |by eapply wf_length].
  - rewrite (wf_inorder _ _ _ H). unfold pick.
    rewrite (find_fst s (fun a => addr <? a_s a) rs (wf_areas _ _ _ H)). by destruct (find _ rs).
  - rewrite (wf_inorder _ _ _ H). apply (wf_upward s x); [done|]. intros a b Hab Ha. bool_facts. lia.
Qed.

Lemma lowerbound_at s x rs addr :
  wf s x rs -> vmm_sp_lowerbound s addr = Ok (fst <$> find (fun u => addr <=? a_s u.2) rs).
Proof.
  intros H. unfold vmm_sp_lowerbound. rewrite (rep_root _ _ (wf_rep _ _ _ H)).
  rewrite (bound_loop_at _ s _ [] x None (wf_rep _ _ _ H)); [|by eapply wf_known| |by eapply wf_length].
  - rewrite (wf_inorder _ _ _ H). unfold pick.
    rewrite (find_fst s (fun a => addr <=? a_s a) rs (wf_areas _ _ _ H)). by destruct (find _ rs).
  - rewrite (wf_inorder _ _ _ H). apply (wf_upward s x); [done|]. intros a b Hab Ha. bool_facts. lia.
Qed.

Definition inside (addr : Z) (a : vm_area) : bool := (a_s a <=? addr) && (addr <? a_t a).

(** The order of the areas of a subtree, by address. *)
Definition ordered (s : vm_space) (l : list Z) : Prop :=
  StronglySorted (fun p q => forall a b, areas s !! p = Some a -> areas s !! q = Some b -> a_t a <= a_s b) l /\
  Forall (fun p => exists a, areas s !! p = Some a /\ a_s a < a_t a) l.

Lemma wf_ordered s x rs : wf s x rs -> ordered s rs.*1.
Proof.
  intros H. pose proof (wf_areas _ _ _ H) as Ha. destruct (wf_layout _ _ _ H) as [Hs Hz]. clear H. split.
  - induction rs as [|u rs IH]; cbn; [constructor|]. apply StronglySorted_inv in Hs as [Hs Hu].
    apply Forall_cons in Ha as [Hau Ha]. apply Forall_cons in Hz as [_ Hz]. constructor; [by apply IH|].
    apply Forall_fmap. apply Forall_forall. intros v Hv a b E1 E2. cbn in *.
    rewrite Forall_forall in Hu, Ha. specialize (Hu v Hv). specialize (Ha v Hv). unfold before_area in Hu. congruence.
  - apply Forall_fmap. rewrite Forall_forall in *. intros u Hu. cbn. exists u.2. split; [by apply Ha|]. specialize (Hz u Hu). lia.
Qed.

Lemma containing_loop_at fuel s addr k x :
  rep (sp_tree s) (plug k x) -> ordered s (inorder x) -> (length (inorder x) < fuel)%nat ->
  containing_loop fuel s addr (rt x) = Ok (find (test s (inside addr)) (inorder x)).
Proof.
  revert fuel k. induction x as [|co l IHl p r IHr]; intros fuel k H [Hs Hz] Hf;
    (destruct fuel as [|fuel]; [cbn in Hf; lia|]); [done|].
  cbn [containing_loop]. rewrite (proj2 (Z.eqb_neq _ 0) (rt_nz _ _ _ H ltac:(discriminate))). cbn [rt].
  cbn in Hs, Hz, Hf. rewrite length_app in Hf. cbn in Hf.
  apply Forall_app in Hz as [Hzl [(a & Ha & Hsz) Hzr]%Forall_cons].
  unfold area. rewrite Ha. cbn [deref res_bind inorder]. rewrite find_app.
  assert (test s (inside addr) p = (a_s a <=? addr) && (addr <? a_t a)) as Et by (unfold test; by rewrite Ha).
  assert (forall q, q ∈ inorder l -> a_s a <= addr -> test s (inside addr) q = false) as Hl.
  { intros q Hq Hle. pose proof (StronglySorted_app_1_elem_of _ _ _ q p Hs Hq ltac:(set_solver)) as Hqp.
    unfold test. destruct (areas s !! q) as [b|] eqn:Eb; [|done]. specialize (Hqp b a Eb Ha).
    unfold inside. apply andb_false_iff. right. lia. }
  assert (forall q, q ∈ inorder r -> addr < a_t a -> test s (inside addr) q = false) as Hr.
  { intros q Hq Hle. rewrite (cons_middle p), app_assoc in Hs.
    pose proof (StronglySorted_app_1_elem_of _ _ _ p q Hs ltac:(set_solver) Hq) as Hpq.
    unfold test. destruct (areas s !! q) as [b|] eqn:Eb; [|done]. specialize (Hpq a b Ha Eb).
    unfold inside. apply andb_false_iff. left. lia. }
  assert (ordered s (inorder l)) as Hol by (split; [by apply StronglySorted_app_1_l in Hs|done]).
  assert (ordered s (inorder r)) as Hor.
  { split; [|done]. apply StronglySorted_app_1_r in Hs. by apply StronglySorted_inv in Hs as [? _]. }
  destruct ((a_s a <=? addr) && (addr <? a_t a)) eqn:Ei; cbn [find]; rewrite Et.
  - bool_facts. by rewrite (find_none_all _ (inorder l)) by (apply Forall_forall; auto).
  - destruct (addr <? a_s a) eqn:E2; bool_facts; at_node H.
    + rewrite (IHl fuel (FL co p r :: k)); [|exact H|done|lia]. destruct (find _ (inorder l)); [done|].
      rewrite (find_none_all _ (inorder r)); [done|]. apply Forall_forall. intros q Hq. apply Hr; [done|lia].
    + rewrite (IHr fuel (FR co p l :: k)); [|exact H|done|lia].
      by rewrite (find_none_all _ (inorder l)) by (apply Forall_forall; auto).
Qed.

(** The area of an address. *)
Lemma containing_at s x rs addr :
  wf s x rs -> vmm_sp_containing s addr = Ok (fst <$> find (fun u => inside addr u.2) rs).
Proof.
  intros H. unfold vmm_sp_containing. rewrite (rep_root _ _ (wf_rep _ _ _ H)).
  rewrite (containing_loop_at _ s addr [] x (wf_rep _ _ _ H)); [| |by eapply wf_length].
  - rewrite (wf_inorder _ _ _ H). by rewrite (find_fst s (inside addr) rs (wf_areas _ _ _ H)).
  - rewrite (wf_inorder _ _ _ H). by eapply wf_ordered.
Qed.

(** ** Registration *)

Lemma descend_at fuel s key k x :
  rep (sp_tree s) (plug k x) -> known s x ->
  let gt := test s (fun a => key <? a_s a) in
  upward gt (inorder x) -> Forall (fun p => test s (fun a => a_s a =? key) p = false) (inorder x) ->
  (length (inorder x) < fuel)%nat ->
  total (descend fuel s key (slot_of k) (par k)) (fun '(pp, p) => exists k', x = plug k' E /\
    pp = slot_of (k' ++ k) /\ p = par (k' ++ k) /\
    Forall (fun q => gt q = false) (before k') /\ Forall (fun q => gt q = true) (after k')).
Proof.
  revert fuel k. induction x as [|co l IHl p r IHr]; intros fuel k H Hk gt Hu Hne Hf;
    (destruct fuel as [|fuel]; [cbn in Hf; lia|]); cbn [descend]; rewrite (slot_get_of _ _ _ H); cbn [res_bind].
  - apply total_Ok. exists []. split_and!; [done|done|done|constructor|constructor].
  - rewrite (proj2 (Z.eqb_neq _ 0) (rt_nz _ _ _ H ltac:(discriminate))). cbn [rt].
    unfold known in Hk. cbn in Hk, Hu, Hne, Hf. rewrite length_app in Hf. cbn in Hf.
    apply Forall_app in Hk as [Hkl [[a Ha] Hkr]%Forall_cons]. apply Forall_app in Hne as [Hnel [Hnep Hner]%Forall_cons].
    unfold area. rewrite Ha. cbn [deref res_bind]. unfold test in Hnep. rewrite Ha in Hnep.
    assert (gt p = (key <? a_s a)) as Et by (unfold gt, test; by rewrite Ha).
    pose proof (upward_app _ _ _ Hu) as [Hul Hur]. bool_facts.
    destruct (a_s a <? key) eqn:E1; bool_facts.
    + assert (gt p = false) as Ep by (rewrite Et; lia).
      destruct (IHr fuel (FR co p l :: k) H Hkr (upward_cons _ _ _ Hur) Hner ltac:(lia))
        as ([pp q] & E & k' & -> & -> & -> & Hb & Haf).
      exists (slot_of (k' ++ FR co p l :: k), par (k' ++ FR co p l :: k)). split; [exact E|].
      exists (k' ++ [FR co p l]). rewrite plug_app, <- app_assoc, before_app, after_app, app_nil_r.
      split_and!; try done. cbn. rewrite !Forall_app, Forall_singleton.
      split_and!; [by eapply upward_down|done|done].
    + assert (gt p = true) as Ep by (rewrite Et; lia). replace (key <? a_s a) with true by lia.
      destruct (IHl fuel (FL co p r :: k) H Hkl Hul Hnel ltac:(lia)) as ([pp q] & E & k' & -> & -> & -> & Hb & Haf).
      exists (slot_of (k' ++ FL co p r :: k), par (k' ++ FL co p r :: k)). split; [exact E|].
      exists (k' ++ [FL co p r]). rewrite plug_app, <- app_assoc, before_app, after_app.
      cbn. rewrite !app_nil_r, Forall_app, Forall_cons.
      split_and!; try done. exact (Hu _ p _ eq_refl Ep).
Qed.

Lemma split_unique (f : Z -> bool) l1 l2 l1' l2' :
  l1 ++ l2 = l1' ++ l2' -> Forall (fun q => f q = false) l1 -> Forall (fun q => f q = true) l2 ->
  Forall (fun q => f q = false) l1' -> Forall (fun q => f q = true) l2' -> l1 = l1' /\ l2 = l2'.
Proof.
  revert l1'. induction l1 as [|p l1 IH]; intros l1' E H1 H2 H1' H2'; destruct l1' as [|p' l1']; cbn in E.
  - done.
  - subst. apply Forall_cons in H1' as [? _]. apply Forall_cons in H2 as [? _]. congruence.
  - subst. apply Forall_cons in H1 as [? _]. apply Forall_cons in H2' as [? _]. congruence.
  - injection E as -> E. apply Forall_cons in H1 as [_ H1]. apply Forall_cons in H1' as [_ H1'].
    destruct (IH l1' E H1 H2 H1' H2') as [-> ->]. done.
Qed.

Lemma insert_before_split (f : Z -> bool) l1 l2 n :
  Forall (fun q => f q = false) l1 -> Forall (fun q => f q = true) l2 ->
  insert_before (l1 ++ l2) (find f (l1 ++ l2)) n = l1 ++ n :: l2.
Proof.
  intros H1 H2. rewrite find_app, (find_none_all _ l1) by done.
  destruct l2 as [|p l2]; cbn [find].
  - clear H1. rewrite app_nil_r. induction l1 as [|q l1 IH]; [done|]. cbn. by rewrite IH.
  - apply Forall_cons in H2 as [Hp _]. rewrite Hp. induction H1 as [|q l1 Hq _ IH]; cbn; [by rewrite Z.eqb_refl|].
    rewrite (proj2 (Z.eqb_neq q p)) by congruence. by rewrite IH.
Qed.

(** A list of areas with a new one in its place. *)
Lemma layout_insert l1 l2 v a :
  layout (l1 ++ l2) -> 0 <= a_s a < a_t a -> Forall (fun u => a_t u.2 <= a_s a) l1 -> Forall (fun u => a_t a <= a_s u.2) l2 ->
  layout (l1 ++ (v, a) :: l2).
Proof.
  intros [Hs Hz] Ha H1 H2. apply Forall_app in Hz as [Hz1 Hz2]. rewrite StronglySorted_app in Hs. destruct Hs as (Hx & Hs1 & Hs2).
  rewrite Forall_forall in H1, H2. split.
  - rewrite StronglySorted_app. split_and!; [|done|].
    + intros u w Hu Hw. apply elem_of_cons in Hw as [->|Hw]; [by apply H1|by apply Hx].
    + constructor; [done|]. apply Forall_forall. intros w Hw. by apply H2.
  - apply Forall_app. split; [done|]. by constructor.
Qed.

(** A registered area takes its place between the ones below and above it. *)
Lemma regst_at s x l1 l2 v a nd :
  wf s x (l1 ++ l2) -> areas s !! v = Some a -> nodes (sp_tree s) !! v = Some nd ->
  (v ∉ (l1 ++ l2).*1) -> 0 < v < heap_next s ->
  0 <= a_s a < a_t a -> Forall (fun u => a_t u.2 <= a_s a) l1 -> Forall (fun u => a_t a <= a_s u.2) l2 ->
  total (vmm_sp_regst s v) (fun s' => exists x', wf s' x' (l1 ++ (v, a) :: l2) /\
    areas s' = areas s /\ heap_next s' = heap_next s /\ (forall h, bal h x -> exists h', bal h' x')).
Proof.
  intros H Hv Hnd Hni Hv0 Hz H1 H2. unfold vmm_sp_regst, regst_with, area. rewrite Hv. cbn [deref res_bind].
  rewrite (upperbound_at s x _ (a_s a) H). cbn [res_bind].
  set (gt := test s (fun b => a_s a <? a_s b)).
  pose proof (wf_areas _ _ _ H) as Hars.
  assert (Forall (fun q => gt q = false) l1.*1 /\ Forall (fun q => gt q = true) l2.*1) as [G1 G2].
  { pose proof (lay_size _ (wf_layout _ _ _ H)) as Hsz.
    rewrite Forall_app in Hsz. destruct Hsz as [Hs1 _]. rewrite !Forall_fmap, !Forall_forall in *. split; intros u Hu; cbn.
    - unfold gt. rewrite (test_eq s _ (l1 ++ l2) u) by (by apply Forall_forall || set_solver).
      specialize (H1 u Hu). specialize (Hs1 u Hu). lia.
    - unfold gt. rewrite (test_eq s _ (l1 ++ l2) u) by (by apply Forall_forall || set_solver).
      specialize (H2 u Hu). lia. }
  rewrite <- (find_fst s (fun b => a_s a <? a_s b) (l1 ++ l2) Hars). fold gt.
  set (s1 := s <| sp_list ::= _ |>).
  assert (sp_list s1 = (l1 ++ (v, a) :: l2).*1) as El.
  { unfold s1. cbn. rewrite (wf_list _ _ _ H), !fmap_app. by apply insert_before_split. }
  assert (total (descend (path_fuel s) s1 (a_s a) AtRoot 0) (fun '(pp, p) => exists k', x = plug k' E /\
    pp = slot_of k' /\ p = par k' /\ before k' = l1.*1 /\ after k' = l2.*1)) as ([pp p] & Ed & k & Ex & -> & -> & Eb & Ea).
  { destruct (descend_at (path_fuel s) s1 (a_s a) [] x) as ([pp p] & E & k & -> & -> & -> & Hb & Haf).
    - exact (wf_rep _ _ _ H).
    - exact (wf_known _ _ _ H).
    - change (upward gt (inorder x)). rewrite (wf_inorder _ _ _ H). apply (wf_upward s x); [done|].
      intros b c Hbc Hb. bool_facts. lia.
    - change (Forall (fun p => test s (fun b => a_s b =? a_s a) p = false) (inorder x)). rewrite (wf_inorder _ _ _ H).
      rewrite fmap_app, Forall_app. rewrite !Forall_fmap, !Forall_forall in *. split; intros u Hu; cbn.
      + rewrite (test_eq s _ (l1 ++ l2) u) by (by apply Forall_forall || set_solver).
        specialize (H1 u Hu). destruct (wf_layout _ _ _ H) as [_ Hsz]. rewrite Forall_forall in Hsz.
        specialize (Hsz u ltac:(set_solver)). lia.
      + rewrite (test_eq s _ (l1 ++ l2) u) by (by apply Forall_forall || set_solver). specialize (H2 u Hu). lia.
    - by eapply wf_length.
    - rewrite app_nil_r in E. eexists. split; [exact E|]. exists k. split; [done|]. split; [done|]. split; [done|].
      apply (split_unique gt); try done. pose proof (wf_inorder _ _ _ H) as Ei. rewrite inorder_plug in Ei. cbn in Ei.
      by rewrite Ei, fmap_app. }
  rewrite Ed. cbn [res_bind]. subst x. destruct (wf_good _ _ _ H) as [Hg1 Hg2].
  destruct (rbtree_insert_at (sp_tree s) k v nd (wf_rep _ _ _ H) Hg1 Hg2 Hnd) as (t' & Et & y & Hy & Hi & R1 & R2 & Hb).
  { by rewrite (wf_inorder _ _ _ H). } { lia. }
  destruct (rbtree_link (sp_tree s) v (slot_of k) (par k)) as [t1|] eqn:E1; cbn [res_bind] in Et; [|done].
  change (sp_tree s1) with (sp_tree s). rewrite E1. cbn [res_bind]. rewrite Et. cbn [res_bind].
  eexists. split; [reflexivity|]. exists y. split_and!; [|done|done|done]. split.
  - exact Hy.
  - by split.
  - by rewrite Hi, Eb, Ea, fmap_app.
  - exact El.
  - apply Forall_app in Hars as [A1 A2]. apply Forall_app. split; [done|]. by constructor.
  - by apply layout_insert; [apply H|..].
  - pose proof (wf_fresh _ _ _ H) as Hf. apply Forall_app in Hf as [F1 F2]. apply Forall_app. split; [done|]. constructor; [cbn; lia|done].
  - apply H.
Qed.

(** A node of a tree in its context. *)
Lemma focus_elem x p : p ∈ inorder x -> exists k c l r, x = plug k (T c l p r).
Proof.
  induction x as [|c l IHl q r IHr]; cbn; [set_solver|]. intros [Hp|[->|Hp]%elem_of_cons]%elem_of_app.
  - destruct (IHl Hp) as (k & c' & l' & r' & ->). exists (k ++ [FL c q r]), c', l', r'. by rewrite plug_app.
  - by exists [], c, l, r.
  - destruct (IHr Hp) as (k & c' & l' & r' & ->). exists (k ++ [FR c q l]), c', l', r'. by rewrite plug_app.
Qed.

Lemma nodup_split (p : Z) l1 l2 l1' l2' :
  NoDup (l1 ++ p :: l2) -> l1 ++ p :: l2 = l1' ++ p :: l2' -> l1 = l1' /\ l2 = l2'.
Proof.
  revert l1'. induction l1 as [|q l1 IH]; intros l1' Hnd E; destruct l1' as [|q' l1']; cbn in *.
  - by injection E.
  - injection E as E1 E2. subst. apply NoDup_cons in Hnd as [Hq _]. set_solver.
  - injection E as E1 E2. subst. apply NoDup_cons in Hnd as [Hq _]. set_solver.
  - injection E as -> E. apply NoDup_cons in Hnd as [_ Hnd]. destruct (IH l1' Hnd E) as [-> ->]. done.
Qed.

Lemma wf_nodup s x rs : wf s x rs -> NoDup rs.*1.
Proof. intros H. rewrite <- (wf_inorder _ _ _ H). apply H. Qed.

Lemma filter_keep (v : Z) (l : list Z) : (v ∉ l) -> filter (fun q => q <> v) l = l.
Proof.
  induction l as [|q l IH]; intros Hv; [done|]. rewrite filter_cons_True by set_solver. f_equal. apply IH. set_solver.
Qed.

Lemma wf_drop s x l1 l2 v a t' y :
  wf s x (l1 ++ (v, a) :: l2) -> rep t' y -> good y -> inorder y = (l1 ++ l2).*1 ->
  wf (s <| sp_tree := t' |> <| sp_list ::= filter (fun q => q <> v) |>) y (l1 ++ l2).
Proof.
  intros H Hy Hg Hi. pose proof (wf_nodup _ _ _ H) as Hnd. rewrite fmap_app in Hnd. cbn in Hnd.
  destruct (wf_layout _ _ _ H) as [Hs Hz]. pose proof (wf_areas _ _ _ H) as Ha. pose proof (wf_fresh _ _ _ H) as Hf.
  rewrite Forall_app, Forall_cons in Hz, Ha, Hf. rewrite StronglySorted_app in Hs. destruct Hs as (Hx & Hs1 & Hs2).
  apply StronglySorted_inv in Hs2 as [Hs2 _].
  split; cbn; try done.
  - rewrite (wf_list _ _ _ H), !fmap_app, fmap_cons, filter_app, filter_cons_False by (intros Hn; by apply Hn).
    apply NoDup_app in Hnd as (_ & Hd & [Hv _]%NoDup_cons). f_equal.
    + apply filter_keep. intros Hq. apply (Hd v Hq). set_solver.
    + by apply filter_keep.
  - apply Forall_app. intuition.
  - split; [|apply Forall_app; intuition]. rewrite StronglySorted_app. split_and!; [|done|done].
    intros u w Hu Hw. apply Hx; [done|set_solver].
  - apply Forall_app. intuition.
  - apply H.
Qed.

(** An area taken out of the space. *)
Lemma unreg_at s x l1 l2 v a :
  wf s x (l1 ++ (v, a) :: l2) ->
  (forall s', vmm_sp_unreg s v = Ok s' -> exists x', wf s' x' (l1 ++ l2) /\ areas s' = areas s /\ heap_next s' = heap_next s) /\
  (forall h, bal h x -> exists s', vmm_sp_unreg s v = Ok s').
Proof.
  intros H. pose proof (wf_nodup _ _ _ H) as Hnd. pose proof (wf_inorder _ _ _ H) as Hi.
  destruct (focus_elem x v) as (k & c & l & r & ->); [rewrite Hi, fmap_app; cbn; set_solver|].
  destruct (rbtree_delete_at (sp_tree s) k c l v r (wf_rep _ _ _ H) (wf_good _ _ _ H)) as [D1 D2].
  rewrite inorder_plug, fmap_app in Hi. cbn in Hi. rewrite <- app_assoc in Hi. cbn in Hi. rewrite app_assoc in Hi.
  rewrite fmap_app in Hnd. cbn in Hnd. rewrite <- Hi in Hnd. destruct (nodup_split v _ _ _ _ Hnd Hi) as [E1 E2].
  unfold vmm_sp_unreg. split.
  - intros s' E. destruct (rbtree_delete (sp_tree s) v) as [t'|] eqn:Et; cbn [res_bind] in E; [|done].
    injection E as <-. destruct (D1 t' eq_refl) as (y & Hy & Hiy & Hg). exists y. split_and!; [|done|done].
    eapply wf_drop; [exact H|done|done|]. rewrite Hiy, fmap_app, <- E1, <- E2. by rewrite <- !app_assoc.
  - intros h Hb. destruct (D2 h Hb) as [t' ->]. by eexists.
Qed.

Lemma alloc_at s x rs a :
  wf s x rs ->
  let '(p, s') := alloc_vma s a in
  p = heap_next s /\ wf s' x rs /\ areas s' !! p = Some a /\ nodes (sp_tree s') !! p = Some (RbNode 0 0 0 0) /\
  (p ∉ rs.*1) /\ 0 < p < heap_next s' /\ (forall q, q <> p -> areas s' !! q = areas s !! q).
Proof.
  intros H. cbn. pose proof (wf_next _ _ _ H) as Hn. pose proof (wf_fresh _ _ _ H) as Hf.
  assert (heap_next s ∉ rs.*1) as Hni.
  { intros Hin. apply list_elem_of_fmap in Hin as (u & E & Hu). rewrite Forall_forall in Hf. specialize (Hf u Hu). lia. }
  split_and!; try done; [|apply lookup_insert_eq|apply lookup_insert_eq|lia|intros; by apply lookup_insert_ne].
  split; cbn; [|apply H|apply H|apply H| |apply H| |lia].
  - destruct (wf_rep _ _ _ H) as [R1 R2 R3 R4 R5]. split; cbn; [done| |done|done|rewrite lookup_insert_ne by lia; done].
    apply in_heap_insert; [|done]. by rewrite flat_fst, (wf_inorder _ _ _ H).
  - rewrite Forall_forall. intros u Hu. pose proof (wf_areas _ _ _ H) as Ha. rewrite Forall_forall in Ha.
    rewrite lookup_insert_ne; [by apply Ha|]. intros E. apply Hni. rewrite E. apply list_elem_of_fmap. by exists u.
  - eapply Forall_impl; [exact Hf|]. cbn. lia.
Qed.

(** Mapping a range that is free. *)
Lemma map_area_at s x l1 l2 a :
  wf s x (l1 ++ l2) -> 0 <= a_s a < a_t a -> Forall (fun u => a_t u.2 <= a_s a) l1 -> Forall (fun u => a_t a <= a_s u.2) l2 ->
  total (map_area s a) (fun '(r, s') => r = a_s a /\ exists x', wf s' x' (l1 ++ (heap_next s, a) :: l2)).
Proof.
  intros H Ha H1 H2. unfold map_area. pose proof (alloc_at s x _ a H) as Hal.
  destruct (alloc_vma s a) as [p s1]. destruct Hal as (-> & Hw & Hp & Hn & Hni & Hp0 & _).
  destruct (regst_at s1 x l1 l2 (heap_next s) a _ Hw Hp Hn Hni Hp0 Ha H1 H2) as (s2 & -> & x' & Hw' & _).
  cbn. apply total_Ok. by split; [|exists x'].
Qed.

(** ** Unmapping *)

Lemma next_of_mid l1 p l2 : (p ∉ l1) -> next_of (l1 ++ p :: l2) p = head l2.
Proof.
  induction l1 as [|q l1 IH]; intros Hp; cbn; [by rewrite Z.eqb_refl|].
  rewrite (proj2 (Z.eqb_neq q p)) by set_solver. apply IH. set_solver.
Qed.

Lemma wf_next_of s x l1 p a l2 : wf s x (l1 ++ (p, a) :: l2) -> next_of (sp_list s) p = head l2.*1.
Proof.
  intros H. pose proof (wf_nodup _ _ _ H) as Hnd. rewrite (wf_list _ _ _ H). rewrite fmap_app in *. cbn in *.
  apply next_of_mid. apply NoDup_app in Hnd as (_ & Hd & _). intros Hp. apply (Hd p Hp). set_solver.
Qed.

Lemma wf_area s x rs p a : wf s x rs -> (p, a) ∈ rs -> area s p = Ok a.
Proof.
  intros H Hu. pose proof (wf_areas _ _ _ H) as Ha. rewrite Forall_forall in Ha.
  specialize (Ha (p, a) Hu). cbn in Ha. unfold area. by rewrite Ha.
Qed.

(** An area that shrinks in place. *)
Lemma wf_shrink s x l1 p a l2 a' f :
  wf s x (l1 ++ (p, a) :: l2) -> f a = a' -> a_s a <= a_s a' -> a_t a' <= a_t a -> a_s a' < a_t a' ->
  exists s', set_area s p f = Ok s' /\ wf s' x (l1 ++ (p, a') :: l2) /\ heap_next s' = heap_next s /\
    sp_tree s' = sp_tree s /\ (forall q, q <> p -> areas s' !! q = areas s !! q).
Proof.
  intros H Hf Hs Ht Hz. unfold set_area. rewrite (wf_area s x _ p a H) by set_solver. cbn [res_bind fst snd]. rewrite Hf.
  eexists. split; [done|]. split_and!; [|done|done|intros q Hq; cbn; by apply lookup_insert_ne].
  pose proof (wf_nodup _ _ _ H) as Hnd. rewrite fmap_app in Hnd. cbn in Hnd. apply NoDup_app in Hnd as (_ & Hd & [Hp _]%NoDup_cons).
  destruct (wf_layout _ _ _ H) as [Hss Hzz]. pose proof (wf_areas _ _ _ H) as Ha. pose proof (wf_fresh _ _ _ H) as Hfr.
  rewrite Forall_app, Forall_cons in Hzz, Ha, Hfr. destruct Hzz as (Z1 & Z2 & Z3), Ha as (A1 & A2 & A3), Hfr as (F1 & F2 & F3).
  split; cbn; [apply H|apply H| | | | | |apply H].
  - rewrite (wf_inorder _ _ _ H), !fmap_app. done.
  - rewrite (wf_list _ _ _ H), !fmap_app. done.
  - assert (forall l, (p ∉ l.*1) -> Forall (fun u => areas s !! u.1 = Some u.2) l ->
      Forall (fun u => <[p:=a']> (areas s) !! u.1 = Some u.2) l) as Hfr.
    { intros l Hl. rewrite !Forall_forall. intros Hl' u Hu. rewrite lookup_insert_ne; [by apply Hl'|].
      intros ->. apply Hl, list_elem_of_fmap. by exists u. }
    apply Forall_app. split; [apply Hfr; [|done]; intros Hq; apply (Hd p Hq); set_solver|].
    apply Forall_cons. split; [apply lookup_insert_eq|by apply Hfr].
  - rewrite StronglySorted_app in Hss. destruct Hss as (Hx & Hs1 & Hs2). apply StronglySorted_inv in Hs2 as [Hs2 Hs3]. split.
    + rewrite StronglySorted_app. split_and!; [|done|].
      * intros u w Hu [->|Hw]%elem_of_cons; [|apply Hx; set_solver].
        specialize (Hx u (p, a) Hu ltac:(set_solver)). unfold before_area in *. cbn in *. lia.
      * constructor; [done|]. eapply Forall_impl; [exact Hs3|]. unfold before_area. cbn. intros. lia.
    + apply Forall_app. split; [done|]. constructor; [cbn in *; lia|done].
  - apply Forall_app. split; [done|]. by constructor.
Qed.

(** The contents of the heap outside the space do not matter. *)
Lemma wf_outside s x rs p f a :
  wf s x rs -> (p ∉ rs.*1) -> areas s !! p = Some a ->
  exists s', set_area s p f = Ok s' /\ wf s' x rs /\ areas s' !! p = Some (f a) /\ sp_tree s' = sp_tree s /\ heap_next s' = heap_next s.
Proof.
  intros H Hp Ha. unfold set_area, area. rewrite Ha. cbn [deref res_bind]. eexists. split; [done|].
  split_and!; [|cbn; apply lookup_insert_eq|done|done]. split; cbn; [apply H|apply H|apply H|apply H| |apply H|apply H|apply H].
  pose proof (wf_areas _ _ _ H) as Har. rewrite Forall_forall in *. intros u Hu. rewrite lookup_insert_ne; [by apply Har|].
  intros ->. apply Hp, list_elem_of_fmap. by exists u.
Qed.

(** What is left of an area when [lo, hi) is taken out; the upper part of a
    split area is the new node [n] with the page records [pp]. *)
Definition cut1 (n pp lo hi : Z) (u : Z * vm_area) : list (Z * vm_area) :=
  let '(p, a) := u in
  if negb (covered a lo hi) then [u]
  else if (a_s a <? lo) && (hi <? a_t a) then
    [(p, a <| a_t := lo |>); (n, a <| a_ppgs := pp |> <| a_s := hi |>)]
  else if (lo <=? a_s a) && (a_t a <=? hi) then []
  else if lo <=? a_s a then [(p, a <| a_s := hi |>)]
  else [(p, a <| a_t := lo |>)].

Definition whole (lo hi : Z) (u : Z * vm_area) : bool := (lo <=? a_s u.2) && (a_t u.2 <=? hi).

Lemma covered_iff a lo hi : covered a lo hi = true <-> Z.max (a_s a) lo < Z.min (a_t a) hi.
Proof. unfold covered. autorewrite with mint. lia. Qed.

Section MunmapProofs.
Context {P : Type} `{!PageUnmap P} `{!PageSplit P}.

Definition pages_total : Prop :=
  (forall pg a va, exists pg', page_unmap pg a va = Ok pg') /\ (forall pg i, exists r, page_split pg i = Ok r).

Lemma unmap_pages_total n pg a cur : pages_total -> exists pg', unmap_pages n pg a cur = Ok pg'.
Proof.
  intros Ht. revert pg cur. induction n as [|n IH]; intros pg cur; cbn; [by eexists|].
  destruct (proj1 Ht pg a cur) as [pg' ->]. cbn. apply IH.
Qed.

Lemma munmap_one_at s x l1 p a l2 pg lo hi :
  wf s x (l1 ++ (p, a) :: l2) -> covered a lo hi = true -> 0 <= lo ->
  (forall r, munmap_one s pg p lo hi = Ok r ->
     exists x' pp, wf r.1.1 x' (l1 ++ cut1 (heap_next s) pp lo hi (p, a) ++ l2) /\
       r.2 = (if (a_s a <? lo) && (hi <? a_t a) then Some (heap_next s) else head l2.*1) /\
       (whole lo hi (p, a) = false -> (a_s a <? lo) && (hi <? a_t a) = false -> x' = x /\ heap_next r.1.1 = heap_next s)) /\
  (pages_total -> whole lo hi (p, a) = false \/ (exists h, bal h x) -> exists r, munmap_one s pg p lo hi = Ok r).
Proof.
  intros H Hc Hlo. unfold munmap_one. rewrite (wf_area s x _ p a H) by set_solver. cbn [res_bind fst snd].
  pose proof Hc as Hc'. rewrite covered_iff in Hc'. rewrite MAX_max, MIN_min. unfold cut1, whole. rewrite Hc. cbn [negb fst snd].
  pose proof (lay_size _ (wf_layout _ _ _ H)) as Hz. rewrite Forall_app, Forall_cons in Hz. destruct Hz as (_ & Hz & _). cbn in Hz.
  destruct (unmap_pages _ pg a _) as [pg1|] eqn:Eu; cbn [res_bind].
  2:{ split; [done|]. intros Ht _. destruct (unmap_pages_total (page_count (Z.max (a_s a) lo) (Z.min (a_t a) hi)) pg a (Z.max (a_s a) lo) Ht). congruence. }
  destruct ((a_s a <? lo) && (hi <? a_t a)) eqn:E1; [|destruct ((lo <=? a_s a) && (a_t a <=? hi)) eqn:E2].
  - bool_facts. destruct (page_split pg1 (a_ppgs a)) as [[pp pg2]|] eqn:Es; cbn [res_bind].
    2:{ split; [done|]. intros [_ Ht] _. destruct (Ht pg1 (a_ppgs a)). congruence. }
    pose proof (alloc_at s x _ (a <| a_ppgs := pp |>) H) as Hal. destruct (alloc_vma s _) as [na s1].
    destruct Hal as (-> & Hw1 & Hna & Hnn & Hni & Hn0 & _).
    destruct (wf_shrink s1 x l1 p a l2 (a <| a_t := lo |>) (fun a => a <| a_t := lo |>) Hw1) as (s2 & E2 & Hw2 & Eh2 & Et2 & Hf2);
      [done|cbn; lia..|]. rewrite E2. cbn [res_bind].
    assert (heap_next s ∉ (l1 ++ (p, a <| a_t := lo |>) :: l2).*1) as Hni2 by (rewrite fmap_app in *; exact Hni).
    destruct (wf_outside s2 x _ (heap_next s) (fun a => a <| a_s := hi |>) _ Hw2 Hni2
      ltac:(rewrite Hf2; [exact Hna|intros Hq; apply Hni; rewrite Hq, fmap_app; cbn; set_solver])) as (s3 & E3 & Hw3 & Ha3 & Et3 & Eh3).
    rewrite E3. cbn [res_bind].
    destruct (wf_layout _ _ _ H) as [Hss _]. rewrite StronglySorted_app in Hss. destruct Hss as (Hx & _ & Hs2).
    apply StronglySorted_inv in Hs2 as [_ Hs2]. rewrite (cons_middle (p, _)), app_assoc in Hw3, Hni2.
    destruct (regst_at s3 x (l1 ++ [(p, a <| a_t := lo |>)]) l2 (heap_next s) (a <| a_ppgs := pp |> <| a_s := hi |>) (RbNode 0 0 0 0) Hw3)
      as (s4 & E4 & x' & Hw4 & _); [done|by rewrite Et3, Et2|done|by rewrite Eh3, Eh2|cbn; lia| | |].
    + apply Forall_app. split; [|repeat constructor; cbn; lia]. apply Forall_forall. intros u Hu.
      specialize (Hx u (p, a) Hu ltac:(set_solver)). unfold before_area in Hx. cbn in *. lia.
    + eapply Forall_impl; [exact Hs2|]. unfold before_area. cbn. lia.
    + rewrite E4. cbn [res_bind]. split; [|intros; by eexists]. intros r [= <-]. exists x', pp. cbn [fst snd].
      rewrite <- app_assoc in Hw4. split_and!; [exact Hw4| |done].
      rewrite (wf_next_of _ _ _ _ _ _ Hw4). done.
  - bool_facts. replace ((Z.max (a_s a) lo =? a_s a) && (a_t a =? Z.min (a_t a) hi)) with true by lia.
    destruct (unreg_at s x l1 l2 p a H) as [U1 U2]. split.
    + intros r Er. destruct (vmm_sp_unreg s p) as [s'|] eqn:Eun; cbn [res_bind] in Er; [|done].
      injection Er as <-. destruct (U1 s' eq_refl) as (x' & Hw' & _). exists x', 0. cbn [fst snd app]. split_and!; [done| |done].
      apply (wf_next_of _ _ _ _ _ _ H).
    + intros _ [Hf|[h Hb]]; [done|]. destruct (U2 h Hb) as [s' ->]. by eexists.
  - replace ((Z.max (a_s a) lo =? a_s a) && (a_t a =? Z.min (a_t a) hi)) with false by lia.
    destruct (lo <=? a_s a) eqn:E3; bool_facts.
    + replace (a_s a =? Z.max (a_s a) lo) with true by lia. replace (Z.min (a_t a) hi) with hi by lia.
      destruct (wf_shrink s x l1 p a l2 (a <| a_s := hi |>) (fun a => a <| a_s := hi |>) H) as (s2 & E4 & Hw2 & Eh2 & Et2 & Hf2);
        [done|cbn; lia..|]. rewrite E4. cbn [res_bind]. split; [|intros; by eexists]. intros r [= <-]. exists x, 0. cbn [fst snd app].
      split_and!; [done|by rewrite (wf_next_of _ _ _ _ _ _ Hw2)|done].
    + replace (a_s a =? Z.max (a_s a) lo) with false by lia. replace (a_t a =? Z.min (a_t a) hi) with true by lia.
      replace (Z.max (a_s a) lo) with lo by lia.
      destruct (wf_shrink s x l1 p a l2 (a <| a_t := lo |>) (fun a => a <| a_t := lo |>) H) as (s2 & E4 & Hw2 & Eh2 & Et2 & Hf2);
        [done|cbn; lia..|]. rewrite E4. cbn [res_bind]. split; [|intros; by eexists]. intros r [= <-]. exists x, 0. cbn [fst snd app].
      split_and!; [done|by rewrite (wf_next_of _ _ _ _ _ _ Hw2)|done].
Qed.

(** At most one area of [mid] lies wholly in the range, and none unless the tree
    is balanced: the cases in which no deletion can fault. *)
Definition deletable (x : tree) (lo hi : Z) (mid : list (Z * vm_area)) : Prop :=
  let n := length (filter (fun u => whole lo hi u = true) mid) in
  n = O \/ ((n <= 1)%nat /\ exists h, bal h x).

Lemma deletable_cons x lo hi u mid :
  deletable x lo hi (u :: mid) ->
  (whole lo hi u = false \/ exists h, bal h x) /\ (whole lo hi u = false -> deletable x lo hi mid) /\
  (whole lo hi u = true -> forall x', deletable x' lo hi mid).
Proof.
  unfold deletable. destruct (whole lo hi u) eqn:E.
  - rewrite filter_cons_True by done. cbn. intros [H|[H Hb]]; [done|]. split_and!; [by right|done|].
    intros _ x'. left. lia.
  - rewrite filter_cons_False by congruence. intros H. split_and!; [by left|done|done].
Qed.

Lemma munmap_loop_at fuel s x l0 mid l3 pg lo hi :
  wf s x (l0 ++ mid ++ l3) -> Forall (fun u => covered u.2 lo hi = true) mid ->
  Forall (fun u => covered u.2 lo hi = false) l3 -> 0 <= lo -> (S (length mid) < fuel)%nat ->
  (forall r, munmap_loop fuel s pg (head (mid ++ l3).*1) lo hi = Ok r ->
     exists x' n pp, wf r.1 x' (l0 ++ (mid ≫= cut1 n pp lo hi) ++ l3)) /\
  (pages_total -> deletable x lo hi mid ->
     exists r, munmap_loop fuel s pg (head (mid ++ l3).*1) lo hi = Ok r).
Proof.
  revert fuel s x l0 pg. induction mid as [|[p a] mid IH]; intros fuel s x l0 pg H Hm H3 Hlo Hf; (destruct fuel as [|fuel]; [lia|]).
  - assert (munmap_loop (S fuel) s pg (head l3.*1) lo hi = Ok (s, pg)) as E.
    { cbn [munmap_loop]. destruct l3 as [|[q b] l3]; [done|]. cbn [head fmap list_fmap fst].
      rewrite (wf_area s x _ q b H) by set_solver. cbn [res_bind]. apply Forall_cons in H3 as [H3 _]. cbn in H3. by rewrite H3. }
    cbn [app mbind list_bind]. rewrite E. split; [|intros; by eexists]. intros r [= <-]. by exists x, 0, 0.
  - apply Forall_cons in Hm as [Hc Hm]. cbn [munmap_loop app fmap list_fmap head fst].
    rewrite (wf_area s x _ p a H) by set_solver. cbn [res_bind]. cbn in Hc. rewrite Hc. cbn [negb].
    cbn [app] in H. destruct (munmap_one_at s x l0 p a (mid ++ l3) pg lo hi H Hc Hlo) as [O1 O2].
    destruct (munmap_one s pg p lo hi) as [[[s1 pg1] nxt]|] eqn:Eo; cbn [res_bind].
    2:{ split; [done|]. intros Ht [Hd _]%deletable_cons. destruct (O2 Ht Hd). congruence. }
    destruct (O1 _ eq_refl) as (x1 & pp & Hw1 & En & Hsame). cbn [fst snd] in Hw1, En, Hsame. subst nxt.
    destruct ((a_s a <? lo) && (hi <? a_t a)) eqn:Esp.
    + assert (mid = []) as ->.
      { destruct mid as [|v mid]; [done|]. apply Forall_cons in Hm as [Hv _]. rewrite covered_iff in Hv.
        destruct (layout_starts _ l0 (p, a) (v :: mid ++ l3) v (wf_layout _ _ _ H) eq_refl) as [Hv1 _]; [set_solver|].
        cbn in Hv1. bool_facts. lia. }
      assert (munmap_loop fuel s1 pg1 (Some (heap_next s)) lo hi = Ok (s1, pg1)) as E.
      { destruct fuel as [|fuel]; [cbn in Hf; lia|]. cbn [munmap_loop].
        rewrite (wf_area s1 x1 _ (heap_next s) (a <| a_ppgs := pp |> <| a_s := hi |>) Hw1).
        2:{ unfold cut1. rewrite Hc, Esp. cbn [negb]. set_solver. }
        cbn [res_bind]. replace (covered _ lo hi) with false; [done|]. symmetry. apply not_true_iff_false.
        rewrite covered_iff. cbn. lia. }
      rewrite E. split; [|intros; by eexists]. intros r [= <-]. exists x1, (heap_next s), pp.
      cbn [mbind list_bind app fst]. rewrite app_nil_r. exact Hw1.
    + destruct (IH fuel s1 x1 (l0 ++ cut1 (heap_next s) pp lo hi (p, a)) pg1) as [I1 I2];
        [by rewrite <- app_assoc|done|done|done|cbn in Hf; lia|]. split.
      * intros r Er. destruct (I1 r Er) as (x' & n & pp' & Hw'). exists x', n, pp'. cbn [mbind list_bind].
        rewrite <- app_assoc in Hw'. rewrite <- (app_assoc (cut1 n pp' lo hi (p, a))).
        assert (cut1 n pp' lo hi (p, a) = cut1 (heap_next s) pp lo hi (p, a)) as -> by (unfold cut1; by rewrite Esp). exact Hw'.
      * intros Ht (Hd1 & Hd2 & Hd3)%deletable_cons. apply I2; [done|]. destruct (whole lo hi (p, a)) eqn:Ew.
        -- by apply Hd3.
        -- destruct (Hsame eq_refl eq_refl) as [-> _]. by apply Hd2.
Qed.

End MunmapProofs.

(** What a program sees of the mapping at an address: flags, protection, label
    and file. *)
Definition attrs (a : vm_area) : Z * Z * Z * Z := (a_flgs a, a_prot a, a_label a, a_node a).

Definition mapped (rs : list (Z * vm_area)) (va : Z) : option (Z * Z * Z * Z) :=
  (fun u => attrs u.2) <$> find (fun u => inside va u.2) rs.

Lemma find_app_pair {A : Type} (f : A -> bool) l1 l2 :
  find f (l1 ++ l2) = match find f l1 with Some p => Some p | None => find f l2 end.
Proof. induction l1 as [|p l1 IH]; cbn; [done|]. by destruct (f p). Qed.

Lemma mapped_app l1 l2 va :
  mapped (l1 ++ l2) va = match mapped l1 va with Some w => Some w | None => mapped l2 va end.
Proof. unfold mapped. rewrite find_app_pair. by destruct (find _ l1). Qed.

Lemma mapped_one p a va : mapped [(p, a)] va = if inside va a then Some (attrs a) else None.
Proof. unfold mapped. cbn. by destruct (inside va a). Qed.

Lemma mapped_cons u rs va : mapped (u :: rs) va = if inside va u.2 then Some (attrs u.2) else mapped rs va.
Proof. unfold mapped. cbn. by destruct (inside va u.2). Qed.

Lemma mapped_cut1 n pp lo hi u va :
  a_s u.2 < a_t u.2 -> lo < hi ->
  mapped (cut1 n pp lo hi u) va = if (lo <=? va) && (va <? hi) then None else mapped [u] va.
Proof.
  destruct u as [p a]. cbn [snd]. intros Ha Hlh. unfold cut1.
  destruct (covered a lo hi) eqn:Ec; cbn [negb].
  2:{ rewrite mapped_one. unfold inside. apply not_true_iff_false in Ec. rewrite covered_iff in Ec.
      destruct ((lo <=? va) && (va <? hi)) eqn:E; [|done]. bool_facts.
      replace ((a_s a <=? va) && (va <? a_t a)) with false by lia. done. }
  rewrite covered_iff in Ec. rewrite (mapped_one p a).
  destruct ((a_s a <? lo) && (hi <? a_t a)) eqn:E1; [|destruct ((lo <=? a_s a) && (a_t a <=? hi)) eqn:E2;
    [|destruct (lo <=? a_s a) eqn:E3]]; bool_facts.
  - rewrite mapped_cons, mapped_one. unfold inside, attrs. cbn.
    destruct ((lo <=? va) && (va <? hi)) eqn:E; bool_facts.
    + replace (va <? lo) with false by lia. replace (hi <=? va) with false by lia. by rewrite andb_false_r.
    + destruct ((a_s a <=? va) && (va <? lo)) eqn:E4, ((hi <=? va) && (va <? a_t a)) eqn:E5,
        ((a_s a <=? va) && (va <? a_t a)) eqn:E6; try done; lia.
  - cbn. unfold inside. destruct ((lo <=? va) && (va <? hi)) eqn:E; [done|].
    replace ((a_s a <=? va) && (va <? a_t a)) with false by lia. done.
  - rewrite mapped_one. unfold inside, attrs. cbn. destruct ((lo <=? va) && (va <? hi)) eqn:E.
    + replace ((hi <=? va) && (va <? a_t a)) with false by lia. done.
    + replace ((hi <=? va) && (va <? a_t a)) with ((a_s a <=? va) && (va <? a_t a)) by lia. done.
  - rewrite mapped_one. unfold inside, attrs. cbn. destruct ((lo <=? va) && (va <? hi)) eqn:E.
    + replace ((a_s a <=? va) && (va <? lo)) with false by lia. done.
    + replace ((a_s a <=? va) && (va <? lo)) with ((a_s a <=? va) && (va <? a_t a)) by lia. done.
Qed.

Lemma mapped_cut n pp lo hi rs va :
  Forall (fun u => 0 <= a_s u.2 < a_t u.2) rs -> lo < hi ->
  mapped (rs ≫= cut1 n pp lo hi) va = if (lo <=? va) && (va <? hi) then None else mapped rs va.
Proof.
  intros Hz Hlh. induction Hz as [|u rs Hu _ IH]; [by destruct (_ && _)|]. cbn [mbind list_bind].
  rewrite mapped_app, mapped_cut1 by (done || lia). rewrite (mapped_cons u rs), IH. destruct u as [p a]. rewrite mapped_one.
  cbn. by destruct (_ && _), (inside va a).
Qed.

Lemma mapped_outside lo hi rs va :
  Forall (fun u => covered u.2 lo hi = false) rs -> Forall (fun u => 0 <= a_s u.2 < a_t u.2) rs ->
  (lo <=? va) && (va <? hi) = true -> mapped rs va = None.
Proof.
  intros Hc Hz Hva. bool_facts. induction Hc as [|[p a] rs Hu _ IH]; [done|]. apply Forall_cons in Hz as [Hz1 Hz2]. cbn [snd] in *.
  rewrite mapped_cons, IH by done. cbn [snd]. apply not_true_iff_false in Hu. rewrite covered_iff in Hu.
  unfold inside. replace ((a_s a <=? va) && (va <? a_t a)) with false by lia. done.
Qed.

(** The areas below, in and above a range. *)
Lemma cover_split lo hi rs :
  layout rs -> Forall (fun u => lo < a_t u.2) rs ->
  exists mid l3, rs = mid ++ l3 /\ Forall (fun u => covered u.2 lo hi = true) mid /\ Forall (fun u => covered u.2 lo hi = false) l3.
Proof.
  induction rs as [|[p a] rs IH]; intros [Hs Hz] Hl; [by exists [], []|].
  apply StronglySorted_inv in Hs as [Hs Hb]. apply Forall_cons in Hz as [Hz1 Hz2]. apply Forall_cons in Hl as [Hl1 Hl2]. cbn in *.
  destruct (covered a lo hi) eqn:Ec.
  - destruct IH as (mid & l3 & -> & Hm & H3); [by split|done|]. exists ((p, a) :: mid), l3. split; [done|]. split; [by constructor|done].
  - exists [], ((p, a) :: rs). split; [done|]. split; [constructor|]. constructor; [done|].
    rewrite Forall_forall in *. intros u Hu. specialize (Hb u Hu). specialize (Hl2 u Hu). specialize (Hz2 u Hu). unfold before_area in Hb. cbn in Hb.
    apply not_true_iff_false in Ec. rewrite covered_iff in Ec. apply not_true_iff_false. rewrite covered_iff. lia.
Qed.

Lemma prev_of_split l1 l2 : NoDup (l1 ++ l2) -> prev_of (l1 ++ l2) (head l2) = last l1.
Proof.
  intros Hnd. destruct l2 as [|p l2]; cbn [head prev_of]; [by rewrite app_nil_r|].
  rewrite reverse_app, reverse_cons, <- app_assoc. cbn [app]. rewrite next_of_mid; [apply head_reverse|].
  rewrite elem_of_reverse. apply NoDup_app in Hnd as (_ & _ & [Hp _]%NoDup_cons). done.
Qed.

Lemma starts_split lo rs :
  layout rs -> exists r1 r2, rs = r1 ++ r2 /\ Forall (fun u => a_s u.2 <= lo) r1 /\ Forall (fun u => lo < a_s u.2) r2 /\
    find (fun u => lo <? a_s u.2) rs = head r2.
Proof.
  induction rs as [|[p a] rs IH]; intros [Hs Hz]; [by exists [], []|].
  apply StronglySorted_inv in Hs as [Hs Hb]. apply Forall_cons in Hz as [Hz1 Hz2]. cbn [find snd] in *.
  destruct (lo <? a_s a) eqn:E; bool_facts.
  - exists [], ((p, a) :: rs). split; [done|]. split; [constructor|]. split; [|done]. constructor; [done|].
    rewrite Forall_forall in *. intros u Hu. specialize (Hb u Hu). unfold before_area in Hb. cbn in Hb. lia.
  - destruct IH as (r1 & r2 & -> & H1 & H2 & Ef); [by split|]. exists ((p, a) :: r1), r2. split; [done|]. split; [by constructor|]. done.
Qed.

Lemma head_fmap_fst (l : list (Z * vm_area)) : fst <$> head l = head l.*1.
Proof. by destruct l. Qed.

(** Page alignment as the code tests it. *)
Lemma land_page a : Z.land a PAGE_MASK = a mod PAGE_SIZ.
Proof. apply (Z.land_ones a 12). lia. Qed.

Lemma page_aligned_lor a b : a mod PAGE_SIZ = 0 -> b mod PAGE_SIZ = 0 -> (Z.land (Z.lor a b) PAGE_MASK =? 0) = true.
Proof. intros Ha Hb. by rewrite Z.land_lor_distr_l, !land_page, Ha, Hb. Qed.

Section MunmapTop.
Context {P : Type} `{!PageUnmap P} `{!PageSplit P}.

Lemma munmap_start_at s x rs junk lo hi :
  wf s x rs -> lo < hi -> Exists (fun u => a_s u.2 <= lo) rs \/ covered junk lo hi = false ->
  exists l0 l', rs = l0 ++ l' /\ Forall (fun u => a_t u.2 <= lo) l0 /\ Forall (fun u => lo < a_t u.2) l' /\
    munmap_start s junk lo hi = Ok (head l'.*1).
Proof.
  intros H Hlh Hj. unfold munmap_start. rewrite (upperbound_at s x rs lo H). cbn [res_bind].
  pose proof (wf_nodup _ _ _ H) as Hnd. destruct (wf_layout _ _ _ H) as [Hs Hz].
  destruct (starts_split lo rs (wf_layout _ _ _ H)) as (r1 & r2 & -> & H1 & H2 & ->).
  rewrite head_fmap_fst, (wf_list _ _ _ H), fmap_app. rewrite fmap_app in Hnd. rewrite prev_of_split by done.
  rewrite Forall_app in Hz. destruct Hz as [Hz1 Hz2].
  assert (Forall (fun u => lo < a_t u.2) r2) as H2'.
  { rewrite Forall_forall in *. intros u Hu. specialize (H2 u Hu). specialize (Hz2 u Hu). lia. }
  destruct r1 as [|u r1 _] using rev_ind.
  - cbn [fmap list_fmap last res_bind app]. destruct Hj as [Hj|Hj].
    + apply Exists_exists in Hj as (u & Hu & Hle). rewrite Forall_forall in H2. specialize (H2 u Hu). lia.
    + rewrite Hj. exists [], r2. split_and!; try done.
  - destruct u as [p a]. rewrite !fmap_app. cbn [fst fmap list_fmap]. rewrite last_snoc.
    rewrite (wf_area s x _ p a H) by set_solver. cbn [res_bind].
    rewrite !StronglySorted_app in Hs. destruct Hs as (_ & (Hs & _ & _) & _).
    rewrite Forall_app, Forall_singleton in H1, Hz1. destruct H1 as [_ Hpa]. destruct Hz1 as [_ Hza]. cbn in Hpa, Hza.
    destruct (covered a lo hi) eqn:Ec.
    + rewrite covered_iff in Ec. exists r1, ((p, a) :: r2). rewrite <- app_assoc. split_and!; [done| |constructor; [cbn; lia|done]|done].
      apply Forall_forall. intros u Hu. specialize (Hs u (p, a) Hu ltac:(set_solver)). unfold before_area in Hs. cbn in Hs. lia.
    + exists (r1 ++ [(p, a)]), r2. split_and!; [done| |done|].
      * apply not_true_iff_false in Ec. rewrite covered_iff in Ec. rewrite Forall_app, Forall_singleton. cbn. split; [|lia].
        apply Forall_forall. intros u Hu. specialize (Hs u (p, a) Hu ltac:(set_solver)). unfold before_area in Hs. cbn in Hs. lia.
      * rewrite fmap_app in Hnd. cbn in Hnd. rewrite <- app_assoc in *. cbn in *. rewrite next_of_mid; [done|].
        apply NoDup_app in Hnd as (_ & Hd & _). intros Hp. apply (Hd p Hp). set_solver.
Qed.

Lemma deletable_mid x lo hi l0 mid l3 : deletable x lo hi (l0 ++ mid ++ l3) -> deletable x lo hi mid.
Proof.
  unfold deletable. rewrite !filter_app, !length_app. intros [H|[H Hb]]; [left; lia|right; split; [lia|done]].
Qed.

(** C6: [munmap] of a page-aligned range removes exactly that range from the address space.  The
    result is again a well-formed space (areas sorted, disjoint, the ring and the tree in step);
    every address in the range is unmapped and every other one keeps its flags, protection,
    label and file.  The call returns 0; it cannot fail when no area lies wholly in the range,
    or one does and the tree is balanced.  The theorem needs that an area starts at or below the
    address: otherwise the search ends at the head of the list, which [munmap] reads as if it
    were an area, and then the junk found there must not overlap the range. *)
Theorem munmap_removes_range s x rs pg junk addr len :
  wf s x rs -> 0 <= addr -> 0 < len -> addr + len < 2 ^ 64 -> addr mod PAGE_SIZ = 0 -> len mod PAGE_SIZ = 0 ->
  Exists (fun u => a_s u.2 <= addr) rs \/ covered junk addr (addr + len) = false ->
  (forall r s' pg', munmap s pg junk addr len = Ok (r, s', pg') ->
     r = 0 /\ exists x' rs', wf s' x' rs' /\
       forall va, mapped rs' va = if (addr <=? va) && (va <? addr + len) then None else mapped rs va) /\
  (pages_total -> deletable x addr (addr + len) rs -> exists s' pg', munmap s pg junk addr len = Ok (0, s', pg')).
Proof.
  intros H Ha Hl Hmax Hma Hml Hj. unfold munmap. rewrite (wrap_small 64) by lia.
  rewrite page_aligned_lor by (done || rewrite Zplus_mod, Hma, Hml; done). cbn [negb].
  replace (addr + len <=? addr) with false by lia.
  destruct (munmap_start_at s x rs junk addr (addr + len) H ltac:(lia) Hj) as (l0 & l' & -> & H0 & H1 & ->). cbn [res_bind].
  pose proof (wf_layout _ _ _ H) as [Hs Hz]. rewrite StronglySorted_app in Hs. destruct Hs as (_ & _ & Hs').
  apply Forall_app in Hz as [Hz0 Hz'].
  destruct (cover_split addr (addr + len) l' ltac:(by split) H1) as (mid & l3 & -> & Hm & H3).
  destruct (munmap_loop_at (S (S (length (sp_list s)))) s x l0 mid l3 pg addr (addr + len) H Hm H3 Ha) as [L1 L2].
  { rewrite (wf_list _ _ _ H), !fmap_app, !length_app, !length_fmap. lia. }
  destruct (munmap_loop _ s pg _ _ _) as [[s' pg']|] eqn:El; cbn [res_bind].
  2:{ split; [done|]. intros Ht Hd. destruct (L2 Ht (deletable_mid _ _ _ _ _ _ Hd)). congruence. }
  split; [|intros; by eexists _, _]. intros r s2 pg2 [= <- <- <-]. split; [done|].
  destruct (L1 _ eq_refl) as (x' & n & pp & Hw). exists x'. eexists. split; [exact Hw|]. intros va.
  apply Forall_app in Hz' as [Hzm Hz3]. rewrite !mapped_app, mapped_cut by (done || lia).
  destruct ((addr <=? va) && (va <? addr + len)) eqn:Ev; [|done].
  rewrite (mapped_outside addr (addr + len) l0), (mapped_outside addr (addr + len) l3); try done.
  eapply Forall_impl; [exact H0|]. intros u Hu. cbn in Hu. apply not_true_iff_false. rewrite covered_iff. lia.
Qed.

End MunmapTop.

(** ** Witnesses and calls in sequence *)

Definition empty_space : vm_space := VmSpace [] RBTREE_INIT ∅ 1.

Lemma wf_empty : wf empty_space E [].
Proof.
  split; [|done|done|done|constructor|split; constructor|constructor|done].
  split; [done|constructor|constructor|set_solver|done].
Qed.

(** Pages that are only counted. *)
Definition page_log : Type := list Z.

Definition log_unmap : PageUnmap page_log := fun pg _ va => Ok (va :: pg).

Definition log_split : PageSplit page_log := fun pg i => Ok (i + 1, pg).

Definition anon_area (va num : Z) : vm_area := VmArea va (va + num * PAGE_SIZ) (0x2 + MAP_ANON) 3 0 0 0 0.

Lemma munmap_removes_range_witness :
  exists s1 s2 pg x' rs', map_area empty_space (anon_area 0x1000 4) = Ok (0x1000, s1) /\
    @munmap page_log log_unmap log_split s1 [] (anon_area 0 0) 0x2000 0x1000 = Ok (0, s2, pg) /\
    wf s2 x' rs' /\ mapped rs' 0x2000 = None /\ mapped rs' 0x3000 = mapped rs' 0x1000.
Proof.
  destruct (map_area_at empty_space E [] [] (anon_area 0x1000 4) wf_empty) as ([r s1] & E1 & -> & x & Hw);
    [split; [vm_compute; discriminate|reflexivity]|constructor|constructor|]. cbn [heap_next empty_space app] in Hw.
  destruct (@munmap_removes_range page_log log_unmap log_split s1 x [(1, anon_area 0x1000 4)] [] (anon_area 0 0) 0x2000 0x1000 Hw)
    as [M1 M2]; [lia|lia|lia|done|done|left; constructor; cbn; lia|].
  destruct M2 as (s2 & pg & E2); [split; [by eexists|by eexists]|by left|].
  destruct (M1 0 s2 pg E2) as (_ & x' & rs' & Hw' & Hm).
  exists s1, s2, pg, x', rs'. split; [exact E1|]. split; [exact E2|]. split; [exact Hw'|].
  rewrite !Hm. done.
Defined.

(** an area that is mapped between its neighbours is found again: registration always
    succeeds, keeps the space well formed, and afterwards [vmm_sp_containing] returns the new
    area for exactly its addresses and for every other address what it returned before;
    [vmm_sp_lowerbound] of its start returns it. *)
Theorem mapped_area_found s x l1 l2 a :
  wf s x (l1 ++ l2) -> 0 <= a_s a < a_t a -> Forall (fun u => a_t u.2 <= a_s a) l1 -> Forall (fun u => a_t a <= a_s u.2) l2 ->
  total (map_area s a) (fun '(r, s') => r = a_s a /\ (exists x', wf s' x' (l1 ++ (heap_next s, a) :: l2)) /\
    (forall va, vmm_sp_containing s' va = if inside va a then Ok (Some (heap_next s)) else vmm_sp_containing s va) /\
    vmm_sp_lowerbound s' (a_s a) = Ok (Some (heap_next s))).
Proof.
  intros H Ha H1 H2. destruct (map_area_at s x l1 l2 a H Ha H1 H2) as ([r s'] & E & -> & x' & Hw).
  eexists. split; [exact E|]. split; [done|]. split; [by exists x'|]. 
  pose proof (lay_size _ (wf_layout _ _ _ H)) as Hz. apply Forall_app in Hz as [Hz1 Hz2]. rewrite Forall_forall in *. split.
  - intros va. rewrite (containing_at _ _ _ va Hw), (containing_at _ _ _ va H). rewrite !find_app_pair. cbn [find snd].
    destruct (inside va a) eqn:Ei; [|done]. unfold inside in *. bool_facts.
    destruct (find _ l1) as [u|] eqn:Ef; [|done]. apply find_some in Ef as [Hu Hi]. apply list_elem_of_In in Hu.
    specialize (H1 u Hu). bool_facts. lia.
  - rewrite (lowerbound_at _ _ _ _ Hw), find_app_pair. cbn [find snd]. rewrite Z.leb_refl.
    destruct (find _ l1) as [u|] eqn:Ef; [|done]. apply find_some in Ef as [Hu Hi]. apply list_elem_of_In in Hu.
    specialize (H1 u Hu). specialize (Hz1 u Hu). bool_facts. lia.
Qed.

Lemma mapped_area_found_witness :
  exists s', map_area empty_space (anon_area 0x1000 4) = Ok (0x1000, s') /\
    vmm_sp_containing s' 0x2345 = Ok (Some 1) /\ vmm_sp_containing s' 0x5000 = Ok None.
Proof.
  destruct (mapped_area_found empty_space E [] [] (anon_area 0x1000 4) wf_empty) as ([r s1] & E1 & -> & _ & Hc & _);
    [split; [vm_compute; discriminate|reflexivity]|constructor|constructor|]. exists s1. split; [exact E1|]. rewrite !Hc. done.
Defined.

Lemma descend_stuck fuel s key k x p a :
  rep (sp_tree s) (plug k x) -> ordered s (inorder x) -> (p ∈ inorder x) -> areas s !! p = Some a -> a_s a = key ->
  forall q, descend fuel s key (slot_of k) q = Fault OutOfFuel.
Proof.
  revert k x. induction fuel as [|fuel IH]; intros k x H Ho Hp Ha Hk q; [done|].
  destruct x as [|c l b r]; [set_solver|]. cbn [descend]. rewrite (slot_get_of _ _ _ H). cbn [res_bind].
  rewrite (proj2 (Z.eqb_neq _ 0) (rt_nz _ _ _ H ltac:(discriminate))). cbn [rt].
  pose proof Ho as [Hs Hz]. cbn in Hs, Hz, Hp. apply Forall_app in Hz as [Hzl [(e & He & Hze) Hzr]%Forall_cons].
  unfold area. rewrite He. cbn [deref res_bind].
  destruct (decide (p = b)) as [->|Hne].
  { assert (e = a) as -> by congruence. subst key. rewrite Z.ltb_irrefl. by eapply (IH k (T c l b r)). }
  pose proof (StronglySorted_app_1_l _ _ _ Hs) as Hsl. pose proof (StronglySorted_app_1_r _ _ _ Hs) as Hsr.
  apply StronglySorted_inv in Hsr as [Hsr Hbr]. apply elem_of_app in Hp as [Hp|Hp].
  - pose proof (StronglySorted_app_1_elem_of _ _ _ p b Hs Hp ltac:(set_solver)) as Hlt. specialize (Hlt a e Ha He). rewrite Forall_forall in Hzl.
    destruct (Hzl p Hp) as (a' & Ha' & Hsz). assert (a' = a) as -> by congruence.
    replace (a_s e <? key) with false by lia. replace (key <? a_s e) with true by lia.
    eapply (IH (FL c b r :: k) l); [exact H|split; [done|by apply Forall_forall]|done..].
  - apply elem_of_cons in Hp as [->|Hp]; [done|]. rewrite Forall_forall in Hbr. specialize (Hbr p Hp e a He Ha).
    replace (a_s e <? key) with true by lia. eapply (IH (FR c b l :: k) r); [exact H|by split|done..].
Qed.

(** registering an area that starts where another one does never returns: the descent in the
    tree has no case for equal starts and stays at the node it found, whatever the number of
    steps it is given. *)
Theorem same_start_hangs fuel s x rs v a u :
  wf s x rs -> areas s !! v = Some a -> u ∈ rs -> a_s u.2 = a_s a -> regst_with fuel s v = Fault OutOfFuel.
Proof.
  intros H Hv Hu Heq. unfold regst_with, area. rewrite Hv. cbn [deref res_bind].
  rewrite (upperbound_at s x rs (a_s a) H). cbn [res_bind]. set (s1 := s <| sp_list ::= _ |>).
  pose proof (wf_areas _ _ _ H) as Ha. rewrite Forall_forall in Ha.
  rewrite (descend_stuck fuel s1 (a_s a) [] x u.1 u.2); [done|apply H| | |by apply Ha|done].
  - change (ordered s (inorder x)). rewrite (wf_inorder _ _ _ H). by eapply wf_ordered.
  - rewrite (wf_inorder _ _ _ H). apply list_elem_of_fmap. by exists u.
Qed.

Lemma same_start_hangs_witness :
  exists s1, map_area empty_space (anon_area 0x1000 4) = Ok (0x1000, s1) /\
    forall fuel, regst_with fuel (snd (alloc_vma s1 (anon_area 0x1000 1))) (heap_next s1) = Fault OutOfFuel.
Proof.
  destruct (map_area_at empty_space E [] [] (anon_area 0x1000 4) wf_empty) as ([r s1] & E1 & -> & x & Hw);
    [split; [vm_compute; discriminate|reflexivity]|constructor|constructor|]. exists s1. split; [exact E1|]. intros fuel.
  pose proof (alloc_at s1 x _ (anon_area 0x1000 1) Hw) as Hal. cbn [alloc_vma] in *. destruct Hal as (_ & Hw1 & Ha & _).
  eapply (same_start_hangs fuel _ x _ (heap_next s1) (anon_area 0x1000 1) (heap_next empty_space, anon_area 0x1000 4) Hw1 Ha); [|done].
  cbn. set_solver.
Defined.

(** Calls in sequence: anonymous areas mapped at given addresses, and ranges unmapped. *)
Inductive vm_call := Map (va num : Z) | Unmap (va num : Z).

Definition vm_run1 (s : vm_space) (c : vm_call) : res vm_space :=
  match c with
  | Map va num => let! r := map_area s (anon_area va num) in Ok (snd r)
  | Unmap va num =>
      let! r := @munmap page_log log_unmap log_split s [] (anon_area 0 0) va (num * PAGE_SIZ) in
      Ok (snd (fst r))
  end.

Fixpoint vm_run (s : vm_space) (cs : list vm_call) : res vm_space :=
  match cs with [] => Ok s | c :: cs => let! s := vm_run1 s c in vm_run s cs end.

Definition page_at (n : Z) : Z := n * 0x10000.

Definition crash_prefix : list vm_call :=
  (fun n => if 0 <? n then Map (page_at n) 1 else Unmap (page_at (- n)) 1) <$>
    [5; 3; 8; 4; -8; 10; 13; 12; -13; 2; -12].

(** a program can bring the kernel down with valid calls.  After eight one-page areas are
    mapped at distinct addresses and three of them unmapped again, all successfully, the tree is
    no longer balanced, because the removal of a black leaf is not followed by any fixing up; the
    next [munmap], of a page that is mapped, dereferences the null sibling of a node. *)
Theorem munmap_null_dereference :
  exists s x, vm_run empty_space crash_prefix = Ok s /\ rep (sp_tree s) x /\ (forall h, ~ bal h x) /\
    vmm_sp_containing s (page_at 5) = Ok (Some 1) /\
    vm_run1 s (Unmap (page_at 5) 1) = Fault NullDeref.
Proof.
  eexists _, (T BLACK (T BLACK (T BLACK (T RED E 8 E) 2 (T RED E 4 E)) 1 E) 5 E).
  split; [vm_compute; reflexivity|]. split_and!; [| |reflexivity|vm_compute; reflexivity].
  - split; [reflexivity|repeat (constructor; [vm_compute; reflexivity|]); constructor| |cbn; set_solver|reflexivity].
    cbn. repeat (constructor; [set_solver|]). constructor.
  - intros h (m & (m1 & _ & H1 & ->) & H2 & _). cbn in *. lia.
Qed.

(** ** Copies of an address space *)

(** The same area with other page records. *)
Definition same_range (u v : Z * vm_area) : Prop := exists pp, v.2 = u.2 <| a_ppgs := pp |>.

Lemma mapped_same rs rs' va : Forall2 same_range rs rs' -> mapped rs' va = mapped rs va.
Proof.
  induction 1 as [|u v rs rs' [pp E] _ IH]; [done|]. rewrite !mapped_cons, IH, E. done.
Qed.

Section CopyProofs.
Context {P : Type} `{!PageUnmap P} `{!PageSplit P}.

Lemma copy_areas_at old s pg x done_ todo :
  (forall u, u ∈ todo -> areas old !! u.1 = Some u.2) -> layout todo ->
  (forall u v, u ∈ done_ -> v ∈ todo -> a_t u.2 <= a_s v.2) ->
  wf s x done_ -> (exists h, bal h x) -> (forall pg i, exists r, page_split pg i = Ok r) ->
  total (copy_areas old s pg todo.*1) (fun '(s', _) => exists x' rs', wf s' x' (done_ ++ rs') /\ Forall2 same_range todo rs' /\
    exists h, bal h x').
Proof.
  intros Hold Hlay Hgap Hw Hb Hsplit. revert s pg x done_ Hold Hlay Hgap Hw Hb.
  induction todo as [|[p a] todo IH]; intros s pg x done_ Hold Hlay Hgap Hw Hb.
  - cbn. apply total_Ok. exists x, []. rewrite app_nil_r. split_and!; [done|constructor|done].
  - cbn [fmap list_fmap copy_areas fst]. unfold area. specialize (Hold (p, a) ltac:(set_solver)) as Hp. cbn in Hp. rewrite Hp. cbn [deref res_bind].
    destruct (Hsplit pg (a_ppgs a)) as [[pp pg1] ->]. cbn [res_bind].
    pose proof (alloc_at s x _ (a <| a_ppgs := pp |>) Hw) as Hal. destruct (alloc_vma s _) as [na s1].
    destruct Hal as (-> & Hw1 & Hna & Hnn & Hni & Hn0 & _). rewrite <- (app_nil_r done_) in Hw1, Hni.
    destruct Hlay as [Hs Hz]. apply StronglySorted_inv in Hs as [Hs Hss]. apply Forall_cons in Hz as [Hza Hz].
    destruct (regst_at s1 x done_ [] (heap_next s) (a <| a_ppgs := pp |>) _ Hw1 Hna Hnn Hni Hn0) as (s2 & E2 & x2 & Hw2 & _ & _ & Hb2);
      [exact Hza|apply Forall_forall; intros u Hu; apply (Hgap u (p, a)); set_solver|constructor|].
    rewrite E2. cbn [res_bind].
    destruct (IH s2 pg1 x2 (done_ ++ [(heap_next s, a <| a_ppgs := pp |>)])) as ([s3 pg3] & E3 & x3 & rs' & Hw3 & Hr & Hb3).
    + intros u Hu. apply Hold. set_solver.
    + by split.
    + intros u v Hu Hv. apply elem_of_app in Hu as [Hu|Hu]; [apply Hgap; set_solver|].
      apply list_elem_of_singleton in Hu as ->. cbn. rewrite Forall_forall in Hss. apply (Hss v Hv).
    + done.
    + destruct Hb as [h Hb]. by apply (Hb2 h).
    + eexists. split; [exact E3|]. exists x3, ((heap_next s, a <| a_ppgs := pp |>) :: rs').
      rewrite <- app_assoc in Hw3. split_and!; [exact Hw3| |done]. constructor; [by exists pp|done].
Qed.

(** [fork] copies the address space: the new space always comes out, it is well formed and
    balanced, it has one area for each area of the old one with the same range, flags,
    protection, label, file and offset, and maps every address as the old one does. *)
Theorem new_space_copies s x rs next pg :
  wf s x rs -> 0 < next -> (forall pg i, exists r, page_split pg i = Ok r) ->
  total (vmm_new_space (Some s) next pg) (fun '(s', _) => exists x' rs', wf s' x' rs' /\ (exists h, bal h x') /\
    Forall2 same_range rs rs' /\ forall va, mapped rs' va = mapped rs va).
Proof.
  intros H Hn Hsplit. unfold vmm_new_space. rewrite (wf_list _ _ _ H).
  destruct (copy_areas_at s (VmSpace [] RBTREE_INIT ∅ next) pg E [] rs) as ([s' pg'] & E' & x' & rs' & Hw & Hr & Hb).
  - intros u Hu. pose proof (wf_areas _ _ _ H) as Ha. rewrite Forall_forall in Ha. by apply Ha.
  - apply H.
  - set_solver.
  - destruct wf_empty. by split.
  - by exists O.
  - done.
  - eexists. split; [exact E'|]. exists x', rs'. split_and!; try done. intros va. by apply mapped_same.
Qed.

End CopyProofs.

Lemma new_space_copies_witness :
  exists s1 r x' rs', map_area empty_space (anon_area 0x1000 4) = Ok (0x1000, s1) /\
    @vmm_new_space page_log log_split (Some s1) 100 [] = Ok r /\ wf (fst r) x' rs' /\
    mapped rs' 0x1000 = Some (0x22, 3, 0, 0).
Proof.
  destruct (map_area_at empty_space E [] [] (anon_area 0x1000 4) wf_empty) as ([r s1] & E1 & -> & x & Hw);
    [split; [vm_compute; discriminate|reflexivity]|constructor|constructor|].
  destruct (@new_space_copies page_log log_split s1 x _ 100 [] Hw) as ([s2 pg] & E2 & x' & rs' & Hw' & _ & _ & Hm);
    [done|by eexists|]. exists s1, (s2, pg), x', rs'. split; [exact E1|]. split; [exact E2|]. split; [exact Hw'|].
  rewrite Hm. reflexivity.
Defined.
