(* ===== verification/Paging.v ===== *)
(** * Page tables: [kernel/mm/map.c]

    Physical memory is a map from page addresses to their 512 words.  The
    kernel reaches the tables of the current address space through their
    recursive slot, so every access to an entry goes through the address
    translation of the processor ([hw]); the tables of other address spaces are
    reached through a window of their own (file [PvPage]), which the model
    writes as an access to the physical page. *)
From Stdlib Require Import ZArith Lia List Bool.
From stdpp Require Import base list gmap.
From S2P Require Import Prelude.

#[local] Open Scope Z_scope.

Definition PE_P : Z := 1.
Definition PE_RW : Z := 2.
Definition PE_US : Z := 4.
Definition PE_A : Z := 32.
Definition PE_D : Z := 64.
Definition PE_NX : Z := 2 ^ 63.

(** The bit that makes an entry of a level above the last one map a large page. *)
Definition PE_PS : Z := 128.

Definition R_IDX : Z := 511.

Definition FLAG (entry : Z) : Z := Z.land entry 0x7FF.

Definition ADDR (entry : Z) : Z := Z.land entry (2 ^ 64 - 1 - 0x7FF).

(** [IDX] and [ADR] *)
Definition IDX (addr level : Z) : Z := Z.land (Z.shiftr addr (level * 9 + 12)) 0x1FF.

Definition ADR (idx level : Z) : Z := Z.shiftl (Z.land idx 0x1FF) (level * 9 + 12).

(** [VRT]: the address with the given indices, sign-extended from bit 47. *)
Definition VRT (i4 i3 i2 i1 : Z) : Z :=
  Z.lor (Z.lor (Z.lor (Z.lor (Z.shiftl (if 255 <? i4 then 0xFFFF else 0) 48)
    (Z.shiftl (Z.land i4 0x1FF) 39)) (Z.shiftl (Z.land i3 0x1FF) 30))
    (Z.shiftl (Z.land i2 0x1FF) 21)) (Z.shiftl (Z.land i1 0x1FF) 12).

(** The virtual address of the table of a level that is used for [addr]. *)
Definition entryget (addr level : Z) : Z :=
  if level =? 3 then VRT R_IDX R_IDX R_IDX R_IDX
  else if level =? 2 then VRT R_IDX R_IDX R_IDX (IDX addr 3)
  else if level =? 1 then VRT R_IDX R_IDX (IDX addr 3) (IDX addr 2)
  else VRT R_IDX (IDX addr 3) (IDX addr 2) (IDX addr 1).

(** ** The machine *)

Abbreviation pmem := (gmap Z (list Z)).

(** The page frames an allocator hands out one at a time. *)
Class FramePool (F : Type) := {
  fp_alloc : F -> res (Z * F);
  fp_free : F -> Z -> res F
}.

Record mach (F : Type) := Mach { mem : pmem; cr3 : Z; pool : F }.
Arguments Mach {F}.
Arguments mem {F}.
Arguments cr3 {F}.
Arguments pool {F}.

#[export] Instance eta_mach {F : Type} : Eta (mach F) := fun m => Mach (mem m) (cr3 m) (pool m).

(** The page a table entry points to. *)
Definition frame_of (e : Z) : Z := Z.land e 0x000FFFFFFFFFF000.

Definition present (e : Z) : bool := negb (Z.land e PE_P =? 0).

Definition large (e : Z) : bool := negb (Z.land e PE_PS =? 0).

(** The entry for [va] in a table page. *)
Definition entry_at (m : pmem) (tab va : Z) (lv : nat) : option Z :=
  t ← m !! tab; t !! Z.to_nat (IDX va (Z.of_nat lv)).

(** Address translation: the physical page of [va] under the tables at [tab]. *)
Fixpoint hw_walk (m : pmem) (tab va : Z) (lv : nat) : option Z :=
  e ← entry_at m tab va lv;
  if negb (present e) then None
  else
    match lv with
    | O => Some (frame_of e)
    | S lv' =>
        if large e && (lv <=? 2)%nat
        then Some (Z.lor (frame_of e) (Z.land va (Z.shiftl 1 (Z.of_nat lv * 9 + 12) - PAGE_SIZ)))
        else hw_walk m (frame_of e) va lv'
    end.

Definition hw (m : pmem) (cr3 va : Z) : option Z := hw_walk m (frame_of cr3) va 3.

Section Paging.
Context {F : Type} `{!FramePool F}.

(** The word at a virtual address. *)
Definition pt_read (s : mach F) (va : Z) : res Z :=
  let! p := deref (hw (mem s) (cr3 s) va) in
  let! t := deref (mem s !! p) in
  aget t (Z.shiftr (Z.land va PAGE_MASK) 3).

Definition pt_write (s : mach F) (va v : Z) : res (mach F) :=
  let! p := deref (hw (mem s) (cr3 s) va) in
  let! t := deref (mem s !! p) in
  let! t := aset t (Z.shiftr (Z.land va PAGE_MASK) 3) v in
  Ok (s <| mem ::= <[p := t]> |>).

Definition zero_page : list Z := replicate 512 0.

(** [memset(page, 0, PAGE_SIZ)] *)
Definition pt_clear (s : mach F) (va : Z) : res (mach F) :=
  let! p := deref (hw (mem s) (cr3 s) va) in
  do! deref (mem s !! p) in
  Ok (s <| mem ::= <[p := zero_page]> |>).

(** ** Walks *)

(** [walk]: the virtual address of the last-level entry for [vrt]. *)
Fixpoint walk (s : mach F) (vrt flgs : Z) (lv : nat) (create : bool) : res (option Z * mach F) :=
  let slot := entryget vrt (Z.of_nat lv) + 8 * IDX vrt (Z.of_nat lv) in
  match lv with
  | O => Ok (Some slot, s)
  | S lv' =>
      let! e := pt_read s slot in
      let! r := (if negb (present e) then
                   if negb create then Ok None
                   else
                     let! a := fp_alloc (pool s) in
                     let '(new, f) := a in
                     let s := s <| pool := f |> in
                     do! ASSERTK (negb (new =? 0)) in
                     let! s := pt_write s slot (Z.lor (Z.lor (ADDR new) PE_RW) PE_P) in
                     let! s := pt_clear s (entryget vrt (Z.of_nat lv')) in
                     Ok (Some s)
                 else Ok (Some s)) in
      match r with
      | None => Ok (None, s)
      | Some s =>
          let! s := (if create && negb (Z.land flgs PE_US =? 0)
                     then let! e := pt_read s slot in pt_write s slot (Z.lor e PE_US)
                     else Ok s) in
          walk s vrt flgs lv' create
      end
  end.

(** [vmap_map]: the flags are an [int], so that [PE_NX] never arrives. *)
Fixpoint vmap_map (n : nat) (s : mach F) (phy vrt flgs : Z) : res (mach F) :=
  match n with
  | O => Ok s
  | S n =>
      let! r := walk s vrt flgs 3 true in
      let! entry := deref (fst r) in
      let! s := pt_write (snd r) entry (Z.lor (ADDR phy) (FLAG (i32 flgs))) in
      vmap_map n s (u64 (phy + PAGE_SIZ)) (u64 (vrt + PAGE_SIZ)) flgs
  end.

Fixpoint vmap_unmap (n : nat) (s : mach F) (vrt : Z) : res (mach F) :=
  match n with
  | O => Ok s
  | S n =>
      let! r := walk s vrt 0 3 true in
      let! entry := deref (fst r) in
      let! s := pt_write (snd r) entry 0 in
      vmap_unmap n s (u64 (vrt + PAGE_SIZ))
  end.

Fixpoint qry_walk (s : mach F) (vrt : Z) (lv : nat) : res Z :=
  let! entry := pt_read s (entryget vrt (Z.of_nat lv) + 8 * IDX vrt (Z.of_nat lv)) in
  if negb (present entry) then Ok 0
  else
    let off := Z.land vrt (Z.shiftl 1 (Z.of_nat lv * 9 + 12) - 1) in
    match lv with
    | O => Ok (Z.lor (ADDR entry) off)
    | S lv' =>
        if negb (lv =? 3)%nat && large entry then Ok (Z.lor (ADDR entry) off)
        else qry_walk s vrt lv'
    end.

Definition vmap_query (s : mach F) (vrt : Z) : res Z := qry_walk s vrt 3.

(** ** Whole tables *)

(** The words of a physical page, through its window. *)
Definition page_words (s : mach F) (p : Z) : res (list Z) := deref (mem s !! p).

Definition new_pgt (s : mach F) : res (Z * mach F) :=
  let! a := fp_alloc (pool s) in
  let '(npg, f) := a in
  let s := s <| pool := f |> in
  do! page_words s npg in
  let! kernel := page_words s (frame_of (cr3 s)) in
  let t := replicate 256 0 ++ drop 256 kernel in
  let! t := aset t R_IDX (Z.lor (Z.lor (ADDR npg) PE_RW) PE_P) in
  Ok (npg, s <| mem ::= <[npg := t]> |>).

(** The loop of [_copy_pgt] over the entries of a page from index [i] on: the
    page [pg] and its copy [npg] in memory, [copy] for the next level. *)
Fixpoint copy_entries (copy : mach F -> Z -> res (Z * mach F)) (last : bool) (n : nat) (i : Z)
    (s : mach F) (pg npg : Z) : res (mach F) :=
  match n with
  | O => Ok s
  | S n =>
      let! new := page_words s npg in
      let! e := aget new i in
      let! s :=
        (if e =? 0 then Ok s
         else if last then
           let! old := page_words s pg in
           let! o := aget old i in
           let o := Z.land o (2 ^ 64 - 1 - PE_RW) in
           let! old := aset old i o in
           let s := s <| mem ::= <[pg := old]> |> in
           let! new := page_words s npg in
           let! new := aset new i o in
           Ok (s <| mem ::= <[npg := new]> |>)
         else
           let! r := copy s (ADDR e) in
           let '(paddr, s) := r in
           let! new := page_words s npg in
           let! e := aget new i in
           let! new := aset new i (Z.lor (FLAG e) (ADDR paddr)) in
           Ok (s <| mem ::= <[npg := new]> |>)) in
      copy_entries copy last n (i + 1) s pg npg
  end.

(** [_copy_pgt] at the levels [L_PT] (0) to [L_PML4] (3). *)
Fixpoint _copy_pgt (lv : nat) (s : mach F) (pg : Z) : res (Z * mach F) :=
  let! a := fp_alloc (pool s) in
  let '(npg, f) := a in
  let s := s <| pool := f |> in
  let! old := page_words s pg in
  do! page_words s npg in
  let s := s <| mem ::= <[npg := old]> |> in
  let copy := match lv with O => fun _ _ => Fault OutOfFuel | S lv => _copy_pgt lv end in
  let! s := copy_entries copy (lv =? 0)%nat (if (lv =? 3)%nat then 256 else 512) 0 s pg npg in
  let! s :=
    (if (lv =? 3)%nat then
       let! new := page_words s npg in
       let! new := aset new R_IDX (Z.lor (Z.lor (ADDR npg) PE_RW) PE_P) in
       Ok (s <| mem ::= <[npg := new]> |>)
     else Ok s) in
  Ok (npg, s).

Definition copy_pgt (s : mach F) (ppgt : Z) : res (Z * mach F) := _copy_pgt 3 s ppgt.

(** The loop of [clear] over the entries of a page; [clear] is the call for the
    level below. *)
Fixpoint clear_entries (clear : mach F -> Z -> res (mach F)) (es : list Z) (s : mach F) : res (mach F) :=
  match es with
  | [] => Ok s
  | e :: es =>
      let! s := (if present e then clear s (ADDR e) else Ok s) in
      clear_entries clear es s
  end.

Definition free_frame (s : mach F) (pa : Z) : res (mach F) :=
  let! f := fp_free (pool s) pa in Ok (s <| pool := f |>).

(** [clear]: the pages below a table, then the table itself.  Below the last
    level ([L_PG]) the mapped page itself is freed. *)
Fixpoint clear (lv : nat) (s : mach F) (pa : Z) : res (mach F) :=
  let! t := page_words s pa in
  let next := match lv with O => free_frame | S lv => clear lv end in
  let! s := clear_entries next (take (if (lv =? 3)%nat then 256 else 512) t) s in
  free_frame s pa.

Definition clear_pgt (s : mach F) (ppgt : Z) : res (mach F) := clear 3 s ppgt.

(** [scan_dirty_walk]: the addresses the callback is called with. *)
Fixpoint scan_dirty_walk (s : mach F) (a b vrt : Z) (lv : nat) : res (list Z) :=
  let sidx := IDX a (Z.of_nat lv) in
  let tidx := IDX b (Z.of_nat lv) in
  let tab := entryget vrt (Z.of_nat lv) in
  let tidx := if tidx =? 0 then 511 else tidx in
  (fix go (n : nat) (idx : Z) : res (list Z) :=
     match n with
     | O => Ok []
     | S n =>
         let! e := pt_read s (tab + 8 * idx) in
         let! here :=
           (if Z.land e PE_A =? 0 then Ok []
            else if negb (present e) then Ok []
            else match lv with
                 | O => Ok (if Z.land e PE_D =? 0 then [] else [vrt])
                 | S lv => scan_dirty_walk s a b (Z.lor vrt (ADR idx (Z.of_nat (S lv)))) lv
                 end) in
         let! rest := go n (idx + 1) in
         Ok (here ++ rest)
     end) (Z.to_nat (tidx - sidx + 1)) sidx.

Definition vmap_scan_dirty (s : mach F) (a b : Z) : res (list Z) := scan_dirty_walk s a b 0 3.

End Paging.

(** ** Arithmetic of table indices *)

Lemma IDX_eq va lv : 0 <= lv -> IDX va lv = va / 2 ^ (lv * 9 + 12) mod 512.
Proof.
  intros H. unfold IDX. change 0x1FF with (Z.ones 9). rewrite Z.land_ones by lia.
  by rewrite Z.shiftr_div_pow2 by lia.
Qed.

Lemma IDX_range va lv : 0 <= lv -> 0 <= IDX va lv < 512.
Proof. intros H. rewrite IDX_eq by done. apply Z.mod_pos_bound. lia. Qed.

Lemma lor_add x y n : 0 <= n -> x mod 2 ^ n = 0 -> 0 <= y < 2 ^ n -> Z.lor x y = x + y.
Proof.
  intros Hn Hx Hy. assert (Z.land x y = 0) as E.
  { apply Z.bits_inj'. intros i Hi. rewrite Z.land_spec, Z.bits_0. destruct (Z.lt_ge_cases i n).
    - rewrite <- (Z.mod_pow2_bits_low x n i) by lia. by rewrite Hx, Z.bits_0.
    - replace y with (y mod 2 ^ n) by (apply Z.mod_small; lia). rewrite Z.mod_pow2_bits_high by lia. by rewrite andb_false_r. }
  by rewrite Z.add_nocarry_lxor, Z.lxor_lor.
Qed.

Lemma VRT_eq i4 i3 i2 i1 :
  0 <= i4 < 512 -> 0 <= i3 < 512 -> 0 <= i2 < 512 -> 0 <= i1 < 512 ->
  VRT i4 i3 i2 i1 = (if 255 <? i4 then 0xFFFF else 0) * 2 ^ 48 + i4 * 2 ^ 39 + i3 * 2 ^ 30 + i2 * 2 ^ 21 + i1 * 2 ^ 12.
Proof.
  intros H4 H3 H2 H1. unfold VRT. change 0x1FF with (Z.ones 9). rewrite !Z.land_ones by lia.
  rewrite !(Z.mod_small _ (2 ^ 9)) by lia. rewrite !Z.shiftl_mul_pow2 by lia.
  set (h := if 255 <? i4 then 0xFFFF else 0).
  rewrite (lor_add (h * 2 ^ 48) (i4 * 2 ^ 39) 48) by (lia || dlia).
  rewrite (lor_add (h * 2 ^ 48 + i4 * 2 ^ 39) (i3 * 2 ^ 30) 39) by (lia || dlia).
  rewrite (lor_add (h * 2 ^ 48 + i4 * 2 ^ 39 + i3 * 2 ^ 30) (i2 * 2 ^ 21) 30) by (lia || dlia).
  rewrite (lor_add (h * 2 ^ 48 + i4 * 2 ^ 39 + i3 * 2 ^ 30 + i2 * 2 ^ 21) (i1 * 2 ^ 12) 21) by (lia || dlia).
  reflexivity.
Qed.

(** The indices of an address in a table page. *)
Lemma VRT_idx i4 i3 i2 i1 o :
  0 <= i4 < 512 -> 0 <= i3 < 512 -> 0 <= i2 < 512 -> 0 <= i1 < 512 -> 0 <= o < 512 ->
  let va := VRT i4 i3 i2 i1 + 8 * o in
  IDX va 3 = i4 /\ IDX va 2 = i3 /\ IDX va 1 = i2 /\ IDX va 0 = i1 /\ Z.shiftr (Z.land va PAGE_MASK) 3 = o.
Proof.
  intros H4 H3 H2 H1 Ho. cbn zeta. rewrite VRT_eq by done. set (h := if 255 <? i4 then 0xFFFF else 0).
  assert (0 <= h) by (unfold h; destruct (255 <? i4); lia).
  rewrite !IDX_eq by lia. change PAGE_MASK with (Z.ones 12). rewrite Z.land_ones, Z.shiftr_div_pow2 by lia.
  cbn [Z.mul Z.add Z.pow Z.pow_pos Pos.iter Pos.mul Pos.add].
  split_and!; dlia.
Qed.

(** ** Tables by depth

    [tab m c3 va d] is the page of the table that is used for [va] at depth [d]
    below the root [c3], found by following the entries directly. *)

Definition usable (e : Z) : bool := present e && negb (large e).

Fixpoint tab (m : pmem) (c3 va : Z) (d : nat) : option Z :=
  match d with
  | O => Some c3
  | S d =>
      t ← tab m c3 va d;
      e ← entry_at m t va (3 - d);
      if usable e then Some (frame_of e) else None
  end.

(** The recursive slot of the root. *)
Definition rec_ok (m : pmem) (c3 : Z) : Prop :=
  exists w e, m !! c3 = Some w /\ w !! Z.to_nat R_IDX = Some e /\ usable e = true /\ frame_of e = c3.

Lemma usable_spec e : usable e = true -> present e = true /\ large e = false.
Proof. unfold usable. intros. bool_facts. done. Qed.

(** One step of the translation at an entry that points to a table. *)
Lemma hw_step m t va lv e r :
  entry_at m t va (S lv) = Some e -> usable e = true -> hw_walk m (frame_of e) va lv = r ->
  hw_walk m t va (S lv) = r.
Proof.
  intros He [Hp Hl]%usable_spec Hr. cbn [hw_walk]. rewrite He. cbn [mbind option_bind]. by rewrite Hp, Hl.
Qed.

Lemma hw_last m t va e : entry_at m t va 0 = Some e -> present e = true -> hw_walk m t va 0 = Some (frame_of e).
Proof. intros He Hp. cbn [hw_walk]. rewrite He. cbn [mbind option_bind]. by rewrite Hp. Qed.

Lemma tab_S m c3 va d t : tab m c3 va (S d) = Some t ->
  exists t' e, tab m c3 va d = Some t' /\ entry_at m t' va (3 - d) = Some e /\ usable e = true /\ t = frame_of e.
Proof.
  cbn [tab]. destruct (tab m c3 va d) as [t'|]; cbn [mbind option_bind]; [|done].
  destruct (entry_at m t' va (3 - d)) as [e|] eqn:E; cbn [mbind option_bind]; [|done].
  destruct (usable e) eqn:Eu; [|done]. intros [= <-]. by exists t', e.
Qed.

Lemma entry_idx m t va va' (lv lv' : nat) :
  IDX va (Z.of_nat lv) = IDX va' (Z.of_nat lv') -> entry_at m t va lv = entry_at m t va' lv'.
Proof. unfold entry_at. by intros ->. Qed.

(** Through the recursive slot the kernel sees the table at each depth. *)
Lemma rec_hw m c3 va d i t :
  rec_ok m c3 -> (d <= 3)%nat -> tab m c3 va d = Some t -> 0 <= i < 512 ->
  hw_walk m c3 (entryget va (Z.of_nat (3 - d)) + 8 * i) 3 = Some t.
Proof.
  intros (w & e & Hw & He & Hu & Hf) Hd Ht Hi.
  assert (forall va' (lv : nat), IDX va' (Z.of_nat lv) = 511 -> entry_at m c3 va' lv = Some e) as Hr.
  { intros va' lv Hix. unfold entry_at. rewrite Hw, Hix. exact He. }
  pose proof (IDX_range va 3 ltac:(lia)) as R3. pose proof (IDX_range va 2 ltac:(lia)) as R2. pose proof (IDX_range va 1 ltac:(lia)) as R1.
  destruct d as [|[|[|[|d]]]]; [| | | |lia]; cbn [Nat.sub].
  - cbn in Ht. injection Ht as <-. change (entryget va (Z.of_nat 3)) with (VRT R_IDX R_IDX R_IDX R_IDX).
    destruct (VRT_idx R_IDX R_IDX R_IDX R_IDX i) as (X3 & X2 & X1 & X0 & _); [unfold R_IDX; lia..|done|].
    eapply hw_step; [by apply Hr|done|]. rewrite Hf. eapply hw_step; [by apply Hr|done|]. rewrite Hf.
    eapply hw_step; [by apply Hr|done|]. rewrite Hf. rewrite (hw_last _ _ _ e); [by rewrite Hf|by apply Hr|by apply usable_spec].
  - apply tab_S in Ht as (t' & e3 & [= <-] & E3 & U3 & ->).
    change (entryget va (Z.of_nat 2)) with (VRT R_IDX R_IDX R_IDX (IDX va 3)).
    destruct (VRT_idx R_IDX R_IDX R_IDX (IDX va 3) i) as (X3 & X2 & X1 & X0 & _); [unfold R_IDX; lia..|done|done|].
    eapply hw_step; [by apply Hr|done|]. rewrite Hf. eapply hw_step; [by apply Hr|done|]. rewrite Hf.
    eapply hw_step; [by apply Hr|done|]. rewrite Hf. rewrite (hw_last _ _ _ e3); [done| |by apply usable_spec].
    rewrite <- E3. by apply entry_idx.
  - apply tab_S in Ht as (t2 & e2 & (t' & e3 & [= <-] & E3 & U3 & ->)%tab_S & E2 & U2 & ->).
    change (entryget va (Z.of_nat 1)) with (VRT R_IDX R_IDX (IDX va 3) (IDX va 2)).
    destruct (VRT_idx R_IDX R_IDX (IDX va 3) (IDX va 2) i) as (X3 & X2 & X1 & X0 & _); [unfold R_IDX; lia..|done|done|done|].
    eapply hw_step; [by apply Hr|done|]. rewrite Hf. eapply hw_step; [by apply Hr|done|]. rewrite Hf.
    eapply hw_step; [rewrite <- E3; by apply entry_idx|done|].
    rewrite (hw_last _ _ _ e2); [done| |by apply usable_spec]. rewrite <- E2. by apply entry_idx.
  - apply tab_S in Ht as (t1 & e1 & (t2 & e2 & (t' & e3 & [= <-] & E3 & U3 & ->)%tab_S & E2 & U2 & ->)%tab_S & E1 & U1 & ->).
    change (entryget va (Z.of_nat 0)) with (VRT R_IDX (IDX va 3) (IDX va 2) (IDX va 1)).
    destruct (VRT_idx R_IDX (IDX va 3) (IDX va 2) (IDX va 1) i) as (X3 & X2 & X1 & X0 & _); [unfold R_IDX; lia..|done|done|done|done|].
    eapply hw_step; [by apply Hr|done|]. rewrite Hf.
    eapply hw_step; [rewrite <- E3; by apply entry_idx|done|]. eapply hw_step; [rewrite <- E2; by apply entry_idx|done|].
    rewrite (hw_last _ _ _ e1); [done| |by apply usable_spec]. rewrite <- E1. by apply entry_idx.
Qed.

(** ** Writes to one table *)

(** Two addresses that use the same entries down to depth [d]. *)
Definition agree (va va' : Z) (d : nat) : Prop :=
  forall j : nat, (j < d)%nat -> IDX va (Z.of_nat (3 - j)) = IDX va' (Z.of_nat (3 - j)).

(** Addresses outside the recursive slot. *)
Definition plain (va : Z) : Prop := IDX va 3 <> R_IDX.

Definition put_entry (m : pmem) (t : Z) (w : list Z) (i v : Z) : pmem := <[t := <[Z.to_nat i := v]> w]> m.

Record tabs_ok (m : pmem) (c3 : Z) : Prop := {
  tk_rec : rec_ok m c3;
  tk_words : forall p w, m !! p = Some w -> length w = 512%nat;
  tk_mem : forall va d t, plain va -> (d <= 3)%nat -> tab m c3 va d = Some t -> is_Some (m !! t);
  tk_sep : forall va va' d d' t, plain va -> plain va' -> (d <= 3)%nat -> (d' <= 3)%nat ->
    tab m c3 va d = Some t -> tab m c3 va' d' = Some t -> d = d' /\ agree va va' d
}.

Lemma agree_le va va' d d' : agree va va' d -> (d' <= d)%nat -> agree va va' d'.
Proof. intros H Hle j Hj. apply H. lia. Qed.

Lemma agree_sym va va' d : agree va va' d -> agree va' va d.
Proof. intros H j Hj. symmetry. by apply H. Qed.

Lemma agree_S va va' d :
  agree va va' (S d) <-> agree va va' d /\ IDX va (Z.of_nat (3 - d)) = IDX va' (Z.of_nat (3 - d)).
Proof.
  split.
  - intros H. split; [apply (agree_le _ _ (S d)); [done|lia]|]. apply H. lia.
  - intros [H He] j Hj. destruct (decide (j = d)) as [->|]; [done|]. apply H. lia.
Qed.

#[export] Instance agree_dec va va' d : Decision (agree va va' d).
Proof.
  induction d as [|d IH]; [left; intros j Hj; lia|].
  destruct IH; [destruct (decide (IDX va (Z.of_nat (3 - d)) = IDX va' (Z.of_nat (3 - d))))|].
  - left. by apply agree_S.
  - right. by intros [_ ?]%agree_S.
  - right. by intros [? _]%agree_S.
Defined.

Lemma tab_agree m c3 va va' d : agree va va' d -> tab m c3 va d = tab m c3 va' d.
Proof.
  induction d as [|d IH]; [done|]. intros [Ha Hi]%agree_S. cbn [tab]. rewrite (IH Ha).
  destruct (tab m c3 va' d); cbn [mbind option_bind]; [|done]. by rewrite (entry_idx _ _ va va' _ _ Hi).
Qed.

Lemma entry_put_ne m t w i v t' va lv :
  m !! t = Some w -> t' <> t \/ IDX va (Z.of_nat lv) <> i -> 0 <= i ->
  entry_at (put_entry m t w i v) t' va lv = entry_at m t' va lv.
Proof.
  intros Hw Hne Hi. unfold entry_at, put_entry. destruct (decide (t' = t)) as [->|Ht].
  - destruct Hne as [?|Hne]; [done|]. rewrite lookup_insert, Hw. case_decide; [|done]. cbn [mbind option_bind].
    apply list_lookup_insert_ne. pose proof (IDX_range va (Z.of_nat lv)). lia.
  - by rewrite lookup_insert_ne by congruence.
Qed.

Lemma entry_put_eq m t w v va lv :
  length w = 512%nat ->
  entry_at (put_entry m t w (IDX va (Z.of_nat lv)) v) t va lv = Some v.
Proof.
  intros Hl. unfold entry_at, put_entry. rewrite lookup_insert. case_decide; [|done]. cbn [mbind option_bind].
  apply list_lookup_insert_eq. pose proof (IDX_range va (Z.of_nat lv)). lia.
Qed.

Section Put.
Context (m : pmem) (c3 va : Z) (d : nat) (t : Z) (w : list Z) (v : Z).
Context (Hok : tabs_ok m c3) (Hva : plain va) (Hd : (d <= 3)%nat) (Ht : tab m c3 va d = Some t) (Hw : m !! t = Some w).

#[local] Abbreviation m' := (put_entry m t w (IDX va (Z.of_nat (3 - d))) v).

(** A write to the entry for [va] at depth [d] leaves the tables of the
    addresses that do not use this entry, and of all addresses down to [d]. *)
Lemma tab_put_ne va' d' :
  plain va' -> (d' <= 3)%nat -> (d' <= d)%nat \/ ~ agree va va' (S d) -> tab m' c3 va' d' = tab m c3 va' d'.
Proof.
  intros Hp. induction d' as [|d' IH]; intros Hd' Hn; [done|]. cbn [tab]. rewrite IH; [|lia|destruct Hn; [left; lia|by right]].
  destruct (tab m c3 va' d') as [t'|] eqn:Et; cbn [mbind option_bind]; [|done].
  rewrite entry_put_ne; [done|done| |apply IDX_range; lia].
  destruct (decide (t' = t)) as [->|]; [right|by left].
  destruct (tk_sep _ _ Hok va va' d d' t Hva Hp Hd ltac:(lia) Ht Et) as [<- Ha].
  intros Hi. destruct Hn as [|Hn]; [lia|]. apply Hn. apply agree_S. by split.
Qed.

Lemma rec_put : rec_ok m' c3.
Proof.
  destruct (tk_rec _ _ Hok) as (w0 & e & Hw0 & He & Hu & Hf).
  destruct (decide (t = c3)) as [->|Hne].
  - exists (<[Z.to_nat (IDX va (Z.of_nat (3 - d))) := v]> w), e. unfold put_entry. rewrite lookup_insert.
    case_decide; [|done]. assert (w = w0) as -> by congruence. split_and!; try done.
    assert (d = 0%nat) as Hd0.
    { destruct (tk_sep _ _ Hok va va d 0%nat c3) as [? _]; [done..|lia|done|done|done]. }
    subst d. rewrite list_lookup_insert_ne; [done|]. change (Z.of_nat (3 - 0)) with 3. unfold plain in Hva.
    pose proof (IDX_range va 3). unfold R_IDX in *. lia.
  - exists w0, e. unfold put_entry. by rewrite lookup_insert_ne by congruence.
Qed.

Lemma words_put p w1 : m' !! p = Some w1 -> length w1 = 512%nat.
Proof.
  unfold put_entry. rewrite lookup_insert. case_decide.
  - intros [= <-]. rewrite length_insert. by apply (tk_words _ _ Hok t).
  - apply (tk_words _ _ Hok).
Qed.

Lemma mem_put p : is_Some (m !! p) -> is_Some (m' !! p).
Proof. intros [x Hx]. unfold put_entry. rewrite lookup_insert. case_decide; [by eexists|by exists x]. Qed.

(** The tables below the written entry are those below the page it names. *)
Lemma tab_put_next va' :
  (d < 3)%nat -> plain va' -> agree va va' (S d) ->
  tab m' c3 va' (S d) = if usable v then Some (frame_of v) else None.
Proof.
  intros Hlt Hp Ha. cbn [tab]. rewrite tab_put_ne by (done || lia || left; lia).
  apply agree_S in Ha as [Ha Hi]. rewrite <- (tab_agree m c3 va va' d Ha), Ht. cbn [mbind option_bind].
  rewrite Hi, entry_put_eq by (by eapply tk_words). done.
Qed.

End Put.

Lemma tabs_ok_same m m' c3 :
  tabs_ok m c3 -> rec_ok m' c3 -> (forall p w, m' !! p = Some w -> length w = 512%nat) ->
  (forall p, is_Some (m !! p) -> is_Some (m' !! p)) ->
  (forall va d, plain va -> (d <= 3)%nat -> tab m' c3 va d = tab m c3 va d) -> tabs_ok m' c3.
Proof.
  intros Hok Hr Hw Hm Ht. split; [done|done| |].
  - intros va d t Hp Hd. rewrite Ht by done. intros H. apply Hm. by eapply (tk_mem _ _ Hok).
  - intros va va' d d' t Hp Hp' Hd Hd'. rewrite !Ht by done. by apply (tk_sep _ _ Hok).
Qed.

(** Writing an entry that still names the same table, or a last-level entry,
    changes no table. *)
Lemma put_leaf m c3 va t w v :
  tabs_ok m c3 -> plain va -> tab m c3 va 3 = Some t -> m !! t = Some w ->
  let m' := put_entry m t w (IDX va 0) v in
  tabs_ok m' c3 /\ (forall va' d', plain va' -> (d' <= 3)%nat -> tab m' c3 va' d' = tab m c3 va' d').
Proof.
  intros Hok Hp Ht Hw. cbn zeta.
  assert (forall va' d', plain va' -> (d' <= 3)%nat -> tab (put_entry m t w (IDX va 0) v) c3 va' d' = tab m c3 va' d') as Hsame.
  { intros. apply (tab_put_ne m c3 va 3 t w v Hok Hp (le_n _) Ht Hw); (done || lia || by left). }
  split; [|done]. apply (tabs_ok_same m); [done| | | |done].
  - exact (rec_put m c3 va 3 t w v Hok Hp (le_n _) Ht Hw).
  - exact (words_put m c3 va 3 t w v Hok Hw).
  - exact (mem_put m va 3 t w v).
Qed.

Lemma put_same m c3 va d t w e v :
  tabs_ok m c3 -> plain va -> (d < 3)%nat -> tab m c3 va d = Some t -> m !! t = Some w ->
  entry_at m t va (3 - d) = Some e -> usable e = true -> usable v = true -> frame_of v = frame_of e ->
  let m' := put_entry m t w (IDX va (Z.of_nat (3 - d))) v in
  tabs_ok m' c3 /\ (forall va' d', plain va' -> (d' <= 3)%nat -> tab m' c3 va' d' = tab m c3 va' d').
Proof.
  intros Hok Hp Hd Ht Hw He Hu Hv Hf. cbn zeta. set (m' := put_entry _ _ _ _ _).
  assert (Hle : (d <= 3)%nat) by lia.
  assert (forall va' d', plain va' -> (d' <= 3)%nat -> tab m' c3 va' d' = tab m c3 va' d') as Hsame.
  { intros va' d' Hp'. destruct (decide (agree va va' (S d))) as [Ha|Ha].
    2: { intros. apply (tab_put_ne m c3 va d t w v Hok Hp Hle Ht Hw); (done || by right). }
    induction d' as [|d' IH]; intros Hd'; [done|].
    destruct (decide (d' < d)%nat) as [|Hge].
    { apply (tab_put_ne m c3 va d t w v Hok Hp Hle Ht Hw); (done || left; lia). }
    destruct (decide (d' = d)) as [->|Hne].
    - unfold m'. rewrite (tab_put_next m c3 va d t w v Hok Hp Hle Ht Hw va' Hd Hp' Ha), Hv, Hf. cbn [tab].
      apply agree_S in Ha as [Ha Hi]. rewrite <- (tab_agree _ _ _ _ _ Ha), Ht. cbn [mbind option_bind].
      rewrite <- (entry_idx _ _ va va' _ _ Hi), He. cbn [mbind option_bind]. by rewrite Hu.
    - cbn [tab]. rewrite IH by lia. destruct (tab m c3 va' d') as [t'|] eqn:Et; cbn [mbind option_bind]; [|done].
      unfold m'. rewrite entry_put_ne; [done|done| |apply IDX_range; lia]. left. intros ->.
      destruct (tk_sep _ _ Hok va va' d d' t) as [? _]; (done || lia). }
  split; [|done]. apply (tabs_ok_same m); [done| | | |done].
  - exact (rec_put m c3 va d t w v Hok Hp Hle Ht Hw).
  - exact (words_put m c3 va d t w v Hok Hw).
  - exact (mem_put m va d t w v).
Qed.

(** ** A new table *)

Lemma tab_clear_ne m c3 va d p :
  (forall d', (d' < d)%nat -> tab m c3 va d' <> Some p) -> tab (<[p := zero_page]> m) c3 va d = tab m c3 va d.
Proof.
  induction d as [|d IH]; intros Hn; [done|]. cbn [tab]. rewrite IH by (intros; apply Hn; lia).
  destruct (tab m c3 va d) as [t|] eqn:Et; cbn [mbind option_bind]; [|done].
  unfold entry_at. rewrite lookup_insert_ne; [done|]. intros <-. exact (Hn d ltac:(lia) Et).
Qed.

Lemma entry_clear m p va lv : entry_at (<[p := zero_page]> m) p va lv = Some 0.
Proof.
  unfold entry_at. rewrite lookup_insert. case_decide; [|done]. cbn [mbind option_bind]. unfold zero_page.
  apply lookup_replicate_2. pose proof (IDX_range va (Z.of_nat lv)). lia.
Qed.

Section Install.
Context (m : pmem) (c3 va : Z) (d : nat) (t : Z) (w : list Z) (v new : Z).
Context (Hok : tabs_ok m c3) (Hva : plain va) (Hd : (d < 3)%nat) (Ht : tab m c3 va d = Some t) (Hw : m !! t = Some w).
Context (Hv : usable v = true) (Hf : frame_of v = new) (Hnew : is_Some (m !! new)).
Context (Hfresh : forall va' d', plain va' -> (d' <= 3)%nat -> tab m c3 va' d' <> Some new).

#[local] Abbreviation m1 := (put_entry m t w (IDX va (Z.of_nat (3 - d))) v).
#[local] Abbreviation m2 := (<[new := zero_page]> m1).

Lemma install_ne va' d' :
  plain va' -> (d' <= 3)%nat -> (d' <= d)%nat \/ ~ agree va va' (S d) -> tab m2 c3 va' d' = tab m c3 va' d'.
Proof.
  assert (Hle : (d <= 3)%nat) by lia. intros Hp Hd' Hn.
  assert (forall d'', (d'' <= d')%nat -> tab m1 c3 va' d'' = tab m c3 va' d'') as H1.
  { intros d'' Hlt. apply (tab_put_ne m c3 va d t w v Hok Hva Hle Ht Hw); [done|lia|]. destruct Hn; [left; lia|by right]. }
  rewrite tab_clear_ne; [by apply H1|]. intros d'' Hlt. rewrite H1 by lia. apply Hfresh; (done || lia).
Qed.

Lemma install_eq va' : plain va' -> agree va va' (S d) -> tab m2 c3 va' (S d) = Some new.
Proof.
  assert (Hle : (d <= 3)%nat) by lia. intros Hp Ha. rewrite tab_clear_ne.
  - rewrite (tab_put_next m c3 va d t w v Hok Hva Hle Ht Hw va') by (done || lia). by rewrite Hv, Hf.
  - intros d' Hlt. rewrite (tab_put_ne m c3 va d t w v Hok Hva Hle Ht Hw) by (done || lia || left; lia).
    apply Hfresh; (done || lia).
Qed.

Lemma install_below va' d' :
  plain va' -> agree va va' (S d) -> (S d < d')%nat -> tab m2 c3 va' d' = None.
Proof.
  intros Hp Ha Hlt. induction d' as [|d' IH]; [lia|]. cbn [tab].
  destruct (decide (d' = S d)) as [->|Hne].
  - rewrite install_eq by done. cbn [mbind option_bind]. rewrite entry_clear. reflexivity.
  - rewrite IH by lia. reflexivity.
Qed.

Lemma install_cases va' d' t' :
  plain va' -> (d' <= 3)%nat -> tab m2 c3 va' d' = Some t' ->
  (tab m c3 va' d' = Some t' /\ t' <> new) \/ (t' = new /\ d' = S d /\ agree va va' (S d)).
Proof.
  intros Hp Hd'. destruct (decide (agree va va' (S d))) as [Ha|Ha]; [destruct (decide (d' <= d)%nat) as [Hle|Hgt]|].
  1,3: rewrite install_ne by (done || (by left) || (by right)); left; split; [done|]; intros ->; by eapply Hfresh.
  destruct (decide (d' = S d)) as [->|Hne].
  - rewrite install_eq by done. intros [= <-]. right. done.
  - rewrite install_below by (done || lia). done.
Qed.

Lemma install_mem p : is_Some (m !! p) -> is_Some (m2 !! p).
Proof.
  intros Hp. rewrite lookup_insert. case_decide; [by eexists|]. by apply (mem_put m va d t w v).
Qed.

Lemma install_ok : tabs_ok m2 c3.
Proof.
  assert (Hle : (d <= 3)%nat) by lia. split.
  - destruct (rec_put m c3 va d t w v Hok Hva Hle Ht Hw) as (w0 & e & Hw0 & He & Hrest).
    exists w0, e. split; [|done]. rewrite lookup_insert_ne; [done|]. intros ->.
    by apply (Hfresh va 0%nat Hva); [lia|].
  - intros p w1. rewrite lookup_insert. case_decide; [by intros [= <-]|]. exact (words_put m c3 va d t w v Hok Hw p w1).
  - intros va' d' t' Hp Hd' Ht'. apply install_mem.
    destruct (install_cases va' d' t' Hp Hd' Ht') as [[H _]|[-> _]]; [|done]. by eapply (tk_mem _ _ Hok).
  - intros va1 va2 d1 d2 t' Hp1 Hp2 Hd1 Hd2 H1 H2.
    destruct (install_cases va1 d1 t' Hp1 Hd1 H1) as [[E1 N1]|(E1 & -> & A1)];
    destruct (install_cases va2 d2 t' Hp2 Hd2 H2) as [[E2 N2]|(E2 & -> & A2)]; try congruence.
    + by apply (tk_sep _ _ Hok va1 va2 d1 d2 t').
    + split; [done|]. intros j Hj. rewrite <- (A1 j Hj). by apply A2.
Qed.

End Install.

(** ** Entries *)

(** A page address a table entry can hold. *)
Definition frame (p : Z) : Prop := frame_of p = p.

Lemma present_bit e : present e = Z.testbit e 0.
Proof.
  unfold present, PE_P. change 1 with (Z.ones 1). rewrite Z.land_ones by lia.
  rewrite Z.bit0_odd, Zmod_odd. by destruct (Z.odd e).
Qed.

Lemma large_bit e : large e = Z.testbit e 7.
Proof.
  unfold large, PE_PS. change 128 with (2 ^ 7).
  destruct (Z.testbit e 7) eqn:E.
  - apply negb_true_iff, Z.eqb_neq. intros H. assert (Z.testbit (Z.land e (2 ^ 7)) 7 = false) as H1 by by rewrite H, Z.bits_0.
    rewrite Z.land_spec, E, Z.pow2_bits_true in H1 by lia. done.
  - apply negb_false_iff, Z.eqb_eq. apply Z.bits_inj'. intros i Hi. rewrite Z.land_spec, Z.bits_0, Z.pow2_bits_eqb by lia.
    destruct (Z.eqb_spec 7 i) as [<-|]; [by rewrite E|by rewrite andb_false_r].
Qed.

Lemma frame_bit p i : frame p -> Z.testbit p i = Z.testbit p i && Z.testbit 0x000FFFFFFFFFF000 i.
Proof. intros H. rewrite <- Z.land_spec. fold (frame_of p). by rewrite H. Qed.

Lemma land_land_mask x a b c : Z.land a b = c -> Z.land (Z.land x a) b = Z.land x c.
Proof. intros <-. by rewrite Z.land_assoc. Qed.

Lemma frame_ADDR p : frame p -> ADDR p = p.
Proof.
  intros H. unfold ADDR. transitivity (Z.land (frame_of p) (2 ^ 64 - 1 - 0x7FF)); [by rewrite H|]. unfold frame_of. rewrite (land_land_mask _ _ _ 0x000FFFFFFFFFF000) by reflexivity. exact H.
Qed.

Lemma frame_of_low p f : frame p -> frame_of (Z.lor p (Z.land f 0x7FF)) = p.
Proof.
  intros H. unfold frame_of. rewrite Z.land_lor_distr_l, (land_land_mask _ _ _ 0) by reflexivity.
  rewrite Z.land_0_r, Z.lor_0_r. exact H.
Qed.

Lemma ADDR_low p f : frame p -> ADDR (Z.lor p (Z.land f 0x7FF)) = p.
Proof.
  intros H. unfold ADDR. rewrite Z.land_lor_distr_l, (land_land_mask f _ _ 0) by reflexivity.
  rewrite Z.land_0_r, Z.lor_0_r. by apply frame_ADDR.
Qed.

Lemma FLAG_low p f : frame p -> FLAG (Z.lor p (Z.land f 0x7FF)) = Z.land f 0x7FF.
Proof.
  intros H. unfold FLAG. rewrite Z.land_lor_distr_l, (land_land_mask f _ _ 0x7FF) by reflexivity.
  replace (Z.land p 0x7FF) with 0; [by rewrite Z.lor_0_l|]. rewrite <- H. unfold frame_of.
  rewrite (land_land_mask p _ _ 0) by reflexivity. by rewrite Z.land_0_r.
Qed.

(** The entry [walk] makes for a new table. *)
Lemma table_entry p : frame p ->
  usable (Z.lor (Z.lor (ADDR p) PE_RW) PE_P) = true /\ frame_of (Z.lor (Z.lor (ADDR p) PE_RW) PE_P) = p.
Proof.
  intros H. rewrite frame_ADDR by done. rewrite <- Z.lor_assoc. change (Z.lor PE_RW PE_P) with (Z.land 3 0x7FF).
  split; [|by apply frame_of_low]. unfold usable. rewrite present_bit, large_bit, !Z.lor_spec.
  rewrite (frame_bit p 0), (frame_bit p 7) by done. cbn. by rewrite !andb_false_r.
Qed.

Lemma user_entry e : usable e = true -> usable (Z.lor e PE_US) = true /\ frame_of (Z.lor e PE_US) = frame_of e.
Proof.
  intros [Hp Hl]%usable_spec. rewrite present_bit in Hp. rewrite large_bit in Hl. split.
  - unfold usable. rewrite present_bit, large_bit, !Z.lor_spec, Hp, Hl. reflexivity.
  - unfold frame_of. rewrite Z.land_lor_distr_l. change (Z.land PE_US 0x000FFFFFFFFFF000) with 0. apply Z.lor_0_r.
Qed.

(** ** The address space seen by the processor *)

(** What the tables promise to hold of a supply of page frames: [fp_has] are the
    frames it can still hand out and [fp_stock f n] says that [n] more
    allocations succeed. *)
Class FrameLaws (F : Type) `{!FramePool F} := {
  fp_has : F -> Z -> Prop;
  fp_stock : F -> nat -> Prop;
  fp_alloc_ok : forall f n, fp_stock f (S n) -> exists p f',
    fp_alloc f = Ok (p, f') /\ fp_has f p /\ p <> 0 /\ frame p /\ fp_stock f' n /\
    (forall q, fp_has f' q -> fp_has f q /\ q <> p);
  fp_stock_le : forall f n n', fp_stock f n -> (n' <= n)%nat -> fp_stock f n'
}.

(** The present last-level entry for an address. *)
Definition pte (m : pmem) (c3 va : Z) : option Z :=
  t ← tab m c3 va 3; e ← entry_at m t va 0; if present e then Some e else None.

(** No large page on the way to [va]. *)
Definition small (m : pmem) (c3 va : Z) : Prop :=
  forall d t e, (d < 3)%nat -> tab m c3 va d = Some t -> entry_at m t va (3 - d) = Some e -> present e = true -> large e = false.

Lemma hw_pte m c3 va : small m c3 va -> hw_walk m c3 va 3 = frame_of <$> pte m c3 va.
Proof.
  intros Hs. unfold pte.
  assert (forall d t, (d < 3)%nat -> tab m c3 va d = Some t ->
    hw_walk m t va (3 - d) = t' ← tab m c3 va (S d); hw_walk m t' va (2 - d)) as Hstep.
  { intros d t Hd Ht. cbn [tab]. rewrite Ht. cbn [mbind option_bind]. replace (3 - d)%nat with (S (2 - d)) by lia. cbn [hw_walk].
    replace (S (2 - d)) with (3 - d)%nat by lia. destruct (entry_at m t va (3 - d)) as [e|] eqn:E; cbn [mbind option_bind]; [|done].
    unfold usable. destruct (present e) eqn:Ep; cbn [negb andb]; [|done]. rewrite (Hs d t e Hd Ht E Ep). cbn [negb andb]. done. }
  change 3%nat with (3 - 0)%nat at 1. rewrite (Hstep 0%nat c3) by (done || lia).
  destruct (tab m c3 va 1) as [t1|] eqn:E1; cbn [mbind option_bind].
  2: { cbn [tab] in *. by rewrite E1. }
  change (2 - 0)%nat with (3 - 1)%nat. rewrite (Hstep 1%nat t1) by (done || lia).
  destruct (tab m c3 va 2) as [t2|] eqn:E2; cbn [mbind option_bind].
  2: { change (tab m c3 va 3) with (t ← tab m c3 va 2; e ← entry_at m t va (3 - 2); if usable e then Some (frame_of e) else None). by rewrite E2. }
  change (2 - 1)%nat with (3 - 2)%nat. rewrite (Hstep 2%nat t2) by (done || lia).
  destruct (tab m c3 va 3) as [t3|]; cbn [mbind option_bind]; [|done]. cbn [hw_walk Nat.sub].
  destruct (entry_at m t3 va 0) as [e|]; cbn [mbind option_bind]; [|done]. by destruct (present e).
Qed.

Lemma tab_None_le m c3 va d d' : tab m c3 va d = None -> (d <= d')%nat -> tab m c3 va d' = None.
Proof.
  intros H Hle. induction d' as [|d' IH]; [by replace 0%nat with d by lia|].
  destruct (decide (d = S d')) as [->|]; [done|]. cbn [tab]. by rewrite IH by lia.
Qed.

Lemma entry_put_cases m t w i v t' va lv e :
  m !! t = Some w -> 0 <= i -> entry_at (put_entry m t w i v) t' va lv = Some e ->
  (t' = t /\ e = v) \/ entry_at m t' va lv = Some e.
Proof.
  intros Hw Hi. destruct (decide (t' = t)) as [->|]; [|rewrite entry_put_ne by (done || by left); by right].
  destruct (decide (IDX va (Z.of_nat lv) = i)) as [<-|]; [|rewrite entry_put_ne by (done || by right); by right].
  unfold entry_at, put_entry. rewrite lookup_insert, Hw. case_decide; [|done]. cbn [mbind option_bind].
  rewrite list_lookup_insert. case_decide; [intros [= <-]; by left|]. by right.
Qed.

Section InstallMaps.
Context (m : pmem) (c3 va : Z) (d : nat) (t : Z) (w : list Z) (e v new : Z).
Context (Hok : tabs_ok m c3) (Hva : plain va) (Hd : (d < 3)%nat) (Ht : tab m c3 va d = Some t) (Hw : m !! t = Some w).
Context (He : entry_at m t va (3 - d) = Some e) (Hpr : present e = false).
Context (Hv : usable v = true) (Hf : frame_of v = new).
Context (Hfresh : forall va' d', plain va' -> (d' <= 3)%nat -> tab m c3 va' d' <> Some new).

#[local] Abbreviation m1 := (put_entry m t w (IDX va (Z.of_nat (3 - d))) v).
#[local] Abbreviation m2 := (<[new := zero_page]> m1).
#[local] Abbreviation cases := (install_cases m c3 va d t w v new Hok Hva Hd Ht Hw Hv Hf Hfresh).

Lemma entry_clear_ne p t' va' lv mm : t' <> p -> entry_at (<[p := zero_page]> mm) t' va' lv = entry_at mm t' va' lv.
Proof. intros Hne. unfold entry_at. by rewrite lookup_insert_ne by done. Qed.

Lemma install_pte va' : plain va' -> pte m2 c3 va' = pte m c3 va'.
Proof using All.
  intros Hp. unfold pte. destruct (decide (agree va va' (S d))) as [Ha|Ha].
  - assert (tab m c3 va' 3 = None) as Hnone.
    { apply (tab_None_le _ _ _ (S d)); [|lia]. rewrite <- (tab_agree _ _ _ _ _ Ha). cbn [tab]. rewrite Ht. cbn [mbind option_bind].
      rewrite He. cbn [mbind option_bind]. unfold usable. by rewrite Hpr. }
    rewrite Hnone. destruct (tab m2 c3 va' 3) as [t'|] eqn:Et; cbn [mbind option_bind]; [|done].
    destruct (cases va' 3%nat t' Hp (le_n _) Et) as [[H _]|(-> & _)]; [congruence|]. by rewrite entry_clear.
  - rewrite (install_ne m c3 va d t w v new Hok Hva Hd Ht Hw Hfresh) by (done || lia || by right).
    destruct (tab m c3 va' 3) as [t'|] eqn:Et; cbn [mbind option_bind]; [|done].
    rewrite entry_clear_ne by (intros ->; exact (Hfresh va' 3%nat Hp (le_n _) Et)). rewrite entry_put_ne; [done|done| |apply IDX_range; lia].
    left. intros ->. destruct (tk_sep _ _ Hok va va' d 3%nat t) as [? _]; (done || lia).
Qed.

Lemma install_small va' : plain va' -> small m c3 va' -> small m2 c3 va'.
Proof using Hok Hva Hd Ht Hw Hv Hf Hfresh.
  intros Hp Hsm d' t' e' Hd' Ht' He' Hp'.
  destruct (cases va' d' t' Hp ltac:(lia) Ht') as [[H Hne]|(-> & _)].
  - rewrite entry_clear_ne in He' by done.
    destruct (entry_put_cases _ _ _ _ _ _ _ _ _ Hw (proj1 (IDX_range va (Z.of_nat (3 - d)) ltac:(lia))) He') as [[-> ->]|He1].
    + by apply usable_spec in Hv as [_ ?].
    + by eapply Hsm.
  - rewrite entry_clear in He'. by injection He' as <-.
Qed.

End InstallMaps.

Section Space.
Context {F : Type} `{FL : FrameLaws F}.

#[local] Abbreviation root s := (frame_of (cr3 s)).

Record space_ok (s : mach F) : Prop := {
  so_tabs : tabs_ok (mem s) (root s);
  so_fresh : forall p, fp_has (pool s) p ->
    is_Some (mem s !! p) /\ forall va d, plain va -> (d <= 3)%nat -> tab (mem s) (root s) va d <> Some p
}.

Lemma slot_offset va d i : (d <= 3)%nat -> 0 <= i < 512 ->
  Z.shiftr (Z.land (entryget va (Z.of_nat (3 - d)) + 8 * i) PAGE_MASK) 3 = i.
Proof.
  intros Hd Hi. pose proof (IDX_range va 3 ltac:(lia)). pose proof (IDX_range va 2 ltac:(lia)). pose proof (IDX_range va 1 ltac:(lia)).
  destruct d as [|[|[|[|d]]]]; [| | | |lia]; 
    [apply (VRT_idx R_IDX R_IDX R_IDX R_IDX)|apply (VRT_idx R_IDX R_IDX R_IDX (IDX va 3))
    |apply (VRT_idx R_IDX R_IDX (IDX va 3) (IDX va 2))|apply (VRT_idx R_IDX (IDX va 3) (IDX va 2) (IDX va 1))]; unfold R_IDX; lia.
Qed.

Lemma read_slot s va d t w i e :
  space_ok s -> (d <= 3)%nat -> tab (mem s) (root s) va d = Some t -> mem s !! t = Some w -> 0 <= i < 512 ->
  w !! Z.to_nat i = Some e -> pt_read s (entryget va (Z.of_nat (3 - d)) + 8 * i) = Ok e.
Proof.
  intros Hs Hd Ht Hw Hi He. unfold pt_read, hw. rewrite (rec_hw _ _ _ _ _ t); [|apply (so_tabs _ Hs)|done..].
  cbn [deref res_bind]. rewrite Hw. cbn [deref res_bind]. rewrite slot_offset by done. apply aget_Ok. split; [lia|done].
Qed.

Lemma write_slot s va d t w i v :
  space_ok s -> (d <= 3)%nat -> tab (mem s) (root s) va d = Some t -> mem s !! t = Some w -> 0 <= i < 512 ->
  pt_write s (entryget va (Z.of_nat (3 - d)) + 8 * i) v = Ok (Mach (put_entry (mem s) t w i v) (cr3 s) (pool s)).
Proof.
  intros Hs Hd Ht Hw Hi. unfold pt_write, hw. rewrite (rec_hw _ _ _ _ _ t); [|apply (so_tabs _ Hs)|done..].
  cbn [deref res_bind]. rewrite Hw. cbn [deref res_bind]. rewrite slot_offset by done.
  pose proof (tk_words _ _ (so_tabs _ Hs) t w Hw). rewrite aset_lt by lia. reflexivity.
Qed.

(** A step of a walk adds empty tables and changes no translation. *)
Record grown (s s' : mach F) : Prop := {
  gr_ok : space_ok s';
  gr_cr3 : cr3 s' = cr3 s;
  gr_pte : forall va, plain va -> pte (mem s') (root s) va = pte (mem s) (root s) va;
  gr_small : forall va, plain va -> small (mem s) (root s) va -> small (mem s') (root s) va
}.

Lemma grown_refl s : space_ok s -> grown s s.
Proof. by split. Qed.

Lemma grown_trans s1 s2 s3 : grown s1 s2 -> grown s2 s3 -> grown s1 s3.
Proof.
  intros [O1 C1 P1 S1] [O2 C2 P2 S2]. rewrite C1 in P2, S2. split; [done|congruence| |].
  - intros va Hp. by rewrite P2, P1.
  - intros va Hp H. by apply S2, S1.
Qed.

(** Marking a table as accessible to user programs. *)
Lemma grown_user s va d t w e :
  space_ok s -> plain va -> (d < 3)%nat -> tab (mem s) (root s) va d = Some t -> mem s !! t = Some w ->
  entry_at (mem s) t va (3 - d) = Some e -> usable e = true ->
  grown s (Mach (put_entry (mem s) t w (IDX va (Z.of_nat (3 - d))) (Z.lor e PE_US)) (cr3 s) (pool s)) /\
  (forall d', (d' <= 3)%nat -> tab (put_entry (mem s) t w (IDX va (Z.of_nat (3 - d))) (Z.lor e PE_US)) (root s) va d' = tab (mem s) (root s) va d').
Proof.
  intros Hs Hp Hd Ht Hw He Hu. destruct (user_entry e Hu) as [Hv Hf].
  destruct (put_same (mem s) (root s) va d t w e _ (so_tabs _ Hs) Hp Hd Ht Hw He Hu Hv Hf) as [Hok Hsame].
  pose proof (IDX_range va (Z.of_nat (3 - d)) ltac:(lia)) as Hi.
  split; [|intros; by apply Hsame]. split; [|done| |]; cbn [mem cr3 pool].
  - split; [done|]. cbn [mem cr3 pool]. intros p Hh. destruct (so_fresh _ Hs p Hh) as [Hm Hn]. split.
    + by apply (mem_put (mem s) va d t w).
    + intros va' d' Hp' Hd'. rewrite Hsame by done. by apply Hn.
  - intros va' Hp'. unfold pte. rewrite Hsame by (done || lia). destruct (tab (mem s) (root s) va' 3) as [t'|] eqn:Et; cbn [mbind option_bind]; [|done].
    rewrite entry_put_ne; [done|done| |lia]. left. intros ->.
    destruct (tk_sep _ _ (so_tabs _ Hs) va va' d 3%nat t) as [? _]; (done || lia).
  - intros va' Hp' Hsm d' t' e' Hd'. rewrite Hsame by (done || lia). intros Ht' He' Hpr.
    destruct (entry_put_cases _ _ _ _ _ _ _ _ _ Hw (proj1 Hi) He') as [[-> ->]|He1]; [by apply usable_spec in Hv as [_ ?]|].
    by eapply Hsm.
Qed.

(** Linking a new, empty table. *)
Lemma grown_table s va d t w e new f' :
  space_ok s -> plain va -> (d < 3)%nat -> tab (mem s) (root s) va d = Some t -> mem s !! t = Some w ->
  entry_at (mem s) t va (3 - d) = Some e -> present e = false ->
  fp_has (pool s) new -> frame new -> (forall q, fp_has f' q -> fp_has (pool s) q /\ q <> new) ->
  let v := Z.lor (Z.lor (ADDR new) PE_RW) PE_P in
  let m2 := <[new := zero_page]> (put_entry (mem s) t w (IDX va (Z.of_nat (3 - d))) v) in
  grown s (Mach m2 (cr3 s) f') /\ tab m2 (root s) va (S d) = Some new.
Proof.
  intros Hs Hp Hd Ht Hw He Hpr Hh Hfr Hq. cbn zeta. destruct (table_entry new Hfr) as [Hv Hf].
  destruct (so_fresh _ Hs new Hh) as [Hm Hn]. set (v := Z.lor _ PE_P) in *. pose proof (so_tabs _ Hs) as Hok.
  split; [|by apply (install_eq (mem s) (root s) va d t w v new Hok Hp Hd Ht Hw Hv Hf Hn)].
  split; [split|done| |]; cbn [mem cr3 pool].
  - by apply (install_ok (mem s) (root s) va d t w v new Hok Hp Hd Ht Hw Hv Hf Hm Hn).
  - intros q Hq'. destruct (Hq q Hq') as [Hhq Hne]. destruct (so_fresh _ Hs q Hhq) as [Hmq Hnq]. split.
    + by apply (install_mem (mem s) va d t w v new).
    + intros va' d' Hp' Hd' Hc.
      destruct (install_cases (mem s) (root s) va d t w v new Hok Hp Hd Ht Hw Hv Hf Hn va' d' q Hp' Hd' Hc) as [[H _]|[? _]]; [|done].
      by eapply Hnq.
  - by apply (install_pte (mem s) (root s) va d t w e v new Hok Hp Hd Ht Hw He Hpr Hv Hf Hn).
  - by apply (install_small (mem s) (root s) va d t w v new Hok Hp Hd Ht Hw Hv Hf Hn).
Qed.

Lemma clear_slot (s : mach F) va d t :
  rec_ok (mem s) (root s) -> (d <= 3)%nat -> tab (mem s) (root s) va d = Some t -> is_Some (mem s !! t) ->
  pt_clear s (entryget va (Z.of_nat (3 - d))) = Ok (Mach (<[t := zero_page]> (mem s)) (cr3 s) (pool s)).
Proof.
  intros Hr Hd Ht [w Hw]. unfold pt_clear, hw.
  pose proof (rec_hw _ _ va d 0 t Hr Hd Ht ltac:(lia)) as H. rewrite Z.mul_0_r, Z.add_0_r in H. rewrite H.
  cbn [deref res_bind]. by rewrite Hw.
Qed.

Lemma entry_get s va d t :
  space_ok s -> plain va -> (d <= 3)%nat -> tab (mem s) (root s) va d = Some t ->
  exists w e, mem s !! t = Some w /\ w !! Z.to_nat (IDX va (Z.of_nat (3 - d))) = Some e /\ entry_at (mem s) t va (3 - d) = Some e.
Proof.
  intros Hs Hp Hd Ht. destruct (tk_mem _ _ (so_tabs _ Hs) va d t Hp Hd Ht) as [w Hw].
  pose proof (tk_words _ _ (so_tabs _ Hs) t w Hw). pose proof (IDX_range va (Z.of_nat (3 - d)) ltac:(lia)).
  destruct (lookup_lt_is_Some_2 w (Z.to_nat (IDX va (Z.of_nat (3 - d))))) as [e He]; [lia|].
  exists w, e. split_and!; [done|done|]. unfold entry_at. rewrite Hw. exact He.
Qed.

(** One level of [walk]: afterwards the next table exists. *)
Lemma walk_table s vrt d t n :
  space_ok s -> plain vrt -> (d < 3)%nat -> small (mem s) (root s) vrt -> tab (mem s) (root s) vrt d = Some t ->
  fp_stock (pool s) (S n) ->
  let slot := entryget vrt (Z.of_nat (3 - d)) + 8 * IDX vrt (Z.of_nat (3 - d)) in
  exists e, pt_read s slot = Ok e /\
  total (if negb (present e) then
           let! a := fp_alloc (pool s) in
           let '(new, f) := a in
           let s := s <| pool := f |> in
           do! ASSERTK (negb (new =? 0)) in
           let! s := pt_write s slot (Z.lor (Z.lor (ADDR new) PE_RW) PE_P) in
           let! s := pt_clear s (entryget vrt (Z.of_nat (2 - d))) in
           Ok (Some s)
         else Ok (Some s))
    (fun r => exists s', r = Some s' /\ grown s s' /\ is_Some (tab (mem s') (root s) vrt (S d)) /\
       tab (mem s') (root s) vrt d = Some t /\ fp_stock (pool s') n).
Proof.
  intros Hs Hp Hd Hsm Ht Hn. cbn zeta. destruct (entry_get s vrt d t Hs Hp ltac:(lia) Ht) as (w & e & Hw & He & Hea).
  pose proof (IDX_range vrt (Z.of_nat (3 - d)) ltac:(lia)) as Hi.
  exists e. split; [apply (read_slot s vrt d t w); (done || lia)|]. destruct (present e) eqn:Ep; cbn [negb].
  - apply total_Ok. exists s. split_and!; [done|by apply grown_refl| |done|by eapply fp_stock_le; [|apply Nat.le_succ_diag_r]].
    cbn [tab]. rewrite Ht. cbn [mbind option_bind]. rewrite Hea. cbn [mbind option_bind]. unfold usable.
    rewrite Ep, (Hsm d t e Hd Ht Hea Ep). by eexists.
  - destruct (fp_alloc_ok _ _ Hn) as (new & f' & -> & Hh & Hz & Hfr & Hst & Hq). cbn [res_bind].
    rewrite (proj2 (Z.eqb_neq new 0) Hz). cbn [negb ASSERTK res_bind].
    destruct (so_fresh _ Hs new Hh) as [Hm Hnf]. destruct (table_entry new Hfr) as [Hv Hf].
    assert (forall q, fp_has f' q -> fp_has (pool s) q) as Hsub by (intros q [? _]%Hq; done).
    set (s1 := s <| pool := f' |>).
    assert (space_ok s1) as Hs1 by (split; [apply Hs|]; intros q ?%Hsub; by apply (so_fresh _ Hs)).
    rewrite (write_slot s1 vrt d t w) by (done || lia). cbn [res_bind].
    change (mem s1) with (mem s). change (cr3 s1) with (cr3 s). change (pool s1) with f'.
    set (s2 := Mach (put_entry _ _ _ _ _) _ _).
    assert (tab (mem s2) (root s2) vrt (S d) = Some new) as Hnext.
    { cbn [s2 mem cr3]. rewrite (tab_put_next (mem s) (root s) vrt d t w _ (so_tabs _ Hs)) by (done || lia). by rewrite Hv, Hf. }
    pose proof (clear_slot s2 vrt (S d) new) as Hc. change (3 - S d)%nat with (2 - d)%nat in Hc. rewrite Hc; clear Hc; [|..].
    + cbn [res_bind]. apply total_Ok. eexists. split; [done|].
      destruct (grown_table s vrt d t w e new f') as [Hg Ht2]; [done..|]. split; [exact Hg|]. cbn [mem pool]. split_and!; [by eexists| |done].
      etransitivity; [|exact Ht]. apply (install_ne (mem s) (root s) vrt d t w _ new (so_tabs _ Hs)); (done || lia || left; lia).
    + apply (rec_put (mem s) (root s) vrt d t w _ (so_tabs _ Hs)); (done || lia).
    + lia.
    + done.
    + by apply (mem_put (mem s) vrt d t w).
Qed.

Lemma walk_user s vrt d t flgs :
  space_ok s -> plain vrt -> (d < 3)%nat -> tab (mem s) (root s) vrt d = Some t -> is_Some (tab (mem s) (root s) vrt (S d)) ->
  let slot := entryget vrt (Z.of_nat (3 - d)) + 8 * IDX vrt (Z.of_nat (3 - d)) in
  total (if true && negb (Z.land flgs PE_US =? 0)
         then let! e := pt_read s slot in pt_write s slot (Z.lor e PE_US) else Ok s)
    (fun s' => grown s s' /\ pool s' = pool s /\ is_Some (tab (mem s') (root s) vrt (S d))).
Proof.
  intros Hs Hp Hd Ht [t' Ht']. cbn zeta. cbn [andb].
  destruct (negb _); [|apply total_Ok; split_and!; [by apply grown_refl|done|by eexists]].
  destruct (entry_get s vrt d t Hs Hp ltac:(lia) Ht) as (w & e & Hw & He & Hea).
  pose proof (IDX_range vrt (Z.of_nat (3 - d)) ltac:(lia)) as Hi.
  rewrite (read_slot s vrt d t w _ e) by (done || lia). cbn [res_bind].
  rewrite (write_slot s vrt d t w) by (done || lia). apply total_Ok.
  assert (usable e = true) as Hu.
  { apply tab_S in Ht' as (t2 & e2 & E1 & E2 & E3 & _). congruence. }
  destruct (grown_user s vrt d t w e) as [Hg Hsame]; [done..|]. split_and!; [done|done|]. cbn [mem]. rewrite Hsame by lia. by eexists.
Qed.

Lemma walk_ok vrt flgs lv : forall s t n,
  (lv <= 3)%nat -> space_ok s -> plain vrt -> small (mem s) (root s) vrt -> tab (mem s) (root s) vrt (3 - lv) = Some t ->
  fp_stock (pool s) (lv + n) ->
  total (walk s vrt flgs lv true) (fun r =>
    fst r = Some (entryget vrt 0 + 8 * IDX vrt 0) /\ grown s (snd r) /\
    is_Some (tab (mem (snd r)) (root s) vrt 3) /\ fp_stock (pool (snd r)) n).
Proof.
  induction lv as [|lv IH]; intros s t n Hlv Hs Hp Hsm Ht Hn.
  { apply total_Ok. cbn [fst snd]. split_and!; [done|by apply grown_refl|by eexists|done]. }
  cbn [walk]. destruct (walk_table s vrt (3 - S lv) t (lv + n) Hs Hp ltac:(lia) Hsm Ht Hn) as (e & He & Htab).
  replace (3 - (3 - S lv))%nat with (S lv) in He, Htab by lia. replace (2 - (3 - S lv))%nat with lv in Htab by lia.
  rewrite He. cbn [res_bind negb]. eapply total_bind; [exact Htab|].
  intros r (s1 & -> & G1 & T1 & T0 & N1). cbn beta iota.
  rewrite <- (gr_cr3 _ _ G1) in T1, T0.
  pose proof (walk_user s1 vrt (3 - S lv) t flgs (gr_ok _ _ G1) Hp ltac:(lia) T0 T1) as Hus.
  cbn zeta in Hus. replace (3 - (3 - S lv))%nat with (S lv) in Hus by lia.
  eapply total_bind; [exact Hus|]. intros s2 (G2 & P2 & T2).
  pose proof (grown_trans _ _ _ G1 G2) as G. replace (S (3 - S lv)) with (3 - lv)%nat in T2 by lia. destruct T2 as [t2 T2].
  rewrite <- (gr_cr3 _ _ G2) in T2. rewrite <- P2 in N1.
  eapply total_mono; [apply (IH s2 t2 n); [lia|apply G|done| |done|done]|].
  - rewrite (gr_cr3 _ _ G). by apply (gr_small _ _ G).
  - intros r (-> & G3 & T3 & N3). rewrite (gr_cr3 _ _ G) in T3. split_and!; [done| |done|done]. by eapply grown_trans.
Qed.

End Space.

(** ** Mapping and unmapping pages *)

Definition page_no (va : Z) : Z := (va / PAGE_SIZ) mod 2 ^ 36.

Lemma page_no_idx va : page_no va = IDX va 3 * 2 ^ 27 + IDX va 2 * 2 ^ 18 + IDX va 1 * 2 ^ 9 + IDX va 0.
Proof.
  unfold page_no. change PAGE_SIZ with 4096. rewrite !IDX_eq by lia.
  cbn [Z.mul Z.add Z.pow Z.pow_pos Pos.iter Pos.mul Pos.add]. dlia.
Qed.

Lemma agree_page va va' : agree va va' 4 <-> page_no va = page_no va'.
Proof.
  rewrite !page_no_idx. pose proof (fun l => IDX_range va l) as R. pose proof (fun l => IDX_range va' l) as R'.
  pose proof (R 0 ltac:(lia)). pose proof (R 1 ltac:(lia)). pose proof (R 2 ltac:(lia)). pose proof (R 3 ltac:(lia)).
  pose proof (R' 0 ltac:(lia)). pose proof (R' 1 ltac:(lia)). pose proof (R' 2 ltac:(lia)). pose proof (R' 3 ltac:(lia)). clear R R'.
  split.
  - intros Hag. pose proof (Hag 0%nat ltac:(lia)) as E3. pose proof (Hag 1%nat ltac:(lia)) as E2.
    pose proof (Hag 2%nat ltac:(lia)) as E1. pose proof (Hag 3%nat ltac:(lia)) as E0. 
    change (IDX va 0 = IDX va' 0) in E0. change (IDX va 1 = IDX va' 1) in E1. change (IDX va 2 = IDX va' 2) in E2. change (IDX va 3 = IDX va' 3) in E3. lia.
  - intros Hpg j Hj. destruct j as [|[|[|[|j]]]]; [| | | |lia];
      [change (IDX va 3 = IDX va' 3)|change (IDX va 2 = IDX va' 2)|change (IDX va 1 = IDX va' 1)|change (IDX va 0 = IDX va' 0)]; lia.
Qed.

Lemma plain_page va va' : page_no va = page_no va' -> plain va -> plain va'.
Proof. intros H%agree_page Hp. unfold plain in *. pose proof (H 0%nat ltac:(lia)) as E. change (IDX va 3 = IDX va' 3) in E. by rewrite <- E. Qed.

Lemma page_no_ne vrt k j : 0 <= k -> k < j -> j - k < 2 ^ 36 -> page_no (vrt + k * PAGE_SIZ) <> page_no (vrt + j * PAGE_SIZ).
Proof. unfold page_no. change PAGE_SIZ with 4096. rewrite !Z.div_add by lia. intros. dlia. Qed.

Lemma page_no_off vrt k o : (PAGE_SIZ | vrt) -> 0 <= o < PAGE_SIZ -> page_no (vrt + k * PAGE_SIZ + o) = page_no (vrt + k * PAGE_SIZ).
Proof.
  intros [q ->] Ho. unfold page_no. change PAGE_SIZ with 4096 in *.
  replace (q * 4096 + k * 4096 + o) with (o + (q + k) * 4096) by ring. replace (q * 4096 + k * 4096) with (0 + (q + k) * 4096) by ring.
  rewrite !Z.div_add, (Z.div_small o) by lia. reflexivity.
Qed.

Lemma frame_aligned p : (PAGE_SIZ | p) -> 0 <= p < 2 ^ 52 -> frame p.
Proof.
  intros [q ->] Hp. unfold frame, frame_of. change PAGE_SIZ with 4096 in *.
  change 0x000FFFFFFFFFF000 with (Z.land (Z.ones 52) (Z.shiftl (Z.ones 40) 12)). rewrite Z.land_assoc, Z.land_ones by lia.
  rewrite Z.mod_small by lia. replace (q * 4096) with (Z.shiftl q 12) by (rewrite Z.shiftl_mul_pow2; lia).
  rewrite <- Z.shiftl_land, Z.land_ones by lia. by rewrite Z.mod_small by lia.
Qed.

Section Mapping.
Context {F : Type} `{FL : FrameLaws F}.

#[local] Abbreviation root s := (frame_of (cr3 s)).

(** After the entry for [vrt] was set to [v]. *)
Record page_set (s s' : mach F) (vrt v : Z) : Prop := {
  ps_ok : space_ok s';
  ps_cr3 : cr3 s' = cr3 s;
  ps_eq : forall va, page_no va = page_no vrt -> pte (mem s') (root s) va = if present v then Some v else None;
  ps_ne : forall va, plain va -> page_no va <> page_no vrt -> pte (mem s') (root s) va = pte (mem s) (root s) va;
  ps_small : forall va, plain va -> small (mem s) (root s) va -> small (mem s') (root s) va
}.

Lemma write_leaf s vrt t v :
  space_ok s -> plain vrt -> tab (mem s) (root s) vrt 3 = Some t ->
  exists s', pt_write s (entryget vrt 0 + 8 * IDX vrt 0) v = Ok s' /\ page_set s s' vrt v /\ pool s' = pool s.
Proof.
  intros Hs Hp Ht. destruct (entry_get s vrt 3 t Hs Hp (le_n _) Ht) as (w & e & Hw & He & Hea).
  pose proof (IDX_range vrt 0 ltac:(lia)) as Hi. pose proof (so_tabs _ Hs) as Hok.
  eexists. split; [exact (write_slot s vrt 3 t w (IDX vrt 0) v Hs (le_n _) Ht Hw Hi)|]. split; [|done].
  destruct (put_leaf (mem s) (root s) vrt t w v Hok Hp Ht Hw) as [Hok' Hsame].
  split; [split|done| | |]; cbn [mem cr3 pool].
  - done.
  - intros q Hq. destruct (so_fresh _ Hs q Hq) as [Hm Hn]. split; [by apply (mem_put (mem s) vrt 3 t w)|].
    intros va d Hpl Hd. rewrite Hsame by done. by apply Hn.
  - intros va Hpg. pose proof (plain_page _ _ (eq_sym Hpg) Hp) as Hp'. apply eq_sym, agree_page, agree_S in Hpg as [Ha Hix].
    unfold pte. rewrite Hsame by (done || lia). rewrite <- (tab_agree _ _ _ _ _ Ha), Ht. cbn [mbind option_bind].
    change (Z.of_nat (3 - 3)) with (Z.of_nat 0) in Hix. rewrite <- (entry_idx _ _ vrt va 0 0 Hix).
    pose proof (entry_put_eq (mem s) t w v vrt 0 (tk_words _ _ Hok t w Hw)) as Hput. change (Z.of_nat 0) with 0 in Hput. by rewrite Hput.
  - intros va Hpl Hne. unfold pte. rewrite Hsame by (done || lia).
    destruct (tab (mem s) (root s) va 3) as [t'|] eqn:Et; cbn [mbind option_bind]; [|done].
    rewrite entry_put_ne; [done|done| |lia]. destruct (decide (t' = t)) as [->|]; [right|by left]. intros Hix. apply Hne.
    destruct (tk_sep _ _ Hok va vrt 3%nat 3%nat t) as [_ Ha]; [done..|]. apply agree_page, agree_S. by split.
  - intros va Hpl Hsm d t' e' Hd. rewrite Hsame by (done || lia). intros Ht' He' Hpr.
    destruct (entry_put_cases _ _ _ _ _ _ _ _ _ Hw (proj1 Hi) He') as [[-> ->]|He1]; [|by eapply Hsm].
    destruct (tk_sep _ _ Hok va vrt d 3%nat t) as [? _]; (done || lia).
Qed.

(** The body of the loops of [vmap_map] and [vmap_unmap]. *)
Lemma set_page {A} s vrt flgs v n (k : mach F -> res A) Q :
  space_ok s -> plain vrt -> small (mem s) (root s) vrt -> fp_stock (pool s) (3 + n) ->
  (forall s', page_set s s' vrt v -> fp_stock (pool s') n -> total (k s') Q) ->
  total (let! r := walk s vrt flgs 3 true in let! entry := deref (fst r) in let! s := pt_write (snd r) entry v in k s) Q.
Proof.
  intros Hs Hp Hsm Hst Hk. eapply total_bind; [by apply (walk_ok vrt flgs 3 s (root s) n)|].
  intros [o s1]. cbn [fst snd]. intros (-> & G & [t Ht] & N1). cbn [deref res_bind].
  rewrite <- (gr_cr3 _ _ G) in Ht. destruct (write_leaf s1 vrt t v (gr_ok _ _ G) Hp Ht) as (s2 & -> & P & E). cbn [res_bind].
  apply Hk; [|by rewrite E]. destruct P as [P1 P2 P3 P4 P5]. rewrite (gr_cr3 _ _ G) in *. split; try done.
  - intros va Hpl Hne. rewrite P4 by done. by apply (gr_pte _ _ G).
  - intros va Hpl H. apply P5; [done|]. by apply (gr_small _ _ G).
Qed.

(** What a page of a mapped range holds afterwards. *)
Record range_set (n : nat) (s s' : mach F) (vrt : Z) (ent : Z -> option Z) : Prop := {
  rs_ok : space_ok s';
  rs_cr3 : cr3 s' = cr3 s;
  rs_in : forall k va, 0 <= k < Z.of_nat n -> page_no va = page_no (vrt + k * PAGE_SIZ) -> pte (mem s') (root s) va = ent k;
  rs_out : forall va, plain va -> (forall k, 0 <= k < Z.of_nat n -> page_no va <> page_no (vrt + k * PAGE_SIZ)) ->
    pte (mem s') (root s) va = pte (mem s) (root s) va;
  rs_small : forall va, plain va -> small (mem s) (root s) va -> small (mem s') (root s) va
}.

(** A range of pages outside the recursive slot, without large pages. *)
Record range_ok (n : nat) (s : mach F) (vrt : Z) : Prop := {
  ro_low : 0 <= vrt;
  ro_high : vrt + Z.of_nat n * PAGE_SIZ <= 2 ^ 64;
  ro_count : Z.of_nat n <= 2 ^ 36;
  ro_plain : forall k, 0 <= k < Z.of_nat n -> plain (vrt + k * PAGE_SIZ);
  ro_small : forall k, 0 <= k < Z.of_nat n -> small (mem s) (root s) (vrt + k * PAGE_SIZ)
}.

Lemma range_next n s vrt : range_ok (S n) s vrt -> n <> 0%nat -> u64 (vrt + PAGE_SIZ) = vrt + PAGE_SIZ.
Proof. intros [H1 H2 _ _ _] Hn. apply wrap_small. unfold PAGE_SIZ in *. lia. Qed.

Lemma range_ok_S n s s' vrt v :
  range_ok (S n) s vrt -> page_set s s' vrt v -> range_ok n s' (u64 (vrt + PAGE_SIZ)).
Proof.
  intros Hr Hps. destruct (decide (n = 0%nat)) as [->|Hn].
  - pose proof (wrap_range 64 (vrt + PAGE_SIZ) ltac:(lia)). split; intros; lia.
  - rewrite (range_next n s vrt Hr Hn). destruct Hr as [H1 H2 H3 H4 H5]. split; unfold PAGE_SIZ in *; try lia.
    + intros k Hk. pose proof (H4 (k + 1) ltac:(lia)) as H. by replace (vrt + (k + 1) * 4096) with (vrt + 4096 + k * 4096) in H by lia.
    + intros k Hk. pose proof (H4 (k + 1) ltac:(lia)) as Hp. pose proof (H5 (k + 1) ltac:(lia)) as H.
      replace (vrt + (k + 1) * 4096) with (vrt + 4096 + k * 4096) in H, Hp by lia. rewrite (ps_cr3 _ _ _ _ Hps). by apply (ps_small _ _ _ _ Hps).
Qed.

Lemma range_set_S n s s1 s2 vrt v ent ent' :
  range_ok (S n) s vrt -> page_set s s1 vrt v -> range_set n s1 s2 (u64 (vrt + PAGE_SIZ)) ent' ->
  ent 0 = (if present v then Some v else None) -> (forall k, 0 <= k < Z.of_nat n -> ent (k + 1) = ent' k) ->
  range_set (S n) s s2 vrt ent.
Proof.
  intros Hr [P1 P2 P3 P4 P5] [R1 R2 R3 R4 R5] E0 ES. rewrite P2 in *.
  assert (forall k, 0 <= k < Z.of_nat n -> u64 (vrt + PAGE_SIZ) + k * PAGE_SIZ = vrt + (k + 1) * PAGE_SIZ) as Hu.
  { intros k Hk. rewrite (range_next n s vrt Hr) by lia. lia. }
  split; [done|done| | |].
  - intros k va Hk Hpg. destruct (decide (k = 0)) as [->|Hne].
    + rewrite Z.mul_0_l, Z.add_0_r in Hpg. rewrite E0, <- (P3 va Hpg). apply R4.
      * pose proof (ro_plain _ _ _ Hr 0 ltac:(lia)) as Hp. rewrite Z.mul_0_l, Z.add_0_r in Hp. by eapply plain_page.
      * intros j Hj. rewrite Hu by done. rewrite Hpg. pose proof (ro_count _ _ _ Hr).
        pose proof (page_no_ne vrt 0 (j + 1) ltac:(lia) ltac:(lia) ltac:(lia)) as Hpn. by rewrite Z.mul_0_l, Z.add_0_r in Hpn.
    + replace k with ((k - 1) + 1) by lia. rewrite ES by lia. apply R3; [lia|]. rewrite Hu by lia. by replace (k - 1 + 1) with k by lia.
  - intros va Hp Hn. rewrite R4; [apply P4|done|]; [done| |].
    + pose proof (Hn 0 ltac:(lia)) as H. by rewrite Z.mul_0_l, Z.add_0_r in H.
    + intros k Hk. rewrite Hu by done. apply Hn. lia.
  - auto.
Qed.

Lemma range_set_0 s vrt ent : space_ok s -> range_set 0 s s vrt ent.
Proof. intros Hs. split; (done || lia). Qed.

Lemma vmap_map_sets flgs n : forall s phy vrt,
  space_ok s -> range_ok n s vrt -> fp_stock (pool s) (3 * n) ->
  (PAGE_SIZ | phy) -> 0 <= phy -> phy + Z.of_nat n * PAGE_SIZ <= 2 ^ 52 ->
  total (vmap_map n s phy vrt flgs) (fun s' =>
    range_set n s s' vrt (fun k => let v := Z.lor (phy + k * PAGE_SIZ) (FLAG (i32 flgs)) in if present v then Some v else None)).
Proof.
  induction n as [|n IH]; intros s phy vrt Hs Hr Hst Hd Hphy Hmax; [apply total_Ok; by apply range_set_0|].
  cbn [vmap_map]. pose proof (ro_plain _ _ _ Hr 0 ltac:(lia)) as Hp. pose proof (ro_small _ _ _ Hr 0 ltac:(lia)) as Hsm.
  rewrite Z.mul_0_l, Z.add_0_r in Hp, Hsm.
  assert (frame phy) as Hfr by (apply frame_aligned; [done|unfold PAGE_SIZ in *; lia]). rewrite frame_ADDR by done.
  assert (u64 (phy + PAGE_SIZ) = phy + PAGE_SIZ) as -> by (apply wrap_small; unfold PAGE_SIZ in *; lia).
  apply (set_page s vrt flgs _ (3 * n)); [done..|by replace (3 + 3 * n)%nat with (3 * S n)%nat by lia|].
  intros s1 Hps Hst1. eapply total_mono.
  - apply IH; [apply Hps|by eapply range_ok_S|done| |unfold PAGE_SIZ in *; lia..]. apply Z.divide_add_r; [done|apply Z.divide_refl].
  - intros s2 Hrs. eapply range_set_S; [done|done|exact Hrs| |].
    + cbn zeta. by rewrite Z.mul_0_l, Z.add_0_r.
    + intros k Hk. cbn zeta. by replace (phy + (k + 1) * PAGE_SIZ) with (phy + PAGE_SIZ + k * PAGE_SIZ) by lia.
Qed.

Lemma vmap_unmap_sets n : forall s vrt,
  space_ok s -> range_ok n s vrt -> fp_stock (pool s) (3 * n) ->
  total (vmap_unmap n s vrt) (fun s' => range_set n s s' vrt (fun _ => None)).
Proof.
  induction n as [|n IH]; intros s vrt Hs Hr Hst; [apply total_Ok; by apply range_set_0|].
  cbn [vmap_unmap]. pose proof (ro_plain _ _ _ Hr 0 ltac:(lia)) as Hp. pose proof (ro_small _ _ _ Hr 0 ltac:(lia)) as Hsm.
  rewrite Z.mul_0_l, Z.add_0_r in Hp, Hsm.
  apply (set_page s vrt 0 _ (3 * n)); [done..|by replace (3 + 3 * n)%nat with (3 * S n)%nat by lia|].
  intros s1 Hps Hst1. eapply total_mono; [apply IH; [apply Hps|by eapply range_ok_S|done]|].
  intros s2 Hrs. by apply (range_set_S n s s1 s2 vrt 0 _ (fun _ => None)).
Qed.

(** [vmap_query] reads what the processor would use. *)
Lemma qry_step s va d t : space_ok s -> plain va -> (d <= 3)%nat -> small (mem s) (root s) va -> tab (mem s) (root s) va d = Some t ->
  qry_walk s va (3 - d) = match tab (mem s) (root s) va (S d), (d <? 3)%nat with
    | Some _, true => qry_walk s va (2 - d)
    | None, true => Ok 0
    | _, false => Ok (match pte (mem s) (root s) va with Some e => Z.lor (ADDR e) (Z.land va PAGE_MASK) | None => 0 end)
    end.
Proof.
  intros Hs Hp Hd Hsm Ht. destruct (entry_get s va d t Hs Hp Hd Ht) as (w & e & Hw & He & Hea).
  pose proof (IDX_range va (Z.of_nat (3 - d)) ltac:(lia)) as Hi.
  assert (Hread := read_slot s va d t w _ e Hs Hd Ht Hw Hi He).
  destruct (Nat.ltb_spec d 3) as [Hlt|Hge].
  - pose proof (Hsm d t e Hlt Ht Hea) as Hl. replace (3 - d)%nat with (S (2 - d)) in * by lia. cbn [qry_walk]. rewrite Hread. cbn [res_bind tab]. rewrite Ht. cbn [mbind option_bind].
    replace (3 - d)%nat with (S (2 - d)) by lia. rewrite Hea. cbn [mbind option_bind]. unfold usable.
    destruct (present e) eqn:Ep; cbn [negb andb]; [|done].
    rewrite (Hl eq_refl). cbn [negb andb]. by rewrite andb_false_r.
  - assert (d = 3%nat) as -> by lia. cbn [Nat.sub] in *. cbn [qry_walk]. rewrite Hread. cbn [res_bind]. unfold pte. rewrite Ht. cbn [mbind option_bind].
    rewrite Hea. cbn [mbind option_bind]. by destruct (tab (mem s) (root s) va 4), (present e).
Qed.

Lemma vmap_query_pte s va : space_ok s -> plain va -> small (mem s) (root s) va ->
  vmap_query s va = Ok (match pte (mem s) (root s) va with Some e => Z.lor (ADDR e) (Z.land va PAGE_MASK) | None => 0 end).
Proof.
  intros Hs Hp Hsm. unfold vmap_query. assert (forall d, (d <= 3)%nat -> tab (mem s) (root s) va d = None -> pte (mem s) (root s) va = None) as Hnone.
  { intros d Hd H. unfold pte. by rewrite (tab_None_le _ _ _ d 3 H Hd). }
  change 3%nat with (3 - 0)%nat. rewrite (qry_step s va 0 (root s)) by (done || lia). cbn [Nat.ltb Nat.leb].
  destruct (tab (mem s) (root s) va 1) as [t1|] eqn:E1; [|by rewrite (Hnone 1%nat) by (done || lia)].
  change (2 - 0)%nat with (3 - 1)%nat. rewrite (qry_step s va 1 t1) by (done || lia). cbn [Nat.ltb Nat.leb].
  destruct (tab (mem s) (root s) va 2) as [t2|] eqn:E2; [|by rewrite (Hnone 2%nat) by (done || lia)].
  change (2 - 1)%nat with (3 - 2)%nat. rewrite (qry_step s va 2 t2) by (done || lia). cbn [Nat.ltb Nat.leb].
  destruct (tab (mem s) (root s) va 3) as [t3|] eqn:E3; [|by rewrite (Hnone 3%nat) by (done || lia)].
  change (2 - 2)%nat with (3 - 3)%nat. rewrite (qry_step s va 3 t3) by (done || lia). cbn [Nat.ltb Nat.leb].
  by destruct (tab _ _ _ 4).
Qed.

End Mapping.

Lemma small_agree m c3 va va' : agree va va' 3 -> small m c3 va -> small m c3 va'.
Proof.
  intros Ha Hs d t e Hd Ht He Hp. rewrite <- (tab_agree _ _ va va') in Ht by (apply (agree_le _ _ 3); [done|lia]).
  rewrite <- (entry_idx m t va va' _ _ (Ha d Hd)) in He. by apply (Hs d t e).
Qed.

Lemma small_page m c3 va va' : page_no va = page_no va' -> small m c3 va -> small m c3 va'.
Proof. intros [Ha _]%agree_page%agree_S. by apply small_agree. Qed.

Section Theorems.
Context {F : Type} `{FL : FrameLaws F}.

#[local] Abbreviation root s := (frame_of (cr3 s)).

Lemma hw_same (s s' : mach F) va :
  space_ok s -> space_ok s' -> cr3 s' = cr3 s -> plain va -> small (mem s) (root s) va -> small (mem s') (root s) va ->
  pte (mem s') (root s) va = pte (mem s) (root s) va ->
  hw (mem s') (cr3 s') va = hw (mem s) (cr3 s) va /\ vmap_query s' va = vmap_query s va.
Proof.
  intros Hs Hs' Hc Hp Hsm Hsm' He. unfold hw. rewrite !vmap_query_pte by (rewrite ?Hc; done). rewrite Hc, !hw_pte by done. by rewrite He.
Qed.

(** C10: [vmap_map] makes the pages of the range translate to the given physical pages.  For a
    page-aligned range outside the recursive slot, a supply of three frames per page and flags
    with the present bit, the call returns; the processor then translates every address of the
    range to its offset in the right physical page, [vmap_query] reports that physical address,
    and both give what they gave before at every other address. *)
Theorem vmap_map_translates n (s : mach F) phy vrt flgs :
  space_ok s -> range_ok n s vrt -> fp_stock (pool s) (3 * n) -> (PAGE_SIZ | phy) -> (PAGE_SIZ | vrt) ->
  0 <= phy -> phy + Z.of_nat n * PAGE_SIZ <= 2 ^ 52 -> 0 <= flgs < 2 ^ 31 -> Z.testbit flgs 0 = true ->
  total (vmap_map n s phy vrt flgs) (fun s' =>
    space_ok s' /\ cr3 s' = cr3 s /\
    (forall k o, 0 <= k < Z.of_nat n -> 0 <= o < PAGE_SIZ ->
       hw (mem s') (cr3 s') (vrt + k * PAGE_SIZ + o) = Some (phy + k * PAGE_SIZ) /\
       vmap_query s' (vrt + k * PAGE_SIZ + o) = Ok (phy + k * PAGE_SIZ + o)) /\
    (forall va, plain va -> small (mem s) (frame_of (cr3 s)) va ->
       (forall k, 0 <= k < Z.of_nat n -> page_no va <> page_no (vrt + k * PAGE_SIZ)) ->
       hw (mem s') (cr3 s') va = hw (mem s) (cr3 s) va /\ vmap_query s' va = vmap_query s va)).
Proof.
  intros Hs Hr Hst Hd Hv Hphy Hmax Hfl Hbit. eapply total_mono; [by apply vmap_map_sets|].
  intros s' [R1 R2 R3 R4 R5]. split_and!; [done|done| |].
  - intros k o Hk Ho. set (va := vrt + k * PAGE_SIZ + o).
    assert (page_no va = page_no (vrt + k * PAGE_SIZ)) as Hpg by (by apply page_no_off).
    assert (plain va) as Hp by (eapply plain_page; [|by apply (ro_plain _ _ _ Hr k)]; done).
    assert (small (mem s') (root s) va) as Hsm.
    { apply R5; [done|]. eapply small_page; [|by apply (ro_small _ _ _ Hr k)]. done. }
    pose proof (R3 k va Hk Hpg) as Hpte. cbn zeta in Hpte.
    assert (frame (phy + k * PAGE_SIZ)) as Hfr.
    { apply frame_aligned; [|unfold PAGE_SIZ in *; lia]. apply Z.divide_add_r; [done|]. by apply Z.divide_factor_r. }
    assert (i32 flgs = flgs) as Ei by (apply signed_small; lia). rewrite Ei in Hpte.
    assert (present (Z.lor (phy + k * PAGE_SIZ) (FLAG flgs)) = true) as Hpr.
    { rewrite present_bit, Z.lor_spec. unfold FLAG. rewrite Z.land_spec, Hbit. apply orb_true_r. }
    rewrite Hpr in Hpte. unfold hw. rewrite vmap_query_pte by (rewrite ?R2; done). rewrite R2, hw_pte, Hpte by done. cbn [fmap option_fmap option_map].
    unfold FLAG. rewrite frame_of_low, ADDR_low by done. split; [done|]. f_equal.
    assert (Z.land va PAGE_MASK = o) as ->.
    { change PAGE_MASK with (Z.ones 12). rewrite Z.land_ones by lia. destruct Hv as [q Hq]. unfold va. rewrite Hq.
      replace (q * PAGE_SIZ + k * PAGE_SIZ + o) with (o + (q + k) * 2 ^ 12) by (unfold PAGE_SIZ; lia). rewrite Z.mod_add by lia.
      apply Z.mod_small. unfold PAGE_SIZ in *. lia. }
    apply (lor_add _ _ 12); [lia| |unfold PAGE_SIZ in *; lia]. apply Z.mod_divide; [lia|]. change (2 ^ 12) with PAGE_SIZ.
    apply Z.divide_add_r; [done|]. by apply Z.divide_factor_r.
  - intros va Hp Hsm Hn. apply hw_same; try done; [by apply R5|by apply R4].
Qed.

(** [vmap_unmap] takes the pages of a range out of the address space.  Afterwards the processor
    faults on every address of the range, [vmap_query] answers 0 there, and at every other
    address both give what they gave before. *)
Theorem vmap_unmap_removes n (s : mach F) vrt :
  space_ok s -> range_ok n s vrt -> fp_stock (pool s) (3 * n) ->
  total (vmap_unmap n s vrt) (fun s' =>
    space_ok s' /\ cr3 s' = cr3 s /\
    (forall k va, 0 <= k < Z.of_nat n -> page_no va = page_no (vrt + k * PAGE_SIZ) ->
       hw (mem s') (cr3 s') va = None /\ vmap_query s' va = Ok 0) /\
    (forall va, plain va -> small (mem s) (frame_of (cr3 s)) va ->
       (forall k, 0 <= k < Z.of_nat n -> page_no va <> page_no (vrt + k * PAGE_SIZ)) ->
       hw (mem s') (cr3 s') va = hw (mem s) (cr3 s) va /\ vmap_query s' va = vmap_query s va)).
Proof.
  intros Hs Hr Hst. eapply total_mono; [by apply vmap_unmap_sets|].
  intros s' [R1 R2 R3 R4 R5]. split_and!; [done|done| |].
  - intros k va Hk Hpg. assert (plain va) as Hp by (eapply plain_page; [|by apply (ro_plain _ _ _ Hr k)]; done).
    assert (small (mem s') (root s) va) as Hsm.
    { apply R5; [done|]. eapply small_page; [|by apply (ro_small _ _ _ Hr k)]. done. }
    unfold hw. rewrite vmap_query_pte by (rewrite ?R2; done). by rewrite R2, hw_pte, (R3 k va Hk Hpg) by done.
  - intros va Hp Hsm Hn. apply hw_same; try done; [by apply R5|by apply R4].
Qed.

End Theorems.

(** ** An empty address space *)

(** Frames from a list. *)
#[export] Instance list_pool : FramePool (list Z) := {|
  fp_alloc := fun f => match f with [] => Ok (0, []) | p :: f => Ok (p, f) end;
  fp_free := fun f p => Ok (p :: f)
|}.

#[export, refine] Instance list_frames : FrameLaws (list Z) := {|
  fp_has := fun f p => p ∈ f;
  fp_stock := fun f n => (n <= length f)%nat /\ NoDup f /\ forall p, p ∈ f -> p <> 0 /\ frame p
|}.
Proof.
  - intros [|p f] n (Hl & Hd & Hf); [cbn in Hl; lia|]. apply NoDup_cons in Hd as [Hn Hd]. exists p, f.
    destruct (Hf p ltac:(by apply list_elem_of_here)) as [Hz Hp]. cbn in Hl. split_and!; try done.
    + by apply list_elem_of_here.
    + lia.
    + intros q Hq. apply Hf. by apply list_elem_of_further.
    + intros q Hq. split; [by apply list_elem_of_further|]. by intros ->.
  - intros f n n' (? & ? & ?) Hle. split_and!; (done || lia).
Defined.

(** A root table that holds only its recursive slot. *)
Definition empty_root (c3 : Z) : list Z := <[511%nat := Z.lor (Z.lor (ADDR c3) PE_RW) PE_P]> zero_page.

Lemma empty_entry m c3 va e : m !! c3 = Some (empty_root c3) -> plain va -> entry_at m c3 va 3 = Some e -> e = 0.
Proof.
  intros Hm Hp. unfold entry_at. rewrite Hm. cbn [mbind option_bind]. unfold empty_root, plain in *.
  pose proof (IDX_range va 3 ltac:(lia)). change (Z.of_nat 3) with 3. rewrite list_lookup_insert_ne by (unfold R_IDX in Hp; lia).
  unfold zero_page. by intros [? _]%lookup_replicate.
Qed.

Lemma empty_tab m c3 va d t : m !! c3 = Some (empty_root c3) -> plain va -> tab m c3 va d = Some t -> d = 0%nat /\ t = c3.
Proof.
  intros Hm Hp. destruct d as [|d]; [intros [= <-]; done|]. intros Ht.
  assert (tab m c3 va 1 = None) as H1.
  { cbn [tab mbind option_bind Nat.sub]. destruct (entry_at m c3 va 3) as [e|] eqn:E; cbn [mbind option_bind]; [|done].
    by rewrite (empty_entry m c3 va e Hm Hp E). }
  rewrite (tab_None_le _ _ _ 1 (S d) H1) in Ht by lia. done.
Qed.

Lemma empty_space m c3 (f : list Z) :
  frame c3 -> m !! c3 = Some (empty_root c3) -> (forall p w, m !! p = Some w -> length w = 512%nat) ->
  (forall p, p ∈ f -> p <> c3 /\ is_Some (m !! p)) ->
  space_ok (Mach m c3 f) /\ forall va, plain va -> small m (frame_of c3) va.
Proof.
  intros Hfr Hm Hw Hf. assert (frame_of c3 = c3) as Er by exact Hfr. split; [split|]; cbn [mem cr3 pool]; rewrite ?Er.
  - destruct (table_entry c3 Hfr) as [Hu Hfo]. split; [|done| |].
    + exists (empty_root c3), (Z.lor (Z.lor (ADDR c3) PE_RW) PE_P). split_and!; [done| |done|done].
      unfold empty_root. change (Z.to_nat R_IDX) with 511%nat. apply list_lookup_insert_eq. by vm_compute.
    + intros va d t Hp Hd Ht. destruct (empty_tab m c3 va d t Hm Hp Ht) as [_ ->]. by eexists.
    + intros va va' d d' t Hp Hp' Hd Hd' Ht Ht'. destruct (empty_tab m c3 va d t Hm Hp Ht) as [-> ->].
      destruct (empty_tab m c3 va' d' c3 Hm Hp' Ht') as [-> _]. split; [done|]. intros j Hj. lia.
  - intros p Hp. destruct (Hf p Hp) as [Hne Hs]. split; [done|]. intros va d Hpl Hd Ht. by destruct (empty_tab m c3 va d p Hm Hpl Ht) as [_ ->].
  - intros va Hp d t e Hd Ht He Hpr. destruct (empty_tab m c3 va d t Hm Hp Ht) as [-> ->]. by rewrite (empty_entry m c3 va e Hm Hp He).
Qed.

Definition demo_frames : list Z := [0x2000; 0x3000; 0x4000; 0x5000; 0x6000; 0x7000].

Definition demo_mem : pmem :=
  <[0x1000 := empty_root 0x1000]> (list_to_map ((fun p => (p, zero_page)) <$> demo_frames)).

Definition demo_mach : mach (list Z) := Mach demo_mem 0x1000 demo_frames.

Lemma demo_space : space_ok demo_mach /\ forall va, plain va -> small demo_mem (frame_of 0x1000) va.
Proof.
  apply empty_space; [by vm_compute|done| |].
  - intros p w. unfold demo_mem. rewrite lookup_insert. case_decide; [by intros [= <-]|].
    intros Hin%elem_of_list_to_map_2. apply list_elem_of_fmap in Hin as (q & [= -> ->] & _). done.
  - intros p Hp. unfold demo_frames in Hp.
    repeat (apply elem_of_cons in Hp as [->|Hp]; [split; [done|vm_compute; by eexists]|]). by apply elem_of_nil in Hp.
Qed.

Lemma demo_range : range_ok 2 demo_mach 0x400000.
Proof.
  split; [lia|unfold PAGE_SIZ; lia|lia| |]; intros k Hk; [|apply demo_space];
    (assert (k = 0 \/ k = 1) as [-> | ->] by lia); by vm_compute.
Qed.

Lemma demo_stock : fp_stock demo_frames 6.
Proof.
  split_and!; [cbn; lia|by apply (bool_decide_unpack _); vm_compute|].
  intros p Hp. unfold demo_frames in Hp.
  repeat (apply elem_of_cons in Hp as [->|Hp]; [by vm_compute|]). by apply elem_of_nil in Hp.
Qed.

Lemma vmap_map_translates_witness :
  space_ok demo_mach /\ range_ok 2 demo_mach 0x400000 /\
  total (vmap_map 2 demo_mach 0x80000 0x400000 (PE_P + PE_RW + PE_US)) (fun s' => hw (mem s') (cr3 s') 0x401234 = Some 0x81000).
Proof.
  split; [apply demo_space|]. split; [apply demo_range|].
  eapply total_mono; [apply (vmap_map_translates 2 demo_mach 0x80000 0x400000 (PE_P + PE_RW + PE_US))|].
  - apply demo_space.
  - apply demo_range.
  - apply demo_stock.
  - by exists 0x80.
  - by exists 0x400.
  - lia.
  - unfold PAGE_SIZ. lia.
  - unfold PE_P, PE_RW, PE_US. lia.
  - reflexivity.
  - intros s' (_ & _ & H & _). apply (H 1 0x234); [lia|unfold PAGE_SIZ; lia].
Defined.

Lemma vmap_unmap_removes_witness :
  space_ok demo_mach /\ range_ok 2 demo_mach 0x400000 /\
  total (vmap_unmap 2 demo_mach 0x400000) (fun s' => vmap_query s' 0x401234 = Ok 0).
Proof.
  split; [apply demo_space|]. split; [apply demo_range|].
  eapply total_mono; [apply (vmap_unmap_removes 2 demo_mach 0x400000)|].
  - apply demo_space.
  - apply demo_range.
  - apply demo_stock.
  - intros s' (_ & _ & H & _). apply (H 1); [lia|reflexivity].
Defined.
