(* ===== verification/Frames.v ===== *)
(** * Page frames from the physical page allocator

    [walk], [new_pgt] and [_copy_pgt] take their tables from
    [pmm_allocpages(1)].  This file shows that the allocator of file [Pmm] keeps
    the promises file [Paging] asks of a supply of frames. *)
From Stdlib Require Import ZArith Lia List Bool.
From stdpp Require Import base list gmap.
From S2P Require Import Prelude Pmm Paging.

#[local] Open Scope Z_scope.

Section Frames.
Context `{PmmEnv}.

(** A walk of the zone list visits each node at most once. *)
Definition node_fuel (s : pmm) : nat := S (size (nodes s)).

#[export] Instance pmm_pool : FramePool pmm := {|
  fp_alloc := fun s => pmm_allocpages (node_fuel s) s 1;
  fp_free := fun s p => pmm_freepages (node_fuel s) s p 1
|}.

Lemma chain_det m l : forall l', chain m l -> chain m l' -> hd_id l = hd_id l' ->
  (forall x, x ∈ ids l -> x <> 0) -> (forall x, x ∈ ids l' -> x <> 0) -> l = l'.
Proof.
  induction l as [|[x [a pg]] l IH]; intros [|[x' [a' pg']] l']; cbn [chain hd_id]; intros Hc Hc' Hh Hn Hn'.
  - done.
  - exfalso. apply (Hn' x'); [left|done].
  - exfalso. apply (Hn x); [left|done].
  - subst x'. destruct Hc as [Hx Hc], Hc' as [Hx' Hc']. rewrite Hx in Hx'. injection Hx' as -> -> Hhd. f_equal.
    apply IH; [done|done|done| |]; intros y Hy; [apply Hn|apply Hn']; by right.
Qed.

Lemma rep_det s l l' : rep s l -> rep s l' -> l = l'.
Proof.
  intros R R'. apply (chain_det (nodes s)); [apply R|apply R'|by rewrite (rep_head _ _ R), (rep_head _ _ R')| |].
  - intros x Hx. by apply (rep_ids _ _ R).
  - intros x Hx. by apply (rep_ids _ _ R').
Qed.

Lemma pmm_ok_det s zs zs' : pmm_ok s zs -> pmm_ok s zs' -> zs = zs'.
Proof. intros (z & l & R & <- & _) (z' & l' & R' & <- & _). pose proof (rep_det _ _ _ R R') as E. by injection E as _ ->. Qed.

Lemma chain_dom m l x : chain m l -> x ∈ ids l -> x ∈ dom m.
Proof.
  induction l as [|[y [a pg]] l IH]; cbn; [by intros _ ?%elem_of_nil|]. intros [Hy Hc] [->|Hx]%elem_of_cons; [|by apply IH].
  apply elem_of_dom. by eexists.
Qed.

Lemma pmm_ok_fuel s zs : pmm_ok s zs -> (length zs < node_fuel s)%nat.
Proof.
  intros (z & l & R & <- & _). rewrite zones_length. unfold node_fuel. rewrite <- (size_dom (D := gset Z)).
  assert (length (ids ((_free, z) :: l)) = S (length l)) as E by (cbn; f_equal; apply length_map).
  rewrite <- (size_list_to_set (C := gset Z)) in E by apply R.
  assert (list_to_set (C := gset Z) (ids ((_free, z) :: l)) ⊆ dom (nodes s)) as Hsub.
  { intros x Hx%elem_of_list_to_set. by apply (chain_dom _ _ _ (rep_chain _ _ R)). }
  apply subseteq_size in Hsub. lia.
Qed.

(** The number of free pages. *)
Definition pages (zs : list zone) : Z := foldr (fun z n => snd z + n) 0 zs.

Lemma first_fit_page lo zs : zwf lo zs -> 0 < pages zs ->
  exists p zs', first_fit 1 zs = Some (p, zs') /\ pages zs' = pages zs - 1.
Proof.
  destruct zs as [|[a pg] zs]; cbn [pages foldr snd]; [lia|]. intros (_ & _ & Hpg & _) _.
  cbn [first_fit]. replace (1 <=? pg) with true by lia. do 2 eexists. split; [done|].
  destruct (Z.eqb_spec (pg - 1) 0); cbn [pages foldr snd]; fold (pages zs); lia.
Qed.

(** One page from a list with free pages. *)
Lemma alloc_page s zs : pmm_ok s zs -> 0 < pages zs -> exists p s' zs',
  pmm_allocpages (node_fuel s) s 1 = Ok (p, s') /\ pmm_ok s' zs' /\ pages zs' = pages zs - 1 /\
  0 < p /\ (PAGE_SIZ | p) /\ covers zs p /\ (forall x, covers zs' x -> covers zs x /\ ~ p <= x < p + PAGE_SIZ).
Proof.
  intros Hok Hpg. pose proof (pmm_ok_fuel s zs Hok) as Hf. destruct Hok as (z & l & Hr & Ez & Hz).
  destruct (first_fit_page 1 zs Hz Hpg) as (p & zs' & Eff & Epg). pose proof (first_fit_spec 1 1 zs Hz ltac:(lia)) as Hff.
  rewrite Eff in Hff. destruct Hff as (Hz' & Hp & Hd & Hc & Hdis).
  assert (total (allocpages_loop (node_fuel s) s 1 _free _free) (fun r => fst r = p /\ exists l2', rep (snd r) ((_free, z) :: l2') /\
    page_free (snd r) = page_free s /\ zones l2' = zs')) as ([p' s'] & E & Ep & l2' & Hr' & Ec & Ez').
  { eapply total_mono; [apply (allocpages_loop_spec s 1 l [] _free z (node_fuel s) Hr)|].
    - intros ->. subst zs. cbn in Hpg. lia.
    - lia.
    - rewrite Ez. eapply zwf_mono; [|exact Hz]. lia.
    - rewrite <- zones_length, Ez. lia.
    - intros r. by rewrite Ez, Eff. }
  cbn [fst snd] in *. subst p'. unfold pmm_allocpages. rewrite E. cbn [res_bind]. replace (p =? 0) with false by lia.
  do 2 eexists. exists zs'. split; [done|]. split_and!; [|done|lia|done| |].
  - exists z, l2'. split_and!; [by apply rep_counter|done|done].
  - apply Hc. left. unfold PAGE_SIZ. lia.
  - intros x Hx. rewrite Z.mul_1_l in *. split; [apply Hc; by right|]. intros Hin. by apply (Hdis x).
Qed.

#[export, refine] Instance pmm_frames : FrameLaws pmm := {|
  fp_has := fun s p => (PAGE_SIZ | p) /\ exists zs, pmm_ok s zs /\ covers zs p;
  fp_stock := fun s n => exists zs, pmm_ok s zs /\ Z.of_nat n <= pages zs
|}.
Proof.
  - intros s n (zs & Hok & Hn). destruct (alloc_page s zs Hok ltac:(lia)) as (p & s' & zs' & E & Hok' & Epg & Hp & Hd & Hc & Hsub).
    exists p, s'. split_and!; [exact E|done|by exists zs|lia| |exists zs'; split; [done|lia]|].
    + apply frame_aligned; [done|]. destruct Hok as (_ & _ & _ & _ & Hz). apply (zwf_covers _ _ _ Hz) in Hc. lia.
    + intros q [Hdq (zs2 & Hok2 & Hq)]. rewrite <- (pmm_ok_det _ _ _ Hok' Hok2) in Hq. destruct (Hsub q Hq) as [Hcq Hne].
      split; [split; [done|by exists zs]|]. intros ->. apply Hne. unfold PAGE_SIZ. lia.
  - intros s n n' (zs & Hok & Hn) Hle. exists zs. split; [done|lia].
Defined.

End Frames.
