(* ===== verification/Cow.v ===== *)
(** * Copy on write: [kernel/mm/mman/ppg.c] and [kernel/mm/fault.c]

    Every area has a table of the physical pages behind it, and the table of a copy made by
    [fork] points to that of the original.  A page fault maps a page on its first use, and copies
    a page that is still shared on the first write.  The page tables of a process are the map from
    page addresses to entries that file [Paging] shows they are; a bucket of a hash table is the
    list of its records; [malloc] hands out increasing addresses and does not fail. *)
From Stdlib Require Import ZArith Lia List Bool Sorted.
From stdpp Require Import base list gmap sorting.
From S2P Require Import Prelude Rbtree Vma Paging.

#[local] Open Scope Z_scope.

Definition PPG_FIXED : Z := 1.

Definition MAP_SYNCING : Z := 2 ^ 31.

Definition PF_P : Z := 1.
Definition PF_WRITE : Z := 2.
Definition PF_USER : Z := 4.

(** [vm_ppgrec_t] and [vm_ppg_t] *)
Record ppgrec := PpgRec { r_pa : Z; r_cnt : Z; r_flag : Z }.

#[export] Instance eta_ppgrec : Eta ppgrec := fun r => PpgRec (r_pa r) (r_cnt r) (r_flag r).

Record ppg := Ppg { p_parent : Z; p_ht : list (list Z) }.

#[export] Instance eta_ppg : Eta ppg := fun t => Ppg (p_parent t) (p_ht t).

(** The records, the tables, the page tables of all processes, the one in use, the memory and the
    free pages. *)
Record pages (F : Type) := Pages {
  recs : gmap Z ppgrec;
  ppgs : gmap Z ppg;
  pnext : Z;
  pgts : gmap Z (gmap Z Z);
  pcr3 : Z;
  ram : gmap Z (list Z);
  pframes : F
}.
Arguments Pages {F}.
Arguments recs {F}.
Arguments ppgs {F}.
Arguments pnext {F}.
Arguments pgts {F}.
Arguments pcr3 {F}.
Arguments ram {F}.
Arguments pframes {F}.

#[export] Instance eta_pages {F : Type} : Eta (pages F) := fun g =>
  Pages (recs g) (ppgs g) (pnext g) (pgts g) (pcr3 g) (ram g) (pframes g).

(** ** The page tables *)

Definition writable (e : Z) : bool := negb (Z.land e PE_RW =? 0).

(** The entry an address has. *)
Definition entry {F} (g : pages F) (p va : Z) : Z := default 0 (t ← pgts g !! p; t !! va).

(** [vmap_query], [vmap_map] and [vmap_unmap] of one page of the tables in use. *)
Definition pg_query {F} (g : pages F) (va : Z) : Z := let e := entry g (pcr3 g) va in if present e then ADDR e else 0.

Definition pg_set {F} (g : pages F) (va e : Z) : pages F := g <| pgts ::= alter <[va := e]> (pcr3 g) |>.

Definition pg_map {F} (g : pages F) (phy va flgs : Z) : pages F := pg_set g va (Z.lor (ADDR phy) (FLAG flgs)).

Definition pg_unmap {F} (g : pages F) (va : Z) : pages F := pg_set g va 0.

(** ** Records of pages *)

Section Ppg.
Context {F : Type} `{!FramePool F}.

Definition hash (pa : Z) : Z := Z.shiftr pa 12.

Definition get_rec (g : pages F) (r : Z) : res ppgrec := deref (recs g !! r).

Definition set_cnt (g : pages F) (r n : Z) : res (pages F) :=
  let! c := get_rec g r in
  Ok (g <| recs ::= <[r := c <| r_cnt := u64 n |>]> |>).

Definition vmm_ppg_refer (g : pages F) (r : Z) : res (pages F) :=
  let! c := get_rec g r in
  set_cnt g r (r_cnt c + 1).

Fixpoint refer_all (g : pages F) (rs : list Z) : res (pages F) :=
  match rs with
  | [] => Ok g
  | r :: rs =>
      let! g := vmm_ppg_refer g r in
      refer_all g rs
  end.

Definition vmm_ppg_new (g : pages F) (old : Z) : res (Z * pages F) :=
  let! g := (if old =? 0 then Ok g
             else
               let! t := deref (ppgs g !! old) in
               refer_all g (concat (p_ht t))) in
  Ok (pnext g, g <| ppgs ::= <[pnext g := Ppg old (replicate 32 [])]> |> <| pnext := pnext g + 1 |>).

Definition htable_add (g : pages F) (tab r key : Z) : res (pages F) :=
  let! t := deref (ppgs g !! tab) in
  Ok (g <| ppgs ::= <[tab := t <| p_ht ::= alter (cons r) (Z.to_nat (key mod 32)) |>]> |>).

(** [hlist_del]: the record leaves the table it is in. *)
Definition hlist_del (g : pages F) (r : Z) : pages F :=
  g <| ppgs ::= fmap (fun t => t <| p_ht ::= map (filter (fun x => x <> r)) |>) |>.

Definition vmm_ppg_regst (g : pages F) (a : vm_area) (pa flag : Z) : res (pages F) :=
  let r := pnext g in
  let g := g <| recs ::= <[r := PpgRec pa 1 flag]> |> <| pnext := r + 1 |> in
  htable_add g (a_ppgs a) r (hash pa).

Definition vmm_ppg_reparent (g : pages F) (r : Z) (a : vm_area) : res (pages F) :=
  let! c := get_rec g r in
  do! ASSERTK (r_cnt c =? 1) in
  htable_add (hlist_del g r) (a_ppgs a) r (hash (r_pa c)).

Fixpoint query_bucket (g : pages F) (rs : list Z) (pa : Z) : res (option Z) :=
  match rs with
  | [] => Ok None
  | r :: rs =>
      let! c := get_rec g r in
      if r_pa c =? pa then Ok (Some r) else query_bucket g rs pa
  end.

(** A table is older than its copies, so the number of addresses handed out bounds the chain. *)
Fixpoint query_loop (fuel : nat) (g : pages F) (tab pa : Z) : res (option Z) :=
  if tab =? 0 then Ok None
  else
    match fuel with
    | O => Fault OutOfFuel
    | S fuel =>
        let! t := deref (ppgs g !! tab) in
        let! b := deref (p_ht t !! Z.to_nat (hash pa mod 32)) in
        let! r := query_bucket g b pa in
        match r with
        | Some r => Ok (Some r)
        | None => query_loop fuel g (p_parent t) pa
        end
    end.

Definition vmm_ppg_query (g : pages F) (a : vm_area) (pa : Z) : res (option Z) := query_loop (Z.to_nat (pnext g)) g (a_ppgs a) pa.

Definition vmm_ppg_unref (g : pages F) (r : Z) : res (pages F) :=
  let! c := get_rec g r in
  let! g := set_cnt g r (r_cnt c - 1) in
  let! c := get_rec g r in
  if (r_cnt c =? 0) && (Z.land (r_flag c) PPG_FIXED =? 0) then
    let! f := fp_free (pframes g) (r_pa c) in
    Ok ((hlist_del (g <| pframes := f |>) r) <| recs ::= delete r |>)
  else Ok g.

(** A bucket in [vmm_ppg_clear]: the loop reads the link of a record after [vmm_ppg_unref], which
    may have released it. *)
Fixpoint clear_bucket (g : pages F) (rs : list Z) : res (pages F) :=
  match rs with
  | [] => Ok g
  | r :: rs =>
      let! g := vmm_ppg_unref g r in
      do! get_rec g r in
      clear_bucket g rs
  end.

Fixpoint clear_buckets (n : nat) (i : nat) (g : pages F) (tab : Z) : res (pages F) :=
  match n with
  | O => Ok g
  | S n =>
      let! t := deref (ppgs g !! tab) in
      let! b := deref (p_ht t !! i) in
      let! g := clear_bucket g b in
      clear_buckets n (S i) g tab
  end.

(** One round for each table of the chain, each over the table of the area. *)
Fixpoint clear_loop (fuel : nat) (g : pages F) (own tab : Z) : res (pages F) :=
  if tab =? 0 then Ok g
  else
    match fuel with
    | O => Fault OutOfFuel
    | S fuel =>
        let! g := clear_buckets 32 0 g own in
        let! t := deref (ppgs g !! tab) in
        clear_loop fuel g own (p_parent t)
    end.

Definition vmm_ppg_clear (g : pages F) (a : vm_area) : res (pages F) := clear_loop (Z.to_nat (pnext g)) g (a_ppgs a) (a_ppgs a).

(** [unmap] of [mman.c]; with it and [vmm_ppg_new] the address spaces of file [Vma] have their
    pages. *)
Definition unmap (g : pages F) (a : vm_area) (va : Z) : res (pages F) :=
  let! r := vmm_ppg_query g a (pg_query g va) in
  let! g := (match r with Some r => vmm_ppg_unref g r | None => Ok g end) in
  Ok (pg_unmap g va).

#[export] Instance cow_unmap : PageUnmap (pages F) := unmap.

#[export] Instance cow_split : PageSplit (pages F) := vmm_ppg_new.

End Ppg.

(** ** Page faults *)

Definition mapprot (p : Z) : Z :=
  Z.lor (if Z.land p PROT_WRITE =? 0 then 0 else PE_RW) (if Z.land p PROT_EXEC =? 0 then PE_NX else 0).

Definition align_dn (x y : Z) : Z := y * (x / y).

(** The files: the size of a node and the bytes [vfs_read] returns. *)
Class Files := {
  node_siz : Z -> Z;
  vfs_read : Z -> Z -> Z -> list Z;
  vfs_read_short : forall node siz off, 0 <= siz -> Z.of_nat (length (vfs_read node siz off)) <= siz
}.

(** The kernel: its pages, the address space of each process, and the areas to be written back. *)
Record cow (F : Type) := Cow { pg : pages F; vsps : gmap Z vm_space; vmm_sync_list : list (Z * Z) }.
Arguments Cow {F}.
Arguments pg {F}.
Arguments vsps {F}.
Arguments vmm_sync_list {F}.

#[export] Instance eta_cow {F : Type} : Eta (cow F) := fun m => Cow (pg m) (vsps m) (vmm_sync_list m).

Section Fault.
Context {F : Type} `{!FramePool F} `{!Files}.

Definition alloc_page (g : pages F) : res (Z * pages F) :=
  let! r := fp_alloc (pframes g) in
  Ok (fst r, g <| pframes := snd r |>).

(** [memcpy] between two pages, and to the start of one. *)
Definition copy_page (g : pages F) (dst src : Z) : res (pages F) :=
  let! b := deref (ram g !! src) in
  do! deref (ram g !! dst) in
  Ok (g <| ram ::= <[dst := b]> |>).

Definition fill_page (g : pages F) (dst : Z) (bytes : list Z) : res (pages F) :=
  let! b := deref (ram g !! dst) in
  Ok (g <| ram ::= <[dst := bytes ++ drop (length bytes) b]> |>).

Definition vmm_sync_regst (m : cow F) (p : Z) : res (cow F) :=
  let! s := deref (vsps m !! pcr3 (pg m)) in
  let! a := area s p in
  do! ASSERTK (negb (Z.land (a_flgs a) MAP_SHARED =? 0)) in
  do! ASSERTK (a_label a =? MAPL_FILE) in
  if negb (Z.land (a_flgs a) MAP_SYNCING =? 0) then Ok m
  else
    let! s := set_area s p (fun a => a <| a_flgs := Z.lor (a_flgs a) MAP_SYNCING |>) in
    Ok (m <| vsps ::= <[pcr3 (pg m) := s]> |> <| vmm_sync_list ::= cons (p, pcr3 (pg m)) |>).

(** The three cases of [pagefault_handler]: a page of a file, a page of anonymous memory, and a
    write to a page that is mapped. *)
Definition fault_file (m : cow F) (p : Z) (a : vm_area) (pgbase : Z) : res (cow F) :=
  let foff := u64 (a_foff a + pgbase - a_s a) in
  let siz := MIN (u64 (node_siz (a_node a) - foff)) PAGE_SIZ in
  let! r := alloc_page (pg m) in
  let '(ppg, g) := r in
  let g := pg_map g ppg pgbase (Z.lor (Z.lor PE_P PE_US) PE_RW) in
  let! g := fill_page g ppg (vfs_read (a_node a) siz foff) in
  let g := pg_map g ppg pgbase (Z.lor (Z.lor PE_P PE_US) (mapprot (a_prot a))) in
  let! g := vmm_ppg_regst g a ppg 0 in
  let m := m <| pg := g |> in
  if negb (Z.land (a_flgs a) MAP_SHARED =? 0) then vmm_sync_regst m p else Ok m.

Definition fault_anon (m : cow F) (a : vm_area) (pgbase : Z) : res (cow F) :=
  let! r := alloc_page (pg m) in
  let '(ppg, g) := r in
  let g := pg_map g ppg pgbase (Z.lor (Z.lor PE_P PE_US) (mapprot (a_prot a))) in
  let! g := vmm_ppg_regst g a ppg 0 in
  Ok (m <| pg := g |>).

Definition fault_write (m : cow F) (a : vm_area) (pgbase : Z) : res (cow F) :=
  let g := pg m in
  let ppg := pg_query g pgbase in
  do! ASSERTK (negb (ppg =? 0)) in
  let! r := vmm_ppg_query g a ppg in
  let! r := deref r in
  let! c := get_rec g r in
  if r_cnt c =? 1 then
    let g := pg_map g ppg pgbase (Z.lor (Z.lor PE_P PE_US) (mapprot (a_prot a))) in
    let! g := vmm_ppg_reparent g r a in
    Ok (m <| pg := g |>)
  else
    let! g := set_cnt g r (r_cnt c - 1) in
    let! n := alloc_page g in
    let '(npg, g) := n in
    let! g := copy_page g npg ppg in
    let! g := vmm_ppg_regst g a npg 0 in
    let g := pg_map g npg pgbase (Z.lor (Z.lor PE_P PE_US) (mapprot (a_prot a))) in
    Ok (m <| pg := g |>).

(** [pagefault_handler]: whether the access can be tried again; otherwise the process gets
    [SIGSEGV]. *)
Definition pagefault_handler (m : cow F) (addr errcode : Z) : res (bool * cow F) :=
  let! s := deref (vsps m !! pcr3 (pg m)) in
  let! v := vmm_sp_containing s addr in
  match v with
  | None => Ok (false, m)
  | Some p =>
      let! a := area s p in
      let pgbase := align_dn addr PAGE_SIZ in
      if (Z.land errcode PF_P =? 0) && (a_label a =? MAPL_FILE) then
        let! m := fault_file m p a pgbase in Ok (true, m)
      else if (Z.land errcode PF_P =? 0) && negb (Z.land (a_flgs a) MAP_ANON =? 0) then
        let! m := fault_anon m a pgbase in Ok (true, m)
      else if negb (Z.land errcode PF_WRITE =? 0) && negb (Z.land (a_prot a) PROT_WRITE =? 0) then
        let! m := fault_write m a pgbase in Ok (true, m)
      else Ok (false, m)
  end.

(** ** The processor *)

(** An access of a process: the page it reaches; an access the tables do not allow raises a page
    fault and is tried again.  The first fault maps the page, a second one may refuse a write. *)
Fixpoint touch (fuel : nat) (m : cow F) (p va : Z) (wr : bool) : res (option Z * cow F) :=
  let e := entry (pg m) p (align_dn va PAGE_SIZ) in
  if present e && (negb wr || writable e) then Ok (Some (ADDR e), m)
  else
    match fuel with
    | O => Fault OutOfFuel
    | S fuel =>
        let errcode := (if present e then PF_P else 0) + (if wr then PF_WRITE else 0) + PF_USER in
        let! r := pagefault_handler (m <| pg ::= fun g => g <| pcr3 := p |> |>) va errcode in
        if fst r then touch fuel (snd r) p va wr else Ok (None, snd r)
    end.

(** A byte read or written by a process, [None] for a segmentation fault. *)
Definition load (m : cow F) (p va : Z) : res (option Z * cow F) :=
  let! r := touch 2 m p va false in
  match fst r with
  | None => Ok (None, snd r)
  | Some pa =>
      let! b := deref (ram (pg (snd r)) !! pa) in
      let! x := aget b (va mod PAGE_SIZ) in
      Ok (Some x, snd r)
  end.

Definition store (m : cow F) (p va x : Z) : res (bool * cow F) :=
  let! r := touch 2 m p va true in
  match fst r with
  | None => Ok (false, snd r)
  | Some pa =>
      let! b := deref (ram (pg (snd r)) !! pa) in
      let! b := aset b (va mod PAGE_SIZ) x in
      Ok (true, (snd r) <| pg ::= fun g => g <| ram ::= <[pa := b]> |> |>)
  end.

(** [copy_pgt]: both processes lose the right to write. *)
Definition copy_tables (g : pages F) (prt chd : Z) : res (pages F) :=
  let! t := deref (pgts g !! prt) in
  let t := (fun e => Z.ldiff e PE_RW) <$> t in
  Ok (g <| pgts := <[chd := t]> (<[prt := t]> (pgts g)) |>).

Definition fork_pgt (m : cow F) (prt chd : Z) : res (cow F) :=
  let! s := deref (vsps m !! prt) in
  let! g := copy_tables (pg m) prt chd in
  let! r := vmm_new_space (Some s) (heap_next s) g in
  let '(s', g) := r in
  Ok (m <| pg := g |> <| vsps ::= <[chd := s']> |>).

(** ** Runs of processes *)

(** What processes do, and what they get to see of it. *)
Inductive cmd := Load (p va : Z) | Store (p va x : Z) | Fork (p c : Z).

Inductive out := Loaded (o : option Z) | Stored (ok : bool) | Forked.

Definition step (m : cow F) (c : cmd) : res (out * cow F) :=
  match c with
  | Load p va => let! r := load m p va in Ok (Loaded (fst r), snd r)
  | Store p va x => let! r := store m p va x in Ok (Stored (fst r), snd r)
  | Fork p c => let! m := fork_pgt m p c in Ok (Forked, m)
  end.

Fixpoint run (m : cow F) (cs : list cmd) : res (list out * cow F) :=
  match cs with
  | [] => Ok ([], m)
  | c :: cs =>
      let! r := step m c in
      let! r' := run (snd r) cs in
      Ok (fst r :: fst r', snd r')
  end.

End Fault.

(** ** The memory a program expects *)

(** Whether an address may be written. *)
Definition may_write (rs : list (Z * vm_area)) (va : Z) : bool :=
  match mapped rs va with Some (_, prot, _, _) => negb (Z.land prot PROT_WRITE =? 0) | None => false end.

(** Each process has bytes of its own, as far as they are known; a child starts with those of its
    parent.  [None]: the output is not what this memory allows. *)
Definition spec_step (rs : list (Z * vm_area)) (st : gmap Z (gmap Z Z)) (c : cmd) (o : out) : option (gmap Z (gmap Z Z)) :=
  match c, o with
  | Load p va, Loaded o =>
      own ← st !! p;
      match mapped rs va, o with
      | None, None => Some st
      | Some _, Some x =>
          match own !! va with
          | Some y => if y =? x then Some st else None
          | None => Some (<[p := <[va := x]> own]> st)
          end
      | _, _ => None
      end
  | Store p va x, Stored ok =>
      own ← st !! p;
      if Bool.eqb ok (may_write rs va) then Some (if ok then <[p := <[va := x]> own]> st else st) else None
  | Fork p c, Forked =>
      own ← st !! p;
      Some (<[c := own]> st)
  | _, _ => None
  end.

Fixpoint spec_run (rs : list (Z * vm_area)) (st : gmap Z (gmap Z Z)) (cs : list cmd) (os : list out) : option (gmap Z (gmap Z Z)) :=
  match cs, os with
  | [], [] => Some st
  | c :: cs, o :: os => st ← spec_step rs st c o; spec_run rs st cs os
  | _, _ => None
  end.

(** Commands of processes that exist; only [root] forks. *)
Fixpoint valid (root : Z) (live : list Z) (cs : list cmd) : Prop :=
  match cs with
  | [] => True
  | Load p va :: cs => p ∈ live /\ 0 <= va /\ valid root live cs
  | Store p va _ :: cs => p ∈ live /\ 0 <= va /\ valid root live cs
  | Fork p c :: cs => p = root /\ (c ∉ live) /\ valid root (c :: live) cs
  end.

(** A process with its address space, an empty table for each area, and no page. *)
Definition boot {F : Type} (root : Z) (s : vm_space) (rs : list (Z * vm_area)) (next : Z) (mem : gmap Z (list Z)) (f : F) : cow F :=
  Cow (Pages ∅ (list_to_map (map (fun u => (a_ppgs u.2, Ppg 0 (replicate 32 []))) rs)) next {[root := ∅]} root mem f) {[root := s]} [].

(** ** Bits of entries *)

Lemma writable_bit e : writable e = Z.testbit e 1.
Proof.
  unfold writable, PE_RW. change 2 with (2 ^ 1). destruct (Z.testbit e 1) eqn:E.
  - apply negb_true_iff, Z.eqb_neq. intros H. assert (Z.testbit (Z.land e (2 ^ 1)) 1 = false) as H1 by by rewrite H, Z.bits_0.
    by rewrite Z.land_spec, E, Z.pow2_bits_true in H1 by lia.
  - apply negb_false_iff, Z.eqb_eq. apply Z.bits_inj'. intros i Hi. rewrite Z.land_spec, Z.bits_0, Z.pow2_bits_eqb by lia.
    destruct (Z.eqb_spec 1 i) as [<-|]; [by rewrite E|by rewrite andb_false_r].
Qed.

Lemma low_bit p f i : frame p -> (i = 0 \/ i = 1) -> Z.testbit (Z.lor (ADDR p) (FLAG f)) i = Z.testbit f i.
Proof.
  intros Hp Hi. rewrite frame_ADDR by done. unfold FLAG. rewrite Z.lor_spec, Z.land_spec, (frame_bit p i Hp).
  assert (Z.testbit 0x000FFFFFFFFFF000 i = false /\ Z.testbit 0x7FF i = true) as [-> ->] by (destruct Hi as [->| ->]; split; reflexivity). by rewrite andb_false_r, andb_true_r.
Qed.

(** The entry of a page with the rights of an area. *)
Definition user_entry_of (p prot : Z) : Z := Z.lor (ADDR p) (FLAG (Z.lor (Z.lor PE_P PE_US) (mapprot prot))).

Lemma user_entry_spec p prot : frame p ->
  present (user_entry_of p prot) = true /\ ADDR (user_entry_of p prot) = p /\
  writable (user_entry_of p prot) = negb (Z.land prot PROT_WRITE =? 0).
Proof.
  intros Hp. unfold user_entry_of. rewrite present_bit, writable_bit, !low_bit by auto. split_and!.
  - rewrite !Z.lor_spec. reflexivity.
  - rewrite (frame_ADDR p) by done. by apply ADDR_low.
  - unfold mapprot. destruct (Z.land prot PROT_WRITE =? 0), (Z.land prot PROT_EXEC =? 0); reflexivity.
Qed.

Lemma readonly_spec e : present (Z.ldiff e PE_RW) = present e /\ ADDR (Z.ldiff e PE_RW) = ADDR e /\ writable (Z.ldiff e PE_RW) = false.
Proof.
  rewrite !present_bit, writable_bit, !Z.ldiff_spec. split_and!; [apply andb_true_r| |apply andb_false_r].
  unfold ADDR. apply Z.bits_inj'. intros i Hi. rewrite !Z.land_spec, Z.ldiff_spec. unfold PE_RW. change 2 with (2 ^ 1). rewrite Z.pow2_bits_eqb by lia.
  destruct (Z.eqb_spec 1 i) as [<-|]; [by rewrite !andb_false_r|by rewrite andb_true_r].
Qed.

(** ** Addresses *)

Lemma align_spec va : 0 <= va -> align_dn va PAGE_SIZ <= va < align_dn va PAGE_SIZ + PAGE_SIZ /\ (PAGE_SIZ | align_dn va PAGE_SIZ).
Proof.
  intros Hv. unfold align_dn, PAGE_SIZ. split; [pose proof (Z.mul_div_le va 4096); pose proof (Z.mul_succ_div_gt va 4096); lia|]. by exists (va / 4096); lia.
Qed.

(** The area of an address, among areas made of whole pages. *)
Definition area_at (rs : list (Z * vm_area)) (va : Z) : option (Z * vm_area) := find (fun u => inside va u.2) rs.

Definition paged (a : vm_area) : Prop := (PAGE_SIZ | a_s a) /\ (PAGE_SIZ | a_t a).

Lemma area_at_align rs va : Forall (fun u => paged u.2) rs -> 0 <= va -> area_at rs (align_dn va PAGE_SIZ) = area_at rs va.
Proof.
  intros Hp Hv. destruct (align_spec va Hv) as [H1 H2]. set (b := align_dn va PAGE_SIZ) in *. unfold area_at. induction Hp as [|u rs [[x Hs] [y Ht]] _ IH]; [done|]. cbn [find].
  destruct H2 as [z Hz]. unfold PAGE_SIZ in *. assert (inside b u.2 = inside va u.2) as ->; [|by rewrite IH]. unfold inside. f_equal; lia.
Qed.

Lemma area_at_elem rs va u : area_at rs va = Some u -> u ∈ rs /\ inside va u.2 = true.
Proof. intros H. apply find_some in H as [H1 H2]. split; [by apply list_elem_of_In|done]. Qed.

(** ** Tables of pages *)

Definition held (P : gmap Z ppg) (T r : Z) : Prop := exists t, P !! T = Some t /\ r ∈ concat (p_ht t).

Inductive in_chain (P : gmap Z ppg) : Z -> Z -> Prop :=
| ch_here T t : P !! T = Some t -> in_chain P T T
| ch_up T t T' : P !! T = Some t -> p_parent t <> 0 -> in_chain P (p_parent t) T' -> in_chain P T T'.

Lemma in_chain_mono (P P' : gmap Z ppg) T T' : (forall T t, P !! T = Some t -> exists t', P' !! T = Some t' /\ p_parent t' = p_parent t) ->
  in_chain P T T' -> in_chain P' T T'.
Proof.
  intros H. induction 1 as [T t Ht|T t T' Ht Hp _ IH]; destruct (H _ _ Ht) as (t' & Ht' & E).
  - by eapply ch_here.
  - eapply ch_up; [exact Ht'|by rewrite E|by rewrite E].
Qed.

Lemma concat_alter (l : list (list Z)) i x : (i < length l)%nat -> concat (alter (cons x) i l) ≡ₚ x :: concat l.
Proof.
  revert i. induction l as [|b l IH]; intros [|i] Hi; cbn in *; try lia; [done|]. rewrite (IH i) by lia. by rewrite Permutation_middle.
Qed.

Lemma concat_filter (l : list (list Z)) (x : Z) : concat (map (filter (fun y => y <> x)) l) = filter (fun y => y <> x) (concat l).
Proof. induction l as [|b l IH]; cbn; [done|]. by rewrite filter_app, IH. Qed.

Lemma elem_bucket (l : list (list Z)) (x : Z) : x ∈ concat l <-> exists i b, l !! i = Some b /\ x ∈ b.
Proof.
  induction l as [|b l IH]; cbn; [split; [by intros ?%elem_of_nil|by intros (i & b & H & _); rewrite lookup_nil in H]|]. rewrite elem_of_app, IH. split.
  - intros [H|(i & b' & Hi & Hx)]; [by exists 0%nat, b|by exists (S i), b'].
  - intros ([|i] & b' & Hi & Hx); cbn in Hi; [injection Hi as <-; by left|right; by exists i, b'].
Qed.

Section Proofs.
Context {F : Type} `{!FramePool F} `{!FrameLaws F} {FS : Files}.

(** The tables and their records; [k] more references can be counted. *)
Record tabs_inv (k : Z) (g : pages F) : Prop := {
  t_tab : forall T t, ppgs g !! T = Some t -> 0 < T < pnext g /\ length (p_ht t) = 32%nat /\
    (p_parent t = 0 \/ (p_parent t < T /\ is_Some (ppgs g !! p_parent t)));
  t_slot : forall T t i b r, ppgs g !! T = Some t -> p_ht t !! i = Some b -> r ∈ b ->
    exists c, recs g !! r = Some c /\ i = Z.to_nat (hash (r_pa c) mod 32);
  t_once : forall T T' r, held (ppgs g) T r -> held (ppgs g) T' r -> T = T';
  t_nodup : forall T t, ppgs g !! T = Some t -> NoDup (concat (p_ht t));
  t_pa : forall r r' c c', recs g !! r = Some c -> recs g !! r' = Some c' -> r_pa c = r_pa c' -> r = r';
  t_rec : forall r c, recs g !! r = Some c -> 0 < r < pnext g /\ 1 <= r_cnt c /\ r_cnt c + k < 2 ^ 64;
  t_next : 0 < pnext g
}.

Lemma query_bucket_ok (g : pages F) b pa : (forall r, r ∈ b -> is_Some (recs g !! r)) -> exists o, query_bucket g b pa = Ok o /\
  match o with
  | Some r => exists c, r ∈ b /\ recs g !! r = Some c /\ r_pa c = pa
  | None => forall r c, r ∈ b -> recs g !! r = Some c -> r_pa c <> pa
  end.
Proof.
  induction b as [|r b IH]; intros Hb; cbn [query_bucket]; [exists None; split; [done|]; by intros ? ? ?%elem_of_nil|].
  destruct (Hb r ltac:(left)) as [c Hc]. unfold get_rec. rewrite Hc. cbn [deref res_bind]. destruct (Z.eqb_spec (r_pa c) pa) as [E|E].
  - exists (Some r). split; [done|]. exists c. split_and!; [left|done|done].
  - destruct IH as (o & -> & Ho); [intros r' Hr'; apply Hb; by right|]. exists o. split; [done|]. destruct o as [r'|].
    + destruct Ho as (c' & H1 & H2 & H3). exists c'. split_and!; [by right|done|done].
    + intros r' c' [->|Hr']%elem_of_cons Hc'; [congruence|by apply (Ho r')].
Qed.

(** The record of a page is found in the tables of an area that can reach it. *)
Lemma query_ok k (g : pages F) T0 T r c : tabs_inv k g -> in_chain (ppgs g) T0 T -> held (ppgs g) T r -> recs g !! r = Some c ->
  forall fuel, (Z.to_nat T0 <= fuel)%nat -> query_loop fuel g T0 (r_pa c) = Ok (Some r).
Proof.
  intros I Hch Hh Hr. induction Hch as [T t Ht|T t T' Ht Hp Hch IH]; intros fuel Hf; destruct (t_tab _ _ I _ _ Ht) as (H0 & Hlen & Hpar).
  all: destruct fuel as [|fuel]; [lia|]; cbn [query_loop]; rewrite (proj2 (Z.eqb_neq T 0)) by lia; rewrite Ht; cbn [deref res_bind].
  all: pose proof (Z.mod_pos_bound (hash (r_pa c)) 32 ltac:(lia)); destruct (lookup_lt_is_Some_2 (p_ht t) (Z.to_nat (hash (r_pa c) mod 32))) as [b Hb]; [lia|]; rewrite Hb; cbn [deref res_bind].
  all: destruct (query_bucket_ok g b (r_pa c)) as (o & Eo & Ho); [intros r' Hr'; destruct (t_slot _ _ I _ _ _ _ _ Ht Hb Hr') as (c' & -> & _); by eexists|]; rewrite Eo; cbn [res_bind].
  - destruct o as [r'|]; [destruct Ho as (c' & _ & Hc' & E); f_equal; f_equal; by eapply (t_pa _ _ I)|]. exfalso. destruct Hh as (t' & Ht' & Hin). assert (t' = t) as -> by congruence.
    apply elem_bucket in Hin as (i & b' & Hi & Hin). destruct (t_slot _ _ I _ _ _ _ _ Ht Hi Hin) as (c' & Hc' & ->). assert (c' = c) as -> by congruence. rewrite Hb in Hi. injection Hi as <-. by apply (Ho r c).
  - destruct o as [r'|]; [destruct Ho as (c' & _ & Hc' & E); f_equal; f_equal; by eapply (t_pa _ _ I)|]. apply IH; [done|]. lia.
Qed.

Lemma ppg_query_ok k (g : pages F) (a : vm_area) T r c : tabs_inv k g -> in_chain (ppgs g) (a_ppgs a) T -> held (ppgs g) T r -> recs g !! r = Some c ->
  vmm_ppg_query g a (r_pa c) = Ok (Some r).
Proof.
  intros I Hch Hh Hr. eapply query_ok; try done. assert (exists t, ppgs g !! a_ppgs a = Some t) as [t Ht] by (destruct Hch; by eexists). destruct (t_tab _ _ I _ _ Ht). lia.
Qed.

(** ** What the page tables may hold *)

Definition ent (g : pages F) (p va : Z) : option Z := let e := entry g p va in if present e then Some e else None.

Definition maps (g : pages F) (p pa : Z) : Prop := exists va e, ent g p va = Some e /\ ADDR e = pa.

Definition page_ok (g : pages F) (pa : Z) : Prop := frame pa /\ pa <> 0 /\ exists bs, ram g !! pa = Some bs /\ length bs = Z.to_nat PAGE_SIZ.

(** A page has a record in a table that can be reached from [T0]; for an owner in [T0] itself. *)
Definition backed (g : pages F) (T0 : Z) (strict : Prop) (pa : Z) : Prop :=
  exists T r c, in_chain (ppgs g) T0 T /\ held (ppgs g) T r /\ recs g !! r = Some c /\ r_pa c = pa /\ (strict -> T = T0).

(** Private memory, of a file or anonymous. *)
Definition private (a : vm_area) : Prop :=
  paged a /\ Z.land (a_flgs a) MAP_SHARED = 0 /\ (a_label a = MAPL_FILE \/ Z.land (a_flgs a) MAP_ANON <> 0).

Record map_inv (own : Z -> Prop) (R : gmap Z (list (Z * vm_area))) (g : pages F) : Prop := {
  m_dom : forall p, is_Some (pgts g !! p) <-> is_Some (R !! p);
  m_areas : forall p rs, R !! p = Some rs -> Forall (fun u => private u.2) rs /\ NoDup (map (fun u => a_ppgs u.2) rs) /\
    forall u, u ∈ rs -> is_Some (ppgs g !! a_ppgs u.2);
  m_ent : forall p va e, ent g p va = Some e -> (PAGE_SIZ | va) /\ page_ok g (ADDR e) /\
    exists rs u, R !! p = Some rs /\ area_at rs va = Some u /\ backed g (a_ppgs u.2) (own p) (ADDR e);
  m_once : forall p va va' e e', ent g p va = Some e -> ent g p va' = Some e' -> ADDR e = ADDR e' -> va = va';
  m_cnt : forall r c l, recs g !! r = Some c -> NoDup l -> (forall q, q ∈ l -> maps g q (r_pa c)) -> Z.of_nat (length l) <= r_cnt c;
  m_rw : forall p va e q, ent g p va = Some e -> writable e = true -> maps g q (ADDR e) -> q = p;
  m_prot : forall p va e rs u, ent g p va = Some e -> R !! p = Some rs -> area_at rs va = Some u -> writable e = true -> Z.land (a_prot u.2) PROT_WRITE <> 0;
  m_pool : forall f, fp_has (pframes g) f -> (exists bs, ram g !! f = Some bs /\ length bs = Z.to_nat PAGE_SIZ) /\
    forall r c, recs g !! r = Some c -> r_pa c <> f
}.

Lemma pool_unmapped own R (g : pages F) f p va e : map_inv own R g -> fp_has (pframes g) f -> ent g p va = Some e -> ADDR e <> f.
Proof.
  intros M Hf He E. destruct (m_ent _ _ _ M _ _ _ He) as (_ & _ & rs & u & _ & _ & T & r & c & _ & _ & Hr & Hpa & _). destruct (m_pool _ _ _ M _ Hf) as [_ Hno]. apply (Hno r c Hr). congruence.
Qed.

Lemma ent_insert (g g' : pages F) p va e tb q v : pgts g !! p = Some tb -> present e = true -> pgts g' = <[p := <[va := e]> tb]> (pgts g) ->
  ent g' q v = if decide (q = p /\ v = va) then Some e else ent g q v.
Proof.
  intros Htb He Hg. unfold ent, entry. rewrite Hg. destruct (decide (q = p /\ v = va)) as [[-> ->]|Hne].
  - rewrite lookup_insert_eq. cbn. rewrite lookup_insert_eq. cbn. by rewrite He.
  - destruct (decide (q = p)) as [->|]; [|by rewrite lookup_insert_ne by done]. rewrite lookup_insert_eq, Htb. cbn. rewrite lookup_insert_ne; [done|]. intros <-. by apply Hne.
Qed.

(** ** A new page *)

Section Install.
Context (own : Z -> Prop) (k : Z) (R : gmap Z (list (Z * vm_area))) (g g' : pages F) (p va e f : Z) (bs : list Z) (t : ppg) (tb : gmap Z Z) (rs : list (Z * vm_area)) (u : Z * vm_area) (fr : F) (recs0 : gmap Z ppgrec).
Context (I : tabs_inv k g) (M : map_inv own R g).
Context (HR : R !! p = Some rs) (Hu : area_at rs va = Some u) (Hva : (PAGE_SIZ | va)) (Ht : ppgs g !! a_ppgs u.2 = Some t) (Htb : pgts g !! p = Some tb).
Context (Hf : fp_has (pframes g) f) (Hf0 : f <> 0) (Hff : frame f) (Hfr : forall q, fp_has fr q -> fp_has (pframes g) q /\ q <> f).
Context (He : present e = true) (Hea : ADDR e = f) (Hew : writable e = true -> Z.land (a_prot u.2) PROT_WRITE <> 0) (Hbs : length bs = Z.to_nat PAGE_SIZ) (Hk : 0 <= k < 2 ^ 64 - 1).
(** The records of the old pages; the one of the page that was here may lose a reference. *)
Context (Hdom : forall r c, recs g !! r = Some c -> exists c', recs0 !! r = Some c' /\ r_pa c' = r_pa c).
Context (Hrec : forall r c', recs0 !! r = Some c' -> exists c, recs g !! r = Some c /\ r_pa c' = r_pa c /\ 1 <= r_cnt c' <= r_cnt c /\
  (r_cnt c' = r_cnt c \/ (r_cnt c' = r_cnt c - 1 /\ exists e0, ent g p va = Some e0 /\ ADDR e0 = r_pa c))).
Context (Grecs : recs g' = <[pnext g := PpgRec f 1 0]> recs0) (Gppgs : ppgs g' = <[a_ppgs u.2 := t <| p_ht ::= alter (cons (pnext g)) (Z.to_nat (hash f mod 32)) |>]> (ppgs g)).
Context (Gnext : pnext g' = pnext g + 1) (Gpgts : pgts g' = <[p := <[va := e]> tb]> (pgts g)) (Gram : ram g' = <[f := bs]> (ram g)) (Gpool : pframes g' = fr).

Lemma install_fresh r c : recs g !! r = Some c -> r_pa c <> f.
Proof. destruct (m_pool _ _ _ M _ Hf) as [_ H]. apply H. Qed.

Lemma install_id : recs g !! pnext g = None.
Proof. destruct (recs g !! pnext g) as [c|] eqn:E; [|done]. destruct (t_rec _ _ I _ _ E). lia. Qed.

Lemma install_id0 : recs0 !! pnext g = None.
Proof. destruct (recs0 !! pnext g) as [c|] eqn:E; [|done]. destruct (Hrec _ _ E) as (c' & H & _). by rewrite install_id in H. Qed.

Lemma install_ent q v : ent g' q v = if decide (q = p /\ v = va) then Some e else ent g q v.
Proof. exact (ent_insert g g' p va e tb q v Htb He Gpgts). Qed.

Lemma install_maps q pa : pa <> f -> maps g' q pa -> maps g q pa /\ (q = p -> forall e0, ent g p va = Some e0 -> ADDR e0 <> pa).
Proof.
  intros Hpa (v & e1 & H1 & H2). rewrite install_ent in H1. destruct (decide _) as [[-> ->]|Hne]; [congruence|]. split; [by exists v, e1|]. intros -> e0 H0 E0. apply Hne. split; [done|]. eapply (m_once _ _ _ M); [exact H1|exact H0|congruence].
Qed.

Lemma install_maps_f q : maps g' q f -> q = p.
Proof.
  intros (v & e1 & H1 & H2). rewrite install_ent in H1. destruct (decide _) as [[-> ->]|Hne]; [done|]. by eapply pool_unmapped in H2.
Qed.

Lemma install_tab T t' : ppgs g !! T = Some t' -> exists t2, ppgs g' !! T = Some t2 /\ p_parent t2 = p_parent t' /\ forall r, r ∈ concat (p_ht t') -> r ∈ concat (p_ht t2).
Proof.
  intros H. rewrite Gppgs. destruct (decide (T = a_ppgs u.2)) as [->|]; [|rewrite lookup_insert_ne by done; by exists t'].
  assert (t' = t) as -> by congruence. rewrite lookup_insert_eq. eexists. split; [done|]. split; [done|]. cbn. intros r Hr. destruct (t_tab _ _ I _ _ Ht) as (_ & Hl & _).
  pose proof (Z.mod_pos_bound (hash f) 32 ltac:(lia)). rewrite concat_alter by lia. by right.
Qed.

Lemma install_held T r : held (ppgs g') T r <-> held (ppgs g) T r \/ (T = a_ppgs u.2 /\ r = pnext g).
Proof.
  destruct (t_tab _ _ I _ _ Ht) as (_ & Hl & _). pose proof (Z.mod_pos_bound (hash f) 32 ltac:(lia)). unfold held. rewrite Gppgs. split.
  - intros (t' & H1 & H2). destruct (decide (T = a_ppgs u.2)) as [->|]; [|rewrite lookup_insert_ne in H1 by done; left; by exists t'].
    rewrite lookup_insert_eq in H1. injection H1 as <-. cbn in H2. rewrite concat_alter in H2 by lia. apply elem_of_cons in H2 as [->|H2]; [by right|left; by exists t].
  - intros [(t' & H1 & H2)|[-> ->]].
    + destruct (install_tab T t' H1) as (t2 & H3 & _ & H4). rewrite Gppgs in H3. exists t2. split; [done|]. by apply H4.
    + rewrite lookup_insert_eq. eexists. split; [done|]. cbn. rewrite concat_alter by lia. left.
Qed.

Lemma install_unheld T : ~ held (ppgs g) T (pnext g).
Proof.
  intros (t' & H1 & (i & b & Hi & Hb)%elem_bucket). destruct (t_slot _ _ I _ _ _ _ _ H1 Hi Hb) as (c & Hc & _). by rewrite install_id in Hc.
Qed.

Lemma install_rec r c' : recs g' !! r = Some c' -> (r = pnext g /\ c' = PpgRec f 1 0) \/ (r <> pnext g /\ recs0 !! r = Some c').
Proof. rewrite Grecs. destruct (decide (r = pnext g)) as [->|]; [rewrite lookup_insert_eq; intros [= <-]; by left|rewrite lookup_insert_ne by done; by right]. Qed.

Lemma install_tabs : tabs_inv k g'.
Proof.
  destruct (t_tab _ _ I _ _ Ht) as (_ & Hl & _). pose proof (Z.mod_pos_bound (hash f) 32 ltac:(lia)) as Hm. pose proof (t_next _ _ I) as Hn. split.
  - intros T t' H. rewrite Gppgs in H. assert (exists t0, ppgs g !! T = Some t0 /\ p_parent t' = p_parent t0 /\ length (p_ht t') = length (p_ht t0)) as (t0 & H0 & -> & ->).
    { destruct (decide (T = a_ppgs u.2)) as [->|]; [|rewrite lookup_insert_ne in H by done; by exists t']. rewrite lookup_insert_eq in H. injection H as <-. exists t. cbn. by rewrite length_alter. }
    destruct (t_tab _ _ I _ _ H0) as (H1 & H2 & H3). split_and!; [lia|lia|done|]. destruct H3 as [H3|[H3 [t1 H4]]]; [by left|right]. split; [done|]. destruct (install_tab _ _ H4) as (t2 & -> & _). by eexists.
  - intros T t' i b r H Hi Hr. assert (r = pnext g /\ i = Z.to_nat (hash f mod 32) \/ exists t0 b0, ppgs g !! T = Some t0 /\ p_ht t0 !! i = Some b0 /\ r ∈ b0) as [[-> ->]|(t0 & b0 & H0 & Hi0 & Hr0)].
    { rewrite Gppgs in H. destruct (decide (T = a_ppgs u.2)) as [->|]; [|rewrite lookup_insert_ne in H by done; right; by exists t', b]. rewrite lookup_insert_eq in H. injection H as <-. cbn in Hi.
      destruct (decide (i = Z.to_nat (hash f mod 32))) as [->|]; [|rewrite list_lookup_alter_ne in Hi by done; right; by exists t, b]. rewrite list_lookup_alter_eq in Hi.
      destruct (p_ht t !! Z.to_nat (hash f mod 32)) as [b0|] eqn:Eb; [|done]. cbn in Hi. injection Hi as <-. apply elem_of_cons in Hr as [->|Hr]; [by left|right; by exists t, b0]. }
    + rewrite Grecs, lookup_insert_eq. by eexists.
    + destruct (t_slot _ _ I _ _ _ _ _ H0 Hi0 Hr0) as (c & Hc & ->). destruct (Hdom _ _ Hc) as (c' & Hc' & <-). exists c'. split; [|done]. rewrite Grecs, lookup_insert_ne; [done|]. intros <-. by rewrite install_id in Hc.
  - intros T T' r H1%install_held H2%install_held. destruct H1 as [H1|[-> ->]], H2 as [H2|[-> E]]; try done; [by eapply (t_once _ _ I)|subst; by apply install_unheld in H1|by apply install_unheld in H2].
  - intros T t' H. rewrite Gppgs in H. destruct (decide (T = a_ppgs u.2)) as [->|]; [|rewrite lookup_insert_ne in H by done; by eapply (t_nodup _ _ I)].
    rewrite lookup_insert_eq in H. injection H as <-. cbn. rewrite concat_alter by lia. constructor; [|by eapply (t_nodup _ _ I)]. intros Hin. apply (install_unheld (a_ppgs u.2)). by exists t.
  - intros r r' c c' H1%install_rec H2%install_rec E. destruct H1 as [[-> ->]|[_ H1]], H2 as [[-> ->]|[_ H2]]; cbn in *; [done| | |].
    + destruct (Hrec _ _ H2) as (c2 & H3 & H4 & _). exfalso. apply (install_fresh _ _ H3). congruence.
    + destruct (Hrec _ _ H1) as (c2 & H3 & H4 & _). exfalso. apply (install_fresh _ _ H3). congruence.
    + destruct (Hrec _ _ H1) as (c1 & H3 & H4 & _), (Hrec _ _ H2) as (c2 & H5 & H6 & _). eapply (t_pa _ _ I); [exact H3|exact H5|congruence].
  - intros r c [[-> ->]|[_ H]]%install_rec; cbn; [lia|]. destruct (Hrec _ _ H) as (c0 & H0 & _ & H1 & _). destruct (t_rec _ _ I _ _ H0). lia.
  - lia.
Qed.

Lemma install_chain T T' : in_chain (ppgs g) T T' -> in_chain (ppgs g') T T'.
Proof. apply in_chain_mono. intros T0 t0 H. destruct (install_tab _ _ H) as (t2 & H2 & E & _). by exists t2. Qed.

Lemma install_backed T0 (strict : Prop) pa : backed g T0 strict pa -> backed g' T0 strict pa.
Proof.
  intros (T & r & c & H1 & H2 & H3 & <- & H5). destruct (Hdom _ _ H3) as (c' & H6 & <-). exists T, r, c'. split_and!; [by apply install_chain|apply install_held; by left| |done|done].
  rewrite Grecs, lookup_insert_ne; [done|]. intros <-. by rewrite install_id in H3.
Qed.

Lemma install_page pa : pa <> f -> page_ok g pa -> page_ok g' pa.
Proof. intros Hne (H1 & H2 & b & H3 & H4). split_and!; [done|done|]. exists b. by rewrite Gram, lookup_insert_ne. Qed.

Lemma install_ents q v e1 : ent g' q v = Some e1 -> (PAGE_SIZ | v) /\ page_ok g' (ADDR e1) /\
  exists rs u, R !! q = Some rs /\ area_at rs v = Some u /\ backed g' (a_ppgs u.2) (own q) (ADDR e1).
Proof.
  rewrite install_ent. destruct (decide _) as [[-> ->]|Hne].
  - intros [= <-]. rewrite Hea. split; [done|]. split; [split_and!; [done|done|]; exists bs; by rewrite Gram, lookup_insert_eq|]. exists rs, u. split_and!; [done|done|].
    exists (a_ppgs u.2), (pnext g), (PpgRec f 1 0). split_and!; [apply install_chain; by eapply ch_here|apply install_held; by right|by rewrite Grecs, lookup_insert_eq|done|done].
  - intros H1. destruct (m_ent _ _ _ M _ _ _ H1) as (H2 & H3 & rs1 & u1 & H4 & H5 & H6). split; [done|]. split; [apply install_page; [by eapply pool_unmapped|done]|]. exists rs1, u1. split_and!; [done|done|by apply install_backed].
Qed.

Lemma install_count r c l : recs g' !! r = Some c -> NoDup l -> (forall q, q ∈ l -> maps g' q (r_pa c)) -> Z.of_nat (length l) <= r_cnt c.
Proof.
  intros Hr Hl Hm. destruct (install_rec _ _ Hr) as [[-> ->]|[_ H0]]; cbn in *.
  - destruct l as [|x [|y l]]; cbn; [lia|lia|]. apply NoDup_cons in Hl as [Hx _]. exfalso. apply Hx. rewrite (install_maps_f x), (install_maps_f y) by (apply Hm; set_solver). left.
  - destruct (Hrec _ _ H0) as (c0 & H1 & Epa & Hb & Hcnt). pose proof (install_fresh _ _ H1) as Hne. rewrite Epa in Hm.
    destruct Hcnt as [->|[-> (e0 & He0 & Ee0)]]; [apply (m_cnt _ _ _ M r c0 l H1 Hl); intros q Hq; exact (proj1 (install_maps q _ Hne (Hm q Hq)))|].
    assert (p ∉ l) as Hp by (intros Hp; destruct (install_maps p (r_pa c0) Hne (Hm p Hp)) as [_ Hc]; by apply (Hc eq_refl e0)).
    pose proof (m_cnt _ _ _ M r c0 (p :: l) H1) as Hc. cbn [length] in Hc. rewrite Nat2Z.inj_succ in Hc. enough (Z.succ (Z.of_nat (length l)) <= r_cnt c0) by lia. apply Hc; [by constructor|].
    intros q [->|Hq]%elem_of_cons; [by exists va, e0|]. exact (proj1 (install_maps q _ Hne (Hm q Hq))).
Qed.

Lemma install_map : map_inv own R g'.
Proof.
  split.
  - intros q. rewrite Gpgts, <- (m_dom _ _ _ M). destruct (decide (q = p)) as [->|]; [rewrite lookup_insert_eq, Htb; by split; eexists|by rewrite lookup_insert_ne].
  - intros q rs1 H1. destruct (m_areas _ _ _ M _ _ H1) as (H2 & H3 & H4). split_and!; [done|done|]. intros u1 [t1 Ht1]%H4. destruct (install_tab _ _ Ht1) as (t2 & -> & _). by eexists.
  - apply install_ents.
  - intros q v v' e1 e2. rewrite !install_ent. intros X1 X2 E12. destruct (decide (q = p /\ v = va)) as [D1|D1], (decide (q = p /\ v' = va)) as [D2|D2].
    + destruct D1, D2. congruence.
    + injection X1 as <-. rewrite Hea in E12. exfalso. by eapply (pool_unmapped _ _ _ _ _ _ _ M Hf X2).
    + injection X2 as <-. rewrite Hea in E12. exfalso. by eapply (pool_unmapped _ _ _ _ _ _ _ M Hf X1).
    + by eapply (m_once _ _ _ M).
  - apply install_count.
  - intros q v e1 q'. rewrite install_ent. destruct (decide _) as [[-> ->]|Hne]; [intros [= <-] _; rewrite Hea; apply install_maps_f|].
    intros H1 Hw Hq. assert (ADDR e1 <> f) as Hx by (by eapply pool_unmapped). apply install_maps in Hq as [Hq _]; [|done]. by eapply (m_rw _ _ _ M).
  - intros q v e1 rs1 u1. rewrite install_ent. destruct (decide _) as [[-> ->]|_]; [intros [= <-] H1 H2; replace u1 with u by congruence; done|apply (m_prot _ _ _ M)].
  - intros f' Hf'. rewrite Gpool in Hf'. destruct (Hfr _ Hf') as [Hf1 Hf2]. destruct (m_pool _ _ _ M _ Hf1) as [Hb Hno]. split; [by rewrite Gram, lookup_insert_ne|].
    intros r c [[-> ->]|[_ H0]]%install_rec; [cbn; congruence|]. destruct (Hrec _ _ H0) as (c0 & H1 & -> & _). by eapply Hno.
Qed.

End Install.

(** ** What a process sees *)

Definition view (g : pages F) (p va : Z) : option Z :=
  e ← ent g p (align_dn va PAGE_SIZ); b ← ram g !! ADDR e; b !! Z.to_nat (va mod PAGE_SIZ).

(** Nothing that was seen changes. *)
Definition kept (g g' : pages F) : Prop := forall q v x, view g q v = Some x -> view g' q v = Some x.

Lemma kept_trans (g1 g2 g3 : pages F) : kept g1 g2 -> kept g2 g3 -> kept g1 g3.
Proof. intros H1 H2 q v x H. by apply H2, H1. Qed.

(** The same page or a copy of it at one place, the same pages elsewhere. *)
Lemma kept_at (g g' : pages F) p va :
  (forall q v, ~ (q = p /\ v = va) -> ent g' q v = ent g q v) ->
  (forall q v e, ~ (q = p /\ v = va) -> ent g q v = Some e -> ram g' !! ADDR e = ram g !! ADDR e) ->
  (forall e, ent g p va = Some e -> exists e', ent g' p va = Some e' /\ ram g' !! ADDR e' = ram g !! ADDR e) ->
  kept g g'.
Proof.
  intros H1 H2 H3 q v x. unfold view. destruct (decide (q = p /\ align_dn v PAGE_SIZ = va)) as [[-> E]|Hne].
  - rewrite E. destruct (ent g p va) as [e|] eqn:Ee; [|done]. cbn. destruct (H3 e eq_refl) as (e' & -> & E'). cbn. by rewrite E'.
  - rewrite H1 by done. destruct (ent g q _) as [e|] eqn:Ee; [|done]. cbn. by rewrite (H2 q (align_dn v PAGE_SIZ) e).
Qed.

(** ** A page that is no longer shared *)

Definition del_rec (r : Z) (t : ppg) : ppg := t <| p_ht ::= map (filter (fun x => x <> r)) |>.

Section Exclusive.
Context (own : Z -> Prop) (k : Z) (R : gmap Z (list (Z * vm_area))) (g g' : pages F) (p va e e0 r : Z) (c : ppgrec) (t : ppg) (tb : gmap Z Z) (rs : list (Z * vm_area)) (u : Z * vm_area).
Context (I : tabs_inv k g) (M : map_inv own R g).
Context (HR : R !! p = Some rs) (Hu : area_at rs va = Some u) (Ht : ppgs g !! a_ppgs u.2 = Some t) (Htb : pgts g !! p = Some tb).
Context (He0 : ent g p va = Some e0) (Hr : recs g !! r = Some c) (Hpa : r_pa c = ADDR e0) (Hone : r_cnt c = 1).
Context (He : present e = true) (Hea : ADDR e = ADDR e0) (Hew : writable e = true -> Z.land (a_prot u.2) PROT_WRITE <> 0).
Context (Grecs : recs g' = recs g) (Gppgs : ppgs g' = <[a_ppgs u.2 := (del_rec r t) <| p_ht ::= alter (cons r) (Z.to_nat (hash (r_pa c) mod 32)) |>]> (del_rec r <$> ppgs g)).
Context (Gnext : pnext g' = pnext g) (Gpgts : pgts g' = <[p := <[va := e]> tb]> (pgts g)) (Gram : ram g' = ram g) (Gpool : pframes g' = pframes g).

Lemma excl_ent q v : ent g' q v = if decide (q = p /\ v = va) then Some e else ent g q v.
Proof. exact (ent_insert g g' p va e tb q v Htb He Gpgts). Qed.

Lemma excl_ent_inv q v e1 : ent g' q v = Some e1 -> exists e2, ent g q v = Some e2 /\ ADDR e2 = ADDR e1.
Proof. rewrite excl_ent. destruct (decide _) as [[-> ->]|_]; [intros [= <-]; by exists e0|by exists e1]. Qed.

Lemma excl_maps q pa : maps g' q pa -> maps g q pa.
Proof. intros (v & e1 & H1 & <-). destruct (excl_ent_inv _ _ _ H1) as (e2 & H2 & E2). by exists v, e2. Qed.

Lemma excl_only q : maps g q (ADDR e0) -> q = p.
Proof.
  intros Hq. destruct (decide (q = p)) as [|Hne]; [done|]. pose proof (m_cnt _ _ _ M r c [q; p] Hr) as Hc. rewrite Hone in Hc. cbn in Hc. exfalso. enough (2 <= 1) by lia. apply Hc.
  - constructor; [by intros ->%list_elem_of_singleton|apply NoDup_singleton].
  - rewrite Hpa. intros x [->|[->|Hx%elem_of_nil]%elem_of_cons]%elem_of_cons; [done|by exists va, e0|done].
Qed.

Lemma excl_len : (Z.to_nat (hash (r_pa c) mod 32) < length (p_ht (del_rec r t)))%nat.
Proof. cbn. rewrite length_map. destruct (t_tab _ _ I _ _ Ht) as (_ & -> & _). pose proof (Z.mod_pos_bound (hash (r_pa c)) 32 ltac:(lia)). lia. Qed.

(** Each table is an old one without the record, that of the area also with it. *)
Lemma excl_tab T t' : ppgs g' !! T = Some t' <-> exists t0, ppgs g !! T = Some t0 /\
  t' = if decide (T = a_ppgs u.2) then (del_rec r t0) <| p_ht ::= alter (cons r) (Z.to_nat (hash (r_pa c) mod 32)) |> else del_rec r t0.
Proof.
  rewrite Gppgs. destruct (decide (T = a_ppgs u.2)) as [->|].
  - rewrite lookup_insert_eq, Ht. split; [intros [= <-]; by exists t|intros (t0 & [= <-] & ->); done].
  - rewrite lookup_insert_ne, lookup_fmap by done. destruct (ppgs g !! T) as [t0|]; cbn; [|split; [done|by intros (? & ? & _)]].
    split; [intros [= <-]; by exists t0|by intros (? & [= <-] & ->)].
Qed.

Lemma excl_held T x : held (ppgs g') T x <-> (held (ppgs g) T x /\ x <> r) \/ (T = a_ppgs u.2 /\ x = r).
Proof.
  unfold held. split.
  - intros (t' & (t0 & H0 & ->)%excl_tab & H2). destruct (decide _) as [->|].
    + cbn in H2. assert (t0 = t) as -> by congruence. rewrite concat_alter in H2 by apply excl_len. apply elem_of_cons in H2 as [->|H2]; [by right|]. rewrite concat_filter in H2. apply list_elem_of_filter in H2 as [H2 H3]. left. split; [by exists t|done].
    + cbn in H2. rewrite concat_filter in H2. apply list_elem_of_filter in H2 as [H2 H3]. left. split; [by exists t0|done].
  - intros [[(t0 & H0 & H2) Hx]|[-> ->]]; (eexists; split; [apply excl_tab; eexists; split; [eassumption|reflexivity]|]).
    + destruct (decide _) as [->|]; cbn; [assert (t0 = t) as -> by congruence; rewrite concat_alter by apply excl_len; right|]; rewrite concat_filter; by apply list_elem_of_filter.
    + rewrite decide_True by done. cbn. rewrite concat_alter by apply excl_len. left.
Qed.

Lemma excl_parent T t' : ppgs g' !! T = Some t' -> exists t0, ppgs g !! T = Some t0 /\ p_parent t' = p_parent t0 /\ length (p_ht t') = length (p_ht t0).
Proof. intros (t0 & H0 & ->)%excl_tab. exists t0. split; [done|]. destruct (decide _); cbn; rewrite ?length_alter, length_map; done. Qed.

Lemma excl_tab_to T t0 : ppgs g !! T = Some t0 -> exists t', ppgs g' !! T = Some t' /\ p_parent t' = p_parent t0.
Proof. intros H0. eexists. split; [apply excl_tab; eexists; split; [exact H0|reflexivity]|]. by destruct (decide _). Qed.

Lemma excl_tabs : tabs_inv k g'.
Proof.
  split; rewrite ?Grecs, ?Gnext; try apply I.
  - intros T t' H. destruct (excl_parent _ _ H) as (t0 & H0 & -> & ->). destruct (t_tab _ _ I _ _ H0) as (H1 & H2 & H3). split_and!; [lia|lia|done|]. destruct H3 as [H3|[H3 [t1 H4]]]; [by left|right]. split; [done|]. destruct (excl_tab_to _ _ H4) as (t2 & -> & _). by eexists.
  - intros T t' i b x (t0 & H0 & ->)%excl_tab Hi Hx. assert (forall i b, p_ht (del_rec r t0) !! i = Some b -> x ∈ b -> exists c0, recs g !! x = Some c0 /\ i = Z.to_nat (hash (r_pa c0) mod 32)) as Hdel.
    { intros i' b' Hi' Hx'. cbn in Hi'. rewrite list_lookup_fmap in Hi'. destruct (p_ht t0 !! i') as [b0|] eqn:Eb; [|done]. cbn in Hi'. injection Hi' as <-. apply list_elem_of_filter in Hx' as [_ Hx']. by eapply (t_slot _ _ I). }
    destruct (decide _) as [->|]; [|by eapply Hdel]. cbn in Hi. set (j := Z.to_nat (hash (r_pa c) mod 32)) in *. destruct (decide (i = j)) as [->|]; [|rewrite list_lookup_alter_ne in Hi by done; by eapply Hdel].
    rewrite list_lookup_alter_eq in Hi. destruct (map _ (p_ht t0) !! j) as [b0|] eqn:Eb; [|done]. cbn in Hi. injection Hi as <-. apply elem_of_cons in Hx as [->|Hx]; [by exists c|]. by eapply (Hdel j b0).
  - intros T T' x H1%excl_held H2%excl_held. destruct H1 as [[H1 N1]|[-> ->]], H2 as [[H2 N2]|[-> E]]; try done. by eapply (t_once _ _ I).
  - intros T t' (t0 & H0 & ->)%excl_tab. pose proof (t_nodup _ _ I _ _ H0) as Hn. destruct (decide _) as [->|]; cbn.
    + assert (t0 = t) as -> by congruence. rewrite concat_alter by apply excl_len. rewrite concat_filter. constructor; [|by apply NoDup_filter]. by intros [? _]%list_elem_of_filter.
    + rewrite concat_filter. by apply NoDup_filter.
Qed.

Lemma excl_map : map_inv own R g'.
Proof.
  split; rewrite ?Grecs, ?Gpool, ?Gram.
  - intros q. rewrite Gpgts, <- (m_dom _ _ _ M). destruct (decide (q = p)) as [->|]; [rewrite lookup_insert_eq, Htb; by split; eexists|by rewrite lookup_insert_ne].
  - intros q rs1 H1. destruct (m_areas _ _ _ M _ _ H1) as (H2 & H3 & H4). split_and!; [done|done|]. intros u1 [t1 Ht1]%H4. destruct (excl_tab_to _ _ Ht1) as (t2 & -> & _). by eexists.
  - intros q v e1 H1. destruct (excl_ent_inv _ _ _ H1) as (e2 & H2 & E2). destruct (m_ent _ _ _ M _ _ _ H2) as (H3 & (X1 & X2 & b & X3 & X4) & rs1 & u1 & H5 & H6 & T & r1 & c1 & K1 & K2 & K3 & K4 & K5).
    rewrite <- E2. split; [done|]. split; [split_and!; [done|done|]; exists b; by rewrite Gram|]. exists rs1, u1. split_and!; [done|done|].
    assert (in_chain (ppgs g') (a_ppgs u1.2) T) as Hch by (by eapply in_chain_mono; [intros; by apply excl_tab_to|]).
    destruct (decide (r1 = r)) as [->|Hne]; [|exists T, r1, c1; split_and!; [done|apply excl_held; by left|by rewrite Grecs|done|done]].
    assert (c1 = c) as -> by congruence. assert (q = p) as -> by (apply excl_only; exists v, e2; split; [done|congruence]). assert (v = va) as -> by (eapply (m_once _ _ _ M); [exact H2|exact He0|congruence]).
    assert (rs1 = rs) as -> by congruence. assert (u1 = u) as -> by congruence. exists (a_ppgs u.2), r, c. split_and!; [|apply excl_held; by right|by rewrite Grecs|done|done]. destruct (excl_tab_to _ _ Ht) as (t2 & H7 & _). by eapply ch_here.
  - intros q v v' e1 e2 H1 H2 E. destruct (excl_ent_inv _ _ _ H1) as (e3 & H3 & E3), (excl_ent_inv _ _ _ H2) as (e4 & H4 & E4). eapply (m_once _ _ _ M); [exact H3|exact H4|congruence].
  - intros x cx l Hx Hl Hm. apply (m_cnt _ _ _ M x cx l Hx Hl). intros q Hq. by apply excl_maps, Hm.
  - intros q v e1 q'. rewrite excl_ent. destruct (decide _) as [[-> ->]|Hne]; [intros [= <-] _; rewrite Hea; intros Hq; by apply excl_only, excl_maps|]. intros H1 Hw Hq. by eapply (m_rw _ _ _ M), excl_maps.
  - intros q v e1 rs1 u1. rewrite excl_ent. destruct (decide _) as [[-> ->]|_]; [intros [= <-] H1 H2; replace u1 with u by congruence; done|apply (m_prot _ _ _ M)].
  - apply M.
Qed.

Lemma excl_kept : kept g g'.
Proof.
  apply (kept_at g g' p va).
  - intros q v Hne. rewrite excl_ent. by rewrite decide_False.
  - intros. by rewrite Gram.
  - intros e1 H1. exists e. rewrite excl_ent, decide_True by done. split; [done|]. rewrite Gram. congruence.
Qed.

End Exclusive.

(** ** Page faults *)

Lemma alter_known {A} (h : A -> A) (i : Z) (x : A) (m : gmap Z A) : m !! i = Some x -> alter h i m = <[i := h x]> m.
Proof.
  intros H. apply map_eq. intros j. destruct (decide (j = i)) as [->|]; [by rewrite lookup_alter_eq, lookup_insert_eq, H|by rewrite lookup_alter_ne, lookup_insert_ne].
Qed.

Lemma user_entry_prot f prot : frame f -> writable (user_entry_of f prot) = true -> Z.land prot PROT_WRITE <> 0.
Proof. intros Hf. destruct (user_entry_spec f prot Hf) as (_ & _ & ->). destruct (Z.eqb_spec (Z.land prot PROT_WRITE) 0); done. Qed.

(** The state after a fault of [p] at the page [va] of an area. *)
Record faulted (own : Z -> Prop) (k : Z) (R : gmap Z (list (Z * vm_area))) (n : nat) (p va prot : Z) (m m' : cow F) : Prop := {
  f_tabs : tabs_inv k (pg m');
  f_map : map_inv own R (pg m');
  f_kept : kept (pg m) (pg m');
  f_ent : exists e, ent (pg m') p va = Some e /\ writable e = negb (Z.land prot PROT_WRITE =? 0);
  f_stock : fp_stock (pframes (pg m')) n;
  f_vsps : vsps m' = vsps m
}.

Section Handler.
Context (own : Z -> Prop) (k : Z) (R : gmap Z (list (Z * vm_area))) (n : nat) (m : cow F) (p va : Z) (rs : list (Z * vm_area)) (u : Z * vm_area).
Context (I : tabs_inv k (pg m)) (M : map_inv own R (pg m)) (Hcr3 : pcr3 (pg m) = p) (Hk : 0 <= k < 2 ^ 64 - 1).
Context (HR : R !! p = Some rs) (Hu : area_at rs va = Some u) (Hva : (PAGE_SIZ | va)) (Hst : fp_stock (pframes (pg m)) (S n)).

Lemma handler_setup : exists t tb, ppgs (pg m) !! a_ppgs u.2 = Some t /\ pgts (pg m) !! p = Some tb /\ private u.2.
Proof.
  destruct (area_at_elem _ _ _ Hu) as [Hin _]. destruct (m_areas _ _ _ M _ _ HR) as (Hp & _ & Hd). destruct (Hd u Hin) as [t Ht]. destruct (proj2 (m_dom _ _ _ M p) ltac:(by eexists)) as [tb Htb].
  exists t, tb. split_and!; [done|done|]. by apply (proj1 (Forall_forall _ _) Hp).
Qed.

(** A new frame, mapped with the rights of the area and recorded. *)
Lemma new_page f fr bs g' recs0 t tb :
  ppgs (pg m) !! a_ppgs u.2 = Some t -> pgts (pg m) !! p = Some tb ->
  fp_has (pframes (pg m)) f -> f <> 0 -> frame f -> (forall q, fp_has fr q -> fp_has (pframes (pg m)) q /\ q <> f) -> fp_stock fr n ->
  length bs = Z.to_nat PAGE_SIZ ->
  (forall e0, ent (pg m) p va = Some e0 -> ram (pg m) !! ADDR e0 = Some bs) ->
  (forall r c, recs (pg m) !! r = Some c -> exists c', recs0 !! r = Some c' /\ r_pa c' = r_pa c) ->
  (forall r c', recs0 !! r = Some c' -> exists c, recs (pg m) !! r = Some c /\ r_pa c' = r_pa c /\ 1 <= r_cnt c' <= r_cnt c /\
    (r_cnt c' = r_cnt c \/ (r_cnt c' = r_cnt c - 1 /\ exists e0, ent (pg m) p va = Some e0 /\ ADDR e0 = r_pa c))) ->
  g' = Pages (<[pnext (pg m) := PpgRec f 1 0]> recs0)
    (<[a_ppgs u.2 := t <| p_ht ::= alter (cons (pnext (pg m))) (Z.to_nat (hash f mod 32)) |>]> (ppgs (pg m))) (pnext (pg m) + 1)
    (<[p := <[va := user_entry_of f (a_prot u.2)]> tb]> (pgts (pg m))) p (<[f := bs]> (ram (pg m))) fr ->
  faulted own k R n p va (a_prot u.2) m (m <| pg := g' |>).
Proof.
  intros Ht Htb Hf Hf0 Hff Hfr Hsn Hbs Hold Hdom Hrec ->. destruct (user_entry_spec f (a_prot u.2) Hff) as (He & Hea & Hew). pose proof (user_entry_prot f (a_prot u.2) Hff) as Hpr.
  set (g' := Pages _ _ _ _ _ _ _). pose proof (fun q v => ent_insert (pg m) g' p va _ tb q v Htb He eq_refl) as Hent. split; cbn [pg].
  - by eapply (install_tabs own k R (pg m) g' p va).
  - by eapply (install_map own k R (pg m) g' p va).
  - apply (kept_at (pg m) g' p va).
    + intros q v Hne. rewrite Hent. by rewrite decide_False.
    + intros q v e Hne H1. cbn. rewrite lookup_insert_ne; [done|]. intros E. by apply (pool_unmapped _ _ _ f _ _ _ M Hf H1).
    + intros e0 H0. exists (user_entry_of f (a_prot u.2)). rewrite Hent, decide_True by done. split; [done|]. rewrite Hea. cbn. by rewrite lookup_insert_eq, (Hold e0).
  - exists (user_entry_of f (a_prot u.2)). by rewrite Hent, decide_True.
  - done.
  - done.
Qed.

Lemma same_recs : (forall r c, recs (pg m) !! r = Some c -> exists c', recs (pg m) !! r = Some c' /\ r_pa c' = r_pa c) /\
  (forall r c', recs (pg m) !! r = Some c' -> exists c, recs (pg m) !! r = Some c /\ r_pa c' = r_pa c /\ 1 <= r_cnt c' <= r_cnt c /\
    (r_cnt c' = r_cnt c \/ (r_cnt c' = r_cnt c - 1 /\ exists e0, ent (pg m) p va = Some e0 /\ ADDR e0 = r_pa c))).
Proof. split; [by eauto|]. intros r c H. exists c. destruct (t_rec _ _ I _ _ H). split_and!; [done|done|lia|lia|by left]. Qed.

Lemma fault_anon_ok : ent (pg m) p va = None -> total (fault_anon m u.2 va) (faulted own k R n p va (a_prot u.2) m).
Proof.
  intros Hnone. destruct handler_setup as (t & tb & Ht & Htb & _). destruct (fp_alloc_ok _ _ Hst) as (f & fr & Ea & Hf & Hf0 & Hff & Hsn & Hfr). destruct same_recs as [D1 D2]. destruct (m_pool _ _ _ M _ Hf) as [(b & Hb & Hl) _].
  unfold fault_anon, alloc_page. rewrite Ea. cbn [res_bind fst snd]. unfold vmm_ppg_regst, htable_add, pg_map, pg_set. cbn. rewrite Ht. cbn. apply total_Ok.
  eapply (new_page f fr b _ (recs (pg m)) t tb); try done; [by intros e0; rewrite Hnone|]. rewrite <- (alter_known _ p tb _ Htb), (insert_id (ram (pg m)) f b Hb). by rewrite <- Hcr3.
Qed.

Lemma fault_file_ok i : ent (pg m) p va = None -> total (fault_file m i u.2 va) (faulted own k R n p va (a_prot u.2) m).
Proof.
  intros Hnone. destruct handler_setup as (t & tb & Ht & Htb & (_ & Hsh & _)). destruct (fp_alloc_ok _ _ Hst) as (f & fr & Ea & Hf & Hf0 & Hff & Hsn & Hfr). destruct same_recs as [D1 D2]. destruct (m_pool _ _ _ M _ Hf) as [(b & Hb & Hl) _].
  unfold fault_file, alloc_page. rewrite Ea. cbn [res_bind fst snd]. set (off := u64 (a_foff u.2 + va - a_s u.2)). set (siz := MIN _ PAGE_SIZ). set (bytes := vfs_read _ _ _).
  assert (length bytes <= length b)%nat as Hlen.
  { assert (0 <= siz <= PAGE_SIZ) as Hsiz by (unfold siz; rewrite MIN_min; pose proof (wrap_range 64 (node_siz (a_node u.2) - off) ltac:(lia)); unfold PAGE_SIZ in *; lia).
    pose proof (vfs_read_short (a_node u.2) siz off ltac:(lia)) as Hs. fold bytes in Hs. rewrite Hl. unfold PAGE_SIZ in *. lia. }
  unfold fill_page, vmm_ppg_regst, htable_add, pg_map, pg_set. cbn. rewrite Hb. cbn. rewrite Ht. cbn. rewrite Hsh. cbn. apply total_Ok.
  eapply (new_page f fr (bytes ++ drop (length bytes) b) _ (recs (pg m)) t tb); try done; [rewrite length_app, length_drop; lia|by intros e0; rewrite Hnone|].
  rewrite <- (insert_insert_eq (pgts (pg m)) p (<[va := user_entry_of f (a_prot u.2)]> tb) (<[va := Z.lor (ADDR f) (FLAG (Z.lor (Z.lor PE_P PE_US) PE_RW))]> tb)).
  rewrite <- (insert_insert_eq tb va (user_entry_of f (a_prot u.2)) (Z.lor (ADDR f) (FLAG (Z.lor (Z.lor PE_P PE_US) PE_RW)))).
  rewrite <- (alter_known _ p tb (pgts (pg m)) Htb), <- (alter_known <[va := user_entry_of f (a_prot u.2)]> p) by (rewrite (alter_known _ p tb (pgts (pg m)) Htb); apply lookup_insert_eq). by rewrite <- Hcr3.
Qed.

Lemma fault_write_ok e0 : ent (pg m) p va = Some e0 -> total (fault_write m u.2 va) (faulted own k R n p va (a_prot u.2) m).
Proof.
  intros He0. destruct handler_setup as (t & tb & Ht & Htb & _). destruct (m_ent _ _ _ M _ _ _ He0) as (_ & (Hfa & Ha0 & b & Hb & Hl) & rs1 & u1 & H1 & H2 & T & r & c & Hch & Hh & Hr & Hpa & _).
  assert (rs1 = rs) as -> by congruence. assert (u1 = u) as -> by congruence. clear H1 H2. destruct (t_rec _ _ I _ _ Hr) as (_ & Hc1 & Hck).
  assert (pg_query (pg m) va = ADDR e0) as Eq.
  { unfold pg_query. rewrite Hcr3. unfold ent in He0. destruct (present _) eqn:Ep; [|done]. by injection He0 as ->. }
  unfold fault_write. rewrite Eq, (proj2 (Z.eqb_neq _ _) Ha0). cbn [negb ASSERTK res_bind]. rewrite <- Hpa at 1. rewrite (ppg_query_ok k _ _ T r c I Hch Hh Hr). cbn [deref res_bind]. unfold get_rec at 1. rewrite Hr. cbn [deref res_bind].
  destruct (Z.eqb_spec (r_cnt c) 1) as [Hone|Hmany].
  - unfold vmm_ppg_reparent, get_rec, pg_map, pg_set. cbn. rewrite Hr. cbn. rewrite Hone. cbn. unfold htable_add, hlist_del. cbn. rewrite lookup_fmap, Ht. cbn. apply total_Ok.
    destruct (user_entry_spec (ADDR e0) (a_prot u.2) Hfa) as (He & Hea & Hew). pose proof (user_entry_prot (ADDR e0) (a_prot u.2) Hfa) as Hpr. set (g' := _ <| ppgs ::= _ |>).
    assert (pgts g' = <[p := <[va := user_entry_of (ADDR e0) (a_prot u.2)]> tb]> (pgts (pg m))) as Gp by (rewrite <- (alter_known _ p tb _ Htb), <- Hcr3; done).
    split; cbn [pg]; [by eapply (excl_tabs k (pg m))|by eapply (excl_map own k R (pg m) g' p va)|by eapply (excl_kept (pg m))| |by apply (fp_stock_le _ (S n)); [|lia]|done].
    exists (user_entry_of (ADDR e0) (a_prot u.2)). split; [|done]. etransitivity; [exact (ent_insert (pg m) g' p va _ tb p va Htb He Gp)|by rewrite decide_True].
  - destruct (fp_alloc_ok _ _ Hst) as (f & fr & Ea & Hf & Hf0 & Hff & Hsn & Hfr). destruct (m_pool _ _ _ M _ Hf) as [(b0 & Hb0 & Hl0) _].
    unfold set_cnt, get_rec. rewrite Hr. cbn. unfold alloc_page. cbn. rewrite Ea. cbn. unfold copy_page. cbn. rewrite Hb. cbn. rewrite Hb0. cbn. unfold vmm_ppg_regst, htable_add. cbn. rewrite Ht. cbn. apply total_Ok.
    eapply (new_page f fr b _ (<[r := c <| r_cnt := u64 (r_cnt c - 1) |>]> (recs (pg m))) t tb); try done.
    + intros e1 H1. congruence.
    + intros r1 c1 H1. destruct (decide (r1 = r)) as [->|]; [|rewrite lookup_insert_ne by done; by exists c1]. rewrite lookup_insert_eq. eexists. split; [done|]. cbn. congruence.
    + intros r1 c1. destruct (decide (r1 = r)) as [->|]; [|rewrite lookup_insert_ne by done; apply same_recs]. rewrite lookup_insert_eq. intros [= <-]. exists c. cbn. rewrite wrap_small by lia.
      split_and!; [done|done|lia|lia|]. right. split; [done|]. by exists e0.
    + rewrite <- (alter_known _ p tb _ Htb). by rewrite <- Hcr3.
Qed.

(** ** A fault *)

Lemma flag_bits (pr wr : bool) : (Z.land ((if pr then PF_P else 0) + (if wr then PF_WRITE else 0) + PF_USER) PF_P =? 0) = negb pr /\
  (Z.land ((if pr then PF_P else 0) + (if wr then PF_WRITE else 0) + PF_USER) PF_WRITE =? 0) = negb wr.
Proof. by destruct pr, wr. Qed.

End Handler.

(** The kernel with the processes of [R]. *)
Record inv (own : Z -> Prop) (k : Z) (R : gmap Z (list (Z * vm_area))) (m : cow F) : Prop := {
  i_tabs : tabs_inv k (pg m);
  i_map : map_inv own R (pg m);
  i_sp : forall p rs, R !! p = Some rs -> exists s x, vsps m !! p = Some s /\ wf s x rs
}.

Lemma inv_cr3 own k R (m : cow F) p : inv own k R m -> inv own k R (m <| pg ::= fun g => g <| pcr3 := p |> |>).
Proof. intros [[] [] Hs]. split; [by split|by split|done]. Qed.

(** Whether an area lets an access through. *)
Definition allows (a : vm_area) (wr : bool) : bool := negb wr || negb (Z.land (a_prot a) PROT_WRITE =? 0).

(** The handler, called with what the processor reports of an access that failed. *)
Lemma handler_ok own k R n (m : cow F) p rs va (wr : bool) : inv own k R m -> 0 <= k < 2 ^ 64 - 1 -> R !! p = Some rs -> 0 <= va -> fp_stock (pframes (pg m)) (S n) ->
  let e := entry (pg m) p (align_dn va PAGE_SIZ) in let m1 := m <| pg ::= fun g => g <| pcr3 := p |> |> in
  present e && (negb wr || writable e) = false ->
  total (pagefault_handler m1 va ((if present e then PF_P else 0) + (if wr then PF_WRITE else 0) + PF_USER))
    (fun '(ok, m') => match area_at rs va with
      | Some u => if present e && negb (allows u.2 wr) then ok = false /\ m' = m1
                  else ok = true /\ faulted own k R n p (align_dn va PAGE_SIZ) (a_prot u.2) m m'
      | None => ok = false /\ m' = m1
      end).
Proof.
  intros Hi Hk HR Hva Hst e m1 Hmiss. pose proof (inv_cr3 own k R m p Hi) as [I1 M1 S1]. fold m1 in I1, M1, S1. destruct (S1 p rs HR) as (s & x & Hs & Hw). destruct (m_areas _ _ _ M1 _ _ HR) as (Hpriv & _).
  assert (Forall (fun u => paged u.2) rs) as Hpg by (eapply Forall_impl; [exact Hpriv|]; by intros u [? _]). pose proof (area_at_align rs va Hpg Hva) as Hal. destruct (align_spec va Hva) as [_ Hdiv]. set (base := align_dn va PAGE_SIZ) in *.
  unfold pagefault_handler. change (pcr3 (pg m1)) with p. rewrite Hs. cbn [deref res_bind]. rewrite (containing_at s x rs va Hw). cbn [res_bind]. fold (area_at rs va).
  destruct (area_at rs va) as [u|] eqn:Eu; cbn [fmap option_fmap option_map]; [|by apply total_Ok]. destruct (area_at_elem _ _ _ Eu) as [Hin _].
  rewrite (wf_area s x rs u.1 u.2 Hw) by (by destruct u). cbn [res_bind]. destruct (flag_bits (present e) wr) as [-> ->]. rewrite negb_involutive.
  pose proof (proj1 (Forall_forall _ _) Hpriv u Hin) as (_ & _ & Hkind). fold base.
  assert (forall m', faulted own k R n p base (a_prot u.2) m1 m' -> faulted own k R n p base (a_prot u.2) m m') as Hm1 by (intros m' []; by split).
  destruct (present e) eqn:Ep; cbn [negb andb].
  - destruct wr; [|done]. cbn [andb]. unfold allows. cbn [negb orb]. destruct (Z.land (a_prot u.2) PROT_WRITE =? 0) eqn:Ew; cbn [negb]; [by apply total_Ok|].
    eapply total_bind; [apply (fault_write_ok own k R n m1 p base rs u) with (e0 := e); try done; unfold ent; change (entry (pg m1) p base) with e; by rewrite Ep|]. intros m' Hm'. apply total_Ok. split; [done|by apply Hm1].
  - assert (ent (pg m1) p base = None) as Hn by (unfold ent; change (entry (pg m1) p base) with e; by rewrite Ep). destruct (Z.eqb_spec (a_label u.2) MAPL_FILE) as [El|El].
    + eapply total_bind; [apply (fault_file_ok own k R n m1 p base rs u); try done|]. intros m' Hm'. apply total_Ok. split; [done|by apply Hm1].
    + destruct Hkind as [|Hanon]; [done|]. rewrite (proj2 (Z.eqb_neq _ _) Hanon). cbn [negb].
      eapply total_bind; [apply (fault_anon_ok own k R n m1 p base rs u); try done|]. intros m' Hm'. apply total_Ok. split; [done|by apply Hm1].
Qed.

(** ** Accesses *)

Definition base (va : Z) : Z := align_dn va PAGE_SIZ.

Lemma faulted_inv own k R n p va prot (m m' : cow F) : inv own k R m -> faulted own k R n p va prot m m' -> inv own k R m'.
Proof. intros [_ _ Hs] [H1 H2 _ _ _ H3]. split; [done|done|]. by rewrite H3. Qed.

(** What an access leaves behind: the page it reaches if the area allows it. *)
Definition reached (own : Z -> Prop) (k : Z) (R : gmap Z (list (Z * vm_area))) (n : nat) (p va : Z) (wr : bool) (rs : list (Z * vm_area)) (m : cow F) (o : option Z) (m' : cow F) : Prop :=
  inv own k R m' /\ kept (pg m) (pg m') /\ fp_stock (pframes (pg m')) n /\
  if (match area_at rs va with Some u => allows u.2 wr | None => false end)
  then exists e, ent (pg m') p (base va) = Some e /\ o = Some (ADDR e) /\ (wr = true -> writable e = true)
  else o = None.

Lemma entry_ent (g : pages F) p va e : ent g p va = Some e -> entry g p va = e /\ present e = true.
Proof. unfold ent. destruct (present (entry g p va)) eqn:E; [|done]. by intros [= <-]. Qed.

(** The first look at the tables. *)
Lemma touch_hit own k R n (m : cow F) p rs va wr fuel : inv own k R m -> R !! p = Some rs -> 0 <= va -> fp_stock (pframes (pg m)) n ->
  let e := entry (pg m) p (base va) in present e && (negb wr || writable e) = true ->
  total (touch fuel m p va wr) (fun '(o, m') => reached own k R n p va wr rs m o m').
Proof.
  intros Hi HR Hva Hst e Hhit. exists (Some (ADDR e), m). split; [destruct fuel; cbn [touch]; fold (base va); fold e; by rewrite Hhit|]. split; [done|]. split; [by intros ? ? ?|]. split; [done|].
  apply andb_true_iff in Hhit as [Hp Hw]. assert (ent (pg m) p (base va) = Some e) as He by (unfold ent; fold e; by rewrite Hp). destruct (m_ent _ _ _ (i_map _ _ _ _ Hi) _ _ _ He) as (_ & _ & rs1 & u & H1 & H2 & _).
  assert (rs1 = rs) as -> by congruence. destruct (m_areas _ _ _ (i_map _ _ _ _ Hi) _ _ HR) as (Hpriv & _). pose proof H2 as H3. unfold base in H3. rewrite area_at_align in H3; [|eapply Forall_impl; [exact Hpriv|]; by intros v [? _]|done]. rewrite H3.
  assert (allows u.2 wr = true) as ->; [|exists e; split_and!; [done|done|]; intros ->; done]. unfold allows. destruct wr; [|done]. cbn [negb orb] in *. pose proof (m_prot _ _ _ (i_map _ _ _ _ Hi) _ _ _ _ _ He HR H2 Hw) as Hne. by rewrite (proj2 (Z.eqb_neq _ _) Hne).
Qed.

Lemma touch_ok own k R n (m : cow F) p rs va wr : inv own k R m -> 0 <= k < 2 ^ 64 - 1 -> R !! p = Some rs -> 0 <= va -> fp_stock (pframes (pg m)) (S (S n)) ->
  total (touch 2 m p va wr) (fun '(o, m') => reached own k R (S n) p va wr rs m o m').
Proof.
  intros Hi Hk HR Hva Hst. set (e := entry (pg m) p (base va)). destruct (present e && (negb wr || writable e)) eqn:Hhit; [apply (touch_hit _ _ _ _ m); try done; by apply (fp_stock_le _ (S (S n))); [|lia]|].
  cbn [touch]. fold (base va). fold e. rewrite Hhit. destruct (handler_ok own k R (S n) m p rs va wr Hi Hk HR Hva Hst Hhit) as ([ok m1] & E1 & H1). fold (base va) in E1, H1. fold e in E1, H1. rewrite E1. cbn [res_bind fst snd].
  assert (forall m0, m0 = m <| pg ::= fun g => g <| pcr3 := p |> |> -> inv own k R m0 /\ kept (pg m) (pg m0) /\ fp_stock (pframes (pg m0)) (S n)) as Hsame.
  { intros m0 ->. split; [by apply inv_cr3|]. split; [by intros ? ? ?|]. cbn. by apply (fp_stock_le _ (S (S n))); [|lia]. }
  unfold reached. destruct (area_at rs va) as [u|] eqn:Eu; [|destruct H1 as [-> ->]; apply total_Ok; by destruct (Hsame _ eq_refl) as (? & ? & ?)].
  destruct (present e && negb (allows u.2 wr)) eqn:Epa.
  - destruct H1 as [-> ->]. apply total_Ok. destruct (Hsame _ eq_refl) as (? & ? & ?). apply andb_true_iff in Epa as [_ Ea]. apply negb_true_iff in Ea. by rewrite Ea.
  - destruct H1 as [-> Hf]. pose proof (faulted_inv _ _ _ _ _ _ _ _ _ Hi Hf) as Hi1. destruct Hf as [_ _ Hkept (e1 & He1 & Hw1) Hst1 _]. destruct (entry_ent _ _ _ _ He1) as [Een Hpr]. fold (base va) in Een.
    destruct (allows u.2 wr) eqn:Eal.
    + destruct (touch_hit own k R (S n) m1 p rs va wr 1 Hi1 HR Hva Hst1) as ([o m2] & E2 & R1 & R2 & R3 & R4).
      { cbn zeta. rewrite Een, Hpr. cbn [andb]. unfold allows in Eal. by rewrite Hw1. }
      rewrite Eu, Eal in R4. exists (o, m2). split; [exact E2|]. split; [done|]. split; [by eapply kept_trans|]. by split.
    + cbn [touch]. fold (base va). rewrite Een, Hpr. unfold allows in Eal. rewrite <- Hw1 in Eal. rewrite Eal. cbn [andb].
      assert (present (entry (pg m1) p (base va)) && (negb wr || writable (entry (pg m1) p (base va))) = false) as Hmiss by (by rewrite Een, Hpr).
      destruct (handler_ok own k R n m1 p rs va wr Hi1 Hk HR Hva Hst1 Hmiss) as ([ok2 m2] & E2 & H2). fold (base va) in E2, H2. rewrite Een, Hpr in E2, H2. rewrite E2. cbn [res_bind fst snd]. rewrite Eu in H2. unfold allows in H2. rewrite <- Hw1, Eal in H2. destruct H2 as [-> ->].
      apply total_Ok. split; [by apply inv_cr3|]. by split.
Qed.

Lemma base_mod v : v = base v + v mod PAGE_SIZ /\ 0 <= v mod PAGE_SIZ < PAGE_SIZ.
Proof. unfold base, align_dn, PAGE_SIZ. pose proof (Z.div_mod v 4096). pose proof (Z.mod_pos_bound v 4096). lia. Qed.

Lemma view_ent own k R (m : cow F) p va e : inv own k R m -> ent (pg m) p (base va) = Some e ->
  exists bs x, ram (pg m) !! ADDR e = Some bs /\ length bs = Z.to_nat PAGE_SIZ /\ bs !! Z.to_nat (va mod PAGE_SIZ) = Some x /\ view (pg m) p va = Some x.
Proof.
  intros Hi He. destruct (m_ent _ _ _ (i_map _ _ _ _ Hi) _ _ _ He) as (_ & (_ & _ & bs & Hb & Hl) & _). destruct (base_mod va) as [_ Hr].
  destruct (lookup_lt_is_Some_2 bs (Z.to_nat (va mod PAGE_SIZ))) as [x Hx]; [unfold PAGE_SIZ in *; lia|]. exists bs, x. split_and!; [done|done|done|]. unfold view. fold (base va). rewrite He. cbn. rewrite Hb. done.
Qed.

(** A read: the byte the process sees there, which is the one it saw before if it saw any. *)
Lemma load_ok own k R n (m : cow F) p rs va : inv own k R m -> 0 <= k < 2 ^ 64 - 1 -> R !! p = Some rs -> 0 <= va -> fp_stock (pframes (pg m)) (S (S n)) ->
  total (load m p va) (fun '(o, m') => inv own k R m' /\ kept (pg m) (pg m') /\ fp_stock (pframes (pg m')) (S n) /\
    if (match area_at rs va with Some u => true | None => false end) then exists x, o = Some x /\ view (pg m') p va = Some x else o = None).
Proof.
  intros Hi Hk HR Hva Hst. unfold load. destruct (touch_ok own k R n m p rs va false Hi Hk HR Hva Hst) as ([o m1] & -> & Hi1 & Hkept & Hst1 & H1). cbn [res_bind fst snd].
  destruct (area_at rs va) as [u|]; cbn [allows negb orb] in H1; [|subst o; by apply total_Ok]. destruct H1 as (e & He & -> & _). destruct (view_ent _ _ _ _ _ _ _ Hi1 He) as (bs & x & Hb & _ & Hx & Hv). rewrite Hb. cbn [deref res_bind].
  destruct (base_mod va) as [_ Hr]. rewrite (proj2 (aget_Ok bs (va mod PAGE_SIZ) x)) by (split; [lia|done]). cbn [res_bind]. apply total_Ok. split_and!; [done|done|done|by exists x].
Qed.

(** Writing to a page of a process. *)
Lemma ram_set_inv own k R (m : cow F) p va e bs : inv own k R m -> ent (pg m) p va = Some e -> length bs = Z.to_nat PAGE_SIZ ->
  inv own k R (m <| pg ::= fun g => g <| ram ::= <[ADDR e := bs]> |> |>).
Proof.
  intros [[] [] Hs] He Hl. split; [by split|split; try done|done]; cbn.
  - intros q v e1 H1. destruct (m_ent0 _ _ _ H1) as (H2 & (H3 & H4 & b & H5 & H6) & H7). split; [done|]. split; [|done]. split_and!; [done|done|]. cbn. destruct (decide (ADDR e1 = ADDR e)) as [->|]; [rewrite lookup_insert_eq; by exists bs|rewrite lookup_insert_ne by done; by exists b].
  - intros f Hf. destruct (m_pool0 f Hf) as [(b & Hb & Hbl) Hno]. split; [|done]. destruct (decide (f = ADDR e)) as [->|]; [rewrite lookup_insert_eq; by exists bs|rewrite lookup_insert_ne by done; by exists b].
Qed.

Lemma ram_set_view own k R (m : cow F) p va e bs x : inv own k R m -> ent (pg m) p (base va) = Some e -> writable e = true ->
  ram (pg m) !! ADDR e = Some bs -> length bs = Z.to_nat PAGE_SIZ ->
  forall q v, view ((pg m) <| ram ::= <[ADDR e := <[Z.to_nat (va mod PAGE_SIZ) := x]> bs]> |>) q v = if decide (q = p /\ v = va) then Some x else view (pg m) q v.
Proof.
  intros Hi He Hw Hb Hl q v. set (g' := _ <| ram ::= _ |>). unfold view. fold (base v). change (ent g' q (base v)) with (ent (pg m) q (base v)). change (ram g') with (<[ADDR e := <[Z.to_nat (va mod PAGE_SIZ) := x]> bs]> (ram (pg m))).
  destruct (base_mod va) as [Eva Hr], (base_mod v) as [Ev Hr']. destruct (decide (q = p /\ v = va)) as [[-> ->]|Hne].
  - rewrite He. cbn. rewrite lookup_insert_eq. cbn. apply list_lookup_insert_eq. unfold PAGE_SIZ in *. lia.
  - destruct (ent (pg m) q (base v)) as [e1|] eqn:E1; [|done]. cbn. destruct (decide (ADDR e1 = ADDR e)) as [Ea|]; [|by rewrite lookup_insert_ne].
    assert (q = p) as -> by (apply (m_rw _ _ _ (i_map _ _ _ _ Hi) _ _ _ q He Hw); by exists (base v), e1). assert (base v = base va) as Eb by (by eapply (m_once _ _ _ (i_map _ _ _ _ Hi))).
    rewrite Ea, lookup_insert_eq, Hb. cbn. apply list_lookup_insert_ne. intros E. apply Hne. split; [done|]. unfold PAGE_SIZ in *. lia.
Qed.

Lemma store_ok own k R n (m : cow F) p rs va x : inv own k R m -> 0 <= k < 2 ^ 64 - 1 -> R !! p = Some rs -> 0 <= va -> fp_stock (pframes (pg m)) (S (S n)) ->
  total (store m p va x) (fun '(ok, m') => inv own k R m' /\ fp_stock (pframes (pg m')) (S n) /\
    (forall q v y, ~ (q = p /\ v = va) -> view (pg m) q v = Some y -> view (pg m') q v = Some y) /\
    if (match area_at rs va with Some u => allows u.2 true | None => false end) then ok = true /\ view (pg m') p va = Some x
    else ok = false /\ kept (pg m) (pg m')).
Proof.
  intros Hi Hk HR Hva Hst. unfold store. destruct (touch_ok own k R n m p rs va true Hi Hk HR Hva Hst) as ([o m1] & -> & Hi1 & Hkept & Hst1 & H1). cbn [res_bind fst snd].
  destruct (match area_at rs va with Some u => allows u.2 true | None => false end); [|subst o; apply total_Ok; split_and!; [done|done| |done|done]; intros q v y _; apply Hkept].
  destruct H1 as (e & He & -> & Hw). specialize (Hw eq_refl). destruct (view_ent _ _ _ _ _ _ _ Hi1 He) as (bs & y & Hb & Hl & _ & _). rewrite Hb. cbn [deref res_bind]. destruct (base_mod va) as [_ Hr]. rewrite aset_lt by (unfold PAGE_SIZ in *; lia). cbn [res_bind]. apply total_Ok.
  pose proof (ram_set_view _ _ _ _ _ _ _ _ x Hi1 He Hw Hb Hl) as Hv. split_and!; [|done| |done|].
  - apply (ram_set_inv own k R m1 p (base va)); [done|done|by rewrite length_insert].
  - intros q v z Hne Hz. etransitivity; [exact (Hv q v)|]. rewrite decide_False by done. by apply Hkept.
  - etransitivity; [exact (Hv p va)|]. by rewrite decide_True.
Qed.

(** ** [fork] *)

Lemma refer_all_ok (g : pages F) l : NoDup l -> (forall r, r ∈ l -> exists c, recs g !! r = Some c /\ 0 <= r_cnt c < 2 ^ 64 - 1) ->
  exists recs', refer_all g l = Ok (g <| recs := recs' |>) /\
    forall r, recs' !! r = if decide (r ∈ l) then (fun c => c <| r_cnt := r_cnt c + 1 |>) <$> recs g !! r else recs g !! r.
Proof.
  intros Hn. revert g. induction Hn as [|r l Hr Hn IH]; intros g Hall; cbn [refer_all].
  - exists (recs g). split; [by destruct g|]. intros r. by rewrite decide_False by apply not_elem_of_nil.
  - destruct (Hall r ltac:(left)) as (c & Hc & Hb). unfold vmm_ppg_refer, set_cnt, get_rec. rewrite Hc. cbn [deref res_bind]. rewrite wrap_small by lia.
    set (g1 := g <| recs ::= _ |>). destruct (IH g1) as (recs' & -> & Hrec).
    { intros r' Hr'. change (recs g1) with (<[r := c <| r_cnt := r_cnt c + 1 |>]> (recs g)). rewrite lookup_insert_ne by (intros ->; done). apply Hall. by right. }
    exists recs'. split; [done|]. intros r'. rewrite Hrec. change (recs g1) with (<[r := c <| r_cnt := r_cnt c + 1 |>]> (recs g)). destruct (decide (r' = r)) as [->|Hne].
    + rewrite decide_False by done. rewrite decide_True by left. by rewrite lookup_insert_eq, Hc.
    + rewrite lookup_insert_ne by done. destruct (decide (r' ∈ l)) as [Hin|Hin]; [by rewrite decide_True by (by right)|rewrite decide_False; [done|]]. by intros [?|?]%elem_of_cons.
Qed.

(** How far the copy of the tables of a process has come: [od] are the areas that have been
    copied, [cp] their copies, [g] the pages at the start. *)
Record copied (g : pages F) (od cp : list (Z * vm_area)) (g' : pages F) : Prop := {
  c_rest : pgts g' = pgts g /\ ram g' = ram g /\ pframes g' = pframes g /\ pcr3 g' = pcr3 g;
  c_next : pnext g <= pnext g';
  c_recs : forall r c, recs g !! r = Some c -> exists c', recs g' !! r = Some c' /\ r_pa c' = r_pa c /\ r_cnt c <= r_cnt c' <= r_cnt c + 1 /\
    ((exists u, u ∈ od /\ held (ppgs g) (a_ppgs u.2) r) -> r_cnt c' = r_cnt c + 1) /\
    ((forall u, u ∈ od -> ~ held (ppgs g) (a_ppgs u.2) r) -> c' = c);
  c_same : forall r c', recs g' !! r = Some c' -> is_Some (recs g !! r);
  c_old : forall T t, ppgs g !! T = Some t -> ppgs g' !! T = Some t;
  c_new : forall T t, ppgs g' !! T = Some t -> ppgs g !! T = Some t \/
    (pnext g <= T < pnext g' /\ p_ht t = replicate 32 [] /\ exists u, u ∈ od /\ p_parent t = a_ppgs u.2);
  c_cp : Forall2 (fun u v => exists T, v.2 = u.2 <| a_ppgs := T |> /\ pnext g <= T < pnext g' /\ ppgs g' !! T = Some (Ppg (a_ppgs u.2) (replicate 32 []))) od cp;
  c_nodup : NoDup (map (fun v => a_ppgs v.2) cp)
}.

Lemma copied_step k (g : pages F) od cp g' u : tabs_inv k g -> 1 <= k -> copied g od cp g' -> is_Some (ppgs g !! a_ppgs u.2) -> (forall v, v ∈ od -> a_ppgs v.2 <> a_ppgs u.2) ->
  exists T g2, vmm_ppg_new g' (a_ppgs u.2) = Ok (T, g2) /\ forall i, copied g (od ++ [u]) (cp ++ [(i, u.2 <| a_ppgs := T |>)]) g2.
Proof.
  intros I Hk C [t Ht] Hdis. destruct (t_tab _ _ I _ _ Ht) as (HT & _). unfold vmm_ppg_new. rewrite (proj2 (Z.eqb_neq _ 0)) by lia. rewrite (c_old _ _ _ _ C _ _ Ht). cbn [deref res_bind].
  assert (forall r, r ∈ concat (p_ht t) -> exists c, recs g !! r = Some c /\ recs g' !! r = Some c) as Hunt.
  { intros r Hr. pose proof Hr as (i & b & Hi & Hb)%elem_bucket. destruct (t_slot _ _ I _ _ _ _ _ Ht Hi Hb) as (c & Hc & _). destruct (c_recs _ _ _ _ C _ _ Hc) as (c' & Hc' & _ & _ & _ & Hid). exists c. split; [done|]. rewrite Hc'. f_equal. apply Hid.
    intros v Hv Hh. apply (Hdis v Hv). eapply (t_once _ _ I); [exact Hh|by exists t]. }
  destruct (refer_all_ok g' (concat (p_ht t))) as (recs' & -> & Hrec); [by eapply (t_nodup _ _ I)| |].
  { intros r Hr. destruct (Hunt r Hr) as (c & Hc & Hc'). exists c. split; [done|]. destruct (t_rec _ _ I _ _ Hc). lia. }
  cbn [res_bind]. eexists _, _. split; [done|]. intros i. destruct C as [(C1 & C2 & C3 & C4) Cn Cr Cs Co Cw Cc Cd]. pose proof (t_next _ _ I). split; cbn.
  - done.
  - lia.
  - intros r c Hc. destruct (Cr r c Hc) as (c' & Hc' & Hpa & Hb & H1 & H2). rewrite Hrec. destruct (decide (r ∈ concat (p_ht t))) as [Hin|Hin].
    + destruct (Hunt r Hin) as (c0 & E1 & E2). assert (c0 = c) as -> by congruence. assert (c' = c) as -> by congruence. rewrite E2. cbn. eexists. split; [done|]. cbn. split; [done|]. split; [lia|]. split; [done|]. intros Hno. exfalso. apply (Hno u); [set_solver|by exists t].
    + rewrite Hc'. exists c'. split_and!; [done|done|lia|lia| |].
      * intros (v & [Hv| ->%list_elem_of_singleton]%elem_of_app & Hh); [apply H1; by exists v|]. exfalso. destruct Hh as (t0 & E0 & Hin'). by assert (t0 = t) as -> by congruence.
      * intros Hno. apply H2. intros v Hv. apply Hno. set_solver.
  - intros r c'. rewrite Hrec. destruct (decide _); [|by apply Cs]. destruct (recs g' !! r) as [c0|] eqn:E; [|done]. intros _. by apply (Cs r c0).
  - intros T t0 H0. rewrite lookup_insert_ne; [by apply Co|]. destruct (t_tab _ _ I _ _ H0). lia.
  - intros T t0. destruct (decide (T = pnext g')) as [->|]; [rewrite lookup_insert_eq; intros [= <-]; right; cbn; split_and!; [lia|lia|done|]; exists u; split; [set_solver|done]|].
    rewrite lookup_insert_ne by done. intros [H0|(H1 & H2 & v & H3 & H4)]%Cw; [by left|right]. split_and!; [lia|lia|done|]. exists v. split; [set_solver|done].
  - apply Forall2_app; [|constructor; [|constructor]].
    + eapply Forall2_impl; [exact Cc|]. cbn. intros v w (T & E1 & E2 & E3). exists T. split_and!; [done|lia|lia|]. rewrite lookup_insert_ne by lia. done.
    + exists (pnext g'). cbn. split_and!; [done|lia|lia|by rewrite lookup_insert_eq].
  - rewrite map_app. apply NoDup_app. split_and!; [done| |apply NoDup_singleton]. cbn. intros T HTin ->%list_elem_of_singleton. apply list_elem_of_In, in_map_iff in HTin as (w & Ew & Hw%list_elem_of_In).
    apply list_elem_of_lookup in Hw as [j Hj]. destruct (Forall2_lookup_r _ _ _ _ _ Cc Hj) as (v & _ & T & E1 & E2 & _). rewrite E1 in Ew. cbn in Ew. lia.
Qed.

Lemma copied_start (g : pages F) : copied g [] [] g.
Proof.
  split; [done|done| |by eauto|done|by left|constructor|constructor]. intros r c Hc. exists c. split_and!; [done|done|lia|lia| |done]. by intros (u & Hu%elem_of_nil & _).
Qed.

(** [vmm_new_space] with the tables of the pages. *)
Lemma copy_areas_pages k (g : pages F) old s g' x (od done_ todo : list (Z * vm_area)) : tabs_inv k g -> 1 <= k ->
  (forall u, u ∈ todo -> areas old !! u.1 = Some u.2) -> layout todo -> (forall u v, u ∈ done_ -> v ∈ todo -> a_t u.2 <= a_s v.2) -> wf s x done_ ->
  (forall u, u ∈ todo -> is_Some (ppgs g !! a_ppgs u.2)) -> NoDup (map (fun u => a_ppgs u.2) (od ++ todo)) -> copied g od done_ g' ->
  total (copy_areas old s g' todo.*1) (fun '(s', g2) => exists x' rs', wf s' x' rs' /\ copied g (od ++ todo) rs' g2).
Proof.
  intros I Hk. revert od done_ s g' x. induction todo as [|[p a] todo IH]; intros od done_ s g' x Hold Hlay Hgap Hw Htab Hnd C; cbn [fmap list_fmap copy_areas fst].
  - apply total_Ok. exists x, done_. by rewrite app_nil_r.
  - unfold area. specialize (Hold (p, a) ltac:(left)) as Hp. cbn in Hp. rewrite Hp. cbn [deref res_bind].
    destruct (copied_step k g od done_ g' (p, a) I Hk C) as (T & g2 & E & Hc); [apply Htab; left| |].
    { intros v Hv E. rewrite map_app in Hnd. apply NoDup_app in Hnd as (_ & Hd & _). apply (Hd (a_ppgs v.2)); [by apply list_elem_of_In, (in_map (fun u : Z * vm_area => a_ppgs u.2)), list_elem_of_In|]. rewrite E. left. }
    change (page_split g' (a_ppgs a)) with (vmm_ppg_new g' (a_ppgs a)). cbn [snd] in E. rewrite E. cbn [res_bind].
    pose proof (alloc_at s x _ (a <| a_ppgs := T |>) Hw) as Hal. destruct (alloc_vma s _) as [na s1].
    destruct Hal as (-> & Hw1 & Hna & Hnn & Hni & Hn0 & _). rewrite <- (app_nil_r done_) in Hw1, Hni.
    destruct Hlay as [Hs Hz]. apply StronglySorted_inv in Hs as [Hs Hss]. apply Forall_cons in Hz as [Hza Hz].
    destruct (regst_at s1 x done_ [] (heap_next s) (a <| a_ppgs := T |>) _ Hw1 Hna Hnn Hni Hn0) as (s2 & E2 & x2 & Hw2 & _);
      [exact Hza|apply Forall_forall; intros u Hu; apply (Hgap u (p, a)); set_solver|constructor|].
    rewrite E2. cbn [res_bind]. rewrite cons_middle, app_assoc. apply (IH (od ++ [(p, a)]) (done_ ++ [(heap_next s, a <| a_ppgs := T |>)]) s2 g2 x2); [set_solver|by split| |done|set_solver|by rewrite <- app_assoc|apply Hc].
    intros u v [Hu|Hu]%elem_of_app Hv; [apply Hgap; set_solver|]. apply list_elem_of_singleton in Hu as ->. cbn. rewrite Forall_forall in Hss. apply (Hss v Hv).
Qed.

Definition read_only (tb : gmap Z Z) : gmap Z Z := (fun e => Z.ldiff e PE_RW) <$> tb.

Lemma area_at_copy (Q : Z * vm_area -> Z -> Prop) rs rs' v u : Forall2 (fun a b => exists T, b.2 = a.2 <| a_ppgs := T |> /\ Q a T) rs rs' -> area_at rs v = Some u ->
  exists u' T, area_at rs' v = Some u' /\ u'.2 = u.2 <| a_ppgs := T |> /\ Q u T.
Proof.
  unfold area_at. induction 1 as [|a b l l' (T & E & HQ) _ IH]; [done|]. cbn [find]. rewrite E. change (inside v (a.2 <| a_ppgs := T |>)) with (inside v a.2).
  destruct (inside v a.2); [|done]. intros [= <-]. by exists b, T.
Qed.

Section Forked.
Context (own : Z -> Prop) (k : Z) (R : gmap Z (list (Z * vm_area))) (g g' : pages F) (prt chd : Z) (rs rs' : list (Z * vm_area)) (tb : gmap Z Z).
Context (I : tabs_inv k g) (M : map_inv own R g) (Hk : 1 <= k).
Context (HR : R !! prt = Some rs) (Hchd : R !! chd = None) (Hown : own prt) (Hnot : ~ own chd) (Htb : pgts g !! prt = Some tb).
Context (C : copied (g <| pgts := <[chd := read_only tb]> (<[prt := read_only tb]> (pgts g)) |>) rs rs' g').

Lemma forked_ne : chd <> prt.
Proof. intros ->. congruence. Qed.

Lemma forked_ent q v : ent g' q v = if decide (q = chd \/ q = prt) then (fun e => Z.ldiff e PE_RW) <$> ent g prt v else ent g q v.
Proof.
  destruct (c_rest _ _ _ _ C) as [Hp _]. cbn in Hp. unfold ent, entry. rewrite Hp. destruct (decide (q = chd \/ q = prt)) as [Hq|Hq].
  - assert (<[chd := read_only tb]> (<[prt := read_only tb]> (pgts g)) !! q = Some (read_only tb)) as -> by (destruct Hq as [->| ->]; [apply lookup_insert_eq|rewrite lookup_insert_ne by (intros ?; by apply forked_ne); apply lookup_insert_eq]).
    rewrite Htb. cbn. unfold read_only. rewrite lookup_fmap. destruct (tb !! v) as [e|]; cbn; [|done]. destruct (readonly_spec e) as (-> & _ & _). by destruct (present e).
  - rewrite !lookup_insert_ne by naive_solver. done.
Qed.

(** Where a page of the child or the parent comes from. *)
Lemma forked_ent_inv q v e : ent g' q v = Some e -> exists e0, ADDR e0 = ADDR e /\ ent g (if decide (q = chd) then prt else q) v = Some e0 /\
  (writable e = true -> e0 = e /\ q <> chd /\ q <> prt).
Proof.
  rewrite forked_ent. destruct (decide (q = chd \/ q = prt)) as [Hq|Hq].
  - intros H. destruct (ent g prt v) as [e0|] eqn:E0; [|done]. cbn in H. injection H as <-. destruct (readonly_spec e0) as (_ & Ha & Hw). exists e0. split; [done|]. split; [|by rewrite Hw].
    destruct (decide (q = chd)); [done|]. destruct Hq as [| ->]; done.
  - intros H. exists e. split; [done|]. rewrite decide_False by tauto. split; [done|]. intros _. tauto.
Qed.

Lemma forked_maps q pa : maps g' q pa -> maps g (if decide (q = chd) then prt else q) pa.
Proof. intros (v & e & H & <-). destruct (forked_ent_inv _ _ _ H) as (e0 & Ea & H0 & _). by exists v, e0. Qed.

Lemma forked_held T r : held (ppgs g') T r <-> held (ppgs g) T r.
Proof.
  split; intros (t & Ht & Hr).
  - destruct (c_new _ _ _ _ C _ _ Ht) as [H|(_ & E & _)]; [by exists t|]. rewrite E in Hr. apply elem_bucket in Hr as (i & b & Hi & Hb). apply lookup_replicate in Hi as [-> _]. by apply elem_of_nil in Hb.
  - exists t. split; [by apply (c_old _ _ _ _ C)|done].
Qed.

Lemma forked_tabs : tabs_inv (k - 1) g'.
Proof.
  pose proof (c_next _ _ _ _ C) as Hn. cbn in Hn. pose proof (t_next _ _ I) as Hn0.
  assert (forall r c', recs g' !! r = Some c' -> exists c, recs g !! r = Some c /\ r_pa c' = r_pa c /\ r_cnt c <= r_cnt c' <= r_cnt c + 1) as Hrec.
  { intros r c' Hr. destruct (c_same _ _ _ _ C _ _ Hr) as [c Hc]. destruct (c_recs _ _ _ _ C _ _ Hc) as (c2 & H2 & H3 & H4 & _). assert (c2 = c') as -> by congruence. by exists c. }
  split.
  - intros T t Ht. destruct (c_new _ _ _ _ C _ _ Ht) as [H|(Hb & E & u & Hu & Ep)].
    + destruct (t_tab _ _ I _ _ H) as (H1 & H2 & H3). split_and!; [lia|lia|done|]. destruct H3 as [|[H3 [t2 H4]]]; [by left|right]. split; [done|]. exists t2. by apply (c_old _ _ _ _ C).
    + cbn in Hb. split_and!; [lia|lia|by rewrite E|right]. destruct (m_areas _ _ _ M _ _ HR) as (_ & _ & Hd). destruct (Hd u Hu) as [t2 Ht2]. rewrite Ep. destruct (t_tab _ _ I _ _ Ht2) as (H1 & _). split; [lia|]. exists t2. by apply (c_old _ _ _ _ C).
  - intros T t i b r Ht Hi Hb. assert (held (ppgs g') T r) as Hh by (exists t; split; [done|]; apply elem_bucket; by exists i, b). apply forked_held in Hh as (t0 & Ht0 & Hr0). pose proof (c_old _ _ _ _ C _ _ Ht0) as Ht1. assert (t0 = t) as -> by congruence.
    destruct (t_slot _ _ I _ _ _ _ _ Ht0 Hi Hb) as (c & Hc & ->). destruct (c_recs _ _ _ _ C _ _ Hc) as (c' & H2 & H3 & _). exists c'. by rewrite H3.
  - intros T T' r H1%forked_held H2%forked_held. by eapply (t_once _ _ I).
  - intros T t Ht. destruct (c_new _ _ _ _ C _ _ Ht) as [H|(_ & E & _)]; [by eapply (t_nodup _ _ I)|]. rewrite E. constructor.
  - intros r r' c c' H1 H2 E. destruct (Hrec _ _ H1) as (c1 & H3 & H4 & _), (Hrec _ _ H2) as (c2 & H5 & H6 & _). eapply (t_pa _ _ I); [exact H3|exact H5|congruence].
  - intros r c H. destruct (Hrec _ _ H) as (c1 & H1 & _ & H3). destruct (t_rec _ _ I _ _ H1). lia.
  - lia.
Qed.

Lemma forked_chain T T' : in_chain (ppgs g) T T' -> in_chain (ppgs g') T T'.
Proof. apply in_chain_mono. intros T0 t0 H. exists t0. split; [by apply (c_old _ _ _ _ C)|done]. Qed.

Lemma forked_rec r c : recs g !! r = Some c -> exists c', recs g' !! r = Some c' /\ r_pa c' = r_pa c.
Proof. intros H. destruct (c_recs _ _ _ _ C _ _ H) as (c' & H1 & H2 & _). by exists c'. Qed.

(** The copy of an area covers the same addresses and its table leads to the one of the area. *)
Lemma forked_area v u : area_at rs v = Some u -> exists u' T, area_at rs' v = Some u' /\ u'.2 = u.2 <| a_ppgs := T |> /\ ppgs g' !! T = Some (Ppg (a_ppgs u.2) (replicate 32 [])).
Proof.
  intros H. destruct (area_at_copy _ _ _ _ _ (c_cp _ _ _ _ C) H) as (u' & T & H1 & H2 & _ & H3). by exists u', T.
Qed.

Lemma forked_backed u T (strict : Prop) pa : u ∈ rs -> ppgs g' !! T = Some (Ppg (a_ppgs u.2) (replicate 32 [])) -> ~ strict -> backed g (a_ppgs u.2) (own prt) pa -> backed g' T strict pa.
Proof.
  intros Hu HT Hs (T' & r & c & H1 & H2 & H3 & <- & _). destruct (forked_rec _ _ H3) as (c' & H4 & <-). exists T', r, c'. split_and!; [|by apply forked_held|done|done|by intros ?].
  destruct (m_areas _ _ _ M _ _ HR) as (_ & _ & Hd). destruct (Hd u Hu) as [t2 Ht2]. destruct (t_tab _ _ I _ _ Ht2) as (H5 & _). eapply ch_up; [exact HT|cbn; lia|]. by apply forked_chain.
Qed.

Lemma forked_ents q v e : ent g' q v = Some e -> (PAGE_SIZ | v) /\ page_ok g' (ADDR e) /\
  exists rs1 u1, <[chd := rs']> R !! q = Some rs1 /\ area_at rs1 v = Some u1 /\ backed g' (a_ppgs u1.2) (own q) (ADDR e).
Proof.
  intros H. destruct (forked_ent_inv _ _ _ H) as (e0 & Ea & H0 & _). destruct (m_ent _ _ _ M _ _ _ H0) as (H1 & (X1 & X2 & b & X3 & X4) & rs1 & u1 & H3 & H4 & H5). rewrite <- Ea. split; [done|].
  split; [split_and!; [done|done|]; exists b; destruct (c_rest _ _ _ _ C) as (_ & -> & _); done|]. destruct (decide (q = chd)) as [->|Hne].
  - assert (rs1 = rs) as -> by congruence. destruct (forked_area v u1 H4) as (u' & T & H6 & H7 & H8). exists rs', u'. rewrite lookup_insert_eq. split_and!; [done|done|]. rewrite H7. cbn. destruct (area_at_elem _ _ _ H4) as [Hin _]. by eapply forked_backed.
  - exists rs1, u1. rewrite lookup_insert_ne by done. split_and!; [done|done|]. destruct H5 as (T & r & c & K1 & K2 & K3 & <- & K5). destruct (forked_rec _ _ K3) as (c' & K6 & <-). exists T, r, c'. split_and!; [by apply forked_chain|by apply forked_held|done|done|done].
Qed.

Lemma forked_count r c l : recs g' !! r = Some c -> NoDup l -> (forall q, q ∈ l -> maps g' q (r_pa c)) -> Z.of_nat (length l) <= r_cnt c.
Proof.
  intros Hr Hl Hm. destruct (c_same _ _ _ _ C _ _ Hr) as [c0 Hc0]. destruct (c_recs _ _ _ _ C _ _ Hc0) as (c2 & H2 & Hpa & Hb & Hinc & _). assert (c2 = c) as -> by congruence. change (recs g !! r = Some c0) in Hc0. rewrite Hpa in Hm.
  destruct (decide (chd ∈ l)) as [Hin|Hin].
  - apply list_elem_of_split in Hin as (l1 & l2 & ->). assert (NoDup (l1 ++ l2) /\ chd ∉ l1 ++ l2) as [Hl' Hni].
    { rewrite <- Permutation_middle in Hl. apply NoDup_cons in Hl as [? ?]. done. }
    assert (Z.of_nat (length (l1 ++ l2)) <= r_cnt c0) as Hle.
    { apply (m_cnt _ _ _ M r c0 (l1 ++ l2) Hc0 Hl'). intros q Hq. pose proof (forked_maps q _ (Hm q ltac:(set_solver))) as Hq'. by rewrite decide_False in Hq' by (intros ->; done). }
    pose proof (forked_maps chd _ (Hm chd ltac:(set_solver))) as Hp. rewrite decide_True in Hp by done. destruct Hp as (v & e & He & Ee). destruct (m_ent _ _ _ M _ _ _ He) as (_ & _ & rs1 & u & K1 & K2 & T & r1 & c1 & _ & K4 & K5 & K6 & K7).
    assert (rs1 = rs) as -> by congruence. assert (r1 = r) as -> by (eapply (t_pa _ _ I); [exact K5|exact Hc0|congruence]). rewrite (K7 Hown) in K4. destruct (area_at_elem _ _ _ K2) as [Hu _]. rewrite Hinc by (by exists u). rewrite length_app in *. cbn [length]. lia.
  - enough (Z.of_nat (length l) <= r_cnt c0) by lia. apply (m_cnt _ _ _ M r c0 l Hc0 Hl). intros q Hq. pose proof (forked_maps q _ (Hm q Hq)) as Hq'. by rewrite decide_False in Hq' by (intros ->; done).
Qed.

Lemma forked_areas q rs1 : <[chd := rs']> R !! q = Some rs1 -> Forall (fun u => private u.2) rs1 /\ NoDup (map (fun u => a_ppgs u.2) rs1) /\ forall u, u ∈ rs1 -> is_Some (ppgs g' !! a_ppgs u.2).
Proof.
  destruct (decide (q = chd)) as [->|Hne].
  - rewrite lookup_insert_eq. intros [= <-]. destruct (m_areas _ _ _ M _ _ HR) as (Hp & _ & _). pose proof (c_cp _ _ _ _ C) as Hcp. split_and!; [|apply (c_nodup _ _ _ _ C)|].
    + apply Forall_forall. intros w Hw. apply list_elem_of_lookup in Hw as [j Hj]. destruct (Forall2_lookup_r _ _ _ _ _ Hcp Hj) as (u & Hu & T & -> & _). apply list_elem_of_lookup_2 in Hu. apply (proj1 (Forall_forall _ _) Hp u Hu).
    + intros w Hw. apply list_elem_of_lookup in Hw as [j Hj]. destruct (Forall2_lookup_r _ _ _ _ _ Hcp Hj) as (u & Hu & T & -> & _ & HT). cbn. by eexists.
  - rewrite lookup_insert_ne by done. intros H. destruct (m_areas _ _ _ M _ _ H) as (Hp & Hn & Hd). split_and!; [done|done|]. intros u [t Ht]%Hd. exists t. by apply (c_old _ _ _ _ C).
Qed.

Lemma forked_map : map_inv own (<[chd := rs']> R) g'.
Proof.
  destruct (c_rest _ _ _ _ C) as (Hp & Hram & Hpool & _). cbn in Hp, Hram, Hpool. split.
  - intros q. rewrite Hp. destruct (decide (q = chd)) as [->|]; [by rewrite !lookup_insert_eq; split; eexists|]. rewrite !(lookup_insert_ne _ chd) by done. rewrite <- (m_dom _ _ _ M). destruct (decide (q = prt)) as [->|]; [rewrite lookup_insert_eq, Htb; by split; eexists|by rewrite lookup_insert_ne].
  - apply forked_areas.
  - apply forked_ents.
  - intros q v v' e e' H1 H2 E. destruct (forked_ent_inv _ _ _ H1) as (e1 & E1 & K1 & _), (forked_ent_inv _ _ _ H2) as (e2 & E2 & K2 & _). eapply (m_once _ _ _ M); [exact K1|exact K2|congruence].
  - apply forked_count.
  - intros q v e q' H Hw Hq. destruct (forked_ent_inv _ _ _ H) as (e0 & _ & K1 & K2). destruct (K2 Hw) as (-> & N1 & N2). rewrite decide_False in K1 by done. apply forked_maps in Hq. pose proof (m_rw _ _ _ M _ _ _ _ K1 Hw Hq) as E. destruct (decide (q' = chd)); [by subst|done].
  - intros q v e rs1 u1 H H1 H2 Hw. destruct (forked_ent_inv _ _ _ H) as (e0 & _ & K1 & K2). destruct (K2 Hw) as (-> & N1 & N2). rewrite decide_False in K1 by done. rewrite lookup_insert_ne in H1 by done. by eapply (m_prot _ _ _ M).
  - intros f Hf. rewrite Hpool in Hf. destruct (m_pool _ _ _ M _ Hf) as [Hb Hno]. split; [by rewrite Hram|]. intros r c Hr. destruct (c_same _ _ _ _ C _ _ Hr) as [c0 Hc0]. destruct (forked_rec _ _ Hc0) as (c1 & H1 & H2). assert (c1 = c) as -> by congruence. rewrite H2. by eapply Hno.
Qed.

Lemma forked_view q v : view g' q v = view g (if decide (q = chd) then prt else q) v.
Proof.
  unfold view. destruct (c_rest _ _ _ _ C) as (_ & -> & _). change (ram (g <| pgts := _ |>)) with (ram g). rewrite forked_ent. destruct (decide (q = chd \/ q = prt)) as [Hq|Hq].
  - assert ((if decide (q = chd) then prt else q) = prt) as -> by (destruct (decide (q = chd)); [done|]; destruct Hq as [| ->]; done). destruct (ent g prt _) as [e|]; [|done]. cbn. destruct (readonly_spec e) as (_ & -> & _). done.
  - by rewrite decide_False by tauto.
Qed.

End Forked.

Lemma fork_ok own k R (m : cow F) prt chd rs : inv own k R m -> 1 <= k -> R !! prt = Some rs -> R !! chd = None -> own prt -> ~ own chd ->
  total (fork_pgt m prt chd) (fun m' => exists rs', inv own (k - 1) (<[chd := rs']> R) m' /\ Forall2 same_range rs rs' /\ pframes (pg m') = pframes (pg m) /\
    forall q v, view (pg m') q v = view (pg m) (if decide (q = chd) then prt else q) v).
Proof.
  intros [I M Hs] Hk HR Hchd Hown Hnot. destruct (Hs prt rs HR) as (s & x & Es & Hw). destruct (proj2 (m_dom _ _ _ M prt) ltac:(by eexists)) as [tb Htb]. destruct (m_areas _ _ _ M _ _ HR) as (_ & Hnd & Hd).
  unfold fork_pgt. rewrite Es. cbn [deref res_bind]. unfold copy_tables. rewrite Htb. cbn [deref res_bind]. fold (read_only tb). set (g1 := _ <| pgts := _ |>). unfold vmm_new_space. rewrite (wf_list _ _ _ Hw).
  destruct (copy_areas_pages k g1 s (VmSpace [] RBTREE_INIT ∅ (heap_next s)) g1 E [] [] rs) as ([s' g'] & E & x' & rs' & Hw' & C).
  - by destruct I; split.
  - done.
  - intros u Hu. apply (proj1 (Forall_forall _ _) (wf_areas _ _ _ Hw) u Hu).
  - apply Hw.
  - set_solver.
  - destruct wf_empty. split; try done. apply Hw.
  - done.
  - done.
  - apply copied_start.
  - rewrite E. cbn [res_bind]. apply total_Ok. exists rs'. cbn [app] in C. set (m2 := m <| pg := _ |> <| vsps ::= _ |>). assert (vsps m2 = <[chd := s']> (vsps m)) as Ev by done. split; [|split_and!].
    + split; cbn [pg vsps]; [by eapply (forked_tabs own k R (pg m) g' prt chd rs)|by eapply (forked_map own k R (pg m) g' prt chd rs)|]. intros p rsp. rewrite Ev. destruct (decide (p = chd)) as [->|]; [rewrite !lookup_insert_eq; intros [= <-]; by exists s', x'|]. rewrite !lookup_insert_ne by done. apply Hs.
    + eapply Forall2_impl; [exact (c_cp _ _ _ _ C)|]. intros u v (T & Et & _). by exists T.
    + cbn. by destruct (c_rest _ _ _ _ C) as (_ & _ & -> & _).
    + intros q v. cbn. by eapply forked_view.
Qed.

Lemma inv_less own k k' R (m : cow F) : inv own k R m -> k' <= k -> inv own k' R m.
Proof. intros [[] M Hs] Hk. split; [|done|done]. split; try done. intros r c H. destruct (t_rec0 r c H). lia. Qed.

(** ** Runs *)

(** The state stands for the memories [st]: what is known of the memory of a process is what it
    sees. *)
Record stands (rs : list (Z * vm_area)) (R : gmap Z (list (Z * vm_area))) (live : list Z) (st : gmap Z (gmap Z Z)) (m : cow F) : Prop := {
  s_live : forall p, p ∈ live <-> is_Some (R !! p);
  s_own : forall p, p ∈ live <-> is_Some (st !! p);
  s_seen : forall p b va x, st !! p = Some b -> b !! va = Some x -> view (pg m) p va = Some x;
  s_range : forall p rsp, R !! p = Some rsp -> Forall2 same_range rs rsp
}.

Lemma mapped_area rs rsp va : Forall2 same_range rs rsp ->
  (match area_at rsp va with Some u => true | None => false end) = (match mapped rs va with Some _ => true | None => false end) /\
  (match area_at rsp va with Some u => allows u.2 true | None => false end) = may_write rs va.
Proof.
  intros H. unfold may_write. rewrite <- (mapped_same _ _ va H). unfold mapped, area_at. by destruct (find _ rsp).
Qed.

Lemma same_range_trans l1 l2 l3 : Forall2 same_range l1 l2 -> Forall2 same_range l2 l3 -> Forall2 same_range l1 l3.
Proof.
  intros H. revert l3. induction H as [|u v l1 l2 [T E] _ IH]; intros l3 H3; [by inversion H3|]. inversion H3 as [|? w ? l [T' E'] H4]; subst. constructor; [|by apply IH]. exists T'. by rewrite E', E.
Qed.

Lemma stands_kept rs R live st (m m' : cow F) : stands rs R live st m -> kept (pg m) (pg m') -> stands rs R live st m'.
Proof. intros [H1 H2 H3 H4] Hk. split; try done. intros p b va x Hb Hx. apply Hk. by eapply H3. Qed.

Lemma stands_set rs R live st (m : cow F) p b va x : stands rs R live st m -> st !! p = Some b -> view (pg m) p va = Some x -> stands rs R live (<[p := <[va := x]> b]> st) m.
Proof.
  intros [H1 H2 H3 H4] Hb Hv. split; try done.
  - intros q. rewrite H2. destruct (decide (q = p)) as [->|]; [rewrite lookup_insert_eq, Hb; by split; eexists|by rewrite lookup_insert_ne].
  - intros q b' va' y. destruct (decide (q = p)) as [->|]; [|rewrite lookup_insert_ne by done; by apply H3]. rewrite lookup_insert_eq. intros [= <-]. destruct (decide (va' = va)) as [->|]; [rewrite lookup_insert_eq; congruence|rewrite lookup_insert_ne by done; by apply H3].
Qed.

Section Run.
Context (root : Z) (rs : list (Z * vm_area)).

Definition after (n : nat) (live : list Z) (st : gmap Z (gmap Z Z)) (m : cow F) : Prop :=
  exists R, inv (eq root) (Z.of_nat n) R m /\ stands rs R live st m /\ fp_stock (pframes (pg m)) (S n).

Lemma load_step n live st m p va : after (S n) live st m -> Z.of_nat (S n) < 2 ^ 63 -> p ∈ live -> 0 <= va ->
  exists o m' st', step m (Load p va) = Ok (o, m') /\ spec_step rs st (Load p va) o = Some st' /\ after n live st' m'.
Proof.
  intros (R & Hi & Hst & Hf) Hn Hp Hva. destruct (proj1 (s_live _ _ _ _ _ Hst p) Hp) as [rsp HR]. destruct (proj1 (s_own _ _ _ _ _ Hst p) Hp) as [b Hb]. apply (inv_less _ _ (Z.of_nat n)) in Hi; [|lia].
  destruct (load_ok _ _ R n m p rsp va Hi ltac:(lia) HR Hva Hf) as ([o m'] & E & Hi' & Hk & Hf' & Ho). destruct (mapped_area rs rsp va (s_range _ _ _ _ _ Hst _ _ HR)) as [Em _]. rewrite Em in Ho. pose proof (stands_kept _ _ _ _ _ _ Hst Hk) as Hst'.
  exists (Loaded o), m'. cbn [step spec_step]. rewrite E, Hb. cbn. destruct (mapped rs va); [|subst o; exists st; split_and!; [done|done|by exists R]]. destruct Ho as (x & -> & Hx). destruct (b !! va) as [y|] eqn:Ey.
  - pose proof (s_seen _ _ _ _ _ Hst' _ _ _ _ Hb Ey) as Hy. assert (y = x) as -> by congruence. rewrite Z.eqb_refl. exists st. split_and!; [done|done|by exists R].
  - eexists. split; [done|]. split; [done|]. exists R. split_and!; [done|by apply stands_set|done].
Qed.

Lemma store_step n live st m p va x : after (S n) live st m -> Z.of_nat (S n) < 2 ^ 63 -> p ∈ live -> 0 <= va ->
  exists o m' st', step m (Store p va x) = Ok (o, m') /\ spec_step rs st (Store p va x) o = Some st' /\ after n live st' m'.
Proof.
  intros (R & Hi & Hst & Hf) Hn Hp Hva. destruct (proj1 (s_live _ _ _ _ _ Hst p) Hp) as [rsp HR]. destruct (proj1 (s_own _ _ _ _ _ Hst p) Hp) as [b Hb]. apply (inv_less _ _ (Z.of_nat n)) in Hi; [|lia].
  destruct (store_ok _ _ R n m p rsp va x Hi ltac:(lia) HR Hva Hf) as ([ok m'] & E & Hi' & Hf' & Hk & Ho). destruct (mapped_area rs rsp va (s_range _ _ _ _ _ Hst _ _ HR)) as [_ Em]. rewrite Em in Ho.
  exists (Stored ok), m'. cbn [step spec_step]. rewrite E, Hb. cbn. destruct (may_write rs va); destruct Ho as [-> Hv]; cbn [Bool.eqb]; (eexists; split; [done|]; split; [done|]; exists R; split_and!; [done| |done]).
  - destruct Hst as [H1 H2 H3 H4]. split; try done.
    + intros q. rewrite H2. destruct (decide (q = p)) as [->|]; [rewrite lookup_insert_eq, Hb; by split; eexists|by rewrite lookup_insert_ne].
    + intros q b' va' y. destruct (decide (q = p)) as [->|]; [|rewrite lookup_insert_ne by done; intros Hq Hy; apply Hk; [naive_solver|by eapply H3]]. rewrite lookup_insert_eq. intros [= <-].
      destruct (decide (va' = va)) as [->|]; [rewrite lookup_insert_eq; congruence|rewrite lookup_insert_ne by done; intros Hy; apply Hk; [naive_solver|by eapply H3]].
  - by eapply stands_kept.
Qed.

Lemma fork_step n live st m c : after (S n) live st m -> root ∈ live -> (c ∉ live) ->
  exists o m' st', step m (Fork root c) = Ok (o, m') /\ spec_step rs st (Fork root c) o = Some st' /\ after n (c :: live) st' m'.
Proof.
  intros (R & Hi & Hst & Hf) Hp Hc. destruct (proj1 (s_live _ _ _ _ _ Hst root) Hp) as [rsp HR]. destruct (proj1 (s_own _ _ _ _ _ Hst root) Hp) as [b Hb]. assert (root <> c) as Hne by (intros ->; done).
  assert (R !! c = None) as HRc by (destruct (R !! c) eqn:E; [|done]; exfalso; apply Hc, (s_live _ _ _ _ _ Hst); by eexists).
  destruct (fork_ok _ _ R m root c rsp Hi ltac:(lia) HR HRc eq_refl Hne) as (m' & E & rs' & Hi' & Hr & Hpool & Hv). exists Forked, m'. cbn [step spec_step]. rewrite E, Hb. cbn. eexists. split; [done|]. split; [done|].
  exists (<[c := rs']> R). split; [by replace (Z.of_nat n) with (Z.of_nat (S n) - 1) by lia|]. split; [|rewrite Hpool; by apply (fp_stock_le _ (S (S n))); [|lia]]. destruct Hst as [H1 H2 H3 H4]. split.
  - intros q. rewrite elem_of_cons, H1. destruct (decide (q = c)) as [->|]; [rewrite lookup_insert_eq; split; [by eexists|by left]|rewrite lookup_insert_ne by done; naive_solver].
  - intros q. rewrite elem_of_cons, H2. destruct (decide (q = c)) as [->|]; [rewrite lookup_insert_eq; split; [by eexists|by left]|rewrite lookup_insert_ne by done; naive_solver].
  - intros q b' va x. rewrite Hv. destruct (decide (q = c)) as [->|]; [rewrite lookup_insert_eq; intros [= <-]|rewrite lookup_insert_ne by done]; by apply H3.
  - intros q rsq. destruct (decide (q = c)) as [->|]; [|rewrite lookup_insert_ne by done; by apply H4]. rewrite lookup_insert_eq. intros [= <-]. eapply same_range_trans; [by apply (H4 root)|exact Hr].
Qed.

Lemma run_stands cs : forall live st m, after (length cs) live st m -> Z.of_nat (length cs) < 2 ^ 63 -> root ∈ live -> valid root live cs ->
  exists os m', run m cs = Ok (os, m') /\ is_Some (spec_run rs st cs os).
Proof.
  induction cs as [|c cs IH]; intros live st m Ha Hn Hroot Hv; [exists [], m; by split; [|eexists]|]. cbn [length] in *.
  assert (exists o m' st' live', step m c = Ok (o, m') /\ spec_step rs st c o = Some st' /\ after (length cs) live' st' m' /\ root ∈ live' /\ valid root live' cs) as (o & m' & st' & live' & E1 & E2 & Ha' & Hr' & Hv').
  { destruct c as [p va|p va x|p c]; cbn [valid] in Hv; destruct Hv as (H1 & H2 & H3).
    - destruct (load_step _ _ _ _ p va Ha Hn H1 H2) as (o & m' & st' & ? & ? & ?). by exists o, m', st', live.
    - destruct (store_step _ _ _ _ p va x Ha Hn H1 H2) as (o & m' & st' & ? & ? & ?). by exists o, m', st', live.
    - subst p. destruct (fork_step _ _ _ _ c Ha Hroot H2) as (o & m' & st' & ? & ? & ?). exists o, m', st', (c :: live). split_and!; try done. by right. }
  destruct (IH live' st' m' Ha' ltac:(lia) Hr' Hv') as (os & m2 & E3 & E4). exists (o :: os), m2. cbn [run]. rewrite E1. cbn [res_bind fst snd]. rewrite E3. split; [done|]. cbn [spec_run]. by rewrite E2.
Qed.

End Run.

(** A process after [execve]: areas with tables of their own, and no page yet. *)
Lemma boot_inv root s x rs next mem (f : F) k :
  wf s x rs -> Forall (fun u => private u.2 /\ 0 < a_ppgs u.2 < next) rs -> NoDup (map (fun u => a_ppgs u.2) rs) -> 0 < next ->
  (forall p, fp_has f p -> exists bs, mem !! p = Some bs /\ length bs = Z.to_nat PAGE_SIZ) ->
  inv (eq root) k {[root := rs]} (boot root s rs next mem f).
Proof.
  intros Hw Hp Hn Hnext Hmem. set (tabs := list_to_map (map (fun u => (a_ppgs u.2, Ppg 0 (replicate 32 []))) rs) : gmap Z ppg).
  assert (forall T t, tabs !! T = Some t -> t = Ppg 0 (replicate 32 []) /\ exists u, u ∈ rs /\ T = a_ppgs u.2) as Htab.
  { intros T t H. apply elem_of_list_to_map_2 in H. apply list_elem_of_In, in_map_iff in H as (u & [= <- <-] & Hu%list_elem_of_In). split; [done|by exists u]. }
  assert (forall T r, ~ held tabs T r) as Hheld.
  { intros T r (t & Ht & Hr). destruct (Htab T t Ht) as [-> _]. cbn in Hr. by apply elem_of_nil in Hr. }
  assert (forall q v, ent (pg (boot root s rs next mem f)) q v = None) as Hent.
  { intros q v. unfold ent, entry. cbn. destruct (decide (q = root)) as [->|]; [rewrite lookup_singleton_eq|rewrite lookup_singleton_ne by done]; cbn; by rewrite ?lookup_empty. }
  split; [split; cbn; try done|split; cbn; try done|].
  - intros T t Ht. destruct (Htab T t Ht) as (-> & u & Hu & ->). destruct (proj1 (Forall_forall _ _) Hp u Hu) as [_ H]. split; [lia|]. split; [done|by left].
  - intros T t i b r Ht Hi Hr. exfalso. apply (Hheld T r). exists t. split; [done|]. apply elem_bucket. by exists i, b.
  - intros T T' r H. by apply Hheld in H.
  - intros T t Ht. destruct (Htab T t Ht) as [-> _]. constructor.
  - intros p. destruct (decide (p = root)) as [->|]; [by rewrite !lookup_singleton_eq; split; eexists|by rewrite !lookup_singleton_ne].
  - intros p rsp [<- <-]%lookup_singleton_Some. split_and!; [eapply Forall_impl; [exact Hp|]; by intros u [? _]|done|]. intros u Hu. fold tabs. destruct (tabs !! a_ppgs u.2) as [t|] eqn:E; [by eexists|]. exfalso. apply not_elem_of_list_to_map_2 in E. apply E.
    rewrite map_map. cbn. by apply list_elem_of_In, (in_map (fun u : Z * vm_area => a_ppgs u.2)), list_elem_of_In.
  - intros p va e H. by rewrite Hent in H.
  - intros p va va' e e' H. by rewrite Hent in H.
  - intros p va e q H. by rewrite Hent in H.
  - intros p va e rsp u H. by rewrite Hent in H.
  - intros q Hq. split; [by apply Hmem|done].
  - intros p rsp [<- <-]%lookup_singleton_Some. exists s, x. cbn. by rewrite lookup_singleton_eq.
Qed.

(** C31: [fork] gives the child a memory of its own.  In every sequence of reads, writes and forks by
    a process that has just been loaded and by its children, on private areas of files and of
    anonymous memory, nothing faults in the kernel, an access is refused just where the areas
    refuse it, and a process that reads a byte again, or reads what it or (before the fork) its
    parent wrote, gets that byte whatever the other processes have written.  The first value read
    from a byte nobody wrote is not specified.  The children do not fork themselves, and there is a
    free page for each command. *)
Theorem fork_isolates root s x rs next mem (f : F) cs :
  wf s x rs -> Forall (fun u => private u.2 /\ 0 < a_ppgs u.2 < next) rs -> NoDup (map (fun u => a_ppgs u.2) rs) -> 0 < next ->
  (forall p, fp_has f p -> exists bs, mem !! p = Some bs /\ length bs = Z.to_nat PAGE_SIZ) ->
  fp_stock f (S (length cs)) -> Z.of_nat (length cs) < 2 ^ 63 -> valid root [root] cs ->
  exists os m', run (boot root s rs next mem f) cs = Ok (os, m') /\ is_Some (spec_run rs {[root := ∅]} cs os).
Proof.
  intros Hw Hp Hn Hnext Hmem Hst Hlen Hv. apply (run_stands root rs cs [root]); [|done|by apply list_elem_of_singleton|done]. exists {[root := rs]}. split; [by eapply boot_inv|]. split; [|done]. split.
  - intros p. rewrite list_elem_of_singleton, lookup_singleton_is_Some. done.
  - intros p. rewrite list_elem_of_singleton, lookup_singleton_is_Some. done.
  - intros p b va y [<- <-]%lookup_singleton_Some H. by rewrite lookup_empty in H.
  - intros p rsp [<- <-]%lookup_singleton_Some. clear. induction rs as [|u l IH]; [constructor|]. constructor; [|done]. exists (a_ppgs u.2). by destruct u as [i []].
Qed.

End Proofs.

(** ** An example *)

#[local] Instance no_files : Files.
Proof. refine {| node_siz := fun _ => 0; vfs_read := fun _ _ _ => [] |}. intros. cbn. lia. Defined.

Definition demo_area : vm_area := VmArea 0x1000 0x3000 (0x2 + MAP_ANON) 3 0 0 0 1.

Definition demo_frames : list Z := [0x10000; 0x11000; 0x12000; 0x13000; 0x14000; 0x15000; 0x16000; 0x17000].

Definition demo_ram : gmap Z (list Z) := list_to_map (map (fun p => (p, replicate 4096 0)) demo_frames).

Definition demo_cmds : list cmd := [Store 1 0x1004 7; Fork 1 2; Store 2 0x1004 8; Load 1 0x1004; Load 2 0x1004; Load 2 0x5000].

Lemma demo_distinct : NoDup demo_frames /\ forall p, p ∈ demo_frames -> p <> 0 /\ frame p.
Proof.
  split; [apply (bool_decide_unpack _); vm_compute; exact I|]. apply Forall_forall. repeat constructor; discriminate.
Qed.

Lemma fork_isolates_witness : exists s os m', map_area Vma.empty_space demo_area = Ok (0x1000, s) /\
  run (boot 1 s [(1, demo_area)] 2 demo_ram demo_frames) demo_cmds = Ok (os, m') /\ is_Some (spec_run [(1, demo_area)] {[1 := ∅]} demo_cmds os).
Proof.
  destruct (map_area_at Vma.empty_space E [] [] demo_area Vma.wf_empty) as ([r s] & E1 & -> & x & Hw); [split; [vm_compute; discriminate|reflexivity]|constructor|constructor|].
  cbn [app] in Hw. exists s. destruct (fork_isolates (F := list Z) 1 s x [(1, demo_area)] 2 demo_ram demo_frames demo_cmds) as (os & m' & H1 & H2).
  - exact Hw.
  - constructor; [|constructor]. split; [|cbn; lia]. split; [by split; [exists 1|exists 3]|]. split; [reflexivity|right; discriminate].
  - apply NoDup_singleton.
  - lia.
  - intros p Hp. exists (replicate 4096 0). split; [|apply length_replicate]. apply elem_of_list_to_map_1; [rewrite <- list_fmap_compose; apply demo_distinct|].
    by apply list_elem_of_In, (in_map (fun p => (p, replicate 4096 0))), list_elem_of_In.
  - split_and!; [cbn; lia|apply demo_distinct|apply demo_distinct].
  - vm_compute. reflexivity.
  - unfold demo_cmds. cbn [valid]. split_and!; try lia; try (by apply list_elem_of_here); [|by apply list_elem_of_further, list_elem_of_here]. intros H. apply list_elem_of_singleton in H. discriminate.
  - exists os, m'. split; [exact E1|]. split; [exact H1|exact H2].
Defined.
