(* ===== verification/PgtCopy.v ===== *)
(** * Copying the page tables of a process: [copy_pgt] of [kernel/mm/map.c]

    The tables of the lower half of an address space form a tree of pages.  The
    copy is a second tree, on fresh pages, whose last-level entries name the same
    physical pages; in both trees those entries have lost their write bit. *)
From Stdlib Require Import ZArith Lia List Bool.
From stdpp Require Import base list gmap.
From S2P Require Import Prelude Paging.

#[local] Open Scope Z_scope.

(** ** Trees of tables *)

(** The number of entries [_copy_pgt] follows at a level. *)
Definition lim (lv : nat) : nat := if (lv =? 3)%nat then 256 else 512.

(** An entry that names a table and nothing else. *)
Definition link (e : Z) : Prop := usable e = true /\ frame_of e = ADDR e.

(** [X] lists the pages of the tree below table [t]. *)
Fixpoint owns (m : pmem) (lv : nat) (t : Z) (X : list Z) : Prop :=
  exists w, m !! t = Some w /\ length w = 512%nat /\
  match lv with
  | O => X = [t]
  | S lv' => exists Xs, X = t :: concat Xs /\ length Xs = lim lv /\
      forall j e Xj, w !! j = Some e -> Xs !! j = Some Xj ->
        if e =? 0 then Xj = [] else link e /\ owns m lv' (ADDR e) Xj
  end.

(** The last-level entry for an address of the lower half. *)
Fixpoint dwalk (m : pmem) (lv : nat) (t va : Z) : option Z :=
  e ← entry_at m t va lv;
  match lv with
  | O => Some e
  | S lv' => if e =? 0 then None else dwalk m lv' (ADDR e) va
  end.

Definition low (va : Z) : Prop := IDX va 3 < 256.

Definition ro (e : Z) : Z := Z.land e (2 ^ 64 - 1 - PE_RW).

Lemma low_idx va lv : low va -> (lv <= 3)%nat -> (Z.to_nat (IDX va (Z.of_nat lv)) < lim lv)%nat.
Proof.
  intros Hl Hlv. pose proof (IDX_range va (Z.of_nat lv) ltac:(lia)). unfold lim.
  destruct (Nat.eqb_spec lv 3) as [->|]; [|lia]. unfold low in Hl. change (Z.of_nat 3) with 3. pose proof (IDX_range va 3 ltac:(lia)). lia.
Qed.

Lemma lim_le lv : (lim lv <= 512)%nat.
Proof. unfold lim. destruct (lv =? 3)%nat; lia. Qed.

(** Memory outside the tree does not matter. *)
Lemma owns_frame m m' lv : forall t X, owns m lv t X -> (forall p, p ∈ X -> m' !! p = m !! p) -> owns m' lv t X.
Proof.
  induction lv as [|lv IH]; intros t X (w & Hw & Hl & HX) Hf; exists w.
  - subst X. rewrite Hf by by apply list_elem_of_singleton. done.
  - destruct HX as (Xs & -> & HlX & Hch). rewrite Hf by by left. split_and!; [done|done|]. exists Xs. split_and!; [done|done|].
    intros j e Xj He Hj. specialize (Hch j e Xj He Hj). destruct (e =? 0); [done|]. destruct Hch as [Hlk Hch]. split; [done|].
    apply IH; [done|]. intros p Hp. apply Hf. right. by eapply concat_elem.
Qed.

Lemma dwalk_frame m m' lv va : forall t X, (lv <= 3)%nat -> low va -> owns m lv t X ->
  (forall p, p ∈ X -> m' !! p = m !! p) -> dwalk m' lv t va = dwalk m lv t va.
Proof.
  induction lv as [|lv IH]; intros t X Hlv Hlow (w & Hw & Hl & HX) Hf.
  - subst X. cbn [dwalk]. unfold entry_at. by rewrite Hf by by apply list_elem_of_singleton.
  - destruct HX as (Xs & -> & HlX & Hch). cbn [dwalk]. unfold entry_at. rewrite Hf by by left. rewrite Hw. cbn [mbind option_bind].
    pose proof (low_idx va (S lv) Hlow Hlv) as Hix. destruct (w !! _) as [e|] eqn:Ee; cbn [mbind option_bind]; [|done].
    destruct (lookup_lt_is_Some_2 Xs (Z.to_nat (IDX va (Z.of_nat (S lv))))) as [Xj Hj]; [by rewrite HlX|].
    specialize (Hch _ e Xj Ee Hj). destruct (e =? 0); [done|]. destruct Hch as [_ Hch]. apply (IH (ADDR e) Xj); [lia|done|done|].
    intros p Hp. apply Hf. right. by eapply concat_elem.
Qed.

(** The tree at [t'] is a copy of the one that was at [t]. *)
Record copied (m m' : pmem) (lv : nat) (t t' : Z) (X Y : list Z) : Prop := {
  cp_old : owns m' lv t X;
  cp_new : owns m' lv t' Y;
  cp_nodup : NoDup Y;
  cp_walk : forall va, low va -> dwalk m' lv t va = ro <$> dwalk m lv t va /\ dwalk m' lv t' va = ro <$> dwalk m lv t va
}.

Lemma copied_frame m m' m'' lv t t' X Y : (lv <= 3)%nat ->
  copied m m' lv t t' X Y -> (forall p, p ∈ X \/ p ∈ Y -> m'' !! p = m' !! p) -> copied m m'' lv t t' X Y.
Proof.
  intros Hlv [C1 C2 C3 C4] Hf. split; [eapply owns_frame; eauto|eapply owns_frame; eauto|done|].
  intros va Hl. destruct (C4 va Hl) as [H1 H2].
  rewrite (dwalk_frame m' m'' lv va t X), (dwalk_frame m' m'' lv va t' Y); eauto.
Qed.

(** The entry [_copy_pgt] writes for a copied table. *)
Lemma copy_link e p : link e -> frame p -> p <> 0 ->
  link (Z.lor (FLAG e) (ADDR p)) /\ ADDR (Z.lor (FLAG e) (ADDR p)) = p /\ (Z.lor (FLAG e) (ADDR p) =? 0) = false.
Proof.
  intros [[Hp Hl]%usable_spec Hf] Hfr Hz. rewrite frame_ADDR by done. rewrite Z.lor_comm. unfold FLAG.
  assert (link (Z.lor p (Z.land e 0x7FF))) as Hk.
  { split; [|by rewrite frame_of_low, ADDR_low]. rewrite present_bit in Hp. rewrite large_bit in Hl.
    unfold usable. rewrite present_bit, large_bit, !Z.lor_spec, !Z.land_spec, Hp, Hl.
    rewrite (frame_bit p 0), (frame_bit p 7) by done. cbn. by rewrite !andb_false_r. }
  split_and!; [done|by apply ADDR_low|]. apply Z.eqb_neq. intros E0. destruct Hk as [Hu _]. by rewrite E0 in Hu.
Qed.

Lemma nodup_concat_at (Xs : list (list Z)) j Xj : NoDup (concat Xs) -> Xs !! j = Some Xj -> NoDup Xj.
Proof.
  revert j. induction Xs as [|X Xs IH]; intros j Hn Hj; [done|]. cbn in Hn. apply NoDup_app in Hn as (H1 & _ & H2).
  destruct j as [|j]; [by injection Hj as <-|]. by apply (IH j).
Qed.

Lemma nodup_concat_ne (Xs : list (list Z)) i j Xi Xj p :
  NoDup (concat Xs) -> Xs !! i = Some Xi -> Xs !! j = Some Xj -> i <> j -> p ∈ Xi -> (p ∉ Xj).
Proof.
  revert i j. induction Xs as [|X Xs IH]; intros i j Hn Hi Hj Hne Hp Hp'; [done|]. cbn in Hn. apply NoDup_app in Hn as (H1 & H2 & H3).
  destruct i as [|i], j as [|j]; [done| | |].
  - injection Hi as <-. apply (H2 p Hp). by eapply concat_elem.
  - injection Hj as <-. apply (H2 p Hp'). by eapply concat_elem.
  - by apply (IH i j H3 Hi Hj ltac:(lia) Hp).
Qed.

Lemma concat_drop (Xs : list (list Z)) i Xi : Xs !! i = Some Xi -> length (concat (drop i Xs)) = (length Xi + length (concat (drop (S i) Xs)))%nat.
Proof. intros Hi. rewrite (drop_S _ _ _ Hi). cbn. by rewrite length_app. Qed.

Section Copy.
Context {F : Type} `{FL : FrameLaws F}.

(** ** The last level *)

Lemma aget_nat {A} (l : list A) (i : nat) a : l !! i = Some a -> aget l (Z.of_nat i) = Ok a.
Proof. intros H. apply aget_Ok. rewrite Nat2Z.id. split; [lia|done]. Qed.

Lemma aset_nat {A} (l : list A) (i : nat) a : (i < length l)%nat -> aset l (Z.of_nat i) a = Ok (<[i := a]> l).
Proof. intros H. rewrite aset_lt by lia. by rewrite Nat2Z.id. Qed.

(** Halfway through the loop over the words [w] of a last-level table. *)
Definition half (w l : list Z) (i : nat) : Prop :=
  length l = 512%nat /\ forall j, l !! j = if (j <? i)%nat then ro <$> w !! j else w !! j.

Lemma half_step w l i e v : half w l i -> w !! i = Some e -> v = ro e -> half w (<[i := v]> l) (S i).
Proof.
  intros [Hl Hj] He ->. split; [by rewrite length_insert|]. intros j. rewrite list_lookup_insert, Hj, Hl.
  pose proof (lookup_lt_Some _ _ _ He) as Hlt. destruct (Nat.ltb_spec j (S i)), (Nat.ltb_spec j i); case_decide as Hd; try lia; try done.
  - destruct Hd as [-> _]. by rewrite He.
  - assert (j = i) as -> by lia. exfalso. apply Hd. split; [done|]. rewrite <- Hl. apply lookup_lt_is_Some. rewrite Hj.
    destruct (Nat.ltb_spec i i); [lia|]. by eexists.
Qed.

Lemma half_skip w l i : half w l i -> w !! i = Some 0 -> half w l (S i).
Proof.
  intros [Hl Hj] He. split; [done|]. intros j. rewrite Hj. destruct (Nat.ltb_spec j (S i)), (Nat.ltb_spec j i); try lia; try done.
  assert (j = i) as -> by lia. by rewrite He.
Qed.

Lemma half_all w l : length w = 512%nat -> half w l 512 -> l = ro <$> w.
Proof.
  intros Hw [Hl Hj]. apply list_eq. intros j. rewrite Hj, list_lookup_fmap. destruct (Nat.ltb_spec j 512); [done|].
  by rewrite lookup_ge_None_2 by lia.
Qed.

Lemma copy_last_ok copy w pg npg n : forall i (s : mach F) old new,
  pg <> npg -> length w = 512%nat -> (n + i = 512)%nat -> mem s !! pg = Some old -> mem s !! npg = Some new -> half w old i -> half w new i ->
  total (copy_entries copy true n (Z.of_nat i) s pg npg) (fun s' =>
    mem s' !! pg = Some (ro <$> w) /\ mem s' !! npg = Some (ro <$> w) /\
    (forall p, p <> pg -> p <> npg -> mem s' !! p = mem s !! p) /\ cr3 s' = cr3 s /\ pool s' = pool s).
Proof.
  induction n as [|n IH]; intros i s old new Hne Hw Hi Ho Hn Hho Hhn; cbn [copy_entries].
  { assert (i = 512%nat) as -> by lia. apply total_Ok. by rewrite <- (half_all w old), <- (half_all w new) at 1. }
  destruct (lookup_lt_is_Some_2 w i) as [e He]; [lia|].
  assert (forall l, half w l i -> l !! i = Some e) as Hat.
  { intros l [_ Hj]. rewrite Hj. by destruct (Nat.ltb_spec i i); [lia|]. }
  unfold page_words. rewrite Hn. cbn [deref res_bind]. rewrite (aget_nat new i e) by by apply Hat. cbn [res_bind].
  replace (Z.of_nat i + 1) with (Z.of_nat (S i)) by lia.
  destruct (Z.eqb_spec e 0) as [->|Hz]; cbn [res_bind].
  - apply (IH (S i) s old new); [done|done|lia|done|done| |]; by apply half_skip.
  - rewrite Ho. cbn [deref res_bind]. rewrite (aget_nat old i e) by by apply Hat. cbn [res_bind].
    rewrite aset_nat by (rewrite (proj1 Hho); lia). cbn [res_bind]. fold (ro e).
    set (s1 := s <| mem ::= <[pg := <[i := ro e]> old]> |>). change (mem s1) with (<[pg := <[i := ro e]> old]> (mem s)).
    rewrite lookup_insert_ne by done. rewrite Hn. cbn [deref res_bind]. rewrite aset_nat by (rewrite (proj1 Hhn); lia). cbn [res_bind].
    eapply total_mono; [apply (IH (S i) _ (<[i := ro e]> old) (<[i := ro e]> new))|]; [done|done|lia| | | | |].
    + cbn. rewrite lookup_insert_ne by done. by rewrite lookup_insert_eq.
    + cbn. by rewrite lookup_insert_eq.
    + by eapply half_step.
    + by eapply half_step.
    + intros s' (H1 & H2 & H3 & H4 & H5). split_and!; [done|done| |done|done].
      intros p Hp1 Hp2. rewrite H3 by done. cbn. by rewrite !lookup_insert_ne.
Qed.

(** ** The levels above *)

(** The pages of [Y] were taken from the supply of [s]. *)
Definition took (s s' : mach F) (Y : list Z) : Prop :=
  (forall y, y ∈ Y -> fp_has (pool s) y /\ ~ fp_has (pool s') y) /\ (forall q, fp_has (pool s') q -> fp_has (pool s) q).

Definition apart (s : mach F) (X : list Z) : Prop :=
  forall p, fp_has (pool s) p -> (p ∉ X) /\ is_Some (mem s !! p).

(** The entries behind those [_copy_pgt] follows: those of the root name the
    tables of the kernel, and its last one names the root itself. *)
Definition upper (lv : nat) (old old' new : option (list Z)) (npg : Z) : Prop :=
  exists w ow nw, old = Some w /\ old' = Some ow /\ new = Some nw /\ forall j, (lim lv <= j)%nat ->
    ow !! j = w !! j /\
    nw !! j = if (lv =? 3)%nat && (j =? 511)%nat then Some (Z.lor (Z.lor (ADDR npg) PE_RW) PE_P) else w !! j.

Definition copies (lv : nat) : Prop := forall s pg X n,
  owns (mem s) lv pg X -> NoDup X -> apart s X -> fp_stock (pool s) (length X + n) ->
  total (_copy_pgt lv s pg) (fun r => exists Y,
    frame (fst r) /\ fst r <> 0 /\ copied (mem s) (mem (snd r)) lv pg (fst r) X Y /\ took s (snd r) Y /\
    (forall p, p ∉ X -> p ∉ Y -> mem (snd r) !! p = mem s !! p) /\ fp_stock (pool (snd r)) n /\ cr3 (snd r) = cr3 s /\
    upper lv (mem s !! pg) (mem (snd r) !! pg) (mem (snd r) !! fst r) (fst r)).

Section Loop.
Context (lv : nat) (s0 : mach F) (pg npg : Z) (w : list Z) (Xs : list (list Z)) (n : nat).
Context (Hlv : (S lv <= 3)%nat) (Hw : length w = 512%nat) (HlX : length Xs = lim (S lv)).
Context (Hch : forall j e Xj, w !! j = Some e -> Xs !! j = Some Xj ->
  if e =? 0 then Xj = [] else link e /\ owns (mem s0) lv (ADDR e) Xj).
Context (Hnd : NoDup (concat Xs)) (Hpg : pg ∉ concat Xs) (Hap : apart s0 (pg :: concat Xs)).
Context (Hnp : npg ∉ pg :: concat Xs) (Hnh : ~ fp_has (pool s0) npg).

(** The loop of [_copy_pgt] before entry [i]. *)
Record cinv (i : nat) (s : mach F) (Ys : list (list Z)) (nw : list Z) : Prop := {
  ci_pg : mem s !! pg = Some w;
  ci_npg : mem s !! npg = Some nw;
  ci_words : length nw = 512%nat;
  ci_rest : forall j, (i <= j)%nat -> nw !! j = w !! j;
  ci_len : length Ys = i;
  ci_done : forall j e Xj Yj, w !! j = Some e -> Xs !! j = Some Xj -> Ys !! j = Some Yj ->
    if e =? 0 then nw !! j = Some 0 /\ Yj = []
    else exists p, nw !! j = Some (Z.lor (FLAG e) (ADDR p)) /\ frame p /\ p <> 0 /\ copied (mem s0) (mem s) lv (ADDR e) p Xj Yj;
  ci_todo : forall j Xj p, (i <= j)%nat -> Xs !! j = Some Xj -> p ∈ Xj -> mem s !! p = mem s0 !! p;
  ci_took : took s0 s (concat Ys);
  ci_nodup : NoDup (concat Ys);
  ci_stock : fp_stock (pool s) (length (concat (drop i Xs)) + n);
  ci_other : forall p, p ∉ pg :: concat Xs -> p <> npg -> p ∉ concat Ys -> mem s !! p = mem s0 !! p;
  ci_cr3 : cr3 s = cr3 s0
}.

Lemma concat_snoc (Ys : list (list Z)) Y : concat (Ys ++ [Y]) = concat Ys ++ Y.
Proof. rewrite concat_app. cbn. by rewrite app_nil_r. Qed.

Lemma cinv_skip i s Ys nw Xi : cinv i s Ys nw -> w !! i = Some 0 -> Xs !! i = Some Xi -> cinv (S i) s (Ys ++ [[]]) nw.
Proof.
  intros [] He HX. pose proof (Hch i 0 Xi He HX) as HXi. cbn in HXi. subst Xi.
  split; try done; rewrite ?concat_snoc, ?app_nil_r; try done.
  - intros j Hj. apply ci_rest0. lia.
  - rewrite length_app. cbn. lia.
  - intros j e Xj Yj Hje HjX HjY. apply lookup_app_Some in HjY as [HjY|[Hge HjY]]; [by eapply ci_done0|].
    assert (j = i) as ->. { pose proof (lookup_lt_Some _ _ _ HjY) as Hlt. cbn in Hlt. lia. }
    rewrite ci_len0, Nat.sub_diag in HjY. injection HjY as <-. assert (e = 0) as -> by congruence. cbn. split; [|done]. rewrite ci_rest0 by lia. done.
  - intros j Xj p Hj. apply ci_todo0. lia.
  - by rewrite (concat_drop _ _ _ HX) in ci_stock0.
Qed.

(** The pages of an entry that is still to be copied are those of the start. *)
Lemma cinv_child i s Ys nw e Xi : cinv i s Ys nw -> w !! i = Some e -> Xs !! i = Some Xi -> e <> 0 ->
  link e /\ owns (mem s) lv (ADDR e) Xi /\ NoDup Xi /\ apart s Xi /\
  fp_stock (pool s) (length Xi + (length (concat (drop (S i) Xs)) + n)) /\
  (forall va, low va -> dwalk (mem s) lv (ADDR e) va = dwalk (mem s0) lv (ADDR e) va).
Proof.
  intros C He HX Hz. pose proof (Hch i e Xi He HX) as Hc. rewrite (proj2 (Z.eqb_neq e 0) Hz) in Hc. destruct Hc as [Hlk Hown].
  assert (forall p, p ∈ Xi -> mem s !! p = mem s0 !! p) as Hf by (intros p Hp; by eapply (ci_todo _ _ _ _ C)).
  split_and!; [done|by eapply owns_frame|by eapply nodup_concat_at| | |].
  - intros p Hp. destruct (ci_took _ _ _ _ C) as [T1 T2]. destruct (Hap p (T2 p Hp)) as [Hn Hm]. split.
    + intros Hin. apply Hn. right. by eapply concat_elem.
    + rewrite (ci_other _ _ _ _ C); [done|done| |]; [by intros ->; apply Hnh, T2|]. intros Hin. by destruct (T1 p Hin).
  - pose proof (ci_stock _ _ _ _ C) as Hst. rewrite (concat_drop _ _ _ HX) in Hst. by rewrite Nat.add_assoc.
  - intros va Hl. eapply dwalk_frame; [lia|done|done|done].
Qed.

Section Step.
Context (i : nat) (s s1 : mach F) (Ys : list (list Z)) (nw : list Z) (e : Z) (Xi : list Z) (p : Z) (Y : list Z).
Context (C : cinv i s Ys nw) (He : w !! i = Some e) (HX : Xs !! i = Some Xi) (Hz : e <> 0).
Context (Hfr : frame p) (Hpz : p <> 0) (Hcp : copied (mem s) (mem s1) lv (ADDR e) p Xi Y) (Hk : took s s1 Y).
Context (Hoth : forall q, q ∉ Xi -> q ∉ Y -> mem s1 !! q = mem s !! q).

#[local] Abbreviation nw' := (<[i := Z.lor (FLAG e) (ADDR p)]> nw).
#[local] Abbreviation m2 := (<[npg := nw']> (mem s1)).

Lemma step_new q : q ∈ Y -> fp_has (pool s0) q /\ (q ∉ pg :: concat Xs) /\ q <> npg /\ (q ∉ concat Ys).
Proof.
  intros Hq. destruct (ci_took _ _ _ _ C) as [T1 T2]. destruct Hk as [K1 K2]. pose proof (T2 q (proj1 (K1 q Hq))) as Hh.
  split_and!; [done|by apply Hap|by intros ->|]. intros Hin. destruct (T1 q Hin) as [_ Hn]. apply Hn. by apply K1.
Qed.

Lemma step_old q : q ∈ Xi -> q ∈ pg :: concat Xs.
Proof. intros Hq. right. by eapply concat_elem. Qed.

Lemma step_same q : q ∈ pg :: concat Xs \/ q ∈ concat Ys -> q ∉ Xi -> m2 !! q = mem s !! q.
Proof.
  intros Hq Hx. assert (q ∉ Y) as Hy.
  { intros Hin. destruct (step_new q Hin) as (_ & ? & _ & ?). by destruct Hq. }
  rewrite lookup_insert_ne; [by apply Hoth|]. intros <-. destruct Hq as [Hq|Hq]; [done|].
  destruct (ci_took _ _ _ _ C) as [T1 _]. by apply Hnh, T1.
Qed.

Lemma step_npg : mem s1 !! npg = Some nw.
Proof.
  rewrite Hoth; [apply C|by intros Hin; apply Hnp, step_old|]. intros Hin. by destruct (step_new npg Hin) as (_ & _ & ? & _).
Qed.

Lemma step_done j e' Xj Yj : w !! j = Some e' -> Xs !! j = Some Xj -> (Ys ++ [Y]) !! j = Some Yj ->
  if e' =? 0 then nw' !! j = Some 0 /\ Yj = []
  else exists q, nw' !! j = Some (Z.lor (FLAG e') (ADDR q)) /\ frame q /\ q <> 0 /\ copied (mem s0) m2 lv (ADDR e') q Xj Yj.
Proof.
  intros Hje HjX HjY. pose proof (ci_len _ _ _ _ C) as Hlen. apply lookup_app_Some in HjY as [HjY|[Hge HjY]].
  - pose proof (lookup_lt_Some _ _ _ HjY) as Hlt. pose proof (ci_done _ _ _ _ C j e' Xj Yj Hje HjX HjY) as Hd.
    rewrite list_lookup_insert_ne by lia. destruct (e' =? 0); [done|].
    destruct Hd as (q & B1 & B2 & B3 & B4). exists q. split_and!; [done|done|done|].
    apply (copied_frame _ (mem s)); [lia|done|]. intros x [Hx|Hx].
    + apply step_same; [left; right; by eapply concat_elem|]. eapply (nodup_concat_ne Xs j i Xj Xi); (done || lia).
    + assert (x ∈ concat Ys) as Hin by by eapply concat_elem. apply step_same; [by right|].
      intros Hxi. destruct (ci_took _ _ _ _ C) as [T1 _]. destruct (Hap x (proj1 (T1 x Hin))) as [Hn _]. by apply Hn, step_old.
  - assert (j = i) as ->. { pose proof (lookup_lt_Some _ _ _ HjY) as Hlt. cbn in Hlt. lia. }
    rewrite Hlen, Nat.sub_diag in HjY. injection HjY as <-. assert (e' = e) as -> by congruence. assert (Xj = Xi) as -> by congruence.
    rewrite (proj2 (Z.eqb_neq e 0) Hz). exists p. split_and!; [|done|done|].
    + apply list_lookup_insert_eq. pose proof (lookup_lt_Some _ _ _ He). rewrite (ci_words _ _ _ _ C). lia.
    + apply (copied_frame _ (mem s1)); [lia| |].
      * destruct (cinv_child i s Ys nw e Xi C He HX Hz) as (_ & _ & _ & _ & _ & Hdw).
        destruct Hcp as [B1 B2 B3 B4]. split; [done|done|done|]. intros va Hl. rewrite <- (Hdw va Hl). by apply B4.
      * intros x Hx. apply lookup_insert_ne. intros <-.
        destruct Hx as [Hx|Hx]; [by apply Hnp, step_old|by destruct (step_new npg Hx) as (_ & _ & ? & _)].
Qed.

Lemma cinv_copy :
  fp_stock (pool s1) (length (concat (drop (S i) Xs)) + n) -> cr3 s1 = cr3 s ->
  cinv (S i) (Mach m2 (cr3 s1) (pool s1)) (Ys ++ [Y]) nw'.
Proof.
  intros Hst Hc3. pose proof C as [A1 A2 A3 A4 A5 A6 A7 [T1 T2] A9 A10 A11 A12]. destruct Hk as [K1 K2].
  split; cbn [mem cr3 pool]; rewrite ?concat_snoc.
  - rewrite step_same; [done|left; left|]. intros Hin. apply Hpg. by eapply concat_elem.
  - by rewrite lookup_insert_eq.
  - by rewrite length_insert.
  - intros j Hj. rewrite list_lookup_insert_ne by lia. apply A4. lia.
  - rewrite length_app. cbn. lia.
  - intros j e' Xj Yj. apply step_done.
  - intros j Xj q Hj HjX Hq. rewrite step_same; [apply (A7 j Xj); (done || lia)|left; right; by eapply concat_elem|].
    eapply (nodup_concat_ne Xs j i Xj Xi); (done || lia).
  - split; [|by intros q Hq; apply T2, K2]. intros y [Hy|Hy]%elem_of_app.
    + destruct (T1 y Hy) as [Hh Hn]. split; [done|]. intros Hh1. by apply Hn, K2.
    + split; [by apply step_new|]. by apply K1.
  - apply NoDup_app. split_and!; [done| |apply Hcp]. intros x Hx Hy. by destruct (step_new x Hy) as (_ & _ & _ & ?).
  - done.
  - intros q Hq1 Hq2 Hq3. rewrite lookup_insert_ne by congruence. apply not_elem_of_app in Hq3 as [Hq3 Hq4].
    rewrite Hoth; [by apply A11|by intros Hin; apply Hq1, step_old|done].
  - congruence.
Qed.

End Step.

(** The whole loop. *)
Lemma copy_dir_ok (IH : copies lv) k : forall i s Ys nw,
  (k + i = lim (S lv))%nat -> cinv i s Ys nw ->
  total (copy_entries (_copy_pgt lv) false k (Z.of_nat i) s pg npg) (fun s' => exists Ys nw, cinv (lim (S lv)) s' Ys nw).
Proof.
  induction k as [|k IHk]; intros i s Ys nw Hi C; cbn [copy_entries].
  { apply total_Ok. exists Ys, nw. by replace (lim (S lv)) with i by lia. }
  pose proof (lim_le (S lv)) as Hlim. destruct (lookup_lt_is_Some_2 w i) as [e He]; [lia|].
  destruct (lookup_lt_is_Some_2 Xs i) as [Xi HX]; [lia|]. replace (Z.of_nat i + 1) with (Z.of_nat (S i)) by lia.
  assert (nw !! i = Some e) as Hne by by rewrite (ci_rest _ _ _ _ C).
  unfold page_words. rewrite (ci_npg _ _ _ _ C). cbn [deref res_bind]. rewrite (aget_nat nw i e Hne). cbn [res_bind].
  destruct (Z.eqb_spec e 0) as [->|Hz]; cbn [res_bind].
  - eapply IHk; [lia|by eapply cinv_skip].
  - destruct (cinv_child i s Ys nw e Xi C He HX Hz) as (Hlk & Hown & HndX & HapX & Hst & _).
    destruct (IH s (ADDR e) Xi _ Hown HndX HapX Hst) as ([p s1] & -> & Y & Hfr & Hpz & Hcp & Hk & Hoth & Hst1 & Hc3 & _).
    cbn [res_bind fst snd] in *. rewrite (step_npg i s s1 Ys nw Xi Y C HX Hk Hoth). cbn [deref res_bind].
    rewrite (aget_nat nw i e Hne). cbn [res_bind]. rewrite aset_nat by (rewrite (ci_words _ _ _ _ C); lia). cbn [res_bind].
    eapply IHk; [lia|]. exact (cinv_copy i s s1 Ys nw e Xi p Y C He HX Hz Hfr Hpz Hcp Hk Hoth Hst1 Hc3).
Qed.

(** After the loop both tables are the roots of their trees. *)
Lemma cinv_copied s Ys nw nw2 : mem s0 !! pg = Some w -> cinv (lim (S lv)) s Ys nw -> length nw2 = 512%nat ->
  (forall j, (j < lim (S lv))%nat -> nw2 !! j = nw !! j) ->
  copied (mem s0) (<[npg := nw2]> (mem s)) (S lv) pg npg (pg :: concat Xs) (npg :: concat Ys).
Proof.
  intros Hw0 C Hl2 Hnw2. destruct (ci_took _ _ _ _ C) as [T1 _]. pose proof (ci_len _ _ _ _ C) as HlY.
  assert (npg ∉ concat Ys) as Hny by (intros Hin; by apply Hnh, T1).
  assert (pg <> npg) as Hne by (intros ->; apply Hnp; left).
  assert (forall j e Xj Yj, w !! j = Some e -> Xs !! j = Some Xj -> Ys !! j = Some Yj ->
    if e =? 0 then nw2 !! j = Some 0 /\ Yj = []
    else exists q, nw2 !! j = Some (Z.lor (FLAG e) (ADDR q)) /\ frame q /\ q <> 0 /\
      copied (mem s0) (<[npg := nw2]> (mem s)) lv (ADDR e) q Xj Yj) as Hdone.
  { intros j e Xj Yj He HX HY. pose proof (ci_done _ _ _ _ C j e Xj Yj He HX HY) as Hd.
    rewrite Hnw2 by (apply lookup_lt_Some in HY; lia). destruct (e =? 0); [done|].
    destruct Hd as (q & B1 & B2 & B3 & B4). exists q. split_and!; [done|done|done|]. apply (copied_frame _ (mem s)); [lia|done|].
    intros x Hx. apply lookup_insert_ne. intros <-. destruct Hx as [Hx|Hx]; [apply Hnp; right|apply Hny]; by eapply concat_elem. }
  split.
  - exists w. rewrite lookup_insert_ne by done. split_and!; [apply C|done|]. exists Xs. split_and!; [done|done|].
    intros j e Xj He HX. destruct (lookup_lt_is_Some_2 Ys j) as [Yj HY]; [apply lookup_lt_Some in HX; lia|].
    specialize (Hdone j e Xj Yj He HX HY). pose proof (Hch j e Xj He HX) as Hc. destruct (e =? 0); [done|].
    destruct Hdone as (q & _ & _ & _ & B4). split; [by apply Hc|apply B4].
  - exists nw2. rewrite lookup_insert_eq. split_and!; [done|done|]. exists Ys. split_and!; [done|done|].
    intros j v Yj Hv HY. destruct (lookup_lt_is_Some_2 Xs j) as [Xj HX]; [apply lookup_lt_Some in HY; lia|].
    destruct (lookup_lt_is_Some_2 w j) as [e He]; [pose proof (lim_le (S lv)); apply lookup_lt_Some in HY; lia|].
    specialize (Hdone j e Xj Yj He HX HY). pose proof (Hch j e Xj He HX) as Hc. destruct (e =? 0).
    + destruct Hdone as [E0 ->]. rewrite E0 in Hv. by injection Hv as <-.
    + destruct Hdone as (q & B1 & B2 & B3 & B4). rewrite B1 in Hv. injection Hv as <-. destruct Hc as [Hlk _].
      destruct (copy_link e q Hlk B2 B3) as (L1 & L2 & L3). rewrite L3, L2. split; [done|apply B4].
  - apply NoDup_cons. split; [done|apply C].
  - intros va Hlow. pose proof (low_idx va (S lv) Hlow Hlv) as Hix. cbn [dwalk]. unfold entry_at.
    rewrite Hw0, lookup_insert_ne, lookup_insert_eq, (ci_pg _ _ _ _ C) by done. cbn [mbind option_bind].
    set (j := Z.to_nat (IDX va (Z.of_nat (S lv)))) in *. pose proof (lim_le (S lv)) as Hlim.
    destruct (lookup_lt_is_Some_2 Xs j) as [Xj HX]; [lia|]. destruct (lookup_lt_is_Some_2 Ys j) as [Yj HY]; [lia|].
    destruct (lookup_lt_is_Some_2 w j) as [e He]; [lia|].
    specialize (Hdone j e Xj Yj He HX HY). pose proof (Hch j e Xj He HX) as Hc. rewrite He. cbn [mbind option_bind]. destruct (e =? 0).
    + destruct Hdone as [-> _]. done.
    + destruct Hdone as (q & -> & B2 & B3 & B4). destruct Hc as [Hlk _]. cbn [mbind option_bind].
      destruct (copy_link e q Hlk B2 B3) as (L1 & L2 & L3). rewrite L3, L2. by apply B4.
Qed.

End Loop.

(** ** All levels *)

Lemma copies_last : copies 0.
Proof.
  intros s pg X n (w & Hw & Hl & ->) _ Hap Hst. destruct (fp_alloc_ok _ _ Hst) as (npg & f' & E & Hh & Hz & Hfr & Hst' & Hsub).
  destruct (Hap npg Hh) as [Hn [x Hx]]. assert (pg <> npg) as Hne by (intros ->; apply Hn; by apply list_elem_of_singleton).
  cbn [_copy_pgt]. rewrite E. cbn [res_bind]. set (s0 := s <| pool := f' |>). unfold page_words. change (mem s0) with (mem s).
  rewrite Hw, Hx. cbn [deref res_bind]. set (s1 := s0 <| mem ::= <[npg := w]> |>).
  assert (mem s1 = <[npg := w]> (mem s)) as Em by done.
  assert (half w w 0) as Hh0 by (split; [done|]; intros j; by destruct (Nat.ltb_spec j 0); [lia|]).
  destruct (copy_last_ok (fun _ _ => Fault OutOfFuel) w pg npg 512 0 s1 w w) as (s2 & E2 & P1 & P2 & P3 & P4 & P5); try done.
  { rewrite Em. by rewrite lookup_insert_ne. } { rewrite Em. by rewrite lookup_insert_eq. }
  change (Z.of_nat 0) with 0 in E2. change ((0 =? 0)%nat) with true. change (if (0 =? 3)%nat then 256%nat else 512%nat) with 512%nat.
  rewrite E2. cbn [res_bind Nat.eqb]. apply total_Ok. cbn [fst snd]. exists [npg]. split_and!; [done|done| | | |by rewrite P5|by rewrite P4|].
  - split; [exists (ro <$> w); rewrite length_fmap; done|exists (ro <$> w); rewrite length_fmap; done|apply NoDup_singleton|].
    intros va _. cbn [dwalk]. unfold entry_at. rewrite P1, P2, Hw. cbn [mbind option_bind]. rewrite list_lookup_fmap. by destruct (w !! _).
  - split; [|rewrite P5; intros q Hq; by apply Hsub]. intros y ->%list_elem_of_singleton. split; [done|]. rewrite P5. intros Hq. by destruct (Hsub npg Hq).
  - intros p Hp1%not_elem_of_cons Hp2%not_elem_of_cons. rewrite P3, Em by (apply Hp1 || apply Hp2). apply lookup_insert_ne. intros <-. by destruct Hp2.
  - exists w, (ro <$> w), (ro <$> w). split_and!; [done|done|done|]. intros j Hj. change (lim 0) with 512%nat in Hj. cbn [andb Nat.eqb].
    by rewrite !lookup_ge_None_2 by (rewrite ?length_fmap; lia).
Qed.

(** The state after the loop is as promised for the state before the call. *)
Lemma cinv_end lv s pg npg f' w Xs n s2 Ys nw nw2 :
  let s0 := Mach (<[npg := w]> (mem s)) (cr3 s) f' in
  (S lv <= 3)%nat -> mem s !! pg = Some w -> length w = 512%nat -> owns (mem s) (S lv) pg (pg :: concat Xs) ->
  frame npg -> npg <> 0 -> fp_has (pool s) npg -> (forall q, fp_has f' q -> fp_has (pool s) q /\ q <> npg) -> npg ∉ pg :: concat Xs ->
  cinv lv s0 pg npg w Xs n (lim (S lv)) s2 Ys nw ->
  copied (mem s0) (<[npg := nw2]> (mem s2)) (S lv) pg npg (pg :: concat Xs) (npg :: concat Ys) ->
  (forall j, (lim (S lv) <= j)%nat -> nw2 !! j = if (S lv =? 3)%nat && (j =? 511)%nat then Some (Z.lor (Z.lor (ADDR npg) PE_RW) PE_P) else w !! j) ->
  let s3 := Mach (<[npg := nw2]> (mem s2)) (cr3 s2) (pool s2) in
  exists Y, frame npg /\ npg <> 0 /\ copied (mem s) (mem s3) (S lv) pg npg (pg :: concat Xs) Y /\ took s s3 Y /\
    (forall p, p ∉ pg :: concat Xs -> p ∉ Y -> mem s3 !! p = mem s !! p) /\ fp_stock (pool s3) n /\ cr3 s3 = cr3 s /\
    upper (S lv) (Some w) (mem s3 !! pg) (mem s3 !! npg) npg.
Proof.
  cbn zeta. intros Hlv Hw Hl Hown Hfr Hz Hh Hsub Hn C Hcp Hup. destruct (ci_took _ _ _ _ _ _ _ _ _ _ _ C) as [T1 T2]. cbn [pool mem] in *.
  exists (npg :: concat Ys). split_and!; [done|done| | | | | |].
  - destruct Hcp as [B1 B2 B3 B4]. split; [done|done|done|]. intros va Hlow.
    rewrite <- (dwalk_frame (mem s) (<[npg := w]> (mem s)) (S lv) va pg (pg :: concat Xs)); [by apply B4|done|done|done|].
    intros p Hp. apply lookup_insert_ne. intros <-. done.
  - split; cbn [pool].
    + intros y [->|Hy]%elem_of_cons; [split; [done|]; intros Hq; by destruct (Hsub npg (T2 npg Hq))|].
      destruct (T1 y Hy) as [Hy1 Hy2]. split; [by apply Hsub|done].
    + intros q Hq. by apply Hsub, T2.
  - intros p Hp1 [Hp2 Hp3]%not_elem_of_cons. rewrite lookup_insert_ne by congruence.
    rewrite (ci_other _ _ _ _ _ _ _ _ _ _ _ C) by done. cbn [mem]. by rewrite lookup_insert_ne by congruence.
  - pose proof (ci_stock _ _ _ _ _ _ _ _ _ _ _ C) as Hst. eapply fp_stock_le; [exact Hst|]. lia.
  - by rewrite (ci_cr3 _ _ _ _ _ _ _ _ _ _ _ C).
  - exists w, w, nw2. rewrite lookup_insert_eq, lookup_insert_ne by (intros ->; apply Hn; left).
    split_and!; [done|apply C|done|]. intros j Hj. split; [done|by apply Hup].
Qed.

Lemma copies_dir lv : (S lv <= 3)%nat -> copies lv -> copies (S lv).
Proof.
  intros Hlv IH s pg X n (w & Hw & Hl & Xs & -> & HlX & Hch) Hnd Hap Hst. apply NoDup_cons in Hnd as [Hpg Hnd].
  destruct (fp_alloc_ok _ _ Hst) as (npg & f' & E & Hh & Hz & Hfr & Hst' & Hsub).
  destruct (Hap npg Hh) as [Hn [x Hx]]. assert (pg <> npg) as Hne by (intros ->; apply Hn; left).
  cbn [_copy_pgt]. rewrite E. cbn [res_bind]. unfold page_words. change (mem (s <| pool := f' |>)) with (mem s).
  rewrite Hw, Hx. cbn [deref res_bind]. set (s0 := (s <| pool := f' |>) <| mem ::= <[npg := w]> |>).
  assert (mem s0 = <[npg := w]> (mem s)) as Em by done.
  assert (forall j e Xj, w !! j = Some e -> Xs !! j = Some Xj -> if e =? 0 then Xj = [] else link e /\ owns (mem s0) lv (ADDR e) Xj) as Hch0.
  { intros j e Xj He HX. specialize (Hch j e Xj He HX). destruct (e =? 0); [done|]. destruct Hch as [Hlk Ho]. split; [done|].
    eapply owns_frame; [done|]. intros p Hp. rewrite Em. apply lookup_insert_ne. intros <-. apply Hn. right. by eapply concat_elem. }
  assert (apart s0 (pg :: concat Xs)) as Hap0.
  { intros p Hp. destruct (Hsub p Hp) as [Hhp Hnp]. destruct (Hap p Hhp) as [? ?]. split; [done|]. rewrite Em. by rewrite lookup_insert_ne. }
  assert (~ fp_has (pool s0) npg) as Hnh by (intros Hq; by destruct (Hsub npg Hq)).
  assert (cinv lv s0 pg npg w Xs n 0 s0 [] w) as C0.
  { split; try done. - rewrite Em. by rewrite lookup_insert_ne. - rewrite Em. by rewrite lookup_insert_eq.
    - split; [by intros y ?%elem_of_nil|done]. - apply NoDup_nil_2. }
  pose proof (copy_dir_ok lv s0 pg npg w Xs n Hlv Hl HlX Hch0 Hnd Hpg Hap0 Hn Hnh IH (lim (S lv)) 0 s0 [] w ltac:(lia) C0) as Hloop.
  change (Z.of_nat 0) with 0 in Hloop. change ((S lv =? 0)%nat) with false. cbv iota.
  fold (lim (S lv)). eapply total_bind; [exact Hloop|]. intros s2 (Ys & nw & C).
  pose proof (cinv_copied lv s0 pg npg w Xs n Hlv Hl HlX Hch0 Hpg Hap0 Hn Hnh s2 Ys nw) as Hcp.
  assert (mem s0 !! pg = Some w) as Hw0 by (rewrite Em; by rewrite lookup_insert_ne).
  assert (owns (mem s) (S lv) pg (pg :: concat Xs)) as Hown by (exists w; split_and!; [done|done|]; by exists Xs).
  destruct (Nat.eqb_spec (S lv) 3) as [E3|E3].
  - unfold page_words. rewrite (ci_npg _ _ _ _ _ _ _ _ _ _ _ C). cbn [deref res_bind].
    change R_IDX with (Z.of_nat 511). rewrite aset_nat by (rewrite (ci_words _ _ _ _ _ _ _ _ _ _ _ C); lia). cbn [res_bind].
    apply total_Ok. cbn [fst snd]. assert (lim (S lv) = 256%nat) as Elim by by rewrite E3.
    set (nw2 := <[511%nat := _]> nw). apply (cinv_end lv s pg npg f' w Xs n s2 Ys nw nw2); try done.
    + apply Hcp; [done|done|unfold nw2; by rewrite length_insert, (ci_words _ _ _ _ _ _ _ _ _ _ _ C)|].
      intros j Hj. apply list_lookup_insert_ne. lia.
    + intros j Hj. unfold nw2. rewrite E3. cbn [Nat.eqb andb]. destruct (Nat.eqb_spec j 511) as [->|].
      * apply list_lookup_insert_eq. rewrite (ci_words _ _ _ _ _ _ _ _ _ _ _ C). lia.
      * rewrite list_lookup_insert_ne by lia. by apply (ci_rest _ _ _ _ _ _ _ _ _ _ _ C).
  - cbn [res_bind]. apply total_Ok. cbn [fst snd].
    assert (s2 = Mach (<[npg := nw]> (mem s2)) (cr3 s2) (pool s2)) as Es.
    { rewrite insert_id by apply C. by destruct s2. }
    rewrite Es. apply (cinv_end lv s pg npg f' w Xs n s2 Ys nw nw); try done.
    + apply Hcp; [done|done|apply C|done].
    + intros j Hj. rewrite (proj2 (Nat.eqb_neq (S lv) 3) E3). cbn [andb]. by apply (ci_rest _ _ _ _ _ _ _ _ _ _ _ C).
Qed.

Lemma copies_all lv : (lv <= 3)%nat -> copies lv.
Proof. induction lv as [|lv IH]; intros Hlv; [apply copies_last|]. apply copies_dir; [done|]. apply IH. lia. Qed.



(** ** What the processor sees *)

Lemma owns_entry m lv t X va : (S lv <= 3)%nat -> low va -> owns m (S lv) t X ->
  exists e, entry_at m t va (S lv) = Some e /\ (e = 0 \/ (link e /\ (e =? 0) = false /\ exists X', owns m lv (ADDR e) X')).
Proof.
  intros Hlv Hlow (w & Hw & Hl & Xs & -> & HlX & Hch). pose proof (low_idx va (S lv) Hlow Hlv) as Hix. pose proof (lim_le (S lv)).
  set (j := Z.to_nat (IDX va (Z.of_nat (S lv)))) in *. destruct (lookup_lt_is_Some_2 Xs j) as [Xj HX]; [lia|].
  destruct (lookup_lt_is_Some_2 w j) as [e He]; [lia|]. exists e. split; [unfold entry_at; by rewrite Hw|].
  specialize (Hch j e Xj He HX). destruct (e =? 0) eqn:Ez; [left; by apply Z.eqb_eq|]. right. destruct Hch as [Hlk Ho]. split_and!; [done|done|by exists Xj].
Qed.

Lemma low_plain va : low va -> plain va.
Proof. unfold low, plain, R_IDX. lia. Qed.

(** Following the tree is what the processor does. *)
Lemma dwalk_hw m va lv : forall t X, (lv <= 3)%nat -> low va -> owns m lv t X ->
  hw_walk m t va lv = (e ← dwalk m lv t va; if present e then Some (frame_of e) else None).
Proof.
  induction lv as [|lv IH]; intros t X Hlv Hlow Hown.
  - destruct Hown as (w & Hw & _). cbn [hw_walk dwalk]. destruct (entry_at m t va 0) as [e|]; cbn [mbind option_bind]; [|done]. by destruct (present e).
  - destruct (owns_entry m lv t X va Hlv Hlow Hown) as (e & He & [->|([Hu Hf] & Hz & X' & Ho)]); cbn [hw_walk dwalk]; rewrite He; cbn [mbind option_bind]; [done|].
    destruct (usable_spec e Hu) as [-> ->]. rewrite Hz. cbn [negb andb]. rewrite Hf. apply (IH _ X'); (done || lia).
Qed.

Lemma ro_entry e : present (ro e) = present e /\ frame_of (ro e) = frame_of e /\ Z.testbit (ro e) 1 = false.
Proof.
  unfold ro. rewrite !present_bit, !Z.land_spec. split_and!; [by rewrite andb_true_r| |by rewrite andb_false_r].
  unfold frame_of. apply land_land_mask. reflexivity.
Qed.

(** Both trees translate as the one before. *)
Lemma copied_views m m' pg npg X Y va : low va -> owns m 3 pg X -> owns m' 3 pg X -> owns m' 3 npg Y ->
  dwalk m' 3 npg va = ro <$> dwalk m 3 pg va -> dwalk m' 3 pg va = ro <$> dwalk m 3 pg va ->
  hw_walk m' npg va 3 = hw_walk m pg va 3 /\ hw_walk m' pg va 3 = hw_walk m pg va 3.
Proof.
  intros Hlow H1 H2 H3 E1 E2. rewrite (dwalk_hw m' _ _ npg Y), (dwalk_hw m' _ _ pg X), (dwalk_hw m _ _ pg X), E1, E2 by done.
  destruct (dwalk m 3 pg va) as [e|]; [|done]. cbn [fmap option_fmap option_map mbind option_bind]. by destruct (ro_entry e) as (-> & -> & _).
Qed.

(** The tree [copy_pgt] returns. *)
Lemma copies_all_shared s pg X :
  owns (mem s) 3 pg X -> NoDup X -> apart s X -> fp_stock (pool s) (length X) ->
  total (copy_pgt s pg) (fun r => exists Y, owns (mem (snd r)) 3 (fst r) Y /\ forall va, low va ->
    dwalk (mem (snd r)) 3 (fst r) va = ro <$> dwalk (mem s) 3 pg va /\ hw_walk (mem (snd r)) pg va 3 = hw_walk (mem s) pg va 3).
Proof.
  intros Hown Hnd Hap Hst. unfold copy_pgt. eapply total_mono; [apply (copies_all 3 (le_n _) s pg X 0%nat Hown Hnd Hap)|].
  { by rewrite Nat.add_0_r. }
  intros [npg s'] (Y & _ & _ & [C1 C2 C3 C4] & _). cbn [fst snd] in *. exists Y. split; [done|].
  intros va Hlow. destruct (C4 va Hlow) as [H1 H2]. split; [done|]. by apply (copied_views _ _ pg npg X Y).
Qed.

(** C20: [copy_pgt] gives a forked process the memory of its parent, write-protected in both.  For a tree
    of tables at [pg] that shares no page with itself or with the supply, and a supply of as many
    frames as the tree has tables, the call returns a new tree, on frames of the supply.  Every
    address of the lower half translates to the same physical page in both address spaces as
    before, through entries that differ from the old ones only in the cleared write bit; the
    kernel half of the copy is that of the original, and its recursive slot names its own root. *)
Theorem copy_pgt_shares s pg X :
  owns (mem s) 3 pg X -> NoDup X -> apart s X -> fp_stock (pool s) (length X) ->
  total (copy_pgt s pg) (fun r => let '(npg, s') := r in
    exists Y, owns (mem s') 3 npg Y /\ NoDup Y /\ owns (mem s') 3 pg X /\
    (forall y, y ∈ Y -> (y ∉ X) /\ fp_has (pool s) y /\ ~ fp_has (pool s') y) /\
    (forall va, low va ->
       dwalk (mem s') 3 npg va = ro <$> dwalk (mem s) 3 pg va /\ dwalk (mem s') 3 pg va = ro <$> dwalk (mem s) 3 pg va /\
       hw_walk (mem s') npg va 3 = hw_walk (mem s) pg va 3 /\ hw_walk (mem s') pg va 3 = hw_walk (mem s) pg va 3) /\
    (forall va, 256 <= IDX va 3 < R_IDX -> hw_walk (mem s') npg va 3 = hw_walk (mem s') pg va 3) /\
    rec_ok (mem s') npg /\
    (forall p, p ∉ X -> p ∉ Y -> mem s' !! p = mem s !! p)).
Proof.
  intros Hown Hnd Hap Hst. unfold copy_pgt. eapply total_mono; [apply (copies_all 3 (le_n _) s pg X 0%nat Hown Hnd Hap)|].
  { by rewrite Nat.add_0_r. }
  intros [npg s'] (Y & Hfr & Hz & [C1 C2 C3 C4] & [T1 T2] & Hoth & _ & _ & (w & ow & nw & Ew & Eow & Enw & Hup)). cbn [fst snd] in *.
  exists Y. split_and!; [done|done|done| | | | |done].
  - intros y Hy. destruct (T1 y Hy) as [Hh Hn]. split_and!; [by apply Hap|done|done].
  - intros va Hlow. destruct (C4 va Hlow) as [H1 H2]. destruct (copied_views (mem s) (mem s') pg npg X Y va) as [-> ->]; done.
  - intros va Hix. assert (entry_at (mem s') npg va 3 = entry_at (mem s') pg va 3) as He.
    { unfold entry_at. rewrite Eow, Enw. cbn [mbind option_bind]. change (Z.of_nat 3) with 3. unfold R_IDX in Hix.
      destruct (Hup (Z.to_nat (IDX va 3))) as [-> ->]; [change (lim 3) with 256%nat; lia|].
      by destruct (Nat.eqb_spec (Z.to_nat (IDX va 3)) 511); [lia|]. }
    cbn [hw_walk]. by rewrite He.
  - destruct (table_entry npg Hfr) as [Hu Hf]. exists nw, (Z.lor (Z.lor (ADDR npg) PE_RW) PE_P). split_and!; [done| |done|done].
    by apply (Hup 511%nat); change (lim 3) with 256%nat; lia.
Qed.

End Copy.

(** ** Giving the tables of a process back *)

Section Clear.
Context {F : Type} `{!FramePool F, !FrameLaws F}.

(** What giving a frame back does to the supply. *)
Context (Hfree : forall f p, exists f', fp_free f p = Ok f' /\ forall q, fp_has f' q <-> q = p \/ fp_has f q).

(** What clearing did: the memory is as before and the supply has the frames [P] as well. *)
Definition gave_back (s s' : mach F) (P : Z -> Prop) : Prop :=
  mem s' = mem s /\ (forall q, fp_has (pool s) q \/ P q -> fp_has (pool s') q).

Lemma free_frame_ok s pa : total (free_frame s pa) (fun s' => gave_back s s' (eq pa)).
Proof.
  unfold free_frame. destruct (Hfree (pool s) pa) as (f' & -> & Hf). cbn [res_bind]. apply total_Ok. split; [done|].
  intros q [Hq| <-]; apply Hf; [by right|by left].
Qed.

Lemma clear_entries_ok (next : mach F -> Z -> res (mach F)) (P : Z -> Z -> Prop) m es :
  (forall e s, e ∈ es -> present e = true -> mem s = m -> total (next s (ADDR e)) (fun s' => gave_back s s' (P e))) ->
  forall s, mem s = m -> total (clear_entries next es s) (fun s' => gave_back s s' (fun q => exists e, e ∈ es /\ present e = true /\ P e q)).
Proof.
  induction es as [|e es IH]; intros Hn s Hm; cbn [clear_entries].
  { apply total_Ok. split; [done|]. intros q [Hq|(e & He & _)]; [done|by apply elem_of_nil in He]. }
  apply (total_bind _ _ (fun s1 => gave_back s s1 (fun q => present e = true /\ P e q))).
  - destruct (present e) eqn:Ep; [|apply total_Ok; split; [done|]; by intros q [|[]]].
    eapply total_mono; [apply Hn; [by left|done|done]|]. intros s1 [H1 H2]. split; [done|]. intros q [|[_ ?]]; apply H2; (by left) || by right.
  - intros s1 [H1 H2]. eapply total_mono; [apply IH; [|congruence]|].
    + intros e' s2 He'. apply Hn. by right.
    + intros s2 [H3 H4]. split; [congruence|]. intros q [Hq|(e' & [->|He']%elem_of_cons & Hp & HP)]; apply H4.
      * left. apply H2. by left.
      * left. apply H2. by right.
      * right. by exists e'.
Qed.

(** [clear] frees every page the tree maps. *)
Lemma clear_ok lv : forall s t X, (lv <= 3)%nat -> owns (mem s) lv t X ->
  total (clear lv s t) (fun s' => gave_back s s' (fun q => exists va e, low va /\ dwalk (mem s) lv t va = Some e /\ present e = true /\ q = ADDR e)).
Proof.
  induction lv as [|lv IH]; intros s t X Hlv (w & Hw & Hl & HX); cbn [clear]; unfold page_words; rewrite Hw; cbn [deref res_bind].
  - change (if (0 =? 3)%nat then 256%nat else 512%nat) with 512%nat. rewrite (take_ge w) by lia.
    eapply total_bind; [apply (clear_entries_ok free_frame (fun e => eq (ADDR e)) (mem s)); [intros; apply free_frame_ok|done]|].
    intros s1 [H1 H2]. eapply total_mono; [apply free_frame_ok|]. intros s2 [H3 H4]. split; [congruence|].
    intros q [Hq|(va & e & Hlow & Hd & Hp & ->)]; apply H4; left; apply H2; [by left|right]. exists e. split_and!; [|done|done].
    cbn [dwalk] in Hd. unfold entry_at in Hd. rewrite Hw in Hd. cbn [mbind option_bind] in Hd. destruct (w !! _) eqn:E; [|done].
    injection Hd as <-. by eapply list_elem_of_lookup_2.
  - destruct HX as (Xs & -> & HlX & Hch). change (if (S lv =? 3)%nat then 256%nat else 512%nat) with (lim (S lv)).
    pose proof (lim_le (S lv)) as Hlim.
    eapply total_bind; [apply (clear_entries_ok (clear lv) (fun t' q => exists va e, low va /\ dwalk (mem s) lv (ADDR t') va = Some e /\ present e = true /\ q = ADDR e) (mem s)); [|done]|].
    + intros e s1 He Hp Hm. apply list_elem_of_lookup in He as [j Hj]. apply lookup_take_Some in Hj as [Hj Hjl].
      destruct (lookup_lt_is_Some_2 Xs j) as [Xj HXj]; [lia|]. specialize (Hch j e Xj Hj HXj).
      destruct (Z.eqb_spec e 0) as [->|]; [done|]. destruct Hch as [_ Hch]. rewrite <- Hm in Hch |- *. apply (IH s1 _ Xj); [lia|done].
    + intros s1 [H1 H2]. eapply total_mono; [apply free_frame_ok|]. intros s2 [H3 H4]. split; [congruence|].
      intros q [Hq|(va & e & Hlow & Hd & Hp & ->)]; apply H4; left; apply H2; [by left|right].
      cbn [dwalk] in Hd. unfold entry_at in Hd. rewrite Hw in Hd. cbn [mbind option_bind] in Hd. destruct (w !! _) as [t'|] eqn:E; [|done]. cbn [mbind option_bind] in Hd.
      destruct (t' =? 0) eqn:Ez; [done|]. pose proof (low_idx va (S lv) Hlow Hlv) as Hix.
      destruct (lookup_lt_is_Some_2 Xs (Z.to_nat (IDX va (Z.of_nat (S lv))))) as [Xj HXj]; [lia|].
      specialize (Hch _ t' Xj E HXj). rewrite Ez in Hch. destruct Hch as [[Hu _] _].
      exists t'. split_and!; [|by apply usable_spec in Hu as [? _]|by exists va, e].
      apply list_elem_of_lookup. eexists. by apply lookup_take_Some.
Qed.


End Clear.

(** ** A process with one page *)

Lemma concat_single (X : list Z) n k : (k < n)%nat -> concat (<[k := X]> (replicate n [])) = X.
Proof.
  intros Hk. rewrite insert_replicate_lt by done. rewrite concat_app. cbn [concat].
  assert (forall j, concat (replicate j ([] : list Z)) = []) as H by (induction j as [|j IHj]; [done|exact IHj]).
  by rewrite !H, app_nil_r.
Qed.

Lemma owns_single m lv t w k e X :
  m !! t = Some w -> length w = 512%nat -> (k < lim (S lv))%nat -> (forall j, (j < lim (S lv))%nat -> j <> k -> w !! j = Some 0) ->
  w !! k = Some e -> e <> 0 -> link e -> owns m lv (ADDR e) X -> owns m (S lv) t (t :: X).
Proof.
  intros Hw Hl Hk H0 He Hz Hlk Ho. exists w. split_and!; [done|done|]. exists (<[k := X]> (replicate (lim (S lv)) [])).
  rewrite concat_single, length_insert, length_replicate by done. split_and!; [done|done|].
  intros j v Xj Hv HX. destruct (decide (j = k)) as [->|Hne].
  - rewrite list_lookup_insert_eq in HX by (by rewrite length_replicate). injection HX as <-.
    assert (v = e) as -> by congruence. rewrite (proj2 (Z.eqb_neq e 0) Hz). done.
  - rewrite list_lookup_insert_ne in HX by done. apply lookup_replicate in HX as [-> Hj]. rewrite H0 in Hv by done. by injection Hv as <-.
Qed.

Definition copy_mem : pmem :=
  <[0x1000 := <[0%nat := 0x2007]> (empty_root 0x1000)]> (<[0x2000 := <[0%nat := 0x3007]> zero_page]>
  (<[0x3000 := <[2%nat := 0x4007]> zero_page]> (<[0x4000 := <[0%nat := 0x80007]> zero_page]>
  (list_to_map ((fun p => (p, zero_page)) <$> [0x5000; 0x6000; 0x7000; 0x8000]))))).

Definition copy_mach : mach (list Z) := Mach copy_mem 0x1000 [0x5000; 0x6000; 0x7000; 0x8000].

Definition copy_tree : list Z := [0x1000; 0x2000; 0x3000; 0x4000].

Ltac zero_entry j Hj Hne :=
  rewrite list_lookup_insert_ne by lia; unfold empty_root; rewrite ?list_lookup_insert_ne by lia;
  unfold zero_page; apply lookup_replicate_2; lia.

Lemma copy_owns : owns copy_mem 3 0x1000 copy_tree.
Proof.
  apply (owns_single _ 2 _ (<[0%nat := 0x2007]> (empty_root 0x1000)) 0 0x2007); [done|done|change (lim 3) with 256%nat; lia| | |done|split; [by vm_compute|by vm_compute]|].
  { intros j Hj Hne. change (lim 3) with 256%nat in Hj. zero_entry j Hj Hne. }
  { apply list_lookup_insert_eq. unfold empty_root, zero_page. rewrite ?length_insert, length_replicate. lia. }
  change (ADDR 0x2007) with 0x2000.
  apply (owns_single _ 1 _ (<[0%nat := 0x3007]> zero_page) 0 0x3007); [done|done|change (lim 2) with 512%nat; lia| | |done|split; [by vm_compute|by vm_compute]|].
  { intros j Hj Hne. change (lim 2) with 512%nat in Hj. zero_entry j Hj Hne. }
  { apply list_lookup_insert_eq. unfold empty_root, zero_page. rewrite ?length_insert, length_replicate. lia. }
  change (ADDR 0x3007) with 0x3000.
  apply (owns_single _ 0 _ (<[2%nat := 0x4007]> zero_page) 2 0x4007); [done|done|change (lim 1) with 512%nat; lia| | |done|split; [by vm_compute|by vm_compute]|].
  { intros j Hj Hne. change (lim 1) with 512%nat in Hj. zero_entry j Hj Hne. }
  { apply list_lookup_insert_eq. unfold empty_root, zero_page. rewrite ?length_insert, length_replicate. lia. }
  change (ADDR 0x4007) with 0x4000. exists (<[0%nat := 0x80007]> zero_page). done.
Qed.

Lemma copy_pgt_shares_witness :
  owns copy_mem 3 0x1000 copy_tree /\
  total (copy_pgt copy_mach 0x1000) (fun r => let '(npg, s') := r in hw_walk (mem s') npg 0x400000 3 = Some 0x80000).
Proof.
  split; [apply copy_owns|]. eapply total_mono; [apply (copy_pgt_shares copy_mach 0x1000 copy_tree)|].
  - apply copy_owns.
  - by apply (bool_decide_unpack _); vm_compute.
  - intros p Hp. repeat (apply elem_of_cons in Hp as [->|Hp]; [split; [by apply (bool_decide_unpack _); vm_compute|vm_compute; by eexists]|]).
    by apply elem_of_nil in Hp.
  - split_and!; [cbn; lia|by apply (bool_decide_unpack _); vm_compute|].
    intros p Hp. repeat (apply elem_of_cons in Hp as [->|Hp]; [by vm_compute|]). by apply elem_of_nil in Hp.
  - intros [npg s'] (Y & _ & _ & _ & _ & H & _). destruct (H 0x400000) as (_ & _ & -> & _); [by vm_compute|]. by vm_compute.
Defined.

