(* ===== verification/Minix.v ===== *)
(** * The Minix file system: [kernel/fs/minix/minix.c]

    The first version of the format: 1024-byte blocks, 16-bit zone numbers, seven direct
    zones, one indirect and one doubly indirect zone per file.  A disk is its image and the
    blocks written since; the buffer cache ([kernel/dev/blk/buffer.c]) writes through and
    hands out the current contents of a block, so a [buffer_t *] is the number of its block.
    Every multi-byte field is read from and written to the bytes of a block. *)
From Stdlib Require Import ZArith Lia List Bool.
From stdpp Require Import base list gmap.
From S2P Require Import Prelude Bytes Bitmap.

#[local] Open Scope Z_scope.

Definition BLKSZ : Z := 1024.
Definition MAX_FILENAME : Z := 14.
Definition MAX_Z9IDX : Z := 9.

(** [sizeof(minix_inode_t)] and [sizeof(minix_direct_t)] *)
Definition INODE_SIZ : Z := 32.
Definition DIRECT_SIZ : Z := 16.

Definition nodenr_perblk : Z := BLKSZ / INODE_SIZ.
Definition xmapnr_perblk : Z := BLKSZ * 8.
Definition direnr_perblk : Z := BLKSZ / DIRECT_SIZ.

(** [_M] and the ends of the ranges of block indices. *)
Definition M_ENT : Z := BLKSZ / 2.
Definition z9idx_end_dire : Z := 7.
Definition z9idx_end_ind1 : Z := z9idx_end_dire + M_ENT.
Definition z9idx_end_ind2 : Z := z9idx_end_ind1 + M_ENT * M_ENT.
Definition z9idx_end_ind3 : Z := z9idx_end_ind2 + M_ENT * M_ENT * M_ENT.

(** [minix_zidx_path]: the index in the table of a level (1 is the last). *)
Definition minix_zidx_path (idx : Z) (level : nat) : Z :=
  Z.land (Z.shiftr idx (Z.of_nat (level - 1) * 9)) (Z.shiftl 1 9 - 1).

Record minix_super := MinixSuper {
  sb_inodes : Z;
  sb_zones : Z;
  imap_blocks : Z;
  zmap_blocks : Z;
  firstdatazone : Z
}.

Definition minix_imap (sb : minix_super) : Z := 2.
Definition minix_zmap (sb : minix_super) : Z := 2 + imap_blocks sb.
Definition minix_inode_blk (sb : minix_super) : Z := 2 + imap_blocks sb + zmap_blocks sb.

Record minix_inode := MinixInode {
  i_mode : Z;
  i_uid : Z;
  i_size : Z;
  i_mtime : Z;
  i_gid : Z;
  i_nlinks : Z;
  i_zone : list Z
}.

#[export] Instance eta_minix_inode : Eta minix_inode := fun r =>
  MinixInode (i_mode r) (i_uid r) (i_size r) (i_mtime r) (i_gid r) (i_nlinks r) (i_zone r).

(** [node_t] as far as this file system uses it; [n_pdata] is its inode. *)
Record mnode := Mnode {
  n_name : list Z;
  n_siz : Z;
  n_ino : Z;
  n_uid : Z;
  n_gid : Z;
  n_mode : Z;
  n_atime : Z;
  n_mtime : Z;
  n_ctime : Z;
  n_rdev : Z;
  n_pdata : minix_inode
}.

#[export] Instance eta_mnode : Eta mnode := fun r =>
  Mnode (n_name r) (n_siz r) (n_ino r) (n_uid r) (n_gid r) (n_mode r) (n_atime r) (n_mtime r)
    (n_ctime r) (n_rdev r) (n_pdata r).

(** The disk image, the clock and the identity of the caller. *)
Class MinixEnv := { image : Z -> list Z; now : Z; euid : Z; egid : Z }.

(** The blocks written since the image was taken. *)
Abbreviation disk := (gmap Z (list Z)).

(** [textos/bits/mode.h] *)
Definition S_IFMT : Z := 0xF000.
Definition S_IFDIR : Z := 0x4000.
Definition S_IFCHR : Z := 0x2000.
Definition S_IFBLK : Z := 0x6000.
Definition S_IFREG : Z := 0x8000.
Definition S_ISREG (mode : Z) : bool := Z.land mode S_IFMT =? S_IFREG.
Definition S_ISCHR (mode : Z) : bool := Z.land mode S_IFMT =? S_IFCHR.
Definition S_ISBLK (mode : Z) : bool := Z.land mode S_IFMT =? S_IFBLK.

Definition O_CREAT : Z := 0x40.
Definition O_DIRECTORY : Z := 0x10000.

Definition MAY_WRITE : Z := 2.
Definition ENAMETOOLONG : Z := 36.

(** ** Records on disk *)

Definition dec_zones (b : list Z) (o : Z) : res (list Z) :=
  foldr (fun k r => let! z := ld16 b (o + 2 * k) in let! zs := r in Ok (z :: zs)) (Ok []) [0; 1; 2; 3; 4; 5; 6; 7; 8].

Definition dec_inode (b : list Z) (o : Z) : res minix_inode :=
  let! mode := ld16 b o in
  let! uid := ld16 b (o + 2) in
  let! size := ld32 b (o + 4) in
  let! mtime := ld32 b (o + 8) in
  let! gid := aget b (o + 12) in
  let! nlinks := aget b (o + 13) in
  let! zone := dec_zones b (o + 14) in
  Ok (MinixInode mode uid size mtime gid nlinks zone).

Definition enc_inode (mi : minix_inode) : list Z :=
  le16 (i_mode mi) ++ le16 (i_uid mi) ++ le32 (i_size mi) ++ le32 (i_mtime mi) ++
  [u8 (i_gid mi); u8 (i_nlinks mi)] ++ concat (map le16 (i_zone mi)).

(** [strncmp(s1, s2, n) == 0] on strings that end at their first zero byte or
    at the end of the array they are in. *)
Fixpoint strneq (n : nat) (s1 s2 : list Z) : bool :=
  match n with
  | O => true
  | S n =>
      let a := default 0 (head s1) in
      let b := default 0 (head s2) in
      if negb (a =? b) then false
      else if a =? 0 then true
      else strneq n (tail s1) (tail s2)
  end.

(** [strncpy] into an array of [n] bytes. *)
Definition strncpy_pad (n : nat) (s : list Z) : list Z := take n s ++ replicate (n - length s) 0.

(** The directory entry in slot [e] of a block. *)
Definition de_ino (b : list Z) (e : Z) : res Z := ld16 b (DIRECT_SIZ * e).
Definition de_name (b : list Z) (e : Z) : res (list Z) := ld b (DIRECT_SIZ * e + 2) (Z.to_nat MAX_FILENAME).

Section Minix.
Context `{MinixEnv} (sb : minix_super).

(** [sb_bread], and the release of a buffer that was written. *)
Definition bread (d : disk) (b : Z) : list Z := default (image b) (d !! b).

Definition bput (d : disk) (b : Z) (x : list Z) : disk := <[b := x]> d.

Definition zero_blk : list Z := replicate 1024 0.

(** ** Zones of a file *)

(** [minix_zget_indirect]: the block found from the table block [b]. *)
Fixpoint minix_zget_indirect (d : disk) (b : Z) (nlevels : nat) (idx : Z) : res (option Z) :=
  match nlevels with
  | O => Ok (Some b)
  | S n =>
      let! zno := ld16 (bread d b) (2 * minix_zidx_path idx nlevels) in
      if zno =? 0 then Ok None else minix_zget_indirect d zno n idx
  end.

Definition minix_zget (d : disk) (zone : list Z) (idx : Z) : res (option Z) :=
  if idx <? z9idx_end_dire then
    let! z := aget zone idx in Ok (if z =? 0 then None else Some z)
  else if idx <? z9idx_end_ind1 then
    let! z := aget zone 7 in minix_zget_indirect d z 1 (idx - z9idx_end_dire)
  else if idx <? z9idx_end_ind2 then
    let! z := aget zone 8 in minix_zget_indirect d z 2 (idx - z9idx_end_ind1)
  else if idx <? z9idx_end_ind3 then
    let! z := aget zone 9 in minix_zget_indirect d z 3 (idx - z9idx_end_ind2)
  else Ok None.

(** The loop of [minix_ialloc] and of [minix_zalloc] over the blocks of a bitmap. *)
Fixpoint xalloc_loop (fuel : nat) (d : disk) (first limit i : Z) : res (option Z * disk) :=
  match fuel with
  | O => Fault OutOfFuel
  | S fuel =>
      if i <? limit then
        let bidx := first + i / xmapnr_perblk in
        let! r := bitmap_find (Bitmap (bread d bidx) xmapnr_perblk) in
        let '(n, bmp) := r in
        if negb (n =? SIZE_MAX) then
          let! bmp := bitmap_set bmp n in
          Ok (Some (i + n), bput d bidx (bm_map bmp))
        else xalloc_loop fuel d first limit (i + xmapnr_perblk)
      else Ok (None, d)
  end.

Definition map_fuel (limit : Z) : nat := S (Z.to_nat (limit / xmapnr_perblk + 1)).

Definition minix_ialloc (d : disk) : res (Z * disk) :=
  let! r := xalloc_loop (map_fuel (sb_inodes sb)) d (minix_imap sb) (sb_inodes sb) 0 in
  match r with
  | (Some n, d) => Ok (u16 (n + 1), d)
  | (None, d) => Ok (0, d)
  end.

Definition minix_zalloc (d : disk) : res (Z * disk) :=
  let! r := xalloc_loop (map_fuel (sb_zones sb)) d (minix_zmap sb) (sb_zones sb) 0 in
  match r with
  | (Some n, d) => Ok (u16 (firstdatazone sb + n), d)
  | (None, d) => Ok (0, d)
  end.

Definition xfree (d : disk) (first n : Z) : res disk :=
  let bidx := n / xmapnr_perblk + first in
  let! bmp := bitmap_reset (Bitmap (bread d bidx) xmapnr_perblk) (n mod xmapnr_perblk) in
  Ok (bput d bidx (bm_map bmp)).

Definition minix_ifree (d : disk) (ino : Z) : res disk := xfree d (minix_imap sb) ino.

Definition minix_zfree (d : disk) (zno : Z) : res disk :=
  xfree d (minix_zmap sb) (u16 (zno - firstdatazone sb)).

(** ** Extending a file *)

(** The loop of [minix_zext_indirect] over the entries of block [b]; [down] is the
    call for the next level.  The result says whether the zones ran out and how
    many blocks are still wanted. *)
Fixpoint zext_entries (down : disk -> Z -> Z -> res (Z * disk)) (last : bool) (k : nat) (i : Z)
    (d : disk) (b rem : Z) : res (bool * Z * disk) :=
  match k with
  | O => Ok (false, rem, d)
  | S k =>
      if rem =? 0 then Ok (false, rem, d)
      else
        let! zno := ld16 (bread d b) (2 * i) in
        let! r :=
          (if zno =? 0 then
             let! a := minix_zalloc d in
             let '(z, d) := a in
             let! x := st (bread d b) (2 * i) (le16 z) in
             let d := bput d b x in
             if z =? 0 then Ok (None, d)
             else
               let d := bput d z zero_blk in
               Ok (Some (z, if last then rem - 1 else rem), d)
           else Ok (Some (zno, rem), d)) in
        match r with
        | (None, d) => Ok (true, rem, d)
        | (Some (zno, rem), d) =>
            if last then zext_entries down last k (i + 1) d b rem
            else
              let! r := down d zno rem in
              let '(ret, d) := r in
              if ret <=? 0 then
                let rem := u32 (rem + ret) in
                if i =? M_ENT - 1 then Ok (true, rem, d)
                else zext_entries down last k (i + 1) d b rem
              else zext_entries down last k (i + 1) d b (u32 (rem - ret))
        end
  end.

(** The result is the product of an [int] and a [uint], so it is never negative. *)
Fixpoint minix_zext_indirect (nlevels : nat) (d : disk) (b ext : Z) : res (Z * disk) :=
  match nlevels with
  | O => Fault OutOfFuel
  | S n =>
      let! r := zext_entries (minix_zext_indirect n) (nlevels =? 1)%nat (Z.to_nat M_ENT) 0 d b ext in
      let '(compromised, rem, d) := r in
      Ok (u32 ((if compromised then -1 else 1) * u32 (ext - rem)), d)
  end.

(** The loop of [minix_zext] over the direct zones. *)
Fixpoint zext_direct (k : nat) (i : Z) (d : disk) (zone : list Z) (ext : Z) : res (list Z * Z * disk) :=
  match k with
  | O => Ok (zone, ext, d)
  | S k =>
      if ext =? 0 then Ok (zone, ext, d)
      else
        let! z := aget zone i in
        if z =? 0 then
          let! r := minix_zalloc d in
          let '(z, d) := r in
          let! zone := aset zone i z in
          zext_direct k (i + 1) d zone (ext - 1)
        else zext_direct k (i + 1) d zone ext
  end.

(** Its loop over the indirect zones. *)
Fixpoint zext_deep (k : nat) (i : Z) (d : disk) (zone : list Z) (ext : Z) : res (list Z * Z * disk) :=
  match k with
  | O => Ok (zone, ext, d)
  | S k =>
      if ext =? 0 then Ok (zone, ext, d)
      else
        let! z := aget zone i in
        let! r :=
          (if negb (z =? 0) then Ok (z, zone, d)
           else
             let! r := minix_zalloc d in
             let '(z, d) := r in
             let! zone := aset zone i z in
             Ok (z, zone, bput d z zero_blk)) in
        let '(z, zone, d) := r in
        let! r := minix_zext_indirect (Z.to_nat (i - 6)) d z ext in
        let '(ret, d) := r in
        let ext := if ret <=? 0 then u32 (ext + ret) else u32 (ext - ret) in
        zext_deep k (i + 1) d zone ext
  end.

Definition minix_zext (d : disk) (zone : list Z) (ext : Z) : res (Z * list Z * disk) :=
  let! r := zext_direct 7 0 d zone ext in
  let '(zone, ext, d) := r in
  if ext =? 0 then Ok (0, zone, d)
  else
    let! r := zext_deep 2 7 d zone ext in
    let '(zone, ext, d) := r in
    Ok (ext, zone, d).

(** ** Inodes *)

Definition minix_iget (d : disk) (ino : Z) : res (option minix_inode) :=
  if ino =? 0 then Ok None
  else if sb_inodes sb <? ino then Ok None
  else
    let ino := ino - 1 in
    let bidx := ino / nodenr_perblk + minix_inode_blk sb in
    let iidx := ino mod nodenr_perblk in
    let! mi := dec_inode (bread d bidx) (iidx * INODE_SIZ) in
    Ok (Some mi).

Definition minix_isync (d : disk) (mi : minix_inode) (ino : Z) : res disk :=
  if sb_inodes sb <? ino then Ok d
  else
    let ino := u16 (ino - 1) in
    let bidx := ino / nodenr_perblk + minix_inode_blk sb in
    let iidx := ino mod nodenr_perblk in
    let! x := st (bread d bidx) (iidx * INODE_SIZ) (enc_inode mi) in
    Ok (bput d bidx x).

(** [textos/dev.h] *)
Definition major (x : Z) : Z :=
  u32 (Z.lor (Z.land (Z.shiftr x 32) 0xfffff000) (Z.land (Z.shiftr x 8) 0xfff)).

Definition minor (x : Z) : Z :=
  u32 (Z.lor (Z.land (Z.shiftr x 12) 0xffffff00) (Z.land x 0xff)).

Definition makedev (x y : Z) : Z :=
  Z.lor (Z.lor (Z.lor (u64 (Z.shiftl (Z.land x 0xfffff000) 32)) (Z.shiftl (Z.land x 0xfff) 8))
    (Z.shiftl (Z.land y 0xffffff00) 12)) (Z.land y 0xff).

Definition minix_dev_parse (dev : Z) : Z := makedev (Z.shiftr dev 8) (Z.land dev 0xff).

Definition minix_dev_make (dev : Z) : Z := u16 (Z.lor (u32 (Z.shiftl (major dev) 8)) (minor dev)).

(** ** Directories *)

(** The inner loop of [minix_lookup]: the slots of one block. *)
Fixpoint lookup_slots (k : nat) (e : Z) (blk name : list Z) : res (option Z) :=
  match k with
  | O => Ok None
  | S k =>
      let! nm := de_name blk e in
      if strneq (Z.to_nat MAX_FILENAME) name nm then
        let! ino := de_ino blk e in Ok (Some ino)
      else lookup_slots k (e + 1) blk name
  end.

Fixpoint lookup_loop (fuel : nat) (d : disk) (zone : list Z) (entmax idx : Z) (name : list Z) : res Z :=
  match fuel with
  | O => Fault OutOfFuel
  | S fuel =>
      if idx <? entmax then
        let! z := minix_zget d zone (idx / direnr_perblk) in
        let! b := deref z in
        let! r := lookup_slots (Z.to_nat direnr_perblk) 0 (bread d b) name in
        match r with
        | Some ino => Ok ino
        | None => lookup_loop fuel d zone entmax (idx + direnr_perblk) name
        end
      else Ok 0
  end.

Definition minix_lookup (d : disk) (dir : mnode) (name : list Z) : res Z :=
  let mdir := n_pdata dir in
  let entmax := i_size mdir / DIRECT_SIZ in
  lookup_loop (S (Z.to_nat entmax)) d (i_zone mdir) entmax 0 name.

Definition set_zone (n : mnode) (zone : list Z) : mnode := n <| n_pdata := (n_pdata n) <| i_zone := zone |> |>.

Definition set_size (n : mnode) (size siz : Z) : mnode :=
  n <| n_siz := siz |> <| n_pdata := (n_pdata n) <| i_size := size |> |>.

(** The slot of a block that the inner loop of [minix_eddir] stops at. *)
Fixpoint eddir_slot (k : nat) (e : Z) (blk name : list Z) (ino idx direnr : Z) : res (option Z) :=
  match k with
  | O => Ok None
  | S k =>
      let! nm := de_name blk e in
      let! i := de_ino blk e in
      if (ino =? 0) && strneq (Z.to_nat MAX_FILENAME) nm name then Ok (Some e)
      else if negb (ino =? 0) && ((i =? 0) || (direnr <? idx + e + 1)) then Ok (Some e)
      else eddir_slot k (e + 1) blk name ino idx direnr
  end.

(** The block for index [zidx] of the directory, added at the end when there is none. *)
Definition eddir_block (d : disk) (dir : mnode) (zidx : Z) : res (option Z * mnode * disk) :=
  let mdir := n_pdata dir in
  let! z := minix_zget d (i_zone mdir) zidx in
  match z with
  | Some b => Ok (Some b, dir, d)
  | None =>
      if 0xffffffff <? u32 (i_size mdir + BLKSZ) then Ok (None, dir, d)
      else
        let! r := minix_zext d (i_zone mdir) 1 in
        let '(rem, zone, d) := r in
        let dir := set_zone dir zone in
        if negb (rem =? 0) then Ok (None, dir, d)
        else
          let! z := minix_zget d zone zidx in
          match z with
          | None => Ok (None, dir, d)
          | Some b =>
              let dir := set_size dir (u32 (i_size mdir + DIRECT_SIZ)) (u64 (n_siz dir + DIRECT_SIZ)) in
              let! d := minix_isync d (n_pdata dir) (n_ino dir) in
              Ok (Some b, dir, d)
          end
  end.

Fixpoint eddir_loop (fuel : nat) (d : disk) (dir : mnode) (name : list Z) (ino direnr idx : Z)
    : res (Z * mnode * disk) :=
  match fuel with
  | O => Fault OutOfFuel
  | S fuel =>
      let! r := eddir_block d dir (idx / direnr_perblk) in
      match r with
      | (None, dir, d) => Ok (- ENOSPC, dir, d)
      | (Some b, dir, d) =>
          let! r := eddir_slot (Z.to_nat direnr_perblk) 0 (bread d b) name ino idx direnr in
          match r with
          | None => eddir_loop fuel d dir name ino direnr (u32 (idx + direnr_perblk))
          | Some e =>
              if ino =? 0 then
                let! x := st (bread d b) (DIRECT_SIZ * e) (le16 0) in
                Ok (0, dir, bput d b x)
              else
                let! x := st (bread d b) (DIRECT_SIZ * e) (le16 ino) in
                let! x := st x (DIRECT_SIZ * e + 2) (strncpy_pad (Z.to_nat MAX_FILENAME) name) in
                let d := bput d b x in
                let nsize := u32 ((idx + e + 1) * DIRECT_SIZ) in
                if i_size (n_pdata dir) <? nsize then
                  let dir := set_size dir nsize nsize in
                  let! d := minix_isync d (n_pdata dir) (n_ino dir) in
                  Ok (0, dir, d)
                else Ok (0, dir, d)
          end
      end
  end.

Definition minix_eddir (fuel : nat) (d : disk) (dir : mnode) (name : list Z) (ino : Z) : res (Z * mnode * disk) :=
  eddir_loop fuel d dir name ino (i_size (n_pdata dir) / DIRECT_SIZ) 0.

Definition minix_setupdir (d : disk) (zone : list Z) (ino pino : Z) : res (Z * list Z * disk) :=
  let! r := minix_zalloc d in
  let '(z, d) := r in
  let! zone := aset zone 0 z in
  if z =? 0 then Ok (- ENOSPC, zone, d)
  else
    let! o := minix_zget d zone 0 in
    let! b := deref o in
    let! x := st (bread d b) 0 (le16 ino ++ [46; 0]) in
    let! x := st x DIRECT_SIZ (le16 pino ++ [46; 46; 0]) in
    Ok (0, zone, bput d b x).

(** ** Cutting a file *)

(** The loop of [minix_trunc_after]; [down] is the call for the next level. *)
Fixpoint trunc_entries (down : disk -> Z -> res (bool * disk)) (last : bool) (k : nat) (i : Z)
    (d : disk) (b : Z) : res disk :=
  match k with
  | O => Ok d
  | S k =>
      let! zno := ld16 (bread d b) (2 * i) in
      let! r :=
        (if zno =? 0 then Ok (false, d)
         else if last then Ok (true, d)
         else down d zno) in
      let '(free, d) := r in
      let! d :=
        (if free then
           let! d := minix_zfree d zno in
           let! x := st (bread d b) (2 * i) (le16 0) in
           Ok (bput d b x)
         else Ok d) in
      trunc_entries down last k (i + 1) d b
  end.

Fixpoint minix_trunc_after (nlevels : nat) (zmax : Z) (d : disk) (b : Z) : res (bool * disk) :=
  match nlevels with
  | O => Fault OutOfFuel
  | S n =>
      let lidx := minix_zidx_path zmax nlevels in
      let! d := trunc_entries (minix_trunc_after n zmax) (nlevels =? 1)%nat (Z.to_nat (M_ENT - lidx)) lidx d b in
      Ok (lidx =? 0, d)
  end.

Fixpoint trunc_loop (k : nat) (i : Z) (d : disk) (zone : list Z) (zmax : Z) : res (list Z * disk) :=
  match k with
  | O => Ok (zone, d)
  | S k =>
      let! z := aget zone i in
      let! r :=
        (if z =? 0 then Ok (zone, d)
         else
           let! r := (if i <? z9idx_end_dire then Ok (zmax <=? i, d)
                      else minix_trunc_after (Z.to_nat (i - 6)) zmax d z) in
           let '(emptied, d) := r in
           if emptied then
             let! d := minix_zfree d z in
             let! zone := aset zone i 0 in
             Ok (zone, d)
           else Ok (zone, d)) in
      let '(zone, d) := r in
      trunc_loop k (i + 1) d zone zmax
  end.

Definition minix_trunc (d : disk) (zone : list Z) (zmax : Z) : res (list Z * disk) :=
  trunc_loop (Z.to_nat MAX_Z9IDX) 0 d zone zmax.

(** ** Nodes *)

(** [vfs_permission] of [kernel/fs/vperm.c] for the calling task. *)
Definition vfs_permission (n : mnode) (want : Z) : Z :=
  let bits := if euid =? n_uid n then Z.shiftr (n_mode n) 6
              else if egid =? n_gid n then Z.shiftr (n_mode n) 3
              else n_mode n in
  if negb (Z.land want 1 =? 0) && (Z.land bits 4 =? 0) then - EACCES
  else if negb (Z.land want MAY_WRITE =? 0) && (Z.land bits 2 =? 0) then - EACCES
  else if negb (Z.land want 4 =? 0) && (Z.land bits 1 =? 0) then - EACCES
  else 0.

Definition minix_isdev (mode : Z) : bool := S_ISCHR mode || S_ISBLK mode.

Definition minix_nodeget (mi : minix_inode) (ino : Z) (name : list Z) : mnode :=
  Mnode name (i_size mi) ino (i_uid mi) (i_gid mi) (i_mode mi) (i_mtime mi) (i_mtime mi) (i_mtime mi)
    (if minix_isdev (i_mode mi) then minix_dev_parse (default 0 (head (i_zone mi))) else 0) mi.

(** The first component of a path. *)
Fixpoint before_slash (name : list Z) : list Z :=
  match name with
  | [] => []
  | c :: name => if c =? 47 then [] else c :: before_slash name
  end.

Definition minix_namel (name : list Z) : Z + list Z :=
  let res := before_slash name in
  if MAX_FILENAME <? Z.of_nat (length res) then inl (- ENAMETOOLONG) else inr res.

(** What [minix_open] and [minix_mknod] write into the inode they took. *)
Definition fresh_inode (mode : Z) : minix_inode :=
  MinixInode (u16 mode) (u16 euid) 0 (u32 now) (u8 egid) 1 (replicate 9 0).

(** The creation branch of [minix_open]: the inode, or nothing when there is no space. *)
Definition open_create (fuel : nat) (d : disk) (parent : mnode) (filname : list Z) (args mode : Z)
    : res (option (minix_inode * Z) * mnode * disk) :=
  let mode := Z.land mode (Z.lnot S_IFMT) in
  let! r := minix_ialloc d in
  let '(ino, d) := r in
  if ino =? 0 then Ok (None, parent, d)
  else
    let! r := minix_eddir fuel d parent filname ino in
    let '(err, parent, d) := r in
    if err <? 0 then let! d := minix_ifree d ino in Ok (None, parent, d)
    else
      let! o := minix_iget d ino in
      do! deref o in
      let mi := fresh_inode mode in
      if negb (Z.land args O_DIRECTORY =? 0) then
        let! r := minix_setupdir d (i_zone mi) ino (n_ino parent) in
        let '(err, zone, d) := r in
        let mi := mi <| i_size := 2 * DIRECT_SIZ |> <| i_mode := Z.lor (i_mode mi) S_IFDIR |> <| i_zone := zone |> in
        if err <? 0 then let! d := minix_ifree d ino in Ok (None, parent, d)
        else let! d := minix_isync d mi ino in Ok (Some (mi, ino), parent, d)
      else
        let mi := mi <| i_mode := Z.lor (i_mode mi) S_IFREG |> in
        let! d := minix_isync d mi ino in
        Ok (Some (mi, ino), parent, d).

(** The node that was opened is handed to [vfs_regst]. *)
Definition minix_open (fuel : nat) (d : disk) (parent : mnode) (name : list Z) (args mode : Z)
    : res (Z * option mnode * mnode * disk) :=
  match minix_namel name with
  | inl err => Ok (err, None, parent, d)
  | inr filname =>
      let! ino := minix_lookup d parent filname in
      let! o := minix_iget d ino in
      match o with
      | Some mi => Ok (0, Some (minix_nodeget mi ino filname), parent, d)
      | None =>
          if Z.land args O_CREAT =? 0 then Ok (- ENOENT, None, parent, d)
          else if vfs_permission parent MAY_WRITE <? 0 then Ok (- EPERM, None, parent, d)
          else
            let! r := open_create fuel d parent filname args mode in
            match r with
            | (Some (mi, ino), parent, d) => Ok (0, Some (minix_nodeget mi ino filname), parent, d)
            | (None, parent, d) => Ok (- ENOSPC, None, parent, d)
            end
      end
  end.

Definition minix_mknod (fuel : nat) (d : disk) (parent : mnode) (name : list Z) (rdev mode : Z)
    : res (Z * option mnode * mnode * disk) :=
  if vfs_permission parent MAY_WRITE <? 0 then Ok (- EPERM, None, parent, d)
  else
    match minix_namel name with
    | inl err => Ok (err, None, parent, d)
    | inr filname =>
        let! r := minix_ialloc d in
        let '(ino, d) := r in
        if ino =? 0 then Ok (- ENOSPC, None, parent, d)
        else
          let! r := minix_eddir fuel d parent filname ino in
          let '(err, parent, d) := r in
          if err <? 0 then let! d := minix_ifree d ino in Ok (- ENOSPC, None, parent, d)
          else
            let! o := minix_iget d ino in
            do! deref o in
            let mi := (fresh_inode mode) <| i_zone := minix_dev_make rdev :: replicate 8 0 |> in
            let! d := minix_isync d mi ino in
            Ok (0, Some (minix_nodeget mi ino filname), parent, d)
    end.

(** [vfs_m_chown] and [vfs_m_chmod] of [textos/fs/internal.h]. *)
Definition vfs_m_chown (n : mnode) (owner group : Z) (ap : bool) : mnode :=
  let mode := if negb ap && S_ISREG (n_mode n) && negb (Z.land (n_mode n) 73 =? 0)
              then Z.land (n_mode n) (Z.lnot 3072) else n_mode n in
  n <| n_mode := mode |> <| n_uid := owner |> <| n_gid := group |> <| n_ctime := now |>.

Definition vfs_m_chmod (n : mnode) (mode : Z) (clrsgid : bool) : mnode :=
  let m := Z.lor (Z.land (n_mode n) (Z.lnot 4095)) (Z.land mode 4095) in
  let m := if clrsgid then Z.land m (Z.lnot 8) else m in
  n <| n_mode := m |> <| n_ctime := now |>.

Definition minix_chown (d : disk) (this : mnode) (owner group : Z) (ap : bool) : res (mnode * disk) :=
  let this := vfs_m_chown this owner group ap in
  let mi := (n_pdata this) <| i_uid := u16 owner |> <| i_gid := u8 group |> in
  let! d := minix_isync d mi (n_ino this) in
  Ok (this <| n_pdata := mi |>, d).

Definition minix_chmod (d : disk) (this : mnode) (mode : Z) (clrsgid : bool) : res (mnode * disk) :=
  let mode := Z.land mode 511 in
  let this := vfs_m_chmod this mode clrsgid in
  let mi := n_pdata this in
  let mi := mi <| i_mode := u16 (Z.lor (Z.land (i_mode mi) (Z.lnot 511)) mode) |> in
  let! d := minix_isync d mi (n_ino this) in
  Ok (this <| n_pdata := mi |>, d).

(** The node goes to [vfs_release]; the parent keeps its new state. *)
Definition minix_remove (fuel : nat) (d : disk) (parent this : mnode) : res (mnode * disk) :=
  let! r := (if minix_isdev (n_mode this) then Ok (i_zone (n_pdata this), d)
             else minix_trunc d (i_zone (n_pdata this)) 0) in
  let '(_, d) := r in
  let! r := minix_eddir fuel d parent (n_name this) 0 in
  let '(_, parent, d) := r in
  let! d := minix_ifree d (n_ino this) in
  Ok (parent, d).

(** ** File data *)

Fixpoint read_loop (fuel : nat) (d : disk) (mi : minix_inode) (rem offset : Z) : res (list Z) :=
  match fuel with
  | O => Fault OutOfFuel
  | S fuel =>
      if (0 <? rem) && (offset <? i_size mi) then
        let zidx := u32 (offset / BLKSZ) in
        let boff := offset mod BLKSZ in
        let! z := minix_zget d (i_zone mi) zidx in
        match z with
        | None => Ok []
        | Some b =>
            let cpysiz := BLKSZ - boff in
            let cpysiz := if rem <? cpysiz then rem else cpysiz in
            let cpysiz := if i_size mi - offset <? cpysiz then i_size mi - offset else cpysiz in
            let! x := ld (bread d b) boff (Z.to_nat cpysiz) in
            let! l := read_loop fuel d mi (rem - cpysiz) (u64 (offset + cpysiz)) in
            Ok (x ++ l)
        end
      else Ok []
  end.

(** [minix_read]: the bytes copied to the caller. *)
Definition minix_read (d : disk) (this : mnode) (siz offset : Z) : res (list Z * mnode) :=
  if n_siz this <=? offset then Ok ([], this)
  else
    let! l := read_loop (S (Z.to_nat siz)) d (n_pdata this) siz offset in
    Ok (l, this <| n_atime := now |>).

Fixpoint write_loop (fuel : nat) (d : disk) (zone src : list Z) (offset tot : Z) : res (Z * Z * list Z * disk) :=
  match fuel with
  | O => Fault OutOfFuel
  | S fuel =>
      if 0 <? Z.of_nat (length src) then
        let zidx := u32 (offset / BLKSZ) in
        let boff := offset mod BLKSZ in
        if z9idx_end_ind2 <=? zidx then Ok (offset, tot, zone, d)
        else
          let! z := minix_zget d zone zidx in
          let! r :=
            (match z with
             | Some b => Ok (Some (Some b), zone, d)
             | None =>
                 let! r := minix_zext d zone 1 in
                 let '(err, zone, d) := r in
                 if negb (err =? 0) then Ok (None, zone, d)
                 else let! z := minix_zget d zone zidx in Ok (Some z, zone, d)
             end) in
          match r with
          | (None, zone, d) => Ok (offset, tot, zone, d)
          | (Some blk, zone, d) =>
              let! b := deref blk in
              let cpysiz := BLKSZ - boff in
              let cpysiz := if Z.of_nat (length src) <? cpysiz then Z.of_nat (length src) else cpysiz in
              let! x := st (bread d b) boff (take (Z.to_nat cpysiz) src) in
              write_loop fuel (bput d b x) zone (drop (Z.to_nat cpysiz) src) (u64 (offset + cpysiz)) (tot + cpysiz)
          end
      else Ok (offset, tot, zone, d)
  end.

(** [minix_write]: the result, the node and the disk. *)
Definition minix_write (d : disk) (this : mnode) (src : list Z) (offset : Z) : res (Z * mnode * disk) :=
  let! r := write_loop (S (length src)) d (i_zone (n_pdata this)) src offset 0 in
  let '(offset, tot, zone, d) := r in
  let this := set_zone this zone in
  let! r :=
    (if i_size (n_pdata this) <? offset then
       let this := set_size this (u32 offset) (u32 offset) in
       let this := this <| n_pdata := (n_pdata this) <| i_mtime := u32 now |> |> in
       let! d := minix_isync d (n_pdata this) (n_ino this) in
       Ok (this, d)
     else Ok (this, d)) in
  let '(this, d) := r in
  Ok (if 0 <? tot then i32 tot else - ENOSPC, this, d).

Definition minix_truncate (d : disk) (this : mnode) (len : Z) : res (mnode * disk) :=
  let mi := n_pdata this in
  let zmax := u32 (DIV_ROUND_UP len BLKSZ) in
  let zhas := u32 (DIV_ROUND_UP (i_size mi) BLKSZ) in
  if zmax =? zhas then Ok (this, d)
  else
    let! r := (if zmax <? zhas then minix_trunc d (i_zone mi) zmax else Ok (i_zone mi, d)) in
    let '(zone, d) := r in
    let this := set_size (set_zone this zone) (u32 len) (u32 len) in
    let! d := minix_isync d (n_pdata this) (n_ino this) in
    Ok (this <| n_mtime := now |>, d).

(** ** Reading a directory *)

(** One emitted entry: the position, the type, the inode number and the name. *)
Record dirent := Dirent { e_idx : Z; e_type : Z; e_ino : Z; e_name : list Z }.

Inductive ctx_stat := ctx_inv | ctx_pre | ctx_end.

(** [dirctx_t]; [c_buf] is what was copied to the caller so far. *)
Record dirctx := Dirctx { c_stat : ctx_stat; c_pos : Z; c_bufmx : Z; c_bufused : Z; c_buf : list dirent }.

#[local] Instance eta_dirctx : Eta dirctx := fun r => Dirctx (c_stat r) (c_pos r) (c_bufmx r) (c_bufused r) (c_buf r).

Definition DIR_SIZ : Z := 24.

(** [dir_emit] of [kernel/file.c]; nothing when the entry does not fit. *)
Definition dir_emit (ctx : dirctx) (name : list Z) (ino type : Z) : option dirctx :=
  let siz := DIR_SIZ + Z.of_nat (length name) + 1 in
  if c_bufmx ctx <? c_bufused ctx + siz then None
  else Some (ctx <| c_bufused ::= Z.add siz |> <| c_buf ::= fun l => l ++ [Dirent (c_pos ctx) type ino name] |>).

Definition dir_get_type (mode : Z) : Z :=
  if S_ISREG mode then 8
  else if Z.land mode S_IFMT =? S_IFDIR then 4
  else if Z.land mode S_IFMT =? 0xA000 then 10
  else if S_ISCHR mode then 2
  else if S_ISBLK mode then 6
  else if Z.land mode S_IFMT =? 0x1000 then 1
  else if Z.land mode S_IFMT =? 0xC000 then 12
  else 0.

(** The name of a slot up to its first zero byte. *)
Fixpoint upto_nul (s : list Z) : list Z :=
  match s with
  | [] => []
  | c :: s => if c =? 0 then [] else c :: upto_nul s
  end.

(** The inner loop of [minix_readdir]; the flag says that an entry did not fit. *)
Fixpoint readdir_slots (k : nat) (d : disk) (blk : list Z) (e : Z) (ctx : dirctx) : res (bool * dirctx) :=
  match k with
  | O => Ok (false, ctx)
  | S k =>
      let! ino := de_ino blk e in
      let! iptr := minix_iget d ino in
      if ino =? 0 then readdir_slots k d blk (e + 1) ctx
      else
        let! mi := deref iptr in
        let! nm := de_name blk e in
        match dir_emit ctx (upto_nul nm) ino (dir_get_type (i_mode mi)) with
        | None => Ok (true, ctx <| c_stat := ctx_end |>)
        | Some ctx => readdir_slots k d blk (e + 1) (ctx <| c_pos ::= Z.add 1 |>)
        end
  end.

Fixpoint readdir_loop (k : nat) (d : disk) (mdir : minix_inode) (zidx eidx : Z) (ctx : dirctx) : res dirctx :=
  match k with
  | O => Ok ctx
  | S k =>
      let zmax := i_size mdir / BLKSZ in
      let emax := i_size mdir / DIRECT_SIZ mod direnr_perblk in
      if zidx <=? zmax then
        let! z := minix_zget d (i_zone mdir) zidx in
        let! b := deref z in
        let lim := if negb (zidx =? zmax) then direnr_perblk else emax in
        let! r := readdir_slots (Z.to_nat (lim - eidx)) d (bread d b) eidx ctx in
        match r with
        | (true, ctx) => Ok ctx
        | (false, ctx) => readdir_loop k d mdir (zidx + 1) 0 ctx
        end
      else Ok ctx
  end.

Definition init_ctx (ctx : dirctx) : dirctx := ctx <| c_pos := 0 |> <| c_stat := ctx_pre |>.

Definition EOF : Z := -1.

Definition minix_readdir (d : disk) (dir : mnode) (ctx : dirctx) : res (Z * dirctx * mnode) :=
  let ctx := match c_stat ctx with ctx_inv => init_ctx ctx | _ => ctx end in
  match c_stat ctx with
  | ctx_end => Ok (EOF, ctx, dir)
  | _ =>
      let dir := dir <| n_atime := now |> in
      let mdir := n_pdata dir in
      let! ctx := readdir_loop (S (Z.to_nat (i_size mdir / BLKSZ + 1))) d mdir
                    (c_pos ctx / direnr_perblk) (c_pos ctx mod direnr_perblk) ctx in
      Ok (0, ctx, dir)
  end.

Definition minix_seekdir (dir : mnode) (ctx : dirctx) (pos : Z) : Z * dirctx :=
  let ctx := match c_stat ctx with ctx_inv => init_ctx ctx | _ => ctx end in
  let entmax := i_size (n_pdata dir) / DIRECT_SIZ in
  if pos <? entmax then (0, ctx <| c_pos := pos |>)
  else (EOF, ctx <| c_pos := u64 (u32 (entmax - 1)) |>).

End Minix.

(** ** Mounting *)

Definition MINIX_V1 : Z := 0x137f.

(** [MINIX_INIT]: the super block, unless the magic number is another one. *)
Definition minix_init (blk : list Z) : res (option minix_super) :=
  let! magic := ld16 blk 16 in
  if negb (magic =? MINIX_V1) then Ok None
  else
    let! inodes := ld16 blk 0 in
    let! zones := ld16 blk 2 in
    let! imap := ld16 blk 4 in
    let! zmap := ld16 blk 6 in
    let! first := ld16 blk 8 in
    Ok (Some (MinixSuper inodes zones imap zmap first)).

(** The root directory of a mounted file system. *)
Definition minix_root `{MinixEnv} (sb : minix_super) (d : disk) : res mnode :=
  let! o := minix_iget sb d 1 in
  let! mi := deref o in
  Ok (minix_nodeget mi 1 [47]).
