(* ===== verification/MinixZone.v ===== *)
(** * Zones of a Minix file system

    The bitmaps of inodes and zones as sets of numbers, the tables of a file as a tree of
    blocks, and the extension of a file by one block ([minix_zext]). *)
From Stdlib Require Import ZArith Lia List Bool.
From stdpp Require Import base list gmap.
From S2P Require Import Prelude Bytes Bitmap Minix.

#[local] Open Scope Z_scope.

Record blk_ok (x : list Z) : Prop := { bk_len : length x = 1024%nat; bk_bytes : bytes_ok x }.

#[export] Hint Resolve bk_len bk_bytes : textos.

Lemma zero_blk_ok : blk_ok zero_blk.
Proof. split; [done|]. unfold bytes_ok, zero_blk. apply Forall_replicate. unfold is_byte. lia. Qed.

Lemma splice_ok x i bs : blk_ok x -> (i + length bs <= 1024)%nat -> bytes_ok bs -> blk_ok (splice x i bs).
Proof.
  intros [Hl Hb] Hi Hbs. split; [by rewrite length_splice by lia|]. apply bytes_splice; [lia|done|done].
Qed.

(** The length of a bitmap's array never changes. *)
Lemma aset_length {A} (l l' : list A) i a : aset l i a = Ok l' -> length l' = length l.
Proof. unfold aset. destruct (_ && _); [|done]. intros [= <-]. apply length_insert. Qed.

Lemma find_loop_length b n r b' : forall fuel i m, find_loop fuel b n i m = Ok (r, b') -> length (bm_map b') = length (bm_map b).
Proof.
  induction fuel as [|fuel IH]; intros i m Hf; cbn [find_loop] in Hf; [by injection Hf as <- <-|].
  destruct (_ <? _); [|by injection Hf as <- <-]. bind_inv Hf as p Ep. destruct (_ =? mpfull); [by eapply IH|].
  destruct (_ && _); [by injection Hf as <- <-|]. bind_inv Hf as l El. injection Hf as <- <-. cbn. by eapply aset_length.
Qed.

Lemma find_length b r b' : bitmap_find b = Ok (r, b') -> length (bm_map b') = length (bm_map b).
Proof.
  unfold bitmap_find, bitmap_find_range. intros Hf. bind_inv Hf as u1 E1. bind_inv Hf as u2 E2. by eapply find_loop_length.
Qed.

Lemma set_length b i b' : bitmap_set b i = Ok b' -> length (bm_map b') = length (bm_map b).
Proof. unfold bitmap_set. intros Hs. res_inv. cbn. by eapply aset_length. Qed.

Lemma reset_length b i b' : bitmap_reset b i = Ok b' -> length (bm_map b') = length (bm_map b).
Proof. unfold bitmap_reset. intros Hs. res_inv. cbn. by eapply aset_length. Qed.

Lemma blk_bitmap x : blk_ok x <-> bitmap_ok (Bitmap x xmapnr_perblk) /\ length x = 1024%nat.
Proof.
  split.
  - intros [Hl Hb]. split; [|done]. split; cbn [bm_map bm_bits]; [unfold xmapnr_perblk, BLKSZ; lia| |exact Hb].
    rewrite Hl. vm_compute. discriminate.
  - intros [[_ _ Hu] Hl]. by split.
Qed.

Lemma filter_ne_id (l : list Z) n : n ∉ l -> filter (fun m => m <> n) l = l.
Proof.
  induction l as [|x l IH]; [done|]. intros [Hx Hl]%not_elem_of_cons. rewrite filter_cons, decide_True by congruence. by rewrite IH.
Qed.

(** Removing one element from a list without repetitions. *)
Lemma length_filter_ne (l : list Z) n : NoDup l -> (length l <= S (length (filter (fun m => m <> n) l)))%nat.
Proof.
  induction l as [|x l IH]; intros Hnd; [cbn; lia|]. apply NoDup_cons in Hnd as [Hx Hnd]. rewrite filter_cons. case_decide as Hd.
  - specialize (IH Hnd). cbn [length]. lia.
  - assert (x = n) as -> by (destruct (decide (x = n)); [done|contradiction]). cbn [length]. apply le_n_S.
    by rewrite filter_ne_id.
Qed.

Section Zones.
Context `{MinixEnv} (sb : minix_super).

Definition image_ok : Prop := forall b, blk_ok (image b).

Definition disk_ok (d : disk) : Prop := forall b x, d !! b = Some x -> blk_ok x.

Context (Himg : image_ok).

Lemma bread_ok d b : disk_ok d -> blk_ok (bread d b).
Proof. intros Hd. unfold bread. destruct (d !! b) as [x|] eqn:E; cbn; [by eapply Hd|apply Himg]. Qed.

Lemma bput_ok d b x : disk_ok d -> blk_ok x -> disk_ok (bput d b x).
Proof. intros Hd Hx b' x'. unfold bput. rewrite lookup_insert. case_decide; [by intros [= <-]|apply Hd]. Qed.

Lemma bread_bput d b x b' : bread (bput d b x) b' = if decide (b' = b) then x else bread d b'.
Proof. unfold bread, bput. destruct (decide (b' = b)) as [->|]; [by rewrite lookup_insert_eq|by rewrite lookup_insert_ne by congruence]. Qed.

Lemma bread_bput_eq d b x : bread (bput d b x) b = x.
Proof. rewrite bread_bput. by rewrite decide_True. Qed.

Lemma bread_bput_ne d b x b' : b' <> b -> bread (bput d b x) b' = bread d b'.
Proof. intros Hne. rewrite bread_bput. by rewrite decide_False. Qed.

(** ** Bitmaps as sets *)

(** Whether number [n] is taken in the bitmap that starts at block [first]. *)
Definition xbit (d : disk) (first n : Z) : bool :=
  bit (Bitmap (bread d (first + n / xmapnr_perblk)) xmapnr_perblk) (n mod xmapnr_perblk).

(** The numbers of a bitmap of [limit] entries; the last block is used to its end. *)
Definition xsize (limit : Z) : Z := (limit + (xmapnr_perblk - 1)) / xmapnr_perblk * xmapnr_perblk.

Definition blocks_but (d d' : disk) (P : Z -> Prop) : Prop := forall b, ~ P b -> bread d' b = bread d b.

Definition map_blk (first limit b : Z) : Prop := first <= b < first + (limit + (xmapnr_perblk - 1)) / xmapnr_perblk.

Lemma xmap_split i n : 0 <= n < xmapnr_perblk -> i mod xmapnr_perblk = 0 ->
  (i + n) / xmapnr_perblk = i / xmapnr_perblk /\ (i + n) mod xmapnr_perblk = n.
Proof. unfold xmapnr_perblk, BLKSZ. intros. dlia. Qed.

(** What taking a number does to the bitmap. *)
Record xtaken (d d' : disk) (first limit n : Z) : Prop := {
  xt_range : 0 <= n < xsize limit;
  xt_free : xbit d first n = false;
  xt_low : forall m, 0 <= m < n -> xbit d first m = true;
  xt_bits : forall m, 0 <= m -> xbit d' first m = xbit d first m || (m =? n);
  xt_other : blocks_but d d' (map_blk first limit);
  xt_ok : disk_ok d'
}.

Lemma xbit_at d first i n : i mod xmapnr_perblk = 0 -> 0 <= n < xmapnr_perblk ->
  xbit d first (i + n) = bit (Bitmap (bread d (first + i / xmapnr_perblk)) xmapnr_perblk) n.
Proof. intros Hi Hn. unfold xbit. by destruct (xmap_split i n Hn Hi) as [-> ->]. Qed.

(** Replacing one block of a bitmap. *)
Lemma xbit_bput d first i x m : i mod xmapnr_perblk = 0 -> 0 <= m ->
  xbit (bput d (first + i / xmapnr_perblk) x) first m =
  if decide (i <= m < i + xmapnr_perblk) then bit (Bitmap x xmapnr_perblk) (m - i) else xbit d first m.
Proof.
  intros Hi Hm. unfold xbit. rewrite bread_bput. case_decide as Hd.
  - rewrite decide_True by (unfold xmapnr_perblk, BLKSZ in *; dlia). f_equal. unfold xmapnr_perblk, BLKSZ in *. dlia.
  - rewrite decide_False; [done|]. intros Hr. apply Hd. unfold xmapnr_perblk, BLKSZ in *. dlia.
Qed.

Lemma xalloc_loop_ok first limit d fuel : disk_ok d -> forall i,
  0 <= i -> i mod xmapnr_perblk = 0 -> (forall m, 0 <= m < i -> xbit d first m = true) ->
  (Z.to_nat (limit / xmapnr_perblk + 2 - i / xmapnr_perblk) <= fuel)%nat -> i <= xsize limit ->
  (exists n d', xalloc_loop fuel d first limit i = Ok (Some n, d') /\ xtaken d d' first limit n) \/
  (xalloc_loop fuel d first limit i = Ok (None, d) /\ forall m, 0 <= m < xsize limit -> xbit d first m = true).
Proof.
  intros Hd. induction fuel as [|fuel IH]; intros i Hi Hm Hlow Hf Hle.
  { exfalso. unfold xsize, xmapnr_perblk, BLKSZ in *. dlia. }
  cbn [xalloc_loop]. destruct (Z.ltb_spec i limit) as [Hlt|Hge].
  2: { right. split; [done|]. intros m Hr. apply Hlow. unfold xsize, xmapnr_perblk, BLKSZ in *. dlia. }
  pose proof (bread_ok d (first + i / xmapnr_perblk) Hd) as Hb. pose proof (proj1 (blk_bitmap _) Hb) as [Hbm Hlen].
  destruct (find_range_spec _ 0 (bm_bits (Bitmap (bread d (first + i / xmapnr_perblk)) xmapnr_perblk)) Hbm) as ([n bmp] & Hr & Hpost);
    [cbn; unfold xmapnr_perblk, BLKSZ; lia|lia|]. fold (bitmap_find (Bitmap (bread d (first + i / xmapnr_perblk)) xmapnr_perblk)) in Hr.
  pose proof (find_length _ _ _ Hr) as Hlen1. rewrite Hr. cbn [res_bind]. destruct Hpost as (Hok1 & Hbits & [(Hn & Hfree & Hbel & Hset)|(-> & -> & Hall)]).
  - left. cbn [bm_bits] in Hn. replace (n =? SIZE_MAX) with false by (unfold SIZE_MAX, xmapnr_perblk, BLKSZ in *; lia). cbn [negb].
    destruct (bitmap_set_spec bmp n Hok1) as (bmp2 & Hs & Hok2 & Hb2 & Hset2); [rewrite Hbits; cbn; lia|]. rewrite Hs. cbn [res_bind].
    do 2 eexists. split; [done|]. pose proof (set_length _ _ _ Hs) as Hlen2. cbn [bm_map] in Hlen1.
    split.
    + unfold xsize, xmapnr_perblk, BLKSZ in *. dlia.
    + by rewrite xbit_at by (done || lia).
    + intros m Hr1. destruct (decide (m < i)); [apply Hlow; lia|]. replace m with (i + (m - i)) by lia.
      rewrite xbit_at by (done || lia). apply Hbel. lia.
    + intros m Hr1. rewrite xbit_bput by done. case_decide as Hdm.
      * replace (bit (Bitmap (bm_map bmp2) xmapnr_perblk) (m - i)) with (bit bmp2 (m - i)) by done.
        rewrite Hset2, Hset by lia. replace m with (i + (m - i)) at 4 by lia. rewrite xbit_at by (done || lia).
        destruct (Z.eqb_spec n (m - i)), (Z.eqb_spec m (i + n)); try lia; by rewrite ?orb_true_r, ?orb_false_r.
      * destruct (Z.eqb_spec m (i + n)); [lia|]. by rewrite orb_false_r.
    + intros b Hnb. apply bread_bput_ne. intros ->. apply Hnb. unfold map_blk, xmapnr_perblk, BLKSZ in *. dlia.
    + apply bput_ok; [done|]. apply blk_bitmap. split; [|lia]. destruct Hok2 as [O1 O2 O3]. rewrite Hb2, Hbits in *. by split.
  - cbn [negb Z.eqb]. rewrite Z.eqb_refl. cbn [negb]. apply IH.
    + unfold xmapnr_perblk, BLKSZ in *. lia.
    + unfold xmapnr_perblk, BLKSZ in *. dlia.
    + intros m Hr1. destruct (decide (m < i)); [apply Hlow; lia|]. replace m with (i + (m - i)) by lia.
      rewrite xbit_at by (done || lia). apply Hall. cbn. lia.
    + unfold xmapnr_perblk, BLKSZ in *. dlia.
    + unfold xsize, xmapnr_perblk, BLKSZ in *. dlia.
Qed.

(** ** Zones *)

(** Where the parts of the file system lie. *)
Record sb_ok : Prop := {
  so_zones : 0 < sb_zones sb;
  so_inodes : 0 <= sb_inodes sb;
  so_imap : (sb_inodes sb + (xmapnr_perblk - 1)) / xmapnr_perblk <= imap_blocks sb;
  so_zmap : (sb_zones sb + (xmapnr_perblk - 1)) / xmapnr_perblk <= zmap_blocks sb;
  so_first : minix_inode_blk sb + (sb_inodes sb + (nodenr_perblk - 1)) / nodenr_perblk <= firstdatazone sb;
  so_imap0 : 0 <= imap_blocks sb;
  so_zmap0 : 0 <= zmap_blocks sb
}.

Context (Hsb : sb_ok).

#[local] Abbreviation fdz := (firstdatazone sb).

(** Zone [z] is not free; numbers the bitmap has no bit for are never free. *)
Definition zused (d : disk) (z : Z) : bool := (xsize (sb_zones sb) <=? z - fdz) || xbit d (minix_zmap sb) (z - fdz).

Definition zmap_blk (b : Z) : Prop := map_blk (minix_zmap sb) (sb_zones sb) b.

(** Every free bit stands for a zone with a 16-bit number. *)
Definition zmap_ok (d : disk) : Prop :=
  forall n, 0 <= n < xsize (sb_zones sb) -> xbit d (minix_zmap sb) n = false -> fdz + n < 65536.

(** At least [k] zones are free. *)
Definition nfree (d : disk) (k : nat) : Prop :=
  exists l, NoDup l /\ (k <= length l)%nat /\ forall n, n ∈ l -> 0 <= n < xsize (sb_zones sb) /\ xbit d (minix_zmap sb) n = false.

Lemma nfree_le d k k' : nfree d k -> (k' <= k)%nat -> nfree d k'.
Proof. intros (l & H1 & H2 & H3) Hle. exists l. split_and!; [done|lia|done]. Qed.

Lemma inode_blocks_pos : 0 <= (sb_inodes sb + (nodenr_perblk - 1)) / nodenr_perblk.
Proof. pose proof (so_inodes Hsb). change nodenr_perblk with 32. apply Z.div_pos; lia. Qed.

Lemma zmap_below b : zmap_blk b -> 2 <= b < fdz.
Proof.
  unfold zmap_blk, map_blk. pose proof inode_blocks_pos. destruct Hsb. unfold minix_inode_blk, minix_zmap in *. intros. lia.
Qed.

Lemma fdz_pos : 2 <= fdz.
Proof. pose proof inode_blocks_pos. destruct Hsb. unfold minix_inode_blk in *. lia. Qed.

(** A zone was taken. *)
Record ztaken (d d' : disk) (z : Z) : Prop := {
  zt_range : fdz <= z < 65536;
  zt_free : zused d z = false;
  zt_used : forall c, fdz <= c -> zused d' c = zused d c || (c =? z);
  zt_other : blocks_but d d' zmap_blk;
  zt_disk : disk_ok d';
  zt_map : zmap_ok d'
}.

Lemma zalloc_ok d k : disk_ok d -> zmap_ok d -> nfree d (S k) ->
  exists z d', minix_zalloc sb d = Ok (z, d') /\ ztaken d d' z /\ nfree d' k.
Proof.
  intros Hd Hz (l & Hnd & Hk & Hl). unfold minix_zalloc.
  assert (exists n, n ∈ l) as [n0 Hn0] by (destruct l as [|n0 l]; [cbn in Hk; lia|exists n0; left]).
  destruct (xalloc_loop_ok (minix_zmap sb) (sb_zones sb) d (map_fuel (sb_zones sb)) Hd 0) as [(n & d' & E & T)|(_ & Hall)].
  - lia.
  - done.
  - intros. lia.
  - unfold map_fuel. rewrite Z.div_0_l by (unfold xmapnr_perblk, BLKSZ; lia). pose proof (so_zones Hsb). unfold xmapnr_perblk, BLKSZ. dlia.
  - pose proof (so_zones Hsb). unfold xsize, xmapnr_perblk, BLKSZ. dlia.
  - rewrite E. cbn [res_bind]. destruct T as [T1 T2 T3 T4 T5 T6]. pose proof (Hz n T1 T2) as Hlt.
    pose proof fdz_pos as Hf.
    rewrite wrap_small by lia. exists (fdz + n), d'. split; [done|]. split.
    + split; [lia|unfold zused; replace (fdz + n - fdz) with n by lia; by rewrite T2, (proj2 (Z.leb_gt _ _)) by lia| |done|done|].
      * intros c Hc. unfold zused. rewrite T4, <- orb_assoc by lia. do 2 f_equal. destruct (Z.eqb_spec (c - fdz) n), (Z.eqb_spec c (fdz + n)); lia.
      * intros m Hm. rewrite T4 by lia. intros [Hb _]%orb_false_iff. by apply Hz.
    + exists (filter (fun m => m <> n) l). split_and!; [by apply NoDup_filter| |].
      * pose proof (length_filter_ne l n Hnd). lia.
      * intros m [Hne Hin]%list_elem_of_filter. destruct (Hl m Hin) as [Hr Hb]. split; [done|]. rewrite T4 by lia. rewrite Hb.
        by destruct (Z.eqb_spec m n).
  - exfalso. destruct (Hl n0 Hn0) as [Hr Hb]. by rewrite Hall in Hb.
Qed.


(** ** The tables of a file *)

(** Entry [j] of the table in block [b]. *)
Definition ent (d : disk) (b : Z) (j : nat) : Z := w16 (bread d b) (2 * j).

Definition span (lv : nat) : Z := 512 ^ Z.of_nat lv.

Lemma span_S lv : span (S lv) = 512 * span lv.
Proof. unfold span. rewrite Nat2Z.inj_succ, Z.pow_succ_r by lia. done. Qed.

Lemma span_pos lv : 0 < span lv.
Proof. unfold span. apply Z.pow_pos_nonneg; lia. Qed.

Lemma path_eq idx n : minix_zidx_path idx (S n) = idx / span n mod 512.
Proof.
  unfold minix_zidx_path. replace (S n - 1)%nat with n by lia. change (Z.shiftl 1 9 - 1) with (Z.ones 9). rewrite Z.land_ones by lia.
  rewrite Z.shiftr_div_pow2 by lia. unfold span. rewrite Z.mul_comm, Z.pow_mul_r by lia. done.
Qed.

(** The data block for an index below the table [b]. *)
Fixpoint zfind (d : disk) (b : Z) (lv : nat) (idx : Z) : option Z :=
  match lv with
  | O => Some b
  | S n =>
      let z := ent d b (Z.to_nat (idx / span n mod 512)) in
      if z =? 0 then None else zfind d z n idx
  end.

Lemma ent_ld d b j : disk_ok d -> 0 <= j < 512 -> ld16 (bread d b) (2 * j) = Ok (ent d b (Z.to_nat j)).
Proof.
  intros Hd Hj. pose proof (bk_len _ (bread_ok d b Hd)) as Hl. rewrite ld16_w16 by lia. unfold ent. do 2 f_equal. lia.
Qed.

Lemma ent_range d b j : disk_ok d -> 0 <= ent d b j < 65536.
Proof. intros Hd. apply w16_range. by apply bk_bytes, bread_ok. Qed.

Lemma zget_indirect_find d lv idx : disk_ok d -> forall b, minix_zget_indirect d b lv idx = Ok (zfind d b lv idx).
Proof.
  intros Hd. induction lv as [|n IH]; intros b; cbn [minix_zget_indirect zfind]; [done|].
  rewrite path_eq, ent_ld by (done || apply Z.mod_pos_bound; lia). cbn [res_bind]. by destruct (_ =? 0).
Qed.

Lemma zfind_mod d lv idx : forall b n, (lv <= n)%nat -> zfind d b lv (idx mod span n) = zfind d b lv idx.
Proof.
  induction lv as [|lv IH]; intros b n Hn; cbn [zfind]; [done|].
  assert (idx mod span n / span lv mod 512 = idx / span lv mod 512) as ->.
  { assert (span n = span lv * (512 * span (n - S lv))) as ->.
    { unfold span. replace (Z.of_nat n) with (Z.of_nat lv + (1 + Z.of_nat (n - S lv))) by lia. rewrite !Z.pow_add_r by lia. lia. }
    pose proof (span_pos lv). pose proof (span_pos (n - S lv)). rewrite Z.rem_mul_r by lia.
    rewrite (Z.mul_comm (span lv)), Z.div_add, (Z.div_small (idx mod _)) by (lia || apply Z.mod_pos_bound; lia).
    rewrite Z.add_0_l. apply Z.mod_mod_divide. by exists (span (n - S lv)); lia. }
  destruct (_ =? 0); [done|]. apply IH. lia.
Qed.

(** [X] lists the blocks of the tree below block [b]; at level 0 that is a data block. *)
Fixpoint towns (d : disk) (lv : nat) (b : Z) (X : list Z) : Prop :=
  match lv with
  | O => X = [b]
  | S n => exists Xs, X = b :: concat Xs /\ length Xs = 512%nat /\
      forall j Xj, Xs !! j = Some Xj -> if ent d b j =? 0 then Xj = [] else towns d n (ent d b j) Xj
  end.

Lemma towns_self d lv b X : towns d lv b X -> b ∈ X.
Proof. destruct lv; [intros ->; left|intros (Xs & -> & _); left]. Qed.

(** Blocks outside the tree do not matter. *)
Lemma towns_frame d d' lv : forall b X, towns d lv b X -> (forall c, c ∈ X -> bread d' c = bread d c) ->
  towns d' lv b X /\ forall idx, zfind d' b lv idx = zfind d b lv idx.
Proof.
  induction lv as [|n IH]; intros b X HX Hf; [done|]. destruct HX as (Xs & -> & Hl & Hch).
  assert (forall j, ent d' b j = ent d b j) as He by (intros j; unfold ent; by rewrite Hf by left).
  assert (forall j Xj, Xs !! j = Some Xj -> ent d b j <> 0 ->
    towns d' n (ent d b j) Xj /\ forall idx, zfind d' (ent d b j) n idx = zfind d (ent d b j) n idx) as Hsub.
  { intros j Xj HXj Hz. specialize (Hch j Xj HXj). rewrite (proj2 (Z.eqb_neq _ _) Hz) in Hch. apply IH; [done|].
    intros c Hc. apply Hf. right. by eapply concat_elem. }
  split.
  - exists Xs. split_and!; [done|done|]. intros j Xj HXj. rewrite He. specialize (Hch j Xj HXj).
    destruct (Z.eqb_spec (ent d b j) 0); [done|]. by apply Hsub.
  - intros idx. cbn [zfind]. rewrite He. destruct (Z.eqb_spec (ent d b (Z.to_nat (idx / span n mod 512))) 0) as [|Hz]; [done|].
    destruct (lookup_lt_is_Some_2 Xs (Z.to_nat (idx / span n mod 512))) as [Xj HXj].
    { pose proof (Z.mod_pos_bound (idx / span n) 512). lia. }
    by apply (Hsub _ Xj).
Qed.

(** The data blocks are leaves of the tree. *)
Lemma zfind_in d lv idx z : forall b X, towns d lv b X -> zfind d b lv idx = Some z -> z ∈ X.
Proof.
  induction lv as [|n IH]; intros b X HX Hz.
  - cbn in Hz. injection Hz as <-. rewrite HX. left.
  - destruct HX as (Xs & -> & Hl & Hch). cbn [zfind] in Hz. destruct (Z.eqb_spec (ent d b (Z.to_nat (idx / span n mod 512))) 0) as [|Hne]; [done|].
    destruct (lookup_lt_is_Some_2 Xs (Z.to_nat (idx / span n mod 512))) as [Xj HXj].
    { pose proof (Z.mod_pos_bound (idx / span n) 512). lia. }
    specialize (Hch _ _ HXj). rewrite (proj2 (Z.eqb_neq _ _) Hne) in Hch. right. eapply concat_elem; [done|]. by eapply IH.
Qed.

Lemma nth_zeros n k : nth k (replicate n 0) 0 = 0.
Proof. revert k. induction n as [|n IH]; intros [|k]; cbn; done || apply IH. Qed.

Lemma zero_ent d b j : bread d b = zero_blk -> ent d b j = 0.
Proof. intros E. unfold ent, w16. rewrite E. unfold zero_blk. by rewrite !nth_zeros. Qed.

Lemma zero_towns d n b : bread d b = zero_blk -> towns d n b [b].
Proof.
  intros E. destruct n as [|n]; [done|]. exists (replicate 512 []). split_and!; [|done|].
  - reflexivity.
  - intros j Xj HXj. rewrite zero_ent by done. cbn. by apply lookup_replicate in HXj as [-> _].
Qed.

(** ** One more block *)

Definition hole (d : disk) (b : Z) (lv : nat) (h : Z) : Prop :=
  0 <= h < span lv /\ zfind d b lv h = None /\ forall i, 0 <= i < h -> is_Some (zfind d b lv i).

(** The zones of a tree are in use and have 16-bit numbers. *)
Definition zones_used (d : disk) (X : list Z) : Prop := forall c, c ∈ X -> fdz <= c < 65536 /\ zused d c = true.

(** The tree grew by the data block [new] at index [h]. *)
Record zgrown (d d' : disk) (lv : nat) (b : Z) (X X' : list Z) (h new : Z) : Prop := {
  zg_tree : towns d' lv b X';
  zg_nodup : NoDup X';
  zg_at : zfind d' b lv h = Some new;
  zg_else : forall i, 0 <= i < span lv -> i <> h -> zfind d' b lv i = zfind d b lv i;
  zg_data : forall i z, zfind d b lv i = Some z -> bread d' z = bread d z;
  zg_other : blocks_but d d' (fun c => zmap_blk c \/ c ∈ X');
  zg_old : forall c, c ∈ X -> c ∈ X';
  zg_new : forall c, c ∈ X' -> c ∈ X \/ (fdz <= c < 65536 /\ zused d c = false);
  zg_fresh : fdz <= new < 65536 /\ zused d new = false /\ new ∈ X';
  zg_used : forall c, fdz <= c -> zused d' c = zused d c || bool_decide (c ∈ X');
  zg_disk : disk_ok d';
  zg_map : zmap_ok d'
}.

Definition extends (lv : nat) : Prop := forall d b X k,
  disk_ok d -> zmap_ok d -> towns d lv b X -> NoDup X -> zones_used d X -> nfree d (lv + k) ->
  (exists h new X' d', minix_zext_indirect sb lv d b 1 = Ok (1, d') /\ hole d b lv h /\ zgrown d d' lv b X X' h new /\ nfree d' k) \/
  (minix_zext_indirect sb lv d b 1 = Ok (0, d) /\ forall i, 0 <= i < span lv -> is_Some (zfind d b lv i)).

(** Replacing one part of a concatenation. *)
Lemma concat_split (Xs : list (list Z)) i Xi : Xs !! i = Some Xi -> exists A B,
  concat Xs = A ++ Xi ++ B /\ (forall Y, concat (<[i := Y]> Xs) = A ++ Y ++ B) /\
  (forall j Xj c, j <> i -> Xs !! j = Some Xj -> c ∈ Xj -> c ∈ A \/ c ∈ B).
Proof.
  intros Hi. exists (concat (take i Xs)), (concat (drop (S i) Xs)). split_and!.
  - rewrite <- (take_drop_middle _ _ _ Hi) at 1. by rewrite concat_app.
  - intros Y. rewrite insert_take_drop by (by eapply lookup_lt_Some). by rewrite concat_app.
  - intros j Xj c Hne Hj Hc. destruct (decide (j < i)%nat).
    + left. eapply concat_elem; [|done]. by rewrite lookup_take_lt.
    + right. eapply (concat_elem _ (j - S i)); [|done]. rewrite lookup_drop. by replace (S i + (j - S i))%nat with j by lia.
Qed.

Lemma nodup_replace (A B Xi Y : list Z) : NoDup (A ++ Xi ++ B) -> NoDup Y ->
  (forall c, c ∈ Y -> c ∈ Xi \/ c ∉ A ++ Xi ++ B) -> NoDup (A ++ Y ++ B).
Proof.
  intros (HA & HAX & (HX & HXB & HB)%NoDup_app)%NoDup_app HY Hc. apply NoDup_app. split_and!; [done| |].
  - intros x Hx [Hy|Hb]%elem_of_app; [|apply (HAX x Hx); set_solver].
    destruct (Hc x Hy) as [Hxi|Hn]; [apply (HAX x Hx); set_solver|apply Hn; set_solver].
  - apply NoDup_app. split_and!; [done| |done]. intros x Hy Hb. destruct (Hc x Hy) as [Hxi|Hn]; [by apply (HXB x Hxi)|apply Hn; set_solver].
Qed.

Lemma sub_index (i : nat) n h : (i < 512)%nat -> 0 <= h < span n ->
  Z.to_nat ((Z.of_nat i * span n + h) / span n mod 512) = i /\ (Z.of_nat i * span n + h) mod span n = h /\ 0 <= Z.of_nat i * span n + h < span (S n).
Proof.
  intros Hi Hh. pose proof (span_pos n). rewrite span_S. split_and!; [| |nia|nia].
  - rewrite Z.div_add_l, Z.div_small, Z.add_0_r, Z.mod_small by lia. lia.
  - rewrite Z.add_comm, Z.mod_add by lia. by apply Z.mod_small.
Qed.

Lemma index_sub n idx : 0 <= idx < span (S n) ->
  idx = Z.of_nat (Z.to_nat (idx / span n mod 512)) * span n + idx mod span n /\ 0 <= idx mod span n < span n /\ (Z.to_nat (idx / span n mod 512) < 512)%nat.
Proof.
  intros Hi. pose proof (span_pos n) as Hs. rewrite span_S in Hi. pose proof (Z.mod_pos_bound idx (span n) Hs).
  assert (0 <= idx / span n < 512) as Hq by (split; [apply Z.div_pos; lia|apply Z.div_lt_upper_bound; lia]).
  rewrite Z.mod_small by lia. rewrite Z2Nat.id by lia. split_and!; [|lia|lia|lia]. pose proof (Z.div_mod idx (span n)). lia.
Qed.

(** The block of an index through the entry of the top table. *)
Lemma zfind_sub d b n (i : nat) h : (i < 512)%nat -> 0 <= h < span n ->
  zfind d b (S n) (Z.of_nat i * span n + h) = if ent d b i =? 0 then None else zfind d (ent d b i) n h.
Proof.
  intros Hi Hh. cbn [zfind]. destruct (sub_index i n h Hi Hh) as (-> & Hm & _). destruct (_ =? 0); [done|].
  rewrite <- (zfind_mod d n (Z.of_nat i * span n + h) _ n (le_n n)). by rewrite Hm.
Qed.

(** The children of a table. *)
Definition kids (d : disk) (n : nat) (b : Z) (Xs : list (list Z)) : Prop :=
  length Xs = 512%nat /\ forall j Xj, Xs !! j = Some Xj -> if ent d b j =? 0 then Xj = [] else towns d n (ent d b j) Xj.

Lemma kids_at d n b Xs i Xi : kids d n b Xs -> Xs !! i = Some Xi -> ent d b i <> 0 -> towns d n (ent d b i) Xi.
Proof. intros [_ Hch] Hi Hz. specialize (Hch i Xi Hi). by rewrite (proj2 (Z.eqb_neq _ _) Hz) in Hch. Qed.

Lemma kids_get d n b Xs idx : kids d n b Xs -> exists Xj, Xs !! Z.to_nat (idx / span n mod 512) = Some Xj.
Proof.
  intros [Hl _]. destruct (lookup_lt_is_Some_2 Xs (Z.to_nat (idx / span n mod 512))) as [Xj Hj]; [|by exists Xj].
  pose proof (Z.mod_pos_bound (idx / span n) 512). lia.
Qed.

(** Membership in a list put together from others. *)
Ltac mem := rewrite ?elem_of_cons, ?elem_of_app in *; tauto.

(** Growth of a subtree is growth of the tree. *)
Lemma sub_grown d d' n b Xs i Xi Xi' h new :
  kids d n b Xs -> NoDup (b :: concat Xs) -> zones_used d (b :: concat Xs) -> Xs !! i = Some Xi -> ent d b i <> 0 ->
  0 <= h < span n -> zgrown d d' n (ent d b i) Xi Xi' h new ->
  zgrown d d' (S n) b (b :: concat Xs) (b :: concat (<[i := Xi']> Xs)) (Z.of_nat i * span n + h) new.
Proof.
  intros Hk Hnd Hu Hi Hz Hh [G1 G2 G3 G4 G5 G6 G7 G8 G9 G10 G11 G12].
  destruct (concat_split Xs i Xi Hi) as (A & B & EX & EY & HAB). specialize (EY Xi').
  pose proof (lookup_lt_Some _ _ _ Hi) as Hlt. destruct Hk as [Hl Hch]. rewrite Hl in Hlt. rewrite EX in Hnd, Hu.
  apply NoDup_cons in Hnd as [Hb Hnd].
  assert (forall c, c ∈ b :: A ++ B -> c ∉ Xi) as Hout.
  { apply NoDup_app in Hnd as (_ & N1 & (_ & N2 & _)%NoDup_app). intros c [->|[Hc|Hc]%elem_of_app]%elem_of_cons Hx; [mem| |by apply (N2 c)].
    apply (N1 c Hc). mem. }
  assert (forall c, c ∈ b :: A ++ B -> bread d' c = bread d c) as Hsame.
  { intros c Hc. assert (c ∈ b :: A ++ Xi ++ B) as Hc' by mem. destruct (Hu c Hc') as [Hr Huc]. apply G6. intros [Hm|Hx].
    - apply zmap_below in Hm. lia.
    - destruct (G8 c Hx) as [Hxi|[_ Hf]]; [by apply (Hout c)|congruence]. }
  assert (forall j, ent d' b j = ent d b j) as He by (intros j; unfold ent; by rewrite Hsame by left).
  assert (forall j Xj, j <> i -> Xs !! j = Some Xj -> ent d b j <> 0 ->
    towns d' n (ent d b j) Xj /\ forall x, zfind d' (ent d b j) n x = zfind d (ent d b j) n x) as Hsib.
  { intros j Xj Hne HXj Hzj. apply towns_frame; [by eapply kids_at|]. intros c Hc. apply Hsame.
    destruct (HAB j Xj c Hne HXj Hc); mem. }
  split; rewrite ?EX, ?EY.
  - exists (<[i := Xi']> Xs). rewrite EY, length_insert. split_and!; [done|done|]. intros j Xj HXj. rewrite He.
    destruct (decide (j = i)) as [->|Hne].
    + rewrite list_lookup_insert_eq in HXj by lia. injection HXj as <-. by rewrite (proj2 (Z.eqb_neq _ _) Hz).
    + rewrite list_lookup_insert_ne in HXj by done. specialize (Hch j Xj HXj). destruct (Z.eqb_spec (ent d b j) 0); [done|]. by apply Hsib.
  - apply NoDup_cons. split; [|eapply nodup_replace; [exact Hnd|done|]].
    + intros [Ha|[Hx|Hbb]%elem_of_app]%elem_of_app; [mem| |mem]. destruct (G8 b Hx) as [Hxi|[_ Hf]]; [mem|].
      destruct (Hu b ltac:(left)) as [_ Hub]. congruence.
    + intros c Hc. destruct (G8 c Hc) as [Hxi|[_ Hf]]; [by left|right]. intros Hin. destruct (Hu c ltac:(by right)) as [_ Huc]. congruence.
  - rewrite zfind_sub by lia. rewrite He. by rewrite (proj2 (Z.eqb_neq _ _) Hz).
  - intros x Hx Hne. destruct (index_sub n x Hx) as (Ex & Hr & Hj). set (j := Z.to_nat (x / span n mod 512)) in *. rewrite Ex, !zfind_sub by lia. rewrite He.
    destruct (Z.eqb_spec (ent d b j) 0) as [|Hzj]; [done|]. destruct (decide (j = i)) as [Eji|Hji].
    + rewrite Eji. apply G4; [done|]. intros Eh. apply Hne. rewrite Ex, Eji, Eh. done.
    + destruct (lookup_lt_is_Some_2 Xs j) as [Xj HXj]; [lia|]. by apply (Hsib j Xj).
  - intros x z Hfx. cbn [zfind] in Hfx. set (j := Z.to_nat (x / span n mod 512)) in *. destruct (Z.eqb_spec (ent d b j) 0) as [|Hzj]; [done|].
    destruct (decide (j = i)) as [Eji|Hji]; [rewrite Eji in Hfx; by eapply G5|].
    destruct (lookup_lt_is_Some_2 Xs j) as [Xj HXj]; [pose proof (Z.mod_pos_bound (x / span n) 512); lia|]. apply Hsame.
    pose proof (zfind_in d n x z _ Xj ltac:(by specialize (Hch j Xj HXj); rewrite (proj2 (Z.eqb_neq _ _) Hzj) in Hch) Hfx) as Hin.
    destruct (HAB j Xj z Hji HXj Hin); mem.
  - intros c Hc. apply G6. intros [Hm|Hx]; apply Hc; [by left|right; mem].
  - intros c [->|Hc]%elem_of_cons; [left|]. apply elem_of_app in Hc as [Hc|[Hc|Hc]%elem_of_app]; [mem|specialize (G7 c Hc); mem|mem].
  - intros c [->|Hc]%elem_of_cons; [left; left|]. apply elem_of_app in Hc as [Hc|[Hc|Hc]%elem_of_app]; [mem| |mem].
    destruct (G8 c Hc) as [Hxi|Hf]; [left; mem|by right].
  - destruct G9 as (R1 & R2 & R3). split_and!; [lia|lia|done|mem].
  - intros c Hc. rewrite G10 by done. destruct (zused d c) eqn:Ec; [done|]. cbn [orb]. apply bool_decide_ext. split; [mem|].
    intros [->|[Hin|[Hin|Hin]%elem_of_app]%elem_of_app]%elem_of_cons; [|..|done|]; exfalso.
    + destruct (Hu b ltac:(left)) as [_ Hub]. congruence.
    + destruct (Hu c ltac:(mem)) as [_ Hub]. congruence.
    + destruct (Hu c ltac:(mem)) as [_ Hub]. congruence.
  - done.
  - done.
Qed.

Lemma span_big n idx : 0 <= idx < span (S n) -> idx / span n mod 512 = idx / span n.
Proof.
  intros Hi. pose proof (span_pos n) as Hs. rewrite span_S in Hi. apply Z.mod_small.
  split; [apply Z.div_pos; lia|apply Z.div_lt_upper_bound; lia].
Qed.

(** A zeroed zone [z] became entry [i] of table [b]. *)
Record linked (d d' : disk) (n : nat) (b : Z) (Xs : list (list Z)) (i : nat) (z : Z) : Prop := {
  lk_ent : forall j, ent d' b j = if decide (j = i) then z else ent d b j;
  lk_kids : kids d' n b (<[i := [z]]> Xs);
  lk_nodup : NoDup (b :: concat (<[i := [z]]> Xs));
  lk_zones : zones_used d' (b :: concat (<[i := [z]]> Xs));
  lk_other : blocks_but d d' (fun c => zmap_blk c \/ c = b \/ c = z);
  lk_zero : bread d' z = zero_blk;
  lk_used : forall c, fdz <= c -> zused d' c = zused d c || (c =? z);
  lk_fresh : fdz <= z < 65536 /\ zused d z = false;
  lk_elem : forall c, c ∈ b :: concat (<[i := [z]]> Xs) <-> c ∈ b :: concat Xs \/ c = z;
  lk_disk : disk_ok d';
  lk_map : zmap_ok d';
  lk_was : ent d b i = 0
}.

Lemma zused_frame d d' c : (forall m, zmap_blk m -> bread d' m = bread d m) -> fdz <= c -> zused d' c = zused d c.
Proof.
  intros Hf Hc. unfold zused. destruct (Z.leb_spec (xsize (sb_zones sb)) (c - fdz)) as [|Hlt]; [done|]. cbn [orb]. unfold xbit. rewrite Hf; [done|].
  unfold zmap_blk, map_blk, xsize, xmapnr_perblk, BLKSZ in *. dlia.
Qed.

Lemma zmap_frame d d' : (forall m, zmap_blk m -> bread d' m = bread d m) -> zmap_ok d -> zmap_ok d'.
Proof.
  intros Hf Hz n Hn. unfold xbit. rewrite Hf; [by apply Hz|]. unfold zmap_blk, map_blk, xsize, xmapnr_perblk, BLKSZ in *. dlia.
Qed.

Lemma nfree_frame d d' k : (forall m, zmap_blk m -> bread d' m = bread d m) -> nfree d k -> nfree d' k.
Proof.
  intros Hf (l & H1 & H2 & H3). exists l. split_and!; [done|done|]. intros n Hn. destruct (H3 n Hn) as [Hr Hb]. split; [done|].
  unfold xbit in *. rewrite Hf; [done|]. unfold zmap_blk, map_blk, xsize, xmapnr_perblk, BLKSZ in *. dlia.
Qed.

Lemma link_ok d d1 n b Xs i z k : (i < 512)%nat -> kids d n b Xs -> NoDup (b :: concat Xs) -> zones_used d (b :: concat Xs) ->
  ent d b i = 0 -> ztaken d d1 z -> nfree d1 k ->
  let d' := bput (bput d1 b (splice (bread d1 b) (2 * i) (le16 z))) z zero_blk in linked d d' n b Xs i z /\ nfree d' k.
Proof.
  intros Hi [Hl Hch] Hnd Hu Hz [T1 T2 T3 T4 T5 T6] Hk d'.
  destruct (lookup_lt_is_Some_2 Xs i) as [Xi HXi]; [lia|]. pose proof (Hch i Xi HXi) as Hnil. rewrite Hz in Hnil. cbn in Hnil. subst Xi.
  destruct (concat_split Xs i [] HXi) as (A & B & EX & EY & HAB). specialize (EY [z]). cbn [app] in EX, EY.
  assert (forall c, c ∈ b :: concat Xs -> fdz <= c /\ c <> z) as Hne.
  { intros c Hc. destruct (Hu c Hc) as [Hr Huc]. split; [lia|]. intros ->. congruence. }
  destruct (Hne b ltac:(left)) as [Hbr Hbz].
  assert (forall m, zmap_blk m -> bread d' m = bread d1 m) as Hzm.
  { intros m Hm%zmap_below. unfold d'. rewrite !bread_bput_ne by lia. done. }
  assert (bread d' b = splice (bread d b) (2 * i) (le16 z)) as Eb.
  { unfold d'. rewrite bread_bput_ne, bread_bput_eq by done. rewrite T4; [done|]. intros Hm%zmap_below. lia. }
  assert (blk_ok (splice (bread d1 b) (2 * i) (le16 z))) as Hbok.
  { apply splice_ok; [by apply bread_ok|cbn; lia|apply le16_ok]. }
  assert (blocks_but d d' (fun c => zmap_blk c \/ c = b \/ c = z)) as Hoth.
  { intros c Hc. unfold d'. rewrite !bread_bput_ne by tauto. apply T4. tauto. }
  assert (disk_ok d') as Hdok by (by repeat apply bput_ok; [..|apply zero_blk_ok]).
  assert (forall j, ent d' b j = if decide (j = i) then z else ent d b j) as He.
  { intros j. unfold ent. rewrite Eb. apply w16_splice; [|pose proof fdz_pos; lia].
    enough (length (bread d b) = 1024%nat) by lia. rewrite <- (T4 b) by (intros Hm%zmap_below; lia). exact (bk_len _ (bread_ok d1 b T5)). }
  assert (forall c, c ∈ b :: concat (<[i := [z]]> Xs) <-> c ∈ b :: concat Xs \/ c = z) as Hel.
  { intros c. rewrite EX, EY. rewrite !elem_of_cons, !elem_of_app, elem_of_cons. tauto. }
  assert (forall c, fdz <= c -> zused d' c = zused d c || (c =? z)) as Hus.
  { intros c Hc. rewrite (zused_frame d1 d') by done. by apply T3. }
  split; [split; try done|by apply (nfree_frame d1)].
  - split; [by rewrite length_insert|]. intros j Xj HXj. rewrite He. case_decide as Hji.
    + subst j. rewrite list_lookup_insert_eq in HXj by lia. injection HXj as <-. rewrite (proj2 (Z.eqb_neq z 0)) by (pose proof fdz_pos; lia).
      apply zero_towns. unfold d'. apply bread_bput_eq.
    + rewrite list_lookup_insert_ne in HXj by done. specialize (Hch j Xj HXj). destruct (Z.eqb_spec (ent d b j) 0) as [|Hzj]; [done|].
      apply (towns_frame d d'); [done|]. intros c Hc. assert (c ∈ concat Xs) as Hin by (by eapply concat_elem).
      destruct (Hne c ltac:(by right)) as [Hcr Hcz]. apply Hoth. intros [Hm%zmap_below|[Ec|Ec]]; [lia|subst c|done].
      apply NoDup_cons in Hnd as [Hnb _]. done.
  - rewrite EX in Hnd, Hne. rewrite EY. apply NoDup_cons in Hnd as [Hnb Hnd]. apply NoDup_cons. split.
    + rewrite elem_of_app, elem_of_cons in *. tauto.
    + eapply (nodup_replace A B [] [z]); [done|by apply NoDup_singleton|]. intros c ->%list_elem_of_singleton. right. intros Hin. by destruct (Hne z ltac:(by right)).
  - intros c [Hc| ->]%Hel.
    + destruct (Hu c Hc) as [Hr Huc]. split; [done|]. rewrite Hus by lia. by rewrite Huc.
    + split; [lia|]. rewrite Hus by lia. by rewrite Z.eqb_refl, orb_true_r.
  - unfold d'. apply bread_bput_eq.
  - by apply (zmap_frame d1).
Qed.

Lemma linked_keeps d d' n b Xs i z c : NoDup (b :: concat Xs) -> zones_used d (b :: concat Xs) -> linked d d' n b Xs i z ->
  c ∈ concat Xs -> bread d' c = bread d c.
Proof.
  intros [Hnb _]%NoDup_cons Hu L Hc. destruct (Hu c ltac:(by right)) as [Hr Huc]. apply (lk_other _ _ _ _ _ _ _ L).
  intros [Hm%zmap_below|[Ec|Ec]]; [lia|congruence|]. destruct (lk_fresh _ _ _ _ _ _ _ L) as [_ Hf]. congruence.
Qed.

Lemma kids_found d n b Xs idx c : kids d n b Xs -> zfind d b (S n) idx = Some c -> c ∈ concat Xs.
Proof.
  intros Hk Hf. destruct (kids_get d n b Xs idx Hk) as [Xj HXj]. cbn [zfind] in Hf.
  destruct (Z.eqb_spec (ent d b (Z.to_nat (idx / span n mod 512))) 0) as [|Hz]; [done|].
  eapply concat_elem; [done|]. eapply zfind_in; [by eapply kids_at|done].
Qed.

Lemma linked_find d d' n b Xs i z idx : kids d n b Xs -> NoDup (b :: concat Xs) -> zones_used d (b :: concat Xs) -> linked d d' n b Xs i z ->
  Z.to_nat (idx / span n mod 512) <> i -> zfind d' b (S n) idx = zfind d b (S n) idx.
Proof.
  intros Hk Hnd Hu L Hne. destruct (kids_get d n b Xs idx Hk) as [Xj HXj]. cbn [zfind]. rewrite (lk_ent _ _ _ _ _ _ _ L), decide_False by done.
  destruct (Z.eqb_spec (ent d b (Z.to_nat (idx / span n mod 512))) 0) as [|Hz]; [done|].
  apply (towns_frame d d' n _ Xj); [by eapply kids_at|]. intros c Hc. eapply linked_keeps; [done|done|done|by eapply concat_elem].
Qed.

(** The index [h] whose entry of the table is [i]. *)
Lemma table_index n idx i : 0 <= idx < span (S n) -> Z.to_nat (idx / span n mod 512) = i -> Z.of_nat i = idx / span n.
Proof. intros Hr <-. rewrite span_big by done. pose proof (span_pos n). rewrite Z2Nat.id; [done|]. apply Z.div_pos; lia. Qed.

Lemma linked_last d d' b Xs i z : (i < 512)%nat -> kids d 0 b Xs -> NoDup (b :: concat Xs) -> zones_used d (b :: concat Xs) ->
  linked d d' 0 b Xs i z -> zgrown d d' 1 b (b :: concat Xs) (b :: concat (<[i := [z]]> Xs)) (Z.of_nat i) z.
Proof.
  intros Hi Hk Hnd Hu L. pose proof L as [L1 L2 L3 L4 L5 L6 L7 [Lr Lf] L8 L9 L10 L11].
  assert (z <> 0) as Hz0 by (pose proof fdz_pos; lia).
  split; try done.
  - exists (<[i := [z]]> Xs). destruct L2. done.
  - pose proof (zfind_sub d' b 0 i 0 Hi ltac:(change (span 0) with 1; lia)) as E. change (span 0) with 1 in E. rewrite Z.mul_1_r, Z.add_0_r in E. rewrite E, L1, decide_True by done.
    by rewrite (proj2 (Z.eqb_neq _ _) Hz0).
  - intros x Hx Hne. eapply linked_find; [done|done|done|done|]. intros Ei. apply Hne. apply (table_index 0) in Ei; [|done].
    change (span 0) with 1 in Ei. rewrite Z.div_1_r in Ei. congruence.
  - intros x c Hf. apply (linked_keeps d d' 0 b Xs i z c Hnd Hu L). by eapply kids_found.
  - intros c Hc. apply L5. intros [Hm|[-> | ->]]; apply Hc; [by left|right; left|right; apply L8; by right].
  - intros c Hc. apply L8. by left.
  - intros c [Hc| ->]%L8; [by left|by right].
  - split_and!; [lia|lia|done|]. apply L8. by right.
  - intros c Hc. rewrite L7 by done. destruct (zused d c) eqn:Ec; [done|]. cbn [orb]. symmetry. destruct (Z.eqb_spec c z) as [->|Hcz].
    + apply bool_decide_true, L8. by right.
    + apply bool_decide_false. intros [Hin|]%L8; [|done]. destruct (Hu c Hin) as [_ Huc]. congruence.
Qed.

(** Linking a table and growing the tree below it. *)
Lemma linked_then d d1 d' m b Xs X' i z new : (i < 512)%nat -> kids d (S m) b Xs -> NoDup (b :: concat Xs) -> zones_used d (b :: concat Xs) ->
  linked d d1 (S m) b Xs i z -> zgrown d1 d' (S (S m)) b (b :: concat (<[i := [z]]> Xs)) X' (Z.of_nat i * span (S m)) new ->
  zgrown d d' (S (S m)) b (b :: concat Xs) X' (Z.of_nat i * span (S m)) new.
Proof.
  intros Hi Hk Hnd Hu L [G1 G2 G3 G4 G5 G6 G7 G8 (G9 & G9f & G9x) G10 G11 G12].
  pose proof L as [L1 L2 L3 L4 L5 L6 L7 [Lr Lf] L8 L9 L10 L11].
  assert (forall x, 0 <= x < span (S (S m)) -> zfind d1 b (S (S m)) x = zfind d b (S (S m)) x) as Hsame.
  { intros x Hx. destruct (index_sub (S m) x Hx) as (Ex & Hr & Hj). destruct (decide (Z.to_nat (x / span (S m) mod 512) = i)) as [Ei|]; [|by eapply linked_find].
    rewrite Ei in Ex. rewrite Ex, !zfind_sub, L1, decide_True by done.
    rewrite L11, (proj2 (Z.eqb_neq z 0)) by (pose proof fdz_pos; lia). cbn [Z.eqb zfind]. by rewrite zero_ent. }
  assert (forall c, c ∈ b :: concat Xs -> c ∈ b :: concat (<[i := [z]]> Xs)) as Hold by (intros c Hc; apply L8; by left).
  assert (forall c, fdz <= c -> zused d1 c = false -> zused d c = false) as Hfr.
  { intros c Hc. rewrite L7 by done. by intros [? _]%orb_false_iff. }
  split; try done.
  - intros x Hx Hne. rewrite <- Hsame by done. by apply G4.
  - intros x c Hf. rewrite <- (linked_keeps d d1 (S m) b Xs i z c Hnd Hu L) by (by eapply kids_found). apply (G5 (x mod span (S (S m)))).
    rewrite Hsame by (apply Z.mod_pos_bound, span_pos). by rewrite zfind_mod.
  - intros c Hc. rewrite G6 by done. apply L5. intros [Hm|[-> | ->]]; apply Hc; [by left|right..].
    + apply G7. left.
    + apply G7, L8. by right.
  - intros c Hc. by apply G7, Hold.
  - intros c Hc. destruct (G8 c Hc) as [[Hx| ->]%L8|[Hr Hf]]; [by left|by right|right]. split; [done|]. apply Hfr; [lia|done].
  - split_and!; [lia|lia|apply Hfr; [lia|done]|done].
  - intros c Hc. rewrite G10, L7 by done. destruct (zused d c) eqn:Ec; [done|]. cbn [orb]. destruct (Z.eqb_spec c z) as [->|]; [|done].
    cbn [orb]. symmetry. apply bool_decide_true, G7, L8. by right.
Qed.

(** ** The loop over the entries of a table *)

Definition full_to (d : disk) (b : Z) (n : nat) (i : Z) : Prop := forall idx, 0 <= idx < i * span n -> is_Some (zfind d b (S n) idx).

Lemma zext_entries_done down last k i d b : zext_entries sb down last k i d b 0 = Ok (false, 0, d).
Proof. by destruct k. Qed.

Lemma full_step d b n (i : nat) : (i < 512)%nat -> full_to d b n (Z.of_nat i) -> ent d b i <> 0 ->
  (forall x, 0 <= x < span n -> is_Some (zfind d (ent d b i) n x)) -> full_to d b n (Z.of_nat i + 1).
Proof.
  intros Hi Hf Hz Hs idx Hx. destruct (decide (idx < Z.of_nat i * span n)) as [|Hge]; [apply Hf; lia|].
  replace idx with (Z.of_nat i * span n + (idx - Z.of_nat i * span n)) by lia. rewrite zfind_sub by (done || lia).
  rewrite (proj2 (Z.eqb_neq _ _) Hz). apply Hs. lia.
Qed.

(** The lowest hole of a subtree after full ones. *)
Lemma sub_hole d b n (i : nat) h : (i < 512)%nat -> full_to d b n (Z.of_nat i) ->
  (ent d b i = 0 /\ h = 0 \/ ent d b i <> 0 /\ hole d (ent d b i) n h) -> hole d b (S n) (Z.of_nat i * span n + h).
Proof.
  intros Hi Hf Hh. pose proof (span_pos n).
  assert (0 <= h < span n) as Hr by (destruct Hh as [[_ ->]|[_ [? _]]]; lia).
  destruct (sub_index i n h Hi Hr) as (_ & _ & Hb). split; [done|]. split.
  - rewrite zfind_sub by done. destruct Hh as [[-> _]|[Hz (_ & Hn & _)]]; [done|]. by rewrite (proj2 (Z.eqb_neq _ _) Hz).
  - intros x Hx. destruct (decide (x < Z.of_nat i * span n)) as [|Hge]; [apply Hf; lia|].
    destruct Hh as [[_ ->]|[Hz (_ & _ & Hl)]]; [lia|].
    replace x with (Z.of_nat i * span n + (x - Z.of_nat i * span n)) by lia. rewrite zfind_sub by (done || lia).
    rewrite (proj2 (Z.eqb_neq _ _) Hz). apply Hl. lia.
Qed.

(** A new entry. *)
Lemma entry_new d n b Xs (i : nat) k : (n <> O -> extends n) -> disk_ok d -> zmap_ok d ->
  kids d n b Xs -> NoDup (b :: concat Xs) -> zones_used d (b :: concat Xs) -> nfree d (S n + k) ->
  (i < 512)%nat -> full_to d b n (Z.of_nat i) -> ent d b i = 0 -> forall kk,
  exists new X' d', zext_entries sb (minix_zext_indirect sb n) (S n =? 1)%nat (S kk) (Z.of_nat i) d b 1 = Ok (false, 0, d') /\
    zgrown d d' (S n) b (b :: concat Xs) X' (Z.of_nat i * span n) new /\ nfree d' k.
Proof.
  intros IH Hd Hm Hk Hnd Hu Hn Hi Hf Hz kk. destruct (zalloc_ok d (n + k) Hd Hm Hn) as (z & d1 & Ez & T & Hn1).
  destruct (link_ok d d1 n b Xs i z (n + k) Hi Hk Hnd Hu Hz T Hn1) as [L Hn3].
  cbn [zext_entries]. rewrite (proj2 (Z.eqb_neq 1 0)) by lia. rewrite ent_ld, Nat2Z.id, Hz by (done || lia). cbn [res_bind Z.eqb]. rewrite Ez. cbn [res_bind].
  pose proof (zt_range _ _ _ T) as Hr. pose proof fdz_pos as Hfp.
  rewrite st_splice by (pose proof (bk_len _ (bread_ok d1 b (zt_disk _ _ _ T))); cbn [le16 length]; lia). cbn [res_bind].
  replace (Z.to_nat (2 * Z.of_nat i)) with (2 * i)%nat by lia. rewrite (proj2 (Z.eqb_neq z 0)) by lia. cbn [res_bind].
  set (d3 := bput _ z zero_blk) in *. destruct n as [|m].
  - cbn [Nat.eqb]. rewrite zext_entries_done. exists z, (b :: concat (<[i := [z]]> Xs)), d3. split; [done|]. split; [|done].
    change (span 0) with 1. rewrite Z.mul_1_r. by apply linked_last.
  - cbn [Nat.eqb]. pose proof L as [L1 L2 L3 L4 L5 L6 L7 L8 L9 L10 L11 L12].
    assert (zfind d3 z (S m) 0 = None) as Hnone by (cbn [zfind]; by rewrite zero_ent).
    assert (ent d3 b i = z) as Ei by (by rewrite L1, decide_True).
    destruct (IH ltac:(done) d3 z [z] k L10 L11 (zero_towns _ _ _ L6) (NoDup_singleton _)) as [(h & new & X' & d' & E & (Hhr & Hh & Hlow) & G & Hn')|[_ Hall]].
    + intros c ->%list_elem_of_singleton. apply L4. apply L9. by right.
    + done.
    + assert (h = 0) as ->. { destruct (decide (h = 0)) as [|Hne]; [done|]. destruct (Hlow 0 ltac:(lia)) as [y Hy]. congruence. }
      rewrite E. cbn [res_bind]. rewrite (proj2 (Z.leb_gt 1 0)) by lia. change (u32 (1 - 1)) with 0. rewrite zext_entries_done.
      assert (zgrown d3 d' (S m) (ent d3 b i) [z] X' 0 new) as G' by (by rewrite Ei). pose proof (sub_grown d3 d' (S m) b _ i [z] X' 0 new L2 L3 L4) as Hsg.
      do 3 eexists. split; [done|]. split; [|done]. eapply (linked_then d d3); [done..|]. rewrite <- (Z.add_0_r (Z.of_nat i * _)). pose proof (span_pos (S m)). apply Hsg; [|lia|lia|done].
      apply list_lookup_insert_eq. destruct Hk. lia.
    + exfalso. destruct (Hall 0) as [y Hy]; [pose proof (span_pos (S m)); lia|]. congruence.
Qed.

Lemma zext_entries_ok d n b Xs k : (n <> O -> extends n) -> disk_ok d -> zmap_ok d ->
  kids d n b Xs -> NoDup (b :: concat Xs) -> zones_used d (b :: concat Xs) -> nfree d (S n + k) ->
  forall kk i, (i + kk = 512)%nat -> full_to d b n (Z.of_nat i) ->
  (exists h new X' d', zext_entries sb (minix_zext_indirect sb n) (S n =? 1)%nat kk (Z.of_nat i) d b 1 = Ok (false, 0, d') /\
    hole d b (S n) h /\ zgrown d d' (S n) b (b :: concat Xs) X' h new /\ nfree d' k) \/
  (exists c, zext_entries sb (minix_zext_indirect sb n) (S n =? 1)%nat kk (Z.of_nat i) d b 1 = Ok (c, 1, d) /\ full_to d b n 512).
Proof.
  intros IH Hd Hm Hk Hnd Hu Hn. induction kk as [|kk IHk]; intros i Hi Hf.
  { right. exists false. split; [done|]. by replace 512 with (Z.of_nat i) by lia. }
  destruct (decide (ent d b i = 0)) as [Hz|Hz].
  { left. destruct (entry_new d n b Xs i k IH Hd Hm Hk Hnd Hu Hn ltac:(lia) Hf Hz kk) as (new & X' & d' & E & G & Hn').
    exists (Z.of_nat i * span n), new, X', d'. split_and!; [done| |done|done]. rewrite <- (Z.add_0_r (_ * _)). apply sub_hole; [lia|done|by left]. }
  specialize (IHk (S i) ltac:(lia)). replace (Z.of_nat (S i)) with (Z.of_nat i + 1) in IHk by lia.
  destruct (lookup_lt_is_Some_2 Xs i) as [Xi HXi]; [destruct Hk; lia|].
  pose proof (kids_at d n b Xs i Xi Hk HXi Hz) as Ht.
  cbn [zext_entries]. rewrite (proj2 (Z.eqb_neq 1 0)) by lia. rewrite ent_ld, Nat2Z.id by (done || lia). cbn [res_bind].
  rewrite (proj2 (Z.eqb_neq _ _) Hz). cbn [res_bind]. destruct n as [|m].
  { cbn [Nat.eqb]. apply IHk. apply full_step; [lia|done|done|]. intros x Hx. by eexists. }
  cbn [Nat.eqb]. destruct (concat_split Xs i Xi HXi) as (A & B & EX & _ & _).
  destruct (IH ltac:(done) d (ent d b i) Xi (1 + k)%nat Hd Hm Ht) as [(h & new & X' & d' & E & Hh & G & Hn')|[E Hall]].
  - apply NoDup_cons in Hnd as [_ Hnd]. rewrite EX in Hnd. apply NoDup_app in Hnd as (_ & _ & Hnd). by apply NoDup_app in Hnd as (? & _).
  - intros c Hc. apply Hu. right. by eapply concat_elem.
  - eapply nfree_le; [done|lia].
  - left. rewrite E. cbn [res_bind]. rewrite (proj2 (Z.leb_gt 1 0)) by lia. change (u32 (1 - 1)) with 0. rewrite zext_entries_done.
    exists (Z.of_nat i * span (S m) + h), new, (b :: concat (<[i := X']> Xs)), d'. split_and!; [done| | |eapply nfree_le; [done|lia]].
    + apply sub_hole; [lia|done|by right].
    + eapply sub_grown; [done..|by destruct Hh|done].
  - rewrite E. cbn [res_bind]. rewrite (proj2 (Z.leb_le 0 0)) by lia. change (u32 (1 + 0)) with 1.
    pose proof (full_step d b (S m) i ltac:(lia) Hf Hz Hall) as Hf'. destruct (Z.eqb_spec (Z.of_nat i) (M_ENT - 1)) as [Ei|Ei].
    + right. exists true. split; [done|]. change (M_ENT - 1) with 511 in Ei. by replace 512 with (Z.of_nat i + 1) by lia.
    + apply IHk, Hf'.
Qed.

(** [minix_zext_indirect] asked for one block fills the lowest hole below the table or, when
    there is none, changes nothing. *)
Lemma extends_step n : (n <> O -> extends n) -> extends (S n).
Proof.
  intros IH d b X k Hd Hm (Xs & -> & HX) Hnd Hu Hn. cbn [minix_zext_indirect]. change (Z.to_nat M_ENT) with 512%nat.
  destruct (zext_entries_ok d n b Xs k IH Hd Hm HX Hnd Hu Hn 512 0) as [(h & new & X' & d' & E & Hh & G & Hn')|(c & E & Hf)]; [done| |left|right].
  - intros x Hx. lia.
  - change (Z.of_nat 0) with 0 in E. rewrite E. cbn [res_bind]. exists h, new, X', d'. done.
  - change (Z.of_nat 0) with 0 in E. rewrite E. cbn [res_bind]. split; [by destruct c|]. intros x Hx. apply Hf. rewrite span_S in Hx. lia.
Qed.

Lemma extends_all n : extends (S n).
Proof. induction n as [|n IH]; by apply extends_step. Qed.


(** ** The zones of a file *)

(** Block 0, which the code reads when a file has no table yet, holds no entries. *)
Definition boot_zero (d : disk) : Prop := bread d 0 = zero_blk.

(** Slot [j] of the inode covers [span (slot_lv j)] blocks from [slot_base j] on. *)
Definition slot_lv (j : nat) : nat := j - 6.

Definition slot_base (j : nat) : Z := if (j <=? 7)%nat then Z.of_nat j else 519.

Definition slot_of (idx : Z) : nat := if idx <? 7 then Z.to_nat idx else if idx <? 519 then 7 else 8.

(** The data block of block [idx] of a file. *)
Definition fzone (d : disk) (zone : list Z) (idx : Z) : option Z :=
  let z := nth (slot_of idx) zone 0 in
  if z =? 0 then None else zfind d z (slot_lv (slot_of idx)) (idx - slot_base (slot_of idx)).

Lemma slot_split idx : 0 <= idx < z9idx_end_ind2 ->
  (slot_of idx < 9)%nat /\ 0 <= idx - slot_base (slot_of idx) < span (slot_lv (slot_of idx)).
Proof.
  change z9idx_end_ind2 with 262663. intros Hi. unfold slot_of.
  destruct (Z.ltb_spec idx 7); [|destruct (Z.ltb_spec idx 519)].
  - unfold slot_base, slot_lv. rewrite (proj2 (Nat.leb_le _ _)) by lia. replace (Z.to_nat idx - 6)%nat with 0%nat by lia. change (span 0) with 1. lia.
  - change (slot_base 7) with 7. change (span (slot_lv 7)) with 512. lia.
  - change (slot_base 8) with 519. change (span (slot_lv 8)) with 262144. lia.
Qed.

Lemma slot_join j h : (j < 9)%nat -> 0 <= h < span (slot_lv j) -> slot_of (slot_base j + h) = j /\ 0 <= slot_base j + h < z9idx_end_ind2.
Proof.
  intros Hj Hh. change z9idx_end_ind2 with 262663. unfold slot_of. destruct (decide (j < 7)%nat); [|destruct (decide (j = 7)%nat) as [->|]].
  - unfold slot_base, slot_lv in *. rewrite (proj2 (Nat.leb_le _ _)) in * by lia. replace (j - 6)%nat with 0%nat in Hh by lia. change (span 0) with 1 in Hh.
    rewrite (proj2 (Z.ltb_lt _ _)) by lia. lia.
  - change (slot_base 7) with 7. change (span (slot_lv 7)) with 512 in Hh. rewrite (proj2 (Z.ltb_ge _ _)), (proj2 (Z.ltb_lt _ _)) by lia. lia.
  - replace j with 8%nat in * by lia. change (slot_base 8) with 519. change (span (slot_lv 8)) with 262144 in Hh. rewrite !(proj2 (Z.ltb_ge _ _)) by lia. lia.
Qed.

Lemma zero_find d n idx : boot_zero d -> zfind d 0 (S n) idx = None.
Proof. intros Hb. cbn [zfind]. by rewrite zero_ent. Qed.

(** [minix_zget] computes it. *)
Lemma zget_fzone d zone idx : disk_ok d -> boot_zero d -> length zone = 9%nat -> 0 <= idx < z9idx_end_ind2 ->
  minix_zget d zone idx = Ok (fzone d zone idx).
Proof.
  intros Hd Hb Hl Hi. unfold minix_zget, fzone, slot_of. change z9idx_end_dire with 7. change z9idx_end_ind1 with 519.
  destruct (Z.ltb_spec idx 7); [|destruct (Z.ltb_spec idx 519)].
  - rewrite aget_nth by lia. cbn [res_bind]. unfold slot_lv. replace (Z.to_nat idx - 6)%nat with 0%nat by lia. done.
  - rewrite aget_nth by lia. cbn [res_bind]. rewrite zget_indirect_find by done. change (Z.to_nat 7) with 7%nat. destruct (Z.eqb_spec (nth 7 zone 0) 0) as [->|]; [|done].
    by rewrite zero_find.
  - rewrite (proj2 (Z.ltb_lt idx _)) by lia. rewrite aget_nth by lia. cbn [res_bind]. rewrite zget_indirect_find by done. change (Z.to_nat 8) with 8%nat.
    destruct (Z.eqb_spec (nth 8 zone 0) 0) as [->|]; [|done]. by rewrite zero_find.
Qed.

(** The blocks of a file, slot by slot. *)
Definition fowns (d : disk) (zone : list Z) (Xs : list (list Z)) : Prop :=
  length zone = 9%nat /\ length Xs = 9%nat /\
  forall j Xj, Xs !! j = Some Xj -> if nth j zone 0 =? 0 then Xj = [] else towns d (slot_lv j) (nth j zone 0) Xj.

Lemma fowns_at d zone Xs j Xj : fowns d zone Xs -> Xs !! j = Some Xj -> nth j zone 0 <> 0 -> towns d (slot_lv j) (nth j zone 0) Xj.
Proof. intros (_ & _ & Hch) Hi Hz. specialize (Hch j Xj Hi). by rewrite (proj2 (Z.eqb_neq _ _) Hz) in Hch. Qed.

Lemma fzone_in d zone Xs idx c : fowns d zone Xs -> 0 <= idx < z9idx_end_ind2 -> fzone d zone idx = Some c -> c ∈ concat Xs.
Proof.
  intros Hf Hi Hc. destruct (slot_split idx Hi) as [Hj _]. destruct (lookup_lt_is_Some_2 Xs (slot_of idx)) as [Xj HXj]; [destruct Hf as (_ & -> & _); lia|].
  unfold fzone in Hc. destruct (Z.eqb_spec (nth (slot_of idx) zone 0) 0) as [|Hz]; [done|].
  eapply concat_elem; [done|]. eapply zfind_in; [by eapply fowns_at|done].
Qed.

(** Other blocks do not matter. *)
Lemma fowns_frame d d' zone Xs : fowns d zone Xs -> (forall c, c ∈ concat Xs -> bread d' c = bread d c) ->
  fowns d' zone Xs /\ forall idx, 0 <= idx < z9idx_end_ind2 -> fzone d' zone idx = fzone d zone idx.
Proof.
  intros Hf Hsame.
  assert (forall j Xj, Xs !! j = Some Xj -> nth j zone 0 <> 0 -> towns d' (slot_lv j) (nth j zone 0) Xj /\
    forall x, zfind d' (nth j zone 0) (slot_lv j) x = zfind d (nth j zone 0) (slot_lv j) x) as Hsub.
  { intros j Xj HXj Hz. apply towns_frame; [by eapply fowns_at|]. intros c Hc. apply Hsame. by eapply concat_elem. }
  split.
  - pose proof Hf as (H1 & H2 & Hch). split_and!; [done|done|]. intros j Xj HXj. specialize (Hch j Xj HXj).
    destruct (Z.eqb_spec (nth j zone 0) 0); [done|]. by apply Hsub.
  - intros idx Hi. destruct (slot_split idx Hi) as [Hj _]. unfold fzone. destruct (Z.eqb_spec (nth (slot_of idx) zone 0) 0); [done|].
    destruct (lookup_lt_is_Some_2 Xs (slot_of idx)) as [Xj HXj]; [destruct Hf as (_ & -> & _); lia|]. by apply (Hsub _ Xj).
Qed.

(** Slot value [z0] became [z] and its tree grew by [new] at index [h]; the tree of 0 is empty. *)
Record sgrown (d d' : disk) (lv : nat) (z0 z : Z) (X X' : list Z) (h new : Z) : Prop := {
  sg_z : z <> 0 /\ (z0 <> 0 -> z = z0);
  sg_tree : towns d' lv z X';
  sg_nodup : NoDup X';
  sg_at : zfind d' z lv h = Some new;
  sg_else : forall i, 0 <= i < span lv -> i <> h -> zfind d' z lv i = if z0 =? 0 then None else zfind d z0 lv i;
  sg_data : forall i c, z0 <> 0 -> zfind d z0 lv i = Some c -> bread d' c = bread d c;
  sg_other : blocks_but d d' (fun c => zmap_blk c \/ c ∈ X');
  sg_old : forall c, c ∈ X -> c ∈ X';
  sg_new : forall c, c ∈ X' -> c ∈ X \/ (fdz <= c < 65536 /\ zused d c = false);
  sg_fresh : fdz <= new < 65536 /\ zused d new = false /\ new ∈ X';
  sg_used : forall c, fdz <= c -> zused d' c = zused d c || bool_decide (c ∈ X');
  sg_disk : disk_ok d';
  sg_map : zmap_ok d'
}.

Lemma zgrown_slot d d' lv z X X' h new : z <> 0 -> zgrown d d' lv z X X' h new -> sgrown d d' lv z z X X' h new.
Proof.
  intros Hz [G1 G2 G3 G4 G5 G6 G7 G8 G9 G10 G11 G12]. split; try done.
  - intros i Hi Hne. rewrite (proj2 (Z.eqb_neq _ _) Hz). by apply G4.
  - intros i c _ Hc. by eapply G5.
Qed.

(** A direct zone. *)
Lemma ztaken_slot d d' z : ztaken d d' z -> sgrown d d' 0 0 z [] [z] 0 z.
Proof.
  intros [T1 T2 T3 T4 T5 T6]. pose proof fdz_pos as Hf. split; try done.
  - lia.
  - apply NoDup_singleton.
  - intros i Hi. change (span 0) with 1 in Hi. lia.
  - intros c Hc. apply T4. tauto.
  - intros c Hc. by apply elem_of_nil in Hc.
  - intros c ->%list_elem_of_singleton. by right.
  - split_and!; [lia|lia|done|left].
  - intros c Hc. rewrite T3 by done. f_equal. destruct (Z.eqb_spec c z) as [->|]; symmetry; [apply bool_decide_true; left|].
    apply bool_decide_false. by intros ->%list_elem_of_singleton.
Qed.

(** A new table and the first block below it. *)
Lemma ztable_slot d d1 d' n z X' new : ztaken d d1 z -> zgrown (bput d1 z zero_blk) d' (S n) z [z] X' 0 new -> sgrown d d' (S n) 0 z [] X' 0 new.
Proof.
  intros [T1 T2 T3 T4 T5 T6] [G1 G2 G3 G4 G5 G6 G7 G8 (G9 & G9f & G9x) G10 G11 G12]. pose proof fdz_pos as Hf.
  assert (forall c, fdz <= c -> zused (bput d1 z zero_blk) c = zused d c || (c =? z)) as Hus.
  { intros c Hc. rewrite <- T3 by done. apply zused_frame; [|done]. intros m Hm%zmap_below. apply bread_bput_ne. lia. }
  assert (forall c, fdz <= c -> zused (bput d1 z zero_blk) c = false -> zused d c = false) as Hfr.
  { intros c Hc. rewrite Hus by done. by intros [? _]%orb_false_iff. }
  split; try done.
  - lia.
  - intros i Hi Hne. rewrite G4 by done. cbn [Z.eqb zfind]. rewrite zero_ent; [done|]. apply bread_bput_eq.
  - intros c Hc. rewrite G6 by done. rewrite bread_bput_ne; [apply T4; tauto|]. intros ->. apply Hc. right. apply G7. left.
  - intros c Hc. by apply elem_of_nil in Hc.
  - intros c Hc. right. destruct (G8 c Hc) as [->%list_elem_of_singleton|[Hr Hfc]]; [done|]. split; [done|]. apply Hfr; [lia|done].
  - split_and!; [lia|lia|apply Hfr; [lia|done]|done].
  - intros c Hc. rewrite G10, Hus by done. destruct (zused d c); [done|]. cbn [orb]. destruct (Z.eqb_spec c z) as [->|]; [|done].
    cbn [orb]. symmetry. apply bool_decide_true, G7. left.
Qed.

(** A file grew by the data block [new] at index [h]. *)
Record fgrown (d d' : disk) (zone zone' : list Z) (Xs Xs' : list (list Z)) (h new : Z) : Prop := {
  fg_owns : fowns d' zone' Xs';
  fg_nodup : NoDup (concat Xs');
  fg_at : fzone d' zone' h = Some new;
  fg_else : forall i, 0 <= i < z9idx_end_ind2 -> i <> h -> fzone d' zone' i = fzone d zone i;
  fg_data : forall i c, 0 <= i < z9idx_end_ind2 -> fzone d zone i = Some c -> bread d' c = bread d c;
  fg_other : blocks_but d d' (fun c => zmap_blk c \/ c ∈ concat Xs');
  fg_old : forall c, c ∈ concat Xs -> c ∈ concat Xs';
  fg_new : forall c, c ∈ concat Xs' -> c ∈ concat Xs \/ (fdz <= c < 65536 /\ zused d c = false);
  fg_fresh : fdz <= new < 65536 /\ zused d new = false /\ new ∈ concat Xs';
  fg_used : forall c, fdz <= c -> zused d' c = zused d c || bool_decide (c ∈ concat Xs');
  fg_disk : disk_ok d';
  fg_map : zmap_ok d'
}.

Lemma slot_grown d d' zone Xs j Xj Xj' z h new :
  fowns d zone Xs -> NoDup (concat Xs) -> zones_used d (concat Xs) -> (j < 9)%nat -> Xs !! j = Some Xj -> 0 <= h < span (slot_lv j) ->
  sgrown d d' (slot_lv j) (nth j zone 0) z Xj Xj' h new ->
  fgrown d d' zone (<[j := z]> zone) Xs (<[j := Xj']> Xs) (slot_base j + h) new.
Proof.
  intros Hf Hnd Hu Hj HXj Hh [[Gz Gzz] G1 G2 G3 G4 G5 G6 G7 G8 G9 G10 G11 G12].
  destruct (concat_split Xs j Xj HXj) as (A & B & EX & EY & HAB). specialize (EY Xj'). pose proof Hf as (Hl & HlX & Hch). rewrite EX in Hnd, Hu.
  assert (forall k, nth k (<[j := z]> zone) 0 = if decide (k = j) then z else nth k zone 0) as Hz.
  { intros k. rewrite !nth_lookup. case_decide as Hd; [subst k; by rewrite list_lookup_insert_eq by lia|by rewrite list_lookup_insert_ne by done]. }
  assert (forall c, c ∈ A ++ B -> bread d' c = bread d c) as Hsame.
  { intros c Hc. destruct (Hu c ltac:(mem)) as [Hr Huc]. apply G6. intros [Hm%zmap_below|Hx]; [lia|]. destruct (G8 c Hx) as [Hxi|[_ Hfc]]; [|congruence].
    apply NoDup_app in Hnd as (_ & N1 & (_ & N2 & _)%NoDup_app). apply elem_of_app in Hc as [Hc|Hc]; [apply (N1 c Hc); mem|by apply (N2 c)]. }
  assert (forall k Xk, k <> j -> Xs !! k = Some Xk -> nth k zone 0 <> 0 ->
    towns d' (slot_lv k) (nth k zone 0) Xk /\ forall x, zfind d' (nth k zone 0) (slot_lv k) x = zfind d (nth k zone 0) (slot_lv k) x) as Hsib.
  { intros k Xk Hne HXk Hzk. apply towns_frame; [by eapply fowns_at|]. intros c Hc. apply Hsame. destruct (HAB k Xk c Hne HXk Hc); mem. }
  destruct (slot_join j h Hj Hh) as [Es Hr].
  assert (forall c, c ∈ A ++ Xj' ++ B -> c ∈ A ++ Xj ++ B \/ (fdz <= c < 65536 /\ zused d c = false)) as Hnew.
  { intros c Hc. apply elem_of_app in Hc as [Hc|[Hc|Hc]%elem_of_app]; [left; mem| |left; mem]. destruct (G8 c Hc) as [|]; [left; mem|by right]. }
  split; rewrite ?EX, ?EY; try done.
  - split_and!; [by rewrite length_insert|by rewrite length_insert|]. intros k Xk HXk. rewrite Hz. case_decide as Hk.
    + subst k. rewrite list_lookup_insert_eq in HXk by lia. injection HXk as <-. by rewrite (proj2 (Z.eqb_neq _ _) Gz).
    + rewrite list_lookup_insert_ne in HXk by done. specialize (Hch k Xk HXk). destruct (Z.eqb_spec (nth k zone 0) 0); [done|]. by apply Hsib.
  - eapply nodup_replace; [exact Hnd|done|]. intros c Hc. destruct (G8 c Hc) as [|[_ Hfc]]; [by left|right]. intros Hin. destruct (Hu c Hin). congruence.
  - unfold fzone. rewrite Es, Hz, decide_True, (proj2 (Z.eqb_neq _ _) Gz) by done. by replace (slot_base j + h - slot_base j) with h by lia.
  - intros i Hi Hne. destruct (slot_split i Hi) as [Hs Hsr]. unfold fzone. rewrite Hz. case_decide as Hk.
    + rewrite (proj2 (Z.eqb_neq _ _) Gz), Hk. rewrite Hk in Hsr. apply G4; [done|]. intros Eh. apply Hne. rewrite <- Eh, <- Hk. lia.
    + destruct (Z.eqb_spec (nth (slot_of i) zone 0) 0); [done|]. destruct (lookup_lt_is_Some_2 Xs (slot_of i)) as [Xk HXk]; [lia|]. by apply (Hsib _ Xk).
  - intros i c Hi Hc. destruct (slot_split i Hi) as [Hs _]. unfold fzone in Hc. destruct (Z.eqb_spec (nth (slot_of i) zone 0) 0) as [|Hzi]; [done|].
    destruct (decide (slot_of i = j)) as [Ej|Hk]; [rewrite Ej in *; by eapply G5|].
    destruct (lookup_lt_is_Some_2 Xs (slot_of i)) as [Xk HXk]; [lia|]. apply Hsame.
    destruct (HAB _ Xk c Hk HXk); [|mem..]. eapply zfind_in; [by eapply fowns_at|done].
  - intros c Hc. apply G6. intros [Hm|Hx]; apply Hc; [by left|right; mem].
  - intros c Hc. apply elem_of_app in Hc as [Hc|[Hc|Hc]%elem_of_app]; [mem|specialize (G7 c Hc); mem|mem].
  - destruct G9 as (R1 & R2 & R3). split_and!; [lia|lia|done|mem].
  - intros c Hc. rewrite G10 by done. destruct (zused d c) eqn:Ec; [done|]. cbn [orb]. apply bool_decide_ext. split; [intros; mem|].
    intros [Hin|[Hin|Hin]%elem_of_app]%elem_of_app; [|done|]; destruct (Hu c ltac:(mem)); congruence.
Qed.

Definition mapped_to (d : disk) (zone : list Z) (n : Z) : Prop := forall i, 0 <= i < n -> is_Some (fzone d zone i).

Definition fhole (d : disk) (zone : list Z) (h : Z) : Prop :=
  0 <= h < z9idx_end_ind2 /\ fzone d zone h = None /\ mapped_to d zone h.

(** What a file's zones need before another block is added. *)
Record file_ok (d : disk) (zone : list Z) (Xs : list (list Z)) : Prop := {
  fo_disk : disk_ok d;
  fo_map : zmap_ok d;
  fo_owns : fowns d zone Xs;
  fo_nodup : NoDup (concat Xs);
  fo_used : zones_used d (concat Xs)
}.

Definition fextended (d : disk) (zone : list Z) (Xs : list (list Z)) (k : nat) (zone' : list Z) (d' : disk) : Prop :=
  exists h new Xs', fhole d zone h /\ fgrown d d' zone zone' Xs Xs' h new /\ nfree d' k.

Lemma fzone_slot d zone j h : (j < 9)%nat -> 0 <= h < span (slot_lv j) ->
  fzone d zone (slot_base j + h) = if nth j zone 0 =? 0 then None else zfind d (nth j zone 0) (slot_lv j) h.
Proof.
  intros Hj Hh. unfold fzone. destruct (slot_join j h Hj Hh) as [-> _]. by replace (slot_base j + h - slot_base j) with h by lia.
Qed.

Lemma slot_hole d zone j h : (j < 9)%nat -> mapped_to d zone (slot_base j) ->
  (nth j zone 0 = 0 /\ h = 0 \/ nth j zone 0 <> 0 /\ hole d (nth j zone 0) (slot_lv j) h) -> fhole d zone (slot_base j + h).
Proof.
  intros Hj Hm Hh. pose proof (span_pos (slot_lv j)).
  assert (0 <= h < span (slot_lv j)) as Hr by (destruct Hh as [[_ ->]|[_ [? _]]]; lia).
  destruct (slot_join j h Hj Hr) as [_ Hb]. split; [done|]. split.
  - rewrite fzone_slot by done. destruct Hh as [[-> _]|[Hz (_ & Hn & _)]]; [done|]. by rewrite (proj2 (Z.eqb_neq _ _) Hz).
  - intros x Hx. destruct (decide (x < slot_base j)) as [|Hge]; [apply Hm; lia|].
    destruct Hh as [[_ ->]|[Hz (_ & _ & Hl)]]; [lia|].
    replace x with (slot_base j + (x - slot_base j)) by lia. rewrite fzone_slot by (done || lia).
    rewrite (proj2 (Z.eqb_neq _ _) Hz). apply Hl. lia.
Qed.

Lemma slot_full d zone j : (j < 9)%nat -> mapped_to d zone (slot_base j) -> nth j zone 0 <> 0 ->
  (forall x, 0 <= x < span (slot_lv j) -> is_Some (zfind d (nth j zone 0) (slot_lv j) x)) -> mapped_to d zone (slot_base j + span (slot_lv j)).
Proof.
  intros Hj Hm Hz Hs x Hx. destruct (decide (x < slot_base j)) as [|Hge]; [apply Hm; lia|].
  replace x with (slot_base j + (x - slot_base j)) by lia. rewrite fzone_slot by (done || lia). rewrite (proj2 (Z.eqb_neq _ _) Hz). apply Hs. lia.
Qed.

Lemma slot_lookup d zone Xs j : fowns d zone Xs -> (j < 9)%nat -> exists Xj, Xs !! j = Some Xj /\ (nth j zone 0 = 0 -> Xj = []).
Proof.
  intros (_ & Hl & Hch) Hj. destruct (lookup_lt_is_Some_2 Xs j) as [Xj HXj]; [lia|]. exists Xj. split; [done|]. intros Hz. specialize (Hch j Xj HXj). by rewrite Hz in Hch.
Qed.

Lemma zext_direct_done kk i d zone : zext_direct sb kk i d zone 0 = Ok (zone, 0, d).
Proof. by destruct kk. Qed.

Lemma zext_direct_ok d zone Xs k : file_ok d zone Xs -> nfree d (S k) -> forall kk j, (j + kk = 7)%nat -> mapped_to d zone (Z.of_nat j) ->
  (exists zone' d', zext_direct sb kk (Z.of_nat j) d zone 1 = Ok (zone', 0, d') /\ fextended d zone Xs k zone' d') \/
  (zext_direct sb kk (Z.of_nat j) d zone 1 = Ok (zone, 1, d) /\ mapped_to d zone 7).
Proof.
  intros [Hd Hm Hf Hnd Hu] Hn. induction kk as [|kk IH]; intros j Hj Hmap.
  { right. split; [done|]. by replace 7 with (Z.of_nat j) by lia. }
  pose proof (proj1 Hf) as Hl. cbn [zext_direct]. rewrite (proj2 (Z.eqb_neq 1 0)) by lia. rewrite aget_nth by lia. cbn [res_bind]. rewrite Nat2Z.id.
  assert (slot_base j = Z.of_nat j) as Eb by (unfold slot_base; by rewrite (proj2 (Nat.leb_le _ _)) by lia).
  assert (slot_lv j = O) as El by (unfold slot_lv; lia).
  destruct (Z.eqb_spec (nth j zone 0) 0) as [Hz|Hz].
  - left. destruct (zalloc_ok d k Hd Hm Hn) as (z & d' & Ez & T & Hn'). rewrite Ez. cbn [res_bind]. rewrite aset_lt by lia. cbn [res_bind].
    rewrite Nat2Z.id. change (1 - 1) with 0. rewrite zext_direct_done. do 2 eexists. split; [done|].
    destruct (slot_lookup d zone Xs j Hf ltac:(lia)) as (Xj & HXj & Hnil). specialize (Hnil Hz). subst Xj.
    exists (slot_base j + 0), z, (<[j := [z]]> Xs). split_and!; [|eapply slot_grown; [done..|lia|done| |]|done].
    + apply slot_hole; [lia|by rewrite Eb|by left].
    + rewrite El. change (span 0) with 1. lia.
    + rewrite El, Hz. by apply ztaken_slot.
  - specialize (IH (S j) ltac:(lia)). replace (Z.of_nat (S j)) with (Z.of_nat j + 1) in IH by lia. apply IH.
    pose proof (slot_full d zone j ltac:(lia)) as Hs. rewrite Eb, El in Hs. change (span 0) with 1 in Hs. apply Hs; [done|done|]. by intros; eexists.
Qed.

(** An indirect zone. *)
Lemma zext_deep_slot d zone Xs k j kk : file_ok d zone Xs -> nfree d (S (slot_lv j) + k) -> (7 <= j < 9)%nat -> mapped_to d zone (slot_base j) ->
  (exists zone' d', zext_deep sb (S kk) (Z.of_nat j) d zone 1 = zext_deep sb kk (Z.of_nat j + 1) d' zone' 0 /\ fextended d zone Xs k zone' d') \/
  (zext_deep sb (S kk) (Z.of_nat j) d zone 1 = zext_deep sb kk (Z.of_nat j + 1) d zone 1 /\ mapped_to d zone (slot_base j + span (slot_lv j))).
Proof.
  intros [Hd Hm Hf Hnd Hu] Hn Hj Hmap. pose proof (proj1 Hf) as Hl. pose proof fdz_pos as Hfp.
  destruct (slot_lookup d zone Xs j Hf ltac:(lia)) as (Xj & HXj & Hnil).
  destruct (concat_split Xs j Xj HXj) as (A & B & EX & _ & _).
  cbn [zext_deep]. rewrite (proj2 (Z.eqb_neq 1 0)) by lia. rewrite aget_nth by lia. cbn [res_bind]. rewrite Nat2Z.id.
  replace (Z.to_nat (Z.of_nat j - 6)) with (slot_lv j) by (unfold slot_lv; lia).
  destruct (slot_lv j) as [|n] eqn:El; [unfold slot_lv in El; lia|].
  destruct (Z.eqb_spec (nth j zone 0) 0) as [Hz|Hz]; cbn [negb].
  - left. destruct (zalloc_ok d (S n + k) Hd Hm Hn) as (z & d1 & Ez & T & Hn'). rewrite Ez. cbn [res_bind]. rewrite aset_lt by lia. cbn [res_bind]. rewrite Nat2Z.id.
    specialize (Hnil Hz). subst Xj. pose proof (zt_range _ _ _ T) as Hr.
    assert (forall m, zmap_blk m -> bread (bput d1 z zero_blk) m = bread d1 m) as Hfr by (intros m Hmm%zmap_below; apply bread_bput_ne; lia).
    destruct (extends_all n (bput d1 z zero_blk) z [z] k) as [(h & new & X' & d' & E & (Hhr & Hh & Hlow) & G & Hn2)|[_ Hall]].
    + apply bput_ok; [by destruct T|apply zero_blk_ok].
    + eapply zmap_frame; [done|by destruct T].
    + apply zero_towns, bread_bput_eq.
    + apply NoDup_singleton.
    + intros c ->%list_elem_of_singleton. split; [done|]. rewrite (zused_frame d1) by (done || lia). rewrite (zt_used _ _ _ T) by lia. by rewrite Z.eqb_refl, orb_true_r.
    + by eapply nfree_frame.
    + assert (zfind (bput d1 z zero_blk) z (S n) 0 = None) as Hnone by (cbn [zfind]; rewrite zero_ent; [done|apply bread_bput_eq]).
      assert (h = 0) as ->. { destruct (decide (h = 0)) as [|Hne]; [done|]. destruct (Hlow 0 ltac:(lia)) as [y Hy]. congruence. }
      rewrite E. cbn [res_bind]. rewrite (proj2 (Z.leb_gt 1 0)) by lia. change (u32 (1 - 1)) with 0. do 2 eexists. split; [done|].
      exists (slot_base j + 0), new, (<[j := X']> Xs). split_and!; [|eapply slot_grown; [done..|lia|done|rewrite El; done|]|done].
      * apply slot_hole; [lia|done|by left].
      * rewrite El, Hz. by eapply ztable_slot.
    + exfalso. destruct (Hall 0) as [y Hy]; [pose proof (span_pos (S n)); lia|]. cbn [zfind] in Hy. rewrite zero_ent in Hy; [done|apply bread_bput_eq].
  - pose proof (fowns_at d zone Xs j Xj Hf HXj Hz) as Ht. rewrite El in Ht. cbn [res_bind].
    destruct (extends_all n d (nth j zone 0) Xj (1 + k)%nat Hd Hm Ht) as [(h & new & X' & d' & E & Hh & G & Hn2)|[E Hall]].
    + rewrite EX in Hnd. apply NoDup_app in Hnd as (_ & _ & Hnd). by apply NoDup_app in Hnd as (? & _).
    + intros c Hc. apply Hu. by eapply concat_elem.
    + eapply nfree_le; [done|lia].
    + left. rewrite E. cbn [res_bind]. rewrite (proj2 (Z.leb_gt 1 0)) by lia. change (u32 (1 - 1)) with 0. do 2 eexists. split; [done|].
      exists (slot_base j + h), new, (<[j := X']> Xs). split_and!; [| |eapply nfree_le; [done|lia]].
      * apply slot_hole; [lia|done|right; by rewrite El].
      * rewrite <- (list_insert_id zone j (nth j zone 0)) at 2 by (destruct (nth_lookup_or_length zone j 0); [done|lia]).
        eapply slot_grown; [done..|lia|done|rewrite El; by destruct Hh|]. rewrite El. by apply zgrown_slot.
    + right. rewrite E. cbn [res_bind]. rewrite (proj2 (Z.leb_le 0 0)) by lia. change (u32 (1 + 0)) with 1. split; [done|].
      pose proof (slot_full d zone j ltac:(lia) Hmap Hz) as Hs. rewrite El in Hs. by apply Hs.
Qed.

(** [minix_zext] asked for one block fills the lowest hole of the file. *)
Lemma minix_zext_ok d zone Xs k : file_ok d zone Xs -> nfree d (3 + k) ->
  (exists zone' d', minix_zext sb d zone 1 = Ok (0, zone', d') /\ fextended d zone Xs k zone' d') \/ mapped_to d zone z9idx_end_ind2.
Proof.
  intros Hok Hn. unfold minix_zext.
  destruct (zext_direct_ok d zone Xs (2 + k) Hok Hn 7 0 eq_refl) as [(zone' & d' & E & (h & new & Xs' & Hh & G & Hn'))|[E Hmap]].
  { intros x Hx. lia. }
  { left. change (Z.of_nat 0) with 0 in E. rewrite E. cbn [res_bind Z.eqb]. exists zone', d'. split; [done|]. exists h, new, Xs'. split_and!; [done|done|].
    eapply nfree_le; [done|lia]. }
  change (Z.of_nat 0) with 0 in E. rewrite E. cbn [res_bind]. rewrite (proj2 (Z.eqb_neq 1 0)) by lia.
  destruct (zext_deep_slot d zone Xs (1 + k) 7 1 Hok Hn ltac:(lia) Hmap) as [(zone' & d' & E7 & (h & new & Xs' & Hh & G & Hn'))|[E7 Hmap7]];
    change (Z.of_nat 7) with 7 in E7; rewrite E7.
  { left. cbn [zext_deep Z.eqb res_bind]. exists zone', d'. split; [done|]. exists h, new, Xs'. split_and!; [done|done|]. eapply nfree_le; [done|lia]. }
  destruct (zext_deep_slot d zone Xs k 8 0 Hok Hn ltac:(lia) Hmap7) as [(zone' & d' & E8 & Hx)|[_ Hmap8]]; [|by right].
  change (Z.of_nat 8) with (7 + 1) in E8. rewrite E8. left. exists zone', d'. split; [done|done].
Qed.

Lemma fgrown_ok d d' zone zone' Xs Xs' h new : file_ok d zone Xs -> fgrown d d' zone zone' Xs Xs' h new -> file_ok d' zone' Xs'.
Proof.
  intros [Hd Hm Hf Hnd Hu] [G1 G2 G3 G4 G5 G6 G7 G8 G9 G10 G11 G12]. split; [done..|]. intros c Hc. assert (fdz <= c < 65536) as Hr.
  { destruct (G8 c Hc) as [Hx|[Hr _]]; [|done]. by apply Hu. }
  split; [done|]. rewrite G10 by lia. rewrite (bool_decide_true (c ∈ concat Xs')) by done. apply orb_true_r.
Qed.


(** ** Writing a data block *)

Lemma concat_sep (Xs : list (list Z)) i j Xi Xj c : NoDup (concat Xs) -> Xs !! i = Some Xi -> Xs !! j = Some Xj -> i <> j -> c ∈ Xi -> c ∉ Xj.
Proof.
  intros Hnd Hi Hj Hne Hci Hcj. destruct (concat_split Xs i Xi Hi) as (A & B & EX & _ & HAB). rewrite EX in Hnd.
  apply NoDup_app in Hnd as (_ & N1 & (_ & N2 & _)%NoDup_app). destruct (HAB j Xj c ltac:(done) Hj Hcj) as [Ha|Hb]; [apply (N1 c Ha); mem|by apply (N2 c)].
Qed.

Lemma concat_nodup (Xs : list (list Z)) i Xi : NoDup (concat Xs) -> Xs !! i = Some Xi -> NoDup Xi.
Proof.
  intros Hnd Hi. destruct (concat_split Xs i Xi Hi) as (A & B & EX & _). rewrite EX in Hnd. apply NoDup_app in Hnd as (_ & _ & Hnd). by apply NoDup_app in Hnd as (? & _).
Qed.

(** The tables do not change. *)
Lemma towns_data d d' c lv : blocks_but d d' (fun x => x = c) -> forall b X idx, towns d lv b X -> NoDup X -> zfind d b lv idx = Some c ->
  towns d' lv b X /\ forall i, zfind d' b lv i = zfind d b lv i.
Proof.
  intros Hd. induction lv as [|n IH]; intros b X idx HX Hnd Hc; [done|]. destruct HX as (Xs & -> & HX).
  pose proof (kids_found d n b Xs idx c HX Hc) as Hin. apply NoDup_cons in Hnd as [Hnb Hnd].
  assert (forall j, ent d' b j = ent d b j) as He by (intros j; unfold ent; rewrite Hd; [done|congruence]).
  destruct (kids_get d n b Xs idx HX) as [Xc HXc]. cbn [zfind] in Hc. set (jc := Z.to_nat (idx / span n mod 512)) in *.
  destruct (Z.eqb_spec (ent d b jc) 0) as [|Hz]; [done|]. pose proof (kids_at d n b Xs jc Xc HX HXc Hz) as Htc.
  assert (forall j Xj, Xs !! j = Some Xj -> ent d b j <> 0 ->
    towns d' n (ent d b j) Xj /\ forall x, zfind d' (ent d b j) n x = zfind d (ent d b j) n x) as Hsub.
  { intros j Xj HXj Hzj. pose proof (kids_at d n b Xs j Xj HX HXj Hzj) as Ht. destruct (decide (j = jc)) as [->|Hne].
    - apply (IH _ _ idx); [done|by eapply concat_nodup|done].
    - apply towns_frame; [done|]. intros x Hx. apply Hd. intros ->. eapply (concat_sep Xs jc j); [done..|by eapply zfind_in|done]. }
  destruct HX as [HlX Hch]. split.
  - exists Xs. split_and!; [done|done|]. intros j Xj HXj. rewrite He. specialize (Hch j Xj HXj). destruct (Z.eqb_spec (ent d b j) 0); [done|]. by apply Hsub.
  - intros i. cbn [zfind]. rewrite He. destruct (Z.eqb_spec (ent d b (Z.to_nat (i / span n mod 512))) 0) as [|Hzi]; [done|].
    destruct (lookup_lt_is_Some_2 Xs (Z.to_nat (i / span n mod 512))) as [Xj HXj]; [pose proof (Z.mod_pos_bound (i / span n) 512); lia|]. by apply (Hsub _ Xj).
Qed.

Lemma fowns_data d d' zone Xs c idx : blocks_but d d' (fun x => x = c) -> fowns d zone Xs -> NoDup (concat Xs) ->
  0 <= idx < z9idx_end_ind2 -> fzone d zone idx = Some c ->
  fowns d' zone Xs /\ forall i, 0 <= i < z9idx_end_ind2 -> fzone d' zone i = fzone d zone i.
Proof.
  intros Hd Hf Hnd Hi Hc. destruct (slot_split idx Hi) as [Hjc _]. pose proof Hf as (Hl & HlX & Hch).
  unfold fzone in Hc. set (jc := slot_of idx) in *. destruct (Z.eqb_spec (nth jc zone 0) 0) as [|Hz]; [done|].
  destruct (lookup_lt_is_Some_2 Xs jc) as [Xc HXc]; [lia|]. pose proof (fowns_at d zone Xs jc Xc Hf HXc Hz) as Htc.
  assert (forall j Xj, Xs !! j = Some Xj -> nth j zone 0 <> 0 ->
    towns d' (slot_lv j) (nth j zone 0) Xj /\ forall x, zfind d' (nth j zone 0) (slot_lv j) x = zfind d (nth j zone 0) (slot_lv j) x) as Hsub.
  { intros j Xj HXj Hzj. pose proof (fowns_at d zone Xs j Xj Hf HXj Hzj) as Ht. destruct (decide (j = jc)) as [->|Hne].
    - eapply (towns_data d d' c); [done..|by eapply concat_nodup|done].
    - apply towns_frame; [done|]. intros x Hx. apply Hd. intros ->. eapply (concat_sep Xs jc j); [done..|by eapply zfind_in|done]. }
  split.
  - split_and!; [done|done|]. intros j Xj HXj. specialize (Hch j Xj HXj). destruct (Z.eqb_spec (nth j zone 0) 0); [done|]. by apply Hsub.
  - intros i Hir. destruct (slot_split i Hir) as [Hj _]. unfold fzone. destruct (Z.eqb_spec (nth (slot_of i) zone 0) 0); [done|].
    destruct (lookup_lt_is_Some_2 Xs (slot_of i)) as [Xj HXj]; [lia|]. by apply (Hsub _ Xj).
Qed.

(** Two indices have different blocks. *)
Lemma zfind_inj d lv : forall b X i j c, towns d lv b X -> NoDup X -> 0 <= i < span lv -> 0 <= j < span lv ->
  zfind d b lv i = Some c -> zfind d b lv j = Some c -> i = j.
Proof.
  induction lv as [|n IH]; intros b X i j c HX Hnd Hi Hj Hci Hcj; [change (span 0) with 1 in *; lia|].
  destruct HX as (Xs & -> & HX). apply NoDup_cons in Hnd as [_ Hnd].
  destruct (index_sub n i Hi) as (Ei & Hri & Hki), (index_sub n j Hj) as (Ej & Hrj & Hkj).
  set (ki := Z.to_nat (i / span n mod 512)) in *. set (kj := Z.to_nat (j / span n mod 512)) in *.
  rewrite Ei, zfind_sub in Hci by done. rewrite Ej, zfind_sub in Hcj by done.
  destruct (Z.eqb_spec (ent d b ki) 0) as [|Hzi]; [done|]. destruct (Z.eqb_spec (ent d b kj) 0) as [|Hzj]; [done|].
  pose proof HX as [HlX _]. destruct (lookup_lt_is_Some_2 Xs ki) as [Xi HXi]; [lia|]. destruct (lookup_lt_is_Some_2 Xs kj) as [Xj HXj]; [lia|].
  pose proof (kids_at d n b Xs ki Xi HX HXi Hzi) as Hti. pose proof (kids_at d n b Xs kj Xj HX HXj Hzj) as Htj.
  destruct (decide (ki = kj)) as [Ek|Hne].
  - rewrite Ei, Ej, Ek. f_equal. rewrite Ek in Hci, HXi. eapply IH; [exact Htj|by eapply concat_nodup|done..].
  - exfalso. eapply (concat_sep Xs ki kj Xi Xj c); [done..|by eapply zfind_in|by eapply zfind_in].
Qed.

Lemma fzone_inj d zone Xs i j c : fowns d zone Xs -> NoDup (concat Xs) -> 0 <= i < z9idx_end_ind2 -> 0 <= j < z9idx_end_ind2 ->
  fzone d zone i = Some c -> fzone d zone j = Some c -> i = j.
Proof.
  intros Hf Hnd Hi Hj Hci Hcj. destruct (slot_split i Hi) as [Hki Hri], (slot_split j Hj) as [Hkj Hrj]. pose proof Hf as (_ & HlX & _).
  unfold fzone in Hci, Hcj. destruct (Z.eqb_spec (nth (slot_of i) zone 0) 0) as [|Hzi]; [done|]. destruct (Z.eqb_spec (nth (slot_of j) zone 0) 0) as [|Hzj]; [done|].
  destruct (lookup_lt_is_Some_2 Xs (slot_of i)) as [Xi HXi]; [lia|]. destruct (lookup_lt_is_Some_2 Xs (slot_of j)) as [Xj HXj]; [lia|].
  pose proof (fowns_at d zone Xs _ Xi Hf HXi Hzi) as Hti. pose proof (fowns_at d zone Xs _ Xj Hf HXj Hzj) as Htj.
  destruct (decide (slot_of i = slot_of j)) as [Ek|Hne].
  - rewrite Ek in *. enough (i - slot_base (slot_of j) = j - slot_base (slot_of j)) by lia. eapply zfind_inj; [exact Htj|by eapply concat_nodup|done..].
  - exfalso. eapply (concat_sep Xs (slot_of i) (slot_of j) Xi Xj c); [done..|by eapply zfind_in|by eapply zfind_in].
Qed.

End Zones.
