(* ===== verification/MinixFile.v ===== *)
(** * Files of a Minix file system

    The inode codec, and the contents of a file as a list of bytes: [minix_read] returns a
    part of it and [minix_write] replaces a part of it. *)
From Stdlib Require Import ZArith Lia List Bool.
From stdpp Require Import base list gmap.
From S2P Require Import Prelude Bytes Bitmap Minix MinixZone.

#[local] Open Scope Z_scope.

(** ** Inodes on disk *)

Lemma aget_splice (l : list Z) o bs k : (o + length bs <= length l)%nat -> 0 <= k < Z.of_nat (length bs) ->
  aget (splice l o bs) (Z.of_nat o + k) = aget bs k.
Proof.
  intros Hl Hk. rewrite !aget_nth by (rewrite ?length_splice by done; lia). rewrite nth_splice, decide_True by lia. do 2 f_equal. lia.
Qed.

Lemma ld16_splice (l : list Z) o bs k : (o + length bs <= length l)%nat -> 0 <= k -> k + 1 < Z.of_nat (length bs) ->
  ld16 (splice l o bs) (Z.of_nat o + k) = ld16 bs k.
Proof. intros Hl Hk Hk1. unfold ld16. rewrite <- Z.add_assoc, !aget_splice by lia. done. Qed.

Lemma ld32_splice (l : list Z) o bs k : (o + length bs <= length l)%nat -> 0 <= k -> k + 3 < Z.of_nat (length bs) ->
  ld32 (splice l o bs) (Z.of_nat o + k) = ld32 bs k.
Proof. intros Hl Hk Hk1. unfold ld32. rewrite <- Z.add_assoc, !ld16_splice by lia. done. Qed.

(** The fields of an inode have the width of their members. *)
Record inode_ok (mi : minix_inode) : Prop := {
  io_mode : 0 <= i_mode mi < 65536;
  io_uid : 0 <= i_uid mi < 65536;
  io_size : 0 <= i_size mi < 2 ^ 32;
  io_mtime : 0 <= i_mtime mi < 2 ^ 32;
  io_gid : 0 <= i_gid mi < 256;
  io_nlinks : 0 <= i_nlinks mi < 256;
  io_zones : length (i_zone mi) = 9%nat;
  io_zone : Forall (fun z => 0 <= z < 65536) (i_zone mi)
}.

Lemma enc_length mi : length (i_zone mi) = 9%nat -> length (enc_inode mi) = 32%nat.
Proof.
  intros Hl. destruct mi as [m u s t g n z]. cbn [i_zone] in Hl. do 9 (destruct z as [|? z]; [done|]). by destruct z.
Qed.

Lemma enc_bytes mi : bytes_ok (enc_inode mi).
Proof.
  unfold enc_inode, le32, bytes_ok. rewrite !Forall_app. split_and!; try apply le16_ok.
  - repeat constructor; unfold is_byte, wrap; apply Z.mod_pos_bound; lia.
  - apply Forall_concat, Forall_map, Forall_true. intros z. apply le16_ok.
Qed.

Lemma dec_zones_splice l o bs : (o + length bs <= length l)%nat -> length bs = 32%nat ->
  dec_zones (splice l o bs) (Z.of_nat o + 14) = dec_zones bs 14.
Proof.
  intros Hl Hb. unfold dec_zones. cbn [foldr]. rewrite <- !(Z.add_assoc (Z.of_nat o)). by rewrite !ld16_splice by lia.
Qed.

Lemma dec_splice l o bs : (o + length bs <= length l)%nat -> length bs = 32%nat -> dec_inode (splice l o bs) (Z.of_nat o) = dec_inode bs 0.
Proof.
  intros Hl Hb. pose proof (ld16_splice l o bs 0 Hl ltac:(lia) ltac:(lia)) as E0. rewrite Z.add_0_r in E0.
  unfold dec_inode. rewrite dec_zones_splice by done. by rewrite E0, !ld32_splice, !ld16_splice, !aget_splice by lia.
Qed.

(** An inode from its bytes. *)
Lemma dec_bytes b0 b1 b2 b3 b4 b5 b6 b7 b8 b9 b10 b11 b12 b13 b14 b15 b16 b17 b18 b19 b20 b21 b22 b23 b24 b25 b26 b27 b28 b29 b30 b31 :
  dec_inode [b0; b1; b2; b3; b4; b5; b6; b7; b8; b9; b10; b11; b12; b13; b14; b15; b16; b17; b18; b19; b20; b21; b22; b23; b24; b25; b26; b27; b28; b29; b30; b31] 0 =
  Ok (MinixInode (b0 + 256 * b1) (b2 + 256 * b3) (b4 + 256 * b5 + 65536 * (b6 + 256 * b7)) (b8 + 256 * b9 + 65536 * (b10 + 256 * b11)) b12 b13
    [b14 + 256 * b15; b16 + 256 * b17; b18 + 256 * b19; b20 + 256 * b21; b22 + 256 * b23; b24 + 256 * b25; b26 + 256 * b27; b28 + 256 * b29; b30 + 256 * b31]).
Proof. reflexivity. Qed.

(** What is decoded is what was encoded. *)
Lemma dec_enc mi : inode_ok mi -> dec_inode (enc_inode mi) 0 = Ok mi.
Proof.
  intros [H1 H2 H3 H4 H5 H6 Hl Hz]. destruct mi as [m u s t g n z]. cbn [i_mode i_uid i_size i_mtime i_gid i_nlinks i_zone] in *.
  do 9 (destruct z as [|? z]; [done|]). destruct z; [|done]. repeat (apply Forall_cons in Hz as [? Hz]).
  unfold enc_inode, le32, le16. cbn [i_mode i_uid i_size i_mtime i_gid i_nlinks i_zone map concat app].
  rewrite dec_bytes. unfold wrap. repeat f_equal; dlia.
Qed.

(** The other inodes of a block stay. *)
Lemma dec_local b b' o : (forall k, 0 <= k < 32 -> aget b (o + k) = aget b' (o + k)) -> dec_inode b o = dec_inode b' o.
Proof.
  intros Ha. pose proof (Ha 0 ltac:(lia)) as H0. rewrite Z.add_0_r in H0. unfold dec_inode, dec_zones, ld32, ld16. cbn [foldr].
  rewrite <- !(Z.add_assoc o). rewrite H0. by rewrite !Ha by lia.
Qed.

Lemma dec_other l o bs o' : (o + length bs <= length l)%nat -> 0 <= o' -> o' + 32 <= Z.of_nat (length l) ->
  o' + 32 <= Z.of_nat o \/ Z.of_nat (o + length bs) <= o' -> dec_inode (splice l o bs) o' = dec_inode l o'.
Proof.
  intros Hl H0 H1 Hd. apply dec_local. intros k Hk. rewrite !aget_nth by (rewrite ?length_splice by done; lia).
  by rewrite nth_splice, decide_False by lia.
Qed.

Section Files.
Context `{MinixEnv} (sb : minix_super) (Himg : image_ok) (Hsb : sb_ok sb).

(** The blocks of the inode table. *)
Definition inode_blk (b : Z) : Prop := minix_inode_blk sb <= b < firstdatazone sb.

(** Inode [ino] of the disk became [mi]. *)
Record isynced (d d' : disk) (mi : minix_inode) (ino : Z) : Prop := {
  is_this : minix_iget sb d' ino = Ok (Some mi);
  is_others : forall i, 1 <= i <= sb_inodes sb -> i <> ino -> minix_iget sb d' i = minix_iget sb d i;
  is_blocks : blocks_but d d' inode_blk;
  is_disk : disk_ok d'
}.

Lemma inode_place ino : 1 <= ino <= sb_inodes sb ->
  inode_blk ((ino - 1) / nodenr_perblk + minix_inode_blk sb) /\ 0 <= (ino - 1) mod nodenr_perblk < 32.
Proof.
  intros Hi. pose proof (so_first _ Hsb) as Hf. unfold inode_blk. change nodenr_perblk with 32 in *. split; [|apply Z.mod_pos_bound; lia].
  split; [assert (0 <= (ino - 1) / 32) by (apply Z.div_pos; lia); lia|]. assert ((ino - 1) / 32 < (sb_inodes sb + (32 - 1)) / 32) by dlia. lia.
Qed.

Lemma iget_in d ino : 1 <= ino <= sb_inodes sb ->
  minix_iget sb d ino = let! mi := dec_inode (bread d ((ino - 1) / nodenr_perblk + minix_inode_blk sb)) ((ino - 1) mod nodenr_perblk * INODE_SIZ) in Ok (Some mi).
Proof. intros Hi. unfold minix_iget. rewrite (proj2 (Z.eqb_neq _ _)), (proj2 (Z.ltb_ge _ _)) by lia. done. Qed.

Lemma isync_ok d mi ino : disk_ok d -> inode_ok mi -> 1 <= ino <= sb_inodes sb -> sb_inodes sb < 65536 ->
  exists d', minix_isync sb d mi ino = Ok d' /\ isynced d d' mi ino.
Proof.
  intros Hd Hm Hi Hs. unfold minix_isync. rewrite (proj2 (Z.ltb_ge _ _)), wrap_small by lia.
  destruct (inode_place ino Hi) as [Hb Ho]. set (blk := (ino - 1) / nodenr_perblk + minix_inode_blk sb) in *. set (e := (ino - 1) mod nodenr_perblk) in *.
  change INODE_SIZ with 32. pose proof (bread_ok Himg d blk Hd) as Hbk. pose proof (bk_len _ Hbk) as Hlen.
  pose proof (enc_length mi (io_zones _ Hm)) as Hel. rewrite st_splice by lia. cbn [res_bind]. eexists. split; [done|]. split.
  - rewrite iget_in by done. fold blk e. rewrite bread_bput_eq. change INODE_SIZ with 32.
    replace (e * 32) with (Z.of_nat (Z.to_nat (e * 32))) at 2 by lia. rewrite dec_splice by lia. by rewrite dec_enc.
  - intros i Hr Hne. rewrite !iget_in by done. destruct (inode_place i Hr) as [_ Ho']. change INODE_SIZ with 32. rewrite bread_bput. case_decide as Hc; [|done].
    rewrite Hc, dec_other; [done|lia|lia|lia|]. assert ((i - 1) mod nodenr_perblk <> e).
    { intros He. apply Hne. unfold blk, e in *. change nodenr_perblk with 32 in *. dlia. }
    lia.
  - intros b Hnb. apply bread_bput_ne. by intros ->.
  - apply bput_ok; [done|]. apply splice_ok; [done|lia|apply enc_bytes].
Qed.


(** ** The contents of a file *)

(** The number of blocks [n] bytes take. *)
Definition nblk (n : Z) : Z := (n + 1023) / 1024.

Definition fbyte (d : disk) (zone : list Z) (i : Z) : Z :=
  nth (Z.to_nat (i mod 1024)) (bread d (default 0 (fzone d zone (i / 1024)))) 0.

Definition fbytes (d : disk) (zone : list Z) (o : Z) (n : nat) : list Z := map (fun k => fbyte d zone (o + Z.of_nat k)) (seq 0 n).

Lemma fbytes_length d zone o n : length (fbytes d zone o n) = n.
Proof. unfold fbytes. by rewrite length_map, length_seq. Qed.

Lemma fbytes_lookup d zone o n k : (k < n)%nat -> fbytes d zone o n !! k = Some (fbyte d zone (o + Z.of_nat k)).
Proof. intros Hk. unfold fbytes. by rewrite list_lookup_fmap, lookup_seq_lt. Qed.

Lemma fbytes_app d zone o n m : fbytes d zone o (n + m) = fbytes d zone o n ++ fbytes d zone (o + Z.of_nat n) m.
Proof.
  unfold fbytes. rewrite seq_app, map_app. f_equal. pose proof (fmap_add_seq n 0 m) as E. rewrite Nat.add_0_r in E. cbn [Nat.add].
  rewrite <- E. change (Nat.add n <$> seq 0 m) with (map (Nat.add n) (seq 0 m)). rewrite map_map. apply map_ext. intros k. by rewrite Nat2Z.inj_add, Z.add_assoc.
Qed.

(** A part of one block. *)
Lemma fbytes_block d zone o n b : disk_ok d -> 0 <= o -> o mod 1024 + Z.of_nat n <= 1024 -> fzone d zone (o / 1024) = Some b ->
  fbytes d zone o n = take n (drop (Z.to_nat (o mod 1024)) (bread d b)).
Proof.
  intros Hd Ho Hn Hb. pose proof (bk_len _ (bread_ok Himg d b Hd)) as Hlen. pose proof (Z.mod_pos_bound o 1024 ltac:(lia)) as Hm.
  apply list_eq_same_length with n; [by rewrite length_take_le by (rewrite length_drop; lia)|apply fbytes_length|].
  intros k x y Hk. rewrite fbytes_lookup, lookup_take_lt, lookup_drop by done. intros [= <-] Hy.
  unfold fbyte. assert ((o + Z.of_nat k) / 1024 = o / 1024) as -> by dlia. rewrite Hb. cbn [default from_option]. apply nth_lookup_Some.
  replace (Z.to_nat ((o + Z.of_nat k) mod 1024)) with (Z.to_nat (o mod 1024) + k)%nat by dlia. exact Hy.
Qed.

(** [minix_read]'s loop returns the bytes up to the end of the file. *)
Lemma read_loop_ok d mi : disk_ok d -> boot_zero d -> length (i_zone mi) = 9%nat ->
  0 <= i_size mi <= z9idx_end_ind2 * 1024 -> mapped_to d (i_zone mi) (nblk (i_size mi)) ->
  forall fuel rem o, 0 <= rem -> 0 <= o -> (Z.to_nat rem < fuel)%nat ->
  read_loop fuel d mi rem o = Ok (fbytes d (i_zone mi) o (Z.to_nat (Z.min rem (i_size mi - o)))).
Proof.
  intros Hd Hb Hl Hs Hmap. change z9idx_end_ind2 with 262663 in Hs. induction fuel as [|fuel IH]; intros rem o Hr Ho Hf; [lia|]. cbn [read_loop].
  destruct (Z.ltb_spec 0 rem) as [Hr0|]; cbn [andb]; [|by replace (Z.to_nat (Z.min rem (i_size mi - o))) with 0%nat by lia].
  destruct (Z.ltb_spec o (i_size mi)) as [Ho1|]; [|by replace (Z.to_nat (Z.min rem (i_size mi - o))) with 0%nat by lia].
  change BLKSZ with 1024. rewrite (wrap_small 32) by dlia. rewrite zget_fzone by (done || (change z9idx_end_ind2 with 262663; dlia)). cbn [res_bind].
  destruct (Hmap (o / 1024)) as [b Eb]; [unfold nblk; dlia|]. rewrite Eb.
  set (c := if i_size mi - o <? _ then _ else _).
  assert (c = Z.min (Z.min rem (i_size mi - o)) (1024 - o mod 1024)) as Hc.
  { unfold c. destruct (Z.ltb_spec rem (1024 - o mod 1024)); [destruct (Z.ltb_spec (i_size mi - o) rem)|destruct (Z.ltb_spec (i_size mi - o) (1024 - o mod 1024))]; lia. }
  clearbody c. pose proof (Z.mod_pos_bound o 1024 ltac:(lia)) as Hm. pose proof (bk_len _ (bread_ok Himg d b Hd)) as Hlen.
  rewrite ld_take by lia. cbn [res_bind]. rewrite (wrap_small 64) by lia. rewrite IH by lia. cbn [res_bind].
  rewrite <- (fbytes_block d (i_zone mi) o) by (done || lia). f_equal.
  replace (Z.to_nat (Z.min rem (i_size mi - o))) with (Z.to_nat c + Z.to_nat (Z.min (rem - c) (i_size mi - (o + c))))%nat by lia.
  rewrite fbytes_app. do 2 f_equal. lia.
Qed.


(** ** Writing *)

(** A file kept its blocks, possibly got more, and nothing else changed. *)
Record fkeeps (d d' : disk) (zone zone' : list Z) (Xs Xs' : list (list Z)) : Prop := {
  fk_ok : file_ok sb d' zone' Xs';
  fk_boot : boot_zero d';
  fk_zone : forall i z, 0 <= i < z9idx_end_ind2 -> fzone d zone i = Some z -> fzone d' zone' i = Some z;
  fk_other : blocks_but d d' (fun c => zmap_blk sb c \/ c ∈ concat Xs');
  fk_old : forall c, c ∈ concat Xs -> c ∈ concat Xs';
  fk_new : forall c, c ∈ concat Xs' -> c ∈ concat Xs \/ (firstdatazone sb <= c < 65536 /\ zused sb d c = false);
  fk_used : forall c, firstdatazone sb <= c -> zused sb d' c = zused sb d c || bool_decide (c ∈ concat Xs')
}.

Lemma used_self d Xs c : zones_used sb d (concat Xs) -> firstdatazone sb <= c -> zused sb d c = zused sb d c || bool_decide (c ∈ concat Xs).
Proof.
  intros Hu Hc. destruct (decide (c ∈ concat Xs)) as [Hin|Hin]; [|by rewrite (bool_decide_false (c ∈ concat Xs)), orb_false_r].
  destruct (Hu c Hin) as [_ ->]. done.
Qed.

Lemma fkeeps_refl d zone Xs : file_ok sb d zone Xs -> boot_zero d -> fkeeps d d zone zone Xs Xs.
Proof. intros Hf Hb. split; try done; [by left|]. intros c Hc. apply used_self; [by destruct Hf|done]. Qed.

Lemma fkeeps_trans d1 d2 d3 z1 z2 z3 X1 X2 X3 : fkeeps d1 d2 z1 z2 X1 X2 -> fkeeps d2 d3 z2 z3 X2 X3 -> fkeeps d1 d3 z1 z3 X1 X3.
Proof.
  intros [A1 A2 A3 A4 A5 A6 A7] [B1 B2 B3 B4 B5 B6 B7]. split; try done.
  - intros i z Hi Hz. by apply B3, A3.
  - intros c Hc. rewrite B4 by done. apply A4. intros [Hm|Hx]; apply Hc; [by left|right; by apply B5].
  - intros c Hc. by apply B5, A5.
  - intros c Hc. destruct (B6 c Hc) as [Hx|[Hr Hf]]; [by apply A6|]. right. split; [done|]. rewrite A7 in Hf by lia. by apply orb_false_iff in Hf as [? _].
  - intros c Hc. rewrite B7, A7 by done. rewrite <- orb_assoc. f_equal. destruct (decide (c ∈ concat X2)) as [Hin|Hin].
    + rewrite (bool_decide_true (c ∈ concat X2)), (bool_decide_true (c ∈ concat X3)) by auto. done.
    + by rewrite (bool_decide_false (c ∈ concat X2)).
Qed.

Lemma fgrown_keeps d d' zone zone' Xs Xs' h new : file_ok sb d zone Xs -> boot_zero d -> fhole d zone h ->
  fgrown sb d d' zone zone' Xs Xs' h new -> fkeeps d d' zone zone' Xs Xs'.
Proof.
  intros Hok Hb (Hr & Hh & _) G. pose proof (fgrown_ok sb d d' zone zone' Xs Xs' h new Hok G) as Hok'. pose proof (fdz_pos sb Hsb) as Hp.
  destruct G as [G1 G2 G3 G4 G5 G6 G7 G8 G9 G10 G11 G12]. split; try done.
  - unfold boot_zero. rewrite G6; [done|]. intros [Hm|Hx]; [apply (zmap_below sb Hsb) in Hm; lia|]. destruct (fo_used _ _ _ _ Hok' 0 Hx). lia.
  - intros i z Hi Hz. rewrite G4; [done|done|congruence].
Qed.

(** A data block is replaced. *)
Lemma fput_keeps d zone Xs j b x : file_ok sb d zone Xs -> boot_zero d -> 0 <= j < z9idx_end_ind2 -> fzone d zone j = Some b -> blk_ok x ->
  fkeeps d (bput d b x) zone zone Xs Xs /\ forall i, 0 <= i < z9idx_end_ind2 -> fzone (bput d b x) zone i = fzone d zone i.
Proof.
  intros [Hd Hm Hf Hnd Hu] Hb Hj Hz Hx. pose proof (fzone_in d zone Xs j b Hf Hj Hz) as Hin. destruct (Hu b Hin) as [Hr _]. pose proof (fdz_pos sb Hsb) as Hp.
  assert (blocks_but d (bput d b x) (fun c => c = b)) as Hbut by (intros c Hc; by apply bread_bput_ne).
  destruct (fowns_data d (bput d b x) zone Xs b j Hbut Hf Hnd Hj Hz) as [Hf' Hz'].
  assert (forall m, zmap_blk sb m -> bread (bput d b x) m = bread d m) as Hfr by (intros m Hmm; apply bread_bput_ne; apply (zmap_below sb Hsb) in Hmm; lia).
  assert (forall c, firstdatazone sb <= c -> zused sb (bput d b x) c = zused sb d c) as Hus by (intros c Hc; by apply zused_frame).
  split; [|done]. split; try done.
  - split; [by apply bput_ok|by eapply zmap_frame|done|done|]. intros c Hc. destruct (Hu c Hc) as [Hrc Huc]. split; [done|]. by rewrite Hus by lia.
  - unfold boot_zero. rewrite bread_bput_ne by lia. done.
  - intros i z Hi Hzi. by rewrite Hz'.
  - intros c Hc. apply Hbut. intros ->. apply Hc. by right.
  - by left.
  - intros c Hc. rewrite Hus by done. by apply used_self.
Qed.

(** The lowest hole is the end of a file without holes. *)
Lemma hole_at_end d zone h j : fhole d zone h -> mapped_to d zone j -> fzone d zone j = None -> 0 <= j -> h = j.
Proof.
  intros (Hr & Hh & Hl) Hm Hn Hj. destruct (Z.lt_trichotomy h j) as [Hlt|[|Hgt]]; [|done|].
  - destruct (Hm h) as [y Hy]; [lia|congruence].
  - destruct (Hl j) as [y Hy]; [lia|congruence].
Qed.

(** The block for index [j], added if the file ends there. *)
Lemma locate_ok d zone Xs j k : file_ok sb d zone Xs -> boot_zero d -> 0 <= j < z9idx_end_ind2 -> mapped_to d zone j -> nfree sb d (3 + k) ->
  fzone d zone j = None -> exists b zone' d' Xs', minix_zext sb d zone 1 = Ok (0, zone', d') /\ minix_zget d' zone' j = Ok (Some b) /\
    fzone d' zone' j = Some b /\ fkeeps d d' zone zone' Xs Xs' /\ nfree sb d' k /\
    forall i c, 0 <= i < z9idx_end_ind2 -> fzone d zone i = Some c -> bread d' c = bread d c.
Proof.
  intros Hok Hb Hj Hm Hn Hz. destruct (minix_zext_ok sb Himg Hsb d zone Xs k Hok Hn) as [(zone' & d' & E & h & new & Xs' & Hh & G & Hn')|Hfull].
  - pose proof (hole_at_end d zone h j Hh Hm Hz ltac:(lia)) as ->. pose proof (fgrown_keeps _ _ _ _ _ _ _ _ Hok Hb Hh G) as Hk.
    exists new, zone', d', Xs'. destruct G as [G1 G2 G3 G4 G5 G6 G7 G8 G9 G10 G11 G12]. split_and!; try done.
    rewrite (zget_fzone Himg); [by rewrite G3|done|by destruct Hk|by destruct G1|done].
  - destruct (Hfull j Hj) as [y Hy]. congruence.
Qed.

(** The bytes of a file after one of its blocks was replaced. *)
Lemma fbyte_put d zone Xs j b x i : file_ok sb d zone Xs -> boot_zero d -> 0 <= j < z9idx_end_ind2 -> fzone d zone j = Some b -> blk_ok x ->
  0 <= i < z9idx_end_ind2 * 1024 -> fbyte (bput d b x) zone i = if i / 1024 =? j then nth (Z.to_nat (i mod 1024)) x 0 else fbyte d zone i.
Proof.
  intros Hok Hb Hj Hz Hx Hi. change z9idx_end_ind2 with 262663 in Hi. unfold fbyte. assert (0 <= i / 1024 < z9idx_end_ind2) as Hir by (change z9idx_end_ind2 with 262663; dlia).
  rewrite (proj2 (fput_keeps d zone Xs j b x Hok Hb Hj Hz Hx)) by done. destruct Hok as [Hd Hm Hf Hnd Hu]. pose proof (fdz_pos sb Hsb) as Hp.
  destruct (Z.eqb_spec (i / 1024) j) as [->|Hne].
  - rewrite Hz. cbn [default from_option]. by rewrite bread_bput_eq.
  - rewrite bread_bput_ne; [done|]. destruct (fzone d zone (i / 1024)) as [c|] eqn:Ec; cbn [default from_option id]; unfold id.
    + intros ->. apply Hne. by eapply fzone_inj.
    + destruct (Hu b (fzone_in d zone Xs j b Hf Hj Hz)). lia.
Qed.

(** The zones a write may need. *)
Definition steps (o len : Z) : Z := if len =? 0 then 0 else nblk (o + len) - o / 1024.

(** What a write does. *)
Record fwritten (d d' : disk) (zone zone' : list Z) (Xs Xs' : list (list Z)) (o : Z) (src : list Z) : Prop := {
  fw_keeps : fkeeps d d' zone zone' Xs Xs';
  fw_mapped : forall i, o <= i < o + Z.of_nat (length src) -> is_Some (fzone d' zone' (i / 1024));
  fw_data : forall k, (k < length src)%nat -> fbyte d' zone' (o + Z.of_nat k) = nth k src 0;
  fw_rest : forall i, 0 <= i < z9idx_end_ind2 * 1024 -> is_Some (fzone d zone (i / 1024)) -> ~ o <= i < o + Z.of_nat (length src) ->
    fbyte d' zone' i = fbyte d zone i
}.

(** One block of a write. *)
Lemma fwrite_block d zone Xs j b o src : file_ok sb d zone Xs -> boot_zero d -> 0 <= o -> j = o / 1024 -> 0 <= j < z9idx_end_ind2 ->
  fzone d zone j = Some b -> bytes_ok src -> o mod 1024 + Z.of_nat (length src) <= 1024 ->
  st (bread d b) (o mod 1024) src = Ok (splice (bread d b) (Z.to_nat (o mod 1024)) src) /\
  fwritten d (bput d b (splice (bread d b) (Z.to_nat (o mod 1024)) src)) zone zone Xs Xs o src /\
  forall k, nfree sb d k -> nfree sb (bput d b (splice (bread d b) (Z.to_nat (o mod 1024)) src)) k.
Proof.
  intros Hok Hb Ho -> Hj Hz Hbs Hlen. pose proof (fo_disk _ _ _ _ Hok) as Hd. pose proof (bread_ok Himg d b Hd) as Hbk. pose proof (bk_len _ Hbk) as Hbl.
  pose proof (Z.mod_pos_bound o 1024 ltac:(lia)) as Hm.
  assert (blk_ok (splice (bread d b) (Z.to_nat (o mod 1024)) src)) as Hx by (apply splice_ok; [done|lia|done]).
  split; [by apply st_splice; lia|]. destruct (fput_keeps d zone Xs _ b _ Hok Hb Hj Hz Hx) as [Hk Hsame].
  split; [split|].
  - done.
  - intros i Hi. assert (i / 1024 = o / 1024) as -> by dlia. rewrite Hsame by done. by eexists.
  - intros k Hlt. change z9idx_end_ind2 with 262663 in *. erewrite fbyte_put by (done || (change z9idx_end_ind2 with 262663; dlia)).
    assert ((o + Z.of_nat k) / 1024 = o / 1024) as -> by dlia. rewrite Z.eqb_refl. rewrite nth_splice, decide_True by dlia. f_equal. dlia.
  - intros i Hi _ Hout. change z9idx_end_ind2 with 262663 in *. erewrite fbyte_put by (done || (change z9idx_end_ind2 with 262663; dlia)).
    destruct (Z.eqb_spec (i / 1024) (o / 1024)) as [Ei|]; [|done]. rewrite nth_splice, decide_False by dlia. unfold fbyte. by rewrite Ei, Hz.
  - intros k. apply nfree_frame. intros m Hmm%(zmap_below sb Hsb). apply bread_bput_ne.
    destruct (fo_used _ _ _ _ Hok b (fzone_in d zone Xs _ b (fo_owns _ _ _ _ Hok) Hj Hz)). lia.
Qed.

Lemma kept_mapped d d' zone zone' Xs Xs' j : fkeeps d d' zone zone' Xs Xs' -> 0 <= j < z9idx_end_ind2 -> is_Some (fzone d zone j) -> is_Some (fzone d' zone' j).
Proof. intros Hk Hj [z Hz]. exists z. by apply (fk_zone _ _ _ _ _ _ Hk). Qed.

Lemma fwritten_app d d1 d2 zone z1 z2 Xs X1 X2 o s1 s2 : 0 <= o -> o + Z.of_nat (length (s1 ++ s2)) <= z9idx_end_ind2 * 1024 ->
  fwritten d d1 zone z1 Xs X1 o s1 -> fwritten d1 d2 z1 z2 X1 X2 (o + Z.of_nat (length s1)) s2 -> fwritten d d2 zone z2 Xs X2 o (s1 ++ s2).
Proof.
  rewrite length_app. intros Ho Hl [A1 A2 A3 A4] [B1 B2 B3 B4].
  assert (forall i, 0 <= i < z9idx_end_ind2 * 1024 -> 0 <= i / 1024 < z9idx_end_ind2) as Hr.
  { intros i Hi. change z9idx_end_ind2 with 262663 in *. dlia. }
  split.
  - by eapply fkeeps_trans.
  - intros i Hi. rewrite length_app in Hi. destruct (decide (i < o + Z.of_nat (length s1))); [|apply B2; lia].
    eapply kept_mapped; [done|apply Hr; lia|]. apply A2. lia.
  - intros k Hk. rewrite length_app in Hk. destruct (decide (k < length s1)%nat).
    + rewrite B4; [rewrite app_nth1 by done; by apply A3|lia|apply A2; lia|lia].
    + rewrite app_nth2 by lia. rewrite <- B3 by lia. f_equal. lia.
  - intros i Hi Hm Hout. rewrite length_app in Hout. rewrite B4; [apply A4; [done|done|lia]|done| |lia].
    eapply kept_mapped; [done|by apply Hr|done].
Qed.

Lemma locate_written d d' zone zone' Xs Xs' o : fkeeps d d' zone zone' Xs Xs' ->
  (forall i c, 0 <= i < z9idx_end_ind2 -> fzone d zone i = Some c -> bread d' c = bread d c) -> fwritten d d' zone zone' Xs Xs' o [].
Proof.
  intros Hk Hd. split; [done|intros i Hi; cbn in Hi; lia|intros k Hlt; cbn in Hlt; lia|]. intros i Hi [z Hz] _. unfold fbyte.
  assert (0 <= i / 1024 < z9idx_end_ind2) as Hr by (change z9idx_end_ind2 with 262663 in *; dlia).
  rewrite Hz, (fk_zone _ _ _ _ _ _ Hk _ z Hr Hz). cbn [default from_option]. unfold id. by rewrite (Hd _ _ Hr Hz).
Qed.

(** The lookup of [minix_write] with the extension of the file. *)
Lemma locate_any d zone Xs j o k : file_ok sb d zone Xs -> boot_zero d -> 0 <= j < z9idx_end_ind2 -> mapped_to d zone j -> nfree sb d (3 + k) ->
  exists b z1 d1 X1, fzone d1 z1 j = Some b /\ fwritten d d1 zone z1 Xs X1 o [] /\ nfree sb d1 k /\
    (match fzone d zone j with
     | Some b => Ok (Some (Some b), zone, d)
     | None => let! r := minix_zext sb d zone 1 in let '(err, zone, d) := r in
         if negb (err =? 0) then Ok (None, zone, d) else let! z := minix_zget d zone j in Ok (Some z, zone, d)
     end) = Ok (Some (Some b), z1, d1).
Proof.
  intros Hok Hb Hj Hm Hn. destruct (fzone d zone j) as [b|] eqn:Eb.
  - exists b, zone, d, Xs. split_and!; [done|by apply locate_written; [apply fkeeps_refl|]|eapply nfree_le; [done|lia]|done].
  - destruct (locate_ok d zone Xs j k Hok Hb Hj Hm Hn Eb) as (b & z1 & d1 & X1 & E1 & E2 & E3 & Hk & Hn2 & Hd).
    exists b, z1, d1, X1. rewrite E1. cbn [res_bind Z.eqb negb]. rewrite E2. split_and!; [done|by apply locate_written|done|done].
Qed.

Lemma steps_next o c len : 0 <= o -> 0 < c <= len -> (c < len -> c = 1024 - o mod 1024) -> 1 + Z.max 0 (steps (o + c) (len - c)) <= steps o len.
Proof.
  intros Ho Hc Hc3. unfold steps. rewrite (proj2 (Z.eqb_neq len 0)) by lia.
  destruct (Z.eqb_spec (len - c) 0) as [|Hne]; unfold nblk; [dlia|]. specialize (Hc3 ltac:(lia)).
  replace (o + c + (len - c)) with (o + len) by lia. dlia.
Qed.

Lemma write_loop_ok fuel : forall d zone Xs src o tot k, (length src < fuel)%nat ->
  file_ok sb d zone Xs -> boot_zero d -> mapped_to d zone (o / 1024) -> 0 <= o -> o + Z.of_nat (length src) <= z9idx_end_ind2 * 1024 -> bytes_ok src ->
  nfree sb d (3 * Z.to_nat (steps o (Z.of_nat (length src))) + k) ->
  exists zone' d' Xs', write_loop sb fuel d zone src o tot = Ok (o + Z.of_nat (length src), tot + Z.of_nat (length src), zone', d') /\
    fwritten d d' zone zone' Xs Xs' o src /\ nfree sb d' k.
Proof.
  induction fuel as [|fuel IH]; intros d zone Xs src o tot k Hfu Hok Hb Hm Ho Hl Hbs Hn; [lia|]. cbn [write_loop].
  destruct (Z.ltb_spec 0 (Z.of_nat (length src))) as [Hpos|Hz].
  2: { destruct src; [|cbn in Hz; lia]. exists zone, d, Xs. cbn [length] in *. rewrite !Z.add_0_r. split_and!; [done| |done].
       apply locate_written; [by apply fkeeps_refl|done]. }
  assert (0 <= o / BLKSZ < z9idx_end_ind2) as Hj by (change BLKSZ with 1024; change z9idx_end_ind2 with 262663 in *; dlia).
  rewrite (wrap_small 32) by (change z9idx_end_ind2 with 262663 in Hj; lia). rewrite (proj2 (Z.leb_gt _ _)) by lia. rewrite (zget_fzone Himg) by (done || by destruct Hok as [? ? [? _]]). cbn [res_bind]. change BLKSZ with 1024 in *.
  set (c := if Z.of_nat (length src) <? 1024 - o mod 1024 then Z.of_nat (length src) else 1024 - o mod 1024).
  pose proof (Z.mod_pos_bound o 1024 ltac:(lia)) as Hmod.
  assert (0 < c <= Z.of_nat (length src) /\ o mod 1024 + c <= 1024 /\ (c < Z.of_nat (length src) -> c = 1024 - o mod 1024)) as (Hc1 & Hc2 & Hc3).
  { unfold c. destruct (Z.ltb_spec (Z.of_nat (length src)) (1024 - o mod 1024)); lia. }
  clearbody c. set (s1 := take (Z.to_nat c) src). set (s2 := drop (Z.to_nat c) src).
  assert (length s1 = Z.to_nat c) as Hl1 by (apply length_take_le; lia). assert (length s2 = (length src - Z.to_nat c)%nat) as Hl2 by apply length_drop.
  pose proof (steps_next o c (Z.of_nat (length src)) Ho Hc1 Hc3) as Hst.
  destruct (locate_any d zone Xs (o / 1024) o (3 * Z.to_nat (steps (o + c) (Z.of_nat (length s2))) + k) Hok Hb Hj Hm) as (b & z1 & d1 & X1 & Hz1 & W1 & Hn2 & ->).
  { eapply nfree_le; [exact Hn|]. replace (Z.of_nat (length s2)) with (Z.of_nat (length src) - c) by lia. lia. }
  cbn [res_bind deref]. rewrite (wrap_small 64) by (change z9idx_end_ind2 with 262663 in *; lia).
  destruct (fwrite_block d1 z1 X1 (o / 1024) b o s1) as (Est & W2 & Hfr); [by destruct W1 as [[]]|by destruct W1 as [[]]|done|done|done|done|by apply Forall_take|lia|].
  fold s1 s2. rewrite Est. cbn [res_bind]. set (d2 := bput d1 b _) in *.
  assert (fwritten d d2 zone z1 Xs X1 o s1) as W12.
  { change s1 with ([] ++ s1). eapply (fwritten_app d d1); [done|cbn [app]; lia|done|]. cbn [length]. by rewrite Z.add_0_r. }
  destruct (IH d2 z1 X1 s2 (o + c) (tot + c) k) as (z' & d' & X' & E & W3 & Hn3).
  - lia.
  - by destruct W2 as [[]].
  - by destruct W2 as [[]].
  - intros i Hi. destruct (decide (i = o / 1024)) as [->|Hne].
    + pose proof (fw_mapped _ _ _ _ _ _ _ _ W2 o) as Hmo. apply Hmo. lia.
    + eapply (kept_mapped d d2); [by destruct W12| |apply Hm]; assert (i < o / 1024) by dlia; lia.
  - lia.
  - lia.
  - by apply Forall_drop.
  - by apply Hfr.
  - exists z', d', X'. replace (Z.of_nat (length src)) with (c + Z.of_nat (length s2)) by lia. rewrite E, !Z.add_assoc. split_and!; [done| |done]. rewrite <- (take_drop (Z.to_nat c) src). fold s1 s2.
    eapply (fwritten_app d d2); [done|rewrite length_app; lia|done|]. by replace (o + Z.of_nat (length s1)) with (o + c) by lia.
Qed.


(** ** [minix_read] and [minix_write] *)

(** A file in use: its inode, its blocks [Xs] and no holes before its end. *)
Record node_ok (d : disk) (this : mnode) (Xs : list (list Z)) : Prop := {
  no_inode : inode_ok (n_pdata this);
  no_size : n_siz this = i_size (n_pdata this);
  no_file : file_ok sb d (i_zone (n_pdata this)) Xs;
  no_boot : boot_zero d;
  no_max : i_size (n_pdata this) <= z9idx_end_ind2 * 1024;
  no_dense : mapped_to d (i_zone (n_pdata this)) (nblk (i_size (n_pdata this)));
  no_ino : 1 <= n_ino this <= sb_inodes sb
}.

Definition contents (d : disk) (this : mnode) : list Z := fbytes d (i_zone (n_pdata this)) 0 (Z.to_nat (i_size (n_pdata this))).

Lemma fbytes_drop d zone o n k : fbytes d zone (o + Z.of_nat k) n = drop k (fbytes d zone o (k + n)).
Proof. rewrite fbytes_app. by rewrite drop_app_length' by (symmetry; apply fbytes_length). Qed.

Lemma fbytes_take d zone o n k : (k <= n)%nat -> fbytes d zone o k = take k (fbytes d zone o n).
Proof. intros Hk. replace n with (k + (n - k))%nat by lia. rewrite fbytes_app. by rewrite take_app_length' by (symmetry; apply fbytes_length). Qed.

(** [minix_read] returns the bytes from [offset] on, as many as wanted and there. *)
Lemma read_ok d this Xs siz o : node_ok d this Xs -> 0 <= siz -> 0 <= o ->
  exists this', minix_read d this siz o = Ok (take (Z.to_nat siz) (drop (Z.to_nat o) (contents d this)), this') /\
    n_pdata this' = n_pdata this /\ n_siz this' = n_siz this /\ n_ino this' = n_ino this /\ n_mode this' = n_mode this.
Proof.
  intros [Hi Hs Hf Hb Hm Hd Hn] Hsz Ho. unfold minix_read. rewrite Hs. unfold contents. destruct (Z.leb_spec (i_size (n_pdata this)) o) as [Hle|Hlt].
  - exists this. split; [|done]. rewrite drop_ge by (rewrite fbytes_length; lia). by rewrite take_nil.
  - pose proof (io_size _ Hi) as Hr. rewrite read_loop_ok by (done || lia || by destruct Hf as [? ? [? _]]). cbn [res_bind]. exists (this <| n_atime := now |>). split; [|done]. do 2 f_equal.
    pose proof (fbytes_drop d (i_zone (n_pdata this)) 0 (Z.to_nat (i_size (n_pdata this) - o)) (Z.to_nat o)) as E.
    replace (0 + Z.of_nat (Z.to_nat o)) with o in E by lia. replace (Z.to_nat o + _)%nat with (Z.to_nat (i_size (n_pdata this))) in E by lia. rewrite <- E.
    destruct (Z.le_gt_cases siz (i_size (n_pdata this) - o)).
    + rewrite Z.min_l by lia. apply fbytes_take. lia.
    + rewrite Z.min_r by lia. rewrite take_ge; [done|]. rewrite fbytes_length. lia.
Qed.

(** The contents after a write that starts in the file or at its end. *)
Lemma written_bytes d d' zone zone' Xs Xs' o src size : fwritten d d' zone zone' Xs Xs' o src ->
  0 <= o <= size -> size <= z9idx_end_ind2 * 1024 -> mapped_to d zone (nblk size) ->
  fbytes d' zone' 0 (Z.to_nat (Z.max size (o + Z.of_nat (length src)))) =
  take (Z.to_nat o) (fbytes d zone 0 (Z.to_nat size)) ++ src ++ drop (Z.to_nat o + length src) (fbytes d zone 0 (Z.to_nat size)).
Proof.
  intros [W1 W2 W3 W4] Ho Hs Hm. set (C := fbytes d zone 0 (Z.to_nat size)). assert (length C = Z.to_nat size) as HC by apply fbytes_length.
  assert (forall i : nat, Z.of_nat i < size -> ~ o <= Z.of_nat i < o + Z.of_nat (length src) -> Some (fbyte d' zone' (Z.of_nat i)) = C !! i) as Hold.
  { intros i Hi Hout. unfold C. rewrite fbytes_lookup by lia. rewrite Z.add_0_l. f_equal. change z9idx_end_ind2 with 262663 in *. apply W4; [change z9idx_end_ind2 with 262663; lia| |done].
    apply Hm. unfold nblk. dlia. }
  assert (length (take (Z.to_nat o) C) = Z.to_nat o) as Htk by (apply length_take_le; lia).
  apply list_eq_same_length with (Z.to_nat (Z.max size (o + Z.of_nat (length src)))); [|apply fbytes_length|].
  { rewrite !length_app, Htk, length_drop. lia. }
  intros i x y Hi Hx Hy. rewrite fbytes_lookup, Z.add_0_l in Hx by done. injection Hx as <-. symmetry. apply (inj Some). rewrite <- Hy.
  destruct (decide (i < Z.to_nat o)%nat); [|destruct (decide (i < Z.to_nat o + length src)%nat)].
  - rewrite lookup_app_l, lookup_take_lt by lia. symmetry. apply Hold; lia.
  - rewrite lookup_app_r, lookup_app_l by lia. rewrite Htk. pose proof (W3 (i - Z.to_nat o)%nat ltac:(lia)) as E.
    replace (o + Z.of_nat (i - Z.to_nat o)) with (Z.of_nat i) in E by lia. rewrite E. by destruct (nth_lookup_or_length src (i - Z.to_nat o) 0) as [|]; [|lia].
  - rewrite lookup_app_r by lia. rewrite lookup_app_r by lia. rewrite lookup_drop, Htk. replace (Z.to_nat o + length src + _)%nat with i by lia. symmetry. apply Hold; lia.
Qed.

Lemma zmap_not_inode m : zmap_blk sb m -> ~ inode_blk m.
Proof. unfold zmap_blk, map_blk, inode_blk, minix_inode_blk, minix_zmap. pose proof (so_zmap _ Hsb). lia. Qed.

(** The inode table is apart from the blocks of the files. *)
Lemma inode_frame d d' zone Xs : disk_ok d' -> blocks_but d d' inode_blk -> file_ok sb d zone Xs -> boot_zero d ->
  file_ok sb d' zone Xs /\ boot_zero d' /\ (forall i, 0 <= i < z9idx_end_ind2 -> fzone d' zone i = fzone d zone i) /\
  (forall c, firstdatazone sb <= c -> bread d' c = bread d c) /\ forall k, nfree sb d k -> nfree sb d' k.
Proof.
  intros Hd' Hbut [Hd Hm Hf Hnd Hu] Hb.
  assert (forall c, firstdatazone sb <= c -> bread d' c = bread d c) as Hc by (intros c Hc; apply Hbut; unfold inode_blk; lia).
  assert (forall m, zmap_blk sb m -> bread d' m = bread d m) as Hz by (intros m Hmm; by apply Hbut, zmap_not_inode).
  destruct (fowns_frame d d' zone Xs Hf) as [Hf' Hfz]; [intros c Hin; apply Hc; by apply Hu|]. split_and!; try done.
  - split; [done|by eapply zmap_frame|done|done|]. intros c Hin. destruct (Hu c Hin) as [Hr Huc]. split; [done|]. rewrite (zused_frame sb d) by (done || lia). done.
  - unfold boot_zero. rewrite Hbut; [done|]. unfold inode_blk, minix_inode_blk. destruct Hsb. lia.
  - intros k. by apply nfree_frame.
Qed.

Lemma contents_frame d d' zone Xs n : file_ok sb d zone Xs -> Z.of_nat n <= z9idx_end_ind2 * 1024 -> mapped_to d zone (nblk (Z.of_nat n)) ->
  (forall i, 0 <= i < z9idx_end_ind2 -> fzone d' zone i = fzone d zone i) ->
  (forall c, c ∈ concat Xs -> bread d' c = bread d c) -> fbytes d' zone 0 n = fbytes d zone 0 n.
Proof.
  intros Hf Hn Hm Hz Hc. unfold fbytes. apply map_ext_in. intros k Hk%in_seq. unfold fbyte.
  assert (0 <= (0 + Z.of_nat k) / 1024 < z9idx_end_ind2) as Hr by (change z9idx_end_ind2 with 262663 in *; dlia).
  rewrite Hz by done. destruct (Hm ((0 + Z.of_nat k) / 1024)) as [z Ez]; [unfold nblk; dlia|]. rewrite Ez. cbn [default from_option]. unfold id. rewrite Hc; [done|].
  eapply fzone_in; [by destruct Hf|done|done].
Qed.

Lemma zones_range d zone Xs : file_ok sb d zone Xs -> Forall (fun z => 0 <= z < 65536) zone.
Proof.
  intros [_ _ Hf _ Hu]. apply Forall_lookup. intros j z Hj. pose proof (lookup_lt_Some _ _ _ Hj) as Hlt. pose proof Hf as (Hl & HlX & _).
  destruct (lookup_lt_is_Some_2 Xs j) as [Xj HXj]; [lia|]. pose proof (nth_lookup_Some zone j 0 z Hj) as En. destruct (decide (z = 0)) as [->|Hz]; [lia|].
  pose proof (fowns_at d zone Xs j Xj Hf HXj ltac:(by rewrite En)) as Ht. apply towns_self in Ht. rewrite En in Ht.
  destruct (Hu z) as [Hr _]; [by eapply concat_elem|]. pose proof (fdz_pos sb Hsb). lia.
Qed.

(** What [minix_write] of [src] at [o] did to the file [this]. *)
Record wrote (d d' : disk) (this this' : mnode) (Xs Xs' : list (list Z)) (o : Z) (src : list Z) : Prop := {
  wr_node : node_ok d' this' Xs';
  wr_contents : contents d' this' =
    take (Z.to_nat o) (contents d this) ++ src ++ drop (Z.to_nat o + length src) (contents d this);
  wr_inode : i_size (n_pdata this) < o + Z.of_nat (length src) -> minix_iget sb d' (n_ino this) = Ok (Some (n_pdata this'));
  wr_inodes : forall i, 1 <= i <= sb_inodes sb -> i <> n_ino this -> minix_iget sb d' i = minix_iget sb d i;
  wr_ino : n_ino this' = n_ino this;
  wr_mode : n_mode this' = n_mode this;
  wr_new : forall c, c ∈ concat Xs' -> c ∈ concat Xs \/ zused sb d c = false;
  wr_others : forall c, firstdatazone sb <= c -> c ∉ concat Xs' -> bread d' c = bread d c;
  wr_used : forall c, firstdatazone sb <= c -> zused sb d c = true -> zused sb d' c = true
}.

Lemma iget_frame d d' i : 1 <= i <= sb_inodes sb -> (forall c, inode_blk c -> bread d' c = bread d c) -> minix_iget sb d' i = minix_iget sb d i.
Proof. intros Hi Hc. rewrite !iget_in by done. by rewrite Hc by by apply inode_place. Qed.

(** The inode in memory after the loop, and the inode block that may be written. *)
Lemma wrote_node d d1 d2 this this' zone' Xs Xs' o src : node_ok d this Xs -> 0 <= o <= i_size (n_pdata this) ->
  o + Z.of_nat (length src) <= z9idx_end_ind2 * 1024 ->
  fwritten d d1 (i_zone (n_pdata this)) zone' Xs Xs' o src -> blocks_but d1 d2 inode_blk -> disk_ok d2 ->
  inode_ok (n_pdata this') -> i_zone (n_pdata this') = zone' -> n_ino this' = n_ino this -> n_mode this' = n_mode this -> n_siz this' = i_size (n_pdata this') ->
  i_size (n_pdata this') = Z.max (i_size (n_pdata this)) (o + Z.of_nat (length src)) ->
  (i_size (n_pdata this) < o + Z.of_nat (length src) -> minix_iget sb d2 (n_ino this) = Ok (Some (n_pdata this'))) ->
  (forall i, 1 <= i <= sb_inodes sb -> i <> n_ino this -> minix_iget sb d2 i = minix_iget sb d1 i) ->
  wrote d d2 this this' Xs Xs' o src /\ forall k, nfree sb d1 k -> nfree sb d2 k.
Proof.
  intros [Hi Hs Hf Hb Hm Hd Hn] Ho Hl W Hbut Hd2 Hi' <- Hino Hmo Hsz Hsz' Hg Hoth.
  pose proof (fw_keeps _ _ _ _ _ _ _ _ W) as [K1 K2 K3 K4 K5 K6 K7]. pose proof (written_bytes _ _ _ _ _ _ o src _ W Ho Hm Hd) as Hbytes.
  destruct (inode_frame d1 d2 _ Xs' Hd2 Hbut K1 K2) as (F1 & F2 & F3 & F4 & F5). split; [|exact F5].
  assert (mapped_to d1 (i_zone (n_pdata this')) (nblk (i_size (n_pdata this')))) as Hmap.
  { intros i Hr. rewrite Hsz' in Hr. change z9idx_end_ind2 with 262663 in *. destruct (decide (i < nblk (i_size (n_pdata this)))).
    - eapply (kept_mapped d d1); [by destruct W|change z9idx_end_ind2 with 262663; unfold nblk in *; dlia|apply Hd; lia].
    - destruct (fw_mapped _ _ _ _ _ _ _ _ W (Z.max o (i * 1024))) as [z Ez]; [unfold nblk in *; dlia|].
      replace (Z.max o (i * 1024) / 1024) with i in Ez by (unfold nblk in *; dlia). by exists z. }
  split; [| |exact Hg| |exact Hino|exact Hmo| | |].
  - split; [done|done|done|done|rewrite Hsz'; lia| |by rewrite Hino]. intros i Hr. rewrite F3; [by apply Hmap|].
    rewrite Hsz' in Hr. change z9idx_end_ind2 with 262663 in *. unfold nblk in *. dlia.
  - unfold contents. rewrite Hsz', <- Hbytes. pose proof (io_size _ Hi). eapply contents_frame; [exact K1|lia| |done|].
    + rewrite Z2Nat.id by lia. by rewrite <- Hsz'.
    + intros c Hc. apply F4. by apply (fo_used _ _ _ _ K1).
  - intros i Hr Hne. rewrite Hoth by done. apply iget_frame; [done|]. intros c Hc. apply K4. intros [Hz|Hx].
    + by apply zmap_not_inode in Hz.
    + destruct (fo_used _ _ _ _ K1 c Hx). unfold inode_blk in Hc. lia.
  - intros c Hc. destruct (K6 c Hc) as [|[_ ?]]; [by left|by right].
  - intros c Hr Hc. rewrite F4 by done. apply K4. intros [Hz|Hx]; [|done]. apply (zmap_below sb Hsb) in Hz. lia.
  - intros c Hr Hc. rewrite (zused_frame sb d1 d2), K7, Hc by (done || intros m Hz; by apply Hbut, zmap_not_inode). done.
Qed.

(** Writing to one file leaves another one as it was. *)
Lemma wrote_other d d' this this' Xs Xs' o src other Ys : wrote d d' this this' Xs Xs' o src -> node_ok d other Ys ->
  (forall c, c ∈ concat Xs -> c ∉ concat Ys) ->
  node_ok d' other Ys /\ contents d' other = contents d other /\ forall c, c ∈ concat Xs' -> c ∉ concat Ys.
Proof.
  intros [W1 W2 W3 W4 W5 _ W6 W7 W8] [Hi Hs Hf Hb Hm Hd Hn] Hdis. destruct W1 as [Wi Ws Wf Wb Wm Wd Wn].
  assert (forall c, c ∈ concat Xs' -> c ∉ concat Ys) as Hdis'.
  { intros c Hc Hy. destruct (W6 c Hc) as [Hx|Hu]; [by apply (Hdis c)|]. destruct (fo_used _ _ _ _ Hf c Hy) as [_ Hu']. congruence. }
  assert (forall c, c ∈ concat Ys -> bread d' c = bread d c) as Hsame.
  { intros c Hc. apply W7; [by apply (fo_used _ _ _ _ Hf)|]. intros Hx. by apply (Hdis' c). }
  destruct (fowns_frame d d' _ Ys (fo_owns _ _ _ _ Hf) Hsame) as [Ho Hz]. pose proof (io_size _ Hi) as Hsz.
  assert (mapped_to d' (i_zone (n_pdata other)) (nblk (i_size (n_pdata other)))) as Hmap.
  { intros i Hr. rewrite Hz; [by apply Hd|]. change z9idx_end_ind2 with 262663 in *. unfold nblk in Hr. dlia. }
  split_and!; [|unfold contents; eapply contents_frame; [exact Hf|lia|by rewrite Z2Nat.id by lia|done|done]|done].
  split; try assumption. destruct Hf as [F1 F2 F3 F4 F5]. split; [by destruct Wf|by destruct Wf|done|done|]. intros c Hc. destruct (F5 c Hc) as [Hr Hu].
  split; [done|]. apply W8; [lia|done].
Qed.

Lemma write_ok d this Xs src o k : node_ok d this Xs -> 0 <= o <= i_size (n_pdata this) -> src <> [] -> bytes_ok src ->
  o + Z.of_nat (length src) <= z9idx_end_ind2 * 1024 -> sb_inodes sb < 65536 ->
  nfree sb d (3 * Z.to_nat (steps o (Z.of_nat (length src))) + k) ->
  exists this' d' Xs', minix_write sb d this src o = Ok (Z.of_nat (length src), this', d') /\
    wrote d d' this this' Xs Xs' o src /\ nfree sb d' k.
Proof.
  intros Hok Ho Hne Hbs Hl Hin Hfr. pose proof Hok as [Hi Hs Hf Hb Hm Hd Hn]. unfold minix_write. assert (0 < Z.of_nat (length src)) as Hpos by (destruct src; [done|cbn; lia]).
  destruct (write_loop_ok (S (length src)) d (i_zone (n_pdata this)) Xs src o 0 k) as (zone' & d1 & Xs' & E & W & Hk1); try done || lia.
  { intros i Hii. apply Hd. unfold nblk. dlia. }
  rewrite E. cbn [res_bind]. rewrite Z.add_0_l, (proj2 (Z.ltb_lt 0 _)) by lia.
  assert (i32 (Z.of_nat (length src)) = Z.of_nat (length src)) as -> by (change z9idx_end_ind2 with 262663 in *; apply signed_small; lia).
  pose proof (fk_ok _ _ _ _ _ _ (fw_keeps _ _ _ _ _ _ _ _ W)) as K1. pose proof (zones_range d1 zone' Xs' K1) as Hzr.
  assert (length zone' = 9%nat) as Hzl by (by destruct K1 as [? ? [? _]]).
  destruct Hi as [I1 I2 I3 I4 I5 I6 I7 I8].
  destruct (Z.ltb_spec (i_size (n_pdata (set_zone this zone'))) (o + Z.of_nat (length src))) as [Hlt|Hge]; cbn in Hlt || cbn in Hge.
  - assert (u32 (o + Z.of_nat (length src)) = o + Z.of_nat (length src)) as -> by (change z9idx_end_ind2 with 262663 in *; apply wrap_small; lia).
    set (this' := set_size _ _ _). set (this2 := this' <| n_pdata := _ |>).
    assert (inode_ok (n_pdata this2)) as Hi2.
    { split; cbn; try done; [change z9idx_end_ind2 with 262663 in *; lia|]. apply Z.mod_pos_bound. lia. }
    destruct (isync_ok d1 (n_pdata this2) (n_ino this2)) as (d2 & E2 & [S1 S2 S3 S4]); [by destruct K1|done|done|done|].
    rewrite E2. cbn [res_bind]. exists this2, d2, Xs'. split; [done|].
    destruct (wrote_node d d1 d2 this this2 zone' Xs Xs' o src) as [Hw Hk]; try done; [cbn; lia|]. split; [done|]. by apply Hk.
  - cbn [res_bind]. exists (set_zone this zone'), d1, Xs'. split; [done|].
    destruct (wrote_node d d1 d1 this (set_zone this zone') zone' Xs Xs' o src) as [Hw Hk]; try done; [by destruct K1|cbn; lia|lia].
Qed.

End Files.

(** C4: a write that starts inside a file or at its end, with enough free zones on a disk whose boot
    block is zero, writes everything; a later read at any place returns the old contents with the new bytes put
    over them; blocks taken were free, the blocks of other files and the other inodes stay,
    and the inode on disk is the one in memory when the file grew. *)
Theorem minix_write_read `{MinixEnv} (sb : minix_super) (d : disk) (this : mnode) (Xs : list (list Z)) (src : list Z) (o : Z) :
  image_ok -> sb_ok sb -> sb_inodes sb < 65536 -> node_ok sb d this Xs -> 0 <= o <= i_size (n_pdata this) -> src <> [] -> bytes_ok src ->
  o + Z.of_nat (length src) <= z9idx_end_ind2 * 1024 -> nfree sb d (3 * Z.to_nat (steps o (Z.of_nat (length src)))) ->
  exists this' d' Xs', minix_write sb d this src o = Ok (Z.of_nat (length src), this', d') /\ wrote sb d d' this this' Xs Xs' o src /\
    forall siz o', 0 <= siz -> 0 <= o' -> exists this'',
      minix_read d' this' siz o' = Ok (take (Z.to_nat siz) (drop (Z.to_nat o') (overwrite (contents d this) o src)), this'').
Proof.
  intros Himg Hsb Hin Hok Ho Hne Hbs Hl Hn. destruct (write_ok sb Himg Hsb d this Xs src o 0 Hok Ho Hne Hbs Hl Hin) as (this' & d' & Xs' & E & W & _).
  { eapply nfree_le; [done|lia]. }
  exists this', d', Xs'. split_and!; [done|done|]. intros siz o' Hs Ho'.
  destruct (read_ok sb Himg d' this' Xs' siz o' (wr_node _ _ _ _ _ _ _ _ _ W) Hs Ho') as (this'' & Er & _). exists this''.
  rewrite Er, (wr_contents _ _ _ _ _ _ _ _ _ W). done.
Qed.

(** A blank disk with an empty file. *)
Definition blank_env : MinixEnv := {| image := fun _ => zero_blk; now := 7; euid := 0; egid := 0 |}.

Definition blank_sb : minix_super := MinixSuper 32 100 1 1 5.

Definition empty_file : mnode := Mnode [] 0 2 0 0 S_IFREG 0 0 0 0 (MinixInode S_IFREG 0 0 0 0 1 (replicate 9 0)).

Lemma blank_image : @image_ok blank_env.
Proof. intros b. apply zero_blk_ok. Qed.

Lemma blank_sb_ok : sb_ok blank_sb.
Proof. split; vm_compute; congruence. Qed.

Lemma blank_free first n : 0 <= n < xmapnr_perblk -> @xbit blank_env ∅ first n = false.
Proof.
  intros Hn. unfold xbit, bit. cbn [bm_map]. change (@bread blank_env ∅ (first + n / xmapnr_perblk)) with (replicate 1024 0).
  change xmapnr_perblk with 8192 in *. change mpembs with 8. rewrite (lookup_total_replicate_2 1024) by dlia. apply Z.testbit_0_l.
Qed.

Lemma blank_nfree : @nfree blank_env blank_sb ∅ 3.
Proof.
  exists [0; 1; 2]. split_and!; [by repeat constructor; set_solver|done|]. intros n Hn. change (xsize (sb_zones blank_sb)) with 8192.
  assert (0 <= n < 8192) as Hr by (rewrite !elem_of_cons, elem_of_nil in Hn; lia). split; [done|by apply blank_free].
Qed.

Lemma blank_node : @node_ok blank_env blank_sb ∅ empty_file (replicate 9 []).
Proof.
  split; [split; done || by repeat constructor|done|split| | | |].
  - intros b x Hx. done.
  - intros n Hn _. change (xsize (sb_zones blank_sb)) with 8192 in Hn. cbn. lia.
  - split_and!; [done|done|]. intros j Xj [-> Hj]%lookup_replicate. change (i_zone (n_pdata empty_file)) with (replicate 9 0). by rewrite nth_zeros.
  - constructor.
  - intros c Hc. by apply elem_of_nil in Hc.
  - done.
  - vm_compute. discriminate.
  - intros i Hi. change (nblk (i_size (n_pdata empty_file))) with 0 in Hi. lia.
  - cbn. lia.
Qed.

Lemma minix_write_read_witness : exists this' d' this'',
  @minix_write blank_env blank_sb ∅ empty_file [10; 20; 30] 0 = Ok (3, this', d') /\ @minix_read blank_env d' this' 2 1 = Ok ([20; 30], this'').
Proof.
  destruct (@minix_write_read blank_env blank_sb ∅ empty_file (replicate 9 []) [10; 20; 30] 0) as (this' & d' & Xs' & E & _ & Hr).
  - exact blank_image.
  - exact blank_sb_ok.
  - reflexivity.
  - exact blank_node.
  - cbn. lia.
  - discriminate.
  - repeat constructor; unfold is_byte; lia.
  - vm_compute. discriminate.
  - exact blank_nfree.
  - destruct (Hr 2 1) as [this'' Er]; [lia|lia|]. exists this', d', this''. split; [exact E|]. exact Er.
Defined.

(** C29: an inode written to the inode table with [minix_isync] is what [minix_iget] reads from
    there, and every other inode, those of the same block included, is what it was. *)
Theorem inode_sync_roundtrip `{MinixEnv} (sb : minix_super) (d : disk) (mi : minix_inode) (ino : Z) :
  image_ok -> sb_ok sb -> disk_ok d -> inode_ok mi -> 1 <= ino <= sb_inodes sb -> sb_inodes sb < 65536 ->
  exists d', minix_isync sb d mi ino = Ok d' /\ minix_iget sb d' ino = Ok (Some mi) /\
    forall i, 1 <= i <= sb_inodes sb -> i <> ino -> minix_iget sb d' i = minix_iget sb d i.
Proof.
  intros Himg Hsb Hd Hm Hi Hs. destruct (isync_ok sb Himg Hsb d mi ino Hd Hm Hi Hs) as (d' & E & [I1 I2 I3 I4]). by exists d'.
Qed.

Lemma inode_sync_roundtrip_witness : exists d', @minix_isync blank_env blank_sb ∅ (n_pdata empty_file) 2 = Ok d' /\
  @minix_iget blank_env blank_sb d' 2 = Ok (Some (n_pdata empty_file)).
Proof.
  destruct (@inode_sync_roundtrip blank_env blank_sb ∅ (n_pdata empty_file) 2) as (d' & E & Hg & _).
  - exact blank_image.
  - exact blank_sb_ok.
  - intros b x Hx. discriminate.
  - apply blank_node.
  - cbn. lia.
  - reflexivity.
  - exists d'. exact (conj E Hg).
Defined.

(** writing to a file at a place that is a block or more behind its last block ends in a
    null dereference: [minix_zext] fills the lowest hole, and the wanted block is still missing. *)
Theorem write_past_end_faults `{MinixEnv} (sb : minix_super) (d : disk) (this : mnode) (Xs : list (list Z)) (src : list Z) (o h : Z) :
  image_ok -> sb_ok sb -> node_ok sb d this Xs -> src <> [] -> nfree sb d 3 -> 0 <= h < o / 1024 -> o / 1024 < z9idx_end_ind2 ->
  fzone d (i_zone (n_pdata this)) h = None -> fzone d (i_zone (n_pdata this)) (o / 1024) = None ->
  minix_write sb d this src o = Fault NullDeref.
Proof.
  intros Himg Hsb [Hi Hs Hf Hb Hm Hd Hn] Hne Hfr Hh Ho Hzh Hzo. unfold minix_write. cbn [write_loop].
  rewrite (proj2 (Z.ltb_lt 0 _)) by (destruct src; [done|cbn; lia]). change BLKSZ with 1024. rewrite (wrap_small 32) by (change z9idx_end_ind2 with 262663 in *; lia). rewrite (proj2 (Z.leb_gt _ _)) by lia.
  pose proof (proj1 (fo_owns _ _ _ _ Hf)) as Hl. rewrite (zget_fzone Himg) by (done || lia || by destruct Hf). cbn [res_bind]. rewrite Hzo.
  destruct (minix_zext_ok sb Himg Hsb d _ Xs 0 Hf) as [(zone' & d' & E & h' & new & Xs' & Hh' & G & _)|Hfull].
  - eapply nfree_le; [done|lia].
  - rewrite E. cbn [res_bind Z.eqb negb]. pose proof (fgrown_keeps sb Hsb _ _ _ _ _ _ _ _ Hf Hb Hh' G) as [K1 K2 _ _ _ _ _].
    rewrite (zget_fzone Himg) by (done || lia || by destruct K1 as [? ? [? _]]). cbn [res_bind]. rewrite (fg_else _ _ _ _ _ _ _ _ _ G), Hzo; [done|lia|].
    intros <-. destruct Hh' as (_ & _ & Hl'). destruct (Hl' h) as [y Hy]; [lia|congruence].
  - destruct (Hfull h) as [y Hy]; [lia|congruence].
Qed.

Lemma write_past_end_faults_witness : @minix_write blank_env blank_sb ∅ empty_file [1] 1024 = Fault NullDeref.
Proof.
  apply (@write_past_end_faults blank_env blank_sb ∅ empty_file (replicate 9 []) [1] 1024 0).
  - exact blank_image.
  - exact blank_sb_ok.
  - exact blank_node.
  - discriminate.
  - exact blank_nfree.
  - split; reflexivity || discriminate.
  - reflexivity.
  - reflexivity.
  - reflexivity.
Defined.

Section Inodes.
Context `{MinixEnv} (sb : minix_super) (Himg : image_ok) (Hin : 0 <= sb_inodes sb < 65536).

Lemma ialloc_ok d : disk_ok d ->
  (exists n d', minix_ialloc sb d = Ok (u16 (n + 1), d') /\ xtaken d d' (minix_imap sb) (sb_inodes sb) n) \/
  (minix_ialloc sb d = Ok (0, d) /\ forall m, 0 <= m < xsize (sb_inodes sb) -> xbit d (minix_imap sb) m = true).
Proof.
  intros Hd. unfold minix_ialloc.
  destruct (xalloc_loop_ok Himg (minix_imap sb) (sb_inodes sb) d (map_fuel (sb_inodes sb)) Hd 0) as [(n & d' & E & T)|(E & Hall)];
    [lia|done|intros; lia| | | |].
  - unfold map_fuel. rewrite Z.div_0_l by (unfold xmapnr_perblk, BLKSZ; lia). unfold xmapnr_perblk, BLKSZ. dlia.
  - unfold xsize, xmapnr_perblk, BLKSZ. dlia.
  - left. rewrite E. by exists n, d'.
  - right. by rewrite E.
Qed.

(** [minix_ifree] clears the bit of the number it is given. *)
Lemma ifree_ok d n : disk_ok d -> 0 <= n ->
  exists d', minix_ifree sb d n = Ok d' /\ disk_ok d' /\
  forall m, 0 <= m -> xbit d' (minix_imap sb) m = xbit d (minix_imap sb) m && negb (m =? n).
Proof.
  intros Hd Hn. unfold minix_ifree, xfree. set (i := n / xmapnr_perblk * xmapnr_perblk).
  assert (i mod xmapnr_perblk = 0 /\ n / xmapnr_perblk = i / xmapnr_perblk /\ n = i + n mod xmapnr_perblk /\ 0 <= n mod xmapnr_perblk < xmapnr_perblk) as (Hi & Hq & Hsp & Hr)
    by (subst i; unfold xmapnr_perblk, BLKSZ; dlia).
  rewrite Z.add_comm, Hq. pose proof (bread_ok Himg d (minix_imap sb + i / xmapnr_perblk) Hd) as Hb.
  pose proof (proj1 (blk_bitmap _) Hb) as [Hbm Hlen].
  destruct (bitmap_reset_spec _ (n mod xmapnr_perblk) Hbm Hr) as (b' & E & Hok & Hbits & Hbit). rewrite E. cbn [res_bind].
  eexists. split; [done|]. split.
  - apply bput_ok; [done|]. apply blk_bitmap. pose proof (reset_length _ _ _ E) as Hl. cbn [bm_map] in Hl.
    split; [|lia]. destruct Hok as [O1 O2 O3]. rewrite Hbits in *. by split.
  - intros m Hm. rewrite xbit_bput by done. case_decide as Hdm.
    + change (bit (Bitmap (bm_map b') xmapnr_perblk) (m - i)) with (bit b' (m - i)). rewrite Hbit by lia.
      replace m with (i + (m - i)) at 3 by lia. rewrite xbit_at by (done || lia).
      destruct (Z.eqb_spec (n mod xmapnr_perblk) (m - i)), (Z.eqb_spec m n); try lia; by rewrite ?andb_true_r, ?andb_false_r.
    + destruct (Z.eqb_spec m n); [lia|]. by rewrite andb_true_r.
Qed.

(** C40: the number [minix_ialloc] returns is one more than the bit it took, and [minix_ifree]
    clears the bit of the number itself.  So on every disk: when a new file was given inode
    [ino] and the file with the inode before it is removed, the next file is given inode
    [ino] as well, which is in use. *)
Theorem inode_given_twice d ino d1 :
  disk_ok d -> minix_ialloc sb d = Ok (ino, d1) -> 1 < ino ->
  exists d2 d3, minix_ifree sb d1 (ino - 1) = Ok d2 /\ minix_ialloc sb d2 = Ok (ino, d3).
Proof.
  intros Hd E Hino. destruct (ialloc_ok d Hd) as [(n & d' & E' & [T1 T2 T3 T4 T5 T6])|(E' & _)]; rewrite E in E'; injection E' as -> ->; [|lia].
  assert (u16 (n + 1) = n + 1) as Hw.
  { destruct (decide (n + 1 = 65536)) as [En|]; [rewrite En in Hino; by vm_compute in Hino|].
    apply wrap_small. unfold xsize, xmapnr_perblk, BLKSZ in *. dlia. }
  rewrite Hw. replace (n + 1 - 1) with n by lia. destruct (ifree_ok d' n T6) as (d2 & E2 & Hd2 & B2); [lia|].
  exists d2. destruct (ialloc_ok d2 Hd2) as [(k & d3 & E3 & [U1 U2 U3 U4 U5 U6])|(_ & Hall)].
  - exists d3. split; [done|]. rewrite E3. replace k with n; [by rewrite Hw|].
    destruct (Z.lt_trichotomy n k) as [Hlt|[|Hlt]]; [|done|].
    + specialize (U3 n ltac:(lia)). by rewrite B2, Z.eqb_refl, andb_false_r in U3 by lia.
    + rewrite B2, T4, T3 in U2 by lia. by destruct (Z.eqb_spec k n); [lia|].
  - specialize (Hall n T1). by rewrite B2, Z.eqb_refl, andb_false_r in Hall by lia.
Qed.

End Inodes.

Lemma inode_given_twice_witness :
  exists d1 d2 d3, @minix_ialloc blank_env blank_sb (<[2 := 1 :: replicate 1023 0]> ∅) = Ok (2, d1) /\
  @minix_ifree blank_env blank_sb d1 1 = Ok d2 /\ @minix_ialloc blank_env blank_sb d2 = Ok (2, d3).
Proof.
  assert (exists d1, @minix_ialloc blank_env blank_sb (<[2 := 1 :: replicate 1023 0]> ∅) = Ok (2, d1)) as [d1 E]
    by (vm_compute; by eexists).
  exists d1. destruct (@inode_given_twice blank_env blank_sb blank_image ltac:(split; [discriminate|reflexivity]) (<[2 := 1 :: replicate 1023 0]> ∅) 2 d1) as (d2 & d3 & E2 & E3).
  - apply bput_ok; [by intros ? ?|]. split; [done|]. apply Forall_cons. split; [done|by apply Forall_replicate].
  - exact E.
  - reflexivity.
  - exists d2, d3. by split_and!.
Defined.
