(* ===== verification/File.v ===== *)
(** * Open files

    The file descriptors of a task and the open file descriptions they share:
    [kernel/file.c].  What a node does when it is opened, read or written is an interface
    ([NodeOps]); the file system of Minix.v is one of its instances. *)
From Stdlib Require Import ZArith Lia List Bool.
From stdpp Require Import base list gmap.
From S2P Require Import Prelude.

#[local] Open Scope Z_scope.

(** [bits/fcntl.h], [bits/lseek.h] and [textos/task.h] *)
Definition MAX_FILE : Z := 32.
Definition O_ACCMODE : Z := 3.
Definition O_RDONLY : Z := 0.
Definition O_WRONLY : Z := 1.
Definition O_RDWR : Z := 2.
Definition O_TRUNC : Z := 0x200.
Definition O_APPEND : Z := 0x400.
Definition O_DIRECTORY : Z := 0x10000.
Definition F_DUPFD : Z := 0.
Definition F_GETFD : Z := 1.
Definition F_SETFD : Z := 2.
Definition F_GETFL : Z := 3.
Definition F_SETFL : Z := 4.
Definition SEEK_SET : Z := 0.
Definition SEEK_CUR : Z := 1.
Definition SEEK_END : Z := 2.
Definition IOV_MAX : Z := 1024.

(** [file_t]; the directory context and the poll context are left to the calls that use them. *)
Record file := File { offset : Z; fnode : Z; flgs : Z; fdfl : Z; refer : Z }.

#[export] Instance eta_file : Eta file := fun f => File (offset f) (fnode f) (flgs f) (fdfl f) (refer f).

(** The nodes: [vfs_open], [vfs_close], [vfs_truncate], the anonymous pipe, and the operations in
    a node's table.  Every call returns the [int] of the C function first. *)
Class NodeOps (S : Type) := {
  op_open : S -> Z -> list Z -> Z -> Z -> res (Z * option Z * S);
  op_close : S -> Z -> res (Z * S);
  op_truncate : S -> Z -> Z -> res (Z * S);
  op_mkpipe : S -> res (Z * Z * S);
  op_read : S -> Z -> Z -> Z -> res (Z * list Z * S);
  op_write : S -> Z -> list Z -> Z -> res (Z * S);
  op_siz : S -> Z -> Z;
  op_isdir : S -> Z -> bool;
  (** what the memory of a new [file_t] holds *)
  junk : Z -> file
}.

(** The open files of the kernel, the address the next one gets, the descriptors and the
    directory of the calling task, and the nodes. *)
Record fstate (S : Type) := Fstate {
  filps : gmap Z file;
  brk : Z;
  tab : list (option Z);
  pwd : Z;
  nodes : S
}.
Arguments Fstate {S} filps brk tab pwd nodes.
Arguments filps {S} f.
Arguments brk {S} f.
Arguments tab {S} f.
Arguments pwd {S} f.
Arguments nodes {S} f.

#[export] Instance eta_fstate (S : Type) : Eta (fstate S) := fun s => Fstate (filps s) (brk s) (tab s) (pwd s) (nodes s).

Section File.
Context {S : Type} `{NodeOps S}.

Definition fd_scan (t : list (option Z)) := fix go (k : nat) (i : Z) : res Z :=
  match k with
  | O => Ok (- EMFILE)
  | Datatypes.S k =>
      if i <? MAX_FILE then
        let! e := aget t i in
        match e with
        | None => Ok i
        | Some _ => go k (i + 1)
        end
      else Ok (- EMFILE)
  end.

(** The loop makes at most [MAX_FILE - min] rounds. *)
Definition fd_get (st : fstate S) (min : Z) : res Z := fd_scan (tab st) (Z.to_nat (MAX_FILE - min)) min.

(** [from_fd]: nothing for [-EBADF], else the open file. *)
Definition fd_verify (st : fstate S) (fd : Z) : option Z :=
  if fd <? 0 then None
  else if MAX_FILE <=? fd then None
  else match tab st !! Z.to_nat fd with
       | Some (Some a) => Some a
       | _ => None
       end.

Definition set_file (st : fstate S) (a : Z) (f : file) : fstate S := st <| filps := <[a := f]> (filps st) |>.

(** [file_get]; the table is written at whatever [fd_get] returned. *)
Definition file_get (st : fstate S) (min : Z) : res (Z * Z * fstate S) :=
  let! fd := fd_get st min in
  let a := brk st in
  let! t := aset (tab st) fd (Some a) in
  Ok (fd, a, (set_file st a (junk a)) <| brk := a + 1 |> <| tab := t |>).

Definition file_put (st : fstate S) (fd : Z) : res (Z * fstate S) :=
  let! e := aget (tab st) fd in
  match e with
  | None => Ok (- EMFILE, st)
  | Some a =>
      let! t := aset (tab st) fd None in
      Ok (0, st <| filps := delete a (filps st) |> <| tab := t |>)
  end.

(** The label [fail] of [open]. *)
Definition open_fail (st : fstate S) (fd ret : Z) (node : option Z) : res (Z * fstate S) :=
  let! st := (match node with
              | Some n => let! c := op_close (nodes st) n in Ok (st <| nodes := snd c |>)
              | None => Ok st
              end) in
  let! p := file_put st fd in
  Ok (ret, snd p).

(** [open] *)
Definition sys_open (st : fstate S) (path : list Z) (fl mode : Z) : res (Z * fstate S) :=
  let mode := Z.land mode 511 in
  let! r := file_get st 0 in
  let '(fd, a, st) := r in
  if fd <? 0 then Ok (- EMFILE, st)
  else
    let! o := op_open (nodes st) (pwd st) path fl mode in
    let '(ret, node, s) := o in
    let st := st <| nodes := s |> in
    if ret <? 0 then open_fail st fd ret node
    else
      let! n := deref node in
      if negb (Z.land fl (Z.lor O_WRONLY O_RDWR) =? 0) then
        let! st := (if negb (Z.land fl O_TRUNC =? 0)
                    then let! c := op_truncate (nodes st) n 0 in Ok (st <| nodes := snd c |>) else Ok st) in
        Ok (fd, set_file st a (File 0 n fl (fdfl (junk a)) 1))
      else if negb (Z.land fl O_APPEND =? 0) then open_fail st fd (- EINVAL) node
      else Ok (fd, set_file st a (File 0 n fl (fdfl (junk a)) 1)).

(** [read]: the result, the bytes copied to the caller and the state. *)
Definition sys_read (st : fstate S) (fd cnt : Z) : res (Z * list Z * fstate S) :=
  match fd_verify st fd with
  | None => Ok (- EBADF, [], st)
  | Some a =>
      let! f := deref (filps st !! a) in
      if negb (Z.land (flgs f) O_DIRECTORY =? 0) then Ok (- EISDIR, [], st)
      else if Z.land (flgs f) O_ACCMODE =? O_WRONLY then Ok (- EBADF, [], st)
      else
        let! r := op_read (nodes st) (fnode f) cnt (offset f) in
        let '(ret, bytes, s) := r in
        let st := st <| nodes := s |> in
        if ret <? 0 then Ok (ret, bytes, st)
        else Ok (ret, bytes, set_file st a (f <| offset := u64 (offset f + ret) |>))
  end.

(** [write] *)
Definition sys_write (st : fstate S) (fd : Z) (buf : list Z) : res (Z * fstate S) :=
  match fd_verify st fd with
  | None => Ok (- EBADF, st)
  | Some a =>
      let! f := deref (filps st !! a) in
      if Z.land (flgs f) O_ACCMODE =? O_RDONLY then Ok (- EBADF, st)
      else
        let off := if negb (Z.land (flgs f) O_APPEND =? 0) then op_siz (nodes st) (fnode f) else offset f in
        let! r := op_write (nodes st) (fnode f) buf off in
        let '(ret, s) := r in
        let st := st <| nodes := s |> in
        if ret <? 0 then Ok (ret, st)
        else Ok (ret, set_file st a (f <| offset := u64 (off + ret) |>))
  end.

(** The loop of [readv]; a buffer is its length, or nothing for a null pointer of that length. *)
Fixpoint readv_loop (iov : list (Z * bool)) (st : fstate S) (a : Z) (f : file) (sum : Z) (out : list Z)
    : res (option Z * Z * list Z * fstate S * file) :=
  match iov with
  | [] => Ok (None, sum, out, st, f)
  | (len, base) :: iov =>
      if len =? 0 then readv_loop iov st a f sum out
      else if negb base then Ok (Some (- EINVAL), sum, out, st, f)
      else
        let! r := op_read (nodes st) (fnode f) len (offset f) in
        let '(ret, bytes, s) := r in
        let st := st <| nodes := s |> in
        if ret <? 0 then Ok (Some ret, sum, out, st, f)
        else if ret =? 0 then Ok (None, sum, out, st, f)
        else readv_loop iov st a (f <| offset := u64 (offset f + ret) |>) (sum + ret) (out ++ bytes)
  end.

Definition sys_readv (st : fstate S) (fd : Z) (iov : list (Z * bool)) : res (Z * list Z * fstate S) :=
  match fd_verify st fd with
  | None => Ok (- EBADF, [], st)
  | Some a =>
      let! f := deref (filps st !! a) in
      if negb (Z.land (flgs f) O_DIRECTORY =? 0) then Ok (- EISDIR, [], st)
      else if IOV_MAX <=? Z.of_nat (length iov) then Ok (- EINVAL, [], st)
      else if Z.land (flgs f) O_ACCMODE =? O_WRONLY then Ok (- EBADF, [], st)
      else
        let! r := readv_loop iov st a f 0 [] in
        let '(err, sum, out, st, f') := r in
        match err with
        | None => Ok (sum, out, set_file st a f')
        | Some ret => Ok (ret, out, set_file st a (f' <| offset := offset f |>))
        end
  end.

(** The loop of [writev]; it keeps the place it writes at apart from the file's offset. *)
Fixpoint writev_loop (iov : list (option (list Z) * Z)) (st : fstate S) (f : file) (off sum : Z)
    : res (option Z * Z * fstate S * file) :=
  match iov with
  | [] => Ok (None, sum, st, f)
  | (buf, len) :: iov =>
      if len =? 0 then writev_loop iov st f off sum
      else
        match buf with
        | None => Ok (Some (- EINVAL), sum, st, f)
        | Some bytes =>
            let! r := op_write (nodes st) (fnode f) bytes off in
            let '(ret, s) := r in
            let st := st <| nodes := s |> in
            if (ret <? 0) && negb (ret =? - ENOSPC) then Ok (Some ret, sum, st, f)
            else if ret <=? 0 then Ok (None, sum, st, f)
            else writev_loop iov st (f <| offset := u64 (offset f + ret) |>) (u64 (off + ret)) (sum + ret)
        end
  end.

Definition sys_writev (st : fstate S) (fd : Z) (iov : list (option (list Z) * Z)) : res (Z * fstate S) :=
  match fd_verify st fd with
  | None => Ok (- EBADF, st)
  | Some a =>
      let! f := deref (filps st !! a) in
      if negb (Z.land (flgs f) O_DIRECTORY =? 0) then Ok (- EISDIR, st)
      else if IOV_MAX <=? Z.of_nat (length iov) then Ok (- EINVAL, st)
      else if Z.land (flgs f) O_ACCMODE =? O_RDONLY then Ok (- EBADF, st)
      else
        let oldoff := if negb (Z.land (flgs f) O_APPEND =? 0) then op_siz (nodes st) (fnode f) else offset f in
        let! r := writev_loop iov st f oldoff 0 in
        let '(err, sum, st, f') := r in
        match err with
        | None => Ok (sum, set_file st a f')
        | Some ret =>
            let! c := op_truncate (nodes st) (fnode f) oldoff in
            Ok (ret, (set_file st a (f' <| offset := oldoff |>)) <| nodes := snd c |>)
        end
  end.

(** [lseek]; [off] is signed, the offset of a file is not. *)
Definition sys_lseek (st : fstate S) (fd off whence : Z) : res (Z * fstate S) :=
  match fd_verify st fd with
  | None => Ok (- EBADF, st)
  | Some a =>
      let! f := deref (filps st !! a) in
      if op_isdir (nodes st) (fnode f) then Ok (- EISDIR, st)
      else
        let o := if whence =? SEEK_SET then u64 off
                 else if whence =? SEEK_CUR then u64 (offset f + off)
                 else if whence =? SEEK_END then u64 (op_siz (nodes st) (fnode f) + off)
                 else offset f in
        Ok (i64 o, set_file st a (f <| offset := o |>))
  end.

(** [__file_dec_ref] *)
Definition file_dec_ref (st : fstate S) (a : Z) : res (Z * fstate S) :=
  let! f := deref (filps st !! a) in
  let n := i32 (refer f - 1) in
  if 0 <? n then Ok (0, set_file st a (f <| refer := n |>))
  else
    let! c := op_close (nodes st) (fnode f) in
    Ok (fst c, st <| filps := delete a (filps st) |> <| nodes := snd c |>).

Definition sys_close (st : fstate S) (fd : Z) : res (Z * fstate S) :=
  match fd_verify st fd with
  | None => Ok (- EBADF, st)
  | Some a =>
      let! r := file_dec_ref st a in
      let '(ret, st) := r in
      let! t := aset (tab st) fd None in
      Ok (ret, st <| tab := t |>)
  end.

Definition sys_dup2 (st : fstate S) (old new : Z) : res (Z * fstate S) :=
  match fd_verify st old with
  | None => Ok (- EBADF, st)
  | Some a =>
      if old =? new then Ok (- EINVAL, st)
      else
        let! e := aget (tab st) new in
        let! st := (match e with
                    | Some _ => let! c := sys_close st new in Ok (snd c)
                    | None => Ok st
                    end) in
        let! f := deref (filps st !! a) in
        let! t := aset (tab st) new (Some a) in
        Ok (new, (set_file st a (f <| refer := i32 (refer f + 1) |>)) <| tab := t |>)
  end.

Definition sys_dup (st : fstate S) (fd : Z) : res (Z * fstate S) :=
  let! new := fd_get st 0 in
  if new <? 0 then Ok (- EMFILE, st) else sys_dup2 st fd new.

(** [pipe]: the result and the two descriptors. *)
Definition sys_pipe (st : fstate S) : res (Z * option (Z * Z) * fstate S) :=
  let! r := file_get st 0 in
  let '(fd0, a0, st) := r in
  let! r := file_get st 0 in
  let '(fd1, a1, st) := r in
  let! r := op_mkpipe (nodes st) in
  let '(ret, n, s) := r in
  let st := st <| nodes := s |> in
  if ret <? 0 then
    let! r := file_put st fd1 in
    let! r := file_put (snd r) fd0 in
    Ok (ret, None, snd r)
  else
    let st := set_file st a0 (File (offset (junk a0)) n O_RDONLY (fdfl (junk a0)) 1) in
    let st := set_file st a1 (File (offset (junk a1)) n O_WRONLY (fdfl (junk a1)) 1) in
    Ok (0, Some (fd0, fd1), st).

Definition sys_fcntl (st : fstate S) (fd cmd arg : Z) : res (Z * fstate S) :=
  match fd_verify st fd with
  | None => Ok (- EBADF, st)
  | Some a =>
      let! f := deref (filps st !! a) in
      if cmd =? F_DUPFD then
        let! r := file_get st (i32 arg) in
        let '(newfd, _, st) := r in
        if newfd <? 0 then Ok (fd, st) else sys_dup2 st fd newfd
      else if cmd =? F_GETFD then Ok (fdfl f, st)
      else if cmd =? F_SETFD then Ok (0, set_file st a (f <| fdfl := i32 arg |>))
      else if cmd =? F_GETFL then Ok (flgs f, st)
      else if cmd =? F_SETFL then
        Ok (0, set_file st a (f <| flgs := Z.lor (Z.land (flgs f) (Z.lnot O_APPEND)) (Z.land (i32 arg) O_APPEND) |>))
      else if (5 <=? cmd) && (cmd <=? 11) then Ok (- ENOSYS, st)
      else Ok (- EINVAL, st)
  end.

End File.
