(* ===== verification/FileOk.v ===== *)
(** * The descriptors of a task

    Every descriptor refers to an open file that exists, and the reference count of an open
    file is the number of descriptors that refer to it. *)
From Stdlib Require Import ZArith Lia List Bool.
From stdpp Require Import base list gmap.
From S2P Require Import Prelude File.

#[local] Open Scope Z_scope.

(** How many descriptors of a table refer to the open file [a]. *)
Definition one (e : option Z) (a : Z) : Z := if bool_decide (e = Some a) then 1 else 0.

Fixpoint slots (a : Z) (t : list (option Z)) : Z :=
  match t with
  | [] => 0
  | e :: t => one e a + slots a t
  end.

Lemma slots_app a t u : slots a (t ++ u) = slots a t + slots a u.
Proof. induction t as [|e t IH]; cbn [slots app]; [done|]. rewrite IH. lia. Qed.

Lemma slots_insert a t i e0 e : t !! i = Some e0 -> slots a (<[i := e]> t) = slots a t - one e0 a + one e a.
Proof.
  intros Hi. pose proof (lookup_lt_Some _ _ _ Hi). rewrite <- (take_drop_middle t i e0 Hi) at 2. rewrite insert_take_drop by done.
  rewrite !slots_app. cbn [slots]. lia.
Qed.

Lemma slots_range a t : 0 <= slots a t <= Z.of_nat (length t).
Proof. induction t as [|e t IH]; cbn [slots length]; [lia|]. unfold one. case_bool_decide; lia. Qed.

Lemma slots_in a t i : t !! i = Some (Some a) -> 1 <= slots a t.
Proof.
  intros Hi. rewrite <- (take_drop_middle t i _ Hi), slots_app. cbn [slots]. unfold one. rewrite bool_decide_true by done.
  pose proof (slots_range a (take i t)). pose proof (slots_range a (drop (S i) t)). lia.
Qed.

Lemma slots_out a t : (forall i, t !! i <> Some (Some a)) -> slots a t = 0.
Proof.
  induction t as [|e t IH]; intros Hn; cbn [slots]; [done|]. unfold one. rewrite bool_decide_false; [|intros ->; by apply (Hn 0%nat)].
  rewrite IH; [done|]. intros i. apply (Hn (S i)).
Qed.

Section FileOk.
Context {S : Type} `{NodeOps S} (ext : Z -> Z).

(** [ext] counts the references from the tables of other tasks. *)
Record files_ok (st : fstate S) : Prop := {
  fi_len : length (tab st) = 32%nat;
  fi_brk : forall a, brk st <= a -> filps st !! a = None;
  fi_live : forall i a, tab st !! i = Some (Some a) -> is_Some (filps st !! a);
  fi_refer : forall a f, filps st !! a = Some f -> refer f = slots a (tab st) + ext a /\ 1 <= refer f;
  fi_ext : forall a, 0 <= ext a < 2 ^ 30;
  fi_none : forall a, filps st !! a = None -> ext a = 0
}.

Lemma refer_range (st : fstate S) a f : files_ok st -> filps st !! a = Some f -> 1 <= refer f < 2 ^ 31 - 1.
Proof.
  intros [H1 H2 H3 H4 H5 H6] Hf. destruct (H4 a f Hf) as [E Hr]. pose proof (slots_range a (tab st)) as Hs. pose proof (H5 a) as He. change (2 ^ 30) with 1073741824 in He.
  change (2 ^ 31) with 2147483648. lia.
Qed.

Lemma verify_spec (st : fstate S) fd a : fd_verify st fd = Some a -> 0 <= fd < 32 /\ tab st !! Z.to_nat fd = Some (Some a).
Proof.
  unfold fd_verify, MAX_FILE. destruct (Z.ltb_spec fd 0); [done|]. destruct (Z.leb_spec 32 fd); [done|].
  destruct (tab st !! Z.to_nat fd) as [[b|]|]; [|done..]. intros [= ->]. split; [lia|done].
Qed.

Lemma verify_file (st : fstate S) fd a : files_ok st -> fd_verify st fd = Some a -> exists f, filps st !! a = Some f.
Proof. intros Hok [_ Hv]%verify_spec. by apply (fi_live _ Hok) in Hv as [f Hf]; exists f. Qed.

(** Changing anything of an open file but its count. *)
Lemma set_file_ok (st : fstate S) a f f' : files_ok st -> filps st !! a = Some f -> refer f' = refer f -> files_ok (set_file st a f').
Proof.
  intros [H1 H2 H3 H4 H5 H6] Hf Hr. split; cbn; [done| | | |done|].
  - intros b Hb. rewrite lookup_insert_ne; [by apply H2|]. intros <-. rewrite H2 in Hf by done. done.
  - intros i b Hb. destruct (decide (b = a)) as [->|]; [rewrite lookup_insert_eq; by eexists|]. rewrite lookup_insert_ne by done. by eapply H3.
  - intros b g. destruct (decide (b = a)) as [->|]; [rewrite lookup_insert_eq; intros [= <-]; rewrite Hr; by apply H4|]. rewrite lookup_insert_ne by done. apply H4.
  - intros b [Hb _]%lookup_insert_None. by apply H6.
Qed.

Lemma nodes_ok (st : fstate S) s : files_ok st -> files_ok (st <| nodes := s |>).
Proof. intros [H1 H2 H3 H4 H5 H6]. by split. Qed.

(** A fault inside an operation of a node, or the use of the node that [vfs_open] did not give
    although it reported success. *)
Definition node_fault (e : fault) : Prop :=
  (exists s p path fl m, op_open s p path fl m = Fault e) \/
  (e = NullDeref /\ exists s p path fl m ret s', op_open s p path fl m = Ok (ret, None, s') /\ 0 <= ret) \/
  (exists s n, op_close s n = Fault e) \/
  (exists s n o, op_truncate s n o = Fault e) \/
  (exists s, op_mkpipe s = Fault e) \/
  (exists s n c o, op_read s n c o = Fault e) \/
  (exists s n b o, op_write s n b o = Fault e).

(** The outcome of a call: it returns with [Q], or a node faulted. *)
Definition sound {A : Type} (m : res A) (Q : A -> Prop) : Prop :=
  match m with Ok a => Q a | Fault e => node_fault e end.

Lemma sound_bind {A B : Type} (m : res A) (f : A -> res B) Q R : sound m Q -> (forall a, Q a -> sound (f a) R) -> sound (res_bind m f) R.
Proof. destruct m as [a|e]; cbn; [|done]. intros Hq Hf. by apply Hf. Qed.

Lemma sound_mono {A : Type} (m : res A) (Q R : A -> Prop) : sound m Q -> (forall a, Q a -> R a) -> sound m R.
Proof. destruct m; cbn; [|done]. auto. Qed.

Lemma node_close s n : sound (op_close s n) (fun _ => True).
Proof. unfold sound, node_fault. destruct (op_close s n) eqn:E; [done|]. do 2 right. left. by exists s, n. Qed.

Lemma node_truncate s n o : sound (op_truncate s n o) (fun _ => True).
Proof. unfold sound, node_fault. destruct (op_truncate s n o) eqn:E; [done|]. do 3 right. left. by exists s, n, o. Qed.

Lemma node_mkpipe s : sound (op_mkpipe s) (fun _ => True).
Proof. unfold sound, node_fault. destruct (op_mkpipe s) eqn:E; [done|]. do 4 right. left. by exists s. Qed.

Lemma node_read s n c o : sound (op_read s n c o) (fun _ => True).
Proof. unfold sound, node_fault. destruct (op_read s n c o) eqn:E; [done|]. do 5 right. left. by exists s, n, c, o. Qed.

Lemma node_write s n b o : sound (op_write s n b o) (fun _ => True).
Proof. unfold sound, node_fault. destruct (op_write s n b o) eqn:E; [done|]. do 6 right. by exists s, n, b, o. Qed.

Lemma node_open s p path fl m : sound (op_open s p path fl m) (fun r => forall ret s', r = (ret, None, s') -> 0 <= ret -> node_fault NullDeref).
Proof.
  unfold sound. destruct (op_open s p path fl m) as [[[ret n] s1]|e] eqn:E; [|left; by exists s, p, path, fl, m].
  intros ret' s' [= -> -> ->] Hr. right. left. split; [done|]. by exists s, p, path, fl, m, ret', s'.
Qed.

(** [free_to st i]: the lowest free descriptor from [min] on is [i]. *)
Definition lowest_free (t : list (option Z)) (min i : Z) : Prop :=
  min <= i < 32 /\ t !! Z.to_nat i = Some None /\ forall j, min <= j < i -> exists a, t !! Z.to_nat j = Some (Some a).

Lemma fd_scan_spec (t : list (option Z)) : length t = 32%nat -> forall k i, 0 <= i -> (Z.to_nat (32 - i) <= k)%nat ->
  exists r, fd_scan t k i = Ok r /\ (lowest_free t i r \/ r = - EMFILE /\ forall j, i <= j < 32 -> exists a, t !! Z.to_nat j = Some (Some a)).
Proof.
  intros Hl. induction k as [|k IH]; intros i Hi Hk.
  { exists (- EMFILE). split; [done|]. right. split; [done|]. intros j Hj. lia. }
  cbn [fd_scan]. unfold MAX_FILE. destruct (Z.ltb_spec i 32) as [Hlt|Hge].
  2: { exists (- EMFILE). split; [done|]. right. split; [done|]. intros j Hj. lia. }
  destruct (aget_lt t i ltac:(lia)) as (e & -> & He). cbn [res_bind]. destruct e as [a|].
  - destruct (IH (i + 1) ltac:(lia) ltac:(lia)) as (r & Er & Hr). exists r. split; [exact Er|].
    assert (forall j, i <= j < 32 -> (i + 1 <= j -> exists b, t !! Z.to_nat j = Some (Some b)) -> exists b, t !! Z.to_nat j = Some (Some b)) as Hstep.
    { intros j Hj Hs. destruct (decide (j = i)) as [->|]; [by exists a|apply Hs; lia]. }
    destruct Hr as [(H1 & H2 & H3)|[-> Hall]]; [left|right; split; [done|]].
    + split_and!; [lia|lia|done|]. intros j Hj. apply Hstep; [lia|]. intros. apply H3. lia.
    + intros j Hj. apply Hstep; [lia|]. intros. apply Hall. lia.
  - exists i. split; [done|]. left. split_and!; [lia|lia|done|]. intros j Hj. lia.
Qed.

Lemma fd_get_spec (st : fstate S) (min : Z) : length (tab st) = 32%nat -> 0 <= min ->
  exists r, fd_get st min = Ok r /\ (lowest_free (tab st) min r \/ r = - EMFILE /\ forall j, min <= j < 32 -> exists a, tab st !! Z.to_nat j = Some (Some a)).
Proof. intros Hl Hm. apply fd_scan_spec; [done|done|unfold MAX_FILE; lia]. Qed.

(** A reference less. *)
Lemma dec_ref_ok (st : fstate S) (a : Z) i : files_ok st -> tab st !! i = Some (Some a) ->
  sound (file_dec_ref st a) (fun r => files_ok ((snd r) <| tab := <[i := None]> (tab (snd r)) |>) /\ tab (snd r) = tab st).
Proof.
  intros Hok Hi. pose proof Hok as [H1 H2 H3 H4 H5 H6]. destruct (H3 i a Hi) as [f Hf]. pose proof (refer_range st a f Hok Hf) as Hr. destruct (H4 a f Hf) as [Er _].
  unfold file_dec_ref. rewrite Hf. cbn [deref res_bind]. rewrite signed_small by (change (2 ^ (32 - 1)) with (2 ^ 31); lia).
  assert (forall b, slots b (<[i := None]> (tab st)) = slots b (tab st) - one (Some a) b) as Hs.
  { intros b. rewrite (slots_insert b _ _ _ _ Hi). unfold one at 2. rewrite bool_decide_false by done. lia. }
  assert (forall j b, <[i := None]> (tab st) !! j = Some (Some b) -> tab st !! j = Some (Some b)) as Hsub.
  { intros j b Hj. destruct (decide (j = i)) as [->|]; [rewrite list_lookup_insert_eq in Hj by (by eapply lookup_lt_Some); done|].
    by rewrite list_lookup_insert_ne in Hj. }
  destruct (Z.ltb_spec 0 (refer f - 1)) as [Hlt|Hge].
  - cbn [sound snd]. split; [|done]. split; cbn.
    + by rewrite length_insert.
    + intros b Hb. rewrite lookup_insert_ne; [by apply H2|]. intros <-. by rewrite H2 in Hf.
    + intros j b Hj%Hsub. destruct (decide (b = a)) as [->|]; [rewrite lookup_insert_eq; by eexists|]. rewrite lookup_insert_ne by done. by eapply H3.
    + intros b g. rewrite Hs. destruct (decide (b = a)) as [->|Hne].
      * rewrite lookup_insert_eq. intros [= <-]. cbn. unfold one. rewrite bool_decide_true by done. lia.
      * rewrite lookup_insert_ne by done. unfold one. rewrite bool_decide_false by congruence. intros Hg. destruct (H4 b g Hg). lia.
    + done.
    + intros b [Hb _]%lookup_insert_None. by apply H6.
  - eapply sound_bind; [apply node_close|]. intros [ret s'] _. cbn [sound fst snd]. split; [|done]. split; cbn.
    + by rewrite length_insert.
    + intros b Hb. apply lookup_delete_None. right. by apply H2.
    + intros j b Hj. destruct (decide (b = a)) as [->|].
      * exfalso. assert (slots a (<[i := None]> (tab st)) = 0) as E0.
        { rewrite Hs. unfold one. rewrite bool_decide_true by done. pose proof (slots_in a _ _ Hi). pose proof (H5 a). lia. }
        pose proof (slots_in a _ _ Hj). lia.
      * rewrite lookup_delete_ne by done. eapply H3. by apply Hsub.
    + intros b g [Hne Hg]%lookup_delete_Some. rewrite Hs. unfold one. rewrite bool_decide_false by congruence. destruct (H4 b g Hg). lia.
    + done.
    + intros b [<-|Hb]%lookup_delete_None; [|by apply H6]. pose proof (slots_in a _ _ Hi). pose proof (H5 a). lia.
Qed.

Lemma sys_close_ok (st : fstate S) (fd : Z) : files_ok st ->
  sound (sys_close st fd) (fun r => files_ok (snd r) /\
    (forall a, fd_verify st fd = Some a -> tab (snd r) = <[Z.to_nat fd := None]> (tab st))).
Proof.
  intros Hok. unfold sys_close. destruct (fd_verify st fd) as [a|] eqn:Ev; [|done].
  destruct (verify_spec st fd a Ev) as [Hr Ht]. eapply sound_bind; [by apply (dec_ref_ok st a _ Hok Ht)|]. intros [ret st'] [Hok' Et]. cbn [snd] in *.
  pose proof (fi_len _ Hok) as Hl. rewrite aset_lt by (rewrite Et, Hl; lia). cbn [res_bind sound snd]. split; [done|].
  intros b _. cbn. by rewrite Et.
Qed.

(** A reference more, in a free slot. *)
Lemma add_ref_ok (st : fstate S) (a : Z) f i : files_ok st -> filps st !! a = Some f -> tab st !! i = Some None ->
  files_ok ((set_file st a (f <| refer := i32 (refer f + 1) |>)) <| tab := <[i := Some a]> (tab st) |>).
Proof.
  intros Hok Hf Hi. pose proof (refer_range st a f Hok Hf) as Hr. destruct Hok as [H1 H2 H3 H4 H5 H6]. destruct (H4 a f Hf) as [Er _].
  rewrite signed_small by (change (2 ^ (32 - 1)) with (2 ^ 31); lia).
  assert (forall b, slots b (<[i := Some a]> (tab st)) = slots b (tab st) + one (Some a) b) as Hs.
  { intros b. rewrite (slots_insert b _ _ _ _ Hi). unfold one at 1. rewrite bool_decide_false by done. lia. }
  split; cbn.
  - by rewrite length_insert.
  - intros b Hb. rewrite lookup_insert_ne; [by apply H2|]. intros <-. by rewrite H2 in Hf.
  - intros j b Hj. destruct (decide (b = a)) as [->|Hne]; [rewrite lookup_insert_eq; by eexists|]. rewrite lookup_insert_ne by done.
    destruct (decide (j = i)) as [->|]; [rewrite list_lookup_insert_eq in Hj by (by eapply lookup_lt_Some); congruence|].
    rewrite list_lookup_insert_ne in Hj by done. by eapply H3.
  - intros b g. rewrite Hs. destruct (decide (b = a)) as [->|Hne].
    + rewrite lookup_insert_eq. intros [= <-]. cbn. unfold one. rewrite bool_decide_true by done. lia.
    + rewrite lookup_insert_ne by done. unfold one. rewrite bool_decide_false by congruence. intros Hg. destruct (H4 b g Hg). lia.
  - done.
  - intros b [Hb _]%lookup_insert_None. by apply H6.
Qed.

Lemma sys_dup2_ok (st : fstate S) (old new : Z) : files_ok st -> 0 <= new < 32 -> sound (sys_dup2 st old new) (fun r => files_ok (snd r)).
Proof.
  intros Hok Hnew. pose proof (fi_len _ Hok) as Hl. unfold sys_dup2. destruct (fd_verify st old) as [a|] eqn:Ev; [|done].
  destruct (verify_spec st old a Ev) as [Hr Ht]. destruct (Z.eqb_spec old new) as [|Hne]; [done|].
  destruct (aget_lt (tab st) new ltac:(lia)) as (e & -> & He). cbn [res_bind].
  eapply (sound_bind _ _ (fun st1 => files_ok st1 /\ tab st1 !! Z.to_nat new = Some None /\ tab st1 !! Z.to_nat old = Some (Some a))).
  { destruct e as [b|]; [|done]. eapply sound_bind; [by apply sys_close_ok|]. intros [ret st1] (Hok1 & Et). cbn [sound snd] in *. split; [done|]. rewrite (Et b).
    - rewrite list_lookup_insert_eq by lia. rewrite list_lookup_insert_ne by lia. done.
    - unfold fd_verify, MAX_FILE. rewrite (proj2 (Z.ltb_ge _ _)), (proj2 (Z.leb_gt _ _)) by lia. by rewrite He. }
  intros st1 (Hok1 & Hn1 & Ho1). destruct (fi_live _ Hok1 _ _ Ho1) as [f Hf]. rewrite Hf. cbn [deref res_bind]. pose proof (fi_len _ Hok1) as Hl1.
  rewrite aset_lt by lia. cbn [res_bind sound snd]. by apply add_ref_ok.
Qed.

Lemma sys_dup_ok (st : fstate S) (fd : Z) : files_ok st -> sound (sys_dup st fd) (fun r => files_ok (snd r)).
Proof.
  intros Hok. unfold sys_dup. destruct (fd_get_spec st 0 (fi_len _ Hok) ltac:(lia)) as (r & -> & Hr). cbn [res_bind].
  destruct Hr as [(Hr & _)|[-> _]].
  - rewrite (proj2 (Z.ltb_ge _ _)) by lia. apply sys_dup2_ok; [done|lia].
  - done.
Qed.

Lemma sys_read_ok (st : fstate S) (fd cnt : Z) : files_ok st -> sound (sys_read st fd cnt) (fun r => files_ok (snd r)).
Proof.
  intros Hok. unfold sys_read. destruct (fd_verify st fd) as [a|] eqn:Ev; [|done]. destruct (verify_file st fd a Hok Ev) as [f Hf].
  rewrite Hf. cbn [deref res_bind]. destruct (negb _); [done|]. destruct (_ =? _); [done|].
  eapply sound_bind; [apply node_read|]. intros [[ret b] s'] _. pose proof (nodes_ok st s' Hok) as Hok'.
  destruct (ret <? 0); [done|]. by eapply set_file_ok.
Qed.

Lemma sys_write_ok (st : fstate S) (fd : Z) buf : files_ok st -> sound (sys_write st fd buf) (fun r => files_ok (snd r)).
Proof.
  intros Hok. unfold sys_write. destruct (fd_verify st fd) as [a|] eqn:Ev; [|done]. destruct (verify_file st fd a Hok Ev) as [f Hf].
  rewrite Hf. cbn [deref res_bind]. destruct (_ =? _); [done|].
  eapply sound_bind; [apply node_write|]. intros [ret s'] _. pose proof (nodes_ok st s' Hok) as Hok'. destruct (ret <? 0); [done|]. by eapply set_file_ok.
Qed.

Lemma sys_lseek_ok (st : fstate S) (fd off whence : Z) : files_ok st -> sound (sys_lseek st fd off whence) (fun r => files_ok (snd r)).
Proof.
  intros Hok. unfold sys_lseek. destruct (fd_verify st fd) as [a|] eqn:Ev; [|done]. destruct (verify_file st fd a Hok Ev) as [f Hf].
  rewrite Hf. cbn [deref res_bind]. destruct (op_isdir _ _); [done|]. by eapply set_file_ok.
Qed.

(** The loops of [readv] and [writev] change the nodes and the offset. *)
Lemma readv_loop_ok a iov : forall (st : fstate S) f sum out,
  sound (readv_loop iov st a f sum out) (fun r => (exists s', snd (fst r) = st <| nodes := s' |>) /\ refer (snd r) = refer f).
Proof.
  induction iov as [|[len base] iov IH]; intros st f sum out; cbn [readv_loop]; [split; [exists (nodes st); by destruct st|done]|].
  destruct (len =? 0); [apply IH|]. destruct (negb base); [split; [exists (nodes st); by destruct st|done]|].
  eapply sound_bind; [apply node_read|]. intros [[ret b] s'] _.
  destruct (ret <? 0); [split; [by exists s'|done]|]. destruct (ret =? 0); [split; [by exists s'|done]|].
  eapply sound_mono; [apply IH|]. by intros r [[s2 ->] Hr]; split; [exists s2|].
Qed.

Lemma writev_loop_ok iov : forall (st : fstate S) f off sum,
  sound (writev_loop iov st f off sum) (fun r => (exists s', snd (fst r) = st <| nodes := s' |>) /\ refer (snd r) = refer f).
Proof.
  induction iov as [|[buf len] iov IH]; intros st f off sum; cbn [writev_loop]; [split; [exists (nodes st); by destruct st|done]|].
  destruct (len =? 0); [apply IH|]. destruct buf as [b|]; [|split; [exists (nodes st); by destruct st|done]].
  eapply sound_bind; [apply node_write|]. intros [ret s'] _.
  destruct (_ && _); [split; [by exists s'|done]|]. destruct (ret <=? 0); [split; [by exists s'|done]|].
  eapply sound_mono; [apply IH|]. by intros r [[s2 ->] Hr]; split; [exists s2|].
Qed.

Lemma sys_readv_ok (st : fstate S) (fd : Z) iov : files_ok st -> sound (sys_readv st fd iov) (fun r => files_ok (snd r)).
Proof.
  intros Hok. unfold sys_readv. destruct (fd_verify st fd) as [a|] eqn:Ev; [|done]. destruct (verify_file st fd a Hok Ev) as [f Hf].
  rewrite Hf. cbn [deref res_bind]. destruct (negb _); [done|]. destruct (_ <=? _); [done|]. destruct (_ =? _); [done|].
  eapply sound_bind; [apply readv_loop_ok|]. intros [[[[err sum] out] st'] f'] [[s' Es] Hr]. cbn [fst snd] in *. subst st'. pose proof (nodes_ok st s' Hok) as Hok'.
  destruct err as [e|]; by eapply set_file_ok.
Qed.

Lemma sys_writev_ok (st : fstate S) (fd : Z) iov : files_ok st -> sound (sys_writev st fd iov) (fun r => files_ok (snd r)).
Proof.
  intros Hok. unfold sys_writev. destruct (fd_verify st fd) as [a|] eqn:Ev; [|done]. destruct (verify_file st fd a Hok Ev) as [f Hf].
  rewrite Hf. cbn [deref res_bind]. destruct (negb _); [done|]. destruct (_ <=? _); [done|]. destruct (_ =? _); [done|].
  set (off := if negb _ then _ else _).
  eapply sound_bind; [apply writev_loop_ok|]. intros [[[err sum] st'] f'] [[s' Es] Hr]. cbn [fst snd] in *. subst st'. pose proof (nodes_ok st s' Hok) as Hok'.
  destruct err as [e|]; [|by eapply set_file_ok]. eapply sound_bind; [apply node_truncate|]. intros [r s2] _. cbn [sound snd].
  apply nodes_ok. by eapply set_file_ok.
Qed.

(** A new open file with one reference. *)
Definition with_new (st : fstate S) (i : nat) (f : file) (s : S) : fstate S :=
  Fstate (<[brk st := f]> (filps st)) (brk st + 1) (<[i := Some (brk st)]> (tab st)) (pwd st) s.

Lemma new_file_ok (st : fstate S) i f s : files_ok st -> tab st !! i = Some None -> refer f = 1 -> files_ok (with_new st i f s).
Proof.
  intros Hok Hi Hr. destruct Hok as [H1 H2 H3 H4 H5 H6]. pose proof (H2 (brk st) ltac:(lia)) as Hn.
  assert (forall j, tab st !! j <> Some (Some (brk st))) as Hout by (intros j Hj; apply H3 in Hj as [g Hg]; congruence).
  assert (forall b, slots b (<[i := Some (brk st)]> (tab st)) = slots b (tab st) + one (Some (brk st)) b) as Hs.
  { intros b. rewrite (slots_insert b _ _ _ _ Hi). unfold one at 1. rewrite bool_decide_false by done. lia. }
  split; cbn.
  - by rewrite length_insert.
  - intros b Hb. rewrite lookup_insert_ne by lia. apply H2. lia.
  - intros j b Hj. destruct (decide (b = brk st)) as [->|Hne]; [rewrite lookup_insert_eq; by eexists|]. rewrite lookup_insert_ne by done.
    destruct (decide (j = i)) as [->|]; [rewrite list_lookup_insert_eq in Hj by (by eapply lookup_lt_Some); congruence|].
    rewrite list_lookup_insert_ne in Hj by done. by eapply H3.
  - intros b g. rewrite Hs. destruct (decide (b = brk st)) as [->|Hne].
    + rewrite lookup_insert_eq. intros [= <-]. unfold one. rewrite bool_decide_true, slots_out, H6 by done. lia.
    + rewrite lookup_insert_ne by done. unfold one. rewrite bool_decide_false by congruence. intros Hg. destruct (H4 b g Hg). lia.
  - done.
  - intros b [Hb _]%lookup_insert_None. by apply H6.
Qed.

Lemma brk_ok (st : fstate S) b s : files_ok st -> brk st <= b -> files_ok (Fstate (filps st) b (tab st) (pwd st) s).
Proof. intros [H1 H2 H3 H4 H5 H6] Hb. split; cbn; try done. intros a Ha. apply H2. lia. Qed.

Lemma file_get_spec (st : fstate S) fd : length (tab st) = 32%nat -> lowest_free (tab st) 0 fd ->
  file_get st 0 = Ok (fd, brk st, with_new st (Z.to_nat fd) (junk (brk st)) (nodes st)).
Proof.
  intros Hl Hfr. unfold file_get. destruct (fd_get_spec st 0 Hl ltac:(lia)) as (r & -> & Hr). cbn [res_bind].
  assert (r = fd) as ->.
  { destruct Hfr as (F1 & F2 & F3). destruct Hr as [(R1 & R2 & R3)|[-> Hall]].
    - destruct (Z.lt_trichotomy r fd) as [Hlt|[|Hgt]]; [|done|].
      + destruct (F3 r ltac:(lia)) as [b Hb]. congruence.
      + destruct (R3 fd ltac:(lia)) as [b Hb]. congruence.
    - destruct (Hall fd ltac:(lia)) as [b Hb]. congruence. }
  rewrite aset_lt by (destruct Hfr; lia). done.
Qed.

Lemma file_put_new (st : fstate S) fd f s : 0 <= fd < 32 -> length (tab st) = 32%nat -> tab st !! Z.to_nat fd = Some None -> filps st !! brk st = None ->
  file_put (with_new st (Z.to_nat fd) f s) fd = Ok (0, Fstate (filps st) (brk st + 1) (tab st) (pwd st) s).
Proof.
  intros Hr Hl Hi Hn. unfold file_put, with_new. cbn [tab]. destruct (aget_lt (<[Z.to_nat fd:=Some (brk st)]> (tab st)) fd) as (e & -> & He); [rewrite length_insert; lia|].
  rewrite list_lookup_insert_eq in He by lia. injection He as <-. cbn [res_bind]. rewrite aset_lt by (rewrite length_insert; lia). cbn [res_bind].
  rewrite list_insert_insert_eq, list_insert_id by done. unfold upd. cbn. by rewrite delete_insert_id.
Qed.

Lemma open_fail_ok (st : fstate S) fd f s ret n : files_ok st -> 0 <= fd < 32 -> tab st !! Z.to_nat fd = Some None ->
  sound (open_fail (with_new st (Z.to_nat fd) f s) fd ret n) (fun r => files_ok (snd r)).
Proof.
  intros Hok Hr Hi. pose proof (fi_len _ Hok) as Hl. pose proof (fi_brk _ Hok (brk st) ltac:(lia)) as Hn. unfold open_fail. destruct n as [n|].
  - eapply (sound_bind _ _ (fun st1 => exists s2, st1 = with_new st (Z.to_nat fd) f s2)).
    { eapply sound_bind; [apply node_close|]. intros [r s2] _. by exists s2. }
    intros st1 [s2 ->].
    rewrite file_put_new by (done || lia). cbn [res_bind sound snd]. apply brk_ok; [done|lia].
  - cbn [res_bind]. rewrite file_put_new by (done || lia). cbn [res_bind sound snd]. apply brk_ok; [done|lia].
Qed.

Lemma free_fd (st : fstate S) i : length (tab st) = 32%nat -> 0 <= i < 32 -> tab st !! Z.to_nat i = Some None -> exists fd, lowest_free (tab st) 0 fd.
Proof.
  intros Hl Hi Hti. destruct (fd_get_spec st 0 Hl ltac:(lia)) as (r & _ & [Hr|[_ Hall]]); [by exists r|]. destruct (Hall i Hi) as [a Ha]. congruence.
Qed.

Lemma set_new (st : fstate S) i f f' s : set_file (with_new st i f s) (brk st) f' = with_new st i f' s.
Proof. unfold set_file, with_new, upd. cbn. by rewrite insert_insert_eq. Qed.

Lemma sys_open_ok (st : fstate S) path fl mode : files_ok st -> (exists i, 0 <= i < 32 /\ tab st !! Z.to_nat i = Some None) ->
  sound (sys_open st path fl mode) (fun r => files_ok (snd r)).
Proof.
  intros Hok (i & Hi & Hti). pose proof (fi_len _ Hok) as Hl. destruct (free_fd st i Hl Hi Hti) as [fd Hfd]. pose proof Hfd as (Hr & Hfree & _).
  unfold sys_open. rewrite (file_get_spec st fd Hl Hfd). cbn [res_bind]. rewrite (proj2 (Z.ltb_ge fd 0)) by lia.
  set (w := fun s => with_new st (Z.to_nat fd) (junk (brk st)) s). change (with_new st (Z.to_nat fd) (junk (brk st)) (nodes st)) with (w (nodes st)).
  change (nodes (w (nodes st))) with (nodes st). change (pwd (w (nodes st))) with (pwd st).
  eapply sound_bind; [apply node_open|]. intros [[ret n] s] Hsome.
  change ((w (nodes st)) <| nodes := s |>) with (w s). change (nodes (w s)) with s.
  assert (forall ret, sound (open_fail (w s) fd ret n) (fun r => files_ok (snd r))) as Hfail by (intros r; apply open_fail_ok; (done || lia)).
  destruct (Z.ltb_spec ret 0) as [Hneg|Hpos]; [apply Hfail|]. destruct n as [m|]; [|by apply (Hsome ret s)]. cbn [deref res_bind].
  assert (forall s', files_ok (set_file (w s') (brk st) (File 0 m fl (fdfl (junk (brk st))) 1))) as Hdone.
  { intros s'. unfold w. rewrite set_new. by apply new_file_ok. }
  destruct (negb (Z.land fl (Z.lor O_WRONLY O_RDWR) =? 0)); [destruct (negb (Z.land fl O_TRUNC =? 0))|].
  - eapply (sound_bind _ _ (fun st1 => exists s', st1 = w s')); [|intros st1 [s' ->]; apply Hdone].
    eapply sound_bind; [apply node_truncate|]. intros [r s2] _. by exists s2.
  - apply Hdone.
  - destruct (negb (Z.land fl O_APPEND =? 0)); [apply Hfail|]. apply Hdone.
Qed.

Lemma sys_pipe_ok (st : fstate S) i j : files_ok st -> 0 <= i < 32 -> 0 <= j < 32 -> i <> j -> tab st !! Z.to_nat i = Some None -> tab st !! Z.to_nat j = Some None ->
  sound (sys_pipe st) (fun r => files_ok (snd r)).
Proof.
  intros Hok Hi Hj Hne Hti Htj. pose proof (fi_len _ Hok) as Hl. destruct (free_fd st i Hl Hi Hti) as [fd0 Hfd0]. pose proof Hfd0 as (Hr0 & Hf0 & _).
  unfold sys_pipe. rewrite (file_get_spec st fd0 Hl Hfd0). cbn [res_bind].
  set (w := fun f s => with_new st (Z.to_nat fd0) f s). change (with_new st (Z.to_nat fd0) (junk (brk st)) (nodes st)) with (w (junk (brk st)) (nodes st)).
  assert (forall f s, tab (w f s) = <[Z.to_nat fd0 := Some (brk st)]> (tab st)) as Htab by done.
  assert (exists k, 0 <= k < 32 /\ k <> fd0 /\ tab st !! Z.to_nat k = Some None) as (k & Hk & Hk0 & Htk).
  { destruct (decide (i = fd0)) as [->|]; [by exists j|by exists i]. }
  destruct (free_fd (w (junk (brk st)) (nodes st)) k) as [fd1 Hfd1]; [by rewrite Htab, length_insert|done|rewrite Htab, list_lookup_insert_ne by lia; done|].
  rewrite (file_get_spec _ fd1) by (done || by rewrite Htab, length_insert). cbn [res_bind]. pose proof Hfd1 as (Hr1 & Hf1 & _).
  change (brk (w (junk (brk st)) (nodes st))) with (brk st + 1). change (nodes (with_new _ _ _ _)) with (nodes st) at 1.
  eapply sound_bind; [apply node_mkpipe|]. intros [[ret n] s] _.
  set (st2 := (with_new (w _ _) _ _ _) <| nodes := s |>).
  assert (forall f0 f1, refer f0 = 1 -> refer f1 = 1 -> files_ok (with_new (w f0 s) (Z.to_nat fd1) f1 s)) as Hdone.
  { intros f0 f1 E0 E1. apply new_file_ok; [by apply new_file_ok|done|done]. }
  destruct (Z.ltb_spec ret 0).
  - change st2 with (with_new (w (junk (brk st)) s) (Z.to_nat fd1) (junk (brk st + 1)) s).
    pose proof (fi_brk _ Hok) as Hbrk. rewrite file_put_new; [|lia|by rewrite Htab, length_insert|done|cbn; rewrite lookup_insert_ne by lia; apply Hbrk; lia]. cbn [res_bind snd].
    change (Fstate (filps (w (junk (brk st)) s)) (brk (w (junk (brk st)) s) + 1) (tab (w (junk (brk st)) s)) (pwd (w (junk (brk st)) s)) s)
      with ((w (junk (brk st)) s) <| brk := brk st + 1 + 1 |>).
    unfold file_put. change (tab ((w (junk (brk st)) s) <| brk := brk st + 1 + 1 |>)) with (<[Z.to_nat fd0 := Some (brk st)]> (tab st)).
    destruct (aget_lt (<[Z.to_nat fd0:=Some (brk st)]> (tab st)) fd0) as (e & -> & He); [rewrite length_insert; lia|].
    rewrite list_lookup_insert_eq in He by lia. injection He as <-. cbn [res_bind]. rewrite aset_lt by (rewrite length_insert; lia). cbn [res_bind snd].
    rewrite list_insert_insert_eq, list_insert_id by done. cbn [sound snd]. unfold w, with_new, upd. cbn. rewrite delete_insert_id by (apply Hbrk; lia).
    apply brk_ok; [done|lia].
  - cbn [sound snd].
    specialize (Hdone (File (offset (junk (brk st))) n O_RDONLY (fdfl (junk (brk st))) 1) (File (offset (junk (brk st + 1))) n O_WRONLY (fdfl (junk (brk st + 1))) 1) eq_refl eq_refl).
    assert (forall x y, x = y -> files_ok y -> files_ok x) as Heq by (by intros x y ->). eapply Heq; [|exact Hdone].
    unfold st2, w, with_new, set_file, upd. cbn. f_equal. rewrite (insert_insert_ne _ (brk st) (brk st + 1)) by lia. rewrite insert_insert_eq, insert_insert_eq. done.
Qed.

Lemma sys_fcntl_ok (st : fstate S) fd cmd arg : files_ok st -> cmd <> F_DUPFD -> sound (sys_fcntl st fd cmd arg) (fun r => files_ok (snd r)).
Proof.
  intros Hok Hc. unfold sys_fcntl. destruct (fd_verify st fd) as [a|] eqn:Ev; [|done]. destruct (verify_file st fd a Hok Ev) as [f Hf].
  rewrite Hf. cbn [deref res_bind]. rewrite (proj2 (Z.eqb_neq _ _) Hc).
  destruct (cmd =? F_GETFD); [done|]. destruct (cmd =? F_SETFD); [by eapply set_file_ok|].
  destruct (cmd =? F_GETFL); [done|]. destruct (cmd =? F_SETFL); [by eapply set_file_ok|].
  by destruct (_ && _).
Qed.

(** Without a free descriptor the table is written out of its bounds. *)
Lemma file_get_full (st : fstate S) : length (tab st) = 32%nat -> (forall i, 0 <= i < 32 -> tab st !! Z.to_nat i <> Some None) ->
  file_get st 0 = Fault OutOfBounds.
Proof.
  intros Hl Hall. unfold file_get. destruct (fd_get_spec st 0 Hl ltac:(lia)) as (r & -> & [(Hr & Hf & _)|[-> _]]); [by apply Hall in Hf|reflexivity].
Qed.

End FileOk.

(** ** System calls of a task *)

Inductive fcall :=
| COpen (path : list Z) (fl mode : Z)
| CRead (fd cnt : Z)
| CReadv (fd : Z) (iov : list (Z * bool))
| CWrite (fd : Z) (buf : list Z)
| CWritev (fd : Z) (iov : list (option (list Z) * Z))
| CLseek (fd off whence : Z)
| CClose (fd : Z)
| CDup (fd : Z)
| CDup2 (old new : Z)
| CPipe
| CFcntl (fd cmd arg : Z).

Definition call {S : Type} `{NodeOps S} (c : fcall) (st : fstate S) : res (Z * fstate S) :=
  match c with
  | COpen path fl mode => sys_open st path fl mode
  | CRead fd cnt => let! r := sys_read st fd cnt in Ok (fst (fst r), snd r)
  | CReadv fd iov => let! r := sys_readv st fd iov in Ok (fst (fst r), snd r)
  | CWrite fd buf => sys_write st fd buf
  | CWritev fd iov => sys_writev st fd iov
  | CLseek fd off whence => sys_lseek st fd off whence
  | CClose fd => sys_close st fd
  | CDup fd => sys_dup st fd
  | CDup2 old new => sys_dup2 st old new
  | CPipe => let! r := sys_pipe st in Ok (fst (fst r), snd r)
  | CFcntl fd cmd arg => sys_fcntl st fd cmd arg
  end.

(** The calls whose descriptors are in the table: one is free for [open], two are for [pipe], and
    the target of [dup2] is in range. *)
Definition allowed {S : Type} (st : fstate S) (c : fcall) : Prop :=
  match c with
  | COpen _ _ _ => exists i, 0 <= i < 32 /\ tab st !! Z.to_nat i = Some None
  | CPipe => exists i j, 0 <= i < 32 /\ 0 <= j < 32 /\ i <> j /\ tab st !! Z.to_nat i = Some None /\ tab st !! Z.to_nat j = Some None
  | CDup2 _ new => 0 <= new < 32
  | _ => True
  end.

(** Every call but the duplication of [fcntl], which works on memory it never sets. *)
Definition no_dupfd (c : fcall) : Prop := match c with CFcntl _ cmd _ => cmd <> F_DUPFD | _ => True end.

Inductive reach {S : Type} `{NodeOps S} (st : fstate S) : fstate S -> Prop :=
| reach_refl : reach st st
| reach_step st1 st2 c r : reach st st1 -> no_dupfd c -> call c st1 = Ok (r, st2) -> reach st st2.

(** What a call does: it keeps the counts, or a node faulted, or the table was left. *)
Definition call_sound {S : Type} `{NodeOps S} (ext : Z -> Z) (st : fstate S) (c : fcall) : Prop :=
  match call c st with
  | Ok (_, st') => files_ok ext st'
  | Fault e => node_fault e \/ (e = OutOfBounds /\ ~ allowed st c)
  end.

Section Calls.
Context {S : Type} `{NodeOps S} (ext : Z -> Z).

Lemma sound_call (st : fstate S) c : sound (call c st) (fun r => files_ok ext (snd r)) -> call_sound ext st c.
Proof. unfold sound, call_sound. destruct (call c st) as [[r st']|e]; [done|]. by left. Qed.

Lemma sound_drop {A B : Type} (m : res (A * B * fstate S)) : sound m (fun r => files_ok ext (snd r)) ->
  sound (let! r := m in Ok (fst (fst r), snd r)) (fun r => files_ok ext (snd r)).
Proof. by destruct m as [[[a b] st]|]. Qed.

(** Whether a descriptor other than [i] is free. *)
Lemma free_dec (t : list (option Z)) (i : Z) : {j | 0 <= j < 32 /\ j <> i /\ t !! Z.to_nat j = Some None} + {forall j, 0 <= j < 32 -> j <> i -> t !! Z.to_nat j <> Some None}.
Proof.
  destruct (list_find (fun j => j <> i /\ t !! Z.to_nat j = Some None) (seqZ 0 32)) as [[k j]|] eqn:E.
  - left. exists j. apply list_find_Some in E as (Hj%list_elem_of_lookup_2%elem_of_seqZ & [Hne Hf] & _). split_and!; (done || lia).
  - right. intros j Hj Hne Hf. apply list_find_None in E. rewrite Forall_forall in E. apply (E j); [apply elem_of_seqZ; lia|done].
Qed.

Lemma open_sound (st : fstate S) path fl mode : files_ok ext st -> call_sound ext st (COpen path fl mode).
Proof.
  intros Hok. destruct (free_dec (tab st) (-1)) as [(i & Hi & _ & Hf)|Hfull].
  - apply sound_call, sys_open_ok; [done|]. by exists i.
  - unfold call_sound. cbn [call]. unfold sys_open. rewrite (file_get_full st); [|by apply (fi_len ext)|intros i Hi; apply Hfull; lia].
    right. split; [done|]. intros (i & Hi & Hf). by apply (Hfull i Hi ltac:(lia)).
Qed.

Lemma pipe_sound (st : fstate S) : files_ok ext st -> call_sound ext st CPipe.
Proof.
  intros Hok. pose proof (fi_len _ _ Hok) as Hl. destruct (free_dec (tab st) (-1)) as [(i & Hi & _ & Hf)|Hfull].
  2: { unfold call_sound. cbn [call]. unfold sys_pipe. rewrite (file_get_full st Hl) by (intros i Hi; apply Hfull; lia).
       right. split; [done|]. intros (i & j & Hi & _ & _ & Hf & _). by apply (Hfull i Hi ltac:(lia)). }
  destruct (free_fd st i Hl Hi Hf) as [fd Hfd]. destruct (free_dec (tab st) fd) as [(j & Hj & Hne & Hfj)|Hfull].
  - apply sound_call. cbn [call]. apply sound_drop. destruct Hfd as (Hr & Hfree & _). apply (sys_pipe_ok ext st fd j); (done || lia).
  - unfold call_sound. cbn [call]. unfold sys_pipe. rewrite (file_get_spec st fd Hl Hfd). cbn [res_bind]. destruct Hfd as (Hr & _ & _).
    rewrite file_get_full.
    + right. split; [done|]. intros (i1 & i2 & H1 & H2 & Hne & F1 & F2).
      destruct (decide (i1 = fd)) as [->|]; [by apply (Hfull i2 H2)|by apply (Hfull i1 H1)].
    + cbn. by rewrite length_insert.
    + intros k Hk. cbn. destruct (decide (k = fd)) as [->|]; [rewrite list_lookup_insert_eq by lia; done|].
      rewrite list_lookup_insert_ne by lia. by apply Hfull.
Qed.

Lemma dup2_sound (st : fstate S) old new : files_ok ext st -> call_sound ext st (CDup2 old new).
Proof.
  intros Hok. destruct (decide (0 <= new < 32)) as [Hr|Hr]; [by apply sound_call, sys_dup2_ok|].
  unfold call_sound. cbn [call]. unfold sys_dup2. destruct (fd_verify st old) as [a|]; [|done]. destruct (old =? new); [done|].
  replace (aget (tab st) new) with (@Fault (option Z) OutOfBounds); [by right|]. unfold aget. destruct (Z.leb_spec 0 new); [|done].
  rewrite lookup_ge_None_2; [done|]. rewrite (fi_len _ _ Hok). lia.
Qed.

Lemma call_ok (st : fstate S) c : files_ok ext st -> no_dupfd c -> call_sound ext st c.
Proof.
  intros Hok Ha. destruct c.
  - by apply open_sound.
  - by apply sound_call, sound_drop, sys_read_ok.
  - by apply sound_call, sound_drop, sys_readv_ok.
  - by apply sound_call, sys_write_ok.
  - by apply sound_call, sys_writev_ok.
  - by apply sound_call, sys_lseek_ok.
  - apply sound_call. cbn [call]. eapply sound_mono; [by apply sys_close_ok|]. by intros r [? _].
  - by apply sound_call, sys_dup_ok.
  - by apply dup2_sound.
  - by apply pipe_sound.
  - by apply sound_call, sys_fcntl_ok.
Qed.

End Calls.


(** Nodes that do nothing. *)
#[export] Instance idle_nodes : NodeOps unit := {|
  op_open _ _ _ _ _ := Ok (0, Some 7, tt);
  op_close _ _ := Ok (0, tt);
  op_truncate _ _ _ := Ok (0, tt);
  op_mkpipe _ := Ok (0, 9, tt);
  op_read _ _ _ _ := Ok (0, [], tt);
  op_write _ _ b _ := Ok (Z.of_nat (length b), tt);
  op_siz _ _ := 0;
  op_isdir _ _ := false;
  junk a := File a a a a a
|}.

Definition no_files : fstate unit := Fstate ∅ 1 (replicate 32 None) 0 tt.

Lemma no_files_ok : files_ok (fun _ => 0) no_files.
Proof.
  split; cbn; [done|done| |done|lia|done]. intros i a Hi. by apply (lookup_replicate 32 None) in Hi as [? _].
Qed.

(** The state after a call that returns. *)
Definition after (c : fcall) (st : fstate unit) : fstate unit := match call c st with Ok (_, st') => st' | Fault _ => st end.


(** ** What the calls do not handle *)

(** [open] by a task whose descriptors are all in use writes in front of its table: the
    result of [fd_get], [-EMFILE], is used as an index before anyone looks at it. *)
Theorem open_full_table_faults {S : Type} `{NodeOps S} (st : fstate S) (path : list Z) (fl mode : Z) :
  length (tab st) = 32%nat -> (forall j, 0 <= j < 32 -> exists a, tab st !! Z.to_nat j = Some (Some a)) ->
  sys_open st path fl mode = Fault OutOfBounds.
Proof.
  intros Hl Hall. unfold sys_open, file_get. destruct (fd_get_spec st 0 Hl ltac:(lia)) as (r & -> & [(Hr & Hf & _)|[-> _]]).
  - destruct (Hall r ltac:(lia)) as [a Ha]. congruence.
  - reflexivity.
Qed.

Lemma open_full_table_faults_witness : sys_open (Fstate ∅ 1 (replicate 32 (Some 5)) 0 tt) [] 0 0 = Fault OutOfBounds.
Proof.
  apply (open_full_table_faults (Fstate ∅ 1 (replicate 32 (Some 5)) 0 tt) [] 0 0); [reflexivity|].
  intros j Hj. exists 5. cbn [tab]. apply lookup_replicate_2. lia.
Defined.

(** Nodes that record which of them were closed; new memory holds what a closed file left. *)
Definition log_nodes : NodeOps (list Z) := {|
  op_open s _ _ _ _ := Ok (0, Some 7, s);
  op_close s n := Ok (0, s ++ [n]);
  op_truncate s _ _ := Ok (0, s);
  op_mkpipe s := Ok (0, 9, s);
  op_read s _ _ _ := Ok (0, [], s);
  op_write s _ b _ := Ok (Z.of_nat (length b), s);
  op_siz _ _ := 0;
  op_isdir _ _ := false;
  junk _ := File 0 99 0 0 0
|}.

(** One open file, on node 7, with descriptor 0. *)
Definition one_file : fstate (list Z) := Fstate {[1 := File 0 7 2 0 1]} 2 (Some 1 :: replicate 31 None) 0 [].

(** [fcntl] with [F_DUPFD] puts an open file it never filled in at the new descriptor and
    has [dup2] close it: the node that the memory happens to name is closed, here node 99, which
    no descriptor refers to. *)
Theorem dupfd_closes_garbage :
  exists st, @sys_fcntl _ log_nodes one_file 0 F_DUPFD 0 = Ok (1, st) /\ nodes st = [99].
Proof. eexists. split; vm_compute; reflexivity. Qed.
