(* ===== verification/FileStream.v ===== *)
(** * Reading and writing through descriptors

    Descriptors that share an open file act on one stream: its contents and one offset.  What is
    needed of the nodes is an interface ([NodeLaws]). *)
From Stdlib Require Import ZArith Lia List Bool.
From stdpp Require Import base list gmap.
From S2P Require Import Prelude Bytes File.

#[local] Open Scope Z_scope.

(** [holds s n c]: node [n] is a regular file with contents [c]; [room s k]: there is space for
    [k] units, of which a write of [len] bytes at [off] takes at most [need off len]; a file has
    at most [fmax] bytes. *)
Class NodeLaws (S : Type) `{NodeOps S} (holds : S -> Z -> list Z -> Prop) (room : S -> nat -> Prop) (need : Z -> Z -> nat) (fmax : Z) : Prop := {
  nl_read : forall s n c cnt off, holds s n c -> 0 <= cnt -> 0 <= off ->
    exists s', op_read s n cnt off = Ok (Z.of_nat (length (take (Z.to_nat cnt) (drop (Z.to_nat off) c))), take (Z.to_nat cnt) (drop (Z.to_nat off) c), s') /\
      (forall m cm, holds s m cm -> holds s' m cm) /\ (forall k, room s k -> room s' k);
  nl_write : forall s n c off b k, holds s n c -> 0 <= off <= Z.of_nat (length c) -> b <> [] -> bytes_ok b ->
    off + Z.of_nat (length b) <= fmax -> room s (need off (Z.of_nat (length b)) + k)%nat ->
    exists s', op_write s n b off = Ok (Z.of_nat (length b), s') /\ holds s' n (overwrite c off b) /\
      (forall m cm, m <> n -> holds s m cm -> holds s' m cm) /\ room s' k;
  nl_siz : forall s n c, holds s n c -> op_siz s n = Z.of_nat (length c);
  nl_reg : forall s n c, holds s n c -> op_isdir s n = false;
  nl_max : 0 <= fmax < 2 ^ 62
}.

(** The calls on one stream. *)
Inductive sop := SRead (cnt : Z) | SWrite (b : list Z) | SSeek (off whence : Z).

(** Where a seek goes: from the start, from the offset, from the end. *)
Definition seek_to (c : list Z) (o off whence : Z) : Z :=
  if whence =? SEEK_SET then off else if whence =? SEEK_CUR then o + off else Z.of_nat (length c) + off.

(** The stream: contents and offset; the result and the bytes read. *)
Definition sstep (op : sop) (c : list Z) (o : Z) : (Z * list Z) * (list Z * Z) :=
  match op with
  | SRead cnt =>
      let r := take (Z.to_nat cnt) (drop (Z.to_nat o) c) in
      ((Z.of_nat (length r), r), (c, o + Z.of_nat (length r)))
  | SWrite b => ((Z.of_nat (length b), []), (overwrite c o b, o + Z.of_nat (length b)))
  | SSeek off whence => ((seek_to c o off whence, []), (c, seek_to c o off whence))
  end.

Fixpoint sruns (ops : list (Z * sop)) (c : list Z) (o : Z) : list (Z * list Z) * (list Z * Z) :=
  match ops with
  | [] => ([], (c, o))
  | (_, op) :: ops =>
      let '(out, (c, o)) := sstep op c o in
      let '(outs, r) := sruns ops c o in
      (out :: outs, r)
  end.

Section Stream.
Context {S : Type} `{NodeOps S}.

(** The same calls through descriptors. *)
Definition cstep (fd : Z) (op : sop) (st : fstate S) : res ((Z * list Z) * fstate S) :=
  match op with
  | SRead cnt => let! r := sys_read st fd cnt in Ok (fst r, snd r)
  | SWrite b => let! r := sys_write st fd b in Ok ((fst r, []), snd r)
  | SSeek off whence => let! r := sys_lseek st fd off whence in Ok ((fst r, []), snd r)
  end.

Fixpoint cruns (ops : list (Z * sop)) (st : fstate S) : res (list (Z * list Z) * fstate S) :=
  match ops with
  | [] => Ok ([], st)
  | (fd, op) :: ops =>
      let! r := cstep fd op st in
      let '(out, st) := r in
      let! r := cruns ops st in
      let '(outs, st) := r in
      Ok (out :: outs, st)
  end.

Context {holds : S -> Z -> list Z -> Prop} {room : S -> nat -> Prop} {need : Z -> Z -> nat} {fmax : Z} `{!NodeLaws S holds room need fmax}.

(** A call that fits the stream: a write starts in the file or at its end. *)
Definition sop_ok (op : sop) (c : list Z) (o : Z) : Prop :=
  match op with
  | SRead cnt => 0 <= cnt
  | SWrite b => b <> [] /\ bytes_ok b /\ o <= Z.of_nat (length c) /\ o + Z.of_nat (length b) <= fmax
  | SSeek off whence => 0 <= whence <= 2 /\ 0 <= seek_to c o off whence <= fmax
  end.

Fixpoint sops_ok (ops : list (Z * sop)) (c : list Z) (o : Z) : Prop :=
  match ops with
  | [] => True
  | (_, op) :: ops => sop_ok op c o /\ let '(c', o') := snd (sstep op c o) in sops_ok ops c' o'
  end.

(** The room the writes take. *)
Definition sneed1 (op : sop) (o : Z) : nat := match op with SWrite b => need o (Z.of_nat (length b)) | _ => 0 end.

Fixpoint sneed (ops : list (Z * sop)) (c : list Z) (o : Z) : nat :=
  match ops with
  | [] => 0
  | (_, op) :: ops => (sneed1 op o + let '(c', o') := snd (sstep op c o) in sneed ops c' o')%nat
  end.

(** Open file [a] is node [n], open for reading and writing, at offset [o] of the contents [c]. *)
Record at_stream (st : fstate S) (a n : Z) (c : list Z) (o : Z) : Prop := {
  as_file : exists f, filps st !! a = Some f /\ fnode f = n /\ offset f = o /\ flgs f = O_RDWR;
  as_holds : holds (nodes st) n c;
  as_off : 0 <= o <= fmax;
  as_len : Z.of_nat (length c) <= fmax
}.

(** What other descriptors see. *)
Definition others_kept (st st' : fstate S) (a n : Z) : Prop :=
  tab st' = tab st /\ (forall b, b <> a -> filps st' !! b = filps st !! b) /\ (forall m cm, m <> n -> holds (nodes st) m cm -> holds (nodes st') m cm).

Lemma cstep_ok (st : fstate S) fd op a n c o k : at_stream st a n c o -> fd_verify st fd = Some a -> sop_ok op c o -> room (nodes st) (sneed1 op o + k)%nat ->
  exists st', cstep fd op st = Ok (fst (sstep op c o), st') /\ at_stream st' a n (fst (snd (sstep op c o))) (snd (snd (sstep op c o))) /\
    others_kept st st' a n /\ room (nodes st') k.
Proof.
  intros [(f & Hf & Hn & Ho & Hfl) Hh Hor Hlen] Hv Hop Hr. pose proof (nl_max (S := S)) as Hmax. change (2 ^ 62) with 4611686018427387904 in Hmax.
  assert (forall x, 0 <= x < 2 ^ 63 -> u64 x = x) as Hu by (intros; apply wrap_small; lia). change (2 ^ 63) with 9223372036854775808 in Hu.
  destruct op as [cnt|b|off whence]; cbn [cstep sstep sneed1 fst snd sop_ok] in *.
  - unfold sys_read. rewrite Hv, Hf. cbn [deref res_bind]. rewrite Hfl, Hn, Ho. change (negb (Z.land O_RDWR O_DIRECTORY =? 0)) with false.
    change (Z.land O_RDWR O_ACCMODE =? O_WRONLY) with false. destruct (nl_read (nodes st) n c cnt o Hh Hop ltac:(lia)) as (s' & E & Hk & Hk'). rewrite E. cbn [res_bind].
    set (r := take (Z.to_nat cnt) (drop (Z.to_nat o) c)) in *. assert (Z.of_nat (length r) <= Z.max 0 (Z.of_nat (length c) - o)) as Hlr.
    { unfold r. rewrite length_take, length_drop. lia. }
    rewrite (proj2 (Z.ltb_ge _ 0)) by lia. cbn [res_bind fst snd]. rewrite Hu by lia. eexists. split; [done|]. split_and!; [|split_and!; [done| |]|by apply Hk'].
    + split; cbn; [|by apply Hk|lia|done]. eexists. by rewrite lookup_insert_eq.
    + intros x Hx. cbn. by rewrite lookup_insert_ne.
    + intros m cm Hm Hhm. cbn. by apply Hk.
  - destruct Hop as (Hb & Hby & Hol & Hmx). unfold sys_write. rewrite Hv, Hf. cbn [deref res_bind]. rewrite Hfl, Hn, Ho. change (Z.land O_RDWR O_ACCMODE =? O_RDONLY) with false.
    change (negb (Z.land O_RDWR O_APPEND =? 0)) with false. cbn iota.
    destruct (nl_write (nodes st) n c o b k Hh ltac:(lia) Hb Hby Hmx Hr) as (s' & E & Hh' & Hk & Hr'). rewrite E. cbn [res_bind].
    rewrite (proj2 (Z.ltb_ge _ 0)) by lia. cbn [res_bind fst snd]. rewrite Hu by lia. eexists. split; [done|]. split_and!; [|split_and!; [done| |]|done].
    + split; cbn; [|done|lia|rewrite length_overwrite by lia; lia]. eexists. by rewrite lookup_insert_eq.
    + intros x Hx. cbn. by rewrite lookup_insert_ne.
    + intros m cm Hm Hhm. cbn. by apply Hk.
  - destruct Hop as [Hw Hop]. unfold sys_lseek. rewrite Hv, Hf. cbn [deref res_bind]. rewrite Hn, (nl_reg (nodes st) n c Hh), (nl_siz (nodes st) n c Hh), Ho.
    assert ((if whence =? SEEK_SET then u64 off else if whence =? SEEK_CUR then u64 (o + off) else if whence =? SEEK_END then u64 (Z.of_nat (length c) + off) else o) =
      seek_to c o off whence) as ->.
    { unfold seek_to, SEEK_SET, SEEK_CUR, SEEK_END in *. destruct (Z.eqb_spec whence 0); [apply Hu; lia|]. destruct (Z.eqb_spec whence 1); [apply Hu; lia|].
      replace (whence =? 2) with true by lia. apply Hu. lia. }
    set (o' := seek_to c o off whence) in *. rewrite signed_small by (change (2 ^ (64 - 1)) with 9223372036854775808; lia). cbn [res_bind fst snd]. eexists. split; [done|].
    split_and!; [|split_and!; [done| |done]|done].
    + split; cbn; [|done|lia|done]. eexists. by rewrite lookup_insert_eq.
    + intros x Hx. cbn. by rewrite lookup_insert_ne.
Qed.

Lemma cruns_ok a n ops : forall (st : fstate S) c o, at_stream st a n c o -> (forall fd op, (fd, op) ∈ ops -> fd_verify st fd = Some a) ->
  sops_ok ops c o -> forall k, room (nodes st) (sneed ops c o + k)%nat ->
  exists st', cruns ops st = Ok (fst (sruns ops c o), st') /\ at_stream st' a n (fst (snd (sruns ops c o))) (snd (snd (sruns ops c o))) /\
    others_kept st st' a n /\ room (nodes st') k.
Proof.
  induction ops as [|[fd op] ops IH]; intros st c o Hs Hv Hop k Hr; cbn [cruns sruns sops_ok sneed] in *.
  { by exists st. }
  destruct Hop as [Hop1 Hop]. rewrite <- Nat.add_assoc in Hr.
  destruct (cstep_ok st fd op a n c o _ Hs (Hv fd op ltac:(left)) Hop1 Hr) as (st1 & E1 & Hs1 & (Ht1 & Hb1 & Hm1) & Hr1). rewrite E1. cbn [res_bind].
  destruct (sstep op c o) as [out [c1 o1]]. cbn [fst snd] in *.
  destruct (IH st1 c1 o1 Hs1) with (k := k) as (st2 & E2 & Hs2 & (Ht2 & Hb2 & Hm2) & Hr2); [|done|done|].
  { intros fd' op' Hin. unfold fd_verify. rewrite Ht1. apply (Hv fd' op'). by right. }
  rewrite E2. cbn [res_bind]. destruct (sruns ops c1 o1) as [outs [c2 o2]]. cbn [fst snd] in *. exists st2. split_and!; [done|done| |done]. split_and!.
  - congruence.
  - intros b Hb. by rewrite Hb2, Hb1.
  - intros m cm Hm Hh. by apply Hm2, Hm1.
Qed.

End Stream.
