(* ===== verification/MinixNodes.v ===== *)
(** * Minix files behind descriptors

    The operations of a Minix node as an instance of the interface of File.v, and the laws of
    FileStream.v for it: what is written through a descriptor is what is read back through it. *)
From Stdlib Require Import ZArith Lia List Bool.
From stdpp Require Import base list gmap.
From S2P Require Import Prelude Bytes Minix MinixZone MinixFile File FileOk FileStream.

#[local] Open Scope Z_scope.

(** The disk and the nodes in memory, by address. *)
Record mstate := Mstate { m_disk : disk; m_nodes : gmap Z mnode }.

Section Nodes.
Context `{MinixEnv} (sb : minix_super).
(** The search for a path and the making of a pipe, which are not operations of a file system. *)
Context (vopen : mstate -> Z -> list Z -> Z -> Z -> res (Z * option Z * mstate)) (vpipe : mstate -> res (Z * Z * mstate)) (memory : Z -> file).

Definition minix_op_truncate (s : mstate) (n len : Z) : res (Z * mstate) :=
  let! node := deref (m_nodes s !! n) in
  let! r := minix_truncate sb (m_disk s) node len in
  let '(node, d) := r in
  Ok (0, Mstate d (<[n := node]> (m_nodes s))).

Definition minix_op_read (s : mstate) (n cnt off : Z) : res (Z * list Z * mstate) :=
  let! node := deref (m_nodes s !! n) in
  let! r := minix_read (m_disk s) node cnt off in
  let '(bytes, node) := r in
  Ok (i32 (Z.of_nat (length bytes)), bytes, Mstate (m_disk s) (<[n := node]> (m_nodes s))).

Definition minix_op_write (s : mstate) (n : Z) (buf : list Z) (off : Z) : res (Z * mstate) :=
  let! node := deref (m_nodes s !! n) in
  let! r := minix_write sb (m_disk s) node buf off in
  let '(ret, node, d) := r in
  Ok (ret, Mstate d (<[n := node]> (m_nodes s))).

Definition node_siz (s : mstate) (n : Z) : Z := match m_nodes s !! n with Some node => n_siz node | None => 0 end.

Definition node_isdir (s : mstate) (n : Z) : bool := match m_nodes s !! n with Some node => Z.land (n_mode node) S_IFMT =? S_IFDIR | None => false end.

(** [MINIX_OP]; [minix_close] does nothing. *)
Definition minix_nodes : NodeOps mstate := {|
  op_open := vopen;
  op_close s _ := Ok (0, s);
  op_truncate := minix_op_truncate;
  op_mkpipe := vpipe;
  op_read := minix_op_read;
  op_write := minix_op_write;
  op_siz := node_siz;
  op_isdir := node_isdir;
  junk := memory
|}.

(** Every node in memory is a file in order and no two of them share a block or an inode. *)
Record nodes_good (X : Z -> list (list Z)) (s : mstate) : Prop := {
  ng_ok : forall n node, m_nodes s !! n = Some node -> node_ok sb (m_disk s) node (X n);
  ng_sep : forall n m node1 node2 c, m_nodes s !! n = Some node1 -> m_nodes s !! m = Some node2 -> n <> m -> c ∈ concat (X n) -> c ∉ concat (X m)
}.

Definition minix_holds (s : mstate) (n : Z) (c : list Z) : Prop := exists X node, nodes_good X s /\ m_nodes s !! n = Some node /\
  contents (m_disk s) node = c /\ Z.land (n_mode node) S_IFMT <> S_IFDIR.

Definition minix_room (s : mstate) (k : nat) : Prop := nfree sb (m_disk s) k.

Definition minix_need (off len : Z) : nat := 3 * Z.to_nat (steps off len).

Definition minix_max : Z := z9idx_end_ind2 * 1024.

Context (Himg : image_ok) (Hsb : sb_ok sb) (Hin : sb_inodes sb < 65536).

(** A node that only its times differ is as good. *)
Lemma node_ok_same d node node' Xs : node_ok sb d node Xs -> n_pdata node' = n_pdata node -> n_siz node' = n_siz node -> n_ino node' = n_ino node -> node_ok sb d node' Xs.
Proof. intros [H1 H2 H3 H4 H5 H6 H7] E1 E2 E3. split; rewrite ?E1, ?E2, ?E3; done. Qed.

Lemma contents_length d node Xs : node_ok sb d node Xs -> Z.of_nat (length (contents d node)) = i_size (n_pdata node).
Proof. intros Hok. unfold contents. rewrite fbytes_length. pose proof (io_size _ (no_inode _ _ _ _ Hok)). lia. Qed.

Lemma good_update X s n node d' node' Xs' : nodes_good X s -> m_nodes s !! n = Some node -> node_ok sb d' node' Xs' ->
  (forall m other, m <> n -> m_nodes s !! m = Some other -> node_ok sb d' other (X m) /\ forall c, c ∈ concat Xs' -> c ∉ concat (X m)) ->
  nodes_good (fun m => if decide (m = n) then Xs' else X m) (Mstate d' (<[n := node']> (m_nodes s))).
Proof.
  intros [G1 G2] Hn Hok Hoth. split; cbn [m_disk m_nodes].
  - intros m other Hm. destruct (decide (m = n)) as [->|Hne]; [rewrite lookup_insert_eq in Hm; by injection Hm as <-|].
    rewrite lookup_insert_ne in Hm by done. by apply Hoth.
  - intros m1 m2 o1 o2 c H1 H2 Hne Hc. destruct (decide (m1 = n)) as [->|Hn1]; [rewrite decide_False by congruence|destruct (decide (m2 = n)) as [->|Hn2]].
    + rewrite lookup_insert_ne in H2 by done. by apply (proj2 (Hoth m2 o2 ltac:(congruence) H2)).
    + rewrite lookup_insert_ne in H1 by done. intros Hc2. by apply (proj2 (Hoth m1 o1 Hn1 H1) c).
    + rewrite lookup_insert_ne in H1, H2 by done. exact (G2 m1 m2 o1 o2 c H1 H2 Hne Hc).
Qed.

Lemma read_law s n c cnt off : minix_holds s n c -> 0 <= cnt -> 0 <= off ->
  exists s', minix_op_read s n cnt off = Ok (Z.of_nat (length (take (Z.to_nat cnt) (drop (Z.to_nat off) c))), take (Z.to_nat cnt) (drop (Z.to_nat off) c), s') /\
    (forall m cm, minix_holds s m cm -> minix_holds s' m cm) /\ (forall k, minix_room s k -> minix_room s' k).
Proof.
  intros (X & node & Hg & Hn & <- & Hd) Hc Ho. unfold minix_op_read. rewrite Hn. cbn [deref res_bind]. pose proof (ng_ok _ _ Hg n node Hn) as Hok.
  destruct (read_ok sb Himg (m_disk s) node (X n) cnt off Hok Hc Ho) as (node' & E & Ep & Es & Ei & Em). rewrite E. cbn [res_bind].
  set (r := take _ _). assert (Z.of_nat (length r) <= i_size (n_pdata node)) as Hl.
  { rewrite <- (contents_length (m_disk s) node (X n) Hok). unfold r. rewrite length_take, length_drop. lia. }
  pose proof (no_max _ _ _ _ Hok) as Hm. change z9idx_end_ind2 with 262663 in Hm. rewrite signed_small by (change (2 ^ (32 - 1)) with 2147483648; lia).
  assert (nodes_good (fun k => if decide (k = n) then X n else X k) (Mstate (m_disk s) (<[n := node']> (m_nodes s)))) as Hg'.
  { apply (good_update X s n node); [done|done|by eapply node_ok_same|]. intros k other Hk Ho'. split; [by apply (ng_ok _ _ Hg)|]. intros x Hx. exact (ng_sep _ _ Hg n k node other x Hn Ho' ltac:(congruence) Hx). }
  eexists. split; [done|]. split; [|done]. intros m cm (Y & nm & _ & Hnm & <- & Hdm).
  exists (fun k => if decide (k = n) then X n else X k), (if decide (m = n) then node' else nm). split_and!; [done|cbn [m_nodes]|cbn [m_disk]|]; destruct (decide (m = n)) as [->|Hne].
  - by rewrite lookup_insert_eq.
  - by rewrite lookup_insert_ne.
  - rewrite Hn in Hnm. injection Hnm as ->. unfold contents. by rewrite Ep.
  - done.
  - rewrite Hn in Hnm. injection Hnm as ->. by rewrite Em.
  - done.
Qed.

Lemma write_law s n c off b k : minix_holds s n c -> 0 <= off <= Z.of_nat (length c) -> b <> [] -> bytes_ok b ->
  off + Z.of_nat (length b) <= minix_max -> minix_room s (minix_need off (Z.of_nat (length b)) + k) ->
  exists s', minix_op_write s n b off = Ok (Z.of_nat (length b), s') /\ minix_holds s' n (overwrite c off b) /\
    (forall m cm, m <> n -> minix_holds s m cm -> minix_holds s' m cm) /\ minix_room s' k.
Proof.
  intros (X & node & Hg & Hn & <- & Hd) Ho Hb Hby Hmax Hr. unfold minix_op_write. rewrite Hn. cbn [deref res_bind]. pose proof (ng_ok _ _ Hg n node Hn) as Hok.
  rewrite (contents_length (m_disk s) node (X n) Hok) in Ho.
  destruct (write_ok sb Himg Hsb (m_disk s) node (X n) b off k Hok Ho Hb Hby Hmax Hin Hr) as (node' & d' & Xs' & E & W & Hr'). rewrite E. cbn [res_bind].
  assert (forall m other, m <> n -> m_nodes s !! m = Some other -> node_ok sb d' other (X m) /\ contents d' other = contents (m_disk s) other /\
    forall x, x ∈ concat Xs' -> x ∉ concat (X m)) as Hoth.
  { intros m other Hm Ho'. eapply (wrote_other sb); [exact W|by apply (ng_ok _ _ Hg)|]. intros x Hx. exact (ng_sep _ _ Hg n m node other x Hn Ho' ltac:(congruence) Hx). }
  assert (nodes_good (fun m => if decide (m = n) then Xs' else X m) (Mstate d' (<[n := node']> (m_nodes s)))) as Hg'.
  { apply (good_update X s n node); [done|done|by destruct W|]. intros m other Hm Ho'. destruct (Hoth m other Hm Ho') as (? & _ & ?). done. }
  eexists. split; [done|]. split_and!; [| |done].
  - exists (fun m => if decide (m = n) then Xs' else X m), node'. split_and!; [done|by cbn; rewrite lookup_insert_eq| |].
    + exact (wr_contents _ _ _ _ _ _ _ _ _ W).
    + by rewrite (wr_mode _ _ _ _ _ _ _ _ _ W).
  - intros m cm Hm (Y & nm & _ & Hnm & <- & Hdm). exists (fun m => if decide (m = n) then Xs' else X m), nm.
    split_and!; [done|by cbn; rewrite lookup_insert_ne| |done]. by apply (Hoth m nm).
Qed.

(** The file system keeps its promise to the descriptors. *)
Lemma minix_laws : @NodeLaws mstate minix_nodes minix_holds minix_room minix_need minix_max.
Proof.
  split.
  - exact read_law.
  - exact write_law.
  - intros s n c (X & node & Hg & Hn & <- & _). cbn. unfold node_siz. rewrite Hn. pose proof (ng_ok _ _ Hg n node Hn) as Hok.
    rewrite (contents_length _ _ _ Hok). by destruct Hok.
  - intros s n c (X & node & _ & Hn & _ & Hd). cbn. unfold node_isdir. rewrite Hn. by apply Z.eqb_neq.
  - vm_compute. split; [discriminate|reflexivity].
Qed.

#[local] Existing Instance minix_nodes.
#[local] Existing Instance minix_laws.

(** C3: reads, writes and seeks on a Minix file through any descriptors that share an open file
    act on one stream: each call returns what the stream of contents and offset returns, the
    file holds those contents afterwards, and no other open file or file changes.  The open file
    is open with [O_RDWR] and no other flag; the calls are any reads, seeks of the three kinds
    to a place up to the largest size of a file, and writes of at least one byte that start in
    the file or at its end; the nodes in memory are files in order, which includes a zero
    boot block, and there are free zones for what the writes take.  (A write that starts a block
    behind the end dereferences null: [write_past_end_faults].) *)
Theorem minix_fd_stream (st : fstate mstate) (ops : list (Z * sop)) (a n : Z) (c : list Z) (o : Z) :
  at_stream (holds := minix_holds) (fmax := minix_max) st a n c o -> (forall fd op, (fd, op) ∈ ops -> fd_verify st fd = Some a) ->
  sops_ok (fmax := minix_max) ops c o -> minix_room (nodes st) (sneed (need := minix_need) ops c o) ->
  exists st', cruns ops st = Ok (fst (sruns ops c o), st') /\
    at_stream (holds := minix_holds) (fmax := minix_max) st' a n (fst (snd (sruns ops c o))) (snd (snd (sruns ops c o))) /\
    others_kept (holds := minix_holds) st st' a n.
Proof.
  intros Hs Hv Hop Hr. destruct (cruns_ok a n ops st c o Hs Hv Hop 0) as (st' & E & Hs' & Ho & _); [by rewrite Nat.add_0_r|]. by exists st'.
Qed.

End Nodes.

(** Descriptors 0 and 1 share an open file on an empty file of a blank disk. *)
Definition shared_file : fstate mstate := Fstate {[1 := File 0 5 2 0 2]} 2 (Some 1 :: Some 1 :: replicate 30 None) 0 (Mstate ∅ {[5 := empty_file]}).

Lemma shared_stream : at_stream (holds := @minix_holds blank_env blank_sb) (fmax := minix_max) shared_file 1 5 [] 0.
Proof.
  split.
  - exists (File 0 5 2 0 2). done.
  - exists (fun _ => replicate 9 []), empty_file. split_and!; [|done|done|discriminate]. split.
    + intros n node Hn. cbn [shared_file nodes m_nodes] in Hn. apply lookup_singleton_Some in Hn as [<- <-]. exact blank_node.
    + intros n m n1 n2 c H1 H2 Hne. cbn [shared_file nodes m_nodes] in H1, H2. apply lookup_singleton_Some in H1 as [<- _], H2 as [<- _]. done.
  - split; vm_compute; discriminate.
  - vm_compute. discriminate.
Qed.

Lemma minix_fd_stream_witness : exists st',
  @cruns mstate (@minix_nodes blank_env blank_sb (fun s _ _ _ _ => Ok (- ENOENT, None, s)) (fun s => Ok (- ENOSYS, 0, s)) (fun _ => File 0 0 0 0 0))
    [(0, SWrite [10; 20; 30]); (1, SSeek (-2) SEEK_CUR); (0, SRead 5)] shared_file = Ok ([(3, []); (1, []); (2, [20; 30])], st').
Proof.
  destruct (@minix_fd_stream blank_env blank_sb (fun s _ _ _ _ => Ok (- ENOENT, None, s)) (fun s => Ok (- ENOSYS, 0, s)) (fun _ => File 0 0 0 0 0)
    blank_image blank_sb_ok eq_refl shared_file [(0, SWrite [10; 20; 30]); (1, SSeek (-2) SEEK_CUR); (0, SRead 5)] 1 5 [] 0) as (st' & E & _).
  - exact shared_stream.
  - intros fd op Hin. rewrite !elem_of_cons, elem_of_nil in Hin. destruct Hin as [[= -> ->]|[[= -> ->]|[[= -> ->]|[]]]]; reflexivity.
  - repeat split; try (vm_compute; discriminate). repeat constructor; unfold is_byte; lia.
  - exact blank_nfree.
  - exists st'. exact E.
Defined.

(** Three bytes are written, [writev] is called at the start of the file with a null buffer, and
    the file is read: the result of [writev] and what is read. *)
Definition write_then_bad_writev `{NodeOps mstate} (st : fstate mstate) : res (Z * list Z) :=
  let! r := sys_write st 0 [10; 20; 30] in
  let! r := sys_lseek (snd r) 0 0 SEEK_SET in
  let! w := sys_writev (snd r) 0 [(None, 1)] in
  let! r := sys_lseek (snd w) 0 0 SEEK_SET in
  let! r := sys_read (snd r) 0 5 in
  Ok (fst w, snd (fst r)).

(** a [writev] that is refused because of a null buffer truncates the file at the place it
    would have written to: three bytes that were there are gone. *)
Theorem refused_writev_truncates :
  @write_then_bad_writev (@minix_nodes blank_env blank_sb (fun s _ _ _ _ => Ok (- ENOENT, None, s)) (fun s => Ok (- ENOSYS, 0, s)) (fun _ => File 0 0 0 0 0)) shared_file
  = Ok (- EINVAL, []).
Proof. vm_compute. reflexivity. Qed.
