(* ===== verification/Vfs.v ===== *)
(** * The tree of nodes

    The nodes of the virtual file system, the search along a path, mounts, and the checks of
    owner and mode: [kernel/fs/vopenwalk.c], [vutils.c], [vmnt.c], [vgetpath.c],
    [vopts_chown.c] and [vopts_chmod.c].  The file systems behind the nodes are an interface
    ([PhysFs]). *)
From Stdlib Require Import ZArith Lia List Bool.
From stdpp Require Import base list gmap.
From S2P Require Import Prelude.

#[local] Open Scope Z_scope.

(** [textos/fs.h] and [bits/fcntl.h] *)
Definition FS_GAIN : Z := 2 ^ 32.
Definition FS_GAINMNT : Z := 2 ^ 33.
Definition FS_GAINLNK : Z := 2 ^ 34.
Definition FS_NOPCTX : Z := 2 ^ 35.
Definition VO_ACCMODE : Z := 3.
Definition VO_CREAT : Z := 0x40.
Definition VO_DIRECTORY : Z := 0x10000.
Definition VO_NOFOLLOW : Z := 0x20000.
Definition MAY_READ : Z := 1.
Definition MAY_WRITE : Z := 2.
Definition MAY_EXEC : Z := 4.
Definition ERANGE : Z := 34.

Definition has (args flag : Z) : bool := negb (Z.land args flag =? 0).

(** [S_ISDIR] and the others of [bits/mode.h] *)
Definition fmt (mode : Z) : Z := Z.land mode 0xF000.
Definition isdir (mode : Z) : bool := fmt mode =? 0x4000.
Definition islnk (mode : Z) : bool := fmt mode =? 0xA000.
Definition isspecial (mode : Z) : bool := (fmt mode =? 0x2000) || (fmt mode =? 0x6000) || (fmt mode =? 0x1000).

Definition SLASH : Z := 47.
Definition DOT : Z := 46.

(** [node_t]: [v_mnt] is [FSA_MNT], [v_mount] the size and the elements of the stack of what was
    mounted over. *)
Record vnode := Vnode {
  v_name : list Z;
  v_mnt : bool;
  v_mode : Z;
  v_uid : Z;
  v_gid : Z;
  v_parent : Z;
  v_child : option Z;
  v_next : option Z;
  v_mount : option (Z * list (option Z))
}.

#[export] Instance eta_vnode : Eta vnode := fun n =>
  Vnode (v_name n) (v_mnt n) (v_mode n) (v_uid n) (v_gid n) (v_parent n) (v_child n) (v_next n) (v_mount n).

(** The nodes by address, [__vfs_root], and what the file systems keep. *)
Record vstate (S : Type) := Vstate { vnodes : gmap Z vnode; vroot : Z; phys : S }.
Arguments Vstate {S} vnodes vroot phys.
Arguments vnodes {S} v.
Arguments vroot {S} v.
Arguments phys {S} v.

#[export] Instance eta_vstate (S : Type) : Eta (vstate S) := fun s => Vstate (vnodes s) (vroot s) (phys s).

(** The operations of the file systems, the calling task, and the memory of a new [mount_t]. *)
Class PhysFs (S : Type) := {
  ph_open : vstate S -> Z -> list Z -> Z -> Z -> res (Z * option Z * vstate S);
  ph_readlink : vstate S -> Z -> res (Z * list Z);
  ph_opened : vstate S -> Z -> Z -> res (Z * vstate S);
  ph_chown : vstate S -> Z -> Z -> Z -> bool -> res (Z * vstate S);
  ph_chmod : vstate S -> Z -> Z -> bool -> res (Z * vstate S);
  t_euid : Z;
  t_egid : Z;
  t_supgids : list Z;
  junk_mount : Z * list (option Z)
}.

(** ** Paths *)

(** [fs_path_next]: behind the first component and the slashes after it. *)
Fixpoint skip_name (p : list Z) : list Z :=
  match p with
  | c :: q => if c =? SLASH then p else skip_name q
  | [] => []
  end.

Fixpoint skip_slash (p : list Z) : list Z :=
  match p with
  | c :: q => if c =? SLASH then skip_slash q else p
  | [] => []
  end.

Definition fs_path_next (p : list Z) : list Z := skip_slash (skip_name p).

(** [MIN(strlen(A), strchr(A, '/') - A)]: without a slash the difference is a huge number. *)
Fixpoint strchr_slash (p : list Z) : option nat :=
  match p with
  | [] => None
  | c :: q => if c =? SLASH then Some O else option_map S (strchr_slash q)
  end.

Definition name_len (p : list Z) : nat :=
  match strchr_slash p with
  | Some i => Nat.min (length p) i
  | None => length p
  end.

Definition fs_name_cmp (a b : list Z) : bool :=
  if negb (name_len a =? name_len b)%nat then false
  else bool_decide (take (name_len b) a = take (name_len b) b).

Section Vfs.
Context {S : Type} `{PhysFs S}.

Definition vget (st : vstate S) (n : Z) : res vnode := deref (vnodes st !! n).

Definition vset (st : vstate S) (n : Z) (v : vnode) : vstate S := st <| vnodes := <[n := v]> (vnodes st) |>.

(** [vfs_permission] *)
Definition vfs_permission (v : vnode) (want : Z) : Z :=
  let bits := if t_euid =? v_uid v then Z.shiftr (v_mode v) 6
              else if t_egid =? v_gid v then Z.shiftr (v_mode v) 3
              else v_mode v in
  if has want MAY_READ && negb (has bits 4) then - EACCES
  else if has want MAY_WRITE && negb (has bits 2) then - EACCES
  else if has want MAY_EXEC && negb (has bits 1) then - EACCES
  else 0.

(** [vfs_exist]: the chain of children is searched, at most as long as there are nodes. *)
Fixpoint exist_loop (fuel : nat) (st : vstate S) (ptr : option Z) (path : list Z) : res (option Z) :=
  match ptr with
  | None => Ok None
  | Some n =>
      match fuel with
      | O => Fault OutOfFuel
      | Datatypes.S fuel =>
          let! v := vget st n in
          if fs_name_cmp (v_name v) path then Ok (Some n) else exist_loop fuel st (v_next v) path
      end
  end.

Definition vfs_exist (st : vstate S) (dir : Z) (path : list Z) : res (option Z) :=
  let! v := vget st dir in
  exist_loop (size (vnodes st)) st (v_child v) path.

Definition vfs_getprt (st : vstate S) (n : Z) : res Z :=
  let! v := vget st n in
  let! p := vget st (v_parent v) in
  Ok (if v_mnt p then v_parent p else v_parent v).

Definition vfs_regst (st : vstate S) (n p : Z) : res (vstate S) :=
  let! v := vget st n in
  let! w := vget st p in
  let st := vset st n (v <| v_next := v_child w |> <| v_parent := p |>) in
  let! w := vget st p in
  Ok (vset st p (w <| v_child := Some n |>)).

(** The search of [vfs_unreg] for the pointer to [n]: the node whose [next] it is, or nothing for
    the [child] of the parent. *)
Fixpoint unreg_loop (fuel : nat) (st : vstate S) (prev : option Z) (cur : option Z) (n : Z) : res (option (option Z)) :=
  match cur with
  | None => Ok None
  | Some c =>
      if c =? n then Ok (Some prev)
      else
        match fuel with
        | O => Fault OutOfFuel
        | Datatypes.S fuel => let! v := vget st c in unreg_loop fuel st (Some c) (v_next v) n
        end
  end.

Definition vfs_unreg (st : vstate S) (n : Z) : res (vstate S) :=
  let! v := vget st n in
  let! w := vget st (v_parent v) in
  let! r := unreg_loop (size (vnodes st)) st None (v_child w) n in
  match r with
  | None => Ok st
  | Some None => Ok (vset st (v_parent v) (w <| v_child := v_next v |>))
  | Some (Some m) => let! x := vget st m in Ok (vset st m (x <| v_next := v_next v |>))
  end.

(** [vfs_release]: the children of a directory first; the fuel bounds the calls in all. *)
Fixpoint vfs_release (fuel : nat) (st : vstate S) (n : Z) : res (vstate S) :=
  match fuel with
  | O => Fault OutOfFuel
  | Datatypes.S fuel =>
      let! v := vget st n in
      match (if isdir (v_mode v) then v_child v else None) with
      | Some c => let! st := vfs_release fuel st c in vfs_release fuel st n
      | None =>
          let! st := vfs_unreg st n in
          Ok (st <| vnodes := delete n (vnodes st) |>)
      end
  end.

(** ** Mounts *)

Definition vfs_mount (st : vstate S) (dir root : Z) : res (vstate S) :=
  let! v := vget st dir in
  let '(siz, stk) := default junk_mount (v_mount v) in
  let st := vset st dir (v <| v_mount := Some (siz + 1, v_child v :: stk) |> <| v_child := Some root |> <| v_mnt := true |>) in
  let! r := vget st root in
  Ok (vset st root (r <| v_parent := dir |>)).

(** [stack_top] of an empty stack is null and [stack_pop] does nothing. *)
Definition vfs_umount (st : vstate S) (dir : Z) : res (vstate S) :=
  let! v := vget st dir in
  let! root := deref (v_child v) in
  let! r := vget st root in
  let st := vset st root (r <| v_parent := root |>) in
  let! v := vget st dir in
  let! m := deref (v_mount v) in
  let '(siz, stk) := m in
  let '(top, siz, stk) := match stk with
                          | [] => (None, siz, [])
                          | c :: stk => (c, siz - 1, stk)
                          end in
  Ok (vset st dir (v <| v_child := top |> <| v_mount := Some (siz, stk) |> <| v_mnt := if siz =? 0 then false else v_mnt v |>)).

Definition vfs_isaroot (st : vstate S) (n : Z) : res bool :=
  let! v := vget st n in
  if v_parent v =? n then Ok true
  else let! p := vget st (v_parent v) in Ok (v_mnt p).

(** ** The search along a path *)

(** The end of [_vfs_open]: a mount point and a symbolic link are followed; [vopen] is [vfs_open]. *)
Definition open_found (vopen : vstate S -> option Z -> list Z -> Z -> Z -> res (Z * option Z * vstate S))
    (dir args : Z) (r : Z * option Z * vstate S) : res (Z * option Z * vstate S) :=
  let '(ret, node, st) := r in
  if ret <? 0 then Ok (ret, None, st)
  else
    let! n := deref node in
    let! v := vget st n in
    let! n := (if v_mnt v && negb (has args FS_GAINMNT) then deref (v_child v) else Ok n) in
    let! v := vget st n in
    if islnk (v_mode v) && negb (has args FS_GAINLNK) then
      let! l := ph_readlink st n in
      let '(ret, linkto) := l in
      if ret <? 0 then Ok (ret, None, st)
      else
        let! r := vopen st (Some dir) linkto FS_GAIN 0 in
        let '(ret, node, st) := r in
        if ret <? 0 then Ok (ret, None, st) else Ok (ret, node, st)
    else Ok (ret, Some n, st).

(** [_vfs_open] *)
Definition open_at (vopen : vstate S -> option Z -> list Z -> Z -> Z -> res (Z * option Z * vstate S))
    (st : vstate S) (dir : Z) (path : list Z) (args mode : Z) : res (Z * option Z * vstate S) :=
  if bool_decide (path = []) || fs_name_cmp path [DOT] then Ok (0, Some dir, st)
  else if fs_name_cmp path [DOT; DOT] then let! p := vfs_getprt st dir in Ok (0, Some p, st)
  else
    let! e := vfs_exist st dir path in
    let! r := (match e with
               | Some n => Ok (0, Some n, st)
               | None => ph_open st dir path args mode
               end) in
    open_found vopen dir args r.

(** The loop of [vfs_walkd]; a component has at least one byte, so there are no more rounds than
    the path has bytes. *)
Fixpoint walkd_loop (vopen : vstate S -> option Z -> list Z -> Z -> Z -> res (Z * option Z * vstate S))
    (k : nat) (st : vstate S) (cur : Z) (p : list Z) : res (list Z * Z * vstate S) :=
  match k with
  | O => Ok (p, cur, st)
  | Datatypes.S k =>
      let nxt := fs_path_next p in
      if bool_decide (nxt = []) then Ok (p, cur, st)
      else
        let! v := vget st cur in
        if negb (isdir (v_mode v)) then Ok (p, cur, st)
        else if vfs_permission v MAY_EXEC <? 0 then Ok (p, cur, st)
        else
          let! r := open_at vopen st cur p FS_GAIN 0 in
          let '(ret, chd, st) := r in
          if ret <? 0 then Ok (p, cur, st)
          else let! c := deref chd in walkd_loop vopen k st c nxt
  end.

(** [vfs_walkd]: the result is always 0; the rest of the path and the node reached. *)
Definition vfs_walkd (vopen : vstate S -> option Z -> list Z -> Z -> Z -> res (Z * option Z * vstate S))
    (st : vstate S) (start : option Z) (path : list Z) : res (Z * list Z * Z * vstate S) :=
  let start := default (vroot st) start in
  let start := match path with
               | c :: _ => if c =? SLASH then vroot st else start
               | [] => start
               end in
  let! r := walkd_loop vopen (length path) st start (skip_slash path) in
  let '(p, cur, st) := r in
  Ok (0, p, cur, st).

(** What [vfs_open] checks of the node it found; [dirmode] is the mode of the directory. *)
Definition open_check (v : vnode) (dirmode args : Z) : Z :=
  let acc := Z.land args VO_ACCMODE in
  let want := if acc =? 0 then MAY_READ
              else if acc =? 1 then MAY_WRITE
              else if acc =? 2 then Z.lor MAY_READ MAY_WRITE
              else 0 in
  let ret := vfs_permission v want in
  if ret <? 0 then ret
  else
    let ret := if negb (isdir (v_mode v)) && has args VO_DIRECTORY then - ENOTDIR
               else if isdir (v_mode v) && negb (has args VO_DIRECTORY) then - EISDIR
               else ret in
    if islnk dirmode && has args VO_NOFOLLOW then - ELOOP else ret.

Definition open_with (vopen : vstate S -> option Z -> list Z -> Z -> Z -> res (Z * option Z * vstate S))
    (st : vstate S) (parent : option Z) (path : list Z) (args mode : Z) : res (Z * option Z * vstate S) :=
  let! w := vfs_walkd vopen st parent path in
  let '(ret, p, dir, st) := w in
  if ret <? 0 then Ok (ret, None, st)
  else
    let! r := open_at vopen st dir p args mode in
    let '(ret, node, st) := r in
    if ret <? 0 then Ok (ret, None, st)
    else
      let! n := deref node in
      let! v := vget st n in
      let! dv := vget st dir in
      let ret := if negb (has args FS_GAIN) then open_check v (v_mode dv) args else ret in
      if ret <? 0 then Ok (ret, None, st)
      else
        let! r := ph_opened st n args in
        let '(ret, st) := r in
        Ok (ret, if ret <? 0 then None else Some n, st).

(** [vfs_open]; the fuel bounds the symbolic links that lead to others. *)
Fixpoint vfs_open (fuel : nat) (st : vstate S) (parent : option Z) (path : list Z) (args mode : Z) : res (Z * option Z * vstate S) :=
  match fuel with
  | O => Fault OutOfFuel
  | Datatypes.S fuel => open_with (vfs_open fuel) st parent path args mode
  end.

(** ** The path of a node *)

Definition getprt_mp (st : vstate S) (n : Z) : res Z :=
  let! r := vfs_isaroot st n in
  do! ASSERTK (negb r) in
  let! v := vget st n in
  let! r := vfs_isaroot st (v_parent v) in
  if r then let! p := vget st (v_parent v) in Ok (v_parent p) else Ok (v_parent v).

(** The two loops of [vfs_getpath] make the same steps: one adds up the lengths of the names, the
    other one copies them, each behind a slash. *)
Fixpoint getpath_loop (fuel : nat) (st : vstate S) (p : Z) : res (list Z) :=
  match fuel with
  | O => Fault OutOfFuel
  | Datatypes.S fuel =>
      let! v := vget st p in
      if v_parent v =? p then Ok []
      else
        let! q := getprt_mp st p in
        let! rest := getpath_loop fuel st q in
        Ok (rest ++ SLASH :: v_name v)
  end.

(** [vfs_getpath]: the result, the size, and the bytes with their terminating zero. *)
Definition vfs_getpath (st : vstate S) (n : option Z) (siz : Z) : res (Z * Z * list Z) :=
  match n with
  | None => if siz <? 2 then Ok (- ERANGE, 2, []) else Ok (0, 2, [SLASH; 0])
  | Some n =>
      let! r := vfs_isaroot st n in
      let! v := vget st n in
      let n := if r then v_parent v else n in
      let! path := getpath_loop (Datatypes.S (size (vnodes st))) st n in
      let len := Z.of_nat (length path) in
      if siz <? len + 1 then Ok (- ERANGE, len + 1, []) else Ok (0, len + 1, path ++ [0])
  end.

(** ** Owner and mode *)

(** [insgrp] *)
Definition insgrp (gid : Z) : bool := existsb (fun g => gid =? g) t_supgids.

(** [vfs_chown]; [-1] is [2^32 - 1] in the unsigned [uid_t] and [gid_t]. *)
Definition vfs_chown (st : vstate S) (file owner group : Z) : res (Z * vstate S) :=
  let! v := vget st file in
  let ochg := negb (owner =? 2 ^ 32 - 1) && negb (owner =? v_uid v) in
  let gchg := negb (group =? 2 ^ 32 - 1) && negb (group =? v_gid v) in
  if negb (t_euid =? 0) && ochg then Ok (- EPERM, st)
  else if negb (t_euid =? 0) && gchg && negb (t_egid =? group) && negb (insgrp group) then Ok (- EPERM, st)
  else if ochg || gchg then
    let! r := ph_chown st file (if ochg then owner else v_uid v) (if gchg then group else v_gid v) (t_euid =? 0) in
    let '(ret, st) := r in
    if ret <? 0 then Ok (ret, st) else Ok (0, st)
  else Ok (0, st).

Definition vfs_chmod (st : vstate S) (file mode : Z) : res (Z * vstate S) :=
  let mode := Z.land mode 4095 in
  let! v := vget st file in
  if negb (t_euid =? 0) && negb (t_euid =? v_uid v) then Ok (- EPERM, st)
  else
    let clr := if t_euid =? 0 then false else negb (insgrp (v_gid v)) in
    let! r := ph_chmod st file mode clr in
    let '(ret, st) := r in
    if ret <? 0 then Ok (ret, st) else Ok (0, st).

(** ** System calls on paths: [kernel/file.c] *)

Definition F_OK : Z := 0.
Definition X_OK : Z := 1.
Definition W_OK : Z := 2.
Definition R_OK : Z := 4.

Definition sys_access (fuel : nat) (st : vstate S) (pwd : option Z) (path : list Z) (amode : Z) : res (Z * vstate S) :=
  let! r := vfs_open fuel st pwd path FS_GAIN 0 in
  let '(ret, node, st) := r in
  if ret <? 0 then Ok (ret, st)
  else if amode =? F_OK then Ok (0, st)
  else
    let want := Z.lor (Z.lor (if has amode X_OK then MAY_EXEC else 0) (if has amode W_OK then MAY_WRITE else 0)) (if has amode R_OK then MAY_READ else 0) in
    let! n := deref node in
    let! v := vget st n in
    Ok (vfs_permission v want, st).

(** [chdir]: the result and the directory of the task. *)
Definition sys_chdir (fuel : nat) (st : vstate S) (pwd : option Z) (path : list Z) : res (Z * option Z * vstate S) :=
  let! r := vfs_open fuel st pwd path VO_DIRECTORY 0 in
  let '(ret, node, st) := r in
  if ret <? 0 then Ok (ret, pwd, st) else Ok (ret, node, st).

Definition sys_mkdir (fuel : nat) (st : vstate S) (pwd : option Z) (path : list Z) (mode : Z) : res (Z * vstate S) :=
  let mode := Z.land mode 511 in
  let! r := vfs_open fuel st pwd path VO_DIRECTORY 0 in
  let '(ret, _, st) := r in
  if 0 <=? ret then Ok (- EEXIST, st)
  else
    let! r := vfs_open fuel st pwd path (Z.lor VO_DIRECTORY VO_CREAT) mode in
    let '(ret, _, st) := r in
    Ok (ret, st).

(** [getcwd]: the result, and the path with its terminating zero. *)
Definition sys_getcwd (st : vstate S) (pwd : option Z) (siz : Z) : res (Z * list Z) :=
  let! r := vfs_getpath st pwd siz in
  let '(ret, _, bytes) := r in
  Ok (ret, bytes).

Definition sys_umount2 (fuel : nat) (st : vstate S) (pwd : option Z) (path : list Z) : res (Z * vstate S) :=
  let! r := vfs_open fuel st pwd path (Z.lor FS_GAIN FS_GAINMNT) 0 in
  let '(ret, node, st) := r in
  if ret <? 0 then Ok (ret, st)
  else
    let! n := deref node in
    let! st := vfs_umount st n in
    Ok (0, st).

End Vfs.
