(* ===== verification/VfsPath.v ===== *)
(** * Paths and nodes

    The search along a path finds the node the path names, and the path of a node leads back to
    it, through mounts as well. *)
From Stdlib Require Import ZArith Lia List Bool.
From stdpp Require Import base list gmap fin_maps sets.
From S2P Require Import Prelude Vfs.

#[local] Open Scope Z_scope.

(** ** Names *)

Definition name_ok (nm : list Z) : Prop := nm <> [] /\ (SLASH ∉ nm) /\ nm <> [DOT] /\ nm <> [DOT; DOT].

(** What follows a component: nothing or a slash. *)
Definition tail_ok (rest : list Z) : Prop := rest = [] \/ exists q, rest = SLASH :: q.

Lemma strchr_none nm : SLASH ∉ nm -> strchr_slash nm = None.
Proof.
  induction nm as [|c nm IH]; [done|]. intros [Hc Hn]%not_elem_of_cons. cbn [strchr_slash]. rewrite (proj2 (Z.eqb_neq _ _)) by congruence. by rewrite IH.
Qed.

Lemma strchr_app nm q : SLASH ∉ nm -> strchr_slash (nm ++ SLASH :: q) = Some (length nm).
Proof.
  induction nm as [|c nm IH]; intros Hn; cbn [strchr_slash app length].
  - by rewrite Z.eqb_refl.
  - apply not_elem_of_cons in Hn as [Hc Hn]. rewrite (proj2 (Z.eqb_neq _ _)) by congruence. by rewrite IH.
Qed.

Lemma name_len_app nm rest : SLASH ∉ nm -> tail_ok rest -> name_len (nm ++ rest) = length nm.
Proof.
  intros Hn [->|[q ->]]; unfold name_len.
  - by rewrite app_nil_r, strchr_none.
  - rewrite strchr_app by done. rewrite length_app. lia.
Qed.

Lemma name_cmp_app a nm rest : SLASH ∉ a -> SLASH ∉ nm -> tail_ok rest -> fs_name_cmp a (nm ++ rest) = bool_decide (a = nm).
Proof.
  intros Ha Hn Hr. unfold fs_name_cmp. rewrite (name_len_app nm rest) by done.
  pose proof (name_len_app a [] Ha ltac:(by left)) as El. rewrite app_nil_r in El. rewrite El. rewrite take_app_length.
  destruct (Nat.eqb_spec (length a) (length nm)) as [E|E]; cbn [negb].
  - rewrite <- E. by rewrite take_ge by lia.
  - symmetry. apply bool_decide_false. by intros ->.
Qed.

Lemma name_cmp_of nm rest a : SLASH ∉ a -> SLASH ∉ nm -> tail_ok rest -> fs_name_cmp (nm ++ rest) a = bool_decide (nm = a).
Proof.
  intros Ha Hn Hr. unfold fs_name_cmp. rewrite (name_len_app nm rest) by done.
  pose proof (name_len_app a [] Ha ltac:(by left)) as El. rewrite app_nil_r in El. rewrite El.
  destruct (Nat.eqb_spec (length nm) (length a)) as [E|E]; cbn [negb].
  - rewrite <- E, take_app_length. by rewrite E, take_ge by lia.
  - symmetry. apply bool_decide_false. by intros ->.
Qed.

Lemma skip_name_app nm rest : SLASH ∉ nm -> tail_ok rest -> skip_name (nm ++ rest) = rest.
Proof.
  intros Hn Hr. induction nm as [|c nm IH]; cbn [skip_name app].
  - destruct Hr as [->|[q ->]]; [done|]. cbn [skip_name]. by rewrite Z.eqb_refl.
  - apply not_elem_of_cons in Hn as [Hc Hn]. rewrite (proj2 (Z.eqb_neq _ _)) by congruence. by apply IH.
Qed.

(** Components behind slashes. *)
Definition join (comps : list (list Z)) : list Z := concat (map (fun c => SLASH :: c) comps).

Lemma join_tail comps : tail_ok (join comps).
Proof. destruct comps as [|c comps]; [by left|right]. by eexists. Qed.

Lemma skip_slash_join nm comps : name_ok nm -> skip_slash (join (nm :: comps)) = nm ++ join comps.
Proof.
  intros (Hne & Hs & _). cbn [join map concat skip_slash app]. rewrite Z.eqb_refl. destruct nm as [|c nm]; [done|]. apply not_elem_of_cons in Hs as [Hc _].
  cbn [app skip_slash]. by rewrite (proj2 (Z.eqb_neq _ _)) by congruence.
Qed.

Lemma path_next_join nm comps : name_ok nm -> Forall name_ok comps ->
  fs_path_next (nm ++ join comps) = match comps with [] => [] | c :: rest => c ++ join rest end.
Proof.
  intros (_ & Hs & _) Hc. unfold fs_path_next. rewrite skip_name_app by (done || apply join_tail). destruct comps as [|c rest]; [done|].
  apply Forall_cons in Hc as [Hc _]. by apply skip_slash_join.
Qed.

Lemma name_head nm : name_ok nm -> exists c q, nm = c :: q /\ c <> SLASH.
Proof. intros (Hne & Hs & _). destruct nm as [|c q]; [done|]. apply not_elem_of_cons in Hs as [? _]. by exists c, q. Qed.

Lemma skip_slash_name nm rest : name_ok nm -> skip_slash (nm ++ rest) = nm ++ rest.
Proof. intros Hnm. destruct (name_head nm Hnm) as (c & q & -> & Hc). cbn [app skip_slash]. by rewrite (proj2 (Z.eqb_neq c SLASH)). Qed.

Lemma vget_some {S : Type} (st : vstate S) n v : vnodes st !! n = Some v -> vget st n = Ok v.
Proof. intros E. unfold vget. by rewrite E. Qed.

(** A name that is neither "." nor ".." is looked for. *)
Lemma open_at_name {S : Type} `{PhysFs S} vopen (st : vstate S) p nm rest args mode : name_ok nm -> tail_ok rest ->
  open_at vopen st p (nm ++ rest) args mode =
  let! e := vfs_exist st p (nm ++ rest) in
  let! r := (match e with Some n => Ok (0, Some n, st) | None => ph_open st p (nm ++ rest) args mode end) in open_found vopen p args r.
Proof.
  intros (Hnn & Hsl & Hd1 & Hd2) Ht. unfold open_at. rewrite bool_decide_false by (intros E; apply app_nil in E as [? _]; done).
  assert ((SLASH ∉ [DOT]) /\ (SLASH ∉ [DOT; DOT])) as [Hs1 Hs2] by (split; rewrite !elem_of_cons, elem_of_nil; by vm_compute; intuition congruence).
  rewrite !name_cmp_of by done. by rewrite !bool_decide_false by done.
Qed.

(** ** The tree *)

Section Path.
Context {S : Type} `{PhysFs S} (st : vstate S).

(** The children from [ptr] on, in the order of their [next] pointers. *)
Inductive chain : option Z -> list Z -> Prop :=
| chain_nil : chain None []
| chain_cons n v l : vnodes st !! n = Some v -> chain (v_next v) l -> chain (Some n) (n :: l).

Lemma nexts_det p l1 : chain p l1 -> forall l2, chain p l2 -> l1 = l2.
Proof.
  induction 1 as [|n v l Hv Hc IH]; intros l2 H2; inversion H2; subst; [done|]. simplify_eq. f_equal. by apply IH.
Qed.

Lemma nexts_app l1 : forall p n l2, chain p (l1 ++ n :: l2) -> chain (Some n) (n :: l2).
Proof.
  induction l1 as [|m l1 IH]; intros p n l2 Hc; inversion Hc as [|m' v l Hv Hl]; subst; [by econstructor|]. by eapply IH.
Qed.

Lemma chain_nodup p l : chain p l -> NoDup l.
Proof.
  induction 1 as [|n v l Hv Hc IH]; [constructor|]. apply NoDup_cons. split; [|done]. intros Hin.
  apply list_elem_of_split in Hin as (l1 & l2 & ->). pose proof (nexts_app l1 _ n l2 Hc) as H2. pose proof (chain_cons n v _ Hv Hc) as H1.
  pose proof (nexts_det _ _ H1 _ H2) as E. apply (f_equal length) in E. rewrite !length_cons, length_app, length_cons in E. lia.
Qed.

Lemma chain_node p l n : chain p l -> n ∈ l -> exists v, vnodes st !! n = Some v.
Proof. induction 1 as [|m v l Hv Hc IH]; [by intros ?%elem_of_nil|]. intros [->|Hin]%elem_of_cons; [by exists v|by apply IH]. Qed.

Lemma nodes_bound (l : list Z) : NoDup l -> (forall n, n ∈ l -> exists v, vnodes st !! n = Some v) -> (length l <= size (vnodes st))%nat.
Proof.
  intros Hnd Hl. rewrite <- (size_dom (D := gset Z)). rewrite <- (size_list_to_set (C := gset Z) l Hnd). apply subseteq_size. intros n Hn%elem_of_list_to_set.
  apply elem_of_dom. by apply Hl.
Qed.

(** [vfs_exist] finds the child with the name. *)
Lemma exist_loop_ok p l n v nm rest : chain p l -> n ∈ l -> vnodes st !! n = Some v -> v_name v = nm -> name_ok nm -> tail_ok rest ->
  (forall m w, m ∈ l -> vnodes st !! m = Some w -> SLASH ∉ v_name w) -> (forall m w, m ∈ l -> vnodes st !! m = Some w -> v_name w = nm -> m = n) ->
  forall fuel, (length l <= fuel)%nat -> exist_loop fuel st p (nm ++ rest) = Ok (Some n).
Proof.
  intros Hc Hin Hv Hn (_ & Hs & _) Hr. induction Hc as [|m w l Hw Hc IH]; [by apply elem_of_nil in Hin|]. intros Hsl Hu fuel Hf.
  destruct fuel as [|fuel]; [cbn in Hf; lia|]. cbn [exist_loop]. unfold vget. rewrite Hw. cbn [deref res_bind].
  rewrite name_cmp_app by (done || exact (Hsl m w ltac:(left) Hw)). case_bool_decide as E.
  - by rewrite (Hu m w ltac:(left) Hw E).
  - apply elem_of_cons in Hin as [->|Hin]; [simplify_eq|]. apply IH; [done| | |cbn in Hf; lia].
    + intros k x Hk. apply Hsl. by right.
    + intros k x Hk. apply Hu. by right.
Qed.

(** Child [c] of directory [p] has the name [nm]; the caller may search [p]. *)
Record child (p : Z) (nm : list Z) (c : Z) : Prop := {
  ch_dir : exists w l, vnodes st !! p = Some w /\ isdir (v_mode w) = true /\ vfs_permission w MAY_EXEC = 0 /\ v_mnt w = false /\
    chain (v_child w) l /\ c ∈ l /\ (forall m x, m ∈ l -> vnodes st !! m = Some x -> SLASH ∉ v_name x) /\
    (forall m x, m ∈ l -> vnodes st !! m = Some x -> v_name x = nm -> m = c);
  ch_node : exists v, vnodes st !! c = Some v /\ v_name v = nm /\ v_parent v = p;
  ch_name : name_ok nm;
  ch_ne : c <> p
}.

(** What is found at [c]: the root of what is mounted there, or [c] itself. *)
Definition covers (c n : Z) : Prop := exists v w, vnodes st !! c = Some v /\ vnodes st !! n = Some w /\ islnk (v_mode w) = false /\
  if v_mnt v then v_child v = Some n /\ v_parent w = c /\ v_mnt w = false /\ n <> c else n = c.

(** The node a list of names leads to. *)
Inductive leads : Z -> list (list Z) -> Z -> Prop :=
| leads_here n : leads n [] n
| leads_step p nm c q comps n : child p nm c -> covers c q -> leads q comps n -> leads p (nm :: comps) n.

Lemma has_gain_mnt : has FS_GAIN FS_GAINMNT = false. Proof. reflexivity. Qed.

Lemma has_gain_lnk : has FS_GAIN FS_GAINLNK = false. Proof. reflexivity. Qed.

Lemma open_at_child vopen p nm c q rest args mode : child p nm c -> covers c q -> tail_ok rest -> has args FS_GAINMNT = false -> has args FS_GAINLNK = false ->
  open_at vopen st p (nm ++ rest) args mode = Ok (0, Some q, st).
Proof.
  intros [(w & l & Hw & Hd & Hp & Hm & Hch & Hin & Hsl & Hu) (v & Hv & Hn & Hpa) Hnm Hne] (v' & x & Hv' & Hx & Hl & Hcov) Hr Ha1 Ha2. simplify_eq.
  rewrite open_at_name by done. unfold vfs_exist. rewrite (vget_some _ _ _ Hw). cbn [res_bind].
  rewrite (exist_loop_ok (v_child w) l c v (v_name v) rest); try done.
  2: { apply nodes_bound; [by eapply chain_nodup|]. intros m Hm'. by eapply chain_node. }
  cbn [res_bind]. unfold open_found. cbn [Z.ltb Z.compare deref res_bind]. rewrite (vget_some _ _ _ Hv). cbn [res_bind]. rewrite Ha1, Ha2, !andb_true_r.
  destruct (v_mnt v).
  - destruct Hcov as (-> & _). cbn [deref res_bind]. rewrite (vget_some _ _ _ Hx). cbn [res_bind]. by rewrite Hl.
  - subst q. cbn [res_bind]. rewrite (vget_some _ _ _ Hx). cbn [res_bind]. by rewrite Hl.
Qed.

Lemma leads_names p comps n : leads p comps n -> Forall name_ok comps.
Proof. induction 1 as [|p nm c q comps n Hc Hq Hl IH]; constructor; [by destruct Hc|done]. Qed.

(** The loop of [vfs_walkd] stops at the directory of the last name. *)
Lemma walkd_ok vopen comps : forall p nm n k, leads p (nm :: comps) n -> (length comps <= k)%nat ->
  exists d last c, walkd_loop vopen k st p (nm ++ join comps) = Ok (last, d, st) /\ child d last c /\ covers c n.
Proof.
  induction comps as [|nm2 comps IH]; intros p nm n k Hl Hk; pose proof (leads_names _ _ _ Hl) as Hnm; apply Forall_cons in Hnm as [Hnm Hnms];
    inversion Hl as [|p' nm' c q cs n' Hc Hq Hrest]; subst.
  - inversion Hrest; subst. exists p, nm, c. split; [|done]. cbn [join map concat]. rewrite app_nil_r. destruct k as [|k]; [done|]. cbn [walkd_loop].
    pose proof (path_next_join nm [] Hnm (Forall_nil_2 _)) as E. cbn [join map concat] in E. rewrite app_nil_r in E. by rewrite E.
  - destruct k as [|k]; [cbn in Hk; lia|]. cbn [walkd_loop]. rewrite path_next_join by done. apply Forall_cons in Hnms as [(Hnn & _) _].
    rewrite bool_decide_false by (intros E; apply app_nil in E as [? _]; done).
    pose proof (ch_dir _ _ _ Hc) as (w & l & Hw & Hd & Hp & _). unfold vget. rewrite Hw. cbn [deref res_bind]. rewrite Hd. cbn [negb].
    rewrite Hp. cbn [Z.ltb Z.compare].
    rewrite (open_at_child vopen p nm c q) by (done || apply join_tail). cbn [res_bind Z.ltb Z.compare deref]. apply IH; [done|cbn in Hk; lia].
Qed.

Lemma join_length comps : Forall name_ok comps -> (length comps <= length (join comps))%nat.
Proof. induction 1 as [|c comps Hc _ IH]; [done|]. cbn [join map concat length]. rewrite length_app. unfold join in IH. cbn [length]. lia. Qed.

(** Opening a path finds the node it leads to, if the caller may open that. *)
Lemma open_leads parent args mode comps n x fuel : leads (vroot st) comps n -> vnodes st !! n = Some x -> is_Some (vnodes st !! vroot st) ->
  (comps = [] -> parent = None) -> has args FS_GAINMNT = false -> has args FS_GAINLNK = false -> (forall dm, has args FS_GAIN = true \/ open_check x dm args = 0) ->
  ph_opened st n args = Ok (0, st) -> vfs_open (Datatypes.S fuel) st parent (join comps) args mode = Ok (0, Some n, st).
Proof.
  intros Hl Hx [r Hroot] Hpar Ha1 Ha2 Hchk Hop. cbn [vfs_open]. unfold open_with, vfs_walkd.
  assert (forall dm, (if negb (has args FS_GAIN) then open_check x dm args else 0) = 0) as Hc0 by (intros dm; destruct (Hchk dm) as [E|E]; rewrite E; [done|by destruct (negb _)]).
  destruct comps as [|nm comps].
  - inversion Hl; subst. rewrite Hpar by done. cbn [join map concat length skip_slash walkd_loop res_bind default]. cbn [Z.ltb Z.compare]. unfold open_at.
    rewrite bool_decide_true by done. cbn [orb res_bind Z.ltb Z.compare deref]. unfold vget. rewrite Hx. cbn [deref res_bind].
    rewrite Hc0. cbn [Z.ltb Z.compare]. by rewrite Hop.
  - pose proof (leads_names _ _ _ Hl) as Hnm. apply Forall_cons in Hnm as [Hnm Hnms].
    assert (match join (nm :: comps) with c :: _ => if c =? SLASH then vroot st else default (vroot st) parent | [] => default (vroot st) parent end = vroot st) as -> by done.
    rewrite skip_slash_join by done.
    destruct (walkd_ok (vfs_open fuel) comps (vroot st) nm n (length (join (nm :: comps))) Hl) as (d & last & c & E & Hc & Hq).
    { pose proof (join_length (nm :: comps) ltac:(by constructor)). cbn [length] in *. lia. }
    rewrite E. cbn [res_bind Z.ltb Z.compare]. rewrite <- (app_nil_r last).
    rewrite (open_at_child (vfs_open fuel) d last c n []) by (done || by left). cbn [res_bind Z.ltb Z.compare deref]. unfold vget. rewrite Hx. cbn [deref res_bind].
    destruct (ch_dir _ _ _ Hc) as (w & l & Hw & _). rewrite Hw. cbn [deref res_bind]. rewrite Hc0. cbn [Z.ltb Z.compare]. by rewrite Hop.
Qed.

(** ** The path of a node *)

Context (Hroot : exists r, vnodes st !! vroot st = Some r /\ v_parent r = vroot st /\ v_mnt r = false).

Lemma leads_snoc comps : forall p nm n, leads p (comps ++ [nm]) n -> exists q c, leads p comps q /\ child q nm c /\ covers c n.
Proof.
  induction comps as [|nm1 comps IH]; intros p nm n Hl; inversion Hl as [|p' nm' c q cs n' Hc Hq Hrest]; subst.
  - inversion Hrest; subst. exists p, c. split; [constructor|done].
  - destruct (IH q nm n Hrest) as (q2 & c2 & H1 & H2 & H3). exists q2, c2. split; [by econstructor|done].
Qed.

(** Where [vfs_getpath] starts for node [n]: the mount point of a mounted root. *)
Definition base (n b : Z) : Prop := exists r v, vfs_isaroot st n = Ok r /\ vnodes st !! n = Some v /\ b = if r then v_parent v else n.

Lemma base_det n b1 b2 : base n b1 -> base n b2 -> b1 = b2.
Proof. intros (r1 & v1 & E1 & E2 & ->) (r2 & v2 & E3 & E4 & ->). rewrite E1 in E3. rewrite E2 in E4. by injection E3 as <-; injection E4 as <-. Qed.

Lemma isaroot_child q nm c : child q nm c -> vfs_isaroot st c = Ok false.
Proof.
  intros [(w & l & Hw & _ & _ & Hm & _) (v & Hv & _ & Hp) _ Hne]. unfold vfs_isaroot, vget. rewrite Hv. cbn [deref res_bind]. rewrite Hp.
  rewrite (proj2 (Z.eqb_neq _ _)) by congruence. rewrite Hw. cbn [deref res_bind]. by rewrite Hm.
Qed.

Lemma base_covers q nm c n : child q nm c -> covers c n -> base n c.
Proof.
  intros Hc (v & w & Hv & Hw & _ & Hcov). destruct (v_mnt v) eqn:Em.
  - destruct Hcov as (_ & Hp & _ & Hne). exists true, w. split; [|by rewrite Hp]. unfold vfs_isaroot, vget. rewrite Hw. cbn [deref res_bind]. rewrite Hp.
    rewrite (proj2 (Z.eqb_neq _ _)) by congruence. rewrite Hv. cbn [deref res_bind]. by rewrite Em.
  - subst n. exists false, v. split; [by eapply isaroot_child|done].
Qed.

Lemma getprt_base q nm c b : child q nm c -> base q b -> getprt_mp st c = Ok b.
Proof.
  intros Hc (r & w & Hr & Hw & ->). unfold getprt_mp. rewrite (isaroot_child q nm c Hc). cbn [res_bind negb ASSERTK].
  destruct Hc as [_ (v & Hv & _ & Hp) _ _]. unfold vget. rewrite Hv. cbn [deref res_bind]. rewrite Hp, Hr. cbn [res_bind]. destruct r; [|done]. rewrite Hw. done.
Qed.

Lemma join_snoc comps nm : join (comps ++ [nm]) = join comps ++ SLASH :: nm.
Proof. unfold join. rewrite map_app, concat_app. cbn [map concat]. by rewrite app_nil_r. Qed.

Lemma getpath_loop_ok comps : forall n b fuel, leads (vroot st) comps n -> base n b -> (length comps < fuel)%nat -> getpath_loop fuel st b = Ok (join comps).
Proof.
  induction comps as [|nm comps IH] using rev_ind; intros n b fuel Hl Hb Hf; (destruct fuel as [|fuel]; [lia|]); cbn [getpath_loop].
  - inversion Hl; subst. destruct Hroot as (r & Hr & Hp & Hm). destruct Hb as (r' & v & _ & Hv & ->). rewrite Hr in Hv. injection Hv as <-.
    assert ((if r' then v_parent r else vroot st) = vroot st) as -> by (by destruct r'). unfold vget. rewrite Hr. cbn [deref res_bind]. by rewrite Hp, Z.eqb_refl.
  - destruct (leads_snoc comps _ nm n Hl) as (q & c & Hlq & Hc & Hcov). rewrite length_app in Hf. cbn [length] in Hf.
    assert (b = c) as ->.
    { apply (base_det n); [done|]. by eapply base_covers. }
    assert (exists b', base q b') as [b' Hb'].
    { destruct (ch_dir _ _ _ Hc) as (w & l & Hw & _). assert (exists r, vfs_isaroot st q = Ok r) as [r Hr]; [|by exists (if r then v_parent w else q), r, w].
      destruct comps as [|x xs _] using rev_ind; [|destruct (leads_snoc xs _ x q Hlq) as (q2 & c2 & _ & Hc2 & Hcov2); destruct (base_covers q2 x c2 q Hc2 Hcov2) as (r & _ & Hr & _); by exists r].
      inversion Hlq; subst. destruct Hroot as (r & Hr & Hp & _). exists true. unfold vfs_isaroot, vget. rewrite Hr. cbn [deref res_bind]. by rewrite Hp, Z.eqb_refl. }
    pose proof (getprt_base q nm c b' Hc Hb') as Eg. destruct Hc as [_ (v & Hv & Hn & Hp) _ Hne]. unfold vget. rewrite Hv. cbn [deref res_bind].
    rewrite (proj2 (Z.eqb_neq _ _)) by congruence. rewrite Eg. cbn [res_bind]. rewrite (IH q b' fuel Hlq Hb') by lia. cbn [res_bind]. by rewrite Hn, join_snoc.
Qed.

Lemma getpath_mono f : forall f' p r, getpath_loop f st p = Ok r -> (f <= f')%nat -> getpath_loop f' st p = Ok r.
Proof.
  induction f as [|f IH]; intros f' p r Hg Hf; [done|]. destruct f' as [|f']; [lia|]. cbn [getpath_loop] in *.
  destruct (vget st p) as [v|]; [|done]. cbn [res_bind] in *. destruct (_ =? _); [done|]. destruct (getprt_mp st p) as [q|]; [|done]. cbn [res_bind] in *.
  destruct (getpath_loop f st q) as [x|] eqn:E; [|done]. by rewrite (IH f' q x E) by lia.
Qed.

(** The nodes on the way. *)
Lemma leads_nodes comps : forall n, leads (vroot st) comps n -> exists cs, length cs = length comps /\
  forall i c, cs !! i = Some c -> (exists v, vnodes st !! c = Some v) /\ exists fuel, getpath_loop fuel st c = Ok (join (take (Datatypes.S i) comps)).
Proof.
  induction comps as [|nm comps IH] using rev_ind; intros n Hl; [by exists []|].
  destruct (leads_snoc comps _ nm n Hl) as (q & c & Hlq & Hc & Hcov). destruct (IH q Hlq) as (cs & Hlen & Hcs). exists (cs ++ [c]).
  split; [rewrite !length_app; cbn; lia|]. intros i x Hx. apply lookup_app_Some in Hx as [Hx|[Hge Hx]].
  - destruct (Hcs i x Hx) as [Hv [f Hf]]. split; [done|]. exists f. rewrite take_app_le; [done|]. apply lookup_lt_Some in Hx. lia.
  - apply list_lookup_singleton_Some in Hx as [Hi <-]. destruct (ch_node _ _ _ Hc) as (v & Hv & _). split; [by exists v|]. exists (Datatypes.S (length (comps ++ [nm]))).
    rewrite take_ge by (rewrite length_app; cbn; lia). eapply getpath_loop_ok; [done|by eapply base_covers|lia].
Qed.

Lemma join_lt comps i j : Forall name_ok comps -> (i < j <= length comps)%nat -> (length (join (take i comps)) < length (join (take j comps)))%nat.
Proof.
  intros Hc Hij. replace (take j comps) with (take i comps ++ take (j - i) (drop i comps)) by (rewrite take_take_drop; f_equal; lia).
  unfold join. rewrite map_app, concat_app, length_app. fold (join (take (j - i) (drop i comps))). 
  pose proof (join_length (take (j - i) (drop i comps)) ltac:(by apply Forall_take, Forall_drop)) as Hl. rewrite length_take, length_drop in Hl. lia.
Qed.

Lemma leads_bound comps n : leads (vroot st) comps n -> (length comps <= size (vnodes st))%nat.
Proof.
  intros Hl. destruct (leads_nodes comps n Hl) as (cs & Hlen & Hcs). rewrite <- Hlen. pose proof (leads_names _ _ _ Hl) as Hnm. apply nodes_bound.
  - apply NoDup_alt. intros i j x Hi Hj. destruct (Hcs i x Hi) as [_ [f1 E1]], (Hcs j x Hj) as [_ [f2 E2]].
    apply (getpath_mono _ (Nat.max f1 f2)) in E1; [|lia]. apply (getpath_mono _ (Nat.max f1 f2)) in E2; [|lia]. rewrite E1 in E2. injection E2 as E.
    apply lookup_lt_Some in Hi, Hj. destruct (Nat.lt_trichotomy i j) as [Hlt|[|Hgt]]; [|done|].
    + pose proof (join_lt comps (Datatypes.S i) (Datatypes.S j) Hnm ltac:(lia)). rewrite E in *. lia.
    + pose proof (join_lt comps (Datatypes.S j) (Datatypes.S i) Hnm ltac:(lia)). rewrite E in *. lia.
  - intros x [i Hi]%list_elem_of_lookup. by apply (Hcs i x).
Qed.

(** [vfs_getpath] of a node a path leads to. *)
Lemma getpath_ok comps n siz : leads (vroot st) comps n -> is_Some (vnodes st !! n) -> Z.of_nat (length (join comps)) + 1 <= siz ->
  vfs_getpath st (Some n) siz = Ok (0, Z.of_nat (length (join comps)) + 1, join comps ++ [0]).
Proof.
  intros Hl [x Hx] Hs. assert (exists b, base n b) as [b Hb].
  { destruct comps as [|nm comps _] using rev_ind.
    - inversion Hl; subst. destruct Hroot as (r & Hr & Hp & _). exists (vroot st), true, r. split_and!; [|done|by rewrite Hp].
      unfold vfs_isaroot, vget. rewrite Hr. cbn [deref res_bind]. by rewrite Hp, Z.eqb_refl.
    - destruct (leads_snoc comps _ nm n Hl) as (q & c & _ & Hc & Hcov). exists c. by eapply base_covers. }
  pose proof (getpath_loop_ok comps n b (Datatypes.S (size (vnodes st))) Hl Hb) as E. pose proof (leads_bound comps n Hl).
  destruct Hb as (r & v & Hr & Hv & ->). unfold vfs_getpath. rewrite Hr. cbn [res_bind]. unfold vget. rewrite Hv. cbn [deref res_bind]. rewrite E by lia. cbn [res_bind].
  by rewrite (proj2 (Z.ltb_ge _ _)) by lia.
Qed.

End Path.

(** the path [vfs_getpath] gives for a node, also one below a mount, is the names that lead
    to it, and [vfs_open] of that path finds the node again. *)
Theorem getpath_reopens {S : Type} `{PhysFs S} (st : vstate S) (comps : list (list Z)) (n : Z) (r : vnode) (fuel : nat) (siz : Z) :
  vnodes st !! vroot st = Some r -> v_parent r = vroot st -> v_mnt r = false -> leads st (vroot st) comps n -> is_Some (vnodes st !! n) ->
  ph_opened st n FS_GAIN = Ok (0, st) -> Z.of_nat (length (join comps)) + 1 <= siz ->
  vfs_getpath st (Some n) siz = Ok (0, Z.of_nat (length (join comps)) + 1, join comps ++ [0]) /\
  vfs_open (Datatypes.S fuel) st None (join comps) FS_GAIN 0 = Ok (0, Some n, st).
Proof.
  intros Hr Hp Hm Hl Hn Hop Hs. split.
  - apply getpath_ok; [by exists r|done|done|done].
  - destruct Hn as [x Hx]. by apply (open_leads st None FS_GAIN 0 comps n x fuel); [| |exists r| | | |intros; left|].
Qed.

(** A file system without operations and a caller who is root. *)
Definition idle_fs : PhysFs unit := {|
  ph_open st _ _ _ _ := Ok (- ENOENT, None, st);
  ph_readlink _ _ := Ok (- EIO, []);
  ph_opened st _ _ := Ok (0, st);
  ph_chown st _ _ _ _ := Ok (0, st);
  ph_chmod st _ _ _ := Ok (0, st);
  t_euid := 0;
  t_egid := 0;
  t_supgids := [];
  junk_mount := (0, [])
|}.

(** The root 1 with the directory "m" (2); on it the root 3 is mounted, with the file "a" (4). *)
Definition mount_tree : vstate unit := Vstate
  {[1 := Vnode [] false 0x41ED 0 0 1 (Some 2) None None;
    2 := Vnode [109] true 0x41ED 0 0 1 (Some 3) None (Some (1, [None]));
    3 := Vnode [SLASH] false 0x41ED 0 0 2 (Some 4) None None;
    4 := Vnode [97] false 0x81A4 0 0 3 None None None]} 1 tt.

Lemma mount_tree_m : @child unit idle_fs mount_tree 1 [109] 2.
Proof.
  split; [|by eexists|split_and!; [done| |done|done]; by intros Hin%list_elem_of_singleton|done].
  eexists _, [2]. split_and!; [done|done|done|done|eapply chain_cons; [done|constructor]|left| |].
  - intros m x ->%list_elem_of_singleton [= <-]. by intros Hin%list_elem_of_singleton.
  - intros m x ->%list_elem_of_singleton. done.
Qed.

Lemma mount_tree_at_m : covers mount_tree 2 3.
Proof. eexists _, _. split_and!; done. Qed.

Lemma mount_tree_leads : @leads unit idle_fs mount_tree 1 [[109]; [97]] 4.
Proof.
  eapply (leads_step mount_tree 1 [109] 2 3); [exact mount_tree_m|exact mount_tree_at_m|].
  eapply (leads_step mount_tree 3 [97] 4 4); [|eexists _, _; split_and!; done|constructor].
  split; [|by eexists|split_and!; [done| |done|done]; by intros Hin%list_elem_of_singleton|done].
  eexists _, [4]. split_and!; [done|done|done|done|eapply chain_cons; [done|constructor]|left| |].
  - intros m x ->%list_elem_of_singleton [= <-]. by intros Hin%list_elem_of_singleton.
  - intros m x ->%list_elem_of_singleton. done.
Qed.

Lemma getpath_reopens_witness :
  @vfs_getpath unit mount_tree (Some 4) 100 = Ok (0, 5, [SLASH; 109; SLASH; 97; 0]) /\
  @vfs_open unit idle_fs 1 mount_tree None [SLASH; 109; SLASH; 97] FS_GAIN 0 = Ok (0, Some 4, mount_tree).
Proof.
  apply (@getpath_reopens unit idle_fs mount_tree [[109]; [97]] 4 (Vnode [] false 0x41ED 0 0 1 (Some 2) None None) 0 100).
  - reflexivity.
  - reflexivity.
  - reflexivity.
  - exact mount_tree_leads.
  - eexists. reflexivity.
  - reflexivity.
  - vm_compute. discriminate.
Defined.

(** C13: after [chdir] to a directory by its path, [getcwd] gives that path, and [access] finds
    the directory under it; directories below a mount included.  The path has at least one
    name; every node on it is in memory already, is no symbolic link and has at most one file
    system mounted on it, and the file system lets the directory be opened.  For the root
    directory itself [getcwd] gives the empty string. *)
Theorem chdir_getcwd {S : Type} `{PhysFs S} (st : vstate S) (comps : list (list Z)) (n : Z) (r x : vnode) (pwd : option Z) (fuel : nat) (siz : Z) :
  vnodes st !! vroot st = Some r -> v_parent r = vroot st -> v_mnt r = false -> leads st (vroot st) comps n -> comps <> [] -> vnodes st !! n = Some x ->
  isdir (v_mode x) = true -> vfs_permission x MAY_READ = 0 -> (forall args, ph_opened st n args = Ok (0, st)) -> Z.of_nat (length (join comps)) + 1 <= siz ->
  sys_chdir (Datatypes.S fuel) st pwd (join comps) = Ok (0, Some n, st) /\
  sys_getcwd st (Some n) siz = Ok (0, join comps ++ [0]) /\
  sys_access (Datatypes.S fuel) st (Some n) (join comps) F_OK = Ok (0, st) /\
  sys_getcwd st (Some (vroot st)) siz = Ok (0, [0]).
Proof.
  intros Hr Hp Hm Hl Hne Hx Hd Hperm Hop Hs.
  assert (forall dm, open_check x dm VO_DIRECTORY = 0) as Hchk.
  { intros dm. unfold open_check. change (Z.land VO_DIRECTORY VO_ACCMODE =? 0) with true. cbn [negb]. cbv iota. rewrite Hperm, Hd. cbn [Z.ltb Z.compare].
    change (has VO_DIRECTORY VO_DIRECTORY) with true. change (has VO_DIRECTORY VO_NOFOLLOW) with false. by rewrite andb_false_r. }
  split_and!.
  - unfold sys_chdir. rewrite (open_leads st pwd VO_DIRECTORY 0 comps n x fuel) by (done || (by exists r) || (by right)). done.
  - unfold sys_getcwd. rewrite (getpath_ok st ltac:(by exists r) comps n siz) by (done || by exists x). done.
  - unfold sys_access. rewrite (open_leads st (Some n) FS_GAIN 0 comps n x fuel) by (done || (by exists r) || (by left)). done.
  - unfold sys_getcwd. rewrite (getpath_ok st ltac:(by exists r) [] (vroot st) siz); [done|constructor|by exists r|cbn; lia].
Qed.

Lemma chdir_getcwd_witness :
  @sys_chdir unit idle_fs 1 mount_tree None [SLASH; 109] = Ok (0, Some 3, mount_tree) /\
  @sys_getcwd unit mount_tree (Some 3) 100 = Ok (0, [SLASH; 109; 0]) /\
  @sys_access unit idle_fs 1 mount_tree (Some 3) [SLASH; 109] F_OK = Ok (0, mount_tree) /\
  @sys_getcwd unit mount_tree (Some 1) 100 = Ok (0, [0]).
Proof.
  apply (@chdir_getcwd unit idle_fs mount_tree [[109]] 3 (Vnode [] false 0x41ED 0 0 1 (Some 2) None None) (Vnode [SLASH] false 0x41ED 0 0 2 (Some 4) None None) None 0 100).
  - reflexivity.
  - reflexivity.
  - reflexivity.
  - exact (leads_step mount_tree 1 [109] 2 3 [] 3 mount_tree_m mount_tree_at_m (leads_here mount_tree 3)).
  - discriminate.
  - reflexivity.
  - reflexivity.
  - reflexivity.
  - intros args. reflexivity.
  - vm_compute. discriminate.
Defined.

(** Entering a node in a directory and taking it out again leaves the other nodes as they were. *)
Theorem regst_unreg {S : Type} (st : vstate S) (n p : Z) (v w : vnode) : vnodes st !! n = Some v -> vnodes st !! p = Some w -> n <> p ->
  exists st1 st2, vfs_regst st n p = Ok st1 /\ vfs_unreg st1 n = Ok st2 /\ forall m, m <> n -> vnodes st2 !! m = vnodes st !! m.
Proof.
  intros Hv Hw Hne. unfold vfs_regst. rewrite (vget_some _ _ _ Hv), (vget_some _ _ _ Hw). cbn [res_bind].
  rewrite (vget_some _ p w) by (cbn; by rewrite lookup_insert_ne). cbn [res_bind]. do 2 eexists. split; [done|]. unfold vfs_unreg.
  erewrite (vget_some _ n) by (cbn; rewrite lookup_insert_ne by done; apply lookup_insert_eq). cbn [res_bind]. cbn.
  rewrite (vget_some _ p (w <| v_child := Some n |>)) by (cbn; apply lookup_insert_eq). cbn [res_bind]. cbn.
  assert (forall k (m : vstate S), unreg_loop k m None (Some n) n = Ok (Some (@None Z))) as E by (intros [|k] m; cbn; by rewrite Z.eqb_refl).
  rewrite E. cbn. split; [done|]. intros m Hm. cbn. destruct (decide (m = p)) as [->|Hmp].
  - rewrite lookup_insert_eq. rewrite Hw. by destruct w.
  - by rewrite !lookup_insert_ne.
Qed.

(** ** What goes wrong *)

(** when a directory of a path does not exist, [vfs_walkd] stops in front of it and reports
    success, with the directory above and the rest of the path: [open] with [O_CREAT] goes on
    to make the missing directory itself, whose name is the first one of that rest, a file. *)
Theorem walk_missing_ignored {S : Type} `{PhysFs S} (vopen : vstate S -> option Z -> list Z -> Z -> Z -> res (Z * option Z * vstate S))
    (st : vstate S) (p err : Z) (w : vnode) (nm rest : list Z) :
  name_ok nm -> skip_slash rest <> [] -> vnodes st !! p = Some w -> vfs_exist st p (nm ++ SLASH :: rest) = Ok None ->
  ph_open st p (nm ++ SLASH :: rest) FS_GAIN 0 = Ok (err, None, st) -> err < 0 ->
  vfs_walkd vopen st (Some p) (nm ++ SLASH :: rest) = Ok (0, nm ++ SLASH :: rest, p, st).
Proof.
  intros Hnm Hrest Hw He Ho Herr. destruct (name_head nm Hnm) as (c & q & E & Hc). assert (tail_ok (SLASH :: rest)) as Ht by (right; by eexists).
  unfold vfs_walkd. rewrite skip_slash_name by done. assert (forall A (a b : A), match nm ++ SLASH :: rest with x :: _ => if x =? SLASH then a else b | [] => b end = b) as ->.
  { intros A a b. rewrite E. cbn [app]. by rewrite (proj2 (Z.eqb_neq c SLASH)). }
  change (default (vroot st) (Some p)) with p. assert (length (nm ++ SLASH :: rest) = Datatypes.S (length (q ++ SLASH :: rest))) as -> by (by rewrite E). cbn [walkd_loop].
  assert (fs_path_next (nm ++ SLASH :: rest) = skip_slash rest) as -> by (unfold fs_path_next; rewrite skip_name_app; [done|by destruct Hnm as (_ & ? & _)|done]).
  rewrite bool_decide_false by done. rewrite (vget_some _ _ _ Hw). cbn [res_bind]. destruct (negb (isdir (v_mode w))); [done|]. destruct (_ <? 0); [done|].
  rewrite open_at_name by done. rewrite He. cbn [res_bind]. rewrite Ho. cbn [res_bind]. unfold open_found.
  rewrite (proj2 (Z.ltb_lt _ _)) by done. cbn [res_bind]. by rewrite (proj2 (Z.ltb_lt _ _)).
Qed.

Lemma walk_missing_ignored_witness : @vfs_walkd unit idle_fs (fun st _ _ _ _ => Ok (0, None, st)) mount_tree (Some 3) [120; SLASH; 121] = Ok (0, [120; SLASH; 121], 3, mount_tree).
Proof.
  apply (@walk_missing_ignored unit idle_fs (fun st _ _ _ _ => Ok (0, None, st)) mount_tree 3 (- ENOENT) (Vnode [SLASH] false 0x41ED 0 0 2 (Some 4) None None) [120] [121]).
  - split_and!; [discriminate| |discriminate|discriminate]. intros Hin%list_elem_of_singleton. discriminate.
  - discriminate.
  - reflexivity.
  - reflexivity.
  - reflexivity.
  - reflexivity.
Defined.

(** a symbolic link that leads to itself is followed for ever: with no bound on the links
    followed the recursion of [vfs_open] never ends. *)
Theorem self_link_never_ends {S : Type} `{PhysFs S} (st : vstate S) (p l : Z) (w : vnode) (nm : list Z) (args mode : Z) :
  name_ok nm -> vnodes st !! p = Some w -> vfs_exist st p nm = Ok (Some l) -> (exists v, vnodes st !! l = Some v /\ islnk (v_mode v) = true /\ v_mnt v = false) ->
  ph_readlink st l = Ok (0, nm) -> has args FS_GAINLNK = false -> forall fuel, vfs_open fuel st (Some p) nm args mode = Fault OutOfFuel.
Proof.
  intros Hnm Hw He (v & Hv & Hlnk & Hmnt) Hr Ha fuel. revert args mode Ha. induction fuel as [|fuel IH]; intros args mode Ha; [done|].
  cbn [vfs_open]. unfold open_with, vfs_walkd. destruct (name_head nm Hnm) as (c & q & E & Hc).
  assert (forall A (a b : A), match nm with x :: _ => if x =? SLASH then a else b | [] => b end = b) as ->.
  { intros A a b. rewrite E. by rewrite (proj2 (Z.eqb_neq c SLASH)). }
  pose proof (skip_slash_name nm [] Hnm) as Esk. rewrite app_nil_r in Esk. rewrite Esk. change (default (vroot st) (Some p)) with p.
  assert (fs_path_next nm = []) as En.
  { rewrite <- (app_nil_r nm). unfold fs_path_next. rewrite skip_name_app; [done|by destruct Hnm as (_ & ? & _)|by left]. }
  assert (walkd_loop (vfs_open fuel) (length nm) st p nm = Ok (nm, p, st)) as -> by (rewrite E at 1; cbn [length walkd_loop]; by rewrite En).
  cbn [res_bind Z.ltb Z.compare]. pose proof (open_at_name (vfs_open fuel) st p nm [] args mode Hnm ltac:(by left)) as Eo. rewrite app_nil_r in Eo. rewrite Eo, He.
  cbn [res_bind]. unfold open_found. cbn [Z.ltb Z.compare deref res_bind]. rewrite (vget_some _ _ _ Hv). cbn [res_bind]. rewrite Hmnt. cbn [andb res_bind].
  rewrite (vget_some _ _ _ Hv). cbn [res_bind]. rewrite Hlnk, Ha. cbn [andb negb]. rewrite Hr. cbn [res_bind Z.ltb Z.compare]. by rewrite (IH FS_GAIN 0 has_gain_lnk).
Qed.

(** The root 1 with the symbolic link "s" (2), which leads to "s". *)
Definition link_tree : vstate unit := Vstate
  {[1 := Vnode [] false 0x41ED 0 0 1 (Some 2) None None; 2 := Vnode [115] false 0xA1FF 0 0 1 None None None]} 1 tt.

Definition link_fs : PhysFs unit := {|
  ph_open st _ _ _ _ := Ok (- ENOENT, None, st);
  ph_readlink _ _ := Ok (0, [115]);
  ph_opened st _ _ := Ok (0, st);
  ph_chown st _ _ _ _ := Ok (0, st);
  ph_chmod st _ _ _ := Ok (0, st);
  t_euid := 1000;
  t_egid := 1000;
  t_supgids := [];
  junk_mount := (0, [])
|}.

Lemma self_link_never_ends_witness : @vfs_open unit link_fs 100 link_tree (Some 1) [115] 0 0 = Fault OutOfFuel.
Proof.
  apply (@self_link_never_ends unit link_fs link_tree 1 2 (Vnode [] false 0x41ED 0 0 1 (Some 2) None None) [115] 0 0).
  - split_and!; [discriminate| |discriminate|discriminate]. intros Hin%list_elem_of_singleton. discriminate.
  - reflexivity.
  - reflexivity.
  - eexists. split_and!; reflexivity.
  - reflexivity.
  - reflexivity.
Defined.

(** after a second file system is mounted where one is mounted already, asking for the path
    of its root fails an assertion of the kernel: the root below is a root itself, and
    [vfs_getpath] steps over one root only. *)
Theorem stacked_mount_getcwd_panics :
  (let! st := @vfs_mount unit idle_fs (Vstate (<[5 := Vnode [SLASH] false 0x41ED 0 0 5 None None None]> (vnodes mount_tree)) 1 tt) 3 5 in
   let! r := vfs_getpath st (Some 5) 100 in Ok (fst r)) = Fault AssertFailed.
Proof. vm_compute. reflexivity. Qed.

(** [vfs_chown] lets a caller who neither owns the file nor is privileged move it to a group
    of their own: whether the caller owns the file is never asked. *)
Theorem chgrp_by_stranger {S : Type} `{PhysFs S} (st st' : vstate S) (file group : Z) (v : vnode) :
  vnodes st !! file = Some v -> t_euid <> 0 -> t_euid <> v_uid v -> group = t_egid \/ insgrp group = true -> group <> v_gid v -> group <> 2 ^ 32 - 1 ->
  ph_chown st file (v_uid v) group false = Ok (0, st') -> vfs_chown st file (2 ^ 32 - 1) group = Ok (0, st').
Proof.
  intros Hv He Hu Hg Hne Hm1 Hc. unfold vfs_chown. rewrite (vget_some _ _ _ Hv). cbn [res_bind]. rewrite Z.eqb_refl. cbn [negb andb].
  rewrite (proj2 (Z.eqb_neq _ _) He), andb_false_r, (proj2 (Z.eqb_neq _ _) Hne), (proj2 (Z.eqb_neq _ _) Hm1). cbn [negb andb orb].
  assert (negb (t_egid =? group) && negb (insgrp group) = false) as ->.
  { destruct Hg as [->| ->]; [by rewrite Z.eqb_refl|by rewrite andb_false_r]. }
  rewrite Hc. done.
Qed.

Lemma chgrp_by_stranger_witness : @vfs_chown unit link_fs link_tree 2 (2 ^ 32 - 1) 1000 = Ok (0, link_tree).
Proof.
  apply (@chgrp_by_stranger unit link_fs link_tree link_tree 2 1000 (Vnode [115] false 0xA1FF 0 0 1 None None None)).
  - reflexivity.
  - discriminate.
  - discriminate.
  - left. reflexivity.
  - discriminate.
  - discriminate.
  - reflexivity.
Defined.
