(* ===== verification/Mbuf.v ===== *)
(** * Packet buffers and byte order: [kernel/dev/nic/mbuf.c], [kernel/net/net.c]

    A packet buffer is its 2048 bytes and an offset [m_head] into them; headers are read and
    written in place. An access outside the bytes is a fault. *)
From Stdlib Require Import ZArith Lia List Bool.
From stdpp Require Import base list.
From S2P Require Import Prelude Bytes.

#[local] Open Scope Z_scope.

(** ** Byte order: [kernel/net/net.c] *)

Definition htons (h : Z) : Z := Z.lor (Z.shiftr (Z.land h 0xFF00) 8) (Z.shiftl (Z.land h 0x00FF) 8).

Definition ntohs (h : Z) : Z := Z.lor (Z.shiftr (Z.land h 0xFF00) 8) (Z.shiftl (Z.land h 0x00FF) 8).

Definition htonl (h : Z) : Z :=
  Z.lor (Z.lor (Z.lor (Z.shiftr (Z.land h 0xFF000000) 24) (Z.shiftr (Z.land h 0x00FF0000) 8))
               (Z.shiftl (Z.land h 0x0000FF00) 8)) (u32 (Z.shiftl (Z.land h 0x000000FF) 24)).

Definition ntohl (h : Z) : Z :=
  Z.lor (Z.lor (Z.lor (Z.shiftr (Z.land h 0xFF000000) 24) (Z.shiftr (Z.land h 0x00FF0000) 8))
               (Z.shiftl (Z.land h 0x0000FF00) 8)) (u32 (Z.shiftl (Z.land h 0x000000FF) 24)).

(** ** Addresses: four bytes of an [ipv4_t] read as a [u32], six of a [mac_t] *)

Definition ETH_HLEN : Z := 6.
Definition ETH_PLEN : Z := 4.

Definition eth_addr_cmp (a b : list Z) : bool := bool_decide (take 6 a = take 6 b).

Definition eth_addr_isany (a : list Z) : bool := bool_decide (take 6 a = [0; 0; 0; 0; 0; 0]).

Definition ip_addr_cmp (a b : Z) : bool := a =? b.

Definition ip_addr_maskcmp (a b mask : Z) : bool := Z.land a mask =? Z.land b mask.

(** [~m] on 32 bits. *)
Definition not32 (m : Z) : Z := u32 (Z.lnot m).

Definition ip_addr_isbroadcast (a m : Z) : bool :=
  (Z.land a (not32 m) =? Z.land (u32 (-1)) (not32 m)) || (a =? u32 (-1)) || (a =? 0).

Definition ip_addr_isany (a : option Z) : bool :=
  match a with None => true | Some a => a =? 0 end.

Definition ip_addr_ismulticast (a : Z) : bool := Z.land a (ntohl 0xF0000000) =? ntohl 0xE0000000.

(** ** [mbuf.c] *)

Definition MBUF_SIZE : Z := 2048.
Definition MBUF_DEFROOM : Z := 128.

Record mbuf := Mbuf {
  m_buf : list Z;
  m_head : Z;
  m_phy : Z;
  m_len : Z;
  m_dlen : Z;
  m_id : Z;
  m_flgs : Z }.

#[export] Instance eta_mbuf : Eta mbuf := fun r =>
  Mbuf (m_buf r) (m_head r) (m_phy r) (m_len r) (m_dlen r) (m_id r) (m_flgs r).

(** [l_free] is a stack of buffers; [pg] is the buffer a fresh page holds, at physical address
    [pp]. *)
Definition mbuf_alloc (l_free : list mbuf) (pg : list Z) (pp headroom : Z) : mbuf * list mbuf :=
  let '(m, l) :=
    match l_free with
    | [] => (Mbuf pg 0 pp 0 0 0 0, [])
    | f :: l => (f, l)
    end in
  (m <| m_phy ::= fun p => u64 (p + headroom) |> <| m_head ::= fun h => h + headroom |>, l).

(** [mbuf_free] of a chain linked by [next]. *)
Fixpoint mbuf_free (l_free : list mbuf) (chain : list mbuf) : list mbuf :=
  match chain with
  | [] => l_free
  | i :: nxt =>
      let off := i32 (m_head i) in
      let i := i <| m_head ::= fun h => h - off |> <| m_phy ::= fun p => u64 (p - off) |> <| m_len := 0 |>
                 <| m_dlen := 0 |> <| m_id := 0 |> <| m_flgs := 0 |> in
      mbuf_free (i :: l_free) nxt
  end.

Definition mbuf_push (m : mbuf) (len : Z) : mbuf :=
  m <| m_head ::= fun h => h - len |> <| m_phy ::= fun p => u64 (p - len) |> <| m_len ::= fun n => u64 (n + len) |>.

Definition mbuf_pull (m : mbuf) (len : Z) : mbuf :=
  m <| m_head ::= fun h => h + len |> <| m_phy ::= fun p => u64 (p + len) |> <| m_len ::= fun n => u64 (n - len) |>.

(** [memcpy(mbuf_put(m, len), data, len)], as every caller uses it. *)
Definition mbuf_put (m : mbuf) (data : list Z) : res mbuf :=
  let len := Z.of_nat (length data) in
  let! b := st (m_buf m) (m_head m + m_len m) data in
  Ok (m <| m_buf := b |> <| m_len ::= fun n => u64 (n + len) |> <| m_dlen ::= fun n => u64 (n + len) |>).

(** Fields of the header at [m_head]. *)
Definition hdr8 (m : mbuf) (o : Z) : res Z := aget (m_buf m) (m_head m + o).

Definition hdr16 (m : mbuf) (o : Z) : res Z := ld16 (m_buf m) (m_head m + o).

Definition hdr32 (m : mbuf) (o : Z) : res Z := ld32 (m_buf m) (m_head m + o).

Definition set_hdr (m : mbuf) (o : Z) (bs : list Z) : res mbuf :=
  let! b := st (m_buf m) (m_head m + o) bs in Ok (m <| m_buf := b |>).

(** The packet: the bytes from [m_head] on. *)
Definition packet (m : mbuf) : list Z := take (Z.to_nat (m_len m)) (drop (Z.to_nat (m_head m)) (m_buf m)).

(** ** Lemmas on bytes *)

Lemma land_byte x k : 0 <= k -> Z.land x (Z.shiftl 255 k) = (x / 2 ^ k mod 256) * 2 ^ k.
Proof.
  intros Hk. change 255 with (Z.ones 8). change 256 with (2 ^ 8). rewrite <- Z.land_ones by lia.
  rewrite <- Z.shiftl_mul_pow2, <- Z.shiftr_div_pow2 by lia. apply Z.bits_inj'. intros i Hi.
  rewrite Z.land_spec, !Z.shiftl_spec by lia. destruct (Z.ltb_spec i k).
  - rewrite !(Z.testbit_neg_r _ (i - k)) by lia. by rewrite andb_false_r.
  - rewrite Z.land_spec, Z.shiftr_spec by lia. do 2 f_equal. lia.
Qed.

Lemma lor_disjoint a c k : 0 <= k -> 0 <= a < 2 ^ k -> Z.lor a (c * 2 ^ k) = a + c * 2 ^ k.
Proof.
  intros Hk Ha. rewrite <- Z.add_lor_land. enough (Z.land a (c * 2 ^ k) = 0) by lia.
  apply Z.bits_inj'. intros i Hi. rewrite Z.land_spec, Z.bits_0.
  destruct (Z.ltb_spec i k); [by rewrite Z.mul_pow2_bits_low, andb_false_r|].
  destruct (Z.eq_dec a 0) as [->|]; [by rewrite Z.bits_0|].
  rewrite (Z.bits_above_log2 a i); [done|lia|]. apply Z.log2_lt_pow2; [lia|].
  apply Z.lt_le_trans with (2 ^ k); [lia|]. apply Z.pow_le_mono_r; lia.
Qed.

(** The byte reversals as arithmetic. *)
Lemma htons_eq x : 0 <= x < 2 ^ 16 -> htons x = x / 256 + (x mod 256) * 256.
Proof.
  intros Hx. unfold htons. change 0xFF00 with (Z.shiftl 255 8). change 0x00FF with (Z.shiftl 255 0).
  rewrite !land_byte, Z.shiftr_div_pow2, Z.shiftl_mul_pow2 by lia.
  change (2 ^ 0) with 1. rewrite Z.div_1_r, Z.mul_1_r, Z.div_mul by lia. change (2 ^ 8) with 256.
  rewrite (Z.mod_small (x / 256)) by dlia. apply (lor_disjoint _ _ 8); dlia.
Qed.

Lemma htonl_eq x : 0 <= x < 2 ^ 32 ->
  htonl x = x / 2 ^ 24 + (x / 2 ^ 16 mod 256) * 2 ^ 8 + (x / 2 ^ 8 mod 256) * 2 ^ 16 + (x mod 256) * 2 ^ 24.
Proof.
  intros Hx. unfold htonl. change 0xFF000000 with (Z.shiftl 255 24). change 0x00FF0000 with (Z.shiftl 255 16).
  change 0x0000FF00 with (Z.shiftl 255 8). change 0x000000FF with (Z.shiftl 255 0).
  rewrite !land_byte, !Z.shiftr_div_pow2, !Z.shiftl_mul_pow2 by lia.
  rewrite (Z.div_mul _ (2 ^ 24)) by lia. change (2 ^ 16) with (2 ^ 8 * 2 ^ 8) at 2.
  rewrite Z.mul_assoc, Z.div_mul by lia. change (2 ^ 0) with 1. rewrite Z.div_1_r, Z.mul_1_r.
  rewrite (Z.mod_small (x / 2 ^ 24)) by dlia. rewrite (wrap_small 32) by dlia.
  rewrite <- (Z.mul_assoc _ (2 ^ 8) (2 ^ 8)). change (2 ^ 8 * 2 ^ 8) with (2 ^ 16).
  rewrite (lor_disjoint (x / 2 ^ 24) _ 8), (lor_disjoint _ _ 16), (lor_disjoint _ _ 24); dlia.
Qed.

(** Splitting a number into its bytes. *)
Lemma bytes4 x : 0 <= x < 2 ^ 32 ->
  x = x mod 256 + (x / 2 ^ 8 mod 256) * 2 ^ 8 + (x / 2 ^ 16 mod 256) * 2 ^ 16 + (x / 2 ^ 24) * 2 ^ 24.
Proof. intros. dlia. Qed.

(** A word and its bytes. *)
Lemma of_bytes4 a b c d : is_byte a -> is_byte b -> is_byte c -> is_byte d ->
  let x := a + b * 2 ^ 8 + c * 2 ^ 16 + d * 2 ^ 24 in
  x mod 256 = a /\ x / 2 ^ 8 mod 256 = b /\ x / 2 ^ 16 mod 256 = c /\ x / 2 ^ 24 = d /\ 0 <= x < 2 ^ 32.
Proof. unfold is_byte. cbv zeta. intros. dlia. Qed.

Lemma le32_eq x : 0 <= x < 2 ^ 32 -> le32 x = [x mod 256; x / 2 ^ 8 mod 256; x / 2 ^ 16 mod 256; x / 2 ^ 24].
Proof.
  intros Hx. unfold le32, le16. cbn [app].
  assert (x mod 65536 mod 256 = x mod 256) as -> by dlia.
  assert (x mod 65536 / 256 mod 256 = x / 2 ^ 8 mod 256) as -> by dlia.
  by assert (x / 65536 / 256 mod 256 = x / 2 ^ 24) as -> by dlia.
Qed.

(** the conversions put the bytes of a number on the wire with the most significant byte
    first, and converting twice gives the number back. *)
Theorem byte_order_roundtrip x y :
  0 <= x < 2 ^ 32 -> 0 <= y < 2 ^ 16 ->
  ntohl (htonl x) = x /\ htonl (ntohl x) = x /\ le32 (htonl x) = reverse (le32 x) /\
  ntohs (htons y) = y /\ htons (ntohs y) = y /\ le16 (htons y) = reverse (le16 y).
Proof.
  intros Hx Hy. change ntohl with htonl. change ntohs with htons.
  assert (htonl (htonl x) = x /\ le32 (htonl x) = reverse (le32 x)) as [H1 H2].
  { destruct (of_bytes4 (x / 2 ^ 24) (x / 2 ^ 16 mod 256) (x / 2 ^ 8 mod 256) (x mod 256)) as (E1 & E2 & E3 & E4 & Hr);
      try (unfold is_byte; dlia). rewrite <- htonl_eq in E1, E2, E3, E4, Hr by done. split.
    - rewrite htonl_eq by done. rewrite E1, E2, E3, E4. pose proof (bytes4 x Hx). lia.
    - rewrite !le32_eq, E1, E2, E3, E4 by done. reflexivity. }
  assert (htons (htons y) = y /\ le16 (htons y) = reverse (le16 y)) as [H3 H4].
  { rewrite (htons_eq y) by done. set (h := y / 256 + _). assert (h mod 256 = y / 256) as E1 by (unfold h; dlia).
    assert (h / 256 = y mod 256) as E2 by (unfold h; dlia). assert (0 <= h < 2 ^ 16) as Hh by (unfold h; dlia).
    rewrite htons_eq by done. rewrite E1, E2. split; [dlia|]. unfold le16. rewrite E1, E2, Z.mod_mod by lia.
    by rewrite (Z.mod_small (y / 256)) by dlia. }
  done.
Qed.

Lemma byte_order_roundtrip_witness :
  ntohl (htonl 0x01020304) = 0x01020304 /\ htonl (ntohl 0x01020304) = 0x01020304 /\
  le32 (htonl 0x01020304) = reverse (le32 0x01020304) /\
  ntohs (htons 0x1234) = 0x1234 /\ htons (ntohs 0x1234) = 0x1234 /\ le16 (htons 0x1234) = reverse (le16 0x1234).
Proof. apply byte_order_roundtrip; split; [discriminate|reflexivity|discriminate|reflexivity]. Defined.

(** ** Packets in their buffers *)

(** [holds m pre p post]: the packet is [p], with [pre] before it and [post] after it. *)
Record holds (m : mbuf) (pre p post : list Z) : Prop := {
  h_buf : m_buf m = pre ++ p ++ post;
  h_head : m_head m = Z.of_nat (length pre);
  h_len : m_len m = Z.of_nat (length p);
  h_siz : Z.of_nat (length (m_buf m)) = MBUF_SIZE }.

Lemma holds_packet m pre p post : holds m pre p post -> packet m = p.
Proof.
  intros [Hb Hh Hl _]. unfold packet. rewrite Hb, Hh, Hl, !Nat2Z.id. by rewrite drop_app_length, take_app_length.
Qed.

Lemma holds_bounds m pre p post : holds m pre p post ->
  Z.of_nat (length pre) + Z.of_nat (length p) + Z.of_nat (length post) = 2048.
Proof. intros [Hb _ _ Hs]. rewrite Hb, !length_app in Hs. unfold MBUF_SIZE in Hs. lia. Qed.

Lemma push_holds m pre h p post :
  holds m (pre ++ h) p post -> holds (mbuf_push m (Z.of_nat (length h))) pre (h ++ p) post.
Proof.
  intros Hm. pose proof (holds_bounds _ _ _ _ Hm) as Hk. destruct Hm as [Hb Hh Hl Hs]. rewrite length_app in *.
  split; cbn; [by rewrite Hb, <- !app_assoc|lia| |done]. rewrite Hl, length_app, wrap_small; lia.
Qed.

Lemma pull_holds m pre h p post :
  holds m pre (h ++ p) post -> holds (mbuf_pull m (Z.of_nat (length h))) (pre ++ h) p post.
Proof.
  intros Hm. pose proof (holds_bounds _ _ _ _ Hm) as Hk. destruct Hm as [Hb Hh Hl Hs]. rewrite length_app in *.
  split; cbn; [by rewrite Hb, <- !app_assoc|rewrite length_app; lia| |done]. rewrite Hl, wrap_small; lia.
Qed.

Lemma put_holds m pre p x post data :
  holds m pre p (x ++ post) -> length x = length data ->
  exists m', mbuf_put m data = Ok m' /\ holds m' pre (p ++ data) post /\ m_id m' = m_id m /\
    m_dlen m' = u64 (m_dlen m + Z.of_nat (length data)).
Proof.
  intros Hm Hx. pose proof (holds_bounds _ _ _ _ Hm) as Hk. destruct Hm as [Hb Hh Hl Hs]. unfold mbuf_put.
  assert (st (m_buf m) (m_head m + m_len m) data = Ok ((pre ++ p) ++ data ++ post)) as ->.
  { rewrite <- (st_app data (pre ++ p) x post Hx). rewrite Hb, Hh, Hl, <- !app_assoc. do 2 f_equal. rewrite length_app. lia. }
  cbn [res_bind]. eexists. split; [done|]. rewrite length_app in Hk. split; [|done].
  split; cbn; [by rewrite <- !app_assoc|done|rewrite Hl, length_app, wrap_small; lia|].
  unfold MBUF_SIZE. rewrite !length_app. lia.
Qed.

Lemma set_hdr_holds m pre a x c post bs o :
  holds m pre (a ++ x ++ c) post -> length x = length bs -> o = Z.of_nat (length a) ->
  exists m', set_hdr m o bs = Ok m' /\ holds m' pre (a ++ bs ++ c) post /\ m_id m' = m_id m /\ m_dlen m' = m_dlen m.
Proof.
  intros [Hb Hh Hl Hs] Hx ->. unfold set_hdr.
  assert (st (m_buf m) (m_head m + Z.of_nat (length a)) bs = Ok ((pre ++ a) ++ bs ++ (c ++ post))) as ->.
  { rewrite <- (st_app bs (pre ++ a) x _ Hx). rewrite Hb, Hh, <- !app_assoc. do 2 f_equal. rewrite length_app. lia. }
  cbn [res_bind]. eexists. split; [done|]. split; [|done].
  split; cbn; [by rewrite <- !app_assoc|done|rewrite Hl, !length_app; lia|].
  rewrite <- Hs, Hb, !length_app. lia.
Qed.

Lemma hdr8_holds m pre a b c post o : holds m pre (a ++ b :: c) post -> o = Z.of_nat (length a) -> hdr8 m o = Ok b.
Proof.
  intros [Hb Hh _ _] ->. unfold hdr8. rewrite Hb, Hh. apply aget_Ok. split; [lia|]. rewrite <- app_assoc. cbn [app].
  rewrite app_assoc. apply list_lookup_middle. rewrite length_app. lia.
Qed.

Lemma hdr16_holds m pre a x y c post o :
  holds m pre (a ++ x :: y :: c) post -> o = Z.of_nat (length a) -> hdr16 m o = Ok (x + 256 * y).
Proof.
  intros Hm ->. pose proof (hdr8_holds m pre a x (y :: c) post _ Hm eq_refl) as E1.
  pose proof (hdr8_holds m pre (a ++ [x]) y c post (Z.of_nat (length a) + 1)) as E2.
  rewrite <- app_assoc, length_app in E2. specialize (E2 Hm ltac:(cbn; lia)). unfold hdr8 in E1, E2. unfold hdr16, ld16.
  rewrite E1. cbn [res_bind]. by rewrite <- Z.add_assoc, E2.
Qed.

Lemma hdr32_holds m pre a x y z w c post o :
  holds m pre (a ++ x :: y :: z :: w :: c) post -> o = Z.of_nat (length a) ->
  hdr32 m o = Ok (x + 256 * y + 65536 * (z + 256 * w)).
Proof.
  intros Hm ->. pose proof (hdr16_holds m pre a x y (z :: w :: c) post _ Hm eq_refl) as E1.
  pose proof (hdr16_holds m pre (a ++ [x; y]) z w c post (Z.of_nat (length a) + 2)) as E2.
  rewrite <- app_assoc, length_app in E2. specialize (E2 Hm ltac:(cbn; lia)). unfold hdr16 in E1, E2. unfold hdr32, ld32.
  rewrite E1. cbn [res_bind]. by rewrite <- Z.add_assoc, E2.
Qed.
