(* ===== verification/Net.v ===== *)
(** * The network layers below the sockets: [kernel/net/{ip,arp,icmp,udp,tcp,nif}.c],
    [kernel/dev/nic/nic.c]

    An interface holds its addresses, its ARP cache and, standing for the driver, the frames
    handed to it. Packets are passed by value: after a packet is queued or sent nothing changes
    its bytes any more except the layer that holds it. *)
From Stdlib Require Import ZArith Lia List Bool.
From stdpp Require Import base list.
From S2P Require Import Prelude Bytes Mbuf.

#[local] Open Scope Z_scope.

(** ** Checksums *)

(** The summing loop over 16-bit words, with the odd byte at the end. *)
Fixpoint sum16 (bs : list Z) (s : Z) : Z :=
  match bs with
  | [] => s
  | [a] => u32 (s + a)
  | a :: b :: bs => sum16 bs (u32 (s + (a + 256 * b)))
  end.

(** [while (s >> 16) s = (s & 0xFFFF) + (s >> 16)] *)
Fixpoint fold16 (fuel : nat) (s : Z) : res Z :=
  match fuel with
  | O => Fault OutOfFuel
  | S fuel => if Z.shiftr s 16 =? 0 then Ok s else fold16 fuel (u32 (Z.land s 0xFFFF + Z.shiftr s 16))
  end.

(** [cksum] of [ip.c]: the twenty bytes of a header. Three turns are enough for ten words. *)
Definition cksum (data : list Z) : res Z :=
  let! s := fold16 3 (sum16 data 0) in Ok (u16 (Z.lnot s)).

(** The two folds of [icmp.c] and [tcp.c]. *)
Definition cksum_fold (s : Z) : Z :=
  let s := u32 (Z.shiftr s 16 + Z.land s 0xFFFF) in
  let s := u32 (s + Z.shiftr s 16) in
  u16 (Z.lnot s).

Definition icmp_cksum (data : list Z) : Z := cksum_fold (sum16 data 0).

Definition IP_P_ICMP : Z := 1.
Definition IP_P_TCP : Z := 6.
Definition IP_P_UDP : Z := 17.

(** The pseudo header [tcpchk_t]. *)
Definition tcpchk (sip dip len : Z) : list Z := le32 sip ++ le32 dip ++ [0; IP_P_TCP] ++ le16 (htons (u16 len)).

(** [data] are the [len] bytes the loop reads, none if [len] is negative. *)
Definition net_cksum_tcp (data : list Z) (sip dip len : Z) : Z :=
  cksum_fold (sum16 (tcpchk sip dip len) (sum16 data 0)).

(** ** Interfaces *)

Record arpent := Arpent {
  a_init : bool;
  a_ticks : Z;
  a_expires : Z;
  a_ip : Z;
  a_hw : list Z;
  a_ipque : list mbuf }.

#[export] Instance eta_arpent : Eta arpent := fun r =>
  Arpent (a_init r) (a_ticks r) (a_expires r) (a_ip r) (a_hw r) (a_ipque r).

Record nif := Nif {
  n_name : list Z;
  n_mac : list Z;
  n_ip : Z;
  n_gateway : Z;
  n_netmask : Z;
  n_broadcast : Z;
  n_arps : list arpent;
  n_sent : list mbuf }.

#[export] Instance eta_nif : Eta nif := fun r =>
  Nif (n_name r) (n_mac r) (n_ip r) (n_gateway r) (n_netmask r) (n_broadcast r) (n_arps r) (n_sent r).

(** [nifs] in list order; the pages the page allocator has left for packet buffers. *)
Record net := Net {
  nifs : list nif;
  l_free : list mbuf;
  pages : list (list Z * Z);
  ktick : Z }.

#[export] Instance eta_net : Eta net := fun r => Net (nifs r) (l_free r) (pages r) (ktick r).

(** [list_insert] puts it first. *)
Definition nif_register (w : net) (n : nif) : net := w <| nifs ::= fun l => n :: l |>.

Definition nif_find (w : net) (name : list Z) : option Z :=
  Z.of_nat ∘ fst <$> list_find (fun n => n_name n = name) (nifs w).

Definition nif_find_byip4 (w : net) (ip : Z) (fallback : option Z) : option Z :=
  match list_find (fun n => ip_addr_cmp (n_ip n) ip) (nifs w) with
  | Some (i, _) => Some (Z.of_nat i)
  | None => fallback
  end.

(** [nifs.prev]; the list must not be empty. *)
Definition nif_find_default (w : net) : res Z :=
  do! ASSERTK (negb (bool_decide (nifs w = []))) in Ok (Z.of_nat (length (nifs w)) - 1).

Definition upd_nif (w : net) (i : Z) (f : nif -> nif) : res net :=
  let! n := aget (nifs w) i in
  let! l := aset (nifs w) i (f n) in
  Ok (w <| nifs := l |>).

Definition SIOCGIFADDR : Z := 0x8915.
Definition SIOCSIFADDR : Z := 0x8916.
Definition SIOCGIFBRDADDR : Z := 0x8919.
Definition SIOCSIFBRDADDR : Z := 0x891a.
Definition SIOCGIFNETMASK : Z := 0x891b.
Definition SIOCSIFNETMASK : Z := 0x891c.
Definition SIOCGIFHWADDR : Z := 0x8927.

(** The address of an [ifreq]: the bytes of its union. *)
Definition nif_ioctl (n : nif) (req : Z) (addr : list Z) : res (Z * nif * list Z) :=
  let! a := ld32 addr 0 in
  if req =? SIOCGIFADDR then let! b := st addr 0 (le32 (n_ip n)) in Ok (0, n, b)
  else if req =? SIOCSIFADDR then Ok (0, n <| n_ip := a |>, addr)
  else if req =? SIOCGIFNETMASK then let! b := st addr 0 (le32 (n_netmask n)) in Ok (0, n, b)
  else if req =? SIOCSIFNETMASK then Ok (0, n <| n_ip := a |>, addr)
  else if req =? SIOCGIFBRDADDR then Ok (0, n <| n_broadcast := a |>, addr)
  else if req =? SIOCSIFBRDADDR then let! b := st addr 0 (le32 (n_broadcast n)) in Ok (0, n, b)
  else if req =? SIOCGIFHWADDR then let! b := st addr 0 (n_mac n) in Ok (0, n, b)
  else Ok (- EINVAL, n, addr).

Definition net_alloc (w : net) (headroom : Z) : res (mbuf * net) :=
  match l_free w, pages w with
  | [], [] => Fault Panicked
  | [], (pg, pp) :: ps => let '(m, l) := mbuf_alloc [] pg pp headroom in Ok (m, w <| l_free := l |> <| pages := ps |>)
  | l, _ => let '(m, l) := mbuf_alloc l [] 0 headroom in Ok (m, w <| l_free := l |>)
  end.

(** ** Ethernet: [nic.c] *)

Definition ETH_IP : Z := 0x0800.
Definition ETH_ARP : Z := 0x0806.

(** A sequence of field assignments [hdr->f = v]. *)
Fixpoint set_hdrs (m : mbuf) (fs : list (Z * list Z)) : res mbuf :=
  match fs with
  | [] => Ok m
  | (o, bs) :: fs => let! m := set_hdr m o bs in set_hdrs m fs
  end.

Definition nif_eth_tx (w : net) (i : Z) (m : mbuf) (dst : list Z) (type : Z) : res net :=
  let! n := aget (nifs w) i in
  let! m := set_hdrs (mbuf_push m 14) [(0, take 6 dst); (6, take 6 (n_mac n)); (12, le16 (htons type))] in
  upd_nif w i (fun n => n <| n_sent ::= fun l => l ++ [m] |>).

(** ** ARP: [arp.c] *)

Definition ARP_OP_REQUEST : Z := 1.
Definition ARP_OP_REPLY : Z := 2.
Definition ARP_TIMEOUT : Z := 6000.

Definition bc : list Z := [255; 255; 255; 255; 255; 255].

Definition arp_fields (op : Z) (smac : list Z) (sip : Z) (dmac : list Z) (dip : Z) : list (Z * list Z) :=
  [(0, le16 (htons 1)); (2, le16 (htons 0x800)); (4, [ETH_HLEN]); (5, [ETH_PLEN]); (6, le16 (htons op));
   (8, take 6 smac); (14, le32 sip); (18, take 6 dmac); (24, le32 dip)].

Definition net_tx_arp (w : net) (i op : Z) (dmac : list Z) (dip : Z) : res net :=
  let! r := net_alloc w MBUF_DEFROOM in
  let '(m, w) := r in
  let! n := aget (nifs w) i in
  let! m := set_hdrs (mbuf_push m 28) (arp_fields op (n_mac n) (n_ip n) dmac dip) in
  nif_eth_tx w i m dmac ETH_ARP.

Definition arp_request (w : net) (dip : Z) : res net :=
  let! d := nif_find_default w in net_tx_arp w d ARP_OP_REQUEST bc dip.

(** The fields it does not set are not read while [a_init] is false. *)
Definition arp_init (dip : Z) : arpent := Arpent false 0 0 dip [] [].

Definition arp_get (l : list arpent) (ip : Z) : option nat :=
  fst <$> list_find (fun e => ip_addr_cmp ip (a_ip e)) l.

(** The loop that sends the waiting packets. *)
Fixpoint send_all (w : net) (i : Z) (hw : list Z) (ms : list mbuf) : res net :=
  match ms with
  | [] => Ok w
  | m :: ms => let! w := nif_eth_tx w i m hw ETH_IP in send_all w i hw ms
  end.

Definition arp_set (w : net) (i ip : Z) (hw : list Z) (ticks : Z) : res net :=
  let! n := aget (nifs w) i in
  let '(e, rest) :=
    match arp_get (n_arps n) ip with
    | None => (Arpent false 0 0 ip [] [], n_arps n)
    | Some k => (default (arp_init ip) (n_arps n !! k), delete k (n_arps n))
    end in
  let e := e <| a_init := true |> <| a_ticks := ticks |> <| a_expires := u64 (ktick w + ticks) |> <| a_hw := take 6 hw |> in
  let! w := send_all w i (a_hw e) (a_ipque e) in
  upd_nif w i (fun n => n <| n_arps := (e <| a_ipque := [] |>) :: rest |>).

Definition net_tx_arpip (w : net) (i : Z) (m : mbuf) (dip : Z) : res net :=
  let! n := aget (nifs w) i in
  let arp := arp_get (n_arps n) dip in
  let dip0 := if ip_addr_maskcmp dip (n_ip n) (n_netmask n) then dip else n_gateway n in
  let '(k, arps) :=
    match arp with
    | Some k => (k, n_arps n)
    | None => (0%nat, arp_init dip0 :: n_arps n)
    end in
  let! e := deref (arps !! k) in
  if negb (a_init e) || (a_expires e <? ktick w) then
    let! w := upd_nif w i (fun n => n <| n_arps := <[k := e <| a_ipque ::= fun q => q ++ [m] |>]> arps |>) in
    arp_request w dip0
  else
    let! w := upd_nif w i (fun n => n <| n_arps := arps |>) in
    nif_eth_tx w i m (a_hw e) ETH_IP.

Definition free_mbuf (w : net) (m : mbuf) : net := w <| l_free ::= fun l => mbuf_free l [m] |>.

(** [net_rx_arp]; the header is the bytes at [m_head] of the packet that comes in. *)
Definition net_rx_arp (w : net) (i : Z) (m : mbuf) : res net :=
  let! n := aget (nifs w) i in
  let! htype := hdr16 m 0 in
  let! ptype := hdr16 m 2 in
  let! hlen := hdr8 m 4 in
  let! plen := hdr8 m 5 in
  let! opcode := hdr16 m 6 in
  let! srchw := ld (m_buf m) (m_head m + 8) 6 in
  let! srcpr := hdr32 m 14 in
  let! dstpr := hdr32 m 24 in
  let m := mbuf_pull m 28 in
  let! w :=
    if negb (ntohs htype =? 1) || negb (ntohs ptype =? 0x800) || negb (hlen =? ETH_HLEN) || negb (plen =? ETH_PLEN) then Ok w
    else
      let op := ntohs opcode in
      if op =? ARP_OP_REQUEST then
        let! w := if ip_addr_cmp (n_ip n) dstpr then net_tx_arp w i ARP_OP_REPLY srchw srcpr else Ok w in
        arp_set w i srcpr srchw ARP_TIMEOUT
      else if op =? ARP_OP_REPLY then arp_set w i srcpr srchw ARP_TIMEOUT
      else Ok w in
  Ok (free_mbuf w m).

(** ** IP output: [ip.c] *)

Definition IP_TTL : Z := 64.

(** [ver] and [ihl] share byte 0, [flgs] and [off0] byte 6; [tos] and [id] are not set. *)
Definition ip_fields (len sip dip ptype : Z) : list (Z * list Z) :=
  [(0, [4 * 16 + 5]); (6, [0]); (7, [0]); (9, [u8 ptype]); (8, [IP_TTL]); (2, le16 (htons (u16 len)));
   (16, le32 dip); (12, le32 sip); (10, [0; 0])].

Definition net_tx_ip (w : net) (i : Z) (m : mbuf) (dip ptype : Z) : res net :=
  let! n := aget (nifs w) i in
  let m := mbuf_push m 20 in
  let! m := set_hdrs m (ip_fields (m_len m) (n_ip n) dip ptype) in
  let! h := ld (m_buf m) (m_head m) 20 in
  let! c := cksum h in
  let! m := set_hdr m 10 (le16 c) in
  net_tx_arpip w i m dip.

(** ** ICMP: [icmp.c] *)

Definition ICMP_REPLY : Z := 0.
Definition ICMP_REQUEST : Z := 8.

Definition net_tx_icmp (w : net) (i type dip : Z) : res net :=
  let! r := net_alloc w MBUF_DEFROOM in
  let '(m, w) := r in
  let! m := set_hdrs (mbuf_push m 8) [(0, [u8 type]); (1, [0]); (4, le16 (htons 1)); (6, le16 (htons 1)); (2, [0; 0])] in
  let! d := ld (m_buf m) (m_head m) (Z.to_nat (i32 (m_len m))) in
  let! m := set_hdr m 2 (le16 (icmp_cksum d)) in
  net_tx_ip w i m dip IP_P_ICMP.

Definition icmp_request (w : net) (dip : Z) : res net :=
  let! d := nif_find_default w in net_tx_icmp w d ICMP_REQUEST dip.

Definition net_rp_icmp (w : net) (i : Z) (m : mbuf) (dip : Z) : res net :=
  let! m := set_hdrs (mbuf_push m 8) [(0, [ICMP_REPLY]); (2, [0; 0])] in
  let! d := ld (m_buf m) (m_head m) (Z.to_nat (i32 (m_len m))) in
  let! m := set_hdr m 2 (le16 (icmp_cksum d)) in
  net_tx_ip w i m dip IP_P_ICMP.

(** [sip] is the source address of the IP header the packet came with. *)
Definition net_rx_icmp (w : net) (i : Z) (m : mbuf) (sip : Z) : res net :=
  let! type := hdr8 m 0 in
  let m := mbuf_pull m 8 in
  if type =? ICMP_REPLY then Ok w
  else if type =? ICMP_REQUEST then net_rp_icmp w i m sip
  else Ok w.

(** ** Transport output: [net/udp.c], [net/tcp.c] *)

Definition net_tx_udp (w : net) (i : Z) (m : mbuf) (dip sport dport : Z) : res net :=
  let m := mbuf_push m 8 in
  let! m := set_hdrs m [(0, le16 (htons sport)); (2, le16 (htons dport)); (4, le16 (htons (u16 (m_len m)))); (6, [0; 0])] in
  net_tx_ip w i m dip IP_P_UDP.

(** The assignments of [net_tx_tcp]. *)
Definition tcp_fields (sport dport seqnr acknr flgs window urgptr : Z) : list (Z * list Z) :=
  [(0, le16 (htons sport)); (2, le16 (htons dport)); (4, le32 (htonl seqnr)); (8, le32 (htonl acknr));
   (12, [5 * 16]); (13, [flgs]); (14, le16 (htons window)); (18, le16 (htons urgptr)); (16, [0; 0])].

(** The header of [net_tx_tcp], before it goes to [net_tx_ip]. *)
Definition tcp_header (m : mbuf) (sip dip sport dport seqnr acknr flgs window urgptr : Z) : res mbuf :=
  let! m := set_hdrs (mbuf_push m 20) (tcp_fields sport dport seqnr acknr flgs window urgptr) in
  let! d := ld (m_buf m) (m_head m) (Z.to_nat (i32 (m_len m))) in
  set_hdr m 16 (le16 (net_cksum_tcp d sip dip (i32 (m_len m)))).

Definition net_tx_tcp (w : net) (i : Z) (m : mbuf) (dip sport dport seqnr acknr flgs window urgptr : Z) : res net :=
  let! n := aget (nifs w) i in
  let! m := tcp_header m (n_ip n) dip sport dport seqnr acknr flgs window urgptr in
  net_tx_ip w i m dip IP_P_TCP.

(** ** Checksum lemmas *)

Fixpoint wordsum (bs : list Z) : Z :=
  match bs with
  | [] => 0
  | [a] => a
  | a :: b :: bs => a + 256 * b + wordsum bs
  end.

Lemma pair_ind (P : list Z -> Prop) :
  P [] -> (forall a, P [a]) -> (forall a b l, P l -> P (a :: b :: l)) -> forall l, P l.
Proof.
  intros H0 H1 H2 l. enough (P l /\ forall a, P (a :: l)) by tauto.
  induction l as [|b l [IH1 IH2]]; split; auto.
Qed.

Lemma wordsum_bound bs : Forall is_byte bs -> 0 <= wordsum bs <= 65535 * Z.of_nat (length bs).
Proof.
  induction bs as [|a|a b l IH] using pair_ind; intros Hb; [cbn; lia| |].
  - apply Forall_inv in Hb. unfold is_byte in Hb. cbn. lia.
  - apply Forall_cons in Hb as [Ha Hb]. apply Forall_cons in Hb as [Hb Hl]. unfold is_byte in *. specialize (IH Hl).
    cbn [wordsum length]. lia.
Qed.

Lemma sum16_eq bs : forall s, Forall is_byte bs -> 0 <= s -> s + 65536 * Z.of_nat (length bs) < 2 ^ 32 ->
  sum16 bs s = s + wordsum bs.
Proof.
  induction bs as [|a|a b l IH] using pair_ind; intros s Hb Hs Hl; cbn [sum16 wordsum].
  - lia.
  - apply Forall_inv in Hb. unfold is_byte in Hb. cbn in Hl. rewrite wrap_small; lia.
  - apply Forall_cons in Hb as [Ha Hb]. apply Forall_cons in Hb as [Hb Hbl]. unfold is_byte in *.
    cbn [length] in Hl. rewrite wrap_small by lia. rewrite IH by (done || lia). lia.
Qed.

Lemma wordsum_app a b : Nat.even (length a) = true -> wordsum (a ++ b) = wordsum a + wordsum b.
Proof.
  induction a as [|x|x y l IH] using pair_ind; intros He; [done|discriminate He|].
  cbn [app wordsum]. rewrite IH by done. lia.
Qed.

(** [r] is the end-around sum of [s]. *)
Definition folded (s r : Z) : Prop := 0 <= s /\ 0 <= r <= 65535 /\ (exists k, s = r + 65535 * k) /\ (r = 0 <-> s = 0).

Lemma not16 r : 0 <= r <= 65535 -> u16 (Z.lnot r) = 65535 - r.
Proof. intros Hr. unfold Z.lnot, wrap. dlia. Qed.

Lemma shr16 s : Z.shiftr s 16 = s / 65536.
Proof. by rewrite Z.shiftr_div_pow2. Qed.

Lemma land16 s : Z.land s 0xFFFF = s mod 65536.
Proof. change 0xFFFF with (Z.ones 16). by rewrite Z.land_ones. Qed.

Lemma cksum_fold_folded s : 0 <= s < 2 ^ 32 -> exists r, cksum_fold s = 65535 - r /\ folded s r.
Proof.
  intros Hs. unfold cksum_fold. rewrite shr16, land16. cbv zeta. rewrite (wrap_small 32 (s / 65536 + s mod 65536)) by dlia.
  assert (0 <= s / 65536 + s mod 65536 <= 131070) as Ht by dlia.
  assert (s = s / 65536 + s mod 65536 + 65535 * (s / 65536)) as Es by dlia.
  assert (s / 65536 + s mod 65536 = 0 <-> s = 0) as E0 by dlia.
  revert Ht Es E0. generalize (s / 65536 + s mod 65536) as t. generalize (s / 65536) as k. intros k t Ht Es E0. rewrite shr16.
  destruct (Z.le_gt_cases t 65535).
  - rewrite (Z.div_small t), Z.add_0_r, (wrap_small 32), not16 by lia. exists t. split; [done|].
    split_and!; [lia..|by exists k|done].
  - assert (t / 65536 = 1) as -> by dlia. rewrite (wrap_small 32) by lia.
    exists (t - 65535). split; [unfold Z.lnot, wrap; dlia|]. split_and!; [lia..|exists (k + 1); lia|lia].
Qed.

(** A sum to which the complement of its folding is added folds to all ones. *)
Lemma folded_complement s r r' : folded s r -> folded (s + (65535 - r)) r' -> r' = 65535.
Proof. intros (Hs & Hr & (k & Hk) & H0) (Hs' & Hr' & (k' & Hk') & H0'). lia. Qed.

Lemma fold16_folded s : 0 <= s < 2 ^ 20 -> exists r, fold16 3 s = Ok r /\ folded s r.
Proof.
  assert (forall fuel x, 0 <= x < 65536 -> fold16 (S fuel) x = Ok x /\ folded x x) as Hsmall.
  { intros fuel x Hx. cbn [fold16]. rewrite shr16, Z.div_small by lia. split; [done|]. split_and!; try lia. exists 0; lia. }
  assert (forall fuel x, 65536 <= x < 2 ^ 20 -> exists y k, fold16 (S fuel) x = fold16 fuel y /\ 0 < y /\
    y <= 65535 + x / 65536 /\ (65536 <= y -> x = y + 65535 * k) /\ x = y + 65535 * k /\ k = x / 65536 /\ 0 < k) as Hbig.
  { intros fuel x Hx. exists (x mod 65536 + x / 65536), (x / 65536). cbn [fold16]. rewrite shr16, land16.
    rewrite (proj2 (Z.eqb_neq (x / 65536) 0)) by dlia. rewrite wrap_small by dlia. split; [done|]. dlia. }
  intros Hs. destruct (Z.lt_ge_cases s 65536); [exists s; apply Hsmall; lia|].
  destruct (Hbig 2%nat s) as (y & k & -> & Hy & Hyk & _ & Es & Ek & Hk0); [lia|].
  destruct (Z.lt_ge_cases y 65536).
  - destruct (Hsmall 1%nat y) as [-> _]; [lia|]. exists y. split; [done|]. split_and!; try lia. by exists k.
  - assert (k < 16) by dlia. destruct (Hbig 1%nat y) as (z & j & -> & Hz & Hzj & _ & Ez & Ej & Hj0); [lia|].
    assert (j = 1) by dlia. destruct (Hsmall 0%nat z) as [-> _]; [lia|]. exists z. split; [done|]. split_and!; try lia.
    exists (k + 1). lia.
Qed.

Lemma cksum_folded bs : Forall is_byte bs -> (length bs <= 20)%nat -> Nat.even (length bs) = true ->
  exists r, cksum bs = Ok (65535 - r) /\ folded (wordsum bs) r.
Proof.
  intros Hb Hl He. unfold cksum. rewrite sum16_eq by (done || lia).
  assert (forall l, Forall is_byte l -> Nat.even (length l) = true -> 2 * wordsum l <= 65535 * Z.of_nat (length l)) as Hbd.
  { induction l as [|a|a b l IH] using pair_ind; intros Hbl Hel; [cbn; lia|discriminate|].
    apply Forall_cons in Hbl as [Ha Hbl]. apply Forall_cons in Hbl as [Hb' Hbl]. specialize (IH Hbl Hel).
    unfold is_byte in *. cbn [wordsum length]. lia. }
  specialize (Hbd bs Hb He). pose proof (wordsum_bound bs Hb).
  destruct (fold16_folded (0 + wordsum bs)) as (r & -> & Hr); [lia|]. exists r. cbn [res_bind].
  rewrite not16 by apply Hr. done.
Qed.

(** ** Field assignments *)

Definition put_at (l : list Z) (f : Z * list Z) : list Z :=
  take (Z.to_nat (fst f)) l ++ snd f ++ drop (Z.to_nat (fst f) + length (snd f)) l.

Definition fits (l : list Z) (f : Z * list Z) : Prop :=
  0 <= fst f /\ fst f + Z.of_nat (length (snd f)) <= Z.of_nat (length l).

Lemma length_put_at l f : fits l f -> length (put_at l f) = length l.
Proof. intros [H1 H2]. unfold put_at. rewrite !length_app, length_take, length_drop. lia. Qed.

Lemma set_hdr_put m pre l post o bs :
  holds m pre l post -> fits l (o, bs) ->
  exists m', set_hdr m o bs = Ok m' /\ holds m' pre (put_at l (o, bs)) post /\ m_id m' = m_id m /\ m_dlen m' = m_dlen m.
Proof.
  intros Hm [H1 H2]. cbn in H1, H2.
  assert (l = take (Z.to_nat o) l ++ take (length bs) (drop (Z.to_nat o) l) ++ drop (Z.to_nat o + length bs) l) as El.
  { rewrite <- drop_drop, take_drop. by rewrite take_drop. }
  rewrite El in Hm. destruct (set_hdr_holds m pre _ _ _ post bs o Hm) as (m' & E & Hm' & ?); [| |by exists m'].
  - rewrite length_take, length_drop. lia.
  - rewrite length_take. lia.
Qed.

Lemma set_hdrs_put fs : forall m pre l post,
  holds m pre l post -> Forall (fits l) fs ->
  exists m', set_hdrs m fs = Ok m' /\ holds m' pre (fold_left put_at fs l) post /\ m_id m' = m_id m /\ m_dlen m' = m_dlen m.
Proof.
  induction fs as [|[o bs] fs IH]; intros m pre l post Hm Hf; cbn [set_hdrs fold_left]; [by exists m|].
  apply Forall_cons in Hf as [Hf Hfs]. destruct (set_hdr_put m pre l post o bs Hm Hf) as (m1 & -> & Hm1 & E1 & E2).
  cbn [res_bind]. destruct (IH m1 pre (put_at l (o, bs)) post Hm1) as (m2 & -> & Hm2 & E3 & E4).
  - eapply Forall_impl; [exact Hfs|]. intros f Hx. unfold fits in *. by rewrite length_put_at.
  - exists m2. split_and!; congruence || done.
Qed.

(** ** What goes on the wire *)

(** The bytes of a TCP header, of an IP header and of an Ethernet header. *)
Definition tcp_head (sport dport seqnr acknr flgs window : Z) : list Z :=
  le16 (htons sport) ++ le16 (htons dport) ++ le32 (htonl seqnr) ++ le32 (htonl acknr) ++ [80; flgs] ++ le16 (htons window).

Definition tcp_bytes (sport dport seqnr acknr flgs window urgptr c : Z) : list Z :=
  tcp_head sport dport seqnr acknr flgs window ++ le16 c ++ le16 (htons urgptr).

Definition ip_head (tos : Z) (id : list Z) (len ptype : Z) : list Z :=
  [69; tos] ++ le16 (htons (u16 len)) ++ id ++ [0; 0; IP_TTL; u8 ptype].

Definition ip_bytes (tos : Z) (id : list Z) (len ptype c sip dip : Z) : list Z :=
  ip_head tos id len ptype ++ le16 c ++ (le32 sip ++ le32 dip).

Definition eth_bytes (dst src : list Z) (type : Z) : list Z := take 6 dst ++ take 6 src ++ le16 (htons type).

Lemma byte_mod x : is_byte (x mod 256).
Proof. unfold is_byte. dlia. Qed.

Lemma byte_u8 x : is_byte (u8 x).
Proof. apply (wrap_range 8). lia. Qed.

Lemma le16_bytes x : Forall is_byte (le16 x).
Proof. repeat constructor; apply byte_mod. Qed.

Lemma le32_bytes x : Forall is_byte (le32 x).
Proof. apply Forall_app. split; apply le16_bytes. Qed.

Lemma wordsum_le16 c : 0 <= c < 65536 -> wordsum (le16 c) = c.
Proof. intros Hc. cbn. dlia. Qed.

(** Lists of bytes. *)
Ltac bytes :=
  repeat match goal with
  | |- Forall is_byte (_ ++ _) => apply Forall_app; split
  | |- Forall is_byte (le16 _) => apply le16_bytes
  | |- Forall is_byte (le32 _) => apply le32_bytes
  | |- Forall is_byte (_ :: _) => apply Forall_cons; split; [first [assumption|apply byte_u8|unfold is_byte in *; lia|by vm_compute]|]
  | |- Forall is_byte [] => by apply Forall_nil
  end; try done.

(** Replacing a zero word by [c] adds [c] to the sum. *)
Lemma wordsum_patch a b c :
  Nat.even (length a) = true -> 0 <= c < 65536 -> wordsum (a ++ le16 c ++ b) = wordsum (a ++ [0; 0] ++ b) + c.
Proof.
  intros He Hc. rewrite !(wordsum_app a) by done. rewrite (wordsum_app (le16 c)), (wordsum_app [0; 0]), wordsum_le16 by done.
  cbn [wordsum]. lia.
Qed.

(** A checksum computed over a zero field verifies once it is stored there. *)
Lemma cksum_verifies extra a b :
  Nat.even (length a) = true -> Forall is_byte a -> Forall is_byte b -> Forall is_byte extra ->
  65536 * Z.of_nat (length extra + length a + length b + 3) < 2 ^ 32 ->
  let s bs := sum16 extra (sum16 bs 0) in
  let c := cksum_fold (s (a ++ [0; 0] ++ b)) in
  is_byte (c mod 256) /\ 0 <= c < 65536 /\ cksum_fold (s (a ++ le16 c ++ b)) = 0.
Proof.
  intros He Ha Hb Hx Hl s c.
  assert (forall l, Forall is_byte l -> length l = (length a + 2 + length b)%nat -> s l = wordsum l + wordsum extra) as Es.
  { intros l Hbl Hll. unfold s. pose proof (wordsum_bound l Hbl). rewrite (sum16_eq l), (sum16_eq extra) by (done || lia). lia. }
  assert (forall l, Forall is_byte l -> length l = 2%nat -> Forall is_byte (a ++ l ++ b) /\
    length (a ++ l ++ b) = (length a + 2 + length b)%nat) as Hall.
  { intros l Hbl Hll. rewrite !Forall_app, !length_app, Hll. split; [done|lia]. }
  destruct (Hall [0; 0]) as [Hb0 Hl0]; [bytes|done|].
  pose proof (wordsum_bound _ Hb0) as W0. pose proof (wordsum_bound _ Hx) as WX.
  destruct (cksum_fold_folded (s (a ++ [0; 0] ++ b))) as (r & Er & Hr); [rewrite Es by done; lia|].
  fold c in Er. pose proof Hr as (_ & Hr1 & _). split; [apply byte_mod|]. split; [lia|].
  destruct (Hall (le16 c)) as [Hbc Hlc]; [apply le16_bytes|done|]. pose proof (wordsum_bound _ Hbc) as WC.
  destruct (cksum_fold_folded (s (a ++ le16 c ++ b))) as (r' & -> & Hr'); [rewrite Es by done; lia|].
  rewrite !Es in Hr, Hr' by done. rewrite wordsum_patch in Hr' by (done || lia).
  enough (r' = 65535) by lia. eapply folded_complement; [exact Hr|]. rewrite Er in Hr'.
  by replace (wordsum (a ++ [0; 0] ++ b) + wordsum extra + (65535 - r)) with
    (wordsum (a ++ [0; 0] ++ b) + (65535 - r) + wordsum extra) by lia.
Qed.

Lemma tcp_header_holds m pre h p post sip dip sport dport seqnr acknr flgs window urgptr :
  holds m (pre ++ h) p post -> length h = 20%nat -> Forall is_byte p -> is_byte flgs ->
  exists m' c, tcp_header m sip dip sport dport seqnr acknr flgs window urgptr = Ok m' /\
    holds m' pre (tcp_bytes sport dport seqnr acknr flgs window urgptr c ++ p) post /\
    m_id m' = m_id m /\ m_dlen m' = m_dlen m /\
    net_cksum_tcp (tcp_bytes sport dport seqnr acknr flgs window urgptr c ++ p) sip dip (20 + Z.of_nat (length p)) = 0.
Proof.
  intros Hm Hh Hp Hfl. pose proof (push_holds m pre h p post Hm) as Hm1. rewrite Hh in Hm1.
  do 20 (destruct h as [|? h]; [discriminate|]). destruct h; [|discriminate]. unfold tcp_header.
  destruct (set_hdrs_put (tcp_fields sport dport seqnr acknr flgs window urgptr) _ _ _ _ Hm1) as (m2 & E2 & Hm2 & I2 & D2).
  { repeat (apply Forall_cons; split; [split; cbn; lia|]). by apply Forall_nil. }
  change (Z.of_nat 20) with 20 in E2. rewrite E2. cbn [res_bind].
  set (a := tcp_head sport dport seqnr acknr flgs window). set (b := le16 (htons urgptr) ++ p).
  assert (holds m2 pre (a ++ [0; 0] ++ b) post) as Hm3 by exact Hm2. clear Hm1 Hm2 E2.
  pose proof (holds_bounds _ _ _ _ Hm3) as Hk. pose proof Hm3 as [Hbuf Hhd Hlen _].
  assert (m_len m2 = 20 + Z.of_nat (length p)) as El by (rewrite Hlen; cbn; lia). rewrite El.
  rewrite !length_app in Hk. cbn [length] in Hk. change (length a) with 16%nat in Hk.
  assert (length b = 2 + length p)%nat as Elb by done.
  rewrite signed_small by lia. rewrite Hbuf, Hhd.
  assert (Z.to_nat (20 + Z.of_nat (length p)) = length (a ++ [0; 0] ++ b)) as ->.
  { rewrite !length_app. change (length a) with 16%nat. cbn [length]. lia. }
  rewrite ld_app. cbn [res_bind]. set (c := net_cksum_tcp _ _ _ _).
  assert (Forall is_byte a) as Ha by (unfold a, tcp_head; bytes).
  assert (Forall is_byte b) as Hb by (unfold b; bytes).
  destruct (cksum_verifies (tcpchk sip dip (20 + Z.of_nat (length p))) a b) as (_ & Hc & Hv); try done.
  { unfold tcpchk. bytes. }
  { change (length (tcpchk _ _ _)) with 12%nat. change (length a) with 16%nat. lia. }
  destruct (set_hdr_holds m2 pre a [0; 0] b post (le16 c) 16 Hm3) as (m3 & -> & Hm4 & I3 & D3); [done|done|].
  exists m3, c. split_and!; [done|exact Hm4|by rewrite I3, I2|by rewrite D3, D2|exact Hv].
Qed.

Lemma ip_cksum_verifies a b :
  Nat.even (length a) = true -> Nat.even (length b) = true -> (length a + length b <= 18)%nat ->
  Forall is_byte a -> Forall is_byte b ->
  exists c, cksum (a ++ [0; 0] ++ b) = Ok c /\ 0 <= c < 65536 /\ cksum (a ++ le16 c ++ b) = Ok 0.
Proof.
  intros He Hf Hl Ha Hb.
  assert (forall l, Forall is_byte l -> length l = 2%nat -> exists r, cksum (a ++ l ++ b) = Ok (65535 - r) /\
    folded (wordsum (a ++ l ++ b)) r) as Hall.
  { intros l Hbl Hll. apply cksum_folded; [bytes|rewrite !length_app; lia|].
    rewrite !length_app, Hll, !Nat.even_add, He, Hf. done. }
  destruct (Hall [0; 0]) as (r & Er & Hr); [bytes|done|]. pose proof Hr as (_ & Hr1 & _).
  exists (65535 - r). split; [done|]. split; [lia|]. destruct (Hall (le16 (65535 - r))) as (r' & -> & Hr'); [bytes|done|].
  rewrite wordsum_patch in Hr' by (done || lia). by rewrite (folded_complement _ _ _ Hr Hr').
Qed.

Lemma net_tx_ip_eq w i n m pre h p post dip ptype :
  aget (nifs w) i = Ok n -> holds m (pre ++ h) p post -> length h = 20%nat -> Forall is_byte h ->
  exists m' tos id c, net_tx_ip w i m dip ptype = net_tx_arpip w i m' dip /\
    holds m' pre (ip_bytes tos id (20 + Z.of_nat (length p)) ptype c (n_ip n) dip ++ p) post /\
    length id = 2%nat /\ cksum (ip_bytes tos id (20 + Z.of_nat (length p)) ptype c (n_ip n) dip) = Ok 0 /\
    m_id m' = m_id m /\ m_dlen m' = m_dlen m.
Proof.
  intros Hn Hm Hh Hbh. pose proof (push_holds m pre h p post Hm) as Hm1. rewrite Hh in Hm1.
  assert (m_len (mbuf_push m 20) = 20 + Z.of_nat (length p)) as El.
  { destruct Hm1 as [_ _ Hl _]. change (Z.of_nat 20) with 20 in Hl. rewrite Hl, length_app, Hh. lia. }
  do 20 (destruct h as [|? h]; [discriminate|]). destruct h; [|discriminate]. unfold net_tx_ip. rewrite Hn. cbn [res_bind].
  destruct (set_hdrs_put (ip_fields (m_len (mbuf_push m 20)) (n_ip n) dip ptype) _ _ _ _ Hm1) as (m2 & E2 & Hm2 & I2 & D2).
  { repeat (apply Forall_cons; split; [split; cbn; lia|]). by apply Forall_nil. }
  change (Z.of_nat 20) with 20 in E2. cbv zeta. rewrite E2. cbn [res_bind]. rewrite El in Hm2.
  set (a := ip_head z0 [z3; z4] (20 + Z.of_nat (length p)) ptype). set (b := le32 (n_ip n) ++ le32 dip).
  assert (holds m2 pre (a ++ [0; 0] ++ b ++ p) post) as Hm3 by exact Hm2. clear Hm1 Hm2 E2.
  pose proof Hm3 as [Hbuf Hhd _ _]. rewrite Hbuf, Hhd.
  replace (a ++ [0; 0] ++ b ++ p) with ((a ++ [0; 0] ++ b) ++ p) by (by rewrite <- !app_assoc).
  change 20%nat with (length (a ++ [0; 0] ++ b)). rewrite <- (app_assoc _ p post), ld_app. cbn [res_bind].
  assert (Forall is_byte a) as Ha.
  { repeat (apply Forall_cons in Hbh as [? Hbh]). unfold a, ip_head. bytes. }
  assert (Forall is_byte b) as Hb by (unfold b; bytes).
  destruct (ip_cksum_verifies a b) as (c & -> & Hc & Hv); try done. cbn [res_bind].
  destruct (set_hdr_holds m2 pre a [0; 0] (b ++ p) post (le16 c) 10 Hm3) as (m3 & -> & Hm4 & I3 & D3); [done|done|].
  exists m3, z0, [z3; z4], c. split_and!; [done| |done|exact Hv|by rewrite I3, I2|by rewrite D3, D2].
  unfold ip_bytes. fold a b. by rewrite <- !app_assoc in *.
Qed.

(** Everything but the contents of the interfaces is the same. *)
Definition same_but_nif (w w' : net) : Prop :=
  l_free w' = l_free w /\ pages w' = pages w /\ ktick w' = ktick w /\ length (nifs w') = length (nifs w).

Lemma same_trans w1 w2 w3 : same_but_nif w1 w2 -> same_but_nif w2 w3 -> same_but_nif w1 w3.
Proof. intros (? & ? & ? & ?) (? & ? & ? & ?). unfold same_but_nif. split_and!; congruence. Qed.

Lemma upd_nif_eq w i n f :
  aget (nifs w) i = Ok n ->
  exists w', upd_nif w i f = Ok w' /\ aget (nifs w') i = Ok (f n) /\ same_but_nif w w'.
Proof.
  intros Hn. apply aget_Ok in Hn as [Hi Hl]. pose proof (lookup_lt_Some _ _ _ Hl) as Hlt. unfold upd_nif.
  rewrite (proj2 (aget_Ok _ _ _) (conj Hi Hl)). cbn [res_bind]. rewrite aset_lt by lia. cbn [res_bind].
  eexists. split; [done|]. split; [|split_and!; try done; cbn; by rewrite length_insert].
  apply aget_Ok. split; [done|]. by apply list_lookup_insert_eq.
Qed.

Lemma nif_eth_tx_eq w i n m pre h p post dst type :
  aget (nifs w) i = Ok n -> holds m (pre ++ h) p post -> length h = 14%nat -> length dst = 6%nat -> length (n_mac n) = 6%nat ->
  exists w' m', nif_eth_tx w i m dst type = Ok w' /\ aget (nifs w') i = Ok (n <| n_sent ::= fun l => l ++ [m'] |>) /\
    holds m' pre (eth_bytes dst (n_mac n) type ++ p) post /\ same_but_nif w w'.
Proof.
  intros Hn Hm Hh Hd Hmac. unfold nif_eth_tx. rewrite Hn. cbn [res_bind].
  pose proof (push_holds m pre h p post Hm) as Hm1. rewrite Hh in Hm1.
  do 14 (destruct h as [|? h]; [discriminate|]). destruct h; [|discriminate].
  do 6 (destruct dst as [|? dst]; [discriminate|]). destruct dst; [|discriminate].
  remember (n_mac n) as mac eqn:Em. do 6 (destruct mac as [|? mac]; [discriminate|]). destruct mac; [|discriminate].
  destruct (set_hdrs_put [(0, take 6 [z13; z14; z15; z16; z17; z18]); (6, take 6 [z19; z20; z21; z22; z23; z24]);
    (12, le16 (htons type))] _ _ _ _ Hm1) as (m2 & E2 & Hm2 & _).
  { repeat (apply Forall_cons; split; [split; cbn; lia|]). by apply Forall_nil. }
  change (Z.of_nat 14) with 14 in E2. rewrite E2. cbn [res_bind].
  destruct (upd_nif_eq w i n (fun n => n <| n_sent ::= fun l => l ++ [m2] |>) Hn) as (w' & -> & Hn' & Hw').
  exists w', m2. split; [done|]. split; [done|]. split; [exact Hm2|done].
Qed.

(** The cache entry a packet to [dip] is sent with: known and not expired. *)
Definition arp_fresh (w : net) (n : nif) (dip : Z) (hw : list Z) : Prop :=
  exists k e, arp_get (n_arps n) dip = Some k /\ n_arps n !! k = Some e /\ a_init e = true /\ ktick w <= a_expires e /\
    a_hw e = hw /\ length hw = 6%nat.

Lemma net_tx_arpip_cached w i n m pre h p post dip hw :
  aget (nifs w) i = Ok n -> arp_fresh w n dip hw -> holds m (pre ++ h) p post -> length h = 14%nat -> length (n_mac n) = 6%nat ->
  exists w' m', net_tx_arpip w i m dip = Ok w' /\ aget (nifs w') i = Ok (n <| n_sent ::= fun l => l ++ [m'] |>) /\
    holds m' pre (eth_bytes hw (n_mac n) ETH_IP ++ p) post.
Proof.
  intros Hn (k & e & Hk & He & Hi & Hx & <- & Hl) Hm Hh Hmac. unfold net_tx_arpip. rewrite Hn. cbn [res_bind]. rewrite Hk, He.
  cbn [deref res_bind]. rewrite Hi, (proj2 (Z.ltb_ge _ _) Hx). cbn [negb orb].
  destruct (upd_nif_eq w i n (fun n0 => n0 <| n_arps := n_arps n |>) Hn) as (w1 & -> & Hn1 & _). cbn [res_bind].
  destruct (nif_eth_tx_eq w1 i _ m pre h p post (a_hw e) ETH_IP Hn1 Hm Hh Hl Hmac) as (w2 & m2 & -> & Hn2 & Hm2 & _).
  exists w2, m2. split; [done|]. split; [|done]. rewrite Hn2. by destruct n.
Qed.

(** C23: a TCP segment for a host whose hardware address is known leaves the interface as one
    frame: Ethernet, IP and TCP headers in network byte order around the unchanged payload,
    with an IP and a TCP checksum that verify at the receiver. *)
Theorem net_tx_tcp_on_wire w i n m pre h p post dip hw sport dport seqnr acknr flgs window urgptr :
  aget (nifs w) i = Ok n -> arp_fresh w n dip hw -> length (n_mac n) = 6%nat ->
  holds m (pre ++ h) p post -> length h = 54%nat -> Forall is_byte h -> Forall is_byte p -> is_byte flgs ->
  exists w' m' tos id c c', net_tx_tcp w i m dip sport dport seqnr acknr flgs window urgptr = Ok w' /\
    aget (nifs w') i = Ok (n <| n_sent ::= fun l => l ++ [m'] |>) /\
    packet m' = eth_bytes hw (n_mac n) ETH_IP ++
      ip_bytes tos id (40 + Z.of_nat (length p)) IP_P_TCP c (n_ip n) dip ++
      tcp_bytes sport dport seqnr acknr flgs window urgptr c' ++ p /\
    cksum (ip_bytes tos id (40 + Z.of_nat (length p)) IP_P_TCP c (n_ip n) dip) = Ok 0 /\
    net_cksum_tcp (tcp_bytes sport dport seqnr acknr flgs window urgptr c' ++ p) (n_ip n) dip
      (20 + Z.of_nat (length p)) = 0.
Proof.
  intros Hn Ha Hmac Hm Hh Hbh Hp Hfl.
  rewrite <- (take_drop 14 h), <- (take_drop 20 (drop 14 h)), drop_drop in Hm, Hbh.
  set (h1 := take 14 h) in *. set (h2 := take 20 (drop 14 h)) in *. set (h3 := drop (14 + 20) h) in *.
  assert (length h1 = 14 /\ length h2 = 20 /\ length h3 = 20)%nat as (L1 & L2 & L3).
  { unfold h1, h2, h3. rewrite !length_take, !length_drop. lia. }
  rewrite !Forall_app in Hbh. destruct Hbh as (B1 & B2 & B3). rewrite !app_assoc in Hm.
  destruct (tcp_header_holds m _ h3 p post (n_ip n) dip sport dport seqnr acknr flgs window urgptr Hm L3 Hp Hfl)
    as (m1 & c' & E1 & Hm1 & _ & _ & Hv1).
  unfold net_tx_tcp. rewrite Hn. cbn [res_bind]. rewrite E1. cbn [res_bind].
  destruct (net_tx_ip_eq w i n m1 _ h2 _ post dip IP_P_TCP Hn Hm1 L2 B2) as (m2 & tos & id & c & -> & Hm2 & _ & Hv2 & _).
  destruct (net_tx_arpip_cached w i n m2 pre h1 _ post dip hw Hn Ha Hm2 L1 Hmac) as (w' & m' & -> & Hn' & Hm3).
  exists w', m', tos, id, c, c'. rewrite length_app in *. change (length (tcp_bytes _ _ _ _ _ _ _ _)) with 20%nat in *.
  replace (20 + Z.of_nat (20 + length p)) with (40 + Z.of_nat (length p)) in * by lia.
  split_and!; try done. by rewrite (holds_packet _ _ _ _ Hm3).
Qed.

(** A witness: one interface that knows its neighbour, and a buffer with four bytes. *)
Definition nif0 : nif :=
  Nif [] [2; 0; 0; 0; 0; 1] 0x0A00000A 0x0200000A 0x00FFFFFF 0 [Arpent true 6000 6100 0x0300000A [2; 0; 0; 0; 0; 3] []] [].

Definition net0 : net := Net [nif0] [] [(repeat 0 2048, 0); (repeat 0 2048, 0)] 100.

Definition mbuf0 : mbuf := Mbuf (repeat 0 128 ++ [1; 2; 3; 4] ++ repeat 0 1916) 128 0 4 4 0 0.

Lemma mbuf0_holds : holds mbuf0 (repeat 0 74 ++ repeat 0 54) [1; 2; 3; 4] (repeat 0 1916).
Proof. split; vm_compute; reflexivity. Qed.

Lemma zeros_bytes k : Forall is_byte (repeat 0 k).
Proof. induction k; cbn [repeat]; bytes. Qed.

Lemma net_tx_tcp_on_wire_witness :
  exists w' m' tos id c c', net_tx_tcp net0 0 mbuf0 0x0300000A 1000 80 7 9 16 65535 0 = Ok w' /\
    aget (nifs w') 0 = Ok (nif0 <| n_sent ::= fun l => l ++ [m'] |>) /\
    packet m' = eth_bytes [2; 0; 0; 0; 0; 3] [2; 0; 0; 0; 0; 1] ETH_IP ++
      ip_bytes tos id 44 IP_P_TCP c 0x0A00000A 0x0300000A ++ tcp_bytes 1000 80 7 9 16 65535 0 c' ++ [1; 2; 3; 4] /\
    cksum (ip_bytes tos id 44 IP_P_TCP c 0x0A00000A 0x0300000A) = Ok 0 /\
    net_cksum_tcp (tcp_bytes 1000 80 7 9 16 65535 0 c' ++ [1; 2; 3; 4]) 0x0A00000A 0x0300000A 24 = 0.
Proof.
  apply (net_tx_tcp_on_wire net0 0 nif0 mbuf0 (repeat 0 74) (repeat 0 54) [1; 2; 3; 4] (repeat 0 1916) 0x0300000A [2; 0; 0; 0; 0; 3]).
  - reflexivity.
  - exists 0%nat, (Arpent true 6000 6100 0x0300000A [2; 0; 0; 0; 0; 3] []). split_and!; try reflexivity. discriminate.
  - reflexivity.
  - exact mbuf0_holds.
  - reflexivity.
  - apply zeros_bytes.
  - bytes.
  - split; [discriminate|reflexivity].
Defined.

(** ** Address resolution *)

Definition arp_bytes (op : Z) (smac : list Z) (sip : Z) (dmac : list Z) (dip : Z) : list Z :=
  le16 (htons 1) ++ le16 (htons 0x800) ++ [ETH_HLEN; ETH_PLEN] ++ le16 (htons op) ++ take 6 smac ++ le32 sip ++
  take 6 dmac ++ le32 dip.

(** Room for one more packet buffer. *)
Definition can_alloc (w : net) (ps : list (list Z * Z)) : Prop :=
  l_free w = [] /\ exists pg pp, pages w = (pg, pp) :: ps /\ length pg = Z.to_nat MBUF_SIZE.

Lemma net_alloc_holds w ps :
  can_alloc w ps ->
  exists m w' pre post, net_alloc w MBUF_DEFROOM = Ok (m, w') /\ holds m pre [] post /\ length pre = 128%nat /\
    m_dlen m = 0 /\ nifs w' = nifs w /\ l_free w' = [] /\ pages w' = ps /\ ktick w' = ktick w.
Proof.
  intros (Hf & pg & pp & Hp & Hl). unfold net_alloc. rewrite Hf, Hp. cbn [mbuf_alloc].
  eexists _, _, (take 128 pg), (drop 128 pg). split; [done|]. change (Z.to_nat MBUF_SIZE) with 2048%nat in Hl.
  split; [|split; [rewrite length_take; lia|done]].
  split; cbn; [by rewrite take_drop|rewrite length_take, Hl; done|done|rewrite Hl; done].
Qed.

(** The assignments of an ARP header fill it, whatever it held. *)
Lemma arp_fields_fill op smac sip dmac dip h :
  length h = 28%nat -> length smac = 6%nat -> length dmac = 6%nat ->
  fold_left put_at (arp_fields op smac sip dmac dip) h = arp_bytes op smac sip dmac dip /\
  Forall (fits h) (arp_fields op smac sip dmac dip).
Proof.
  intros Hh Hs Hd. do 28 (destruct h as [|? h]; [discriminate|]). destruct h; [|discriminate].
  do 6 (destruct smac as [|? smac]; [discriminate|]). destruct smac; [|discriminate].
  do 6 (destruct dmac as [|? dmac]; [discriminate|]). destruct dmac; [|discriminate].
  split; [reflexivity|]. repeat (apply Forall_cons; split; [split; cbn; lia|]). by apply Forall_nil.
Qed.

Lemma net_tx_arp_eq w i n ps op dmac dip :
  aget (nifs w) i = Ok n -> can_alloc w ps -> length (n_mac n) = 6%nat -> length dmac = 6%nat ->
  exists w' m', net_tx_arp w i op dmac dip = Ok w' /\ aget (nifs w') i = Ok (n <| n_sent ::= fun l => l ++ [m'] |>) /\
    packet m' = eth_bytes dmac (n_mac n) ETH_ARP ++ arp_bytes op (n_mac n) (n_ip n) dmac dip /\
    l_free w' = [] /\ pages w' = ps /\ ktick w' = ktick w /\ length (nifs w') = length (nifs w).
Proof.
  intros Hn Hc Hmac Hd. destruct (net_alloc_holds w ps Hc) as (m & w1 & pre & post & E & Hm & Lp & _ & En & Hf & Hp & Ht).
  unfold net_tx_arp. rewrite E. cbn [res_bind]. rewrite En, Hn. cbn [res_bind].
  rewrite <- (take_drop 86 pre), <- (take_drop 14 (drop 86 pre)) in Hm. rewrite app_assoc in Hm.
  set (h1 := take 14 (drop 86 pre)) in *. set (h := drop 14 (drop 86 pre)) in *.
  assert (length h1 = 14 /\ length h = 28)%nat as [L1 L2].
  { unfold h1, h. rewrite !length_take, !length_drop. lia. }
  pose proof (push_holds m _ h [] post Hm) as Hm1. rewrite L2, app_nil_r in Hm1. change (Z.of_nat 28) with 28 in Hm1.
  destruct (arp_fields_fill op (n_mac n) (n_ip n) dmac dip h L2 Hmac Hd) as [Ef Hfit].
  destruct (set_hdrs_put _ _ _ _ _ Hm1 Hfit) as (m2 & -> & Hm2 & _). rewrite Ef in Hm2. cbn [res_bind]. rewrite <- En in Hn.
  destruct (nif_eth_tx_eq w1 i n m2 _ h1 _ post dmac ETH_ARP Hn Hm2 L1 Hd Hmac) as (w' & m' & E' & Hn' & Hm' & (S1 & S2 & S3 & S4)).
  exists w', m'. split_and!; [done|done|by rewrite (holds_packet _ _ _ _ Hm')|congruence..].
Qed.

(** The frames the queue of an entry becomes. *)
Definition framed (hw mac : list Z) (q f : mbuf) : Prop := packet f = eth_bytes hw mac ETH_IP ++ packet q.

(** A queued packet: room for the Ethernet header. *)
Definition queued (m : mbuf) : Prop := exists pre h p post, holds m (pre ++ h) p post /\ length h = 14%nat.

Lemma send_all_eq ms : forall w i n hw,
  aget (nifs w) i = Ok n -> Forall queued ms -> length hw = 6%nat -> length (n_mac n) = 6%nat ->
  exists w' fs, send_all w i hw ms = Ok w' /\ aget (nifs w') i = Ok (n <| n_sent ::= fun l => l ++ fs |>) /\
    Forall2 (framed hw (n_mac n)) ms fs /\ same_but_nif w w'.
Proof.
  induction ms as [|m ms IH]; intros w i n hw Hn Hq Hhw Hmac; cbn [send_all].
  - exists w, []. split_and!; try done. rewrite Hn. destruct n; cbn. unfold upd. cbn. by rewrite app_nil_r.
  - apply Forall_cons in Hq as [(pre & h & p & post & Hm & Hh) Hq].
    destruct (nif_eth_tx_eq w i n m pre h p post hw ETH_IP Hn Hm Hh Hhw Hmac) as (w1 & f & -> & Hn1 & Hf & Hs1). cbn [res_bind].
    destruct (IH w1 i _ hw Hn1 Hq Hhw Hmac) as (w2 & fs & -> & Hn2 & Hfs & Hs2). exists w2, (f :: fs). split_and!; [done| |..].
    + rewrite Hn2. cbn. unfold upd. cbn. by rewrite <- app_assoc.
    + constructor; [|done]. unfold framed. by rewrite (holds_packet _ _ _ _ Hf), (holds_packet _ _ _ _ Hm).
    + by eapply same_trans.
Qed.

(** One interface, which is the default one. *)
Definition lone (w : net) (n : nif) : Prop := nifs w = [n].

Lemma lone_aget w n : lone w n -> aget (nifs w) 0 = Ok n.
Proof. intros ->. done. Qed.

Lemma aget_lone w w' n : lone w n -> length (nifs w') = length (nifs w) -> forall n', aget (nifs w') 0 = Ok n' -> lone w' n'.
Proof.
  intros Hw Hl n' Hn. rewrite Hw in Hl. unfold lone. destruct (nifs w') as [|x [|y l]]; try discriminate. cbn in Hn. by injection Hn as ->.
Qed.

Lemma arp_request_eq w n ps dip :
  lone w n -> can_alloc w ps -> length (n_mac n) = 6%nat ->
  exists w' f, arp_request w dip = Ok w' /\ lone w' (n <| n_sent ::= fun l => l ++ [f] |>) /\
    packet f = eth_bytes bc (n_mac n) ETH_ARP ++ arp_bytes ARP_OP_REQUEST (n_mac n) (n_ip n) bc dip /\
    l_free w' = [] /\ pages w' = ps /\ ktick w' = ktick w.
Proof.
  intros Hw Hc Hmac. unfold arp_request, nif_find_default. rewrite Hw. cbn [bool_decide].
  rewrite bool_decide_false by done. cbn [negb ASSERTK res_bind length]. change (Z.of_nat 1 - 1) with 0.
  destruct (net_tx_arp_eq w 0 n ps ARP_OP_REQUEST bc dip (lone_aget _ _ Hw) Hc Hmac eq_refl)
    as (w' & f & -> & Hn & Hf & Hl & Hp & Ht & Hlen). exists w', f. split_and!; try done. by apply (aget_lone w w' n).
Qed.

(** A packet that has no usable cache entry waits at the end of the queue of [e]. *)
Lemma net_tx_arpip_waits w n ps m dip k e :
  lone w n -> can_alloc w ps -> length (n_mac n) = 6%nat ->
  let dip0 := if ip_addr_maskcmp dip (n_ip n) (n_netmask n) then dip else n_gateway n in
  let arps := match arp_get (n_arps n) dip with Some _ => n_arps n | None => arp_init dip0 :: n_arps n end in
  k = default 0%nat (arp_get (n_arps n) dip) -> arps !! k = Some e -> a_init e = false ->
  exists w' f, net_tx_arpip w 0 m dip = Ok w' /\
    lone w' (n <| n_arps := <[k := e <| a_ipque ::= fun q => q ++ [m] |>]> arps |> <| n_sent ::= fun l => l ++ [f] |>) /\
    packet f = eth_bytes bc (n_mac n) ETH_ARP ++ arp_bytes ARP_OP_REQUEST (n_mac n) (n_ip n) bc dip0 /\
    l_free w' = [] /\ pages w' = ps /\ ktick w' = ktick w.
Proof.
  intros Hw Hc Hmac dip0 arps Hk He Hi. unfold net_tx_arpip. rewrite (lone_aget _ _ Hw). cbn [res_bind]. cbv zeta. fold dip0.
  assert (match arp_get (n_arps n) dip with Some k0 => (k0, n_arps n) | None => (0%nat, arp_init dip0 :: n_arps n) end = (k, arps)) as ->.
  { subst k arps. by destruct (arp_get (n_arps n) dip). }
  rewrite He. cbn [deref res_bind]. rewrite Hi. cbn [negb orb].
  destruct (upd_nif_eq w 0 n (fun n => n <| n_arps := <[k := e <| a_ipque ::= fun q => q ++ [m] |>]> arps |>) (lone_aget _ _ Hw))
    as (w1 & -> & Hn1 & (S1 & S2 & S3 & S4)). cbn [res_bind].
  assert (can_alloc w1 ps) as Hc1 by (unfold can_alloc; by rewrite S1, S2).
  destruct (arp_request_eq w1 _ ps dip0 (aget_lone _ _ _ Hw S4 _ Hn1) Hc1 Hmac) as (w2 & f & -> & Hl2 & Hf & ? & ? & Ht).
  exists w2, f. split_and!; try done. by rewrite Ht, S3.
Qed.

(** Enough fresh pages for [k] packet buffers. *)
Definition stocked (w : net) (k : nat) : Prop :=
  l_free w = [] /\ (k <= length (pages w))%nat /\ Forall (fun pg => length (fst pg) = Z.to_nat MBUF_SIZE) (pages w).

Lemma stocked_alloc w k : stocked w (S k) -> exists ps, can_alloc w ps /\
  forall w', l_free w' = [] -> pages w' = ps -> stocked w' k.
Proof.
  intros (Hf & Hk & Hp). destruct (pages w) as [|[pg pp] ps] eqn:E; [cbn in Hk; lia|]. apply Forall_cons in Hp as [Hpg Hps].
  exists ps. split; [split; [done|]; exists pg, pp; by split|]. intros w' Hf' Hp'. unfold stocked. rewrite Hf', Hp'. cbn in Hk.
  split_and!; [done|lia|done].
Qed.

(** Sending the packets [ms] to [dip] one after the other. *)
Fixpoint tx_list (w : net) (dip : Z) (ms : list mbuf) : res net :=
  match ms with
  | [] => Ok w
  | m :: ms => let! w := net_tx_arpip w 0 m dip in tx_list w dip ms
  end.

Lemma arp_get_head e l ip : a_ip e = ip -> arp_get (e :: l) ip = Some 0%nat.
Proof. intros <-. unfold arp_get, ip_addr_cmp. cbn. rewrite decide_True by (rewrite Z.eqb_refl; done). done. Qed.

(** Packets to a host that is being resolved line up behind its entry. *)
Lemma tx_list_waits dip ms : forall w n e old,
  lone w n -> n_arps n = e :: old -> a_ip e = dip -> a_init e = false -> length (n_mac n) = 6%nat -> stocked w (length ms) ->
  exists w' rs, tx_list w dip ms = Ok w' /\ length rs = length ms /\ ktick w' = ktick w /\
    lone w' (n <| n_arps := e <| a_ipque ::= fun q => q ++ ms |> :: old |> <| n_sent ::= fun l => l ++ rs |>).
Proof.
  induction ms as [|m ms IH]; intros w n e old Hw Ha Hip Hi Hmac Hst; cbn [tx_list].
  - exists w, []. split_and!; try done. destruct n, e. cbn in *. subst. unfold upd. cbn. by rewrite !app_nil_r.
  - destruct (stocked_alloc w _ Hst) as (ps & Hc & Hst').
    assert (arp_get (n_arps n) dip = Some 0%nat) as Hg by (rewrite Ha; by apply arp_get_head).
    destruct (net_tx_arpip_waits w n ps m dip 0 e Hw Hc Hmac) as (w1 & f & -> & Hw1 & _ & Hf1 & Hp1 & Ht1); [by rewrite Hg|rewrite Hg; by rewrite Ha|done|].
    cbn [res_bind]. rewrite Hg, Ha in Hw1. cbn [insert list_insert] in Hw1.
    destruct (IH w1 _ (e <| a_ipque ::= fun q => q ++ [m] |>) old Hw1) as (w2 & rs & -> & Hl & Ht & Hw2); try done.
    { by apply Hst'. }
    exists w2, (f :: rs). split_and!; [done|cbn; by rewrite Hl|congruence|]. unfold lone in *. rewrite Hw2. unfold upd. cbn.
    by rewrite <- !app_assoc.
Qed.

(** [arp_set] for an entry at the head of the cache sends what waits there. *)
Lemma arp_set_head w n e old ip hw ticks :
  lone w n -> n_arps n = e :: old -> a_ip e = ip -> Forall queued (a_ipque e) -> length hw = 6%nat -> length (n_mac n) = 6%nat ->
  exists w' fs, arp_set w 0 ip hw ticks = Ok w' /\ Forall2 (framed hw (n_mac n)) (a_ipque e) fs /\ same_but_nif w w' /\
    lone w' (n <| n_sent ::= fun l => l ++ fs |> <| n_arps := Arpent true ticks (u64 (ktick w + ticks)) ip hw [] :: old |>).
Proof.
  intros Hw Ha Hip Hq Hhw Hmac. unfold arp_set. rewrite (lone_aget _ _ Hw). cbn [res_bind].
  rewrite Ha, arp_get_head by done. cbn [lookup list_lookup default delete list_delete].
  rewrite (take_ge hw) by lia. cbn -[send_all upd_nif u64].
  destruct (send_all_eq (a_ipque e) w 0 n hw (lone_aget _ _ Hw) Hq Hhw Hmac) as (w1 & fs & -> & Hn1 & Hfs & Hs1). cbn [res_bind].
  match goal with |- context [upd_nif w1 0 ?f] => destruct (upd_nif_eq w1 0 _ f Hn1) as (w2 & -> & Hn2 & Hs2) end.
  exists w2, fs. split_and!; [done|done|by eapply same_trans|].
  apply (aget_lone w w2 n Hw); [by destruct (same_trans _ _ _ Hs1 Hs2) as (_ & _ & _ & ?)|]. rewrite Hn2, <- Hip. done.
Qed.

(** C36: packets sent to a neighbour, a host in the network of the interface, whose hardware address
    is not known yet are kept; when its address arrives they leave as frames to it, each once and
    in the order they were sent, and the address is cached.  (Packets for a gateway are another
    matter: they stay behind.) *)
Theorem arp_resolves_in_order w n dip ms hw :
  lone w n -> arp_get (n_arps n) dip = None -> ip_addr_maskcmp dip (n_ip n) (n_netmask n) = true ->
  ms <> [] -> Forall queued ms -> length (n_mac n) = 6%nat -> length hw = 6%nat -> stocked w (length ms) ->
  0 <= ktick w < 2 ^ 63 ->
  exists w1 w2 n2 rs fs, tx_list w dip ms = Ok w1 /\ arp_set w1 0 dip hw ARP_TIMEOUT = Ok w2 /\ lone w2 n2 /\
    n_sent n2 = n_sent n ++ rs ++ fs /\ length rs = length ms /\ Forall2 (framed hw (n_mac n)) ms fs /\ arp_fresh w2 n2 dip hw.
Proof.
  intros Hw Hg Hloc Hne Hq Hmac Hhw Hst Ht. destruct ms as [|m ms]; [done|]. cbn [tx_list].
  destruct (stocked_alloc w _ Hst) as (ps & Hc & Hst').
  destruct (net_tx_arpip_waits w n ps m dip 0 (arp_init dip) Hw Hc Hmac) as (w1 & f & -> & Hw1 & _ & Hf1 & Hp1 & Ht1);
    [by rewrite Hg|by rewrite Hg, Hloc|done|]. rewrite Hg, Hloc in Hw1. cbn [insert list_insert] in Hw1. cbn [res_bind].
  destruct (tx_list_waits dip ms w1 _ ((arp_init dip) <| a_ipque ::= fun q => q ++ [m] |>) (n_arps n) Hw1)
    as (w2 & rs & -> & Hl & Ht2 & Hw2); try done. { by apply Hst'. }
  edestruct (arp_set_head w2) as (w3 & fs & E3 & Hfs & Hs3 & Hw3); [exact Hw2|done|done|exact Hq|exact Hhw|exact Hmac|].
  eexists w2, w3, _, (f :: rs), fs. split_and!; [done|exact E3|exact Hw3| |cbn; by rewrite Hl|exact Hfs|].
  - cbn. by rewrite <- !app_assoc.
  - eexists 0%nat, _. split_and!; [by apply arp_get_head|done|done| |done|done].
    destruct Hs3 as (_ & _ & Et & _). cbn. rewrite wrap_small; unfold ARP_TIMEOUT; lia.
Qed.

Lemma arp_get_skip e l ip : a_ip e <> ip -> arp_get l ip = None -> arp_get (e :: l) ip = None.
Proof.
  intros Hne Hl. unfold arp_get, ip_addr_cmp in *. cbn. rewrite decide_False by (intros Ht%Is_true_true%Z.eqb_eq; congruence).
  by destruct (list_find _ l).
Qed.

(** [k] answers for [ip], one after the other. *)
Fixpoint arp_answers (k : nat) (w : net) (ip : Z) (hw : list Z) : res net :=
  match k with
  | O => Ok w
  | S k => let! w := arp_set w 0 ip hw ARP_TIMEOUT in arp_answers k w ip hw
  end.

(** However often an address is answered, only the head entry for it changes. *)
Lemma arp_answers_head k : forall w n e l ip hw,
  lone w n -> n_arps n = e :: l -> a_ip e = ip -> Forall queued (a_ipque e) -> length hw = 6%nat -> length (n_mac n) = 6%nat ->
  exists w' n' e', arp_answers k w ip hw = Ok w' /\ lone w' n' /\ n_arps n' = e' :: l.
Proof.
  induction k as [|k IH]; intros w n e l ip hw Hw Ha Hip Hq Hhw Hmac; cbn [arp_answers]; [by exists w, n, e|].
  destruct (arp_set_head w n e l ip hw ARP_TIMEOUT Hw Ha Hip Hq Hhw Hmac) as (w2 & fs & -> & _ & _ & Hw2). cbn [res_bind].
  eapply (IH w2 _ _ l ip hw Hw2); [done|done|by constructor|done|done].
Qed.

(** packets to a host behind the gateway each get a cache entry of their own; the gateway's
    answers only ever reach the newest, so an earlier packet stays queued for ever. *)
Theorem gateway_packets_stuck w n m1 m2 dip hw answers :
  lone w n -> arp_get (n_arps n) dip = None -> n_gateway n <> dip -> ip_addr_maskcmp dip (n_ip n) (n_netmask n) = false ->
  queued m2 -> length (n_mac n) = 6%nat -> length hw = 6%nat -> stocked w 2 ->
  exists w1 w2 n2, tx_list w dip [m1; m2] = Ok w1 /\
    arp_answers answers w1 (n_gateway n) hw = Ok w2 /\ lone w2 n2 /\
    exists e, n_arps n2 !! 1%nat = Some e /\ a_ip e = n_gateway n /\ a_init e = false /\ a_ipque e = [m1].
Proof.
  intros Hw Hg Hgd Hrem Hq Hmac Hhw Hst. cbn [tx_list].
  destruct (stocked_alloc w _ Hst) as (ps & Hc & Hst').
  destruct (net_tx_arpip_waits w n ps m1 dip 0 (arp_init (n_gateway n)) Hw Hc Hmac) as (w1 & f & -> & Hw1 & _ & Hf1 & Hp1 & Ht1);
    [by rewrite Hg|by rewrite Hg, Hrem|done|]. rewrite Hg, Hrem in Hw1. cbn [insert list_insert] in Hw1. cbn [res_bind].
  destruct (stocked_alloc w1 0) as (ps2 & Hc2 & _); [by apply Hst'|]. set (e1 := (arp_init (n_gateway n)) <| a_ipque ::= _ |>) in Hw1.
  set (n1 := n <| n_arps := e1 :: n_arps n |> <| n_sent ::= _ |>) in Hw1.
  assert (arp_get (n_arps n1) dip = None) as Hg1 by (by apply arp_get_skip).
  destruct (net_tx_arpip_waits w1 n1 ps2 m2 dip 0 (arp_init (n_gateway n)) Hw1 Hc2 Hmac) as (w2 & f2 & -> & Hw2 & _);
    [by rewrite Hg1|rewrite Hg1; change (n_netmask n1) with (n_netmask n); change (n_ip n1) with (n_ip n); by rewrite Hrem|done|].
  rewrite Hg1 in Hw2. change (n_netmask n1) with (n_netmask n) in Hw2. change (n_ip n1) with (n_ip n) in Hw2. rewrite Hrem in Hw2.
  cbn [insert list_insert] in Hw2. cbn [res_bind].
  edestruct (arp_answers_head answers w2) as (w3 & n3 & e3 & E3 & Hw3 & Ha3); [exact Hw2|done|done|by repeat constructor|exact Hhw|exact Hmac|].
  exists w2, w3, n3. split_and!; [done|exact E3|done|]. exists e1. by rewrite Ha3.
Qed.

Definition nif1 : nif := nif0 <| n_arps := [] |>.

Definition net1 : net := Net [nif1] [] [(repeat 0 2048, 0); (repeat 0 2048, 0)] 100.

Lemma mbuf0_queued : queued mbuf0.
Proof. exists (repeat 0 114), (repeat 0 14), [1; 2; 3; 4], (repeat 0 1916). split; [exact mbuf0_holds|reflexivity]. Qed.

Lemma net1_stocked : stocked net1 2.
Proof. split_and!; [reflexivity|reflexivity|]. apply Forall_cons. split; [reflexivity|]. apply Forall_cons. by split. Qed.

Lemma arp_resolves_in_order_witness :
  exists w1 w2 n2 rs fs, tx_list net1 0x0300000A [mbuf0; mbuf0] = Ok w1 /\
    arp_set w1 0 0x0300000A [2; 0; 0; 0; 0; 3] ARP_TIMEOUT = Ok w2 /\ lone w2 n2 /\ n_sent n2 = [] ++ rs ++ fs /\
    length rs = 2%nat /\ Forall2 (framed [2; 0; 0; 0; 0; 3] [2; 0; 0; 0; 0; 1]) [mbuf0; mbuf0] fs /\
    arp_fresh w2 n2 0x0300000A [2; 0; 0; 0; 0; 3].
Proof.
  apply (arp_resolves_in_order net1 nif1).
  - reflexivity.
  - reflexivity.
  - reflexivity.
  - discriminate.
  - repeat constructor; apply mbuf0_queued.
  - reflexivity.
  - reflexivity.
  - exact net1_stocked.
  - split; [discriminate|reflexivity].
Defined.

Lemma gateway_packets_stuck_witness :
  exists w1 w2 n2, tx_list net1 0x08080808 [mbuf0; mbuf0] = Ok w1 /\
    arp_answers 2 w1 0x0200000A [2; 0; 0; 0; 0; 2] = Ok w2 /\ lone w2 n2 /\
    exists e, n_arps n2 !! 1%nat = Some e /\ a_ip e = 0x0200000A /\ a_init e = false /\ a_ipque e = [mbuf0].
Proof.
  apply (gateway_packets_stuck net1 nif1).
  - reflexivity.
  - reflexivity.
  - discriminate.
  - reflexivity.
  - exact mbuf0_queued.
  - reflexivity.
  - reflexivity.
  - exact net1_stocked.
Defined.
