(* ===== verification/Sock.v ===== *)
(** * UDP and raw sockets: [kernel/net/socket/udp.c], [kernel/net/socket/raw.c]

    The sockets of one kind are listed in [intype]; a socket is named by a number. A receive
    runs until it returns or sleeps. *)
From Stdlib Require Import ZArith Lia List Bool.
From stdpp Require Import base list gmap.
From S2P Require Import Prelude Bitmap Bytes Mbuf Net.

#[local] Open Scope Z_scope.

Definition EDESTADDRREQ : Z := 89.
Definition EADDRINUSE : Z := 98.
Definition EADDRNOTAVAIL : Z := 99.
Definition EISCONN : Z := 106.

Definition AF_INET : Z := 2.

(** [sockaddr_in_t] without its padding; the port is in network order. *)
Record sockaddr_in := SockaddrIn { sa_port : Z; sa_addr : Z }.

Definition SOCKADDR_IN_SIZE : Z := 16.

(** What [getsockname] and [getpeername] copy out: [junk] is what the stack holds in [zero]. *)
Definition sockname_bytes (port addr : Z) (junk : list Z) (len : Z) : list Z :=
  take (Z.to_nat (MIN len SOCKADDR_IN_SIZE)) (le16 AF_INET ++ le16 port ++ le32 addr ++ junk).

(** How a receive ends for now. *)
Inductive recv_outcome :=
| Received (ret : Z) (data : list Z) (from : option sockaddr_in)
| Asleep.

(** ** UDP *)

Record udp := Udp {
  u_nif : Z;
  u_laddr : Z;
  u_raddr : Z;
  u_lport : Z;
  u_rport : Z;
  u_rx_que : list mbuf;
  u_rx_waiter : option Z }.

#[export] Instance eta_udp : Eta udp := fun r =>
  Udp (u_nif r) (u_laddr r) (u_raddr r) (u_lport r) (u_rport r) (u_rx_que r) (u_rx_waiter r).

(** The module's statics, and the tasks made ready. *)
Record udps := Udps {
  u_socks : gmap Z udp;
  u_intype : list Z;
  u_bmp : bitmap;
  u_woken : list Z }.

#[export] Instance eta_udps : Eta udps := fun r => Udps (u_socks r) (u_intype r) (u_bmp r) (u_woken r).

Definition MAX_PORT : Z := 65536.

(** [bitmap_init] with a bitmap of its own does not clear the units [mem] it allocates. *)
Definition sock_udp_init (mem : list Z) : res udps :=
  let! b := deref (bitmap_init (Some (Bitmap [] 0)) None (MAX_PORT / mpembs) (Some mem) true) in
  let! b := bitmap_set b 0 in
  Ok (Udps ∅ [] b []).

Definition udp_ck_lport (b : bitmap) (u : udp) : res (bitmap * udp) :=
  if negb (u_lport u =? 0) then Ok (b, u)
  else
    let! r := bitmap_find b in
    let '(port, b) := r in
    if i32 port =? -1 then Fault Panicked else Ok (b, u <| u_lport := u16 port |>).

Definition udp_socket (w : net) (s : udps) (id : Z) : res udps :=
  let! n := nif_find_default w in
  Ok (s <| u_socks ::= insert id (Udp n 0 0 0 0 [] None) |> <| u_intype ::= fun l => l ++ [id] |>).

Definition udp_bind (w : net) (s : udps) (id : Z) (addr : option sockaddr_in) (len : Z) : res (Z * udps) :=
  match addr with
  | None => Ok (- EDESTADDRREQ, s)
  | Some a =>
      if len <=? SOCKADDR_IN_SIZE then Ok (- EINVAL, s)
      else
        let! u := deref (u_socks s !! id) in
        let port := ntohs (sa_port a) in
        let finish (b : bitmap) (u : udp) : res (Z * udps) :=
          let s := s <| u_bmp := b |> <| u_socks ::= insert id u |> in
          if ip_addr_isany (Some (sa_addr a)) then
            let! d := nif_find_default w in
            let! n := aget (nifs w) d in
            Ok (0, s <| u_socks ::= insert id (u <| u_laddr := n_ip n |>) |>)
          else
            match nif_find_byip4 w (sa_addr a) None with
            | None => Ok (- EADDRNOTAVAIL, s)
            | Some _ => Ok (0, s <| u_socks ::= insert id (u <| u_laddr := sa_addr a |>) |>)
            end in
        if negb (port =? 0) then
          let! used := bitmap_test (u_bmp s) port in
          if used : bool then Ok (- EADDRINUSE, s) else finish (u_bmp s) u
        else let! r := udp_ck_lport (u_bmp s) u in finish (fst r) (snd r)
  end.

Definition udp_connect (s : udps) (id : Z) (a : sockaddr_in) : res (Z * udps) :=
  let! u := deref (u_socks s !! id) in
  Ok (0, s <| u_socks ::= insert id (u <| u_rport := ntohs (sa_port a) |> <| u_raddr := sa_addr a |>) |>).

Definition udp_getsockname (s : udps) (id len : Z) (junk : list Z) : res (Z * list Z) :=
  let! u := deref (u_socks s !! id) in Ok (0, sockname_bytes (htons (u_lport u)) (u_laddr u) junk len).

Definition udp_getpeername (s : udps) (id len : Z) (junk : list Z) : res (Z * list Z) :=
  let! u := deref (u_socks s !! id) in Ok (0, sockname_bytes (htons (u_rport u)) (u_raddr u) junk len).

Definition udp_sendmsg (w : net) (s : udps) (id : Z) (name : option sockaddr_in) (data : list Z) : res (Z * net * udps) :=
  let! r := net_alloc w MBUF_DEFROOM in
  let '(m, w) := r in
  let! m := mbuf_put m data in
  let! u := deref (u_socks s !! id) in
  let rdef := SockaddrIn (htons (u_rport u)) (u_raddr u) in
  let connected := negb (ip_addr_isany (Some (u_raddr u))) in
  match name, connected with
  | Some _, true => Ok (- EISCONN, w, s)
  | None, false => Ok (- EDESTADDRREQ, w, s)
  | _, _ =>
      let a := match name with Some a => a | None => rdef end in
      if sa_port a =? 0 then Ok (- EINVAL, w, s)
      else if ip_addr_isany (Some (sa_addr a)) then Ok (- EINVAL, w, s)
      else
        let! r := udp_ck_lport (u_bmp s) u in
        let '(b, u) := r in
        let! w := net_tx_udp w (u_nif u) m (sa_addr a) (u_lport u) (ntohs (sa_port a)) in
        Ok (Z.of_nat (length data), w, s <| u_bmp := b |> <| u_socks ::= insert id u |>)
  end.

(** [udp_recvmsg] from [list_popback] on; an empty list gives its own head for a packet. *)
Definition udp_recv_pop (u : udp) (named : bool) (iov_len : Z) : res (recv_outcome * udp) :=
  match last (u_rx_que u) with
  | None => Fault OutOfBounds
  | Some m =>
      let u := u <| u_rx_que ::= fun l => take (length l - 1) l |> in
      let! sip := hdr32 m 12 in
      let m := mbuf_pull m 20 in
      let! sport := hdr16 m 0 in
      let m := mbuf_pull m 8 in
      let len := i32 (MIN iov_len (m_len m)) in
      let! data := ld (m_buf m) (m_head m) (Z.to_nat len) in
      Ok (Received len data (if named then Some (SockaddrIn sport sip) else None), u)
  end.

Definition udp_recvmsg (s : udps) (id p : Z) (named : bool) (iov_len : Z) : res (recv_outcome * udps) :=
  let! u := deref (u_socks s !! id) in
  let! r := udp_ck_lport (u_bmp s) u in
  let '(b, u) := r in
  let s := s <| u_bmp := b |> in
  if bool_decide (u_rx_que u = []) then
    do! ASSERTK (match u_rx_waiter u with None => true | Some _ => false end) in
    Ok (Asleep, s <| u_socks ::= insert id (u <| u_rx_waiter := Some p |>) |>)
  else
    let! r := udp_recv_pop u named iov_len in
    Ok (fst r, s <| u_socks ::= insert id (snd r) |>).

Definition udp_recvmsg_resume (s : udps) (id : Z) (named : bool) (iov_len : Z) : res (recv_outcome * udps) :=
  let! u := deref (u_socks s !! id) in
  let! r := udp_recv_pop (u <| u_rx_waiter := None |>) named iov_len in
  Ok (fst r, s <| u_socks ::= insert id (snd r) |>).

(** The tests of the loop of [sock_rx_udp]. *)
Definition udp_match (u : udp) (sip dip sport dport : Z) : bool :=
  let any := ip_addr_isany (Some (u_raddr u)) in
  (any || ((u_rport u =? ntohs sport) && (u_lport u =? ntohs dport))) &&
  (any || ip_addr_cmp (u_raddr u) sip) &&
  (ip_addr_isany (Some (u_laddr u)) || ip_addr_cmp (u_laddr u) dip).

(** [rx_waiter >= 0] holds of every pointer, NULL included, which [task_unblock] asserts against. *)
Fixpoint rx_udp_loop (s : udps) (l : list Z) (sip dip sport dport : Z) (m : mbuf) : res (Z * udps) :=
  match l with
  | [] => Ok (0, s)
  | id :: l =>
      let! u := deref (u_socks s !! id) in
      if udp_match u sip dip sport dport then
        let m := mbuf_push (mbuf_push m 8) 20 in
        do! ASSERTK (match u_rx_waiter u with Some _ => true | None => false end) in
        Ok (1, s <| u_woken ::= fun l => l ++ match u_rx_waiter u with Some p => [p] | None => [] end |>
                 <| u_socks ::= insert id (u <| u_rx_que ::= fun q => q ++ [m] |> <| u_rx_waiter := None |>) |>)
      else rx_udp_loop s l sip dip sport dport m
  end.

Definition sock_rx_udp (s : udps) (sip dip : Z) (m : mbuf) : res (Z * udps) :=
  let! sport := hdr16 m 0 in
  let! dport := hdr16 m 2 in
  rx_udp_loop s (u_intype s) sip dip sport dport (mbuf_pull m 8).

(** ** Raw sockets *)

Definition IPPROTO_RAW : Z := 255.

(** [r_nif] is never assigned. *)
Record raw := Raw {
  r_nif : option Z;
  r_proto : Z;
  r_hdrincl : bool;
  r_laddr : Z;
  r_raddr : Z;
  r_rx_waiter : option Z;
  r_rx_que : list mbuf }.

#[export] Instance eta_raw : Eta raw := fun r =>
  Raw (r_nif r) (r_proto r) (r_hdrincl r) (r_laddr r) (r_raddr r) (r_rx_waiter r) (r_rx_que r).

Record raws := Raws { r_socks : gmap Z raw; r_intype : list Z; r_woken : list Z }.

#[export] Instance eta_raws : Eta raws := fun r => Raws (r_socks r) (r_intype r) (r_woken r).

Definition hdrincl (r : raw) : bool := r_hdrincl r || (r_proto r =? IPPROTO_RAW).

(** [nif] is what the memory of the structure holds where the interface should be. *)
Definition raw_socket (s : raws) (id proto : Z) (nif : option Z) : raws :=
  s <| r_socks ::= insert id (Raw nif proto false 0 0 None []) |> <| r_intype ::= fun l => l ++ [id] |>.

Definition raw_bind (w : net) (s : raws) (id : Z) (addr : option sockaddr_in) : res (Z * raws) :=
  match addr with
  | None => Ok (- EDESTADDRREQ, s)
  | Some a =>
      let! r := deref (r_socks s !! id) in
      if ip_addr_isany (Some (sa_addr a)) then
        let! d := nif_find_default w in
        let! n := aget (nifs w) d in
        Ok (0, s <| r_socks ::= insert id (r <| r_laddr := n_ip n |>) |>)
      else
        match nif_find_byip4 w (sa_addr a) None with
        | None => Ok (- EADDRNOTAVAIL, s)
        | Some _ => Ok (0, s <| r_socks ::= insert id (r <| r_laddr := sa_addr a |>) |>)
        end
  end.

Definition raw_connect (s : raws) (id : Z) (a : sockaddr_in) : res (Z * raws) :=
  let! r := deref (r_socks s !! id) in
  Ok (0, s <| r_socks ::= insert id (r <| r_raddr := sa_addr a |>) |>).

Definition raw_getsockname (s : raws) (id len : Z) (junk : list Z) : res (Z * list Z) :=
  let! r := deref (r_socks s !! id) in Ok (0, sockname_bytes 0 (r_laddr r) junk len).

Definition raw_getpeername (s : raws) (id len : Z) (junk : list Z) : res (Z * list Z) :=
  let! r := deref (r_socks s !! id) in Ok (0, sockname_bytes 0 (r_raddr r) junk len).

Definition raw_sendmsg (w : net) (s : raws) (id : Z) (name : option sockaddr_in) (data : list Z) : res (Z * net) :=
  let! r := deref (r_socks s !! id) in
  let! a := net_alloc w MBUF_DEFROOM in
  let '(m, w) := a in
  let! m := mbuf_put m data in
  if hdrincl r then Fault Panicked
  else
    let! n := deref (r_nif r) in
    let! to := deref name in
    let! w := net_tx_ip w n m (sa_addr to) (u8 (r_proto r)) in
    Ok (Z.of_nat (length data), w).

(** [raw_recvmsg] from [list_popback] on; the packet goes back to the pool. *)
Definition raw_recv_pop (w : net) (r : raw) (iov_len : Z) : res (recv_outcome * raw * net) :=
  match last (r_rx_que r) with
  | None => Fault OutOfBounds
  | Some m =>
      let r := r <| r_rx_que ::= fun l => take (length l - 1) l |> in
      let len := i32 (MIN iov_len (m_len m)) in
      let! data := ld (m_buf m) (m_head m) (Z.to_nat len) in
      Ok (Received len data None, r, free_mbuf w m)
  end.

Definition raw_recvmsg (w : net) (s : raws) (id p iov_len : Z) : res (recv_outcome * raws * net) :=
  let! r := deref (r_socks s !! id) in
  if bool_decide (r_rx_que r = []) then
    do! ASSERTK (match r_rx_waiter r with None => true | Some _ => false end) in
    Ok (Asleep, s <| r_socks ::= insert id (r <| r_rx_waiter := Some p |>) |>, w)
  else
    let! x := raw_recv_pop w r iov_len in
    let '(o, r, w) := x in
    Ok (o, s <| r_socks ::= insert id r |>, w).

Definition raw_recvmsg_resume (w : net) (s : raws) (id iov_len : Z) : res (recv_outcome * raws * net) :=
  let! r := deref (r_socks s !! id) in
  let! x := raw_recv_pop w (r <| r_rx_waiter := None |>) iov_len in
  let '(o, r, w) := x in
  Ok (o, s <| r_socks ::= insert id r |>, w).

Definition raw_match (r : raw) (sip dip ptype : Z) : bool :=
  ((u8 (r_proto r) =? IPPROTO_RAW) || (u8 (r_proto r) =? ptype)) &&
  (ip_addr_isany (Some (r_raddr r)) || ip_addr_cmp (r_raddr r) sip) &&
  (ip_addr_isany (Some (r_laddr r)) || ip_addr_cmp (r_laddr r) dip).

Fixpoint rx_raw_loop (s : raws) (l : list Z) (sip dip ptype : Z) (m : mbuf) : res (Z * raws) :=
  match l with
  | [] => Ok (0, s)
  | id :: l =>
      let! r := deref (r_socks s !! id) in
      if raw_match r sip dip ptype then
        let m := mbuf_push m 20 in
        Ok (1, s <| r_woken ::= fun l => l ++ match r_rx_waiter r with Some p => [p] | None => [] end |>
                 <| r_socks ::= insert id (r <| r_rx_que ::= fun q => q ++ [m] |> <| r_rx_waiter := None |>) |>)
      else rx_raw_loop s l sip dip ptype m
  end.

Definition sock_rx_raw (s : raws) (sip dip ptype : Z) (m : mbuf) : res (Z * raws) :=
  rx_raw_loop s (r_intype s) sip dip ptype m.

(** ** Properties of UDP *)

(** The first socket of the list that takes the datagram. *)
Lemma rx_udp_first s sip dip sport dport m l1 : forall id u l2,
  (forall i, i ∈ l1 -> exists v, u_socks s !! i = Some v /\ udp_match v sip dip sport dport = false) ->
  u_socks s !! id = Some u -> udp_match u sip dip sport dport = true ->
  rx_udp_loop s (l1 ++ id :: l2) sip dip sport dport m = rx_udp_loop s [id] sip dip sport dport m.
Proof.
  induction l1 as [|i l1 IH]; intros id u l2 Hl Hu Hm; cbn [app rx_udp_loop].
  - by rewrite Hu; cbn [deref res_bind]; rewrite Hm.
  - destruct (Hl i) as (v & Hv & Ev); [by left|]. rewrite Hv. cbn [deref res_bind]. rewrite Ev.
    rewrite (IH id u l2); [done| |done|done]. intros j Hj. apply Hl. by right.
Qed.

(** a datagram for a socket on which no task is waiting fails an assertion of the kernel:
    the test [rx_waiter >= 0] does not keep NULL from [task_unblock]. *)
Theorem udp_rx_no_reader_panics s sip dip sport dport m l1 l2 id u :
  hdr16 m 0 = Ok sport -> hdr16 m 2 = Ok dport -> u_intype s = l1 ++ id :: l2 ->
  (forall i, i ∈ l1 -> exists v, u_socks s !! i = Some v /\ udp_match v sip dip sport dport = false) ->
  u_socks s !! id = Some u -> udp_match u sip dip sport dport = true -> u_rx_waiter u = None ->
  sock_rx_udp s sip dip m = Fault AssertFailed.
Proof.
  intros H1 H2 Hl Hn Hu Hm Hw. unfold sock_rx_udp. rewrite H1. cbn [res_bind]. rewrite H2. cbn [res_bind].
  rewrite Hl, (rx_udp_first s sip dip sport dport _ l1 id u l2) by done. cbn [rx_udp_loop]. rewrite Hu. cbn [deref res_bind].
  by rewrite Hm, Hw.
Qed.

Lemma le16_word v : 0 <= v < 65536 -> v mod 256 + 256 * (v / 256 mod 256) = v.
Proof. intros. dlia. Qed.

(** A header put back in front of the packet. *)
Lemma push_back m pre h p post n :
  holds m (pre ++ h) p post -> n = Z.of_nat (length h) -> holds (mbuf_push m n) pre (h ++ p) post.
Proof. intros Hm ->. by apply push_holds. Qed.

(** Popping the packet [ih ++ uh ++ data]: source address, source port, bytes. *)
Lemma udp_recv_pop_eq u q m pre a sip b sport r data post iov_len :
  u_rx_que u = q ++ [m] -> holds m pre ((a ++ le32 sip ++ b) ++ (le16 sport ++ r) ++ data) post ->
  length a = 12%nat -> length b = 4%nat -> length r = 6%nat -> 0 <= sip < 2 ^ 32 -> 0 <= sport < 65536 ->
  Z.of_nat (length data) <= iov_len ->
  udp_recv_pop u true iov_len =
    Ok (Received (Z.of_nat (length data)) data (Some (SockaddrIn sport sip)), u <| u_rx_que := q |>).
Proof.
  intros Hq Hm La Lb Lr Hsip Hsp Hiov. unfold udp_recv_pop. rewrite Hq, last_snoc.
  pose proof (holds_bounds _ _ _ _ Hm) as Hk. rewrite !length_app in Hk.
  assert (hdr32 m 12 = Ok sip) as ->.
  { rewrite le32_eq in Hm by done. rewrite <- !(app_assoc a) in Hm. cbn [app] in Hm.
    rewrite (hdr32_holds m pre a _ _ _ _ _ post 12 Hm) by (rewrite La; done). f_equal. pose proof (bytes4 sip Hsip). lia. }
  cbn [res_bind]. apply pull_holds in Hm. assert (Z.of_nat (length (a ++ le32 sip ++ b)) = 20) as E20.
  { rewrite !length_app, La, Lb. done. }
  rewrite E20 in Hm. assert (hdr16 (mbuf_pull m 20) 0 = Ok sport) as ->.
  { rewrite <- app_assoc in Hm. rewrite (hdr16_holds _ _ [] _ _ _ post 0 Hm) by done. f_equal. by apply le16_word. }
  cbn [res_bind]. apply pull_holds in Hm. assert (Z.of_nat (length (le16 sport ++ r)) = 8) as E8 by (rewrite length_app, Lr; done).
  rewrite E8 in Hm. destruct Hm as [Hb Hh Hl _]. rewrite Hl, MIN_min, Z.min_r by lia. rewrite signed_small by lia.
  rewrite Hb, Hh, Nat2Z.id, ld_app. cbn [res_bind].
  assert (u <| u_rx_que ::= fun l => take (length l - 1) l |> = u <| u_rx_que := q |>) as ->; [|done].
  unfold upd. rewrite Hq, length_app. cbn [length]. replace (length q + 1 - 1)%nat with (length q) by lia. by rewrite take_app_length.
Qed.

(** a datagram that arrives for a waiting reader wakes it, and the reader gets the payload
    and the address and port it was sent from. *)
Theorem udp_datagram_delivered s m pre a sip b sport r data post dip dport id u p q iov_len :
  holds m (pre ++ (a ++ le32 sip ++ b)) ((le16 sport ++ r) ++ data) post ->
  length a = 12%nat -> length b = 4%nat -> length r = 6%nat -> 0 <= sip < 2 ^ 32 -> 0 <= sport < 65536 ->
  hdr16 m 2 = Ok dport -> u_intype s = [id] -> u_socks s !! id = Some u -> u_rx_waiter u = Some p -> u_rx_que u = q ->
  udp_match u sip dip sport dport = true -> Z.of_nat (length data) <= iov_len ->
  exists s1 s2, sock_rx_udp s sip dip m = Ok (1, s1) /\ u_woken s1 = u_woken s ++ [p] /\
    udp_recvmsg_resume s1 id true iov_len =
      Ok (Received (Z.of_nat (length data)) data (Some (SockaddrIn sport sip)), s2) /\
    u_socks s2 !! id = Some (u <| u_rx_waiter := None |>).
Proof.
  intros Hm La Lb Lr Hsip Hsp Hdp Hin Hu Hw Hq Hmt Hiov. unfold sock_rx_udp.
  assert (hdr16 m 0 = Ok sport) as ->.
  { rewrite <- (app_assoc (le16 sport)) in Hm. rewrite (hdr16_holds _ _ [] _ _ _ post 0 Hm) by done. f_equal. by apply le16_word. }
  cbn [res_bind]. rewrite Hdp, Hin. cbn [res_bind rx_udp_loop]. rewrite Hu. cbn [deref res_bind]. rewrite Hmt, Hw.
  cbn [ASSERTK res_bind]. eexists _, _. split; [done|]. split; [done|].
  assert (Z.of_nat (length (le16 sport ++ r)) = 8) as E8 by (rewrite length_app, Lr; done).
  assert (holds (mbuf_push (mbuf_push (mbuf_pull m 8) 8) 20) pre ((a ++ le32 sip ++ b) ++ (le16 sport ++ r) ++ data) post) as Hm1.
  { apply push_back; [|rewrite !length_app, La, Lb; done]. apply push_back; [|done]. apply pull_holds in Hm. by rewrite E8 in Hm. }
  unfold udp_recvmsg_resume. cbn -[insert lookup udp_recv_pop]. rewrite lookup_insert_eq. cbn [deref res_bind].
  rewrite (udp_recv_pop_eq _ q _ pre a sip b sport r data post iov_len) by (done || (cbn; by rewrite Hq)).
  cbn -[insert lookup]. split; [done|]. cbn -[insert lookup]. rewrite lookup_insert_eq. f_equal. unfold upd. cbn. destruct u; cbn in *. by subst.
Qed.

(** binding a UDP socket to a port of 8192 or more, as any program may ask for, fails an
    assertion: the port bitmap has 65536 / 8 bits. *)
Theorem udp_bind_high_port_panics w mem s id a len u :
  sock_udp_init mem = Ok s -> MAX_PORT / mpembs <= ntohs (sa_port a) -> SOCKADDR_IN_SIZE < len ->
  udp_bind w (s <| u_socks := {[ id := u ]} |>) id (Some a) len = Fault AssertFailed.
Proof.
  intros Hs Hp Hl. unfold sock_udp_init in Hs. cbn [deref bitmap_init res_bind] in Hs. bind_inv Hs as b Eb. injection Hs as <-.
  assert (bm_bits b = 8192) as Hb.
  { unfold bitmap_set in Eb. cbn [bitmap_exist bm_bits ASSERTK res_bind] in Eb. res_inv. reflexivity. }
  unfold udp_bind. rewrite (proj2 (Z.leb_gt _ _) Hl). cbn. rewrite lookup_singleton_eq. cbn [deref res_bind].
  change (MAX_PORT / mpembs) with 8192 in Hp. rewrite (proj2 (Z.eqb_neq (ntohs (sa_port a)) 0)) by lia. cbn [negb].
  unfold bitmap_test, bitmap_exist. rewrite Hb, (proj2 (Z.ltb_ge _ _) Hp). done.
Qed.

(** ** Properties of raw sockets *)

(** The packets [ms], each behind its IP header, arrive; then the reader takes [k] of them. *)
Fixpoint raw_arrive (s : raws) (sip dip ptype : Z) (ms : list mbuf) : res raws :=
  match ms with
  | [] => Ok s
  | m :: ms => let! r := sock_rx_raw s sip dip ptype m in raw_arrive (snd r) sip dip ptype ms
  end.

Fixpoint raw_drain (k : nat) (w : net) (s : raws) (id p iov_len : Z) : res (list (list Z)) :=
  match k with
  | O => Ok []
  | S k =>
      let! x := raw_recvmsg w s id p iov_len in
      match x with
      | (Received _ data _, s, w) => let! l := raw_drain k w s id p iov_len in Ok (data :: l)
      | (Asleep, _, _) => Ok []
      end
  end.

(** The packet [pk] of [m] with its header in front, shorter than the reader's buffer. *)
Definition raw_packet (iov_len : Z) (m : mbuf) (pk : list Z) : Prop :=
  exists pre post, holds (mbuf_push m 20) pre pk post /\ Z.of_nat (length pk) <= iov_len.

Lemma raw_arrive_queue sip dip ptype id ms : forall s r,
  r_intype s = [id] -> r_socks s !! id = Some r -> raw_match r sip dip ptype = true ->
  exists s' r', raw_arrive s sip dip ptype ms = Ok s' /\ r_intype s' = [id] /\ r_socks s' !! id = Some r' /\
    r_rx_que r' = r_rx_que r ++ map (fun m => mbuf_push m 20) ms.
Proof.
  induction ms as [|m ms IH]; intros s r Hin Hr Hm; cbn [raw_arrive].
  - exists s, r. split_and!; try done. cbn. by rewrite app_nil_r.
  - unfold sock_rx_raw. rewrite Hin. cbn [rx_raw_loop]. rewrite Hr. cbn [deref res_bind]. rewrite Hm. cbn [res_bind snd].
    edestruct IH as (s' & r' & -> & Hin' & Hr' & Hq); [exact Hin|cbn -[insert lookup]; by rewrite lookup_insert_eq|exact Hm|].
    exists s', r'. split_and!; try done. rewrite Hq. cbn. by rewrite <- app_assoc.
Qed.

Lemma raw_drain_eq id p iov_len ms : forall pks w s r,
  Forall2 (raw_packet iov_len) ms pks -> r_socks s !! id = Some r -> r_rx_que r = map (fun m => mbuf_push m 20) ms ->
  raw_drain (length ms) w s id p iov_len = Ok (reverse pks).
Proof.
  induction ms as [|m ms IH] using rev_ind; intros pks w s r Hp Hr Hq.
  - apply Forall2_nil_inv_l in Hp as ->. done.
  - apply Forall2_app_inv_l in Hp as (pks1 & y & Hp & Hy & ->). apply Forall2_cons_inv_l in Hy as (pk & y' & Hpk & Hy & ->).
    apply Forall2_nil_inv_l in Hy as ->. destruct Hpk as (pre & post & Hh & Hlen).
    pose proof (holds_bounds _ _ _ _ Hh) as Hk. rewrite length_app, Nat.add_1_r, reverse_snoc. cbn [raw_drain]. unfold raw_recvmsg.
    rewrite map_app in Hq. cbn [map] in Hq. rewrite Hr. cbn [deref res_bind]. rewrite Hq, bool_decide_false by (intros E; by apply app_nil in E as [_ ?]).
    unfold raw_recv_pop. rewrite Hq, last_snoc. destruct Hh as [Hb Hhd Hl _]. rewrite Hl, MIN_min, Z.min_r by lia.
    rewrite signed_small by lia. rewrite Hb, Hhd, Nat2Z.id, ld_app. cbn [res_bind].
    rewrite (IH pks1 _ _ (r <| r_rx_que ::= fun l => take (length l - 1) l |>)); [done|done|cbn -[insert lookup]; by rewrite lookup_insert_eq|].
    cbn. rewrite Hq, length_app. cbn [length]. replace (_ + 1 - 1)%nat with (length (map (fun m => mbuf_push m 20) ms)) by lia.
    apply take_app_length.
Qed.

(** a raw socket hands out the packets that have queued up in the reverse of the order they
    arrived in. *)
Theorem raw_newest_first s w sip dip ptype id r ms pks p iov_len :
  r_intype s = [id] -> r_socks s !! id = Some r -> raw_match r sip dip ptype = true -> r_rx_que r = [] ->
  Forall2 (raw_packet iov_len) ms pks ->
  exists s', raw_arrive s sip dip ptype ms = Ok s' /\ raw_drain (length ms) w s' id p iov_len = Ok (reverse pks).
Proof.
  intros Hin Hr Hm Hq Hp. destruct (raw_arrive_queue sip dip ptype id ms s r Hin Hr Hm) as (s' & r' & E & _ & Hr' & Hq').
  exists s'. split; [done|]. rewrite Hq in Hq'. by apply (raw_drain_eq id p iov_len ms pks w s' r').
Qed.

(** ** Witnesses *)

(** A datagram of two bytes from port 53 of 10.0.0.3: [m_head] is behind the IP header. *)
Definition dgram : mbuf :=
  Mbuf (repeat 0 100 ++ (repeat 0 12 ++ le32 0x0300000A ++ repeat 0 4) ++ (le16 (htons 53) ++ [0; 99; 0; 10; 0; 0]) ++ [7; 8] ++
        repeat 0 1918) 120 0 10 0 0 0.

Lemma dgram_holds :
  holds dgram (repeat 0 100 ++ (repeat 0 12 ++ le32 0x0300000A ++ repeat 0 4)) ((le16 (htons 53) ++ [0; 99; 0; 10; 0; 0]) ++ [7; 8])
        (repeat 0 1918).
Proof. split; vm_compute; reflexivity. Qed.

Definition udp0 (wt : option Z) : udp := Udp 0 0 0 9 0 [] wt.

Definition udps0 (wt : option Z) : udps := Udps {[ 1 := udp0 wt ]} [1] (Bitmap [] 0) [].

Lemma udp_rx_no_reader_panics_witness : sock_rx_udp (udps0 None) 0x0300000A 0x0A00000A dgram = Fault AssertFailed.
Proof.
  apply (udp_rx_no_reader_panics (udps0 None) 0x0300000A 0x0A00000A (htons 53) 25344 dgram [] [] 1 (udp0 None)).
  - vm_compute. reflexivity.
  - vm_compute. reflexivity.
  - reflexivity.
  - intros i Hi. by apply elem_of_nil in Hi.
  - reflexivity.
  - reflexivity.
  - reflexivity.
Defined.

Lemma udp_datagram_delivered_witness :
  exists s1 s2, sock_rx_udp (udps0 (Some 5)) 0x0300000A 0x0A00000A dgram = Ok (1, s1) /\ u_woken s1 = [] ++ [5] /\
    udp_recvmsg_resume s1 1 true 100 = Ok (Received 2 [7; 8] (Some (SockaddrIn (htons 53) 0x0300000A)), s2) /\
    u_socks s2 !! 1 = Some (udp0 None).
Proof.
  apply (udp_datagram_delivered (udps0 (Some 5)) dgram (repeat 0 100) (repeat 0 12) 0x0300000A (repeat 0 4) (htons 53)
    [0; 99; 0; 10; 0; 0] [7; 8] (repeat 0 1918) 0x0A00000A 25344 1 (udp0 (Some 5)) 5 [] 100);
    try reflexivity; [exact dgram_holds|split; [discriminate|reflexivity]|split; [discriminate|reflexivity]|discriminate].
Defined.

Lemma udp_bind_high_port_panics_witness :
  exists s, sock_udp_init (repeat 0 1024) = Ok s /\
    udp_bind net0 (s <| u_socks := {[ 1 := udp0 None ]} |>) 1 (Some (SockaddrIn (htons 9000) 0)) 32 = Fault AssertFailed.
Proof.
  eexists. split; [vm_compute; reflexivity|].
  eapply (udp_bind_high_port_panics net0 (repeat 0 1024)); [vm_compute; reflexivity|vm_compute; discriminate|reflexivity].
Defined.

Definition raw0 : raw := Raw None 1 false 0 0 None [].

Lemma dgram_raw : raw_packet 2000 dgram ((repeat 0 12 ++ le32 0x0300000A ++ repeat 0 4) ++ (le16 (htons 53) ++ [0; 99; 0; 10; 0; 0]) ++ [7; 8]).
Proof.
  exists (repeat 0 100), (repeat 0 1918). split; [|vm_compute; discriminate]. apply push_back; [exact dgram_holds|reflexivity].
Qed.

Lemma raw_newest_first_witness :
  exists s', raw_arrive (Raws {[ 1 := raw0 ]} [1] []) 0 0 1 [dgram; dgram] = Ok s' /\
    raw_drain 2 net0 s' 1 9 2000 =
      Ok (reverse [(repeat 0 12 ++ le32 0x0300000A ++ repeat 0 4) ++ (le16 (htons 53) ++ [0; 99; 0; 10; 0; 0]) ++ [7; 8];
                   (repeat 0 12 ++ le32 0x0300000A ++ repeat 0 4) ++ (le16 (htons 53) ++ [0; 99; 0; 10; 0; 0]) ++ [7; 8]]).
Proof.
  apply (raw_newest_first (Raws {[ 1 := raw0 ]} [1] []) net0 0 0 1 1 raw0 [dgram; dgram]); try reflexivity.
  repeat (apply Forall2_cons; split; [exact dgram_raw|]). by apply Forall2_nil.
Defined.
