(* ===== verification/Tcp.v ===== *)
(** * TCP: [kernel/net/socket/tcp.c]

    The connections are named by numbers. The calls of [net_tx_tcp] are recorded in [t_out] with
    their arguments; [Net.net_tx_tcp] is what each of them does. [mb0] is the empty packet buffer
    [mbuf_alloc(MBUF_DEFROOM)] returns. A call that waits returns [None] and has a second part
    for what follows the wake-up. The delayed-acknowledgement and the time-wait timer are armed
    or not; the handler of an armed timer may run at any later time. *)
From Stdlib Require Import ZArith Lia List Bool.
From stdpp Require Import base list gmap.
From S2P Require Import Prelude Bitmap Bytes Mbuf Net Sock.

#[local] Open Scope Z_scope.

Definition ECONNRESET : Z := 104.
Definition ECONNREFUSED : Z := 111.

Inductive state :=
| CLOSED | SYN_SENT | SYN_RCVD | LISTEN | ESTABLISHED | CLOSE_WAIT | LAST_ACK | FIN_WAIT1 | FIN_WAIT2 | CLOSING | TIME_WAIT.

#[export] Instance state_eq_dec : EqDecision state.
Proof. solve_decision. Defined.

Definition TCP_F_FIN : Z := 1.
Definition TCP_F_SYN : Z := 2.
Definition TCP_F_RST : Z := 4.
Definition TCP_F_PSH : Z := 8.
Definition TCP_F_ACK : Z := 16.
Definition TCP_F_URG : Z := 32.

Definition TCP_SHUT_RD : Z := 1.
Definition TCP_SHUT_WR : Z := 2.
Definition DEFMSS : Z := 536.
Definition TCP_WINDOW : Z := 65535.

(** [tcp_t]. [pchd] and [acpt] are the lists of a listening connection. *)
Record tcp := Tcp {
  t_nif : Z;
  t_laddr : Z;
  t_raddr : Z;
  t_lport : Z;
  t_rport : Z;
  t_mss : Z;
  t_nagle : bool;
  t_state : state;
  t_shutdown : Z;
  t_errno : Z;
  t_passive : bool;
  t_ptcp : option Z;
  t_pchd : list Z;
  t_acpt : list Z;
  t_backlog : Z;
  t_backcnt : Z;
  snd_iss : Z;
  snd_una : Z;
  snd_nxt : Z;
  snd_que : list mbuf;
  una_que : list mbuf;
  buf_que : list mbuf;
  tmr_ack : bool;
  tmr_wait : bool;
  rcv_nxt : Z;
  rcv_irs : Z;
  rx_waiter : option Z;
  syn_waiter : option Z }.

#[export] Instance eta_tcp : Eta tcp := fun t =>
  Tcp (t_nif t) (t_laddr t) (t_raddr t) (t_lport t) (t_rport t) (t_mss t) (t_nagle t) (t_state t) (t_shutdown t) (t_errno t)
      (t_passive t) (t_ptcp t) (t_pchd t) (t_acpt t) (t_backlog t) (t_backcnt t) (snd_iss t) (snd_una t) (snd_nxt t)
      (snd_que t) (una_que t) (buf_que t) (tmr_ack t) (tmr_wait t) (rcv_nxt t) (rcv_irs t) (rx_waiter t) (syn_waiter t).

(** The arguments of a call of [net_tx_tcp]. *)
Record txcall := Tx {
  x_nif : Z;
  x_m : mbuf;
  x_dip : Z;
  x_sport : Z;
  x_dport : Z;
  x_seq : Z;
  x_ack : Z;
  x_flgs : Z;
  x_window : Z }.

Definition run_tx (w : net) (x : txcall) : res net :=
  net_tx_tcp w (x_nif x) (x_m x) (x_dip x) (x_sport x) (x_dport x) (x_seq x) (x_ack x) (x_flgs x) (x_window x) 0.

(** [list_common] and [list_listen] hold the sockets by the number of their connection. *)
Record tcps := Tcps {
  t_socks : gmap Z tcp;
  list_common : list Z;
  list_listen : list Z;
  t_bmp : bitmap;
  t_ktick : Z;
  t_out : list txcall;
  t_woken : list Z }.

#[export] Instance eta_tcps : Eta tcps := fun s =>
  Tcps (t_socks s) (list_common s) (list_listen s) (t_bmp s) (t_ktick s) (t_out s) (t_woken s).

Definition upd_tcp (s : tcps) (i : Z) (t : tcp) : tcps := s <| t_socks ::= insert i t |>.

(** [TRY_UNBLK] *)
Definition try_unblk (s : tcps) (w : option Z) : tcps :=
  match w with Some p => s <| t_woken ::= fun l => l ++ [p] |> | None => s end.

(** [list_remove]: unlinking a node that is on no list writes into whatever its old neighbours are. *)
Definition list_del (l : list Z) (i : Z) : res (list Z) :=
  if decide (i ∈ l) then Ok (filter (fun j => j <> i) l) else Fault OutOfBounds.

Definition TCP_SEQ_LT (a b : Z) : bool := i32 (a - b) <? 0.

Definition TCP_SEQ_LE (a b : Z) : bool := i32 (a - b) <=? 0.

(** A received segment: [tcpseg_t] with the header in host order. [g_buf] is behind the header. *)
Record tcpseg := Seg {
  g_seqnr : Z;
  g_seqlen : Z;
  g_sip : Z;
  g_dip : Z;
  g_nif : Z;
  g_buf : mbuf;
  g_sport : Z;
  g_dport : Z;
  g_acknr : Z;
  g_flgs : Z }.

Definition flag (f : Z) (g : tcpseg) : bool := negb (Z.land (g_flgs g) f =? 0).

Section Tcp.
Variable mb0 : mbuf.

(** ** Output *)

Definition send (s : tcps) (t : tcp) (m : mbuf) (seq ack flgs : Z) : tcps :=
  s <| t_out ::= fun l => l ++ [Tx (t_nif t) m (t_raddr t) (t_lport t) (t_rport t) seq ack flgs TCP_WINDOW] |>.

Definition isn (s : tcps) : Z := Z.lxor (u32 (t_ktick s)) 0x20250403.

Definition tcp_tx_setup (s : tcps) (i : Z) (t : tcp) : tcps :=
  let iss := isn s in
  let t := t <| snd_iss := iss |> <| snd_una := iss |> <| snd_nxt := u32 (iss + 1) |> <| t_state := SYN_SENT |> in
  send (upd_tcp s i t) t mb0 iss 0 TCP_F_SYN.

Definition tcp_tx_agree (s : tcps) (i : Z) (t : tcp) : tcps :=
  let iss := isn s in
  let t := t <| snd_iss := iss |> <| snd_una := iss |> <| snd_nxt := u32 (iss + 1) |> <| t_state := SYN_RCVD |> in
  send (upd_tcp s i t) t mb0 iss (rcv_nxt t) (Z.lor TCP_F_SYN TCP_F_ACK).

Definition tcp_tx_reset (s : tcps) (g : tcpseg) : tcps :=
  let x :=
    if flag TCP_F_ACK g then Tx (g_nif g) mb0 (g_sip g) (g_dport g) (g_sport g) (g_acknr g) 0 TCP_F_RST 0
    else Tx (g_nif g) mb0 (g_sip g) (g_dport g) (g_sport g) 0 (u32 (g_seqnr g + g_seqlen g)) (Z.lor TCP_F_RST TCP_F_ACK) 0 in
  s <| t_out ::= fun l => l ++ [x] |>.

Definition tcp_tx_ack (s : tcps) (t : tcp) : tcps :=
  if decide (t_state t = SYN_RCVD) then send s t mb0 (snd_iss t) (rcv_nxt t) (Z.lor TCP_F_ACK TCP_F_SYN)
  else send s t mb0 (snd_nxt t) (rcv_nxt t) TCP_F_ACK.

Definition tcp_tx_seg (s : tcps) (t : tcp) (m : mbuf) : tcps * tcp * mbuf :=
  let m := m <| m_id := snd_nxt t |> in
  (send s t m (snd_nxt t) (rcv_nxt t) TCP_F_ACK, t <| snd_nxt ::= fun n => u32 (n + m_dlen m) |>, m).

Definition tcp_tx_fin (s : tcps) (t : tcp) : tcps * tcp :=
  (send s t mb0 (snd_nxt t) (rcv_nxt t) (Z.lor TCP_F_ACK TCP_F_FIN), t <| snd_nxt ::= fun n => u32 (n + 1) |>).

Definition tcp_exit_with (s : tcps) (t : tcp) (errno : Z) : tcps * tcp :=
  let s := try_unblk (try_unblk s (rx_waiter t)) (syn_waiter t) in
  (s, t <| t_errno := errno |> <| rx_waiter := None |> <| syn_waiter := None |>).

(** The loop of [tcp_do_xmit]: [q] is the send queue. *)
Fixpoint xmit_loop (s : tcps) (t : tcp) (q : list mbuf) : tcps * tcp :=
  match q with
  | [] => (s, t <| snd_que := [] |>)
  | m :: q =>
      let '(s, t, m) := tcp_tx_seg s t m in
      let t := t <| una_que ::= fun l => l ++ [m] |> in
      if t_nagle t && negb (m_dlen m =? 0) then (s, t <| snd_que := q |>) else xmit_loop s t q
  end.

Definition tcp_do_xmit (s : tcps) (t : tcp) : tcps * tcp :=
  if t_nagle t && (snd_una t <? u32 (snd_nxt t - 1)) then (s, t)
  else
    let '(s, t) := xmit_loop s (t <| tmr_ack := false |>) (snd_que t) in
    if negb (Z.land (t_shutdown t) TCP_SHUT_WR =? 0) && bool_decide (snd_que t = []) && bool_decide (una_que t = []) then
      let t :=
        match t_state t with
        | ESTABLISHED => t <| t_state := FIN_WAIT1 |>
        | CLOSE_WAIT => t <| t_state := LAST_ACK |>
        | _ => t
        end in
      tcp_tx_fin s (t <| tmr_ack := false |>)
    else (s, t).

Definition tcp_x_ack (s : tcps) (t : tcp) (g : tcpseg) : res (tcps * tcp) :=
  do! ASSERTK (flag TCP_F_ACK g) in
  if TCP_SEQ_LE (g_acknr g) (snd_una t) then Ok (s, t)
  else if TCP_SEQ_LT (snd_nxt t) (g_acknr g) then Ok (tcp_tx_ack s t, t)
  else
    let t := t <| una_que ::= filter (fun m => g_acknr g <= m_id m) |> <| snd_una := g_acknr g |> in
    Ok (tcp_do_xmit s t).

(** The handler of [tmr_ack]. *)
Definition tcp_tmr_dly (s : tcps) (i : Z) : res tcps :=
  let! t := deref (t_socks s !! i) in
  if tmr_ack t then Ok (tcp_tx_ack (upd_tcp s i (t <| tmr_ack := false |>)) t) else Ok s.

Definition tcp_release (s : tcps) (i : Z) : res tcps :=
  let! t := deref (t_socks s !! i) in
  let! l := list_del (list_common s) i in
  let! b := bitmap_reset (t_bmp s) (t_lport t) in
  Ok (s <| list_common := l |> <| t_bmp := b |>).

(** The handler of [tmr_wait]. *)
Definition tcp_tmr_timewait (s : tcps) (i : Z) : res tcps :=
  let! t := deref (t_socks s !! i) in
  if tmr_wait t then tcp_release (upd_tcp s i (t <| tmr_wait := false |>)) i else Ok s.

(** ** Input, by state. Each handler stores the connection back. *)

Definition tcp_rx_sent (s : tcps) (i : Z) (t : tcp) (g : tcpseg) : tcps :=
  if flag TCP_F_ACK g && negb (g_acknr g =? snd_nxt t) then tcp_tx_reset s g
  else
    let '(s, t) :=
      if flag TCP_F_RST g && flag TCP_F_ACK g then tcp_exit_with s (t <| t_state := CLOSED |>) (- ECONNRESET) else (s, t) in
    if flag TCP_F_SYN g then
      let t := t <| rcv_irs := g_seqnr g |> <| rcv_nxt := u32 (g_seqnr g + 1) |> in
      let t := if flag TCP_F_ACK g then t <| snd_una := g_acknr g |> else t in
      if 0 <? i32 (snd_una t - snd_iss t) then
        let t := t <| t_state := ESTABLISHED |> in
        upd_tcp (try_unblk (tcp_tx_ack s t) (syn_waiter t)) i (t <| syn_waiter := None |>)
      else
        let t := t <| t_state := SYN_RCVD |> in
        upd_tcp (tcp_tx_ack s t) i t
    else upd_tcp s i t.

(** A passive connection leaves the lists of its parent and of the module. *)
Definition drop_passive (s : tcps) (i : Z) (t : tcp) : res tcps :=
  let! p := deref (t_ptcp t) in
  let! pt := deref (t_socks s !! p) in
  let! ch := list_del (t_pchd pt) i in
  let! l := list_del (list_common s) i in
  Ok ((upd_tcp s p (pt <| t_pchd := ch |>)) <| list_common := l |>).

Definition tcp_rx_rcvd (s : tcps) (i : Z) (t : tcp) (g : tcpseg) : res tcps :=
  if flag TCP_F_RST g then
    if t_passive t then drop_passive s i t
    else let '(s, t) := tcp_exit_with s t (- ECONNREFUSED) in Ok (upd_tcp s i t)
  else if flag TCP_F_SYN g && t_passive t then drop_passive s i t
  else if flag TCP_F_ACK g then
    if TCP_SEQ_LT (snd_una t) (g_acknr g) && TCP_SEQ_LE (g_acknr g) (snd_nxt t) then
      let t := t <| t_state := ESTABLISHED |> in
      match t_ptcp t with
      | Some p =>
          let s := upd_tcp s i t in
          let! pt := deref (t_socks s !! p) in
          Ok (try_unblk (upd_tcp s p (pt <| t_acpt ::= fun l => i :: l |> <| syn_waiter := None |>)) (syn_waiter pt))
      | None => Ok (try_unblk (upd_tcp s i (t <| syn_waiter := None |>)) (syn_waiter t))
      end
    else Ok (tcp_tx_reset s g)
  else Ok s.

(** [tcp_rx_data]; its result is not used by any caller. *)
Definition tcp_rx_data (s : tcps) (t : tcp) (g : tcpseg) : tcps * tcp :=
  if rcv_nxt t <? g_seqnr g then (tcp_tx_ack s t, t)
  else if g_seqnr g <? rcv_nxt t then (s, t)
  else if g_seqlen g =? 0 then (s, t)
  else
    let t := t <| tmr_ack := true |> <| rcv_nxt ::= fun n => u32 (n + g_seqlen g) |> in
    if m_len (g_buf g) =? 0 then (s, t)
    else
      let m := mbuf_push (mbuf_push (g_buf g) 20) 20 in
      (try_unblk s (rx_waiter t), t <| buf_que ::= fun l => l ++ [m] |> <| rx_waiter := None |>).

(** [new] is the number of the connection that is allocated. *)
Definition tcp_rx_listen (s : tcps) (i : Z) (t : tcp) (g : tcpseg) (new : Z) : tcps :=
  if flag TCP_F_RST g then s
  else if flag TCP_F_ACK g then tcp_tx_reset s g
  else if flag TCP_F_SYN g then
    let '(s, t) :=
      if t_backcnt t + 1 =? t_backlog t then (s, t <| t_backcnt ::= fun n => n + 1 |>) else (tcp_tx_reset s g, t) in
    let conn :=
      Tcp (t_nif t) (t_laddr t) (g_sip g) (t_lport t) (g_sport g) (t_mss t) true LISTEN 0 0 true (Some i) [] [] 0 0 0 0 0
          [] [] [] false false (u32 (g_seqnr g + 1)) (g_seqnr g) None None in
    let t := t <| t_pchd ::= fun l => new :: l |> in
    let s := (upd_tcp s i t) <| list_common ::= fun l => new :: l |> in
    tcp_tx_agree s new conn
  else s.

Definition tcp_rx_established (s : tcps) (i : Z) (t : tcp) (g : tcpseg) : res tcps :=
  if flag TCP_F_RST g then let '(s, t) := tcp_exit_with s t (- ECONNREFUSED) in Ok (upd_tcp s i t)
  else if flag TCP_F_SYN g then Ok (tcp_tx_ack s t)
  else
    let! r := if flag TCP_F_ACK g then tcp_x_ack s t g else Ok (s, t) in
    let '(s, t) := r in
    do! ASSERTK (negb (flag TCP_F_URG g)) in
    let '(s, t) := tcp_rx_data s t g in
    let t := if flag TCP_F_FIN g then t <| t_state := CLOSE_WAIT |> else t in
    Ok (upd_tcp s i t).

Definition tcp_rx_closewait (s : tcps) (i : Z) (t : tcp) (g : tcpseg) : res tcps :=
  let '(s, t) := if flag TCP_F_RST g then tcp_exit_with s t (- ECONNRESET) else (s, t) in
  if flag TCP_F_SYN g then Ok (upd_tcp (tcp_tx_ack s t) i t)
  else
    let! r := if flag TCP_F_ACK g then tcp_x_ack s t g else Ok (s, t) in
    let '(s, t) := r in
    do! ASSERTK (negb (flag TCP_F_URG g)) in
    Ok (upd_tcp s i t).

(** A reset in one of the last states: closed, and off the lists. *)
Definition reset_release (s : tcps) (i : Z) (t : tcp) (g : tcpseg) : res (tcps * tcp) :=
  if flag TCP_F_RST g then
    let t := t <| t_state := CLOSED |> in
    let! s := tcp_release (upd_tcp s i t) i in Ok (s, t)
  else Ok (s, t).

Definition tcp_rx_lastack (s : tcps) (i : Z) (t : tcp) (g : tcpseg) : res tcps :=
  let! r := reset_release s i t g in
  let '(s, t) := r in
  if flag TCP_F_SYN g then Ok (upd_tcp (tcp_tx_ack s t) i t)
  else
    let t := if flag TCP_F_ACK g then t <| t_state := CLOSED |> else t in
    do! ASSERTK (negb (flag TCP_F_URG g)) in
    Ok (upd_tcp s i t).

Definition tcp_rx_finwait (s : tcps) (i : Z) (t : tcp) (g : tcpseg) : res tcps :=
  if flag TCP_F_RST g then let '(s, t) := tcp_exit_with s t (- ECONNREFUSED) in Ok (upd_tcp s i t)
  else if flag TCP_F_SYN g then Ok (tcp_tx_ack s t)
  else
    let t := if flag TCP_F_ACK g && (g_acknr g =? snd_nxt t) && bool_decide (t_state t = FIN_WAIT1)
             then t <| t_state := FIN_WAIT2 |> else t in
    do! ASSERTK (negb (flag TCP_F_URG g)) in
    let '(s, t) := tcp_rx_data s t g in
    let t :=
      if flag TCP_F_FIN g then
        match t_state t with
        | FIN_WAIT1 => t <| t_state := CLOSING |>
        | FIN_WAIT2 => t <| t_state := TIME_WAIT |>
        | _ => t
        end
      else t in
    Ok (upd_tcp s i t).

(** [tcp_do_timewait] arms the timer that releases the connection. *)
Definition tcp_rx_closing (s : tcps) (i : Z) (t : tcp) (g : tcpseg) : res tcps :=
  let! r := reset_release s i t g in
  let '(s, t) := r in
  if flag TCP_F_SYN g then Ok (upd_tcp (tcp_tx_ack s t) i t)
  else
    let t := if flag TCP_F_ACK g then t <| t_state := TIME_WAIT |> <| tmr_wait := true |> else t in
    do! ASSERTK (negb (flag TCP_F_URG g)) in
    Ok (upd_tcp s i t).

Definition tcp_rx_timewait (s : tcps) (i : Z) (t : tcp) (g : tcpseg) : res tcps :=
  let! r := reset_release s i t g in
  let '(s, t) := r in
  if flag TCP_F_SYN g then Ok (upd_tcp (tcp_tx_ack s t) i t)
  else
    let '(s, t) := if flag TCP_F_ACK g then (tcp_tx_ack s t, t <| tmr_wait := true |>) else (s, t) in
    do! ASSERTK (negb (flag TCP_F_URG g)) in
    let t := if flag TCP_F_FIN g then t <| tmr_wait := true |> else t in
    Ok (upd_tcp s i t).

Definition find_common (s : tcps) (g : tcpseg) (i : Z) : bool :=
  match t_socks s !! i with
  | None => false
  | Some t =>
      ip_addr_cmp (t_raddr t) (g_sip g) &&
      (ip_addr_isany (Some (t_laddr t)) || ip_addr_cmp (t_laddr t) (g_dip g)) &&
      (t_rport t =? g_sport g) && (t_lport t =? g_dport g)
  end.

Definition find_listen (s : tcps) (g : tcpseg) (i : Z) : bool :=
  match t_socks s !! i with
  | None => false
  | Some t => (ip_addr_isany (Some (t_laddr t)) || ip_addr_cmp (t_laddr t) (g_dip g)) && (t_lport t =? g_dport g)
  end.

Definition find_tcb (s : tcps) (g : tcpseg) : option Z :=
  match List.find (find_common s g) (list_common s) with
  | Some i => Some i
  | None => List.find (find_listen s g) (list_listen s)
  end.

(** The switch of [sock_rx_tcp]. *)
Definition tcp_input (s : tcps) (i : Z) (g : tcpseg) (new : Z) : res tcps :=
  let! t := deref (t_socks s !! i) in
  match t_state t with
  | SYN_SENT => Ok (tcp_rx_sent s i t g)
  | SYN_RCVD => tcp_rx_rcvd s i t g
  | LISTEN => Ok (tcp_rx_listen s i t g new)
  | ESTABLISHED => tcp_rx_established s i t g
  | CLOSE_WAIT => tcp_rx_closewait s i t g
  | LAST_ACK => tcp_rx_lastack s i t g
  | FIN_WAIT1 | FIN_WAIT2 => tcp_rx_finwait s i t g
  | CLOSING => tcp_rx_closing s i t g
  | TIME_WAIT => tcp_rx_timewait s i t g
  | CLOSED => Ok (tcp_tx_reset s g)
  end.

(** The segment in the packet [m], behind its IP header, and what the conversions leave there. *)
Definition tcp_parse (m : mbuf) (nif sip dip : Z) : res tcpseg :=
  let! sport := hdr16 m 0 in
  let! dport := hdr16 m 2 in
  let! seqnr := hdr32 m 4 in
  let! acknr := hdr32 m 8 in
  let! flgs := hdr8 m 13 in
  let! window := hdr16 m 14 in
  let! urgptr := hdr16 m 18 in
  let! m := set_hdrs m [(0, le16 (ntohs sport)); (2, le16 (ntohs dport)); (4, le32 (ntohl seqnr)); (8, le32 (ntohl acknr));
                        (14, le16 (ntohs window)); (18, le16 (ntohs urgptr))] in
  let m := mbuf_pull m 20 in
  let bit k := Z.b2z (Z.testbit flgs k) in
  Ok (Seg (ntohl seqnr) (u32 (m_len m + bit 1 + bit 0)) sip dip nif (m <| m_id := ntohl seqnr |>)
          (ntohs sport) (ntohs dport) (ntohl acknr) flgs).

Definition sock_rx_tcp (s : tcps) (nif sip dip : Z) (m : mbuf) (new : Z) : res (Z * tcps) :=
  let! d := ld (m_buf m) (m_head m) (Z.to_nat (i32 (m_len m))) in
  if negb (net_cksum_tcp d sip dip (i32 (m_len m)) =? 0) then Ok (0, s)
  else
    let! g := tcp_parse m nif sip dip in
    match find_tcb s g with
    | None => Ok (1, tcp_tx_reset s g)
    | Some i => let! s := tcp_input s i g new in Ok (1, s)
    end.

(** ** System calls *)

Definition tcp_ck_lport (b : bitmap) (t : tcp) : res (bitmap * tcp) :=
  if negb (t_lport t =? 0) then Ok (b, t)
  else
    let! r := bitmap_find b in
    let '(port, b) := r in
    if i32 port =? -1 then Fault Panicked else Ok (b, t <| t_lport := u16 port |>).

(** The fields it does not set are set before they are read. *)
Definition tcp_socket (w : net) (s : tcps) (i : Z) : res tcps :=
  let! n := nif_find_default w in
  let t := Tcp n 0 0 0 0 DEFMSS true CLOSED 0 0 false None [] [] 0 0 0 0 0 [] [] [] false false 0 0 None None in
  Ok ((upd_tcp s i t) <| list_common ::= fun l => l ++ [i] |>).

Definition tcp_bind (w : net) (s : tcps) (i : Z) (addr : option sockaddr_in) : res (Z * tcps) :=
  match addr with
  | None => Ok (- EDESTADDRREQ, s)
  | Some a =>
      let! t := deref (t_socks s !! i) in
      let port := ntohs (sa_port a) in
      let finish (b : bitmap) (t : tcp) : res (Z * tcps) :=
        let s := (upd_tcp s i t) <| t_bmp := b |> in
        if ip_addr_isany (Some (sa_addr a)) then
          let! d := nif_find_default w in
          let! n := aget (nifs w) d in
          Ok (0, upd_tcp s i (t <| t_laddr := n_ip n |>))
        else
          match nif_find_byip4 w (sa_addr a) None with
          | None => Ok (- EADDRNOTAVAIL, s)
          | Some _ => Ok (0, upd_tcp s i (t <| t_laddr := sa_addr a |>))
          end in
      if negb (port =? 0) then
        let! used := bitmap_test (t_bmp s) port in
        if used : bool then Ok (- EADDRINUSE, s) else finish (t_bmp s) (t <| t_lport := port |>)
      else let! r := tcp_ck_lport (t_bmp s) t in finish (fst r) (snd r)
  end.

Definition tcp_listen (s : tcps) (i backlog : Z) : res tcps :=
  let! t := deref (t_socks s !! i) in
  let! l := list_del (list_common s) i in
  Ok ((upd_tcp s i (t <| t_state := LISTEN |> <| t_backlog := backlog |>)) <| list_common := l |>
        <| list_listen ::= fun l => i :: l |>).

(** [block_as]: only one task may wait. *)
Definition free_slot (w : option Z) : res unit := ASSERTK (match w with None => true | Some _ => false end).

Definition nonempty {A : Type} (l : list A) : res unit :=
  match l with [] => Fault OutOfBounds | _ => Ok tt end.

(** The loop of [tcp_accept] on the list of waiting connections, newest first: [None] when the
    list is empty and the task has to wait. *)
Fixpoint accept_pop (fuel : nat) (s : tcps) (l : list Z) : res (option (Z * list Z)) :=
  match fuel with
  | O => Fault OutOfFuel
  | S fuel =>
      match last l with
      | None => Ok None
      | Some c =>
          let l := take (length l - 1) l in
          let! conn := deref (t_socks s !! c) in
          if bool_decide (t_state conn = ESTABLISHED) then Ok (Some (c, l)) else accept_pop fuel s l
      end
  end.

(** What follows the loop. [fd] is what [socket_makefd] returns; the address reported has the
    port of the listener. *)
Definition accept_finish (s : tcps) (i c : Z) (l : list Z) (addr len : bool) (fd : Z) : res (Z * option sockaddr_in * tcps) :=
  let! t := deref (t_socks s !! i) in
  let! conn := deref (t_socks s !! c) in
  if xorb addr len then Ok (- EINVAL, None, upd_tcp s i (t <| t_acpt := l |>))
  else
    let t := if fd <? 0 then t <| t_acpt := l ++ [c] |> else t <| t_acpt := l |> <| t_backcnt ::= fun n => n - 1 |> in
    Ok (fd, if addr then Some (SockaddrIn (t_rport t) (t_raddr conn)) else None, upd_tcp s i t).

(** [tcp_accept] up to the wait ([None]); [addr] and [len] tell which pointers are not NULL. *)
Definition tcp_accept (s : tcps) (i p : Z) (addr len : bool) (fd : Z) : res (option (Z * option sockaddr_in) * tcps) :=
  let! t := deref (t_socks s !! i) in
  let! r := accept_pop (S (length (t_acpt t))) s (t_acpt t) in
  match r with
  | None =>
      do! free_slot (syn_waiter t) in
      Ok (None, upd_tcp s i (t <| t_acpt := [] |> <| syn_waiter := Some p |>))
  | Some (c, l) =>
      let! x := accept_finish s i c l addr len fd in
      let '(ret, a, s) := x in
      Ok (Some (ret, a), s)
  end.

(** After the wake-up the list is popped without a test: an empty one gives its own head. *)
Definition tcp_accept_resume (s : tcps) (i p : Z) (addr len : bool) (fd : Z) : res (option (Z * option sockaddr_in) * tcps) :=
  let! t := deref (t_socks s !! i) in
  do! nonempty (t_acpt t) in
  tcp_accept (upd_tcp s i (t <| syn_waiter := None |>)) i p addr len fd.

Definition tcp_connect (s : tcps) (i p : Z) (a : sockaddr_in) (len : Z) : res (option Z * tcps) :=
  let! t := deref (t_socks s !! i) in
  if negb (t_rport t =? 0) then Ok (Some (- EINVAL), s)
  else if len <? SOCKADDR_IN_SIZE then Ok (Some (- EINVAL), s)
  else if sa_port a =? 0 then Ok (Some (- EINVAL), s)
  else
    let t := t <| t_raddr := sa_addr a |> <| t_rport := ntohs (sa_port a) |> in
    let! r := tcp_ck_lport (t_bmp s) t in
    let '(b, t) := r in
    do! free_slot (syn_waiter t) in
    Ok (None, tcp_tx_setup (s <| t_bmp := b |>) i (t <| syn_waiter := Some p |>)).

Definition tcp_connect_resume (s : tcps) (i : Z) : res (Z * tcps) :=
  let! t := deref (t_socks s !! i) in
  Ok (t_errno t, upd_tcp s i (t <| syn_waiter := None |>)).

Definition SHUT_RD : Z := 0.
Definition SHUT_WR : Z := 1.
Definition SHUT_RDWR : Z := 2.

Definition tcp_shutdown (s : tcps) (i how : Z) : res (Z * tcps) :=
  let! t := deref (t_socks s !! i) in
  let set f (t : tcp) := t <| t_shutdown ::= fun x => Z.lor x f |> in
  if how =? SHUT_RD then Ok (0, upd_tcp s i (set TCP_SHUT_RD t))
  else if how =? SHUT_WR then Ok (0, upd_tcp s i (set TCP_SHUT_WR t))
  else if how =? SHUT_RDWR then Ok (0, upd_tcp s i (set TCP_SHUT_WR (set TCP_SHUT_RD t)))
  else Ok (- EINVAL, s).

Definition tcp_getsockname (s : tcps) (i len : Z) (junk : list Z) : res (Z * list Z) :=
  let! t := deref (t_socks s !! i) in Ok (0, sockname_bytes (htons (t_lport t)) (t_laddr t) junk len).

Definition tcp_getpeername (s : tcps) (i len : Z) (junk : list Z) : res (Z * list Z) :=
  let! t := deref (t_socks s !! i) in Ok (0, sockname_bytes (htons (t_rport t)) (t_raddr t) junk len).

(** [LIST_MF(&tcp->snd_que.prev)] is not a packet: its [dlen] is the eight bytes of [snd_iss] and
    [snd_una], and putting data into it would overwrite the connection. *)
Definition prev_dlen (t : tcp) : Z := snd_iss t + 2 ^ 32 * snd_una t.

Fixpoint tcp_makeseg (fuel : nat) (t : tcp) (data : list Z) : res tcp :=
  match fuel with
  | O => Fault OutOfFuel
  | S fuel =>
      match data with
      | [] => Ok t
      | _ =>
          let len := Z.of_nat (length data) in
          let seglen := t_mss t in
          if t_nagle t && negb (bool_decide (snd_que t = [])) && (prev_dlen t <? seglen) then Fault OutOfBounds
          else
            let cpy := MIN (MIN len seglen) (seglen - m_dlen mb0) in
            let! m := mbuf_put mb0 (take (Z.to_nat cpy) data) in
            tcp_makeseg fuel (t <| snd_que ::= fun q => q ++ [m] |>) (drop (Z.to_nat cpy) data)
      end
  end.

Definition tcp_sendmsg (s : tcps) (i : Z) (data : list Z) : res (Z * tcps) :=
  let! t := deref (t_socks s !! i) in
  let! t := tcp_makeseg (S (length data)) t data in
  let '(s, t) := tcp_do_xmit s t in
  Ok (Z.of_nat (length data), upd_tcp s i t).

(** The loop of [tcp_recvmsg]: [rem] bytes of the buffer are left, [got] has been stored. *)
Inductive rx_result :=
| RxDone (ret : Z) (got : list Z)
| RxWait (rem : Z) (got : list Z).

Fixpoint recv_loop (fuel : nat) (t : tcp) (rem : Z) (got : list Z) : res (rx_result * tcp) :=
  match fuel with
  | O => Fault OutOfFuel
  | S fuel =>
      match buf_que t with
      | [] => Ok (RxWait rem got, t)
      | m :: q =>
          if t_errno t <? 0 then Ok (RxDone (t_errno t) got, t)
          else
            let m := mbuf_pull m 20 in
            let! flgs := hdr8 m 13 in
            let m := mbuf_pull m 20 in
            let wind := negb (Z.land flgs TCP_F_PSH =? 0) in
            let cpy := MIN rem (m_len m) in
            let! d := ld (m_buf m) (m_head m) (Z.to_nat cpy) in
            let m := mbuf_pull m cpy in
            let t := t <| buf_que := if m_len m =? 0 then q else m :: q |> in
            if wind then Ok (RxDone (Z.of_nat (length got) + cpy) (got ++ d), t)
            else recv_loop fuel t (rem - cpy) (got ++ d)
      end
  end.

Definition tcp_recvmsg (fuel : nat) (s : tcps) (i p len : Z) : res (rx_result * tcps) :=
  let! t := deref (t_socks s !! i) in
  if len =? 0 then Ok (RxDone 0 [], s)
  else
    let! r := recv_loop fuel t len [] in
    match r with
    | (RxWait rem got, t) => do! free_slot (rx_waiter t) in Ok (RxWait rem got, upd_tcp s i (t <| rx_waiter := Some p |>))
    | (RxDone ret got, t) => Ok (RxDone ret got, upd_tcp s i t)
    end.

(** After the wake-up: the error, or the first packet of a queue that must not be empty. *)
Definition tcp_recvmsg_resume (fuel : nat) (s : tcps) (i p rem : Z) (got : list Z) : res (rx_result * tcps) :=
  let! t := deref (t_socks s !! i) in
  let t := t <| rx_waiter := None |> in
  if t_errno t <? 0 then Ok (RxDone (t_errno t) got, upd_tcp s i t)
  else
    do! nonempty (buf_que t) in
    let! r := recv_loop fuel t rem got in
    match r with
    | (RxWait rem got, t) => do! free_slot (rx_waiter t) in Ok (RxWait rem got, upd_tcp s i (t <| rx_waiter := Some p |>))
    | (RxDone ret got, t) => Ok (RxDone ret got, upd_tcp s i t)
    end.

(** [sock_tcp_init]; the units [mem] are not cleared. *)
Definition sock_tcp_init (mem : list Z) (tick : Z) : res tcps :=
  let! b := deref (bitmap_init (Some (Bitmap [] 0)) None MAX_PORT (Some mem) true) in
  let! b := bitmap_set b 0 in
  Ok (Tcps ∅ [] [] b tick [] []).

(** ** The receiving half *)

(** What a handler that only sends may change of a connection. *)
Record keeps_rx (t t' : tcp) : Prop := {
  kr_nxt : rcv_nxt t' = rcv_nxt t;
  kr_buf : buf_que t' = buf_que t;
  kr_wait : rx_waiter t' = rx_waiter t;
  kr_state : t_state t' = t_state t \/ (t_state t = ESTABLISHED /\ t_state t' = FIN_WAIT1) \/
             (t_state t = CLOSE_WAIT /\ t_state t' = LAST_ACK) }.

Lemma keeps_refl t : keeps_rx t t.
Proof. by split; auto. Qed.

Lemma xmit_loop_keeps q : forall s t,
  let '(s', t') := xmit_loop s t q in
  keeps_rx t t' /\ t_state t' = t_state t /\ t_socks s' = t_socks s /\ t_woken s' = t_woken s /\ list_common s' = list_common s.
Proof.
  induction q as [|m q IH]; intros s t; cbn [xmit_loop tcp_tx_seg].
  - split_and!; try done; by split; auto.
  - cbv zeta. set (t1 := upd una_que _ _). set (s1 := send _ _ _ _ _ _).
    destruct (t_nagle t1 && _); [split_and!; try done; by split; auto|].
    specialize (IH s1 t1). destruct (xmit_loop s1 t1 q) as [s' t']. destruct IH as ([K1 K2 K3 K4] & Hst & ? & ? & ?).
    split_and!; try done; split; try done; by left.
Qed.

Lemma do_xmit_keeps s t :
  let '(s', t') := tcp_do_xmit s t in
  keeps_rx t t' /\ t_socks s' = t_socks s /\ t_woken s' = t_woken s /\ list_common s' = list_common s.
Proof.
  unfold tcp_do_xmit. destruct (t_nagle t && _); [split_and!; try done; apply keeps_refl|].
  pose proof (xmit_loop_keeps (snd_que t) s (t <| tmr_ack := false |>)) as H.
  destruct (xmit_loop _ _ _) as [s1 t1]. destruct H as ([K1 K2 K3 K4] & Hst & Hs & Hw & Hl). cbn in *.
  destruct (_ && _ && _); [|split_and!; try done; split; auto].
  unfold tcp_tx_fin, send. cbn. split_and!; try done.
  split; cbn; rewrite <- ?Hst; destruct (t_state t1) eqn:E; cbn; auto; rewrite ?E; auto.
Qed.

Lemma x_ack_keeps s t g :
  flag TCP_F_ACK g = true ->
  total (tcp_x_ack s t g) (fun r => keeps_rx t (snd r) /\ t_socks (fst r) = t_socks s /\ t_woken (fst r) = t_woken s /\
    list_common (fst r) = list_common s).
Proof.
  intros Ha. unfold tcp_x_ack. rewrite Ha. cbn [ASSERTK res_bind].
  destruct (TCP_SEQ_LE _ _); [apply total_Ok; split_and!; try done; apply keeps_refl|].
  destruct (TCP_SEQ_LT _ _).
  - apply total_Ok. split_and!; cbn; try (apply keeps_refl); unfold tcp_tx_ack, send; by case_decide.
  - apply total_Ok. set (t1 := t <| una_que ::= _ |> <| snd_una := _ |>). pose proof (do_xmit_keeps s t1) as H.
    destruct (tcp_do_xmit s t1) as [s' t']. destruct H as ([K1 K2 K3 K4] & ? & ? & ?). split_and!; try done.
Qed.


(** The bytes waiting for the reader: each packet is kept with forty bytes of headers. *)
Definition received (t : tcp) : list Z := concat (map (fun m => drop 40 (packet m)) (buf_que t)).

(** [g] carries the [len] bytes at offset [off] of the stream [data] that starts at [b]. *)
Record data_seg (b : Z) (data : list Z) (g : tcpseg) (off len : nat) : Prop := {
  ds_seq : g_seqnr g = b + Z.of_nat off;
  ds_len : g_seqlen g = Z.of_nat len;
  ds_pos : (0 < len)%nat;
  ds_in : (off + len <= length data)%nat;
  ds_buf : exists pre h post, holds (g_buf g) (pre ++ h) (take len (drop off data)) post /\ length h = 40%nat;
  ds_rst : flag TCP_F_RST g = false;
  ds_syn : flag TCP_F_SYN g = false;
  ds_urg : flag TCP_F_URG g = false }.

(** The part of the stream accepted so far grows by the segments that continue it. *)
Definition advance (k : nat) (seg : nat * nat) : nat := if (fst seg =? k)%nat then (k + snd seg)%nat else k.

(** A segment that continues the stream is queued. *)
Lemma rx_data_accept s t g pre h c post :
  rcv_nxt t = g_seqnr g -> g_seqlen g = Z.of_nat (length c) -> (0 < length c)%nat -> holds (g_buf g) (pre ++ h) c post -> length h = 40%nat ->
  exists m, tcp_rx_data s t g = (try_unblk s (rx_waiter t),
      t <| tmr_ack := true |> <| rcv_nxt ::= fun n => u32 (n + Z.of_nat (length c)) |> <| buf_que ::= fun l => l ++ [m] |> <| rx_waiter := None |>) /\
    drop 40 (packet m) = c.
Proof.
  intros Hn Hl Hc Hb Hh. unfold tcp_rx_data. rewrite Hn, Z.ltb_irrefl, Hl, (h_len _ _ _ _ Hb), !(proj2 (Z.eqb_neq _ 0)) by lia.
  eexists. split; [reflexivity|]. rewrite <- (take_drop 20 h), app_assoc in Hb. apply push_holds, push_holds in Hb.
  rewrite length_take, length_drop, Hh in Hb. change (Z.of_nat (Init.Nat.min 20 40)) with 20 in Hb.
  change (Z.of_nat (40 - 20)) with 20 in Hb. rewrite (holds_packet _ _ _ _ Hb), app_assoc, take_drop, drop_app_length' by lia. done.
Qed.

Lemma received_snoc t m c :
  drop 40 (packet m) = c -> received (t <| buf_que ::= fun l => l ++ [m] |>) = received t ++ c.
Proof. intros <-. unfold received. cbn. rewrite map_app, concat_app. cbn. by rewrite app_nil_r. Qed.

Lemma tx_ack_socks s t : t_socks (tcp_tx_ack s t) = t_socks s.
Proof. unfold tcp_tx_ack, send. by case_decide. Qed.

Lemma rx_data_eq s t g b data off len k :
  data_seg b data g off len -> rcv_nxt t = b + Z.of_nat k -> received t = take k data -> (k <= length data)%nat ->
  0 <= b -> b + Z.of_nat (length data) < 2 ^ 32 ->
  let '(s', t') := tcp_rx_data s t g in
  rcv_nxt t' = b + Z.of_nat (advance k (off, len)) /\ received t' = take (advance k (off, len)) data /\
  (advance k (off, len) <= length data)%nat /\ t_state t' = t_state t.
Proof.
  intros [Hs Hl Hp Hin (pre & h & post & Hb & Hh) _ _ _] Hn Hr Hk Hb0 Hb1. unfold advance. cbn [fst snd].
  destruct (Nat.eqb_spec off k) as [->|Hne].
  - assert (length (take len (drop k data)) = len) as Ll by (rewrite length_take, length_drop; lia).
    destruct (rx_data_accept s t g pre h (take len (drop k data)) post) as (m & -> & Hm); [congruence|by rewrite Ll|by rewrite Ll|done|done|].
    cbn. rewrite Hn, Ll, wrap_small by lia. split_and!; [lia| |lia|done].
    change (received (t <| buf_que ::= fun l => l ++ [m] |>) = take (k + len) data). rewrite (received_snoc t m _ Hm), Hr. apply take_take_drop.
  - unfold tcp_rx_data. destruct (Z.ltb_spec (rcv_nxt t) (g_seqnr g)); [by split_and!|].
    destruct (Z.ltb_spec (g_seqnr g) (rcv_nxt t)); [by split_and!|]. exfalso. lia.
Qed.

(** States in which data is accepted. *)
Definition receiving (st : state) : Prop := st = ESTABLISHED \/ st = FIN_WAIT1 \/ st = FIN_WAIT2.

(** Connection [i] has received exactly the first [k] bytes of the stream. *)
Definition rx_ok (i b : Z) (data : list Z) (k : nat) (s : tcps) : Prop :=
  exists t, t_socks s !! i = Some t /\ receiving (t_state t) /\ rcv_nxt t = b + Z.of_nat k /\ received t = take k data /\
    (k <= length data)%nat.

Lemma rx_ok_upd i b data k s t :
  receiving (t_state t) -> rcv_nxt t = b + Z.of_nat k -> received t = take k data -> (k <= length data)%nat ->
  rx_ok i b data k (upd_tcp s i t).
Proof. intros. exists t. split; [cbn -[insert lookup]; apply lookup_insert_eq|done]. Qed.

Lemma established_rx_ok s i t g new b data off len k :
  data_seg b data g off len -> flag TCP_F_FIN g = false -> 0 <= b -> b + Z.of_nat (length data) < 2 ^ 32 ->
  t_socks s !! i = Some t -> t_state t = ESTABLISHED -> rcv_nxt t = b + Z.of_nat k -> received t = take k data -> (k <= length data)%nat ->
  total (tcp_input s i g new) (rx_ok i b data (advance k (off, len))).
Proof.
  intros Hg Hf Hb0 Hb1 Ht Hst Hn Hr Hk. unfold tcp_input. rewrite Ht. cbn [deref res_bind]. rewrite Hst. unfold tcp_rx_established.
  rewrite (ds_rst _ _ _ _ _ Hg), (ds_syn _ _ _ _ _ Hg). eapply total_bind with (Q := fun r => keeps_rx t (snd r)).
  { destruct (flag TCP_F_ACK g) eqn:Ea; [|apply total_Ok; apply keeps_refl].
    eapply total_mono; [by apply x_ack_keeps|]. by intros r [? _]. }
  intros [s1 t1] [K1 K2 _ K4]. cbn in K1, K2, K4. rewrite (ds_urg _ _ _ _ _ Hg). cbn [negb ASSERTK res_bind].
  pose proof (rx_data_eq s1 t1 g b data off len k Hg ltac:(congruence) ltac:(unfold received in *; by rewrite K2) Hk Hb0 Hb1) as Hd.
  destruct (tcp_rx_data s1 t1 g) as [s2 t2]. destruct Hd as (D1 & D2 & D3 & D4). rewrite Hf. apply total_Ok.
  apply rx_ok_upd; try done. rewrite D4, Hst in *. unfold receiving. destruct K4 as [->|[[_ ->]|[? _]]]; auto. discriminate.
Qed.

Lemma finwait_rx_ok s i t g new b data off len k :
  data_seg b data g off len -> flag TCP_F_FIN g = false -> 0 <= b -> b + Z.of_nat (length data) < 2 ^ 32 ->
  t_socks s !! i = Some t -> t_state t = FIN_WAIT1 \/ t_state t = FIN_WAIT2 ->
  rcv_nxt t = b + Z.of_nat k -> received t = take k data -> (k <= length data)%nat ->
  total (tcp_input s i g new) (rx_ok i b data (advance k (off, len))).
Proof.
  intros Hg Hf Hb0 Hb1 Ht Hst Hn Hr Hk. unfold tcp_input. rewrite Ht. cbn [deref res_bind].
  assert (total (tcp_rx_finwait s i t g) (rx_ok i b data (advance k (off, len)))) as Hx; [|by destruct Hst as [E|E]; rewrite E].
  unfold tcp_rx_finwait. rewrite (ds_rst _ _ _ _ _ Hg), (ds_syn _ _ _ _ _ Hg). cbv zeta.
  set (t1 := if _ && _ && _ then _ else t).
  assert (receiving (t_state t1) /\ rcv_nxt t1 = rcv_nxt t /\ received t1 = received t) as (Hst1 & Hn1 & Hr1).
  { unfold t1. destruct (_ && _ && _); split_and!; try done; unfold receiving; cbn; tauto. }
  rewrite (ds_urg _ _ _ _ _ Hg). cbn [negb ASSERTK res_bind].
  pose proof (rx_data_eq s t1 g b data off len k Hg ltac:(congruence) ltac:(congruence) Hk Hb0 Hb1) as Hd.
  destruct (tcp_rx_data s t1 g) as [s2 t2]. destruct Hd as (D1 & D2 & D3 & D4). rewrite Hf. apply total_Ok.
  apply rx_ok_upd; try done. by rewrite D4.
Qed.

(** The segments [gs] arrive one after the other. *)
Fixpoint input_all (s : tcps) (i new : Z) (gs : list tcpseg) : res tcps :=
  match gs with
  | [] => Ok s
  | g :: gs => let! s := tcp_input s i g new in input_all s i new gs
  end.

(** C1: data segments of a stream that arrive in any order, lost, repeated or overlapping, with
    any acknowledgements in them, leave exactly a prefix of the stream for the reader: the
    accepted part grows by the segments that continue it and by nothing else. *)
Theorem tcp_stream_in_order i b data gs offs : forall s k new,
  0 <= b -> b + Z.of_nat (length data) < 2 ^ 32 -> rx_ok i b data k s ->
  Forall2 (fun g ol => data_seg b data g (fst ol) (snd ol) /\ flag TCP_F_FIN g = false) gs offs ->
  total (input_all s i new gs) (rx_ok i b data (fold_left advance offs k)).
Proof.
  revert offs. induction gs as [|g gs IH]; intros offs s k new Hb0 Hb1 Hok Hgs; apply Forall2_length in Hgs as Hlen;
    destruct offs as [|[off len] offs]; try discriminate Hlen; cbn [input_all fold_left]; [by apply total_Ok|].
  apply Forall2_cons in Hgs as [[Hg Hf] Hgs]. destruct Hok as (t & Ht & Hst & Hn & Hr & Hk).
  apply total_bind with (Q := rx_ok i b data (advance k (off, len))); [|intros s' Hs'; by apply IH].
  destruct Hst as [Hst|Hst]; [by eapply established_rx_ok|by eapply finwait_rx_ok].
Qed.

(** ** A FIN that overtakes data *)

(** States after the peer's FIN, in which no data is accepted. *)
Definition half_closed (i : Z) (q : list mbuf) (s : tcps) : Prop :=
  exists t, t_socks s !! i = Some t /\ buf_que t = q /\ (t_state t = CLOSE_WAIT \/ t_state t = LAST_ACK \/ t_state t = CLOSED).

Definition plain (g : tcpseg) : Prop := flag TCP_F_RST g = false /\ flag TCP_F_SYN g = false /\ flag TCP_F_URG g = false.

Lemma upd_half_closed i q s t :
  buf_que t = q -> t_state t = CLOSE_WAIT \/ t_state t = LAST_ACK \/ t_state t = CLOSED -> half_closed i q (upd_tcp s i t).
Proof. intros. exists t. split; [cbn -[insert lookup]; apply lookup_insert_eq|done]. Qed.

Lemma half_closed_step i q s g new : plain g -> half_closed i q s -> total (tcp_input s i g new) (half_closed i q).
Proof.
  intros (Hr & Hs & Hu) (t & Ht & Hq & Hst). unfold tcp_input. rewrite Ht. cbn [deref res_bind].
  destruct Hst as [E|[E|E]]; rewrite E.
  - unfold tcp_rx_closewait. rewrite Hr, Hs. eapply total_bind with (Q := fun r => keeps_rx t (snd r)).
    { destruct (flag TCP_F_ACK g) eqn:Ea; [|apply total_Ok; apply keeps_refl].
      eapply total_mono; [by apply x_ack_keeps|]. by intros r [? _]. }
    intros [s1 t1] [K1 K2 _ K4]. cbn in K1, K2, K4. rewrite Hu. cbn [negb ASSERTK res_bind]. apply total_Ok.
    apply upd_half_closed; [congruence|]. rewrite E in K4. destruct K4 as [?|[[? _]|[_ ?]]]; auto. discriminate.
  - unfold tcp_rx_lastack, reset_release. rewrite Hr, Hs. cbn [res_bind]. rewrite Hu. cbn [negb ASSERTK res_bind].
    apply total_Ok. apply upd_half_closed; destruct (flag TCP_F_ACK g); cbn; auto.
  - apply total_Ok. exists t. auto.
Qed.

Lemma half_closed_all i q new gs : forall s,
  Forall plain gs -> half_closed i q s -> total (input_all s i new gs) (half_closed i q).
Proof.
  induction gs as [|g gs IH]; intros s Hg Hs; cbn [input_all]; [by apply total_Ok|]. apply Forall_cons in Hg as [Hg Hgs].
  eapply total_bind; [by apply half_closed_step|]. intros s' Hs'. by apply IH.
Qed.

(** a segment with FIN that arrives before data sent earlier closes the receiving side all the
    same: whatever arrives afterwards, the missing data included, never reaches the reader. *)
Theorem tcp_early_fin_loses_data s i t g new gs :
  t_socks s !! i = Some t -> t_state t = ESTABLISHED -> flag TCP_F_FIN g = true -> plain g -> rcv_nxt t < g_seqnr g ->
  Forall plain gs -> total (input_all s i new (g :: gs)) (half_closed i (buf_que t)).
Proof.
  intros Ht Hst Hf (Hr & Hs & Hu) Hn Hgs. cbn [input_all].
  apply total_bind with (Q := half_closed i (buf_que t)); [|intros s' Hs'; by apply half_closed_all].
  unfold tcp_input. rewrite Ht. cbn [deref res_bind]. rewrite Hst. unfold tcp_rx_established. rewrite Hr, Hs.
  eapply total_bind with (Q := fun r => keeps_rx t (snd r)).
  { destruct (flag TCP_F_ACK g) eqn:Ea; [|apply total_Ok; apply keeps_refl].
    eapply total_mono; [by apply x_ack_keeps|]. by intros r [? _]. }
  intros [s1 t1] [K1 K2 _ _]. cbn in K1, K2. rewrite Hu. cbn [negb ASSERTK res_bind]. unfold tcp_rx_data.
  rewrite K1, (proj2 (Z.ltb_lt _ _) Hn), Hf. apply total_Ok. apply upd_half_closed; cbn; auto.
Qed.

(** ** Reading *)

(** A queued packet: headers with the flags [f], then the bytes [p]. *)
Definition rx_packet (m : mbuf) (f : Z) (p : list Z) : Prop :=
  exists pre h1 h2 h3 post, holds m pre (h1 ++ (h2 ++ f :: h3) ++ p) post /\ length h1 = 20%nat /\ length h2 = 13%nat /\
    length h3 = 6%nat.

(** One turn of the loop. *)
Lemma recv_turn m f p cpy :
  rx_packet m f p -> 0 <= cpy <= Z.of_nat (length p) ->
  let m1 := mbuf_pull m 20 in
  let m2 := mbuf_pull m1 20 in
  hdr8 m1 13 = Ok f /\ m_len m2 = Z.of_nat (length p) /\
  ld (m_buf m2) (m_head m2) (Z.to_nat cpy) = Ok (take (Z.to_nat cpy) p) /\
  exists pre post, holds (mbuf_pull m2 cpy) pre (drop (Z.to_nat cpy) p) post.
Proof.
  intros (pre & h1 & h2 & h3 & post & Hm & L1 & L2 & L3) Hc m1 m2.
  pose proof (pull_holds m pre h1 _ post Hm) as Hm1. rewrite L1 in Hm1. change (mbuf_pull m (Z.of_nat 20)) with m1 in Hm1.
  assert (length (h2 ++ f :: h3) = 20)%nat as L20 by (rewrite length_app; cbn; lia).
  pose proof (pull_holds m1 _ (h2 ++ f :: h3) p post Hm1) as Hm2. rewrite L20 in Hm2. change (mbuf_pull m1 (Z.of_nat 20)) with m2 in Hm2.
  split; [apply (hdr8_holds m1 (pre ++ h1) h2 f (h3 ++ p) post); [by rewrite <- app_assoc in Hm1|by rewrite L2]|].
  split; [apply Hm2|]. pose proof Hm2 as [Hb Hh _ _]. rewrite <- (take_drop (Z.to_nat cpy) p), <- (app_assoc (take _ p)) in Hb.
  assert (length (take (Z.to_nat cpy) p) = Z.to_nat cpy) as Lc by (rewrite length_take; lia). split.
  - rewrite Hb, Hh. rewrite <- Lc at 3. apply ld_app.
  - rewrite <- (take_drop (Z.to_nat cpy) p) in Hm2. apply pull_holds in Hm2. rewrite Lc in Hm2.
    rewrite Z2Nat.id in Hm2 by lia. eauto.
Qed.

Definition psh (f : Z) : bool := negb (Z.land f TCP_F_PSH =? 0).

Lemma recv_loop_turn fuel t m q f p rem got :
  buf_que t = m :: q -> 0 <= t_errno t -> rx_packet m f p -> 0 <= rem ->
  let cpy := Z.min rem (Z.of_nat (length p)) in
  exists m', recv_loop (S fuel) t rem got =
    (let t := t <| buf_que := if cpy =? Z.of_nat (length p) then q else m' :: q |> in
     if psh f then Ok (RxDone (Z.of_nat (length got) + cpy) (got ++ take (Z.to_nat cpy) p), t)
     else recv_loop fuel t (rem - cpy) (got ++ take (Z.to_nat cpy) p)) /\
    exists pre post, holds m' pre (drop (Z.to_nat cpy) p) post.
Proof.
  intros Hq He Hm Hrem cpy. destruct (recv_turn m f p cpy Hm) as (E1 & E2 & E3 & pre & post & Hm'); [lia|].
  eexists. split; [|by eauto]. cbn [recv_loop]. rewrite Hq, (proj2 (Z.ltb_ge _ _) He), E1. cbn [res_bind].
  rewrite E2, MIN_min. fold cpy. rewrite E3. cbn [res_bind]. rewrite (h_len _ _ _ _ Hm'), length_drop.
  assert (0 <= cpy <= Z.of_nat (length p)) as Hc by (subst cpy; lia). clearbody cpy.
  set (left := Z.of_nat (length p - Z.to_nat cpy)). destruct (Z.eqb_spec cpy (Z.of_nat (length p))).
  - by rewrite (proj2 (Z.eqb_eq left 0)) by lia.
  - by rewrite (proj2 (Z.eqb_neq left 0)) by lia.
Qed.

(** a read whose buffer is large enough returns everything up to and including the first
    segment with PSH, in order, and leaves the rest of the queue alone. *)
Theorem tcp_recv_upto_push s i p len t ms m q ps p' fl fs :
  t_socks s !! i = Some t -> buf_que t = ms ++ m :: q -> 0 <= t_errno t ->
  Forall2 (fun m fp => rx_packet m (fst fp) (snd fp) /\ psh (fst fp) = false) ms (zip fs ps) -> length fs = length ps ->
  rx_packet m fl p' -> psh fl = true -> 0 < len -> Z.of_nat (length (concat ps) + length p') <= len ->
  tcp_recvmsg (S (length ms)) s i p len =
    Ok (RxDone (Z.of_nat (length (concat ps ++ p'))) (concat ps ++ p'), upd_tcp s i (t <| buf_que := q |>)).
Proof.
  intros Ht Hq He Hms Hfs Hm Hp Hl Hfit. unfold tcp_recvmsg. rewrite Ht. cbn [deref res_bind].
  rewrite (proj2 (Z.eqb_neq len 0)) by lia.
  assert (forall ms fs ps t got rem, buf_que t = ms ++ m :: q -> 0 <= t_errno t -> length fs = length ps ->
    Forall2 (fun m fp => rx_packet m (fst fp) (snd fp) /\ psh (fst fp) = false) ms (zip fs ps) ->
    Z.of_nat (length (concat ps) + length p') <= rem ->
    recv_loop (S (length ms)) t rem got =
      Ok (RxDone (Z.of_nat (length (got ++ concat ps ++ p'))) (got ++ concat ps ++ p'), t <| buf_que := q |>)) as Hloop.
  { clear - Hm Hp. induction ms as [|m0 ms IH]; intros fs ps t got rem Hq He Hfs Hms Hfit.
    - apply Forall2_nil_inv_l in Hms. destruct fs, ps; try discriminate. cbn [length concat app] in *.
      destruct (recv_loop_turn 0 t m q fl p' rem got Hq He Hm ltac:(lia)) as (m' & -> & _).
      rewrite Z.min_r, Z.eqb_refl, Hp, Nat2Z.id, take_ge by lia. rewrite length_app. do 3 f_equal. lia.
    - destruct fs as [|f0 fs], ps as [|p0 ps]; try discriminate; [by inversion Hms|]. cbn [zip zip_with] in Hms.
      apply Forall2_cons in Hms as [[Hm0 Hf0] Hms]. cbn [fst snd concat length app] in *. rewrite length_app in Hfit.
      destruct (recv_loop_turn (S (length ms)) t m0 (ms ++ m :: q) f0 p0 rem got Hq He Hm0 ltac:(lia)) as (m' & -> & _).
      rewrite Z.min_r, Z.eqb_refl, Hf0, Nat2Z.id, take_ge by lia. cbv zeta.
      rewrite (IH fs ps); [|done|done|lia|done|lia]. rewrite <- !app_assoc. done. }
  rewrite (Hloop ms fs ps t [] len) by done. done.
Qed.

(** when a read takes only the first bytes [a] of a segment, the next read takes the forty
    bytes that follow for headers: the program never sees them. *)
Theorem tcp_partial_read_skips s i p t m q f a h1 h2 f' h3 y len2 :
  t_socks s !! i = Some t -> buf_que t = m :: q -> 0 <= t_errno t ->
  rx_packet m f (a ++ h1 ++ (h2 ++ f' :: h3) ++ y) -> psh f = true -> a <> [] ->
  length h1 = 20%nat -> length h2 = 13%nat -> length h3 = 6%nat -> psh f' = true -> 0 < len2 -> Z.of_nat (length y) <= len2 ->
  exists s1 s2, tcp_recvmsg 1 s i p (Z.of_nat (length a)) = Ok (RxDone (Z.of_nat (length a)) a, s1) /\
    tcp_recvmsg 1 s1 i p len2 = Ok (RxDone (Z.of_nat (length y)) y, s2).
Proof.
  intros Ht Hq He Hm Hf Ha L1 L2 L3 Hf' Hl2 Hy. assert (0 < length a)%nat by (destruct a; [done|cbn; lia]).
  set (p0 := a ++ h1 ++ (h2 ++ f' :: h3) ++ y) in *.
  assert (length p0 = length a + 40 + length y)%nat as Lp by (unfold p0; rewrite !length_app; cbn; lia).
  destruct (recv_loop_turn 0 t m q f p0 (Z.of_nat (length a)) [] Hq He Hm ltac:(lia)) as (m' & E & pre & post & Hm').
  rewrite Z.min_l, (proj2 (Z.eqb_neq (Z.of_nat (length a)) _)), Hf in E by lia. rewrite Z.min_l in Hm' by lia. rewrite Nat2Z.id in *.
  assert (take (length a) p0 = a) as Eta by apply take_app_length. assert (drop (length a) p0 = h1 ++ (h2 ++ f' :: h3) ++ y) as Eda by apply drop_app_length.
  rewrite Eta in E. rewrite Eda in Hm'. cbn [app length Z.of_nat] in E. rewrite Z.add_0_l in E.
  eexists (upd_tcp s i (t <| buf_que := m' :: q |>)), _. split.
  - unfold tcp_recvmsg. rewrite Ht. cbn [deref res_bind]. rewrite (proj2 (Z.eqb_neq _ 0)) by lia. by rewrite E.
  - unfold tcp_recvmsg. cbn -[insert lookup recv_loop]. rewrite lookup_insert_eq. cbn [deref res_bind].
    rewrite (proj2 (Z.eqb_neq _ 0)) by lia.
    set (t1 := t <| buf_que := m' :: q |>).
    destruct (recv_loop_turn 0 t1 m' q f' y len2 []) as (m2 & E2 & _); [done|done|by exists pre, h1, h2, h3, post|lia|].
    rewrite E2, Z.min_r, Z.eqb_refl, Hf', Nat2Z.id, take_ge by lia. done.
Qed.

(** ** The handshake *)

(** [g] is the segment [x] as it arrives at the other side: the fields of the header and, for a
    segment without data, the length SYN and FIN count for. *)
Record carries (x : txcall) (g : tcpseg) : Prop := {
  cy_seq : g_seqnr g = x_seq x;
  cy_ack : g_acknr g = x_ack x;
  cy_flgs : g_flgs g = x_flgs x;
  cy_sport : g_sport g = x_sport x;
  cy_dport : g_dport g = x_dport x;
  cy_len : g_seqlen g = m_len (x_m x) + Z.b2z (Z.testbit (x_flgs x) 1) + Z.b2z (Z.testbit (x_flgs x) 0) }.

Lemma seq_succ x : 0 <= x < 2 ^ 32 -> i32 (u32 (x + 1) - x) = 1 /\ i32 (x - u32 (x + 1)) = -1 /\ i32 (u32 (x + 1) - u32 (x + 1)) = 0.
Proof. intros Hx. unfold signed, wrap. split_and!; repeat case_if; dlia. Qed.

Lemma isn_range s : 0 <= isn s < 2 ^ 32.
Proof.
  unfold isn. pose proof (wrap_range 32 (t_ktick s) ltac:(lia)). split; [apply Z.lxor_nonneg; lia|].
  destruct (Z.eq_dec (Z.lxor (u32 (t_ktick s)) 0x20250403) 0) as [->|Hn]; [lia|].
  apply Z.log2_lt_pow2; [pose proof (Z.lxor_nonneg (u32 (t_ktick s)) 0x20250403); lia|].
  eapply Z.le_lt_trans; [apply Z.log2_lxor; lia|]. apply Z.max_lub_lt; [|done].
  destruct (Z.eq_dec (u32 (t_ktick s)) 0) as [->|]; [done|]. apply Z.log2_lt_pow2; lia.
Qed.

(** What a connection attempt leaves. *)
Lemma connect_sends c j p a len t :
  t_socks c !! j = Some t -> t_rport t = 0 -> SOCKADDR_IN_SIZE <= len -> sa_port a <> 0 -> t_lport t <> 0 -> syn_waiter t = None ->
  exists c1 t1, tcp_connect c j p a len = Ok (None, c1) /\ t_socks c1 !! j = Some t1 /\
    t_out c1 = t_out c ++ [Tx (t_nif t) mb0 (sa_addr a) (t_lport t) (ntohs (sa_port a)) (isn c) 0 TCP_F_SYN TCP_WINDOW] /\
    t_state t1 = SYN_SENT /\ snd_iss t1 = isn c /\ snd_una t1 = isn c /\ snd_nxt t1 = u32 (isn c + 1) /\ syn_waiter t1 = Some p /\
    t_errno t1 = t_errno t /\ rx_waiter t1 = rx_waiter t.
Proof.
  intros Ht Hr Hl Hp Hlp Hw. unfold tcp_connect. rewrite Ht. cbn [deref res_bind]. rewrite Hr, (proj2 (Z.ltb_ge _ _) Hl), (proj2 (Z.eqb_neq _ _) Hp).
  cbn [negb Z.eqb]. unfold tcp_ck_lport. cbn -[tcp_tx_setup]. rewrite (proj2 (Z.eqb_neq _ _) Hlp). cbn -[tcp_tx_setup]. rewrite Hw.
  eexists _, _. split; [reflexivity|]. cbn -[isn wrap insert lookup]. split; [apply lookup_insert_eq|]. done.
Qed.

(** The flags of a segment whose flag byte is known. *)
Tactic Notation "flag_value" hyp(Hf) constr(f) "as" ident(name) :=
  match type of Hf with
  | g_flgs ?g = ?v =>
      let r := eval vm_compute in (negb (Z.land v f =? 0)) in
      assert (flag f g = r) as name by (unfold flag; by rewrite Hf)
  end.

Tactic Notation "flags" hyp(Hf) "as" ident(Fr) ident(Fs) ident(Fa) :=
  flag_value Hf TCP_F_RST as Fr; flag_value Hf TCP_F_SYN as Fs; flag_value Hf TCP_F_ACK as Fa.

(** A listener with room answers a SYN and keeps a new connection. *)
Lemma listen_agrees s i t g new :
  t_socks s !! i = Some t -> t_state t = LISTEN -> g_flgs g = TCP_F_SYN -> new <> i ->
  exists s' conn, tcp_input s i g new = Ok s' /\ t_socks s' !! new = Some conn /\ new ∈ list_common s' /\
    t_out s' = t_out s ++ (if t_backcnt t + 1 =? t_backlog t then [] else t_out (tcp_tx_reset (s <| t_out := [] |>) g)) ++
      [Tx (t_nif t) mb0 (g_sip g) (t_lport t) (g_sport g) (isn s) (u32 (g_seqnr g + 1)) (Z.lor TCP_F_SYN TCP_F_ACK) TCP_WINDOW] /\
    t_state conn = SYN_RCVD /\ snd_una conn = isn s /\ snd_nxt conn = u32 (isn s + 1) /\ rcv_nxt conn = u32 (g_seqnr g + 1) /\
    t_ptcp conn = Some i /\ t_passive conn = true /\
    exists t', t_socks s' !! i = Some t' /\ t_acpt t' = t_acpt t /\ syn_waiter t' = syn_waiter t.
Proof.
  intros Ht Hst Hf Hne. unfold tcp_input. rewrite Ht. cbn [deref res_bind]. rewrite Hst.
  flags Hf as Fr Fs Fa. unfold tcp_rx_listen. rewrite Fr, Fa, Fs.
  eexists _, _. split; [reflexivity|].
  destruct (t_backcnt t + 1 =? t_backlog t) eqn:Eb; cbn -[isn wrap insert lookup tcp_tx_reset].
  - split; [apply lookup_insert_eq|]. split_and!; try done; [by left|].
    eexists. split; [rewrite lookup_insert_ne by done; apply lookup_insert_eq|]. done.
  - split; [apply lookup_insert_eq|]. split_and!; try done; [by left|unfold tcp_tx_reset; cbn; by rewrite <- app_assoc|].
    eexists. split; [rewrite lookup_insert_ne by done; apply lookup_insert_eq|]. done.
Qed.

(** The SYN of the listener establishes the connection that asked for it. *)
Lemma sent_established s i t g new p :
  t_socks s !! i = Some t -> t_state t = SYN_SENT -> g_flgs g = Z.lor TCP_F_SYN TCP_F_ACK -> g_acknr g = snd_nxt t ->
  snd_nxt t = u32 (snd_iss t + 1) -> 0 <= snd_iss t < 2 ^ 32 -> syn_waiter t = Some p ->
  exists s' t', tcp_input s i g new = Ok s' /\ t_socks s' !! i = Some t' /\ t_state t' = ESTABLISHED /\
    snd_nxt t' = snd_nxt t /\ snd_una t' = snd_nxt t /\ rcv_nxt t' = u32 (g_seqnr g + 1) /\ t_errno t' = t_errno t /\ p ∈ t_woken s' /\
    t_out s' = t_out s ++ [Tx (t_nif t) mb0 (t_raddr t) (t_lport t) (t_rport t) (snd_nxt t) (u32 (g_seqnr g + 1)) TCP_F_ACK TCP_WINDOW].
Proof.
  intros Ht Hst Hf Ha Hn Hi Hw. unfold tcp_input. rewrite Ht. cbn [deref res_bind]. rewrite Hst.
  flags Hf as Fr Fs Fa. unfold tcp_rx_sent. rewrite Fr, Fa, Fs, Ha, Z.eqb_refl. cbn [negb andb].
  destruct (seq_succ (snd_iss t) Hi) as (E1 & _). cbn -[wrap insert lookup i32 tcp_tx_ack]. rewrite Hn, E1. cbn [Z.ltb Z.compare].
  eexists _, _. split; [reflexivity|]. cbn -[wrap insert lookup]. rewrite Hw. cbn -[wrap insert lookup].
  split; [apply lookup_insert_eq|]. cbn. rewrite Hn. split_and!; try done; [set_solver|]. unfold tcp_tx_ack. rewrite decide_False by done. cbn. by rewrite Hn.
Qed.

(** The last ACK establishes the connection of the listener and queues it for [accept]. *)
Lemma rcvd_established s i t pt p g new :
  t_socks s !! i = Some t -> t_state t = SYN_RCVD -> t_ptcp t = Some p -> p <> i -> t_socks s !! p = Some pt ->
  g_flgs g = TCP_F_ACK -> g_acknr g = snd_nxt t -> snd_nxt t = u32 (snd_una t + 1) -> 0 <= snd_una t < 2 ^ 32 ->
  exists s' t' pt', tcp_input s i g new = Ok s' /\ t_socks s' !! i = Some t' /\ t_state t' = ESTABLISHED /\
    snd_nxt t' = snd_nxt t /\ rcv_nxt t' = rcv_nxt t /\ t_socks s' !! p = Some pt' /\ t_acpt pt' = i :: t_acpt pt /\
    (forall w, syn_waiter pt = Some w -> w ∈ t_woken s').
Proof.
  intros Ht Hst Hp Hne Hpt Hf Ha Hn Hu. unfold tcp_input. rewrite Ht. cbn [deref res_bind]. rewrite Hst.
  flags Hf as Fr Fs Fa. unfold tcp_rx_rcvd. rewrite Fr, Fa, Fs, Ha. cbn [negb andb].
  destruct (seq_succ (snd_una t) Hu) as (_ & E2 & E3). unfold TCP_SEQ_LT, TCP_SEQ_LE. rewrite Hn, E2, E3. cbn [Z.ltb Z.leb Z.compare andb].
  cbn [upd eta eta_tcp t_ptcp]. rewrite Hp. cbn -[wrap insert lookup]. rewrite lookup_insert_ne, Hpt by done. cbn [deref res_bind].
  eexists _, _, _. split; [reflexivity|]. destruct (syn_waiter pt) as [w|] eqn:Ew; cbn -[wrap insert lookup].
  all: split; [rewrite lookup_insert_ne by done; apply lookup_insert_eq|]; cbn -[wrap insert lookup].
  all: split_and!; try done; [apply lookup_insert_eq|..]; try done; intros w' Hw'; inversion Hw'; subst; set_solver.
Qed.

(** A connection that may connect: not connected, with a local port, and nobody waiting. *)
Definition can_connect (c : tcps) (j : Z) (a : sockaddr_in) (t : tcp) : Prop :=
  t_socks c !! j = Some t /\ t_rport t = 0 /\ sa_port a <> 0 /\ t_lport t <> 0 /\ syn_waiter t = None.

Definition listening (s : tcps) (i : Z) (t : tcp) : Prop := t_socks s !! i = Some t /\ t_state t = LISTEN.

(** the three-way handshake between a connecting and a listening host, whatever the initial
    sequence numbers, establishes both connections with matching sequence numbers, wakes the
    task in [connect], and the listener accepts the new connection, provided its backlog is
    exactly one more than the connections it has. *)
Theorem tcp_handshake c j a tc p s i ts new p' fd :
  can_connect c j a tc -> listening s i ts -> t_backcnt ts + 1 = t_backlog ts -> t_acpt ts = [] -> new <> i -> 0 <= fd ->
  exists c1 x1, tcp_connect c j p a SOCKADDR_IN_SIZE = Ok (None, c1) /\ last (t_out c1) = Some x1 /\ forall g1, carries x1 g1 ->
  exists s1 x2, tcp_input s i g1 new = Ok s1 /\ t_out s1 = t_out s ++ [x2] /\ forall g2, carries x2 g2 ->
  exists c2 x3, tcp_input c1 j g2 0 = Ok c2 /\ last (t_out c2) = Some x3 /\ p ∈ t_woken c2 /\ forall g3, carries x3 g3 ->
  exists s2 tc2 ts2 s3, tcp_input s1 new g3 0 = Ok s2 /\ t_socks c2 !! j = Some tc2 /\ t_socks s2 !! new = Some ts2 /\
    t_state tc2 = ESTABLISHED /\ t_state ts2 = ESTABLISHED /\ snd_nxt tc2 = rcv_nxt ts2 /\ rcv_nxt tc2 = snd_nxt ts2 /\
    tcp_accept s2 i p' false false fd = Ok (Some (fd, None), s3).
Proof.
  intros (Hc & Hr & Hp & Hl & Hw) [Hs Hst] Hb Hacc Hne Hfd.
  destruct (connect_sends c j p a SOCKADDR_IN_SIZE tc Hc Hr ltac:(lia) Hp Hl Hw) as (c1 & t1 & E1 & CS & CO & C1 & C2 & C3 & C4 & C5 & _).
  eexists c1, _. split; [exact E1|]. split; [rewrite CO; apply last_snoc|]. intros g1 [G1 _ G1f _ _ _]. cbn in G1, G1f.
  destruct (listen_agrees s i ts g1 new Hs Hst G1f Hne) as (s1 & conn & E2 & S1 & _ & S2 & S3 & S4 & S5 & S6 & S7 & _ & pt & S8 & S9 & _).
  rewrite (proj2 (Z.eqb_eq _ _) Hb) in S2. cbn [app] in S2.
  eexists s1, _. split; [exact E2|]. split; [exact S2|]. intros g2 [G2 G2a G2f _ _ _]. cbn in G2, G2a, G2f.
  destruct (sent_established c1 j t1 g2 0 p) as (c2 & tc2 & E3 & T1 & T2 & T3 & _ & T5 & _ & T6 & T7);
    [done|done|done|by rewrite G2a, C4, G1|congruence|rewrite C2; apply isn_range|done|].
  eexists c2, _. split; [exact E3|]. split; [rewrite T7; apply last_snoc|]. split; [done|]. intros g3 [G3 G3a G3f _ _ _]. cbn in G3, G3a, G3f.
  destruct (rcvd_established s1 new conn pt i g3 0 S1 S3 S7 ltac:(done) S8 G3f) as (s2 & ts2 & pt2 & E4 & R1 & R2 & R3 & R4 & R5 & R6 & _);
    [by rewrite G3a, G2, S5|congruence|rewrite S4; apply isn_range|].
  rewrite S9, Hacc in R6. assert (exists s3, tcp_accept s2 i p' false false fd = Ok (Some (fd, None), s3)) as [s3 E5].
  { unfold tcp_accept. rewrite R5. cbn [deref res_bind]. rewrite R6. cbn. rewrite R1. cbn [deref res_bind].
    rewrite bool_decide_true by done. cbn. unfold accept_finish. rewrite R5, R1. cbn [deref res_bind xorb]. eauto. }
  exists s2, tc2, ts2, s3. split_and!; try done; [by rewrite T3, C4, R4, S6, G1|by rewrite T5, R3, S5, G2].
Qed.

(** a listener whose backlog is anything but one more than its connections answers a SYN with
    a reset, and the reset closes the connection of the host that asked. *)
Theorem tcp_backlog_refuses c j a tc p s i ts new :
  m_len mb0 = 0 -> can_connect c j a tc -> rx_waiter tc = None -> listening s i ts -> t_backcnt ts + 1 <> t_backlog ts -> new <> i ->
  exists c1 x1, tcp_connect c j p a SOCKADDR_IN_SIZE = Ok (None, c1) /\ last (t_out c1) = Some x1 /\ forall g1, carries x1 g1 ->
  exists s1 x2 x3, tcp_input s i g1 new = Ok s1 /\ t_out s1 = t_out s ++ [x2; x3] /\ forall g2, carries x2 g2 ->
  exists c2 tc2, tcp_input c1 j g2 0 = Ok c2 /\ t_socks c2 !! j = Some tc2 /\ t_state tc2 = CLOSED /\ t_errno tc2 = - ECONNRESET /\
    p ∈ t_woken c2.
Proof.
  intros Hm0 (Hc & Hr & Hp & Hl & Hw) Hrx [Hs Hst] Hb Hne.
  destruct (connect_sends c j p a SOCKADDR_IN_SIZE tc Hc Hr ltac:(lia) Hp Hl Hw) as (c1 & t1 & E1 & CS & CO & C1 & C2 & C3 & C4 & C5 & _ & C6).
  eexists c1, _. split; [exact E1|]. split; [rewrite CO; apply last_snoc|]. intros g1 [G1 _ G1f _ _ G1l]. cbn in G1, G1f, G1l.
  destruct (listen_agrees s i ts g1 new Hs Hst G1f Hne) as (s1 & conn & E2 & S1 & _ & S2 & _).
  rewrite (proj2 (Z.eqb_neq _ _) Hb) in S2. flags G1f as Fr Fs Fa. unfold tcp_tx_reset in S2. rewrite Fa in S2. cbn [app upd eta eta_tcps t_out] in S2.
  eexists s1, _, _. split; [exact E2|]. split; [exact S2|]. intros g2 [G2 G2a G2f _ _ _]. cbn in G2, G2a, G2f.
  flags G2f as F2r F2s F2a. unfold tcp_input. rewrite CS. cbn [deref res_bind]. rewrite C1.
  unfold tcp_rx_sent. rewrite F2r, F2s, F2a. rewrite G2a, C4, G1, G1l, Hm0. change (0 + _ + _) with 1. rewrite Z.eqb_refl. cbn [negb andb].
  unfold tcp_exit_with. cbn -[insert lookup wrap]. rewrite C6, Hrx, C5. eexists _, _. split; [reflexivity|]. cbn -[insert lookup wrap].
  split; [apply lookup_insert_eq|]. cbn. split_and!; try done. set_solver.
Qed.

(** ** Sending *)

(** The buffer [mbuf_alloc] returns is empty, with [MBUF_DEFROOM] bytes in front. *)
Definition empty_mbuf : Prop := exists pre post, holds mb0 pre [] post /\ length pre = 128%nat /\ m_dlen mb0 = 0.

(** A packet with the payload [c]. *)
Definition payload (m : mbuf) (c : list Z) : Prop :=
  packet m = c /\ m_len m = Z.of_nat (length c) /\ m_dlen m = Z.of_nat (length c) /\ (0 < length c <= 536)%nat.

Lemma payload_id m c n : payload m c -> payload (m <| m_id := n |>) c.
Proof. done. Qed.

(** [tcp_makeseg] cuts the data into segments and appends them to the queue. *)
Lemma makeseg_spec fuel : forall t data,
  empty_mbuf -> t_mss t = DEFMSS -> t_nagle t = true -> DEFMSS <= prev_dlen t -> (length data < fuel)%nat ->
  exists ms cs, tcp_makeseg fuel t data = Ok (t <| snd_que ::= fun q => q ++ ms |>) /\ Forall2 payload ms cs /\ concat cs = data.
Proof.
  induction fuel as [|fuel IH]; intros t data Hmb Hmss Hng Hpd Hf; [lia|]. cbn [tcp_makeseg]. destruct data as [|d data].
  - exists [], []. split_and!; try done. unfold upd. cbn. rewrite app_nil_r. by destruct t.
  - set (dt := d :: data) in *. assert (0 < length dt)%nat as Hd0 by (cbn; lia).
    rewrite Hmss, (proj2 (Z.ltb_ge _ _) Hpd), andb_false_r. destruct Hmb as (pre & post & Hm & Lp & Hdl). rewrite Hdl, Z.sub_0_r.
    assert (MIN (MIN (Z.of_nat (length dt)) DEFMSS) DEFMSS = Z.min (Z.of_nat (length dt)) 536) as ->
      by (rewrite !MIN_min; unfold DEFMSS; lia).
    set (n := Z.to_nat (Z.min (Z.of_nat (length dt)) 536)). assert (0 < n <= 536 /\ n <= length dt)%nat as [Hn1 Hn2] by (unfold n; lia).
    pose proof (holds_bounds _ _ _ _ Hm) as Hk. cbn [length] in Hk. rewrite <- (take_drop n post) in Hm.
    assert (length (take n dt) = n) as Ln by (rewrite length_take; lia).
    destruct (put_holds mb0 pre [] (take n post) (drop n post) (take n dt) Hm) as (m & -> & Hm' & _ & Hdl'); [rewrite Ln, length_take; lia|].
    cbn [res_bind app] in *. fold dt. set (t1 := t <| snd_que ::= fun q => q ++ [m] |>).
    destruct (IH t1 (drop n dt)) as (ms & cs & -> & Hms & Hcs); try done;
      [by exists pre, post; rewrite take_drop in Hm|rewrite length_drop; lia|].
    exists (m :: ms), (take n dt :: cs). split_and!.
    + unfold t1, upd. cbn. by rewrite <- app_assoc.
    + constructor; [|done]. split_and!; [by apply holds_packet in Hm'|by destruct Hm'|rewrite Hdl', Hdl, Ln, wrap_small; lia|lia|lia].
    + cbn [concat]. by rewrite Hcs, take_drop.
Qed.

(** With nothing unacknowledged the next segment is sent, and only that one. *)
Lemma do_xmit_next s t m q n c :
  t_nagle t = true -> snd_una t = n -> snd_nxt t = n -> 0 < n < 2 ^ 32 -> t_shutdown t = 0 -> una_que t = [] -> snd_que t = m :: q -> payload m c ->
  tcp_do_xmit s t = (send s t (m <| m_id := n |>) n (rcv_nxt t) TCP_F_ACK,
    t <| tmr_ack := false |> <| snd_nxt := u32 (n + Z.of_nat (length c)) |> <| una_que := [m <| m_id := n |>] |> <| snd_que := q |>).
Proof.
  intros Hng Hu Hn Hr Hsh Hun Hq (_ & _ & Hd & Hc). destruct t. cbn in *. subst. unfold tcp_do_xmit. cbn -[wrap xmit_loop].
  rewrite wrap_small, (proj2 (Z.ltb_ge _ _)) by lia. cbn -[wrap]. rewrite Hd, (proj2 (Z.eqb_neq _ 0)) by lia. reflexivity.
Qed.

Lemma do_xmit_idle s t n :
  snd_una t = n -> snd_nxt t = n -> 0 < n < 2 ^ 32 -> t_shutdown t = 0 -> snd_que t = [] -> tcp_do_xmit s t = (s, t <| tmr_ack := false |>).
Proof.
  intros Hu Hn Hr Hsh Hq. destruct t. cbn in *. subst. unfold tcp_do_xmit. cbn -[wrap xmit_loop].
  rewrite wrap_small, (proj2 (Z.ltb_ge _ _)), andb_false_r by lia. reflexivity.
Qed.

(** ** A transfer between two connections *)

(** The segment [x] as a wire that changes nothing delivers it: forty bytes of headers, with the
    flags in their place, then the payload. *)
Definition wire (x : txcall) : tcpseg :=
  let p := packet (x_m x) in
  let bit k := Z.b2z (Z.testbit (x_flgs x) k) in
  let buf := Mbuf (repeat 0 60 ++ (repeat 0 33 ++ x_flgs x :: repeat 0 6) ++ p ++ repeat 0 (1948 - length p)) 100 0
                  (Z.of_nat (length p)) 0 (x_seq x) 0 in
  Seg (x_seq x) (u32 (Z.of_nat (length p) + bit 1 + bit 0)) 0 (x_dip x) (x_nif x) buf (x_sport x) (x_dport x) (x_ack x) (x_flgs x).

(** One round: the last segment sent by [i] reaches [j], the delayed acknowledgement of [j] goes
    out and reaches [i]. The rounds end when [i] has nothing unacknowledged. *)
Fixpoint exchange (fuel : nat) (s : tcps) (i : Z) (r : tcps) (j : Z) : res (tcps * tcps) :=
  match fuel with
  | O => Fault OutOfFuel
  | S fuel =>
      let! t := deref (t_socks s !! i) in
      match una_que t with
      | [] => Ok (s, r)
      | _ =>
          let! x := deref (last (t_out s)) in
          let! r := tcp_input r j (wire x) 0 in
          let! r := tcp_tmr_dly r j in
          let! y := deref (last (t_out r)) in
          let! s := tcp_input s i (wire y) 0 in
          exchange fuel s i r j
      end
  end.

(** An established connection that is not closing. *)
Definition open_conn (t : tcp) : Prop :=
  t_state t = ESTABLISHED /\ t_nagle t = true /\ t_shutdown t = 0 /\ t_mss t = DEFMSS.

(** The receiving side, waiting for the byte with number [n]; [a] is its own next number. *)
Definition rx_side (r : tcps) (j n a : Z) (got : list Z) : Prop :=
  exists t, t_socks r !! j = Some t /\ open_conn t /\ snd_que t = [] /\ una_que t = [] /\ snd_una t = a /\ snd_nxt t = a /\ rcv_nxt t = n /\
    received t = got.

Lemma wire_data_seg x c :
  packet (x_m x) = c -> (0 < length c <= 536)%nat -> x_flgs x = TCP_F_ACK -> data_seg (x_seq x) c (wire x) 0 (length c).
Proof.
  intros Hp Hc Hf. unfold wire. split; cbn [g_seqnr g_seqlen g_buf].
  - lia.
  - rewrite Hp, Hf. cbn -[wrap]. rewrite wrap_small; lia.
  - lia.
  - lia.
  - exists (repeat 0 60), (repeat 0 33 ++ x_flgs x :: repeat 0 6), (repeat 0 (1948 - length c)). rewrite Hp, drop_0, take_ge by lia.
    split; [|done]. split; cbn [m_buf m_head m_len]; [by rewrite <- app_assoc|done|done|].
    rewrite !length_app. cbn [length]. rewrite !repeat_length. unfold MBUF_SIZE. lia.
  - unfold flag. cbn. by rewrite Hf.
  - unfold flag. cbn. by rewrite Hf.
  - unfold flag. cbn. by rewrite Hf.
Qed.

(** The receiving side takes the segment and acknowledges it when its timer runs. *)
Lemma rx_round r j n a got x c :
  empty_mbuf -> rx_side r j n a got -> 0 < n -> n + Z.of_nat (length c) < 2 ^ 32 -> packet (x_m x) = c -> (0 < length c <= 536)%nat ->
  x_flgs x = TCP_F_ACK -> x_seq x = n -> x_ack x = a ->
  exists r1 r2 y, tcp_input r j (wire x) 0 = Ok r1 /\ tcp_tmr_dly r1 j = Ok r2 /\ last (t_out r2) = Some y /\
    rx_side r2 j (n + Z.of_nat (length c)) a (got ++ c) /\
    x_m y = mb0 /\ x_seq y = a /\ x_ack y = n + Z.of_nat (length c) /\ x_flgs y = TCP_F_ACK.
Proof.
  intros Hmb (t & Ht & (O1 & O2 & O3 & O4) & Q1 & Q2 & U1 & U2 & Hn & Hg) Hn0 Hn1 Hp Hc Hf Hs Ha.
  pose proof (wire_data_seg x c Hp Hc Hf) as [D1 D2 _ _ (pre & h & post & Hb & Hh) Dr Ds Du].
  rewrite drop_0, take_ge in Hb by lia. unfold tcp_input. rewrite Ht. cbn [deref res_bind]. rewrite O1. unfold tcp_rx_established. rewrite Dr, Ds.
  assert (g_flgs (wire x) = TCP_F_ACK) as Hfg by done. flags Hfg as Fr Fs Fa. flag_value Hfg TCP_F_FIN as Ff. rewrite Fa.
  unfold tcp_x_ack. rewrite Fa. cbn [ASSERTK res_bind]. unfold TCP_SEQ_LE at 1. change (g_acknr (wire x)) with (x_ack x).
  rewrite Ha, U1, Z.sub_diag. change (i32 0 <=? 0) with true. cbv iota. cbn [res_bind]. rewrite Du. cbn [negb ASSERTK res_bind].
  destruct (rx_data_accept r t (wire x) pre h c post) as (m & -> & Hm); [by rewrite Hn, D1, Hs, Z.add_0_r|done|lia|done|done|].
  rewrite Ff. eexists _, _, _. split; [reflexivity|]. unfold tcp_tmr_dly.
  set (t1 := upd rx_waiter _ _). set (r0 := try_unblk r (rx_waiter t)).
  cbn -[insert lookup tcp_tx_ack t1]. rewrite lookup_insert_eq. cbn [deref res_bind]. change (tmr_ack t1) with true. cbv iota.
  split; [reflexivity|]. unfold tcp_tx_ack. rewrite decide_False by (unfold t1; cbn; by rewrite O1).
  cbn -[insert lookup t1]. split; [apply last_snoc|]. assert (rcv_nxt t1 = n + Z.of_nat (length c)) as Hn2.
  { unfold t1. cbn. rewrite Hn, wrap_small by lia. done. }
  split; [|split_and!; [done|exact U2|exact Hn2|done]]. exists (t1 <| tmr_ack := false |>). split; [apply lookup_insert_eq|].
  split_and!; try done. change (received (t <| buf_que ::= fun l => l ++ [m] |>) = got ++ c). by rewrite (received_snoc t m c Hm), Hg.
Qed.

(** The sending side with the bytes [c] in flight from number [n] on, and [ms] still queued. *)
Definition tx_side (s : tcps) (i n a : Z) (c : list Z) (cs : list (list Z)) : Prop :=
  exists t m ms x, t_socks s !! i = Some t /\ open_conn t /\ rcv_nxt t = a /\ snd_una t = n /\ snd_nxt t = n + Z.of_nat (length c) /\
    una_que t = [m] /\ m_id m = n /\ payload m c /\ snd_que t = ms /\ Forall2 payload ms cs /\
    last (t_out s) = Some x /\ x_m x = m /\ x_flgs x = TCP_F_ACK /\ x_seq x = n /\ x_ack x = a.

(** ... and with everything acknowledged. *)
Definition tx_done (s : tcps) (i n a : Z) : Prop :=
  exists t, t_socks s !! i = Some t /\ open_conn t /\ rcv_nxt t = a /\ snd_una t = n /\ snd_nxt t = n /\ una_que t = [] /\ snd_que t = [].

(** What [tcp_do_xmit] leaves when everything before [n] is acknowledged. *)
Lemma do_xmit_side s i t n a cs :
  open_conn t -> rcv_nxt t = a -> snd_una t = n -> snd_nxt t = n -> una_que t = [] -> Forall2 payload (snd_que t) cs ->
  0 < n -> n + Z.of_nat (length (concat cs)) < 2 ^ 32 ->
  let '(s', t') := tcp_do_xmit s t in
  rcv_nxt t' = a /\
  match cs with [] => tx_done (upd_tcp s' i t') i n a | c :: cs => tx_side (upd_tcp s' i t') i n a c cs end.
Proof.
  intros (O1 & O2 & O3 & O4) Ha Hu Hn Hun Hq Hn0 Hn1. destruct cs as [|c cs].
  - apply Forall2_nil_inv_r in Hq. rewrite (do_xmit_idle s t n) by (done || cbn in Hn1; lia). split; [done|].
    exists (t <| tmr_ack := false |>). split; [cbn -[insert lookup]; apply lookup_insert_eq|]. by split_and!.
  - apply Forall2_cons_inv_r in Hq as (m & ms & Hm & Hms & Hq). cbn [concat] in Hn1. rewrite length_app in Hn1.
    rewrite (do_xmit_next s t m ms n c) by (done || lia). rewrite wrap_small by lia. split; [done|].
    eexists _, _, ms, _. split; [cbn -[insert lookup]; apply lookup_insert_eq|]. split; [done|]. split; [done|]. split; [done|].
    split; [done|]. split; [reflexivity|]. split; [done|]. split; [exact Hm|]. split; [done|]. split; [done|].
    split; [cbn; apply last_snoc|]. done.
Qed.

Lemma tx_round s i n a c cs y :
  empty_mbuf -> tx_side s i n a c cs -> 0 < n -> n + Z.of_nat (length (c ++ concat cs)) < 2 ^ 32 -> 0 <= a < 2 ^ 32 ->
  x_m y = mb0 -> x_seq y = a -> x_ack y = n + Z.of_nat (length c) -> x_flgs y = TCP_F_ACK ->
  total (tcp_input s i (wire y) 0) (fun s' =>
    match cs with [] => tx_done s' i (n + Z.of_nat (length c)) a | c' :: cs => tx_side s' i (n + Z.of_nat (length c)) a c' cs end).
Proof.
  intros (pre & post & Hmb & _) (t & m & ms & x & Ht & (O1 & O2 & O3 & O4) & Ha & Hu & Hnx & Hun & Hid & Hm & Hq & Hms & _) Hn0 Hn1 Ha0 Ym Ys Ya Yf.
  destruct Hm as (_ & _ & _ & Hc). rewrite length_app in Hn1. unfold tcp_input. rewrite Ht. cbn [deref res_bind]. rewrite O1. unfold tcp_rx_established.
  assert (g_flgs (wire y) = TCP_F_ACK) as Hfg by done. flags Hfg as Fr Fs Fa. flag_value Hfg TCP_F_FIN as Ff. flag_value Hfg TCP_F_URG as Fu.
  rewrite Fr, Fs, Fa. unfold tcp_x_ack. rewrite Fa. cbn [ASSERTK res_bind]. unfold TCP_SEQ_LE, TCP_SEQ_LT.
  change (g_acknr (wire y)) with (x_ack y). rewrite Ya, Hu, Hnx, Z.sub_diag.
  replace (n + Z.of_nat (length c) - n) with (Z.of_nat (length c)) by lia. rewrite signed_small by lia.
  rewrite (proj2 (Z.leb_gt _ 0)) by lia. change (i32 0 <? 0) with false. cbv iota.
  set (t1 := t <| una_que ::= _ |> <| snd_una := _ |>).
  assert (una_que t1 = []) as Hun1 by (unfold t1; cbn -[filter]; rewrite Hun, filter_cons_False; [done|lia]).
  pose proof (do_xmit_side s i t1 (n + Z.of_nat (length c)) a cs) as Hx. destruct (tcp_do_xmit s t1) as [s2 t2] eqn:E2.
  destruct Hx as (Ha2 & Hx); try done; [by rewrite <- Hq in Hms|lia|lia|].
  cbn [res_bind]. rewrite Fu. cbn [negb ASSERTK res_bind]. unfold tcp_rx_data. rewrite Ha2.
  change (g_seqnr (wire y)) with (x_seq y). rewrite Ys, Z.ltb_irrefl.
  assert (g_seqlen (wire y) = 0) as ->.
  { unfold wire. cbn [g_seqlen]. rewrite Ym, (holds_packet _ _ _ _ Hmb), Yf. done. }
  cbn [Z.eqb]. rewrite Ff. apply total_Ok. by destruct cs.
Qed.

Lemma exchange_all cs : forall fuel s i r j n a c got,
  empty_mbuf -> (length cs + 1 < fuel)%nat -> tx_side s i n a c cs -> rx_side r j n a got ->
  0 < n -> n + Z.of_nat (length (c ++ concat cs)) < 2 ^ 32 -> 0 <= a < 2 ^ 32 ->
  total (exchange fuel s i r j) (fun sr => tx_done (fst sr) i (n + Z.of_nat (length (c ++ concat cs))) a /\
    rx_side (snd sr) j (n + Z.of_nat (length (c ++ concat cs))) a (got ++ c ++ concat cs)).
Proof.
  induction cs as [|c' cs IH]; intros fuel s i r j n a c got Hmb Hf Htx Hrx Hn0 Hn1 Ha; (destruct fuel as [|fuel]; [lia|]);
    cbn [exchange]; rewrite length_app in *; pose proof Htx as (t & m & ms & x & Ht & _ & _ & _ & _ & Hun & _ & Hm & _ & _ & Hx & Xm & Xf & Xs & Xa);
    rewrite Ht; cbn [deref res_bind]; rewrite Hun, Hx; cbn [deref res_bind];
    (destruct (rx_round r j n a got x c) as (r1 & r2 & y & -> & E & Hy & Hrx' & Ym & Ys & Ya & Yf); [done|done|lia|lia|rewrite Xm; apply Hm|apply Hm|done..|]);
    cbn [res_bind]; rewrite E; cbn [res_bind]; rewrite Hy; cbn [deref res_bind];
    (eapply total_bind; [by eapply (tx_round s i n a c _ y); rewrite ?length_app|]); intros s' Hs'.
  - destruct Hs' as (t' & Ht' & Hd). destruct fuel as [|fuel]; [cbn in Hf; lia|]. cbn [exchange]. rewrite Ht'. cbn [deref res_bind].
    destruct Hd as (Hd1 & Hd2 & Hd3 & Hd4 & Hd5 & Hd6). rewrite Hd5. apply total_Ok. cbn [fst snd concat length]. rewrite !app_nil_r, Nat.add_0_r.
    split; [|done]. exists t'. by split_and!.
  - cbn [concat] in *. eapply total_mono; [apply (IH fuel s' i r2 j (n + Z.of_nat (length c)) a c' (got ++ c)); try done; rewrite ?length_app in *; cbn in Hf; lia|].
    intros [s2 r3]. cbn [fst snd]. rewrite !length_app. rewrite <- !app_assoc.
    replace (n + Z.of_nat (length c) + Z.of_nat (length c' + length (concat cs))) with (n + Z.of_nat (length c + (length c' + length (concat cs)))) by lia. done.
Qed.

Lemma chunks_bound ms cs : Forall2 payload ms cs -> (length cs <= length (concat cs))%nat.
Proof. induction 1 as [|m c ms cs (_ & _ & _ & Hc) _ IH]; cbn [concat length]; [lia|]. rewrite length_app. lia. Qed.

(** C11: what one [tcp_sendmsg] on an idle established connection writes, of any length, reaches the
    other side: over a wire that loses, repeats and reorders nothing, with segments and delayed
    acknowledgements that strictly take turns, and with sequence numbers that do not wrap, the
    exchange ends, all bytes are acknowledged, and the receiver has exactly the bytes written, in
    order.  (The code does not retransmit: over a wire that loses a segment nothing follows.) *)
Theorem tcp_transfer s i r j n a got data t :
  empty_mbuf -> tx_done s i n a -> t_socks s !! i = Some t -> 0 <= snd_iss t -> rx_side r j n a got -> data <> [] ->
  0 < n -> n + Z.of_nat (length data) < 2 ^ 32 -> 0 <= a < 2 ^ 32 ->
  exists s1, tcp_sendmsg s i data = Ok (Z.of_nat (length data), s1) /\
    total (exchange (S (S (length data))) s1 i r j) (fun sr =>
      tx_done (fst sr) i (n + Z.of_nat (length data)) a /\ rx_side (snd sr) j (n + Z.of_nat (length data)) a (got ++ data)).
Proof.
  intros Hmb (t0 & Ht0 & (O1 & O2 & O3 & O4) & Ha & Hu & Hnx & Hun & Hq) Ht Hpd Hrx Hd Hn0 Hn1 Ha0. rewrite Ht in Ht0. injection Ht0 as <-.
  assert (DEFMSS <= prev_dlen t) as Hpd' by (unfold prev_dlen, DEFMSS; lia).
  unfold tcp_sendmsg. rewrite Ht. cbn [deref res_bind].
  destruct (makeseg_spec (S (length data)) t data Hmb O4 O2 Hpd' ltac:(lia)) as (ms & cs & -> & Hms & Hcs). cbn [res_bind].
  set (t1 := t <| snd_que ::= _ |>). pose proof (do_xmit_side s i t1 n a cs) as Hx. destruct (tcp_do_xmit s t1) as [s2 t2].
  destruct Hx as (_ & Hx); try done; [unfold t1; cbn; by rewrite Hq|by rewrite Hcs|]. eexists. split; [done|].
  destruct cs as [|c cs]; [by subst data|]. pose proof (chunks_bound _ _ Hms) as Hlen. rewrite Hcs in Hlen. cbn [concat] in Hcs. subst data.
  apply exchange_all; try done. cbn in Hlen. lia.
Qed.

(** ** The state machine *)

(** The arcs of the connection diagram that a segment can cause. *)
Inductive arc : state -> state -> Prop :=
| arc_stay st : arc st st
| arc_sent_rcvd : arc SYN_SENT SYN_RCVD
| arc_sent_est : arc SYN_SENT ESTABLISHED
| arc_sent_closed : arc SYN_SENT CLOSED
| arc_rcvd_est : arc SYN_RCVD ESTABLISHED
| arc_est_wait : arc ESTABLISHED CLOSE_WAIT
| arc_est_fin1 : arc ESTABLISHED FIN_WAIT1
| arc_wait_last : arc CLOSE_WAIT LAST_ACK
| arc_last_closed : arc LAST_ACK CLOSED
| arc_fin1_fin2 : arc FIN_WAIT1 FIN_WAIT2
| arc_fin1_closing : arc FIN_WAIT1 CLOSING
| arc_fin1_time : arc FIN_WAIT1 TIME_WAIT
| arc_fin2_time : arc FIN_WAIT2 TIME_WAIT
| arc_closing_time : arc CLOSING TIME_WAIT
| arc_closing_closed : arc CLOSING CLOSED
| arc_time_closed : arc TIME_WAIT CLOSED.

#[local] Hint Constructors arc : textos.

(** [s'] has connection [i] in state [st'] and the states of the others as in [s]. *)
Definition moved (s : tcps) (i : Z) (st' : state) (new : Z) (s' : tcps) : Prop :=
  (exists t', t_socks s' !! i = Some t' /\ t_state t' = st') /\
  forall k t, k <> i -> k <> new -> t_socks s !! k = Some t -> exists t', t_socks s' !! k = Some t' /\ t_state t' = t_state t.

Lemma moved_upd s s1 i t new : t_socks s1 = t_socks s -> moved s i (t_state t) new (upd_tcp s1 i t).
Proof.
  intros Hs. split; [exists t; split; [cbn -[insert lookup]; apply lookup_insert_eq|done]|].
  intros k tk Hk _ Hl. exists tk. split; [|done]. cbn -[insert lookup]. by rewrite lookup_insert_ne, Hs by done.
Qed.

Lemma moved_same s s1 i t new : t_socks s1 = t_socks s -> t_socks s !! i = Some t -> moved s i (t_state t) new s1.
Proof. intros Hs Ht. split; [exists t; by rewrite Hs|]. intros k tk _ _ Hk. exists tk. by rewrite Hs. Qed.

Lemma try_unblk_socks s w : t_socks (try_unblk s w) = t_socks s.
Proof. by destruct w. Qed.

Lemma reset_socks s g : t_socks (tcp_tx_reset s g) = t_socks s.
Proof. done. Qed.

Lemma exit_with_socks s t e : t_socks (fst (tcp_exit_with s t e)) = t_socks s.
Proof. unfold tcp_exit_with. cbn. by rewrite !try_unblk_socks. Qed.

Create Rewrite HintDb tcp_socks.

#[local] Hint Rewrite tx_ack_socks try_unblk_socks reset_socks exit_with_socks : tcp_socks.

Lemma rx_data_frame s t g : t_socks (fst (tcp_rx_data s t g)) = t_socks s /\ t_state (snd (tcp_rx_data s t g)) = t_state t.
Proof.
  unfold tcp_rx_data. destruct (_ <? _); [cbn; by rewrite tx_ack_socks|]. destruct (_ <? _); [done|]. destruct (_ =? 0); [done|].
  destruct (_ =? 0); [done|]. cbn. by rewrite try_unblk_socks.
Qed.

(** One handler at a time: the states it can leave the connection in. *)
Lemma moved_ex s i new s' st t : arc st (t_state t) -> moved s i (t_state t) new s' -> exists st', arc st st' /\ moved s i st' new s'.
Proof. eauto. Qed.

Lemma sent_arc s i t g new :
  t_socks s !! i = Some t -> t_state t = SYN_SENT -> exists st, arc SYN_SENT st /\ moved s i st new (tcp_rx_sent s i t g).
Proof.
  intros Ht Hst. unfold tcp_rx_sent. destruct (_ && negb _).
  { exists SYN_SENT. split; [auto with textos|]. rewrite <- Hst. by apply moved_same. }
  set (r := if _ && _ then _ else (s, t)).
  assert (t_socks (fst r) = t_socks s /\ (t_state (snd r) = SYN_SENT \/ t_state (snd r) = CLOSED)) as [Hs Hr].
  { unfold r. destruct (_ && _); [|by auto]. split; [by rewrite exit_with_socks|]. cbn. auto. }
  destruct r as [s1 t1]. cbn [fst snd] in Hs, Hr. destruct (flag TCP_F_SYN g).
  - cbv zeta. destruct (0 <? _); (eapply moved_ex; [|apply moved_upd; by autorewrite with tcp_socks]); cbn; auto with textos.
  - eapply moved_ex; [|by apply moved_upd]. destruct Hr as [->| ->]; auto with textos.
Qed.

Lemma rcvd_arc s i t g new s' :
  t_socks s !! i = Some t -> t_state t = SYN_RCVD -> t_ptcp t <> Some i -> tcp_rx_rcvd s i t g = Ok s' ->
  exists st, arc SYN_RCVD st /\ moved s i st new s'.
Proof.
  intros Ht Hst Hne E.
  assert (forall s', drop_passive s i t = Ok s' -> exists st, arc SYN_RCVD st /\ moved s i st new s') as Hdrop.
  { intros s1 Hd. unfold drop_passive in Hd. destruct (t_ptcp t) as [p|] eqn:Ep; [|discriminate]. cbn [deref res_bind] in Hd.
    destruct (t_socks s !! p) as [pt|] eqn:Hp; [|discriminate]. cbn [deref res_bind] in Hd. res_inv.
    exists SYN_RCVD. split; [auto with textos|]. split.
    - exists t. cbn -[insert lookup]. rewrite lookup_insert_ne by congruence. done.
    - intros k tk Hk _ Hl. cbn -[insert lookup]. destruct (decide (k = p)) as [->|]; [|exists tk; by rewrite lookup_insert_ne].
      rewrite lookup_insert_eq. eexists. split; [done|]. cbn. congruence. }
  assert (exists st, arc SYN_RCVD st /\ moved s i st new s) as Hstay.
  { exists SYN_RCVD. split; [auto with textos|]. rewrite <- Hst. by apply moved_same. }
  unfold tcp_rx_rcvd in E. destruct (flag TCP_F_RST g).
  { destruct (t_passive t); [by apply Hdrop|]. injection E as <-. eapply moved_ex; [|apply moved_upd; by rewrite !try_unblk_socks].
    cbn. rewrite Hst. auto with textos. }
  destruct (flag TCP_F_SYN g && t_passive t); [by apply Hdrop|]. destruct (flag TCP_F_ACK g); [|by injection E as <-].
  destruct (_ && _); [|by injection E as <-]. cbn [upd eta eta_tcp t_ptcp] in E. destruct (t_ptcp t) as [p|] eqn:Ep.
  - bind_inv E as pt Hp. injection E as <-. cbn -[insert lookup] in Hp. rewrite lookup_insert_ne in Hp by congruence.
    destruct (t_socks s !! p) as [pt0|] eqn:Hp0; [|discriminate]. injection Hp as ->. exists ESTABLISHED. split; [auto with textos|].
    split; rewrite try_unblk_socks; cbn -[insert lookup].
    + eexists. split; [rewrite lookup_insert_ne by congruence; apply lookup_insert_eq|done].
    + intros k tk Hk _ Hl. destruct (decide (k = p)) as [->|]; [|exists tk; by rewrite !lookup_insert_ne].
      rewrite lookup_insert_eq. eexists. split; [done|]. cbn. congruence.
  - injection E as <-. exists ESTABLISHED. split; [auto with textos|].
    match goal with |- moved s i _ new (try_unblk (upd_tcp s i ?t') _) => pose proof (moved_upd s s i t' new eq_refl) as [H1 H2] end.
    split; rewrite try_unblk_socks; done.
Qed.

Lemma x_ack_moves s t g r :
  tcp_x_ack s t g = Ok r -> t_socks (fst r) = t_socks s /\ keeps_rx t (snd r).
Proof.
  intros E. destruct (flag TCP_F_ACK g) eqn:Ea; [|unfold tcp_x_ack in E; by rewrite Ea in E].
  destruct (x_ack_keeps s t g Ea) as (r' & E' & K & Hs & _). rewrite E in E'. by injection E' as <-.
Qed.

Lemma established_arc s i t g new s' :
  t_socks s !! i = Some t -> t_state t = ESTABLISHED -> tcp_rx_established s i t g = Ok s' -> exists st, arc ESTABLISHED st /\ moved s i st new s'.
Proof.
  intros Ht Hst E. unfold tcp_rx_established in E. destruct (flag TCP_F_RST g).
  { injection E as <-. eapply moved_ex; [|apply moved_upd; by rewrite !try_unblk_socks]. cbn. rewrite Hst. auto with textos. }
  destruct (flag TCP_F_SYN g).
  { injection E as <-. exists ESTABLISHED. split; [auto with textos|]. rewrite <- Hst. apply moved_same; [apply tx_ack_socks|done]. }
  bind_inv E as [s1 t1] E1. assert (t_socks s1 = t_socks s /\ keeps_rx t t1) as [Hs1 [_ _ _ K]].
  { destruct (flag TCP_F_ACK g); [by apply x_ack_moves in E1|]. injection E1 as <- <-. split; [done|apply keeps_refl]. }
  bind_inv E as u Eu. pose proof (rx_data_frame s1 t1 g) as [Hs2 Hst2]. destruct (tcp_rx_data s1 t1 g) as [s2 t2]. cbn [fst snd] in *.
  injection E as <-. destruct (flag TCP_F_FIN g); (eapply moved_ex; [|apply moved_upd; congruence]); [cbn; auto with textos|].
  rewrite Hst2. rewrite Hst in K. destruct K as [->|[[_ ->]|[? _]]]; auto with textos. discriminate.
Qed.

Lemma closewait_arc s i t g new s' :
  t_socks s !! i = Some t -> t_state t = CLOSE_WAIT -> tcp_rx_closewait s i t g = Ok s' -> exists st, arc CLOSE_WAIT st /\ moved s i st new s'.
Proof.
  intros Ht Hst E. unfold tcp_rx_closewait in E. set (r := if flag TCP_F_RST g then _ else (s, t)) in E.
  assert (t_socks (fst r) = t_socks s /\ t_state (snd r) = CLOSE_WAIT) as [Hs Hr].
  { unfold r. destruct (flag TCP_F_RST g); [|done]. split; [by rewrite exit_with_socks|done]. }
  destruct r as [s0 t0]. cbn [fst snd] in Hs, Hr. destruct (flag TCP_F_SYN g).
  { injection E as <-. eapply moved_ex; [|apply moved_upd; by rewrite tx_ack_socks]. rewrite Hr. auto with textos. }
  bind_inv E as [s1 t1] E1. assert (t_socks s1 = t_socks s0 /\ keeps_rx t0 t1) as [Hs1 [_ _ _ K]].
  { destruct (flag TCP_F_ACK g); [by apply x_ack_moves in E1|]. injection E1 as <- <-. split; [done|apply keeps_refl]. }
  bind_inv E as u Eu. injection E as <-. eapply moved_ex; [|apply moved_upd; congruence].
  rewrite Hr in K. destruct K as [->|[[? _]|[_ ->]]]; auto with textos. discriminate.
Qed.

Lemma finwait_arc s i t g new s' :
  t_socks s !! i = Some t -> t_state t = FIN_WAIT1 \/ t_state t = FIN_WAIT2 -> tcp_rx_finwait s i t g = Ok s' ->
  exists st, arc (t_state t) st /\ moved s i st new s'.
Proof.
  intros Ht Hst E. unfold tcp_rx_finwait in E. destruct (flag TCP_F_RST g).
  { injection E as <-. eapply moved_ex; [|apply moved_upd; by rewrite !try_unblk_socks]. cbn. auto with textos. }
  destruct (flag TCP_F_SYN g).
  { injection E as <-. exists (t_state t). split; [auto with textos|]. apply moved_same; [apply tx_ack_socks|done]. }
  set (t1 := if _ && _ && _ then _ else t) in E.
  assert (t_state t1 = t_state t \/ (t_state t = FIN_WAIT1 /\ t_state t1 = FIN_WAIT2)) as K.
  { unfold t1. destruct (flag TCP_F_ACK g && _); [|auto]. cbn [andb]. case_bool_decide; auto. }
  bind_inv E as u Eu. pose proof (rx_data_frame s t1 g) as [Hs2 Hst2]. destruct (tcp_rx_data s t1 g) as [s2 t2]. cbn [fst snd] in *.
  injection E as <-. eapply moved_ex; [|by apply moved_upd]. rewrite <- Hst2 in K.
  destruct Hst as [Hst|Hst]; rewrite Hst in *; destruct (flag TCP_F_FIN g); destruct K as [K|[? K]]; try discriminate; rewrite ?K; cbn; rewrite ?K; auto with textos.
Qed.

(** The handlers of the last states. *)
Lemma reset_release_moves s i t g r :
  t_socks s !! i = Some t -> reset_release s i t g = Ok r ->
  (t_socks (fst r) = t_socks s /\ snd r = t) \/ (t_state (snd r) = CLOSED /\ t_socks (fst r) = <[i := snd r]> (t_socks s)).
Proof.
  intros Ht E. unfold reset_release in E. destruct (flag TCP_F_RST g); [|injection E as <-; auto]. right.
  bind_inv E as s1 E1. injection E as <-. split; [done|]. unfold tcp_release in E1. cbn -[insert lookup] in E1.
  rewrite lookup_insert_eq in E1. cbn [deref res_bind] in E1. res_inv. done.
Qed.

Lemma moved_after s s1 i t1 t2 new :
  (t_socks s1 = t_socks s \/ t_socks s1 = <[i := t1]> (t_socks s)) -> forall s2, t_socks s2 = t_socks s1 -> moved s i (t_state t2) new (upd_tcp s2 i t2).
Proof.
  intros Hs s2 Hs2. split; [exists t2; split; [cbn -[insert lookup]; apply lookup_insert_eq|done]|].
  intros k tk Hk _ Hl. exists tk. split; [|done]. cbn -[insert lookup]. rewrite lookup_insert_ne, Hs2 by done.
  destruct Hs as [->| ->]; [done|]. by rewrite lookup_insert_ne.
Qed.

Lemma last_arc (h : tcps -> Z -> tcp -> tcpseg -> res tcps) st0 s i t g new s' :
  (h = tcp_rx_lastack /\ st0 = LAST_ACK) \/ (h = tcp_rx_closing /\ st0 = CLOSING) \/ (h = tcp_rx_timewait /\ st0 = TIME_WAIT) ->
  t_socks s !! i = Some t -> t_state t = st0 -> h s i t g = Ok s' ->
  exists st, arc st0 st /\ moved s i st new s'.
Proof.
  intros Hh Ht Hst E. destruct Hh as [[-> ->]|[[-> ->]|[-> ->]]]; [unfold tcp_rx_lastack in E|unfold tcp_rx_closing in E|unfold tcp_rx_timewait in E].
  all: bind_inv E as [s1 t1] E1; pose proof (reset_release_moves _ _ _ _ _ Ht E1) as Hm; cbn [fst snd] in Hm.
  all: assert (t_socks s1 = t_socks s \/ t_socks s1 = <[i := t1]> (t_socks s)) as Hs by tauto.
  all: assert (t_state t1 = t_state t \/ t_state t1 = CLOSED) as Hc by (destruct Hm as [[_ ->]|[? _]]; auto); clear Hm.
  all: destruct (flag TCP_F_SYN g); [injection E as <-; eexists; split; [|apply (moved_after s s1 i t1 t1 new Hs); apply tx_ack_socks];
         rewrite Hst in Hc; destruct Hc as [->| ->]; auto with textos|].
  all: destruct (flag TCP_F_ACK g); bind_inv E as u Eu; try destruct (flag TCP_F_FIN g); injection E as <-;
    (eexists; split; [|eapply (moved_after s s1 i t1 _ new Hs); first [done|apply tx_ack_socks]]); cbn; rewrite Hst in Hc;
    destruct Hc as [Hc|Hc]; rewrite ?Hc; auto with textos.
Qed.

Lemma listen_moved s i t g new :
  t_socks s !! i = Some t -> t_state t = LISTEN -> i <> new -> moved s i LISTEN new (tcp_rx_listen s i t g new).
Proof.
  intros Ht Hst Hne. unfold tcp_rx_listen.
  assert (forall s1, t_socks s1 = t_socks s -> moved s i LISTEN new s1) as Hsame by (intros s1 Hs1; rewrite <- Hst; by apply moved_same).
  destruct (flag TCP_F_RST g); [by apply Hsame|]. destruct (flag TCP_F_ACK g); [by apply Hsame|]. destruct (flag TCP_F_SYN g); [|by apply Hsame].
  set (r := if _ =? _ then _ else _). assert (t_socks (fst r) = t_socks s /\ t_state (snd r) = LISTEN) as [Hs Hr].
  { unfold r. by destruct (_ =? _). }
  destruct r as [s1 t1]. cbn [fst snd] in Hs, Hr. unfold tcp_tx_agree, send. split; cbn -[insert lookup isn wrap].
  - eexists. split; [rewrite lookup_insert_ne by done; apply lookup_insert_eq|done].
  - intros k tk Hk Hkn Hl. exists tk. by rewrite !lookup_insert_ne, Hs by done.
Qed.

(** C28: whatever segment arrives, the state of its connection only moves along an arc of the TCP
    connection diagram, and no other existing connection changes its state. *)
Theorem tcp_input_follows_diagram s i t g new s' :
  t_socks s !! i = Some t -> i <> new -> t_ptcp t <> Some i -> tcp_input s i g new = Ok s' ->
  exists st, arc (t_state t) st /\ moved s i st new s'.
Proof.
  intros Ht Hne Hp E. unfold tcp_input in E. rewrite Ht in E. cbn [deref res_bind] in E. destruct (t_state t) eqn:Hst.
  - injection E as <-. exists CLOSED. split; [auto with textos|]. rewrite <- Hst. by apply moved_same.
  - injection E as <-. by apply sent_arc.
  - by eapply rcvd_arc.
  - injection E as <-. exists LISTEN. split; [auto with textos|]. by apply listen_moved.
  - by eapply established_arc.
  - by eapply closewait_arc.
  - by eapply (last_arc tcp_rx_lastack LAST_ACK); eauto.
  - rewrite <- Hst. eapply finwait_arc; eauto.
  - rewrite <- Hst. eapply finwait_arc; eauto.
  - by eapply (last_arc tcp_rx_closing CLOSING); eauto.
  - by eapply (last_arc tcp_rx_timewait TIME_WAIT); eauto.
Qed.

End Tcp.

(** ** Witnesses *)

Definition mb1 : mbuf := Mbuf (repeat 0 2048) 128 0 0 0 0 0.

Lemma mb1_empty : empty_mbuf mb1.
Proof. exists (repeat 0 128), (repeat 0 1920). split_and!; [split; vm_compute; reflexivity|reflexivity|reflexivity]. Qed.

(** A connection in state [st] whose next numbers are [nxt] and [rcv]. *)
Definition conn0 (st : state) (nxt rcv rport : Z) (q : list mbuf) : tcp :=
  Tcp 0 0 5 1000 rport DEFMSS true st 0 0 false None [] [] 1 0 1 nxt nxt [] [] q false false rcv 0 None None.

Definition sys0 (t : tcp) : tcps := Tcps {[ 7 := t ]} [7] [] (Bitmap [] 0) 0 [] [].

(** The segment with the bytes [p] at number [seq]. *)
Definition seg0 (seq flgs : Z) (p : list Z) : tcpseg :=
  wire (Tx 0 (Mbuf (repeat 0 128 ++ p ++ repeat 0 (1920 - length p)) 128 0 (Z.of_nat (length p)) 0 0 0) 5 80 1000 seq 500 flgs 0).

Lemma seg0_data b data off len flgs :
  (0 < len)%nat -> (off + len <= length data)%nat -> (len <= 536)%nat -> flgs = TCP_F_ACK \/ flgs = 0 ->
  data_seg b data (seg0 (b + Z.of_nat off) flgs (take len (drop off data))) off len.
Proof.
  intros Hl Hin H5 Hf. set (p := take len (drop off data)). assert (length p = len) as Lp by (unfold p; rewrite length_take, length_drop; lia).
  assert (packet (Mbuf (repeat 0 128 ++ p ++ repeat 0 (1920 - length p)) 128 0 (Z.of_nat (length p)) 0 0 0) = p) as Hp.
  { apply (holds_packet _ (repeat 0 128) p (repeat 0 (1920 - length p))). split; cbn [m_buf m_head m_len]; try done.
    rewrite !length_app, !repeat_length, Lp. unfold MBUF_SIZE. lia. }
  unfold seg0, wire. cbn [x_m]. rewrite Hp. split; cbn [g_seqnr g_seqlen g_buf x_seq x_flgs]; try done.
  - rewrite Lp. destruct Hf as [->| ->]; cbn -[wrap]; rewrite wrap_small; lia.
  - exists (repeat 0 60), (repeat 0 33 ++ flgs :: repeat 0 6), (repeat 0 (1948 - length p)). split; [|done].
    split; cbn [m_buf m_head m_len]; [by rewrite <- app_assoc|done|done|].
    rewrite !length_app. cbn [length]. rewrite !repeat_length, Lp. unfold MBUF_SIZE. lia.
  - unfold flag. cbn [g_flgs]. by destruct Hf as [->| ->].
  - unfold flag. cbn [g_flgs]. by destruct Hf as [->| ->].
  - unfold flag. cbn [g_flgs]. by destruct Hf as [->| ->].
Qed.

(** The second half arrives, is dropped, and arrives again after the first. *)
Lemma tcp_stream_in_order_witness :
  total (input_all mb1 (sys0 (conn0 ESTABLISHED 500 100 80 [])) 7 9 [seg0 102 16 [12; 13]; seg0 100 16 [10; 11]; seg0 102 16 [12; 13]])
    (rx_ok 7 100 [10; 11; 12; 13] 4).
Proof.
  apply (tcp_stream_in_order mb1 7 100 [10; 11; 12; 13] [seg0 102 16 [12; 13]; seg0 100 16 [10; 11]; seg0 102 16 [12; 13]]
    [(2, 2); (0, 2); (2, 2)]%nat (sys0 (conn0 ESTABLISHED 500 100 80 [])) 0 9).
  - discriminate.
  - reflexivity.
  - exists (conn0 ESTABLISHED 500 100 80 []). split_and!; try reflexivity; [left; reflexivity|apply Nat.le_0_l].
  - pose proof (seg0_data 100 [10; 11; 12; 13] 2 2 16) as H1. pose proof (seg0_data 100 [10; 11; 12; 13] 0 2 16) as H2.
    cbn [take drop] in H1, H2. change (100 + Z.of_nat 2) with 102 in H1. change (100 + Z.of_nat 0) with 100 in H2.
    repeat (apply Forall2_cons; split; [split; [(apply H1 || apply H2); first [left; reflexivity|cbn; lia]|reflexivity]|]).
    by apply Forall2_nil.
Defined.

Lemma tcp_early_fin_loses_data_witness :
  total (input_all mb1 (sys0 (conn0 ESTABLISHED 500 100 80 [])) 7 9 [seg0 102 17 [12]; seg0 100 16 [10; 11]]) (half_closed 7 []).
Proof.
  apply (tcp_early_fin_loses_data mb1 _ 7 (conn0 ESTABLISHED 500 100 80 [])); try reflexivity; [split_and!; reflexivity|].
  apply Forall_cons. split; [split_and!; reflexivity|by apply Forall_nil].
Defined.

(** Queued packets with the flags [f] and the bytes [p]. *)
Definition pkt0 (f : Z) (p : list Z) : mbuf :=
  Mbuf (repeat 0 60 ++ (repeat 0 20 ++ (repeat 0 13 ++ f :: repeat 0 6) ++ p) ++ repeat 0 (1948 - length p)) 60 0 (40 + Z.of_nat (length p)) 0 0 0.

Lemma pkt0_rx f p : (length p <= 1000)%nat -> rx_packet (pkt0 f p) f p.
Proof.
  intros Hl. exists (repeat 0 60), (repeat 0 20), (repeat 0 13), (repeat 0 6), (repeat 0 (1948 - length p)). split; [|done].
  split; cbn [m_buf m_head m_len pkt0]; try done; rewrite !length_app; cbn [length]; rewrite ?length_app, ?repeat_length; cbn [length];
    rewrite ?repeat_length; unfold MBUF_SIZE; lia.
Qed.

Lemma tcp_recv_upto_push_witness :
  tcp_recvmsg 2 (sys0 (conn0 ESTABLISHED 500 100 80 [pkt0 16 [10; 11]; pkt0 24 [12]; pkt0 24 [13]])) 7 3 64 =
    Ok (RxDone 3 [10; 11; 12], upd_tcp (sys0 (conn0 ESTABLISHED 500 100 80 [pkt0 16 [10; 11]; pkt0 24 [12]; pkt0 24 [13]])) 7
          (conn0 ESTABLISHED 500 100 80 [pkt0 24 [13]])).
Proof.
  apply (tcp_recv_upto_push _ 7 3 64 (conn0 ESTABLISHED 500 100 80 [pkt0 16 [10; 11]; pkt0 24 [12]; pkt0 24 [13]])
    [pkt0 16 [10; 11]] (pkt0 24 [12]) [pkt0 24 [13]] [[10; 11]] [12] 24 [16]).
  - reflexivity.
  - reflexivity.
  - discriminate.
  - apply Forall2_cons. split; [split; [apply pkt0_rx; cbn; lia|reflexivity]|by apply Forall2_nil].
  - reflexivity.
  - apply pkt0_rx. cbn. lia.
  - reflexivity.
  - reflexivity.
  - discriminate.
Defined.

Lemma tcp_partial_read_skips_witness :
  exists s1 s2, tcp_recvmsg 1 (sys0 (conn0 ESTABLISHED 500 100 80 [pkt0 24 ([1; 2] ++ repeat 65 20 ++ (repeat 65 13 ++ 72 :: repeat 65 6) ++ [3; 4])])) 7 3 2 =
      Ok (RxDone 2 [1; 2], s1) /\
    tcp_recvmsg 1 s1 7 3 64 = Ok (RxDone 2 [3; 4], s2).
Proof.
  apply (tcp_partial_read_skips _ 7 3 (conn0 ESTABLISHED 500 100 80 [pkt0 24 ([1; 2] ++ repeat 65 20 ++ (repeat 65 13 ++ 72 :: repeat 65 6) ++ [3; 4])])
    (pkt0 24 ([1; 2] ++ repeat 65 20 ++ (repeat 65 13 ++ 72 :: repeat 65 6) ++ [3; 4])) [] 24 [1; 2] (repeat 65 20) (repeat 65 13) 72 (repeat 65 6) [3; 4] 64).
  - reflexivity.
  - reflexivity.
  - discriminate.
  - apply pkt0_rx. cbn. lia.
  - reflexivity.
  - discriminate.
  - reflexivity.
  - reflexivity.
  - reflexivity.
  - reflexivity.
  - reflexivity.
  - discriminate.
Defined.

Definition fresh_conn : tcp := conn0 CLOSED 0 0 0 [].

Definition listener (backlog : Z) : tcp := (conn0 LISTEN 0 0 0 []) <| t_backlog := backlog |>.

Lemma fresh_can_connect : can_connect (sys0 fresh_conn) 7 (SockaddrIn 80 5) fresh_conn.
Proof. split_and!; try reflexivity; discriminate. Qed.

Lemma listener_listens b : listening (sys0 (listener b)) 7 (listener b).
Proof. split; reflexivity. Qed.

(** The reply of a listener with room, as the handshake says. *)
Lemma tcp_handshake_witness :
  exists c1 x1, tcp_connect mb1 (sys0 fresh_conn) 7 3 (SockaddrIn 80 5) SOCKADDR_IN_SIZE = Ok (None, c1) /\ last (t_out c1) = Some x1 /\
    forall g1, carries x1 g1 -> exists s1 x2, tcp_input mb1 (sys0 (listener 1)) 7 g1 9 = Ok s1 /\ t_out s1 = [] ++ [x2].
Proof.
  destruct (tcp_handshake mb1 (sys0 fresh_conn) 7 (SockaddrIn 80 5) fresh_conn 3 (sys0 (listener 1)) 7 (listener 1) 9 4 6 fresh_can_connect
    (listener_listens 1)) as (c1 & x1 & E1 & E2 & H).
  - reflexivity.
  - reflexivity.
  - discriminate.
  - discriminate.
  - exists c1, x1. split; [exact E1|]. split; [exact E2|]. intros g1 Hg. destruct (H g1 Hg) as (s1 & x2 & E3 & E4 & _).
    exists s1, x2. split; [exact E3|exact E4].
Defined.

Lemma tcp_backlog_refuses_witness :
  exists c1 x1, tcp_connect mb1 (sys0 fresh_conn) 7 3 (SockaddrIn 80 5) SOCKADDR_IN_SIZE = Ok (None, c1) /\ last (t_out c1) = Some x1 /\
    forall g1, carries x1 g1 -> exists s1 x2 x3, tcp_input mb1 (sys0 (listener 5)) 7 g1 9 = Ok s1 /\ t_out s1 = [] ++ [x2; x3].
Proof.
  destruct (tcp_backlog_refuses mb1 (sys0 fresh_conn) 7 (SockaddrIn 80 5) fresh_conn 3 (sys0 (listener 5)) 7 (listener 5) 9) as (c1 & x1 & E1 & E2 & H).
  - reflexivity.
  - exact fresh_can_connect.
  - reflexivity.
  - exact (listener_listens 5).
  - discriminate.
  - discriminate.
  - exists c1, x1. split; [exact E1|]. split; [exact E2|]. intros g1 Hg. destruct (H g1 Hg) as (s1 & x2 & x3 & E3 & E4 & _).
    exists s1, x2, x3. split; [exact E3|exact E4].
Defined.

Lemma tcp_transfer_witness :
  exists s1, tcp_sendmsg mb1 (sys0 (conn0 ESTABLISHED 500 100 80 [])) 7 (repeat 65 600) = Ok (600, s1) /\
    total (exchange mb1 602 s1 7 (sys0 (conn0 ESTABLISHED 100 500 80 [])) 7) (fun sr =>
      tx_done (fst sr) 7 1100 100 /\ rx_side (snd sr) 7 1100 100 ([] ++ repeat 65 600)).
Proof.
  apply (tcp_transfer mb1 (sys0 (conn0 ESTABLISHED 500 100 80 [])) 7 (sys0 (conn0 ESTABLISHED 100 500 80 [])) 7 500 100 [] (repeat 65 600)
    (conn0 ESTABLISHED 500 100 80 [])).
  - exact mb1_empty.
  - exists (conn0 ESTABLISHED 500 100 80 []). unfold open_conn. split_and!; reflexivity.
  - reflexivity.
  - discriminate.
  - exists (conn0 ESTABLISHED 100 500 80 []). unfold open_conn. split_and!; reflexivity.
  - discriminate.
  - reflexivity.
  - reflexivity.
  - split; [discriminate|reflexivity].
Defined.

Lemma tcp_input_follows_diagram_witness :
  exists st s', arc ESTABLISHED st /\ tcp_input mb1 (sys0 (conn0 ESTABLISHED 500 100 80 [])) 7 (seg0 100 17 [10]) 9 = Ok s' /\
    moved (sys0 (conn0 ESTABLISHED 500 100 80 [])) 7 st 9 s'.
Proof.
  destruct (tcp_input mb1 (sys0 (conn0 ESTABLISHED 500 100 80 [])) 7 (seg0 100 17 [10]) 9) as [s'|] eqn:E; [|vm_compute in E; discriminate E].
  destruct (tcp_input_follows_diagram mb1 (sys0 (conn0 ESTABLISHED 500 100 80 [])) 7 (conn0 ESTABLISHED 500 100 80 []) (seg0 100 17 [10]) 9 s') as (st & Ha & Hm).
  - reflexivity.
  - discriminate.
  - discriminate.
  - exact E.
  - exists st, s'. split; [exact Ha|]. split; [reflexivity|exact Hm].
Defined.
