(* ===== verification/NetRx.v ===== *)
(** * The receiving path: [nif_eth_rx], [net_rx_ip]

    The whole stack: the interfaces and the sockets of every kind. *)
From Stdlib Require Import ZArith Lia List Bool.
From stdpp Require Import base list gmap.
From S2P Require Import Prelude Bitmap Bytes Mbuf Net Sock Tcp.

#[local] Open Scope Z_scope.

Record stack := Stack { k_net : net; k_raw : raws; k_udp : udps; k_tcp : tcps }.

#[export] Instance eta_stack : Eta stack := fun k => Stack (k_net k) (k_raw k) (k_udp k) (k_tcp k).

(** The segments TCP has decided to send go out. *)
Fixpoint run_all (w : net) (xs : list txcall) : res net :=
  match xs with
  | [] => Ok w
  | x :: xs => let! w := run_tx w x in run_all w xs
  end.

Definition flush_tcp (k : stack) : res stack :=
  let! w := run_all (k_net k) (t_out (k_tcp k)) in
  Ok (k <| k_net := w |> <| k_tcp ::= fun s => s <| t_out := [] |> |>).

Section Rx.
Variable mb0 : mbuf.

(** [hdr->flgs & 4] tests the reserved bit of the field. *)
Definition net_rx_ip (k : stack) (i : Z) (m : mbuf) (new : Z) : res stack :=
  let! n := aget (nifs (k_net k)) i in
  let! b0 := hdr8 m 0 in
  let! len := hdr16 m 2 in
  let! b6 := hdr8 m 6 in
  let! off1 := hdr8 m 7 in
  let! ptype := hdr8 m 9 in
  let! sip := hdr32 m 12 in
  let! dip := hdr32 m 16 in
  let m := mbuf_pull m 20 in
  let drop := Ok (k <| k_net ::= fun w => free_mbuf w m |>) in
  if negb (Z.shiftr b0 4 =? 4) then drop
  else if negb (Z.land b0 15 =? 5) then drop
  else if negb (Z.land (Z.shiftr b6 5) 4 =? 0) || negb (Z.land b6 31 =? 0) || negb (off1 =? 0) then drop
  else if negb (ip_addr_cmp (n_ip n) dip) then drop
  else
    let m := m <| m_len := u64 (ntohs len - 20) |> in
    let! r := sock_rx_raw (k_raw k) sip dip ptype m in
    let '(ret, raw) := r in
    let k := k <| k_raw := raw |> in
    if 0 <? ret then Ok k
    else if ptype =? IP_P_ICMP then let! w := net_rx_icmp (k_net k) i m sip in Ok (k <| k_net := w |>)
    else if ptype =? IP_P_TCP then
      let! r := sock_rx_tcp mb0 (k_tcp k) i sip dip m new in flush_tcp (k <| k_tcp := snd r |>)
    else if ptype =? IP_P_UDP then let! r := sock_rx_udp (k_udp k) sip dip m in Ok (k <| k_udp := snd r |>)
    else Ok k.

Definition nif_eth_rx (k : stack) (i : Z) (m : mbuf) (new : Z) : res stack :=
  let! type := hdr16 m 12 in
  let m := mbuf_pull m 14 in
  if ntohs type =? ETH_IP then net_rx_ip k i m new
  else if ntohs type =? ETH_ARP then let! w := net_rx_arp (k_net k) i m in Ok (k <| k_net := w |>)
  else Ok k.

(** ** Answering an echo request *)

(** The IP header of a packet that is no fragment, and an ICMP message. *)
Definition ip_in (tos id0 id1 b6 ttl ptype c0 c1 len sip dip : Z) : list Z :=
  ([69; tos] ++ le16 (htons len)) ++ [id0; id1; b6; 0; ttl; ptype; c0; c1] ++ le32 sip ++ le32 dip.

Definition icmp_msg (type code : Z) (ck rest : list Z) : list Z := [type; code] ++ ck ++ rest.

Lemma icmp_reply_holds w i n m pre ih code ck rest p post sip hw eth :
  aget (nifs w) i = Ok n -> arp_fresh w n sip hw -> length (n_mac n) = 6%nat ->
  holds m (pre ++ eth ++ ih) (icmp_msg ICMP_REQUEST code ck rest ++ p) post ->
  length eth = 14%nat -> length ih = 20%nat -> length ck = 2%nat -> length rest = 4%nat -> is_byte code ->
  Forall is_byte ih -> Forall is_byte rest -> Forall is_byte p ->
  exists w' f tos id c c', net_rx_icmp w i m sip = Ok w' /\ aget (nifs w') i = Ok (n <| n_sent ::= fun l => l ++ [f] |>) /\
    packet f = eth_bytes hw (n_mac n) ETH_IP ++ ip_bytes tos id (28 + Z.of_nat (length p)) IP_P_ICMP c (n_ip n) sip ++
               icmp_msg ICMP_REPLY code (le16 c') rest ++ p /\
    cksum (ip_bytes tos id (28 + Z.of_nat (length p)) IP_P_ICMP c (n_ip n) sip) = Ok 0 /\
    icmp_cksum (icmp_msg ICMP_REPLY code (le16 c') rest ++ p) = 0.
Proof.
  intros Hn Ha Hmac Hm Le Li Lc Lr Bc Bi Br Bp. unfold net_rx_icmp.
  rewrite (hdr8_holds m _ [] ICMP_REQUEST (code :: (ck ++ rest) ++ p) post 0 Hm eq_refl).
  cbn [res_bind]. change (ICMP_REQUEST =? ICMP_REPLY) with false. change (ICMP_REQUEST =? ICMP_REQUEST) with true. cbv iota.
  unfold net_rp_icmp. assert (length (icmp_msg ICMP_REQUEST code ck rest) = 8)%nat as L8 by (cbn; rewrite length_app; lia).
  assert (holds (mbuf_push (mbuf_pull m 8) 8) (pre ++ eth ++ ih) (icmp_msg ICMP_REQUEST code ck rest ++ p) post) as Hm1.
  { apply push_back; [|by rewrite L8]. apply pull_holds in Hm. by rewrite L8 in Hm. }
  do 2 (destruct ck as [|? ck]; [discriminate|]). destruct ck; [|discriminate].
  destruct (set_hdrs_put [(0, [ICMP_REPLY]); (2, [0; 0])] _ _ _ _ Hm1) as (m2 & -> & Hm2 & _).
  { apply Forall_cons. split; [split; cbn; lia|]. apply Forall_cons. split; [split; cbn; rewrite ?length_app; lia|]. by apply Forall_nil. }
  cbn [res_bind]. set (a := [ICMP_REPLY; code]). set (b := rest ++ p).
  assert (holds m2 (pre ++ eth ++ ih) (a ++ [0; 0] ++ b) post) as Hm3 by exact Hm2.
  pose proof (holds_bounds _ _ _ _ Hm3) as Hk. rewrite !length_app in Hk. cbn [length] in Hk. pose proof Hm3 as [Hbuf Hhd Hlen _].
  rewrite Hlen, signed_small by (rewrite ?length_app; cbn [length]; lia). rewrite Nat2Z.id, Hbuf, Hhd, ld_app. cbn [res_bind].
  assert (length a = 2 /\ length b = 4 + length p)%nat as [La Lb] by (unfold b; by rewrite length_app, Lr).
  destruct (cksum_verifies [] a b) as (_ & Hc & Hv); try done; [unfold a; bytes|unfold b; bytes|cbn [length]; lia|].
  set (c' := icmp_cksum (a ++ [0; 0] ++ b)) in *.
  destruct (set_hdr_holds m2 _ a [0; 0] b post (le16 c') 2 Hm3) as (m3 & -> & Hm4 & _); [done|done|]. cbn [res_bind].
  rewrite app_assoc in Hm4. destruct (net_tx_ip_eq w i n m3 (pre ++ eth) ih _ post sip IP_P_ICMP Hn Hm4 Li Bi)
    as (m4 & tos & id & c & -> & Hm5 & _ & Hv5 & _).
  destruct (net_tx_arpip_cached w i n m4 pre eth _ post sip hw Hn Ha Hm5 Le Hmac) as (w' & f & -> & Hn' & Hm6).
  assert (20 + Z.of_nat (length (a ++ le16 c' ++ b)) = 28 + Z.of_nat (length p)) as El.
  { rewrite !length_app. unfold b. rewrite length_app. cbn [length a le16]. lia. }
  rewrite El in *. exists w', f, tos, id, c, c'. split_and!; [done|done| |exact Hv5|].
  - rewrite (holds_packet _ _ _ _ Hm6). unfold icmp_msg, b. by rewrite <- !app_assoc.
  - unfold icmp_msg. rewrite <- !app_assoc. exact Hv.
Qed.

(** A frame with an echo request for this host. *)
Definition echo_request (n : nif) (m : mbuf) (pre eth ih p post : list Z) (code : Z) (ck rest : list Z) (sip : Z) : Prop :=
  exists tos id0 id1 b6 ttl c0 c1, ih = ip_in tos id0 id1 b6 ttl IP_P_ICMP c0 c1 (28 + Z.of_nat (length p)) sip (n_ip n) /\
    (b6 = 0 \/ b6 = 0x40) /\ holds m pre ((eth ++ le16 (htons ETH_IP)) ++ ih ++ icmp_msg ICMP_REQUEST code ck rest ++ p) post /\
    length eth = 12%nat /\ length ck = 2%nat /\ length rest = 4%nat.

Lemma holds_set_len m pre p post v : holds m pre p post -> v = Z.of_nat (length p) -> holds (m <| m_len := v |>) pre p post.
Proof. intros [H1 H2 H3 H4] ->. by split. Qed.

(** The fields of an IP header read back. *)
Lemma ip_in_fields m pre tos id0 id1 b6 ttl ptype c0 c1 len sip dip p post :
  holds m pre (ip_in tos id0 id1 b6 ttl ptype c0 c1 len sip dip ++ p) post ->
  0 <= len < 2 ^ 16 -> 0 <= sip < 2 ^ 32 -> 0 <= dip < 2 ^ 32 ->
  hdr8 m 0 = Ok 69 /\ hdr16 m 2 = Ok (htons len) /\ hdr8 m 6 = Ok b6 /\ hdr8 m 7 = Ok 0 /\ hdr8 m 9 = Ok ptype /\
  hdr32 m 12 = Ok sip /\ hdr32 m 16 = Ok dip.
Proof.
  intros Hm Hl Hs Hd. set (L := htons len). assert (0 <= L < 65536) as HL.
  { unfold L. rewrite htons_eq by done. dlia. }
  pose proof (le16_word L HL) as EL. pose proof (bytes4 sip Hs) as Es. pose proof (bytes4 dip Hd) as Ed.
  unfold ip_in in Hm. fold L in Hm. rewrite (le32_eq sip), (le32_eq dip) in Hm by done. unfold le16 in Hm. cbn [app] in Hm.
  match type of Hm with holds _ _ (?x0 :: ?x1 :: ?x2 :: ?x3 :: ?x4 :: ?x5 :: ?x6 :: ?x7 :: ?x8 :: ?x9 :: ?x10 :: ?x11 :: ?y) _ =>
    rewrite (hdr8_holds m pre [] x0 _ post 0 Hm eq_refl);
    rewrite (hdr16_holds m pre [x0; x1] x2 x3 _ post 2 Hm eq_refl);
    rewrite (hdr8_holds m pre [x0; x1; x2; x3; x4; x5] x6 _ post 6 Hm eq_refl);
    rewrite (hdr8_holds m pre [x0; x1; x2; x3; x4; x5; x6] x7 _ post 7 Hm eq_refl);
    rewrite (hdr8_holds m pre [x0; x1; x2; x3; x4; x5; x6; x7; x8] x9 _ post 9 Hm eq_refl);
    rewrite (hdr32_holds m pre [x0; x1; x2; x3; x4; x5; x6; x7; x8; x9; x10; x11] _ _ _ _ _ post 12 Hm eq_refl);
    match y with ?s0 :: ?s1 :: ?s2 :: ?s3 :: _ =>
      rewrite (hdr32_holds m pre [x0; x1; x2; x3; x4; x5; x6; x7; x8; x9; x10; x11; s0; s1; s2; s3] _ _ _ _ _ post 16 Hm eq_refl) end end.
  split_and!; try done; f_equal; lia.
Qed.

(** C35: a frame with an ICMP echo request for this host, from a neighbour whose hardware address is
    known, is answered with one frame to that neighbour: the same identifier, sequence number
    and data, source and destination exchanged, and IP and ICMP checksums that verify.  No raw
    socket is open; one for ICMP would take the request, and no reply would be sent. *)
Theorem ping_answered k i n m pre eth ih p post code ck rest sip hw new :
  aget (nifs (k_net k)) i = Ok n -> arp_fresh (k_net k) n sip hw -> length (n_mac n) = 6%nat -> r_intype (k_raw k) = [] ->
  echo_request n m pre eth ih p post code ck rest sip -> 0 <= sip < 2 ^ 32 -> 0 <= n_ip n < 2 ^ 32 -> is_byte code ->
  Forall is_byte ih -> Forall is_byte rest -> Forall is_byte p ->
  exists k' f tos id c c', nif_eth_rx k i m new = Ok k' /\ aget (nifs (k_net k')) i = Ok (n <| n_sent ::= fun l => l ++ [f] |>) /\
    packet f = eth_bytes hw (n_mac n) ETH_IP ++ ip_bytes tos id (28 + Z.of_nat (length p)) IP_P_ICMP c (n_ip n) sip ++
               icmp_msg ICMP_REPLY code (le16 c') rest ++ p /\
    cksum (ip_bytes tos id (28 + Z.of_nat (length p)) IP_P_ICMP c (n_ip n) sip) = Ok 0 /\
    icmp_cksum (icmp_msg ICMP_REPLY code (le16 c') rest ++ p) = 0.
Proof.
  intros Hn Ha Hmac Hraw (tos & id0 & id1 & b6 & ttl & c0 & c1 & -> & Hb6 & Hm & Le & Lc & Lr) Hsip Hip Bc Bi Br Bp.
  pose proof (holds_bounds _ _ _ _ Hm) as Hk. rewrite !length_app in Hk. unfold nif_eth_rx.
  pose proof Hm as Hm0. rewrite <- app_assoc in Hm0. unfold le16 at 1 in Hm0. cbn [app] in Hm0.
  rewrite (hdr16_holds m pre eth _ _ _ post 12 Hm0) by (by rewrite Le). clear Hm0. cbn [res_bind].
  change (ntohs _ =? ETH_IP) with true. cbv iota. apply pull_holds in Hm.
  assert (Z.of_nat (length (eth ++ le16 (htons ETH_IP))) = 14) as L14 by (rewrite length_app, Le; done). rewrite L14 in Hm.
  set (m1 := mbuf_pull m 14) in *. set (len := 28 + Z.of_nat (length p)) in *. unfold net_rx_ip. rewrite Hn. cbn [res_bind].
  destruct (ip_in_fields _ _ _ _ _ _ _ _ _ _ _ _ _ _ _ Hm) as (E0 & E2 & E6 & E7 & E9 & E12 & E16); [unfold len; lia|done|done|].
  rewrite E0, E2, E6, E7, E9, E12, E16. cbn [res_bind].
  change (negb (Z.shiftr 69 4 =? 4)) with false. change (negb (Z.land 69 15 =? 5)) with false.
  assert (negb (Z.land (Z.shiftr b6 5) 4 =? 0) || negb (Z.land b6 31 =? 0) || negb (0 =? 0) = false) as -> by (by destruct Hb6 as [->| ->]).
  unfold ip_addr_cmp. rewrite Z.eqb_refl. cbn [negb]. unfold sock_rx_raw. rewrite Hraw. cbn [rx_raw_loop res_bind].
  change (0 <? 0) with false. change (IP_P_ICMP =? IP_P_ICMP) with true. cbv iota. cbn [k_net upd eta eta_stack].
  apply pull_holds in Hm. assert (length (ip_in tos id0 id1 b6 ttl IP_P_ICMP c0 c1 len sip (n_ip n)) = 20%nat) as L20 by done.
  rewrite L20 in Hm. change (Z.of_nat 20) with 20 in Hm.
  apply (holds_set_len _ _ _ _ (u64 (ntohs (htons len) - 20))) in Hm.
  2: { assert (ntohs (htons len) = len) as ->.
       { change ntohs with htons. unfold len. rewrite !htons_eq by (rewrite ?htons_eq; dlia). dlia. }
       rewrite wrap_small by (unfold len; lia). rewrite length_app. cbn. rewrite length_app. unfold len. lia. }
  rewrite <- (app_assoc pre) in Hm. destruct (icmp_reply_holds (k_net k) i n _ pre _ code ck rest p post sip hw _ Hn Ha Hmac Hm)
    as (w' & f & tos' & id & c & c' & -> & H); try done; [lia|].
  eexists _, f, tos', id, c, c'. split; [reflexivity|]. exact H.
Qed.

End Rx.

(** ** Witness: the neighbour 10.0.0.3 pings with two bytes of data *)

Definition ih0 : list Z := ip_in 0 0 1 0x40 64 IP_P_ICMP 0 0 30 0x0300000A 0x0A00000A.

Definition ping0 : mbuf :=
  Mbuf (repeat 0 60 ++ ((repeat 0 12 ++ le16 (htons ETH_IP)) ++ ih0 ++ icmp_msg ICMP_REQUEST 0 [0; 0] [0; 1; 0; 7] ++ [8; 9]) ++ repeat 0 1944)
       60 0 44 0 0 0.

Definition stack0 : stack := Stack net0 (Raws ∅ [] []) (udps0 None) (sys0 fresh_conn).

Lemma ping_answered_witness :
  exists k' f tos id c c', nif_eth_rx mb1 stack0 0 ping0 9 = Ok k' /\ aget (nifs (k_net k')) 0 = Ok (nif0 <| n_sent ::= fun l => l ++ [f] |>) /\
    packet f = eth_bytes [2; 0; 0; 0; 0; 3] [2; 0; 0; 0; 0; 1] ETH_IP ++ ip_bytes tos id 30 IP_P_ICMP c 0x0A00000A 0x0300000A ++
               icmp_msg ICMP_REPLY 0 (le16 c') [0; 1; 0; 7] ++ [8; 9] /\
    cksum (ip_bytes tos id 30 IP_P_ICMP c 0x0A00000A 0x0300000A) = Ok 0 /\
    icmp_cksum (icmp_msg ICMP_REPLY 0 (le16 c') [0; 1; 0; 7] ++ [8; 9]) = 0.
Proof.
  apply (ping_answered mb1 stack0 0 nif0 ping0 (repeat 0 60) (repeat 0 12) ih0 [8; 9] (repeat 0 1944) 0 [0; 0] [0; 1; 0; 7] 0x0300000A [2; 0; 0; 0; 0; 3] 9).
  - reflexivity.
  - exists 0%nat, (Arpent true 6000 6100 0x0300000A [2; 0; 0; 0; 0; 3] []). split_and!; try reflexivity. discriminate.
  - reflexivity.
  - reflexivity.
  - exists 0, 0, 1, 0x40, 64, 0, 0. split_and!; try reflexivity; [right; reflexivity|]. split; vm_compute; reflexivity.
  - split; [discriminate|reflexivity].
  - split; [discriminate|reflexivity].
  - split; [discriminate|reflexivity].
  - unfold ih0, ip_in. bytes.
  - bytes.
  - bytes.
Defined.
